(* ===== verification/_CoqProject ===== *)
-Q . S2P
Prelude.v
CString.v
TwinDefs.v
World.v
Utils.v
Ledger.v
Http.v
FileUtils.v
Certificates.v
TimeUtils.v
Parson.v
ParsonModel.v
Json.v
Authentication.v
LocalConfig.v
TwinUtils.v
TwinCollectors.v
TwinConfiguration.v
TwinReport.v
MemoryMonitor.v
Telemetry.v
Queue.v
SyncQueue.v
Schema.v
MessageSerializer.v
GenericEvent.v
Collector.v
EventAggregator.v
ConfigurationError.v
TelemetryCollector.v
IoTHub.v
UpdateTwin.v
EventMonitor.v
EventPublisher.v
Scheduler.v
SecurityAgent.v
AuditLog.v
AuditCollector.v
UserLogin.v
AuditControl.v
AggregatingCollector.v
SdkMap.v
ConnectionCreate.v
ProcessCreation.v
Iptables.v
IptablesIterator.v
Firewall.v
PortsIterator.v
ListeningPorts.v
