(* ===== verification/Prelude.v ===== *)
(** * Azure Security Center for IoT, C security agent: verification library

    The agent ([src/src/agent]) collects security events on a device, keeps them
    in two priority queues within a memory budget, and sends them to the cloud
    in messages of bounded size.  What it collects, how often it sends and how
    much it may keep comes from a device twin, a JSON document that may change
    at any time.  This library models the agent from [main] to the calls of the
    libraries it is linked with: start up, authentication, the scheduled tasks,
    the queues and the configuration they share, and the collectors of events.

    ** The parts and how they interact

    - [SecurityAgent.v] ([security_agent.c], [main.c]) initialises every module
      in order, starts the threads and releases everything.  It first reads the
      configuration file ([LocalConfig.v]: [local_config.c]), which asks the
      authentication manager ([Authentication.v]: [authentication_manager.c])
      for the identity of the security module and its connection string: over
      HTTP ([Http.v]) from the hub, with the device provisioning service when
      the host name is not in the file.  Certificates are read by
      [Certificates.v] ([certificate_manager.c]) and files by [FileUtils.v].
    - A scheduler thread runs one task at an interval ([Scheduler.v]:
      [scheduler_thread.c]).  The tasks are: running the collectors
      ([EventMonitor.v]: [tasks/event_monitor_task.c]), sending messages
      ([EventPublisher.v]: [tasks/event_publisher_task.c]) and applying twin
      updates ([UpdateTwin.v]: [tasks/update_twin_task.c]).
    - The adapter [IoTHub.v] ([iothub_adapter.c]) connects, sends, reports the
      configuration and turns the twin callback of the SDK into a work item for
      the twin task.
    - The twin is read with the JSON handles ([Json.v]: [json/*.c] over parson)
      into two file-scope statics: the configuration ([TwinConfiguration.v]:
      [twin_configuration.c]) and the priorities and aggregation settings of the
      event collectors ([TwinCollectors.v]:
      [twin_configuration_event_collectors.c]).  Single values go through
      [TwinUtils.v] ([twin_configuration_utils.c]); intervals are ISO 8601
      durations ([TimeUtils.v]: [internal/time_utils.c]); [TwinReport.v] relates
      the reported document to the configuration.
    - A collector writes an event with [GenericEvent.v]
      ([collectors/linux/generic_event.c]) and pushes its text into a queue, or
      first counts equal events in an aggregator ([EventAggregator.v]:
      [collectors/event_aggregator.c]).  [Collector.v] has the steps that every
      collector takes.  [ConfigurationError.v] and [TelemetryCollector.v] report
      on the agent itself ([collectors/agent_configuration_error_collector.c],
      [collectors/agent_telemetry_collector.c]).
    - Three collectors read the audit log of the system through [AuditLog.v]
      ([os_utils/linux/audit/audit_search*.c]) and [AuditCollector.v]
      ([collectors/linux/generic_audit_event.c]): logins ([UserLogin.v]),
      connections ([ConnectionCreate.v]) and executions ([ProcessCreation.v]).
      The last two ask the kernel to audit what they need ([AuditControl.v]:
      [os_utils/linux/audit/audit_control.c]) and share the life of an
      aggregator ([AggregatingCollector.v]).
    - [Firewall.v] ([collectors/linux/firewall_collector.c]) reports the rules of
      the filter table, through the iterators of [IptablesIterator.v] and the
      texts of [Iptables.v] ([os_utils/linux/iptables/*.c]).
    - [ListeningPorts.v] ([collectors/linux/listening_ports_collector.c]) reports
      the sockets that [PortsIterator.v]
      ([os_utils/linux/listening_ports_iterator.c]) reads from the system, with
      the processes that have them.
    - A queue is a linked list in a heap ([Queue.v]: [queue.c]) under a lock
      ([SyncQueue.v]: [synchronized_queue.c]).  Every push asks the memory
      monitor for its size ([MemoryMonitor.v]: [memory_monitor.c],
      [synchronized_memory_monitor.c], [internal/internal_memory_monitor.c]),
      which reads the limit from the twin configuration, and counts in the
      telemetry ([Telemetry.v]: [agent_telemetry_counters.c],
      [agent_telemetry_provider.c]).
    - The serializer pops events from the queues in order of priority while the
      next one fits and writes one message ([MessageSerializer.v]:
      [message_serializer.c]).

    Data shared by several files is in [TwinDefs.v] (types, defaults and keys of
    the twin, duration constants) and [Schema.v] ([message_schema_consts.c]);
    [Utils.v] is [utils.c] and [CString.v] the part of the C library they call.
    [Ledger.v] counts what a unit holds of the allocator.

    ** How the code is represented

    - A function keeps its C name.  A function that reads or changes a static,
      allocates, locks or asks for the time is a computation [M World A] of the
      state monad below; queue functions run over [Store], a [World] and a heap
      of queue items; the aggregator over [AgState], a [Store] and a heap of
      aggregated items; each collector, task and adapter over a record of the
      statics of its unit and of what it calls.  Out parameters and structures
      passed by pointer are returned next to the C result.
    - [None] as the outcome of a computation is behaviour the program must never
      show: a null or dangling pointer dereferenced or freed twice, a lock taken
      twice by the same thread (the call does not return), a conversion out of
      range, bytes read as a C string past their end, a loop out of fuel.  Every theorem that a call succeeds proves that
      the outcome is [Some].
    - The environment ([World.v]) decides the outcome of every call that can
      fail (allocation, locks) and the values of the clock, the formatted times
      and the identifiers, one tick per call: a theorem for an arbitrary
      environment holds for every schedule of failures, and [reliable w] says
      that no failure occurs from [w] on.
    - [uint32_t] is [Z] with [u32] where the code can wrap, [int32_t] with [i32].
      A C string is the [string] before its terminating NUL.
    - Only [Scheduler.v] interleaves threads: there a step relation has one rule
      per atomic action of the worker and of its controller.  Elsewhere a theorem
      is about the calls of one thread, from a state in which the locks it needs
      are free; what the others do between its critical sections is the state it
      starts from.

    ** Parameters: code that is not in the repository

    Each is a class of operations with, where the proofs need some of its
    documented behaviour, a class of laws, and an instance that shows that the
    laws can hold:
    - parson is [Parson] with [ParsonLaws] ([Parson.v]) and, where a property
      needs what a document holds, [ParsonTrees]; [ParsonModel.v] is an instance
      over JSON trees;
    - the list and the map of the SDK are [SinglyLinkedList] and [SdkMap]
      ([SdkMap.v]); its hub client is [IoTHubClient], whose laws keep the texts
      that it took over and those on which a call of it failed, so that a theorem
      can say that a text was handed over; its HTTP client is [Http], whose
      answers are bytes that the code reads as C strings: a NUL behind them is a
      hypothesis of the theorems that read one ([readable]);
    - the audit libraries are [Auparse] (reading the log) and [Libaudit] (the
      rules in the kernel), libiptc is [Libiptc], with [MatchData] for what a
      match extension stores;
    - the file system is [FileSystem], the cryptographic library [OpenSSL].
    Units of the repository that are chosen when it is linked, or that a client
    only needs the promise of, are classes too: the two implementations of the
    memory monitor are instances of [MemoryMonitor], and clients are proved
    against [MemoryMonitorLaws]; [AgentModules] and [Collectors] are what
    [security_agent.c] and the monitor task call.

    ** What the theorems show

    The claims are numbered in order of importance.  Each states the conditions it
    is proved under; for several of those that the program leaves unchecked a
    theorem beside the claim shows what happens without it.

    - Queues and memory: a queue refines a bounded FIFO list, plain (C1) and
      under its lock (C2); what is counted is what was granted and not returned
      and never exceeds the limit (C3), in both implementations (C38).
    - Messages: what a message takes from the queues (C4), when the publisher
      sends which queue and that each message it makes is handed over once (C5),
      that the adapter hands a message over at most once (C6), and when it gives
      up connecting (C37).
    - The life of the agent: its modules (C7, C19), the scheduler in every
      interleaving (C8) and the end of its executions after a stop (C18), the
      collectors a round runs (C9).
    - Start up: the configuration file (C20), the connection string from the hub
      and from the provisioning service (C21, C22), the buffers of the
      authentication manager (C23).
    - Collectors: logins (C10), connections (C11), executions (C12) with the
      rule, the aggregator and the hashes of the initialisation (C13), the
      firewall (C14), the listening ports (C15), configuration errors (C32),
      telemetry (C39); the checkpoint of an audit search (C28); the texts of
      addresses and sockets (C16, C17, C29).
    - Twin: an update installs exactly the specified reading of the document or
      changes nothing but the operational priority that the code normalises, and
      records its result (C24, C25); the twin task and its
      callback (C35, C36); reporting and reading back (C34).
    - Aggregation: the events a flush queues, with their hit counts and times,
      and what it resets (C26); a sequence of events refines payloads with hit
      counts (C27).
    - Durations: printing and parsing are inverse (C30), the parser is exact
      (C31), the printer stays in its buffer (C40).
    - Telemetry: no count is lost between snapshots (C33).

    The remaining theorems are the lemmas of these, the behaviour of the
    functions they are composed of, and what the code does on the paths where it
    misbehaves or may surprise.

    ** Fuel

    Loops that are not structural take fuel, and the theorems state how much is
    enough and prove that the result is then [Some]: the serializer is given the
    number of items of the queue, the teardown of a queue its size, a flush of
    the aggregator its number of items, a loop over a C string its length, the
    connection loop its number of 100 ms periods plus one, a search of the audit
    log the number of its records, the iterators of the firewall the number of
    chains and of rules, those of the ports the number of lines of a table.

    ** Not modelled

    The collectors of local users, the baseline, the system information and
    diagnostic events, and the iterators of users and groups and the execution of
    processes they read: they copy what the system prints into events by the
    steps of [Collector.v].  Logging and the texts of
    errors only write to the console and to the system log.  Functions that only
    free memory are modelled where a double free, a leak or a loss of budget is
    possible and left out otherwise.  Vendored code and the tests are not part of
    the agent. *)

From stdpp Require Export base gmap strings list fin_maps.
From Stdlib Require Export ZArith Lia.

#[global] Open Scope Z_scope.

(** ** Machine integers *)

(** [uint32_t]: a [Z] reduced modulo 2^32 after every operation that can wrap. *)
Definition UINT32_MAX : Z := 4294967295.
Definition INT32_MAX : Z := 2147483647.
Definition INT32_MIN : Z := -2147483648.
Definition ULONG_MAX : Z := 18446744073709551615.
Definition LONG_MAX : Z := 9223372036854775807.
Definition LONG_MIN : Z := -9223372036854775808.

(** Conversion to [uint32_t] and to [int32_t] (two's complement). *)
Definition u32 (z : Z) : Z := z mod 4294967296.
Definition i32 (z : Z) : Z := (z + 2147483648) mod 4294967296 - 2147483648.

(** The values a [uint32_t] object can hold. *)
Definition is_u32 (z : Z) : Prop := 0 <= z <= UINT32_MAX.

(** ** State monad with undefined behaviour

    [M S A] is a computation that threads the state [S].  [None] stands for
    behaviour the program must never exhibit: dereferencing a null or dangling
    pointer, locking a mutex the same thread already holds (the call never
    returns), or a loop that exceeds its fuel. *)
Definition M (S A : Type) : Type := S -> option (A * S).

Definition ret {S A} (a : A) : M S A := fun s => Some (a, s).
Definition undefined {S A} : M S A := fun _ => None.
Definition bind {S A B} (m : M S A) (k : A -> M S B) : M S B :=
  fun s => match m s with Some (a, s') => k a s' | None => None end.
Definition gets {S A} (f : S -> A) : M S A := fun s => Some (f s, s).
Definition modify {S} (f : S -> S) : M S unit := fun s => Some (tt, f s).

(** A pointer that is dereferenced. *)
Definition deref {S A : Type} (p : option A) : M S A :=
  match p with Some a => ret a | None => undefined end.

Declare Scope prog_scope.
Delimit Scope prog_scope with prog.
Notation "x <- m ;; k" := (bind m (fun x => k))
  (at level 100, m at next level, right associativity) : prog_scope.
Notation "'let*' pat := m 'in' k" := (bind m (fun x => match x with pat => k end))
  (at level 100, pat pattern, m at next level, k at level 100, right associativity) : prog_scope.
Notation "m ;;; k" := (bind m (fun _ => k))
  (at level 100, right associativity) : prog_scope.
(** [require b else r ;; k]: the C guard [if (!b) { result = r; goto cleanup; }]
    or [if (!b) return r;], followed by the rest [k]. *)
Notation "'require' b 'else' r ;; k" := (if b then k else ret r)
  (at level 100, b at level 99, r at level 99, k at level 100, right associativity) : prog_scope.
#[global] Open Scope prog_scope.

(** ** Lemmas on the monad *)

Section MonadLemmas.
Context {S A B : Type}.

Lemma bind_eq (m : M S A) (k : A -> M S B) s a s' :
  m s = Some (a, s') -> bind m k s = k a s'.
Proof. intros H. unfold bind. by rewrite H. Qed.

Lemma bind_inv (m : M S A) (k : A -> M S B) s b s'' :
  bind m k s = Some (b, s'') -> exists a s', m s = Some (a, s') /\ k a s' = Some (b, s'').
Proof. unfold bind. destruct (m s) as [[a s']|]; [eauto | discriminate]. Qed.

Lemma bind_ret_l (a : A) (k : A -> M S B) s : bind (ret a) k s = k a s.
Proof. done. Qed.
End MonadLemmas.

Lemma bind_assoc {S A B C} (m : M S A) (k : A -> M S B) (h : B -> M S C) s :
  bind (bind m k) h s = bind m (fun a => bind (k a) h) s.
Proof. unfold bind. by destruct (m s) as [[a s']|]. Qed.

(** ** Lemmas on machine integers *)

Lemma u32_small z : is_u32 z -> u32 z = z.
Proof. unfold is_u32, u32, UINT32_MAX. intros. apply Z.mod_small. lia. Qed.

Lemma u32_range z : is_u32 (u32 z).
Proof. unfold is_u32, u32, UINT32_MAX. pose proof (Z.mod_pos_bound z 4294967296). lia. Qed.

Lemma u32_wrap_once z : UINT32_MAX < z <= 2 * UINT32_MAX -> u32 z = z - 4294967296.
Proof.
  unfold u32, UINT32_MAX. intros.
  replace z with ((z - 4294967296) + 1 * 4294967296) at 1 by lia.
  rewrite Z_mod_plus_full. apply Z.mod_small. lia.
Qed.

Lemma i32_small z : INT32_MIN <= z <= INT32_MAX -> i32 z = z.
Proof. unfold i32, INT32_MIN, INT32_MAX. intros. rewrite Z.mod_small; lia. Qed.

Lemma i32_range z : INT32_MIN <= i32 z <= INT32_MAX.
Proof.
  unfold i32, INT32_MIN, INT32_MAX. pose proof (Z.mod_pos_bound (z + 2147483648) 4294967296 ltac:(done)). lia.
Qed.

Lemma u32_i32 z : u32 (i32 z) = u32 z.
Proof.
  unfold u32, i32. rewrite Zminus_mod_idemp_l. f_equal. lia.
Qed.

Create HintDb ints.
#[export] Hint Resolve u32_range u32_small : ints.

(** ** Tactics *)

(** Decide the boolean comparisons that occur in the goal or the hypotheses. *)
Ltac bdestruct_all :=
  repeat match goal with
  | H : context [?a <? ?b] |- _ => destruct (Z.ltb_spec a b)
  | H : context [?a <=? ?b] |- _ => destruct (Z.leb_spec a b)
  | H : context [?a =? ?b] |- _ => destruct (Z.eqb_spec a b)
  | |- context [?a <? ?b] => destruct (Z.ltb_spec a b)
  | |- context [?a <=? ?b] => destruct (Z.leb_spec a b)
  | |- context [?a =? ?b] => destruct (Z.eqb_spec a b)
  end.

(** Invert a successful run [m s = Some (a, s')] of monadic code. *)
Ltac minv H :=
  repeat match type of H with
  | bind _ _ _ = Some _ =>
      let a := fresh "r" in let s := fresh "w" in let E := fresh "E" in
      apply bind_inv in H; destruct H as (a & s & E & H); cbv beta in H
  | ret _ _ = Some _ => injection H as <- <-
  end.

(** Unfold the machine-integer bounds and call [lia]. *)
Ltac ulia := unfold is_u32, UINT32_MAX, INT32_MAX, INT32_MIN, ULONG_MAX, LONG_MAX, LONG_MIN in *; lia.
