(* ===== verification/CString.v ===== *)
(** * C strings and the standard-library functions the agent calls on them

    A C string is represented by the Rocq [string] of the characters before its
    terminating NUL.  The functions follow ISO C and, where ISO C leaves the
    result open, glibc: [%u] converts with [strtoul] on a 64-bit
    [unsigned long] and truncates to 32 bits. *)

From S2P Require Import Prelude.
From Stdlib Require Import Ascii String.
Open Scope Z_scope.

#[global] Arguments String.append !_ _ / : simpl nomatch.

(** ** Character classes of the C locale ([ctype.h]) *)

Definition code (c : ascii) : Z := Z.of_N (N_of_ascii c).

Definition isspace (c : ascii) : bool :=
  (code c =? 32) || ((9 <=? code c) && (code c <=? 13)).

Definition isdigit (c : ascii) : bool := (48 <=? code c) && (code c <=? 57).

Definition tolower (c : ascii) : ascii :=
  if (65 <=? code c) && (code c <=? 90)
  then ascii_of_N (Z.to_N (code c + 32)) else c.

(** The value of a digit in a base up to 36 ([strtol]). *)
Definition digit_value (c : ascii) : option Z :=
  if isdigit c then Some (code c - 48)
  else if (97 <=? code c) && (code c <=? 122) then Some (code c - 87)
  else if (65 <=? code c) && (code c <=? 90) then Some (code c - 55)
  else None.

Definition is_digit_in (base : Z) (c : ascii) : bool :=
  match digit_value c with Some d => d <? base | None => false end.

(** ** [string.h] *)

(** [strlen], as a [size_t]. *)
Definition strlen (s : string) : Z := Z.of_nat (String.length s).

(** [strchr(s, c)] for [c] other than NUL: the suffix that starts at the first [c]. *)
Fixpoint strchr (s : string) (c : ascii) : option string :=
  match s with
  | EmptyString => None
  | String d s' => if Ascii.eqb d c then Some s else strchr s' c
  end.

(** The offset of the first [c] in [s]: the pointer [strchr] returns, minus [s]. *)
Fixpoint strchr_offset (s : string) (c : ascii) : option nat :=
  match s with
  | EmptyString => None
  | String d s' => if Ascii.eqb d c then Some 0%nat else S <$> strchr_offset s' c
  end.

(** The string a pointer [n] characters further on denotes. *)
Fixpoint advance (n : nat) (s : string) : string :=
  match n, s with
  | S n', String _ s' => advance n' s'
  | _, _ => s
  end.

(** [strchr(s, c) + 1], when the code knows that [c] occurs in [s]. *)
Definition after (c : ascii) (s : string) : string :=
  match strchr s c with Some s' => advance 1 s' | None => EmptyString end.

(** [s[0]], NUL at the end of the string. *)
Definition first_char (s : string) : ascii :=
  match s with EmptyString => Ascii.zero | String c _ => c end.

(** [strncmp(a, b, n) == 0]. *)
Fixpoint strncmp_eq (n : nat) (a b : string) : bool :=
  match n, a, b with
  | O, _, _ => true
  | S _, EmptyString, EmptyString => true
  | S n', String c a', String d b' => Ascii.eqb c d && strncmp_eq n' a' b'
  | S _, _, _ => false
  end.

(** [strncasecmp(a, b, n) == 0]. *)
Fixpoint strncasecmp_eq (n : nat) (a b : string) : bool :=
  match n, a, b with
  | O, _, _ => true
  | S _, EmptyString, EmptyString => true
  | S n', String c a', String d b' => Ascii.eqb (tolower c) (tolower d) && strncasecmp_eq n' a' b'
  | S _, _, _ => false
  end.

Fixpoint lower (s : string) : string :=
  match s with EmptyString => EmptyString | String c s' => String (tolower c) (lower s') end.

(** The first [n] characters. *)
Fixpoint stake (n : nat) (s : string) : string :=
  match n, s with
  | S n', String c s' => String c (stake n' s')
  | _, _ => EmptyString
  end.

(** The bytes up to the first NUL, as a C string is read. *)
Fixpoint until_nul (bytes : string) : string :=
  match bytes with
  | EmptyString => EmptyString
  | String c s => if Ascii.eqb c "000" then EmptyString else String c (until_nul s)
  end.

Fixpoint has_nul (s : string) : bool :=
  match s with EmptyString => false | String c s => Ascii.eqb c "000" || has_nul s end.

(** A text that C code handed over: no NUL in it, and its size fits [uint32_t]. *)
Definition c_string (s : string) : Prop := has_nul s = false /\ strlen s < UINT32_MAX.

(** The constant comes first, so that the test stays small on an open string. *)
Definition c_stringb (s : string) : bool := negb (has_nul s) && negb (UINT32_MAX <=? strlen s).

Lemma c_stringb_true s : c_stringb s = true -> c_string s.
Proof. unfold c_stringb. by intros [H1%negb_true_iff H2%negb_true_iff%Z.leb_gt]%andb_true_iff. Qed.

(** ** Printing: [%u] and [%d] *)

Definition digit_char (d : Z) : ascii := ascii_of_N (Z.to_N (48 + d)).

Fixpoint udec_aux (fuel : nat) (n : Z) (acc : string) : string :=
  match fuel with
  | O => acc
  | S f => let acc' := String (digit_char (n mod 10)) acc in
           if n <? 10 then acc' else udec_aux f (n / 10) acc'
  end.

(** [%u]: the fuel covers every 64-bit value (20 digits). *)
Definition udec (n : Z) : string := udec_aux 20 n EmptyString.

(** [%d]. *)
Definition sdec (n : Z) : string :=
  if n <? 0 then String "-" (udec (- n)) else udec n.

(** ** Scanning: [strtoul], [strtol] and [sscanf] *)

Fixpoint skip_space (s : string) : string :=
  match s with
  | String c s' => if isspace c then skip_space s' else s
  | EmptyString => EmptyString
  end.

(** An optional sign: whether it is a minus, and the rest. *)
Definition read_sign (s : string) : bool * string :=
  match s with
  | String c s' => if Ascii.eqb c "-" then (true, s')
                   else if Ascii.eqb c "+" then (false, s') else (false, s)
  | EmptyString => (false, s)
  end.

(** The longest prefix of digits of [base], as the value accumulated from
    [acc] and the number of digits read, and the rest. *)
Fixpoint read_digits (base : Z) (acc : Z) (count : nat) (s : string) : Z * nat * string :=
  match s with
  | String c s' =>
      match digit_value c with
      | Some d => if d <? base then read_digits base (acc * base + d) (S count) s'
                  else (acc, count, s)
      | None => (acc, count, s)
      end
  | EmptyString => (acc, count, s)
  end.

(** What [strtoul] makes of a sign and a magnitude. *)
Definition strtoul_value (neg : bool) (v : Z) : Z :=
  if ULONG_MAX <? v then ULONG_MAX
  else if neg then (- v) mod 18446744073709551616 else v.

(** [sscanf(s, "%u%c", &temp, &specifier)]: [Some (temp, specifier)] exactly
    when it returns 2. *)
Definition sscanf_u_c (s : string) : option (Z * ascii) :=
  let '(neg, s1) := read_sign (skip_space s) in
  let '(v, count, s2) := read_digits 10 0 0 s1 in
  match count, s2 with
  | O, _ => None
  | S _, EmptyString => None
  | S _, String c _ => Some (u32 (strtoul_value neg v), c)
  end.

Record strtol_result := mk_strtol {
  strtol_value : Z;       (** the value returned *)
  strtol_converted : bool; (** [endptr != input] *)
  strtol_erange : bool;   (** [errno == ERANGE] *)
}.

(** The digits that [strtol] reads in a base other than 0, after the sign. *)
Definition strtol_digits (base : Z) (s : string) : Z * nat :=
  let plain := let '(v, n, _) := read_digits base 0 0 s in (v, n) in
  match s with
  | String z (String x s') =>
      if (base =? 16) && Ascii.eqb z "0" && Ascii.eqb (tolower x) "x" then
        let '(v, n, _) := read_digits 16 0 0 s' in
        match n with O => plain | S _ => (v, n) end
      else plain
  | _ => plain
  end.

(** The base that [strtol(.., 0)] selects from the prefix of the digits. *)
Definition strtol_base (base : Z) (s : string) : Z :=
  if base =? 0 then
    match s with
    | String z s' => if Ascii.eqb z "0"
                     then (if Ascii.eqb (tolower (first_char s')) "x" then 16 else 8)
                     else 10
    | EmptyString => 10
    end
  else base.

(** [strtol] for base 0 and the bases 2 to 36. *)
Definition strtol (s : string) (base : Z) : strtol_result :=
  let '(neg, s1) := read_sign (skip_space s) in
  let '(m, count) := strtol_digits (strtol_base base s1) s1 in
  let v := if neg then - m else m in
  mk_strtol (Z.max LONG_MIN (Z.min LONG_MAX v))
            (match count with O => false | S _ => true end)
            ((LONG_MAX <? v) || (v <? LONG_MIN)).

(** ** Lemmas *)

Lemma ascii_eqb_refl c : Ascii.eqb c c = true.
Proof. by apply Ascii.eqb_eq. Qed.

Lemma code_range c : 0 <= code c < 256.
Proof. unfold code. pose proof (N_ascii_bounded c). lia. Qed.

Lemma code_digit_char d : 0 <= d <= 9 -> code (digit_char d) = 48 + d.
Proof.
  intros. unfold code, digit_char. rewrite N_ascii_embedding by lia. lia.
Qed.

Lemma digit_value_digit_char d : 0 <= d <= 9 -> digit_value (digit_char d) = Some d.
Proof.
  intros. unfold digit_value, isdigit. rewrite code_digit_char by lia.
  bdestruct_all; cbn; try lia. f_equal. lia.
Qed.

Lemma isspace_digit_char d : 0 <= d <= 9 -> isspace (digit_char d) = false.
Proof.
  intros. unfold isspace. rewrite code_digit_char by lia. bdestruct_all; cbn; lia.
Qed.

(** A character that is not a decimal digit. *)
Definition nondigit (c : ascii) : Prop := isdigit c = false.

Lemma nondigit_ne_digit_char c d : nondigit c -> 0 <= d <= 9 -> Ascii.eqb (digit_char d) c = false.
Proof.
  intros Hc Hd. apply Ascii.eqb_neq. intros <-.
  unfold nondigit, isdigit in Hc. rewrite code_digit_char in Hc by lia.
  revert Hc. bdestruct_all; cbn; [discriminate | lia ..].
Qed.

Lemma nondigit_stop c acc count s :
  nondigit c -> read_digits 10 acc count (String c s) = (acc, count, String c s).
Proof.
  unfold nondigit, digit_value. intros H. cbn. unfold digit_value. rewrite H.
  bdestruct_all; cbn; try done; bdestruct_all; done || lia.
Qed.

(** [udec_aux] is the standard decimal expansion with enough fuel. *)
Lemma udec_aux_cons fuel n acc :
  udec_aux (S fuel) n acc =
    (if n <? 10 then String (digit_char (n mod 10)) acc
     else udec_aux fuel (n / 10) (String (digit_char (n mod 10)) acc)).
Proof. done. Qed.

Lemma pow10_step fuel n : 10 <= n < 10 ^ Z.of_nat (S fuel) -> n / 10 < 10 ^ Z.of_nat fuel.
Proof.
  rewrite Nat2Z.inj_succ, Z.pow_succ_r by lia. intros.
  apply Z.div_lt_upper_bound; lia.
Qed.


(** Reading back what [%u] printed, whatever follows. *)
Lemma read_digits_udec_aux fuel n rest acc count :
  0 <= n < 10 ^ Z.of_nat (S fuel) ->
  exists k,
    (0 < k)%nat /\
    read_digits 10 acc count (udec_aux (S fuel) n rest) =
    read_digits 10 (acc * 10 ^ Z.of_nat k + n) (k + count) rest.
Proof.
  revert n rest acc count. induction fuel as [|fuel IH]; intros n rest acc count Hn;
    rewrite udec_aux_cons; destruct (Z.ltb_spec n 10) as [Hlt|Hge].
  1,3: exists 1%nat; split; [lia|]; rewrite Z.mod_small by lia; cbn [read_digits];
       rewrite digit_value_digit_char by lia;
       replace (n <? 10) with true by lia;
       by replace (acc * 10 ^ Z.of_nat 1 + n) with (acc * 10 + n) by lia.
  - change (10 ^ Z.of_nat 1) with 10 in Hn. lia.
  - pose proof (pow10_step (S fuel) n ltac:(lia)).
    pose proof (Z.mod_pos_bound n 10 ltac:(lia)).
    destruct (IH (n / 10) (String (digit_char (n mod 10)) rest) acc count) as (k & Hk & ->).
    { split; [apply Z.div_pos; lia | done]. }
    exists (S k). split; [lia|]. cbn [read_digits].
    rewrite digit_value_digit_char by lia. replace (n mod 10 <? 10) with true by lia.
    replace (acc * 10 ^ Z.of_nat (S k) + n) with ((acc * 10 ^ Z.of_nat k + n / 10) * 10 + n mod 10).
    + by replace (S k + count)%nat with (S (k + count)) by lia.
    + rewrite Nat2Z.inj_succ, Z.pow_succ_r by lia. pose proof (Z.div_mod n 10). lia.
Qed.

Lemma udec_aux_first fuel n rest :
  0 <= n -> exists d s, 0 <= d <= 9 /\ udec_aux (S fuel) n rest = String (digit_char d) s.
Proof.
  revert n rest. induction fuel as [|fuel IH]; intros n rest Hn;
    rewrite udec_aux_cons; pose proof (Z.mod_pos_bound n 10 ltac:(lia)); destruct (n <? 10).
  1-3: do 2 eexists; split; [|reflexivity]; lia.
  apply IH. apply Z.div_pos; lia.
Qed.

(** [%u] followed by [rest]. *)
Definition udec_then (n : Z) (rest : string) : string := udec_aux 20 n rest.

Lemma udec_aux_app fuel n acc rest :
  (udec_aux fuel n acc ++ rest)%string = udec_aux fuel n (acc ++ rest)%string.
Proof.
  revert n acc. induction fuel as [|fuel IH]; intros n acc; [done|].
  rewrite !udec_aux_cons. destruct (n <? 10); [done|]. apply IH.
Qed.

Lemma udec_append n rest : (udec n ++ rest)%string = udec_then n rest.
Proof. apply udec_aux_app. Qed.

(** Scanning ["%u%c"] over a printed number and a specifier gives both back. *)
Lemma sscanf_u_c_udec n c rest :
  is_u32 n -> nondigit c -> sscanf_u_c (udec_then n (String c rest)) = Some (n, c).
Proof.
  intros Hn Hc. unfold udec_then, sscanf_u_c.
  destruct (udec_aux_first 19 n (String c rest)) as (d & s & Hd & Hs); [ulia|].
  assert (Hsp : skip_space (udec_aux 20 n (String c rest)) = udec_aux 20 n (String c rest)).
  { rewrite Hs. cbn. by rewrite isspace_digit_char. }
  rewrite Hsp; clear Hsp.
  assert (Hsg : read_sign (udec_aux 20 n (String c rest)) = (false, udec_aux 20 n (String c rest))).
  { rewrite Hs. unfold read_sign.
    by rewrite !nondigit_ne_digit_char by (done || reflexivity). }
  rewrite Hsg.
  destruct (read_digits_udec_aux 19 n (String c rest) 0 0) as (k & Hk & ->).
  { change (10 ^ Z.of_nat 20) with 100000000000000000000. ulia. }
  rewrite nondigit_stop, Z.mul_0_l, Z.add_0_l by done.
  destruct k as [|k]; [lia|]. cbn [Nat.add].
  cbv iota beta. unfold strtoul_value. replace (ULONG_MAX <? n) with false by ulia.
  cbv iota. by rewrite u32_small.
Qed.

Lemma strchr_udec n c rest :
  0 <= n -> nondigit c -> strchr (udec_then n (String c rest)) c = Some (String c rest).
Proof.
  intros Hn Hc. unfold udec_then. generalize 20%nat. intros fuel.
  assert (forall m s, 0 <= m -> strchr s c = Some (String c rest) ->
          strchr (udec_aux fuel m s) c = Some (String c rest)) as Haux.
  { induction fuel as [|fuel IH]; intros m s Hm Hs; [done|].
    rewrite udec_aux_cons. pose proof (Z.mod_pos_bound m 10 ltac:(lia)).
    assert (Hd : strchr (String (digit_char (m mod 10)) s) c = Some (String c rest)).
    { cbn. by rewrite nondigit_ne_digit_char by (done || lia). }
    destruct (m <? 10); [done|]. apply IH; [apply Z.div_pos; lia | done]. }
  apply Haux; [done|]. cbn. by rewrite ascii_eqb_refl.
Qed.

Lemma after_udec n c rest :
  0 <= n -> nondigit c -> after c (udec_then n (String c rest)) = rest.
Proof. intros. unfold after. by rewrite strchr_udec. Qed.

(** The length of a printed number. *)
Lemma udec_aux_length fuel n acc k :
  0 <= n < 10 ^ Z.of_nat k -> (0 < k <= fuel)%nat ->
  (String.length (udec_aux fuel n acc) <= k + String.length acc)%nat.
Proof.
  revert n acc k. induction fuel as [|fuel IH]; intros n acc k Hn Hk; [lia|].
  rewrite udec_aux_cons. destruct (Z.ltb_spec n 10); [cbn; lia|].
  destruct k as [|[|k]]; [lia | change (10 ^ Z.of_nat 1) with 10 in Hn; lia |].
  etransitivity; [apply (IH _ _ (S k)) |].
  - split; [apply Z.div_pos; lia | apply pow10_step; lia].
  - lia.
  - cbn. lia.
Qed.

Lemma udec_length n k :
  0 <= n < 10 ^ Z.of_nat k -> (0 < k <= 20)%nat -> strlen (udec n) <= Z.of_nat k.
Proof.
  intros. unfold strlen, udec.
  pose proof (udec_aux_length 20 n EmptyString k). cbn [String.length] in *. lia.
Qed.

Lemma strlen_app a b : strlen (a ++ b)%string = strlen a + strlen b.
Proof.
  unfold strlen. induction a as [|c a IH]; cbn [String.append String.length]; lia.
Qed.

Lemma strlen_nonneg s : 0 <= strlen s.
Proof. unfold strlen. lia. Qed.

Lemma sapp_assoc (a b c : string) : ((a ++ b) ++ c)%string = (a ++ (b ++ c))%string.
Proof. induction a as [|x a IH]; cbn; congruence. Qed.

Lemma sapp_nil_r (a : string) : (a ++ EmptyString)%string = a.
Proof. induction a as [|x a IH]; cbn; congruence. Qed.

(** [strncmp] over the whole length of both strings decides equality. *)
Lemma strncmp_eq_spec a b : strncmp_eq (String.length b) a b = true <-> exists r, a = (b ++ r)%string.
Proof.
  revert a. induction b as [|d b IH]; intros a; cbn.
  - split; [by exists a | done].
  - destruct a as [|c a]; cbn.
    + split; [done | by intros [r [=]]].
    + rewrite andb_true_iff, Ascii.eqb_eq, IH. split.
      * intros [-> [r ->]]. by exists r.
      * intros [r [= -> ->]]. eauto.
Qed.

Lemma strncasecmp_eq_spec a b :
  String.length a = String.length b ->
  strncasecmp_eq (String.length b) a b = true <-> lower a = lower b.
Proof.
  revert a. induction b as [|d b IH]; intros [|c a]; cbn; try done.
  intros [= Hl]. rewrite andb_true_iff, Ascii.eqb_eq, IH by done. split.
  - by intros [-> ->].
  - by intros [= -> ->].
Qed.

#[export] Hint Resolve strlen_nonneg u32_range : ints.
