(* ===== verification/TwinDefs.v ===== *)
(** * Twin configuration: data types, keys and defaults

    The enumerations of [twin_configuration_defs.h] and
    [twin_configuration_event_collectors.h], the records that
    [twin_configuration.c] and [twin_configuration_event_collectors.c] keep as
    file-scope statics, the keys of [twin_configuration_consts.c] and the
    defaults of [consts.c]. *)

From S2P Require Import Prelude.
Open Scope Z_scope.

(** A lock handle: [None] is the null handle. *)
Definition LOCK_HANDLE : Type := option nat.

(** ** Time constants ([internal/time_utils_consts.h]) *)

Definition DURATION_MAX_LENGTH : Z := 19.
Definition MILLISECONDS_IN_A_SECOND : Z := 1000.
Definition MILLISECONDS_IN_A_MINUTE : Z := 60000.
Definition MILLISECONDS_IN_AN_HOUR : Z := 3600000.
Definition MILLISECONDS_IN_A_DAY : Z := 86400000.
Definition MILLISECONDS_IN_A_WEEK : Z := 604800000.
Definition MILLISECONDS_IN_A_MONTH : Z := 2592000000.
Definition MILLISECONDS_IN_A_YEAR : Z := u32 (MILLISECONDS_IN_A_DAY * 365).
Definition MAX_YEARS_IN_UINT32 : Z := UINT32_MAX / MILLISECONDS_IN_A_YEAR.
Definition MAX_MONTHS_IN_UINT32 : Z := UINT32_MAX / MILLISECONDS_IN_A_MONTH.
Definition MAX_WEEKS_IN_UINT32 : Z := UINT32_MAX / MILLISECONDS_IN_A_WEEK.
Definition MAX_DAYS_IN_UINT32 : Z := UINT32_MAX / MILLISECONDS_IN_A_DAY.
Definition MAX_HOURS_IN_UINT32 : Z := UINT32_MAX / MILLISECONDS_IN_AN_HOUR.
Definition MAX_MINUTES_IN_UINT32 : Z := UINT32_MAX / MILLISECONDS_IN_A_MINUTE.
Definition MAX_SECONDS_IN_UINT32 : Z := UINT32_MAX / MILLISECONDS_IN_A_SECOND.

(** ** Enumerations *)

Inductive TwinConfigurationResult : Type :=
  | TWIN_OK
  | TWIN_CONF_NOT_EXIST
  | TWIN_LOCK_EXCEPTION
  | TWIN_PARSE_EXCEPTION
  | TWIN_MEMORY_EXCEPTION
  | TWIN_EXCEPTION.

Inductive TwinConfigurationStatus : Type :=
  | CONFIGURATION_OK
  | CONFIGURATION_TYPE_MISMATCH.

Inductive TwinConfigurationEventType : Type :=
  | EVENT_TYPE_BASELINE
  | EVENT_TYPE_CONNECTION_CREATE
  | EVENT_TYPE_FIREWALL_CONFIGURATION
  | EVENT_TYPE_LISTENING_PORTS
  | EVENT_TYPE_LOCAL_USERS
  | EVENT_TYPE_PROCESS_CREATE
  | EVENT_TYPE_SYSTEM_INFORMATION
  | EVENT_TYPE_USER_LOGIN
  | EVENT_TYPE_DIAGNOSTIC
  | EVENT_TYPE_OPERATIONAL_EVENT.

Inductive TwinConfigurationEventPriority : Type :=
  | EVENT_PRIORITY_OPERATIONAL
  | EVENT_PRIORITY_HIGH
  | EVENT_PRIORITY_LOW
  | EVENT_PRIORITY_OFF.

#[export] Instance TwinConfigurationResult_eq_dec : EqDecision TwinConfigurationResult.
Proof. solve_decision. Defined.
#[export] Instance TwinConfigurationStatus_eq_dec : EqDecision TwinConfigurationStatus.
Proof. solve_decision. Defined.
#[export] Instance TwinConfigurationEventType_eq_dec : EqDecision TwinConfigurationEventType.
Proof. solve_decision. Defined.
#[export] Instance TwinConfigurationEventPriority_eq_dec : EqDecision TwinConfigurationEventPriority.
Proof. solve_decision. Defined.

(** ** Records *)

(** [TwinConfigurationBundleStatus] *)
Record TwinConfigurationBundleStatus : Type := mkBundleStatus {
  bs_maxLocalCacheSize : TwinConfigurationStatus;
  bs_maxMessageSize : TwinConfigurationStatus;
  bs_lowPriorityMessageFrequency : TwinConfigurationStatus;
  bs_highPriorityMessageFrequency : TwinConfigurationStatus;
  bs_snapshotFrequency : TwinConfigurationStatus;
  bs_eventPriorities : TwinConfigurationStatus;
  bs_baselineCustomChecksEnabled : TwinConfigurationStatus;
  bs_baselineCustomChecksFilePath : TwinConfigurationStatus;
  bs_baselineCustomChecksFileHash : TwinConfigurationStatus;
}.

(** [TwinConfiguration]: the [uint32_t] fields are [Z], a [char*] is an optional string. *)
Record TwinConfiguration : Type := mkTwinConfiguration {
  tc_maxLocalCacheSize : Z;
  tc_maxMessageSize : Z;
  tc_lowPriorityMessageFrequency : Z;
  tc_highPriorityMessageFrequency : Z;
  tc_snapshotFrequency : Z;
  tc_baselineCustomChecksEnabled : bool;
  tc_baselineCustomChecksFilePath : option string;
  tc_baselineCustomChecksFileHash : option string;
  tc_lock : LOCK_HANDLE;
}.

(** [TwinConfigurationUpdateResult] *)
Record TwinConfigurationUpdateResult : Type := mkUpdateResult {
  ur_lastUpdateTime : Z;
  ur_lastUpdateResult : TwinConfigurationResult;
  ur_configurationBundleStatus : TwinConfigurationBundleStatus;
}.

(** [TwinConfigurationEventCollectors] *)
Record TwinConfigurationEventCollectors : Type := mkEventCollectors {
  ev_processCreatePriority : TwinConfigurationEventPriority;
  ev_listeningPortsPriority : TwinConfigurationEventPriority;
  ev_systemInformationPriority : TwinConfigurationEventPriority;
  ev_localUsersPriority : TwinConfigurationEventPriority;
  ev_loginPriority : TwinConfigurationEventPriority;
  ev_connectionCreatePriority : TwinConfigurationEventPriority;
  ev_firewallConfigurationPriority : TwinConfigurationEventPriority;
  ev_baselinePriority : TwinConfigurationEventPriority;
  ev_diagnostic : TwinConfigurationEventPriority;
  ev_operational : TwinConfigurationEventPriority;
  ev_processCreateAggregationEnabled : bool;
  ev_connectionCreateAggregationEnabled : bool;
  ev_processCreateAggregationInterval : Z;
  ev_connectionCreateAggregationInterval : Z;
  ev_lock : LOCK_HANDLE;
  ev_isLocked : bool;
}.

(** ** Defaults ([consts.c]) *)

Definition DEFAULT_MAX_LOCAL_CACHE_SIZE : Z := 10 * 1024 * 1024.
Definition DEFAULT_MAX_MESSAGE_SIZE : Z := 200 * 1024.
Definition DEFAULT_LOW_PRIORITY_MESSAGE_FREQUENCY : Z := 5 * MILLISECONDS_IN_AN_HOUR.
Definition DEFAULT_HIGH_PRIORITY_MESSAGE_FREQUENCY : Z := 7 * MILLISECONDS_IN_A_MINUTE.
Definition DEFAULT_SNAPSHOT_FREQUENCY : Z := 13 * MILLISECONDS_IN_AN_HOUR.
Definition DEFAULT_BASELINE_CUSTOM_CHECKS_ENABLED : bool := false.
Definition DEFAULT_BASELINE_CUSTOM_CHECKS_FILE_PATH : option string := None.
Definition DEFAULT_BASELINE_CUSTOM_CHECKS_FILE_HASH : option string := None.
Definition AGENT_VERSION : string := "0.0.5".
Definition DEFAULT_MESSAGE_SCHEMA_VERSION : string := "1.0".
Definition MESSAGE_BILLING_MULTIPLE : Z := 4 * 1024.

(** ** Keys ([twin_configuration_consts.c]) *)

Definition LOW_PRIORITY_MESSAGE_FREQUENCY_KEY : string := "lowPriorityMessageFrequency".
Definition HIGH_PRIORITY_MESSAGE_FREQUENCY_KEY : string := "highPriorityMessageFrequency".
Definition MAX_LOCAL_CACHE_SIZE_KEY : string := "maxLocalCacheSizeInBytes".
Definition MAX_MESSAGE_SIZE_KEY : string := "maxMessageSizeInBytes".
Definition SNAPSHOT_FREQUENCY_KEY : string := "snapshotFrequency".
Definition PROCESS_CREATE_PRIORITY_KEY : string := "eventPriorityProcessCreate".
Definition LISTENING_PORTS_PRIORITY_KEY : string := "eventPriorityListeningPorts".
Definition SYSTEM_INFORMATION_PRIORITY_KEY : string := "eventPrioritySystemInformation".
Definition LOCAL_USERS_PRIORITY_KEY : string := "eventPriorityLocalUsers".
Definition LOGIN_PRIORITY_KEY : string := "eventPriorityLogin".
Definition CONNECTION_CREATE_PRIORITY_KEY : string := "eventPriorityConnectionCreate".
Definition FIREWALL_CONFIGURATION_PRIORITY_KEY : string := "eventPriorityFirewallConfiguration".
Definition BASELINE_PRIORITY_KEY : string := "eventPriorityOSBaseline".
Definition DIAGNOSTIC_PRIORITY_KEY : string := "eventPriorityDiagnostic".
Definition OPERATIONAL_EVENT_KEY : string := "eventPriorityOperational".
Definition PROCESS_CREATE_AGGREGATION_ENABLED_KEY : string := "aggregationEnabledProcessCreate".
Definition PROCESS_CREATE_AGGREGATION_INTERVAL_KEY : string := "aggregationIntervalProcessCreate".
Definition CONNECTION_CREATE_AGGREGATION_ENABLED_KEY : string := "aggregationEnabledConnectionCreate".
Definition CONNECTION_CREATE_AGGREGATION_INTERVAL_KEY : string := "aggregationIntervalConnectionCreate".
Definition BASELINE_CUSTOM_CHECKS_ENABLED_KEY : string := "baselineCustomChecksEnabled".
Definition BASELINE_CUSTOM_CHECKS_FILE_PATH_KEY : string := "baselineCustomChecksFilePath".
Definition BASELINE_CUSTOM_CHECKS_FILE_HASH_KEY : string := "baselineCustomChecksFileHash".
