(* ===== verification/World.v ===== *)
(** * The program's state and its environment

    [World] holds the file-scope statics of the modelled translation units, and
    what the process sees of its environment: the outcome of every call that
    may fail for reasons outside the program ([malloc], [Lock], [Unlock],
    [Lock_Init]), the clock, the rendering of times, and generated ids.  Each
    such call consumes one [tick], so [env] is an arbitrary schedule of
    outcomes; theorems quantify over it. *)

From S2P Require Import Prelude TwinDefs.
Open Scope Z_scope.

Record Env : Type := mkEnv {
  env_ok : nat -> bool;                 (** does the call at this tick succeed? *)
  env_time : nat -> Z;                  (** [time(NULL)] at this tick, in seconds *)
  env_localtime : Z -> option string;   (** [localtime_r] rendered as [%FT%TZ] *)
  env_gmtime : Z -> option string;      (** [gmtime_r] rendered as [%FT%TZ] *)
  env_uuid : nat -> string;             (** the id that [UniqueId_Generate] writes *)
}.

(** Statics of [internal/internal_memory_monitor.c] and [synchronized_memory_monitor.c]. *)
Record MemoryMonitorState : Type := mkMemoryMonitor {
  currentConsumptionInBytes : Z;
  memoryLimitInBytes : Z;
  memoryMonitorLock : LOCK_HANDLE;
}.

Record World : Type := mkWorld {
  env : Env;
  tick : nat;
  held : gset nat;                      (** locks held by the running thread *)
  next_lock : nat;                      (** the next handle [Lock_Init] gives out *)
  memoryMonitor : MemoryMonitorState;
  twinConfigurationObjectName : option string;
  twinConfiguration : TwinConfiguration;
  updateResult : TwinConfigurationUpdateResult;
  eventPriorities : TwinConfigurationEventCollectors;
}.

(** ** Updates *)

Definition set_tick (n : nat) (w : World) : World :=
  mkWorld (env w) n (held w) (next_lock w) (memoryMonitor w) (twinConfigurationObjectName w)
          (twinConfiguration w) (updateResult w) (eventPriorities w).

Definition set_held (h : gset nat) (w : World) : World :=
  mkWorld (env w) (tick w) h (next_lock w) (memoryMonitor w) (twinConfigurationObjectName w)
          (twinConfiguration w) (updateResult w) (eventPriorities w).

Definition set_next_lock (n : nat) (w : World) : World :=
  mkWorld (env w) (tick w) (held w) n (memoryMonitor w) (twinConfigurationObjectName w)
          (twinConfiguration w) (updateResult w) (eventPriorities w).

Definition set_memoryMonitor (m : MemoryMonitorState) (w : World) : World :=
  mkWorld (env w) (tick w) (held w) (next_lock w) m (twinConfigurationObjectName w)
          (twinConfiguration w) (updateResult w) (eventPriorities w).

Definition set_objectName (n : option string) (w : World) : World :=
  mkWorld (env w) (tick w) (held w) (next_lock w) (memoryMonitor w) n
          (twinConfiguration w) (updateResult w) (eventPriorities w).

Definition set_twinConfiguration (t : TwinConfiguration) (w : World) : World :=
  mkWorld (env w) (tick w) (held w) (next_lock w) (memoryMonitor w) (twinConfigurationObjectName w)
          t (updateResult w) (eventPriorities w).

Definition set_updateResult (u : TwinConfigurationUpdateResult) (w : World) : World :=
  mkWorld (env w) (tick w) (held w) (next_lock w) (memoryMonitor w) (twinConfigurationObjectName w)
          (twinConfiguration w) u (eventPriorities w).

Definition set_eventPriorities (e : TwinConfigurationEventCollectors) (w : World) : World :=
  mkWorld (env w) (tick w) (held w) (next_lock w) (memoryMonitor w) (twinConfigurationObjectName w)
          (twinConfiguration w) (updateResult w) e.

(** ** The environment's calls *)

(** A call that may fail: its outcome is decided by the environment. *)
Definition fallible : M World bool :=
  fun w => Some (env_ok (env w) (tick w), set_tick (S (tick w)) w).

(** [malloc]: does it return a block? *)
Definition malloc : M World bool := fallible.

(** [time(NULL)] *)
Definition time_NULL : M World Z :=
  fun w => Some (env_time (env w) (tick w), set_tick (S (tick w)) w).

(** [UniqueId_Generate]: the id, or [None] on failure. *)
Definition UniqueId_Generate : M World (option string) :=
  fun w => Some (if env_ok (env w) (tick w) then Some (env_uuid (env w) (tick w)) else None,
                 set_tick (S (tick w)) w).

(** [Lock_Init]: a fresh handle or the null handle. *)
Definition Lock_Init : M World LOCK_HANDLE :=
  ok <- fallible ;;
  if ok then
    l <- gets next_lock ;;
    modify (set_next_lock (S l)) ;;;
    ret (Some l)
  else ret None.

(** [Lock(handle) == LOCK_OK].  The null handle is an error; a mutex that the
    running thread already holds is never acquired (the call does not return). *)
Definition Lock (handle : LOCK_HANDLE) : M World bool :=
  match handle with
  | None => ret false
  | Some l =>
      h <- gets held ;;
      if decide (l ∈ h) then undefined
      else ok <- fallible ;;
           if ok then modify (set_held ({[l]} ∪ h)) ;;; ret true else ret false
  end.

(** [Unlock(handle) == LOCK_OK].  Unlocking a mutex that is not held is undefined. *)
Definition Unlock (handle : LOCK_HANDLE) : M World bool :=
  match handle with
  | None => ret false
  | Some l =>
      h <- gets held ;;
      if decide (l ∈ h) then
        ok <- fallible ;;
        if ok then modify (set_held (h ∖ {[l]})) ;;; ret true else ret false
      else undefined
  end.

(** [Lock_Deinit]: destroying a held mutex is undefined. *)
Definition Lock_Deinit (handle : LOCK_HANDLE) : M World unit :=
  match handle with
  | None => ret tt
  | Some l => h <- gets held ;; if decide (l ∈ h) then undefined else ret tt
  end.

(** ** States with a world in them

    A component may keep more state than the world: [up] runs a computation of
    the world in such a state. *)
Class HasWorld (S : Type) : Type := {
  world_of : S -> World;
  with_world : World -> S -> S;
  world_of_with : forall w s, world_of (with_world w s) = w;
  with_world_with : forall w w' s, with_world w (with_world w' s) = with_world w s;
  with_world_of : forall s, with_world (world_of s) s = s;
}.

#[export] Instance world_has_world : HasWorld World.
Proof. by refine {| world_of := id; with_world := fun w _ => w |}. Defined.

Definition up {S} `{HasWorld S} {A} (m : M World A) : M S A :=
  fun s => match m (world_of s) with
           | None => None
           | Some (a, w) => Some (a, with_world w s)
           end.

(** ** Predicates on worlds *)

(** Every call to the environment succeeds. *)
Definition reliable (w : World) : Prop := forall n, env_ok (env w) n = true.

(** The world after [n] calls to the environment that changed nothing else. *)
Definition bump (n : nat) (w : World) : World := set_tick (n + tick w) w.

(** A handle that is initialised and not held. *)
Definition free_lock (h : LOCK_HANDLE) (w : World) : Prop :=
  exists l, h = Some l /\ l ∉ held w.

(** ** Concrete worlds for the witnesses *)

Definition good_env : Env :=
  mkEnv (fun _ => true) (fun n => 1570000000 + Z.of_nat n)
        (fun _ => Some "2019-10-02T09:06:40Z"%string) (fun _ => Some "2019-10-02T07:06:40Z"%string)
        (fun _ => "4f5b4e2c-5d0b-4f43-9a0f-1a2b3c4d5e6f"%string).

(** The configuration with its defaults; the locks are 0, 1 and 2. *)
Definition running_world (e : Env) : World :=
  mkWorld e 0 ∅ 10
    (mkMemoryMonitor 0 DEFAULT_MAX_LOCAL_CACHE_SIZE (Some 2%nat))
    (Some "ms_iotn:urn_azureiot_Security_SecurityAgentConfiguration"%string)
    (mkTwinConfiguration DEFAULT_MAX_LOCAL_CACHE_SIZE DEFAULT_MAX_MESSAGE_SIZE
       DEFAULT_LOW_PRIORITY_MESSAGE_FREQUENCY DEFAULT_HIGH_PRIORITY_MESSAGE_FREQUENCY
       DEFAULT_SNAPSHOT_FREQUENCY DEFAULT_BASELINE_CUSTOM_CHECKS_ENABLED None None (Some 0%nat))
    (mkUpdateResult 0 TWIN_OK
       (mkBundleStatus CONFIGURATION_OK CONFIGURATION_OK CONFIGURATION_OK CONFIGURATION_OK CONFIGURATION_OK
          CONFIGURATION_OK CONFIGURATION_OK CONFIGURATION_OK CONFIGURATION_OK))
    (mkEventCollectors EVENT_PRIORITY_LOW EVENT_PRIORITY_HIGH EVENT_PRIORITY_LOW EVENT_PRIORITY_HIGH
       EVENT_PRIORITY_HIGH EVENT_PRIORITY_LOW EVENT_PRIORITY_LOW EVENT_PRIORITY_LOW EVENT_PRIORITY_LOW
       EVENT_PRIORITY_OPERATIONAL true true MILLISECONDS_IN_AN_HOUR MILLISECONDS_IN_AN_HOUR (Some 1%nat) false).

(** ** Lemmas *)

Lemma world_ext w w' :
  env w = env w' -> tick w = tick w' -> held w = held w' -> next_lock w = next_lock w' ->
  memoryMonitor w = memoryMonitor w' -> twinConfigurationObjectName w = twinConfigurationObjectName w' ->
  twinConfiguration w = twinConfiguration w' -> updateResult w = updateResult w' ->
  eventPriorities w = eventPriorities w' -> w = w'.
Proof. destruct w, w'. cbn. by intros -> -> -> -> -> -> -> -> ->. Qed.

Lemma bump_bump n m w : bump n (bump m w) = bump (n + m) w.
Proof. unfold bump. destruct w; cbn. unfold set_tick; cbn. f_equal. lia. Qed.

Lemma bump_0 w : bump 0 w = w.
Proof. by destruct w. Qed.

Lemma set_held_same w : set_held (held w) w = w.
Proof. by destruct w. Qed.

Lemma reliable_bump n w : reliable w -> reliable (bump n w).
Proof. done. Qed.

Lemma fallible_reliable w : reliable w -> fallible w = Some (true, bump 1 w).
Proof. intros H. unfold fallible. by rewrite H. Qed.

Lemma malloc_reliable w : reliable w -> malloc w = Some (true, bump 1 w).
Proof. apply fallible_reliable. Qed.

Lemma Lock_reliable l w :
  reliable w -> l ∉ held w ->
  Lock (Some l) w = Some (true, set_held ({[l]} ∪ held w) (bump 1 w)).
Proof.
  intros Hr Hl. unfold Lock, bind, gets. cbv beta iota.
  rewrite decide_False by done. rewrite (fallible_reliable w Hr). done.
Qed.

Lemma Unlock_reliable l w :
  reliable w -> l ∈ held w ->
  Unlock (Some l) w = Some (true, set_held (held w ∖ {[l]}) (bump 1 w)).
Proof.
  intros Hr Hl. unfold Unlock, bind, gets. cbv beta iota.
  rewrite decide_True by done. rewrite (fallible_reliable w Hr). done.
Qed.

(** What [Lock] does on any environment, for a lock that is not held. *)
Lemma Lock_cases l w :
  l ∉ held w ->
  Lock (Some l) w = Some (if env_ok (env w) (tick w)
                          then (true, set_held ({[l]} ∪ held w) (bump 1 w))
                          else (false, bump 1 w)).
Proof.
  intros Hl. unfold Lock, bind, gets, fallible. cbv beta iota.
  rewrite decide_False by done. by destruct (env_ok _ _).
Qed.

Lemma Unlock_cases l w :
  l ∈ held w ->
  Unlock (Some l) w = Some (if env_ok (env w) (tick w)
                            then (true, set_held (held w ∖ {[l]}) (bump 1 w))
                            else (false, bump 1 w)).
Proof.
  intros Hl. unfold Unlock, bind, gets, fallible. cbv beta iota.
  rewrite decide_True by done. by destruct (env_ok _ _).
Qed.

Lemma lock_unlock_held (l : nat) (h : gset nat) : l ∉ h -> ({[l]} ∪ h) ∖ {[l]} = h.
Proof.
  intros Hl. apply set_eq. intros x. rewrite elem_of_difference, elem_of_union, elem_of_singleton.
  split; [tauto|]. intros Hx. split; [by right|]. by intros ->.
Qed.

Lemma lock_now_held (l : nat) (h : gset nat) : l ∈ {[l]} ∪ h.
Proof. apply elem_of_union_l. by apply elem_of_singleton. Qed.

#[export] Hint Resolve lock_now_held : core.

Lemma good_reliable : reliable (running_world good_env).
Proof. done. Qed.

(** The state after [n] calls to the environment that changed nothing else. *)
Definition elapse {S} `{HasWorld S} (n : nat) (s : S) : S := with_world (bump n (world_of s)) s.

Lemma elapse_elapse {S} `{HasWorld S} n m (s : S) : elapse n (elapse m s) = elapse (n + m) s.
Proof. unfold elapse. by rewrite world_of_with, with_world_with, bump_bump. Qed.

Lemma elapse_0 {S} `{HasWorld S} (s : S) : elapse 0 s = s.
Proof. unfold elapse. by rewrite bump_0, with_world_of. Qed.

Lemma world_of_elapse {S} `{HasWorld S} n (s : S) : world_of (elapse n s) = bump n (world_of s).
Proof. apply world_of_with. Qed.

Lemma up_bump {S} `{HasWorld S} {A} (m : M World A) a n (s : S) :
  m (world_of s) = Some (a, bump n (world_of s)) -> up m s = Some (a, elapse n s).
Proof. unfold up, elapse. by intros ->. Qed.
