(* ===== verification/Utils.v ===== *)
(** * [utils.c]: string and arithmetic helpers

    Out parameters are returned next to the C return value; a function that
    calls [malloc] runs in the monad over [World]. *)

From S2P Require Import Prelude CString World.
From Stdlib Require Import Ascii String.
Open Scope Z_scope.

Inductive ActionResult : Type :=
  | ACTION_OK
  | ACTION_FAILED
  | ACTION_MEMORY_EXCEPTION.

#[export] Instance ActionResult_eq_dec : EqDecision ActionResult.
Proof. solve_decision. Defined.

(** [None] is the return value [false]; [Some v] is [true] with [*output = v]. *)
Definition Utils_ConvertStringToInteger (input : option string) (base : Z) : option Z :=
  match input with
  | None => None
  | Some s =>
      let r := strtol s base in
      let value := strtol_value r in
      if negb (strtol_converted r) then None
      else if ((value =? LONG_MIN) || (value =? LONG_MAX)) && strtol_erange r then None
      else if strtol_erange r && (value =? 0) then None
      else if (INT32_MAX <? value) || (value <? INT32_MIN) then None
      else Some (i32 value)
  end.

(** Returns the C result, the text written to [output] and the final [*outputSize]. *)
Definition Utils_IntegerToString (input outputSize : Z) : bool * string * Z :=
  let stringLength := strlen (sdec input) + 1 in
  if outputSize <? stringLength then (false, EmptyString, outputSize)
  else
    let outputSize' := strlen (sdec input) in
    if (outputSize' <? 0) || (stringLength <=? outputSize') then (false, sdec input, outputSize')
    else (true, sdec input, outputSize').

(** [string[i]] for [0 <= i <= strlen(string)]. *)
Definition char_at (i : nat) (s : string) : ascii := first_char (advance i s).

(** The loop [while (i >= 0 && string[i] != token) --i]: [Some i] when it stops
    at an index, [None] when [i] reaches -1. *)
Fixpoint trim_search (i : nat) (s : string) (token : ascii) : option nat :=
  if Ascii.eqb (char_at i s) token then Some i
  else match i with O => None | S i' => trim_search i' s token end.

(** The string after the call. *)
Definition Utils_TrimLastOccurance (s : string) (token : ascii) : string :=
  match trim_search (String.length s) s token with
  | Some i => stake i s
  | None => s
  end.

Definition Utils_IsPrefixOf (prefix : string) (prefixLength : Z) (s : string) (stringLength : Z) : bool :=
  (prefixLength <=? stringLength) && strncmp_eq (Z.to_nat prefixLength) s prefix.

Definition Utils_AreStringsEqual (firstString : string) (firstStringLength : Z)
    (secondString : string) (secondStringLength : Z) (caseSensitive : bool) : bool :=
  if negb (firstStringLength =? secondStringLength) then false
  else if caseSensitive then strncmp_eq (Z.to_nat secondStringLength) firstString secondString
  else strncasecmp_eq (Z.to_nat secondStringLength) firstString secondString.

Definition Utils_UnsafeAreStringsEqual (firstString secondString : string) (caseSensitive : bool) : bool :=
  Utils_AreStringsEqual firstString (u32 (strlen firstString))
                        secondString (u32 (strlen secondString)) caseSensitive.

(** [memcpy] of [srcLength] bytes over [dest]; [None] is the return value [false]. *)
Definition Utils_CopyString (src : string) (srcLength : Z) (dest : string) (destLength : Z) : option string :=
  if destLength <? srcLength then None
  else Some (stake (Z.to_nat srcLength) src ++ advance (Z.to_nat srcLength) dest)%string.

(** A character buffer being filled: what was written before the current
    position, and the size that is left. *)
Record Buffer : Type := mkBuffer {
  written : string;
  bufferSize : Z;
}.

(** [text] is what [vsnprintf] renders from the format and its arguments. *)
Definition Utils_ConcatenateToString (b : Buffer) (text : string) : bool * Buffer :=
  let result := strlen text in
  if (result <? 0) || (bufferSize b <=? result) then (false, b)
  else (true, mkBuffer (written b ++ text)%string (u32 (bufferSize b - result))).

(** Returns the [ActionResult] and the final [*dest]. *)
Definition Utils_DuplicateString (src : option string) : M World (ActionResult * option string) :=
  match src with
  | None => ret (ACTION_OK, None)
  | Some s =>
      ok <- malloc ;;
      if ok then ret (ACTION_OK, Some s) else ret (ACTION_MEMORY_EXCEPTION, None)
  end.

(** [None] is [false]; [Some s] is [true] with [*newCopy] a fresh copy holding [s]. *)
Definition Utils_CreateStringCopy (src : option string) : M World (option string) :=
  match src with
  | None => ret None
  | Some s =>
      ok <- malloc ;;
      if ok then ret (Some s) else ret None
  end.

(** The loop [for (; j < size - 1; i++, j++) s[j] = src[i]]. *)
Fixpoint substring_copy (count i : nat) (src : string) : string :=
  match count with
  | O => EmptyString
  | S n => String (char_at i src) (substring_copy n (S i) src)
  end.

Definition Utils_Substring (src : option string) (startOffset endOffset : Z) : M World (option string) :=
  match src with
  | None => ret None
  | Some s =>
      let len := u32 (strlen s) in
      if (len <=? startOffset) || (len <=? endOffset) || (len <=? u32 (startOffset + endOffset))
      then ret None
      else
        let size := u32 (len - startOffset - endOffset + 1) in
        ok <- malloc ;;
        require ok else None ;;
        ret (Some (substring_copy (Z.to_nat (size - 1)) (Z.to_nat startOffset) s))
  end.

(** [None] is [false]; [Some r] is [true] with [*result = r]. *)
Definition Utils_AddUnsignedIntsWithOverflowCheck (a b : Z) : option Z :=
  if u32 (UINT32_MAX - b) <? a then None else Some (u32 (a + b)).

Fixpoint is_blank (s : string) : bool :=
  match s with
  | EmptyString => true
  | String c s' => if negb (isspace c) then false else is_blank s'
  end.

Definition Utils_IsStringBlank (s : option string) : bool :=
  match s with None => true | Some s => is_blank s end.

Fixpoint is_numeric (s : string) : bool :=
  match s with
  | EmptyString => true
  | String c s' => if negb (isdigit c) then false else is_numeric s'
  end.

Definition Utils_IsStringNumeric (s : option string) : bool :=
  match s with None => false | Some s => is_numeric s end.

(** [sscanf(s, "%2hhx", &byte)]: the byte, when it returns 1.  Space is skipped,
    a sign counts as one of the two characters. *)
Definition sscanf_2hhx (s : string) : option Z :=
  let s := skip_space s in
  let '(neg, digits) := read_sign s in
  let width := (2 - (String.length s - String.length digits))%nat in
  let '(v, count, _) := read_digits 16 0 0 (stake width digits) in
  match count with
  | O => None
  | S _ => Some ((if neg then - v else v) mod 256)
  end.

(** The loop, [count] bytes from here on. *)
Fixpoint hex_bytes (count : nat) (hexString : string) : option (list Z) :=
  match count with
  | O => Some []
  | S count =>
      byte ← sscanf_2hhx hexString;
      bytes ← hex_bytes count (advance 2 hexString);
      Some (byte :: bytes)
  end.

(** [buffer] has [bufferSize] bytes; [None] is [false]. *)
Definition Utils_HexStringToByteArray (hexString : string) (buffer : list Z) (bufferSize : Z) : option (list Z * Z) :=
  let hexStringLen := u32 (strlen hexString) in
  if (hexStringLen mod 2 =? 1) || (bufferSize <=? hexStringLen / 2) then None
  else
    bytes ← hex_bytes (Z.to_nat (hexStringLen / 2)) hexString;
    Some (bytes ++ 0 :: drop (S (List.length bytes)) buffer, hexStringLen / 2).

(** [text] is what [vsnprintf] renders from the format and its arguments;
    [None] for a null format. *)
Definition Utils_StringFormat (text : option string) : M World (ActionResult * option string) :=
  match text with
  | None => ret (ACTION_FAILED, None)
  | Some text =>
      ok <- malloc ;;
      ret (if ok then (ACTION_OK, Some text) else (ACTION_MEMORY_EXCEPTION, None))
  end.

(** ** Properties *)

(** The overflow check is exact: it succeeds with the sum when the sum fits
    [uint32_t], and fails otherwise. *)
Lemma AddUnsigned_spec a b :
  is_u32 a -> is_u32 b ->
  Utils_AddUnsignedIntsWithOverflowCheck a b = if a + b <=? UINT32_MAX then Some (a + b) else None.
Proof.
  intros Ha Hb. unfold Utils_AddUnsignedIntsWithOverflowCheck.
  rewrite (u32_small (UINT32_MAX - b)) by ulia.
  destruct (Z.ltb_spec (UINT32_MAX - b) a), (Z.leb_spec (a + b) UINT32_MAX); try ulia; [done|].
  by rewrite u32_small by ulia.
Qed.

Lemma strlen_cons c s : strlen (String c s) = strlen s + 1.
Proof. unfold strlen. cbn [String.length]. lia. Qed.

Lemma advance_nil n : advance n EmptyString = EmptyString.
Proof. by destruct n. Qed.

Lemma advance_cons_char i s :
  (i < String.length s)%nat -> advance i s = String (char_at i s) (advance (S i) s).
Proof.
  revert s. induction i as [|i IH]; intros [|c s] H; cbn in H; try lia; [done|].
  cbn [advance]. rewrite IH by lia. done.
Qed.

(** The copy loop produces the characters from [i] on. *)
Lemma substring_copy_spec count i s :
  (i + count <= String.length s)%nat -> substring_copy count i s = stake count (advance i s).
Proof.
  revert i. induction count as [|n IH]; intros i H; [done|].
  rewrite (advance_cons_char i s) by lia. cbn [substring_copy stake]. by rewrite IH by lia.
Qed.

(** [Utils_Substring] drops [startOffset] characters at the start and
    [endOffset] at the end. *)
Lemma Substring_drops a mid z w :
  reliable w -> strlen (a ++ mid ++ z)%string < UINT32_MAX -> mid <> EmptyString ->
  Utils_Substring (Some (a ++ mid ++ z)%string) (strlen a) (strlen z) w = Some (Some mid, bump 1 w).
Proof.
  intros Hr Hlen Hmid. rewrite !strlen_app in Hlen.
  assert (Hm : 0 < strlen mid).
  { destruct mid; [done|]. rewrite strlen_cons. pose proof (strlen_nonneg mid). lia. }
  pose proof (strlen_nonneg a). pose proof (strlen_nonneg z).
  unfold Utils_Substring. rewrite !strlen_app.
  rewrite (u32_small (strlen a + (strlen mid + strlen z))) by ulia.
  rewrite (u32_small (strlen a + strlen z)) by ulia.
  rewrite (u32_small (strlen a + (strlen mid + strlen z) - strlen a - strlen z + 1)) by ulia.
  destruct (Z.leb_spec (strlen a + (strlen mid + strlen z)) (strlen a)); [lia|].
  destruct (Z.leb_spec (strlen a + (strlen mid + strlen z)) (strlen z)); [lia|].
  destruct (Z.leb_spec (strlen a + (strlen mid + strlen z)) (strlen a + strlen z)); [lia|].
  cbn [orb]. unfold bind. rewrite malloc_reliable by done. unfold ret. repeat f_equal.
  replace (Z.to_nat (strlen a + (strlen mid + strlen z) - strlen a - strlen z + 1 - 1))
    with (String.length mid) by (unfold strlen; lia).
  replace (Z.to_nat (strlen a)) with (String.length a) by (unfold strlen; lia).
  assert (Hadv : advance (String.length a) (a ++ mid ++ z)%string = (mid ++ z)%string).
  { clear. induction a; cbn; [by destruct (mid ++ z)%string | done]. }
  rewrite substring_copy_spec.
  - rewrite Hadv. clear. induction mid; cbn; [by destruct z | congruence].
  - pose proof (strlen_app a (mid ++ z)) as E1. pose proof (strlen_app mid z) as E2.
    unfold strlen in *. lia.
Qed.

Lemma concatenate_cases b text : 0 <= bufferSize b <= UINT32_MAX ->
  Utils_ConcatenateToString b text =
  if strlen text <? bufferSize b then (true, mkBuffer (written b ++ text)%string (bufferSize b - strlen text)) else (false, b).
Proof.
  intros Hb. unfold Utils_ConcatenateToString. pose proof (strlen_nonneg text).
  destruct (Z.ltb_spec (strlen text) 0); [lia|]. destruct (Z.leb_spec (bufferSize b) (strlen text)), (Z.ltb_spec (strlen text) (bufferSize b)); try lia; [done|].
  cbn [orb]. by rewrite u32_small by ulia.
Qed.

(** Case-insensitive comparison of two strings that fit [uint32_t]. *)
Lemma UnsafeAreStringsEqual_nocase a b :
  strlen a <= UINT32_MAX -> strlen b <= UINT32_MAX ->
  Utils_UnsafeAreStringsEqual a b false = true <-> lower a = lower b.
Proof.
  intros Ha Hb. pose proof (strlen_nonneg a). pose proof (strlen_nonneg b).
  unfold Utils_UnsafeAreStringsEqual, Utils_AreStringsEqual. rewrite !u32_small by ulia.
  assert (Hlow : forall s, String.length (lower s) = String.length s).
  { induction s; cbn; congruence. }
  destruct (Z.eqb_spec (strlen a) (strlen b)) as [E|E]; cbn [negb].
  - unfold strlen in *. rewrite Nat2Z.id. apply strncasecmp_eq_spec. lia.
  - split; [done|]. intros Hl. exfalso. apply E. unfold strlen.
    by rewrite <- (Hlow a), Hl, Hlow.
Qed.

(** Trimming cuts the string at the last occurrence of the token. *)
Lemma trim_search_spec s token i :
  trim_search (String.length s) s token = Some i ->
  char_at i s = token /\ forall j, (i < j <= String.length s)%nat -> char_at j s <> token.
Proof.
  generalize (String.length s) as n. intros n. induction n as [|n IH]; cbn [trim_search].
  - destruct (Ascii.eqb_spec (char_at 0 s) token); intros [= <-]. split; [done | lia].
  - destruct (Ascii.eqb_spec (char_at (S n) s) token) as [E|E].
    + intros [= <-]. split; [done | lia].
    + intros [Hc Hj]%IH. split; [done|]. intros j Hlt.
      destruct (decide (j = S n)) as [->|]; [done | apply Hj; lia].
Qed.

Lemma DuplicateString_reliable s w :
  reliable w ->
  Utils_DuplicateString s w =
  Some ((ACTION_OK, s), bump (match s with None => 0 | Some _ => 1 end) w).
Proof.
  intros Hr. destruct s as [s|]; unfold Utils_DuplicateString.
  - unfold bind. by rewrite malloc_reliable.
  - by rewrite bump_0.
Qed.

(** ** Bytes in hexadecimal digits *)

Definition hex_char (upper : bool) (d : Z) : ascii :=
  ascii_of_N (Z.to_N (if d <? 10 then 48 + d else if upper then 55 + d else 87 + d)).

(** How bytes are printed. *)
Fixpoint hex_text (upper : bool) (bytes : list Z) : string :=
  match bytes with
  | [] => EmptyString
  | b :: bytes => String (hex_char upper (b / 16)) (String (hex_char upper (b mod 16)) (hex_text upper bytes))
  end.

Lemma hex_char_code upper d : 0 <= d < 16 -> code (hex_char upper d) = if d <? 10 then 48 + d else if upper then 55 + d else 87 + d.
Proof.
  intros Hd. unfold code, hex_char. destruct (Z.ltb_spec d 10), upper; rewrite N_ascii_embedding by lia; lia.
Qed.

Lemma digit_value_hex upper d : 0 <= d < 16 -> digit_value (hex_char upper d) = Some d.
Proof.
  intros Hd. unfold digit_value, isdigit. rewrite !hex_char_code by done.
  destruct (Z.ltb_spec d 10), upper; bdestruct_all; cbn [andb]; try lia; f_equal; lia.
Qed.

Lemma isspace_hex upper d : 0 <= d < 16 -> isspace (hex_char upper d) = false.
Proof.
  intros Hd. unfold isspace. rewrite hex_char_code by done.
  destruct (Z.ltb_spec d 10), upper; bdestruct_all; cbn; try lia; done.
Qed.

Lemma hex_char_sign upper d c : 0 <= d < 16 -> c = "+"%char \/ c = "-"%char -> Ascii.eqb (hex_char upper d) c = false.
Proof.
  intros Hd Hc. apply Ascii.eqb_neq. intros E. apply (f_equal code) in E. rewrite hex_char_code in E by done.
  assert (code c = 43 \/ code c = 45) as H by (by destruct Hc as [-> | ->]; auto).
  destruct (Z.ltb_spec d 10), upper; lia.
Qed.

Lemma sscanf_hex upper b rest :
  0 <= b < 256 -> sscanf_2hhx (String (hex_char upper (b / 16)) (String (hex_char upper (b mod 16)) rest)) = Some b.
Proof.
  intros Hb. assert (H1 : 0 <= b / 16 < 16) by (split; [apply Z.div_pos; lia | apply Z.div_lt_upper_bound; lia]).
  pose proof (Z.mod_pos_bound b 16 ltac:(lia)) as H2. unfold sscanf_2hhx. cbn [skip_space]. rewrite isspace_hex by done.
  unfold read_sign. rewrite !hex_char_sign by auto. cbv zeta. rewrite Nat.sub_diag. cbn [Nat.sub stake read_digits].
  rewrite !digit_value_hex by done. rewrite (proj2 (Z.ltb_lt (b / 16) 16)), (proj2 (Z.ltb_lt (b mod 16) 16)) by lia.
  f_equal. rewrite Z.mod_small; pose proof (Z.div_mod b 16 ltac:(lia)); lia.
Qed.

Lemma hex_bytes_text upper bytes :
  Forall (fun b => 0 <= b < 256) bytes -> hex_bytes (List.length bytes) (hex_text upper bytes) = Some bytes.
Proof.
  intros H. induction H as [|b bytes Hb _ IH]; [done|]. cbn [List.length hex_bytes hex_text].
  rewrite sscanf_hex by done. cbn [mbind option_bind advance]. by rewrite IH.
Qed.

Lemma strlen_hex_text upper bytes : strlen (hex_text upper bytes) = 2 * Z.of_nat (List.length bytes).
Proof. induction bytes as [|b bytes IH]; [done|]. cbn [hex_text List.length]. rewrite !strlen_cons. lia. Qed.

(** Printed bytes are read back, whichever letters were used, when there is room
    for them and a zero. *)
Lemma HexString_roundtrip upper bytes buffer :
  Forall (fun b => 0 <= b < 256) bytes -> 2 * Z.of_nat (List.length bytes) <= UINT32_MAX ->
  (List.length bytes < List.length buffer)%nat ->
  Utils_HexStringToByteArray (hex_text upper bytes) buffer (Z.of_nat (List.length buffer)) =
  Some (bytes ++ 0 :: drop (S (List.length bytes)) buffer, Z.of_nat (List.length bytes)).
Proof.
  intros Hb Hl Hroom. unfold Utils_HexStringToByteArray. rewrite strlen_hex_text, u32_small by ulia.
  rewrite Z.mul_comm, Z.mod_mul, Z.div_mul by lia. rewrite Nat2Z.id, hex_bytes_text by done.
  rewrite (proj2 (Z.leb_gt _ _)) by lia. done.
Qed.
