(* ===== verification/Ledger.v ===== *)
(** * Counting what is acquired and released

    A state that counts the allocations, files, handles and documents that are
    not released yet.  [changes d m] says how a computation changes the count,
    by its result; the lemmas follow the structure of a program, so that a
    cleanup is checked on every path at once. *)

From S2P Require Import Prelude World.
Open Scope Z_scope.

Class HasLedger (S : Type) {W : HasWorld S} : Type := {
  live_of : S -> Z;
  with_live : Z -> S -> S;
  live_of_with : forall n s, live_of (with_live n s) = n;
  world_of_with_live : forall n s, world_of (with_live n s) = world_of s;
  live_of_with_world : forall w s, live_of (with_world w s) = live_of s;
}.

Section Ledger.
Context {S : Type} {W : HasWorld S} {L : HasLedger S}.

Definition acquire : M S unit := modify (fun s => with_live (live_of s + 1) s).
Definition release : M S unit := modify (fun s => with_live (live_of s - 1) s).

(** A call that may fail; what it returns is owned. *)
Definition acquire_if (ok : M World bool) : M S bool :=
  ok <- up ok ;;
  if ok then acquire ;;; ret true else ret false.

(** [free(p)] for a pointer that may be null, or any destructor that the code
    guards with a test for null. *)
Definition release_if {A} (p : option A) : M S unit :=
  match p with Some _ => release | None => ret tt end.

(** How many of these pointers are owned. *)
Definition owns {A} (p : option A) : Z := match p with Some _ => 1 | None => 0 end.

(** No call to the environment fails. *)
Definition never_fails (e : Env) : Prop := forall n, env_ok e n = true.

(** The computation returns from every state; its result [a] tells by how much
    the count has changed; the environment [e] is as before, and the result
    satisfies [Q e]. *)
Definition effect {A} (d : A -> Z) (Q : Env -> A -> Prop) (m : M S A) : Prop :=
  forall s, exists a s', m s = Some (a, s') /\ live_of s' = live_of s + d a /\
    env (world_of s') = env (world_of s) /\ Q (env (world_of s)) a.

Lemma effect_ret {A} (a : A) d (Q : Env -> A -> Prop) : d a = 0 -> (forall e, Q e a) -> effect d Q (ret a).
Proof. intros Hd HQ s. exists a, s. repeat split; try done. lia. Qed.

Lemma effect_bind {A B} (m : M S A) (k : A -> M S B) d (Q : Env -> B -> Prop) d1 Q1 :
  effect d1 Q1 m -> (forall a, effect (fun b => d b - d1 a) (fun e b => Q1 e a -> Q e b) (k a)) -> effect d Q (bind m k).
Proof.
  intros Hm Hk s. destruct (Hm s) as (a & s1 & H1 & L1 & E1 & Q1a).
  destruct (Hk a s1) as (b & s2 & H2 & L2 & E2 & Q2).
  exists b, s2. rewrite (bind_eq _ _ _ _ _ H1). split; [done|]. split; [lia|]. split; [congruence|].
  rewrite <- E1. apply Q2. by rewrite E1.
Qed.

Lemma effect_weaken {A} (m : M S A) d e (Q R : Env -> A -> Prop) :
  effect d Q m -> (forall v a, Q v a -> d a = e a) -> (forall v a, Q v a -> R v a) -> effect e R m.
Proof.
  intros H Hd HQ s. destruct (H s) as (a & s' & H1 & H2 & H3 & H4). exists a, s'.
  split; [done|]. split; [by rewrite <- (Hd _ _ H4)|]. split; [done|]. auto.
Qed.

Lemma effect_acquire : effect (fun _ => 1) (fun _ _ => True) acquire.
Proof. intros s. eexists tt, _. split; [reflexivity|]. rewrite live_of_with, world_of_with_live. done. Qed.

Lemma effect_release : effect (fun _ => -1) (fun _ _ => True) release.
Proof. intros s. eexists tt, _. split; [reflexivity|]. rewrite live_of_with, world_of_with_live. by repeat split. Qed.

Lemma effect_release_if {A} (p : option A) : effect (fun _ => - owns p) (fun _ _ => True) (release_if p).
Proof. destruct p; [exact effect_release | by apply effect_ret]. Qed.

Lemma effect_fallible : effect (fun _ => 0) (fun e b => never_fails e -> b = true) (up fallible).
Proof.
  intros s. unfold up, fallible. eexists _, _. split; [reflexivity|]. rewrite live_of_with_world, world_of_with.
  repeat split; [lia|]. intros Hr. by apply Hr.
Qed.

(** A computation of the world, which never touches the count. *)
Lemma effect_up {A} (m : M World A) (Q : Env -> A -> Prop) :
  (forall w, exists a w', m w = Some (a, w') /\ env w' = env w /\ Q (env w) a) -> effect (fun _ => 0) Q (up m).
Proof.
  intros H s. destruct (H (world_of s)) as (a & w' & H1 & H2 & H3). unfold up. rewrite H1. eexists _, _. split; [reflexivity|].
  rewrite live_of_with_world, world_of_with. split; [lia|]. by split.
Qed.

(** A call that may fail with one tick of the environment. *)
Lemma effect_acquire_if : effect (fun b : bool => if b then 1 else 0) (fun e b => never_fails e -> b = true) (acquire_if fallible).
Proof.
  apply (effect_bind _ _ _ _ _ _ effect_fallible). intros [].
  - apply (effect_bind _ _ _ _ _ _ effect_acquire). intros _. by apply effect_ret.
  - apply effect_ret; [done | intros e H Hr; by specialize (H Hr)].
Qed.

End Ledger.

Create HintDb ledger.
#[export] Hint Resolve effect_acquire effect_release effect_release_if effect_fallible effect_acquire_if : ledger.

(** The next call of a program, with the lemma on it from the database. *)
Ltac effect_step := eapply effect_bind; [solve [eauto 2 with ledger]|].
Ltac effect_done := apply effect_ret; [cbn; lia | intros e; cbn; intuition congruence].

(** ** A state with a world and a count *)

Record Counted : Type := mkCounted { counted_world : World; counted_live : Z }.

#[export] Instance counted_has_world : HasWorld Counted.
Proof. by refine {| world_of := counted_world; with_world w s := mkCounted w (counted_live s) |}; try intros [? ?]. Defined.

#[export] Instance counted_has_ledger : HasLedger Counted.
Proof. by refine {| live_of := counted_live; with_live n s := mkCounted (counted_world s) n |}. Defined.
