(* ===== verification/Http.v ===== *)
(** * The HTTP client of the SDK

    The C SDK is not under the repository's sources: it is an interface over a
    state that carries the world and the ledger, with what its documentation says
    of the calls as laws.  A client that fails only when the environment makes a
    call fail, over a network that is a function, satisfies the laws. *)

From S2P Require Import Prelude CString World Ledger.
From Stdlib Require Import String.
Open Scope Z_scope.

(** ** The HTTP client *)

Inductive HTTPAPI_REQUEST_TYPE : Type :=
  | HTTPAPI_REQUEST_GET
  | HTTPAPI_REQUEST_POST.

(** Handles are passed by value: setting an option or adding a header gives the
    changed handle.  Executing a request returns whether it succeeded, the status
    and the bytes that were written to the response buffer; [BUFFER_u_char] is
    the memory at the pointer to these bytes, [None] for the null pointer.
    Elsewhere [None] is a null handle or a result other than success. *)
Class Http (S : Type) : Type := {
  BUFFER_HANDLE : Type;
  HTTP_HEADERS_HANDLE : Type;
  HTTP_HANDLE : Type;
  HTTPAPIEX_HANDLE : Type;
  HTTPAPIEX_SAS_HANDLE : Type;
  SU_OPTION_X509_CERT : string;
  SU_OPTION_X509_PRIVATE_KEY : string;
  BUFFER_new : M S (option BUFFER_HANDLE);
  BUFFER_create : string -> Z -> M S (option BUFFER_HANDLE);
  BUFFER_delete : BUFFER_HANDLE -> M S unit;
  BUFFER_u_char : string -> option string;
  HTTPHeaders_Alloc : M S (option HTTP_HEADERS_HANDLE);
  HTTPHeaders_AddHeaderNameValuePair : HTTP_HEADERS_HANDLE -> string -> string -> M S (option HTTP_HEADERS_HANDLE);
  HTTPHeaders_Free : HTTP_HEADERS_HANDLE -> M S unit;
  HTTPAPI_Init : M S bool;
  HTTPAPI_Deinit : M S unit;
  HTTPAPI_CreateConnection : string -> M S (option HTTP_HANDLE);
  HTTPAPI_SetOption : HTTP_HANDLE -> string -> option string -> M S (option HTTP_HANDLE);
  HTTPAPI_CloseConnection : HTTP_HANDLE -> M S unit;
  HTTPAPI_ExecuteRequest : HTTP_HANDLE -> HTTPAPI_REQUEST_TYPE -> string -> HTTP_HEADERS_HANDLE ->
    option string -> Z -> BUFFER_HANDLE -> M S (bool * Z * string);
  HTTPAPIEX_Create : string -> M S (option HTTPAPIEX_HANDLE);
  HTTPAPIEX_Destroy : HTTPAPIEX_HANDLE -> M S unit;
  HTTPAPIEX_SAS_Create_From_String : option string -> string -> option string -> M S (option HTTPAPIEX_SAS_HANDLE);
  HTTPAPIEX_SAS_Destroy : HTTPAPIEX_SAS_HANDLE -> M S unit;
  HTTPAPIEX_SAS_ExecuteRequest : HTTPAPIEX_SAS_HANDLE -> HTTPAPIEX_HANDLE -> HTTPAPI_REQUEST_TYPE -> string ->
    HTTP_HEADERS_HANDLE -> option BUFFER_HANDLE -> BUFFER_HANDLE -> M S (bool * Z * string);
}.

Section Laws.
Context {S : Type} {W : HasWorld S} {L : HasLedger S} {Client : Http S}.

(** A handle that was given [v], when there is one; there is none only when some
    call fails. *)
Definition yields {H V} (f : H -> V) (v : V) (e : Env) (p : option H) : Prop :=
  match p with Some h => f h = v | None => ~ never_fails e end.

(** The answer [v]: always when the request succeeds, and when no call fails. *)
Definition answered_by (v : bool * Z * string) (e : Env) (r : bool * Z * string) : Prop :=
  never_fails e \/ r.1.1 = true -> r = v.

(** What a handle was given, and what the network answers.  The memory of a buffer
    begins with its content: nothing is said of the bytes behind it, in
    particular not that the first of them is NUL. *)
Class HttpLaws : Type := {
  header_lines : HTTP_HEADERS_HANDLE -> list (string * string);
  connection : HTTP_HANDLE -> string * list (string * option string);
  api_host : HTTPAPIEX_HANDLE -> string;
  sas_token : HTTPAPIEX_SAS_HANDLE -> option string * string * option string;
  buffer_content : BUFFER_HANDLE -> string * Z;
  answer_certificate : string * list (string * option string) -> HTTPAPI_REQUEST_TYPE -> string -> list (string * string) ->
    option string -> Z -> bool * Z * string;
  answer_sas : option string * string * option string -> string -> HTTPAPI_REQUEST_TYPE -> string ->
    list (string * string) -> option (string * Z) -> bool * Z * string;
  u_char_law content memory : BUFFER_u_char content = Some memory -> exists rest, memory = (content ++ rest)%string;
  new_law : effect owns (fun e p => never_fails e -> p <> None) BUFFER_new;
  create_law text n : effect owns (yields buffer_content (text, n)) (BUFFER_create text n);
  delete_law h : effect (fun _ => -1) (fun _ _ => True) (BUFFER_delete h);
  alloc_law : effect owns (yields header_lines []) HTTPHeaders_Alloc;
  add_law h k v : effect (fun _ => 0) (yields header_lines (header_lines h ++ [(k, v)])) (HTTPHeaders_AddHeaderNameValuePair h k v);
  free_law h : effect (fun _ => -1) (fun _ _ => True) (HTTPHeaders_Free h);
  api_init_law : effect (fun b : bool => if b then 1 else 0) (fun e b => never_fails e -> b = true) HTTPAPI_Init;
  api_deinit_law : effect (fun _ => -1) (fun _ _ => True) HTTPAPI_Deinit;
  connect_law host : effect owns (yields connection (host, [])) (HTTPAPI_CreateConnection host);
  option_law h k v : effect (fun _ => 0) (yields connection (fst (connection h), snd (connection h) ++ [(k, v)])) (HTTPAPI_SetOption h k v);
  close_law h : effect (fun _ => -1) (fun _ _ => True) (HTTPAPI_CloseConnection h);
  execute_law h t url hs content n buffer :
    effect (fun _ => 0) (answered_by (answer_certificate (connection h) t url (header_lines hs) content n))
      (HTTPAPI_ExecuteRequest h t url hs content n buffer);
  create_api_law host : effect owns (yields api_host host) (HTTPAPIEX_Create host);
  destroy_api_law h : effect (fun _ => -1) (fun _ _ => True) (HTTPAPIEX_Destroy h);
  create_sas_law key scope name : effect owns (yields sas_token (key, scope, name)) (HTTPAPIEX_SAS_Create_From_String key scope name);
  destroy_sas_law h : effect (fun _ => -1) (fun _ _ => True) (HTTPAPIEX_SAS_Destroy h);
  execute_sas_law sas api t url hs content buffer :
    effect (fun _ => 0) (answered_by (answer_sas (sas_token sas) (api_host api) t url (header_lines hs) (buffer_content <$> content)))
      (HTTPAPIEX_SAS_ExecuteRequest sas api t url hs content buffer);
}.

End Laws.

(** ** A client over a network

    The memory of its buffers is exactly their content. *)

(** What the network answers to a request with a certificate and to one with a
    SAS token. *)
Record Network : Type := mkNetwork {
  net_certificate : string * list (string * option string) -> HTTPAPI_REQUEST_TYPE -> string -> list (string * string) ->
    option string -> Z -> bool * Z * string;
  net_sas : option string * string * option string -> string -> HTTPAPI_REQUEST_TYPE -> string -> list (string * string) ->
    option (string * Z) -> bool * Z * string;
}.

Section Model.
Context (net : Network).

(** A call that gives a handle for [v], one that changes a handle to [v], and
    one that answers [v]. *)
Definition new_handle {A} (v : A) : M Counted (option A) := ok <- acquire_if malloc ;; ret (if ok then Some v else None).
Definition changed {A} (v : A) : M Counted (option A) := ok <- up fallible ;; ret (if ok then Some v else None).
Definition answered (v : bool * Z * string) : M Counted (bool * Z * string) :=
  ok <- up fallible ;; ret (if ok then v else (false, 0, EmptyString)).

#[export] Instance model_http : Http Counted := {|
  BUFFER_HANDLE := string * Z;
  HTTP_HEADERS_HANDLE := list (string * string);
  HTTP_HANDLE := string * list (string * option string);
  HTTPAPIEX_HANDLE := string;
  HTTPAPIEX_SAS_HANDLE := option string * string * option string;
  SU_OPTION_X509_CERT := "x509certificate";
  SU_OPTION_X509_PRIVATE_KEY := "x509privatekey";
  BUFFER_new := new_handle (EmptyString, 0);
  BUFFER_create text n := new_handle (text, n);
  BUFFER_delete _ := release;
  BUFFER_u_char content := if String.eqb content EmptyString then None else Some content;
  HTTPHeaders_Alloc := new_handle [];
  HTTPHeaders_AddHeaderNameValuePair h k v := changed (h ++ [(k, v)]);
  HTTPHeaders_Free _ := release;
  HTTPAPI_Init := acquire_if fallible;
  HTTPAPI_Deinit := release;
  HTTPAPI_CreateConnection host := new_handle (host, []);
  HTTPAPI_SetOption h k v := changed (fst h, snd h ++ [(k, v)]);
  HTTPAPI_CloseConnection _ := release;
  HTTPAPI_ExecuteRequest h t url hs content n _ := answered (net_certificate net h t url hs content n);
  HTTPAPIEX_Create host := new_handle host;
  HTTPAPIEX_Destroy _ := release;
  HTTPAPIEX_SAS_Create_From_String key scope name := new_handle (key, scope, name);
  HTTPAPIEX_SAS_Destroy _ := release;
  HTTPAPIEX_SAS_ExecuteRequest sas api t url hs content _ := answered (net_sas net sas api t url hs content);
|}.

Lemma effect_new {A} (v : A) : effect owns (yields id v) (new_handle v).
Proof.
  unfold new_handle. eapply effect_bind; [apply effect_acquire_if|]. intros []; apply effect_ret; try (cbn; lia); cbn; [done|].
  intros e He Hn. by specialize (He Hn).
Qed.

Lemma effect_changed {A} (v : A) : effect (fun _ => 0) (yields id v) (changed v).
Proof.
  unfold changed. eapply effect_bind; [apply effect_fallible|]. intros []; apply effect_ret; try (cbn; lia); cbn; [done|].
  intros e He Hn. by specialize (He Hn).
Qed.

Lemma effect_answered v : effect (fun _ => 0) (answered_by v) (answered v).
Proof.
  unfold answered. eapply effect_bind; [apply effect_fallible|]. intros []; apply effect_ret; try (cbn; lia); [by intros e _ _|].
  intros e He [Hn|[=]]. by specialize (He Hn).
Qed.

#[export] Instance model_http_laws : HttpLaws.
Proof.
  refine {| header_lines := id; connection := id; api_host := id; sas_token := id; buffer_content := id;
            answer_certificate := net_certificate net; answer_sas := net_sas net |}; intros; cbn;
    try (match goal with H : _ = Some _ |- _ => cbn in H; destruct (String.eqb _ _); [done|]; injection H as <- end;
         exists EmptyString; by rewrite sapp_nil_r);
    try apply effect_new; try apply effect_changed; try apply effect_answered; try apply effect_release; try apply effect_acquire_if.
  - eapply effect_weaken; [apply effect_new | done |]. intros e [x|]; cbn; [done | auto].
  - eapply effect_weaken; [apply effect_answered | done |]. intros e r. by rewrite option_fmap_id.
Defined.

End Model.
