(* ===== verification/FileUtils.v ===== *)
(** * [os_utils/linux/file_utils.c] and [os_utils/linux/os_utils.c]

    Reading a file into a buffer, and the directory of the executable.  The file
    system is a parameter: what [open] and [read] find under a name, and what
    [/proc/self/exe] points to. *)

From S2P Require Import Prelude CString World Utils.
From Stdlib Require Import Ascii String.
Open Scope Z_scope.

Inductive FileResults : Type :=
  | FILE_UTILS_OK
  | FILE_UTILS_FILE_NOT_FOUND
  | FILE_UTILS_SIZE_MISMATCH
  | FILE_UTILS_ERROR
  | FILE_UTILS_NOPERM.

#[export] Instance FileResults_eq : EqDecision FileResults.
Proof. solve_decision. Defined.

(** What [open(filename, O_RDONLY)] gives, and the bytes that [read] finds;
    [None] when the read fails. *)
Inductive OpenedFile : Type :=
  | ENOENT
  | EACCES
  | OpenError
  | Opened (content : option string).

Class FileSystem : Type := {
  open_file : string -> OpenedFile;
  readlink_exe : option string;   (* [None]: -1 *)
}.

Section FileUtils.
Context {Fs : FileSystem}.

(** The result and the bytes stored in [data]. *)
Definition FileUtils_ReadFile (filename : string) (readCount : Z) (maxCount : bool) : FileResults * string :=
  match open_file filename with
  | ENOENT => (FILE_UTILS_FILE_NOT_FOUND, EmptyString)
  | EACCES => (FILE_UTILS_NOPERM, EmptyString)
  | OpenError => (FILE_UTILS_ERROR, EmptyString)
  | Opened None => (FILE_UTILS_ERROR, EmptyString)
  | Opened (Some content) =>
      let data := stake (Z.to_nat readCount) content in
      let bytesRead := strlen data in
      if maxCount then (if bytesRead <=? readCount then FILE_UTILS_OK else FILE_UTILS_ERROR, data)
      else if negb (bytesRead =? readCount) then (FILE_UTILS_SIZE_MISMATCH, data)
      else (FILE_UTILS_OK, data)
  end.

(** [FileUtils_OpenFile] for reading: the result and what the file holds. *)
Definition FileUtils_OpenFile (filename : string) : FileResults * option (option string) :=
  match open_file filename with
  | ENOENT => (FILE_UTILS_FILE_NOT_FOUND, None)
  | EACCES => (FILE_UTILS_NOPERM, None)
  | OpenError => (FILE_UTILS_ERROR, None)
  | Opened content => (FILE_UTILS_OK, Some content)
  end.

Definition DEFAULT_BUFFER : Z := 500.

(** The result of [mallocAndStrcpy_s] is ignored: when there is no memory an
    uninitialised pointer is returned. *)
Definition GetExecutableDirectory : M World (option string) :=
  match readlink_exe with
  | None => ret None
  | Some link =>
      let fullpath := until_nul (stake (Z.to_nat (DEFAULT_BUFFER - 1)) link) in
      ok <- malloc ;;
      if ok then ret (Some (Utils_TrimLastOccurance fullpath "/")) else undefined
  end.

(** ** Lemmas *)

Lemma stake_length n s : (String.length (stake n s) <= n)%nat.
Proof. revert s. induction n as [|n IH]; intros [|c s]; cbn; try lia. specialize (IH s). lia. Qed.

Lemma stake_all n s : (String.length s <= n)%nat -> stake n s = s.
Proof. revert s. induction n as [|n IH]; intros [|c s] H; cbn in *; try done; [lia|]. rewrite IH; [done | lia]. Qed.

(** With [maxCount] a file that can be opened and read is never an error. *)
Lemma ReadFile_max filename readCount content :
  0 <= readCount -> open_file filename = Opened (Some content) ->
  FileUtils_ReadFile filename readCount true = (FILE_UTILS_OK, stake (Z.to_nat readCount) content).
Proof.
  intros H E. unfold FileUtils_ReadFile. rewrite E. cbv zeta.
  destruct (Z.leb_spec (strlen (stake (Z.to_nat readCount) content)) readCount) as [|Hl]; [done|].
  unfold strlen in Hl. pose proof (stake_length (Z.to_nat readCount) content). lia.
Qed.

Lemma ReadFile_cases filename readCount :
  0 <= readCount ->
  match FileUtils_ReadFile filename readCount true with
  | (FILE_UTILS_OK, data) =>
      exists content, open_file filename = Opened (Some content) /\ data = stake (Z.to_nat readCount) content
  | _ => forall content, open_file filename <> Opened (Some content)
  end.
Proof.
  intros H. destruct (open_file filename) as [| | |[content|]] eqn:E; try (unfold FileUtils_ReadFile; by rewrite E).
  rewrite (ReadFile_max _ _ content) by done. by exists content.
Qed.

End FileUtils.
