(* ===== verification/Certificates.v ===== *)
(** * [certificate_manager.c]: a certificate and its key from a file

    OpenSSL is a parameter: what its readers find in the bytes of a file and what
    its writers print.  Files, BIOs, certificates, keys and buffers are counted
    in the ledger of the state. *)

From S2P Require Import Prelude CString World Utils Ledger FileUtils.
From Stdlib Require Import Ascii String.
Open Scope Z_scope.

Class OpenSSL : Type := {
  X509 : Type;
  EVP_PKEY : Type;
  PKCS12 : Type;
  PEM_read_X509 : string -> option X509 * string;   (* and what follows in the file *)
  PEM_read_PrivateKey : string -> option EVP_PKEY;
  PEM_write_bio_X509 : X509 -> option string;
  PEM_write_bio_PrivateKey : EVP_PKEY -> option string;
  d2i_PKCS12_fp : string -> option PKCS12;
  PKCS12_parse : PKCS12 -> option (EVP_PKEY * X509);
}.

(** [strrchr(s, c)]: the suffix that starts at the last [c]. *)
Fixpoint strrchr (s : string) (c : ascii) : option string :=
  match s with
  | EmptyString => None
  | String d s' =>
      match strrchr s' c with
      | Some r => Some r
      | None => if Ascii.eqb d c then Some s else None
      end
  end.

Section Certificates.
Context {S : Type} {W : HasWorld S} {L : HasLedger S} {Fs : FileSystem} {Ssl : OpenSSL}.

Definition SUPPORTED_FORMAT_PEM : string := ".pem".
Definition SUPPORTED_FORMAT_PKCS12 : string := ".pfx".

(** ** Operations *)

(** Both printers: what was written to the BIO is copied into a buffer. *)
Definition bio_to_pem (written : option string) : M S (option string) :=
  bio <- acquire_if fallible ;;
  require bio else None ;;
  match written with
  | None => release ;;; ret None
  | Some data =>
      pem <- acquire_if malloc ;;
      release ;;;
      ret (if pem then Some (until_nul data) else None)
  end.

Definition CertificateManager_X509CertificateToPemFormat (certificate : X509) : M S (option string) :=
  bio_to_pem (PEM_write_bio_X509 certificate).

Definition CertificateManager_PrivateKeyToPemFormat (privateKey : EVP_PKEY) : M S (option string) :=
  bio_to_pem (PEM_write_bio_PrivateKey privateKey).

(** The bytes of the file behind the [FILE*]. *)
Definition CertificateManager_OpenFileForRead (filePath : string) : M S (option string) :=
  match FileUtils_OpenFile filePath with
  | (FILE_UTILS_OK, Some content) => acquire ;;; ret (Some (default EmptyString content))
  | _ => ret None
  end.

(** The cleanup of a failure: what the out parameters point to is freed. *)
Definition free_outputs (certificate privateKey : option string) : M S (bool * option string * option string) :=
  release_if certificate ;;;
  release_if privateKey ;;;
  ret (false, None, None).

(** The results are the return value, [*certificate] and [*privateKey]. *)
Definition CertificateManager_LoadFromFileUsingPemFormat (filePath : string) (certificate privateKey : option string)
    : M S (bool * option string * option string) :=
  certificateFile <- CertificateManager_OpenFileForRead filePath ;;
  match certificateFile with
  | None => free_outputs certificate privateKey
  | Some content =>
      match PEM_read_X509 content with
      | (None, _) =>
          release ;;;
          free_outputs certificate privateKey
      | (Some x509Certificate, rest) =>
          acquire ;;;
          certificate <- CertificateManager_X509CertificateToPemFormat x509Certificate ;;
          match PEM_read_PrivateKey rest with
          | None =>
              release ;;; release ;;;
              free_outputs certificate privateKey
          | Some evpPrivateKey =>
              acquire ;;;
              privateKey <- CertificateManager_PrivateKeyToPemFormat evpPrivateKey ;;
              release ;;; release ;;; release ;;;
              ret (true, certificate, privateKey)
          end
      end
  end.

Definition CertificateManager_LoadFromFileUsingPkcs12Format (filePath : string) (certificate privateKey : option string)
    : M S (bool * option string * option string) :=
  certificateFile <- CertificateManager_OpenFileForRead filePath ;;
  match certificateFile with
  | None => free_outputs certificate privateKey
  | Some content =>
      match d2i_PKCS12_fp content with
      | None =>
          release ;;;
          free_outputs certificate privateKey
      | Some pkcs12Certificate =>
          acquire ;;;
          match PKCS12_parse pkcs12Certificate with
          | None =>
              release ;;; release ;;;
              free_outputs certificate privateKey
          | Some (evpPrivateKey, x509Certificate) =>
              acquire ;;; acquire ;;;
              certificate <- CertificateManager_X509CertificateToPemFormat x509Certificate ;;
              privateKey <- CertificateManager_PrivateKeyToPemFormat evpPrivateKey ;;
              release ;;; release ;;; release ;;; release ;;;
              ret (true, certificate, privateKey)
          end
      end
  end.

Definition CertificateManager_LoadFromFile (filePath : string) (certificate privateKey : option string)
    : M S (bool * option string * option string) :=
  match strrchr filePath "." with
  | None => ret (false, certificate, privateKey)
  | Some extension =>
      if Utils_UnsafeAreStringsEqual extension SUPPORTED_FORMAT_PEM false then
        CertificateManager_LoadFromFileUsingPemFormat filePath certificate privateKey
      else if Utils_UnsafeAreStringsEqual extension SUPPORTED_FORMAT_PKCS12 false then
        CertificateManager_LoadFromFileUsingPkcs12Format filePath certificate privateKey
      else ret (false, certificate, privateKey)
  end.

(** ** Specification *)

(** The certificate and the key that OpenSSL prints, each [None] when it cannot. *)
Definition printed_pair (x : X509) (k : EVP_PKEY) : option string * option string :=
  (until_nul <$> PEM_write_bio_X509 x, until_nul <$> PEM_write_bio_PrivateKey k).

Definition file_bytes (filePath : string) : option string :=
  match open_file filePath with Opened content => Some (default EmptyString content) | _ => None end.

(** What the file holds, by its extension. *)
Definition spec_load (filePath : string) : option (option string * option string) :=
  extension ← strrchr filePath ".";
  if Utils_UnsafeAreStringsEqual extension SUPPORTED_FORMAT_PEM false then
    content ← file_bytes filePath;
    match PEM_read_X509 content with
    | (Some x, rest) => k ← PEM_read_PrivateKey rest; Some (printed_pair x k)
    | _ => None
    end
  else if Utils_UnsafeAreStringsEqual extension SUPPORTED_FORMAT_PKCS12 false then
    content ← file_bytes filePath; p ← d2i_PKCS12_fp content; '(k, x) ← PKCS12_parse p; Some (printed_pair x k)
  else None.

(** ** Lemmas *)

Lemma effect_bio written :
  effect (fun p => owns p) (fun e p => never_fails e -> p = until_nul <$> written) (bio_to_pem written).
Proof.
  unfold bio_to_pem. effect_step. intros []; [|effect_done].
  destruct written as [data|]; effect_step; [intros []; effect_step; intros ?; effect_done | intros ?; effect_done].
Qed.

Lemma effect_open filePath :
  effect (fun p => owns p) (fun _ p => p = file_bytes filePath) (CertificateManager_OpenFileForRead filePath).
Proof.
  unfold CertificateManager_OpenFileForRead, file_bytes, FileUtils_OpenFile.
  destruct (open_file filePath); try effect_done. effect_step. intros ?. effect_done.
Qed.

Lemma effect_free c k :
  effect (fun _ => - owns c - owns k) (fun _ r => r = (false, None, None)) (free_outputs c k).
Proof. unfold free_outputs. do 2 (effect_step; intros ?). effect_done. Qed.

#[local] Hint Resolve effect_bio effect_open effect_free : ledger.

(** What a load returns: both pointers are null unless it succeeds, and when no
    call to the environment fails it returns what the specification says. *)
Definition loaded (spec : option (option string * option string)) (e : Env) (r : bool * option string * option string) : Prop :=
  let '(ok, c, k) := r in
  (ok = false -> c = None /\ k = None) /\
  (never_fails e -> r = match spec with Some (c, k) => (true, c, k) | None => (false, None, None) end).

Definition owns_pair (r : bool * option string * option string) : Z := owns r.1.2 + owns r.2.

(** A failure ends with the release of the outputs. *)
Ltac freed :=
  eapply effect_weaken; [apply effect_free | intros e r ->; cbn; lia | intros e r ->; cbn];
  intros; split; [done|]; intros _; simplify_option_eq; try done; repeat case_match; by simplify_option_eq.

Lemma effect_pem filePath :
  effect owns_pair
    (loaded (content ← file_bytes filePath;
       match PEM_read_X509 content with
       | (Some x, rest) => k ← PEM_read_PrivateKey rest; Some (printed_pair x k)
       | _ => None
       end)) (CertificateManager_LoadFromFileUsingPemFormat filePath None None).
Proof.
  unfold CertificateManager_LoadFromFileUsingPemFormat, owns_pair, loaded. effect_step. intros [content|].
  - destruct (PEM_read_X509 content) as [[x|] rest] eqn:Hx.
    + effect_step. intros ?. unfold CertificateManager_X509CertificateToPemFormat. effect_step. intros c.
      destruct (PEM_read_PrivateKey rest) as [k|] eqn:Hk.
      * effect_step. intros ?. unfold CertificateManager_PrivateKeyToPemFormat. effect_step. intros k'.
        do 3 (effect_step; intros ?). apply effect_ret; [cbn; lia|]. intros e _ _ _ H1 _ H2 _ <-. cbn. rewrite Hx. cbn.
        rewrite Hk. cbn. split; [done|]. intros Hr. by rewrite H1, H2.
      * do 2 (effect_step; intros ?). freed.
    + effect_step. intros ?. freed.
  - freed.
Qed.

Lemma effect_pkcs12 filePath :
  effect owns_pair
    (loaded (content ← file_bytes filePath; p ← d2i_PKCS12_fp content; '(k, x) ← PKCS12_parse p; Some (printed_pair x k)))
    (CertificateManager_LoadFromFileUsingPkcs12Format filePath None None).
Proof.
  unfold CertificateManager_LoadFromFileUsingPkcs12Format, owns_pair, loaded. effect_step. intros [content|].
  - destruct (d2i_PKCS12_fp content) as [p|] eqn:Hp.
    + effect_step. intros ?. destruct (PKCS12_parse p) as [[k x]|] eqn:Hk.
      * do 2 (effect_step; intros ?). unfold CertificateManager_X509CertificateToPemFormat. effect_step. intros c.
        unfold CertificateManager_PrivateKeyToPemFormat. effect_step. intros k'.
        do 4 (effect_step; intros ?). apply effect_ret; [cbn; lia|]. intros e _ _ _ _ H2 H1 _ _ _ <-. cbn. rewrite Hp. cbn.
        rewrite Hk. cbn. split; [done|]. intros Hr. by rewrite H1, H2.
      * do 2 (effect_step; intros ?). freed.
    + effect_step. intros ?. freed.
  - freed.
Qed.

Lemma effect_load filePath :
  effect owns_pair (loaded (spec_load filePath)) (CertificateManager_LoadFromFile filePath None None).
Proof.
  unfold CertificateManager_LoadFromFile, spec_load. destruct (strrchr filePath ".") as [extension|]; cbn; [|by apply effect_ret].
  destruct (Utils_UnsafeAreStringsEqual extension SUPPORTED_FORMAT_PEM false); [apply effect_pem|].
  destruct (Utils_UnsafeAreStringsEqual extension SUPPORTED_FORMAT_PKCS12 false); [apply effect_pkcs12 | by apply effect_ret].
Qed.

(** ** Properties *)

(** Loading a certificate always returns and leaves exactly what it returns:
    every file, BIO, certificate, key and buffer it took is released on every
    path, and both pointers are null when it fails.  When no call fails it
    returns the certificate and the key that the file holds, by its extension. *)
Theorem LoadFromFile_correct filePath s :
  exists ok certificate privateKey s',
    CertificateManager_LoadFromFile filePath None None s = Some ((ok, certificate, privateKey), s') /\
    live_of s' = live_of s + owns certificate + owns privateKey /\
    (ok = false -> certificate = None /\ privateKey = None) /\
    (reliable (world_of s) ->
     (ok, certificate, privateKey) = match spec_load filePath with Some (c, k) => (true, c, k) | None => (false, None, None) end).
Proof.
  destruct (effect_load filePath s) as ([[ok c] k] & s' & H1 & H2 & _ & H3 & H4). exists ok, c, k, s'.
  split; [done|]. split; [unfold owns_pair in H2; cbn in H2; lia|]. split; [exact H3 | exact H4].
Qed.

End Certificates.
