(* ===== verification/TimeUtils.v ===== *)
(** * [internal/time_utils.c]: clock, time rendering and ISO 8601 durations

    Parsing and printing of durations ("P1M2W3DT4H5M6S"), with the
    [uint32_t] arithmetic of the code and its overflow guards. *)

From S2P Require Import Prelude CString TwinDefs World Utils.
From Stdlib Require Import Ascii String.
Open Scope Z_scope.

(** ** Clock and rendering *)

Definition TimeUtils_GetCurrentTime : M World Z := time_NULL.

(** [(int32_t)(difftime(end, beginning) * 1000)]: undefined when the product is
    out of range of [int32_t]. *)
Definition TimeUtils_GetTimeDiff (end_ beginning : Z) : M World Z :=
  let d := (end_ - beginning) * 1000 in
  if (INT32_MIN <=? d) && (d <=? INT32_MAX) then ret d else undefined.

(** [strftime(output, size, DATETIME_FORMAT, ..)] of a rendered time: the text
    and its length; the contents of [output] are undefined when it does not fit. *)
Definition strftime (text : string) (size : Z) : M World (string * Z) :=
  if strlen text <? size then ret (text, strlen text) else undefined.

(** Returns [None] for [false], or the text in [output]. *)
Definition TimeUtils_GetTimeAsString (currentTime outputSize : Z) : M World (option string) :=
  e <- gets env ;;
  match env_localtime e currentTime with
  | None => ret None
  | Some text => let* (s, _) := strftime text outputSize in ret (Some s)
  end.

Definition TimeUtils_GetLocalTimeAsUTCTimeAsString (currentLocalTime outputSize : Z) : M World (option string) :=
  e <- gets env ;;
  match env_gmtime e currentLocalTime with
  | None => ret None
  | Some text => let* (s, _) := strftime text outputSize in ret (Some s)
  end.

(** ** Parsing *)

(** The local variables of the parsers: the text still to read, [temp],
    [specifier] and [result]. *)
Record cursor : Type := mkCursor {
  c_text : string;
  c_temp : Z;
  c_specifier : ascii;
  c_result : Z;
}.

(** [inl (b, out)]: the parser returned [b] and [*resultOut] is [out];
    [inr c]: it went on to the next block. *)
Definition outcome : Type := ((bool * option Z) + cursor)%type.

Definition next_block (o : outcome) (k : cursor -> outcome) : outcome :=
  match o with inl r => inl r | inr c => k c end.

(** [if (sscanf(text, "%u%c", &temp, &specifier) != 2) return false;] *)
Definition scan_component (text : string) (result : Z) (out : option Z) : outcome :=
  match sscanf_u_c text with
  | Some (temp, specifier) => inr (mkCursor text temp specifier result)
  | None => inl (false, out)
  end.

(** [text[0] == 'T' || text[0] == '\0'] *)
Definition at_date_end (text : string) : bool :=
  Ascii.eqb (first_char text) "T" || Ascii.eqb (first_char text) Ascii.zero.

(** [text[0] == '\0'] *)
Definition at_time_end (text : string) : bool := Ascii.eqb (first_char text) Ascii.zero.

Definition date_years (out : option Z) (c : cursor) : outcome :=
  if Ascii.eqb (c_specifier c) "Y" then
    let dateString := after "Y" (c_text c) in
    if MAX_YEARS_IN_UINT32 <? c_temp c then inl (false, out)
    else if at_date_end dateString then inl (true, out)
    else scan_component dateString (c_result c) out
  else inr c.

Definition date_months (out : option Z) (c : cursor) : outcome :=
  if Ascii.eqb (c_specifier c) "M" then
    let dateString := after "M" (c_text c) in
    if MAX_MONTHS_IN_UINT32 <? c_temp c then inl (false, out)
    else
      let result := u32 (c_temp c * MILLISECONDS_IN_A_MONTH) in
      if at_date_end dateString then inl (true, Some result)
      else scan_component dateString result out
  else inr c.

Definition date_weeks (out : option Z) (c : cursor) : outcome :=
  if Ascii.eqb (c_specifier c) "W" then
    let dateString := after "W" (c_text c) in
    if MAX_WEEKS_IN_UINT32 <? c_temp c then inl (false, out)
    else match Utils_AddUnsignedIntsWithOverflowCheck (c_result c) (u32 (c_temp c * MILLISECONDS_IN_A_WEEK)) with
         | None => inl (false, out)
         | Some result =>
             if at_date_end dateString then inl (true, Some result)
             else scan_component dateString result out
         end
  else inr c.

Definition date_days (out : option Z) (c : cursor) : outcome :=
  if Ascii.eqb (c_specifier c) "D" then
    let dateString := after "D" (c_text c) in
    if MAX_DAYS_IN_UINT32 <? c_temp c then inl (false, out)
    else match Utils_AddUnsignedIntsWithOverflowCheck (c_result c) (u32 (c_temp c * MILLISECONDS_IN_A_DAY)) with
         | None => inl (false, out)
         | Some result =>
             if at_date_end dateString then inl (true, Some result)
             else inr (mkCursor dateString (c_temp c) (c_specifier c) result)
         end
  else inr c.

(** [dateString] is [None] for the null pointer; [resultOut] is [None] for the
    null pointer and [Some v] for a pointer to a variable holding [v].  The
    result pairs the return value with the final [resultOut]. *)
Definition TimeUtils_ParseDateString (dateString : option string) (resultOut : option Z) : bool * option Z :=
  match dateString, resultOut with
  | Some text, Some _ =>
      match next_block (next_block (next_block (next_block
              (scan_component text 0 resultOut)
              (date_years resultOut)) (date_months resultOut))
              (date_weeks resultOut)) (date_days resultOut)
      with inl r => r | inr _ => (false, resultOut) end
  | _, _ => (false, resultOut)
  end.

Definition time_hours (out : option Z) (c : cursor) : outcome :=
  if Ascii.eqb (c_specifier c) "H" then
    let timeString := after "H" (c_text c) in
    if MAX_HOURS_IN_UINT32 <? c_temp c then inl (false, out)
    else match Utils_AddUnsignedIntsWithOverflowCheck (c_result c) (u32 (c_temp c * MILLISECONDS_IN_AN_HOUR)) with
         | None => inl (false, out)
         | Some result =>
             if at_time_end timeString then inl (true, Some result)
             else scan_component timeString result out
         end
  else inr c.

Definition time_minutes (out : option Z) (c : cursor) : outcome :=
  if Ascii.eqb (c_specifier c) "M" then
    let timeString := after "M" (c_text c) in
    if MAX_MINUTES_IN_UINT32 <? c_temp c then inl (false, out)
    else match Utils_AddUnsignedIntsWithOverflowCheck (c_result c) (u32 (c_temp c * MILLISECONDS_IN_A_MINUTE)) with
         | None => inl (false, out)
         | Some result =>
             if at_time_end timeString then inl (true, Some result)
             else scan_component timeString result out
         end
  else inr c.

Definition time_seconds (out : option Z) (c : cursor) : outcome :=
  if Ascii.eqb (c_specifier c) "S" then
    let timeString := after "S" (c_text c) in
    if MAX_SECONDS_IN_UINT32 <? c_temp c then inl (false, out)
    else match Utils_AddUnsignedIntsWithOverflowCheck (c_result c) (u32 (c_temp c * MILLISECONDS_IN_A_SECOND)) with
         | None => inl (false, out)
         | Some result =>
             if at_time_end timeString then inl (true, Some result)
             else inr (mkCursor timeString (c_temp c) (c_specifier c) result)
         end
  else inr c.

Definition TimeUtils_ParseTimeString (timeString : option string) (resultOut : option Z) : bool * option Z :=
  match timeString, resultOut with
  | Some text, Some _ =>
      match next_block (next_block (next_block
              (scan_component text 0 resultOut)
              (time_hours resultOut)) (time_minutes resultOut)) (time_seconds resultOut)
      with inl r => r | inr _ => (false, resultOut) end
  | _, _ => (false, resultOut)
  end.

(** [None] is the return value [false]; [Some ms] is [true] with [*milisecOut = ms].
    The pointers [dateString] and [timeString] are offsets into [duration]. *)
Definition TimeUtils_ISO8601DurationStringToMilliseconds (duration : option string) : option Z :=
  match duration with
  | None => None
  | Some d =>
      if negb (Ascii.eqb (first_char d) "P") then None
      else
        let dateString := 1%nat in
        let timeString := S <$> strchr_offset d "T" in
        let date :=
          if decide (timeString = Some (dateString + 1)%nat) then (true, Some 0)
          else TimeUtils_ParseDateString (Some (advance dateString d)) (Some 0) in
        if negb (fst date) then None
        else
          let time :=
            match timeString with
            | None => (true, Some 0)
            | Some t => TimeUtils_ParseTimeString (Some (advance t d)) (Some 0)
            end in
          if negb (fst time) then None
          else
            match Utils_AddUnsignedIntsWithOverflowCheck (default 0 (snd date)) (default 0 (snd time)) with
            | None => None
            | Some result => if result =? 0 then None else Some result
            end
  end.

(** ** Printing *)

(** [if (n > 0) { if (!Utils_ConcatenateToString(&duration, &len, "%u<c>", n)) return false; }] *)
Definition print_component (n : Z) (c : ascii) (b : Buffer) : bool * Buffer :=
  if 0 <? n then Utils_ConcatenateToString b (udec n ++ String c EmptyString)%string else (true, b).

(** [duration += sprintf(duration, "T")]: the position advances, [len] does not. *)
Definition print_T (b : Buffer) : Buffer := mkBuffer (written b ++ "T")%string (bufferSize b).

Definition and_then (r : bool * Buffer) (k : Buffer -> bool * Buffer) : bool * Buffer :=
  if fst r then k (snd r) else r.

(** Returns the C result and the buffer; on [true] it holds the duration. *)
Definition TimeUtils_MillisecondsToISO8601DurationString (milisec len : Z) : bool * Buffer :=
  let b0 := mkBuffer EmptyString len in
  if milisec <? MILLISECONDS_IN_A_SECOND then (false, b0)
  else if len <? DURATION_MAX_LENGTH then (false, b0)
  else
    and_then (Utils_ConcatenateToString b0 "P") (fun b =>
    let months := milisec / MILLISECONDS_IN_A_MONTH in
    let milisec := milisec mod MILLISECONDS_IN_A_MONTH in
    and_then (print_component months "M" b) (fun b =>
    let weeks := milisec / MILLISECONDS_IN_A_WEEK in
    let milisec := milisec mod MILLISECONDS_IN_A_WEEK in
    and_then (print_component weeks "W" b) (fun b =>
    let days := milisec / MILLISECONDS_IN_A_DAY in
    let milisec := milisec mod MILLISECONDS_IN_A_DAY in
    and_then (print_component days "D" b) (fun b =>
    let hours := milisec / MILLISECONDS_IN_AN_HOUR in
    let milisec := milisec mod MILLISECONDS_IN_AN_HOUR in
    let minutes := milisec / MILLISECONDS_IN_A_MINUTE in
    let milisec := milisec mod MILLISECONDS_IN_A_MINUTE in
    let seconds := milisec / MILLISECONDS_IN_A_SECOND in
    if (0 <? hours) || (0 <? minutes) || (0 <? seconds) then
      and_then (print_component hours "H" (print_T b)) (fun b =>
      and_then (print_component minutes "M" b) (fun b =>
      print_component seconds "S" b))
    else (true, b))))).

(** ** Durations in canonical form

    [duration_text] is the text of a duration from its optional components;
    [None] is an absent component. *)

Definition component_then (o : option Z) (c : ascii) (rest : string) : string :=
  match o with Some n => udec_then n (String c rest) | None => rest end.

Definition date_text (ye mo we da : option Z) (tail : string) : string :=
  component_then ye "Y" (component_then mo "M" (component_then we "W" (component_then da "D" tail))).

Definition time_text (ho mi se : option Z) : string :=
  component_then ho "H" (component_then mi "M" (component_then se "S" EmptyString)).

Definition present (o : option Z) : bool := match o with Some _ => true | None => false end.

Definition time_present (ho mi se : option Z) : bool := present ho || present mi || present se.

Definition time_part (ho mi se : option Z) : string :=
  if time_present ho mi se then String "T" (time_text ho mi se) else EmptyString.

Definition duration_text (ye mo we da ho mi se : option Z) : string :=
  String "P" (date_text ye mo we da (time_part ho mi se)).

(** The components in milliseconds; years do not count. *)
Definition date_value (mo we da : option Z) : Z :=
  default 0 mo * MILLISECONDS_IN_A_MONTH + default 0 we * MILLISECONDS_IN_A_WEEK
  + default 0 da * MILLISECONDS_IN_A_DAY.

Definition time_value (ho mi se : option Z) : Z :=
  default 0 ho * MILLISECONDS_IN_AN_HOUR + default 0 mi * MILLISECONDS_IN_A_MINUTE
  + default 0 se * MILLISECONDS_IN_A_SECOND.

Definition component_ok (o : option Z) : Prop := forall n, o = Some n -> is_u32 n.

Definition year_ok (ye : option Z) : bool :=
  match ye with Some n => n <=? MAX_YEARS_IN_UINT32 | None => true end.

(** What a part of a duration parses to: its value when it is well formed and fits. *)
Definition part (ok : bool) (v : Z) : bool * option Z :=
  if ok && (v <=? UINT32_MAX) then (true, Some v) else (false, Some 0).

(** The last steps of the parser: add the two parts and reject zero. *)
Definition combine_parts (date time : bool * option Z) : option Z :=
  if negb (fst date) then None
  else if negb (fst time) then None
  else match Utils_AddUnsignedIntsWithOverflowCheck (default 0 (snd date)) (default 0 (snd time)) with
       | None => None
       | Some result => if result =? 0 then None else Some result
       end.

(** A component is printed when it is positive. *)
Definition shown (n : Z) : option Z := if 0 <? n then Some n else None.

(** The text after printing the component [n] with specifier [c]. *)
Definition printed (n : Z) (c : ascii) (b : Buffer) : string :=
  (written b ++ component_then (shown n) c EmptyString)%string.

(** ** Lemmas *)

Lemma u32_guard temp max unit :
  0 < unit -> max = UINT32_MAX / unit -> 0 <= temp ->
  (max <? temp) = (UINT32_MAX <? temp * unit).
Proof.
  intros Hu -> Ht. pose proof (Z.mul_div_le UINT32_MAX unit Hu).
  pose proof (Z.mul_succ_div_gt UINT32_MAX unit Hu).
  destruct (Z.ltb_spec (UINT32_MAX / unit) temp), (Z.ltb_spec UINT32_MAX (temp * unit)); try done; nia.
Qed.

(** The guarded addition of a component, as every block performs it. *)
Lemma add_component {A} (result temp max unit : Z) (fail : A) (k : Z -> A) :
  is_u32 result -> 0 < unit -> max = UINT32_MAX / unit -> 0 <= temp ->
  (if max <? temp then fail
   else match Utils_AddUnsignedIntsWithOverflowCheck result (u32 (temp * unit)) with
        | None => fail
        | Some r => k r
        end)
  = if result + temp * unit <=? UINT32_MAX then k (result + temp * unit) else fail.
Proof.
  intros Hr Hu Hm Ht. rewrite (u32_guard temp max unit) by done.
  destruct (Z.ltb_spec UINT32_MAX (temp * unit)).
  - destruct (Z.leb_spec (result + temp * unit) UINT32_MAX); [ulia | done].
  - rewrite u32_small by (unfold is_u32; nia).
    rewrite AddUnsigned_spec by (done || (unfold is_u32; nia)).
    by destruct (result + temp * unit <=? UINT32_MAX).
Qed.

Lemma strchr_offset_advance s c r :
  strchr s c = Some r -> exists k, strchr_offset s c = Some k /\ advance k s = r.
Proof.
  revert r. induction s as [|d s IH]; intros r; cbn; [done|].
  destruct (Ascii.eqb d c) eqn:E.
  - intros [= <-]. by exists 0%nat.
  - intros (k & -> & Hk)%IH. by exists (S k).
Qed.

Lemma strchr_offset_none s c : strchr s c = None -> strchr_offset s c = None.
Proof.
  induction s as [|d s IH]; cbn; [done|]. destruct (Ascii.eqb d c); [done|].
  by intros ->%IH.
Qed.

(** A text that the date parser treats as the end of the date. *)
Definition date_end (tail : string) : Prop :=
  tail = EmptyString \/ exists s, tail = String "T" s.

Lemma at_date_end_tail tail : date_end tail -> at_date_end tail = true.
Proof. by intros [-> | [s ->]]. Qed.

Lemma scan_date_end tail r out : date_end tail -> scan_component tail r out = inl (false, out).
Proof. by intros [-> | [s ->]]. Qed.

(** A printed component is not the end of the text. *)
Lemma udec_then_first n rest : 0 <= n -> exists d s, 0 <= d <= 9 /\ udec_then n rest = String (digit_char d) s.
Proof. intros. by apply (udec_aux_first 19). Qed.

Lemma at_date_end_udec n rest : 0 <= n -> at_date_end (udec_then n rest) = false.
Proof.
  intros Hn. destruct (udec_then_first n rest Hn) as (d & s & Hd & ->).
  unfold at_date_end, first_char. by rewrite !nondigit_ne_digit_char by (done || reflexivity).
Qed.

Lemma at_time_end_udec n rest : 0 <= n -> at_time_end (udec_then n rest) = false.
Proof.
  intros Hn. destruct (udec_then_first n rest Hn) as (d & s & Hd & ->).
  unfold at_time_end, first_char. by rewrite nondigit_ne_digit_char by (done || reflexivity).
Qed.

Lemma scan_component_udec n c rest r out :
  is_u32 n -> nondigit c ->
  scan_component (udec_then n (String c rest)) r out
  = inr (mkCursor (udec_then n (String c rest)) n c r).
Proof. intros. unfold scan_component. by rewrite sscanf_u_c_udec. Qed.

(** The block of the months stores the product without an addition. *)
Lemma date_months_M out text temp r :
  0 <= temp ->
  date_months out (mkCursor text temp "M" r)
  = if temp * MILLISECONDS_IN_A_MONTH <=? UINT32_MAX then
      if at_date_end (after "M" text) then inl (true, Some (temp * MILLISECONDS_IN_A_MONTH))
      else scan_component (after "M" text) (temp * MILLISECONDS_IN_A_MONTH) out
    else inl (false, out).
Proof.
  intros Ht. unfold date_months. cbn [c_specifier c_temp c_text Ascii.eqb Bool.eqb].
  rewrite (u32_guard temp _ MILLISECONDS_IN_A_MONTH) by done.
  destruct (Z.ltb_spec UINT32_MAX (temp * MILLISECONDS_IN_A_MONTH)),
    (Z.leb_spec (temp * MILLISECONDS_IN_A_MONTH) UINT32_MAX); try lia; [done|].
  rewrite u32_small; [done | unfold is_u32, MILLISECONDS_IN_A_MONTH in *; lia].
Qed.

Lemma date_months_skip out text temp c r :
  Ascii.eqb c "M" = false ->
  date_months out (mkCursor text temp c r) = inr (mkCursor text temp c r).
Proof. unfold date_months. cbn [c_specifier]. by intros ->. Qed.

#[local] Opaque udec_then.

(** [lia] on values in milliseconds. *)
Ltac tlia :=
  unfold date_value, time_value, is_u32, id, MILLISECONDS_IN_A_SECOND, MILLISECONDS_IN_A_MINUTE, MILLISECONDS_IN_AN_HOUR,
    MILLISECONDS_IN_A_DAY, MILLISECONDS_IN_A_WEEK, MILLISECONDS_IN_A_MONTH in *; ulia.

(** One step of the simplification of a parser on a canonical text. *)
Ltac scan_step :=
  first
  [ rewrite scan_component_udec by (done || reflexivity)
  | rewrite after_udec by (reflexivity || ulia)
  | rewrite at_date_end_udec by ulia
  | rewrite at_time_end_udec by ulia
  | rewrite at_date_end_tail by done
  | rewrite scan_date_end by done
  | progress cbn [next_block c_specifier c_text c_temp c_result negb andb Ascii.eqb Bool.eqb fst snd default]
  | rewrite add_component by (reflexivity || tlia)
  | rewrite date_months_M by tlia
  | rewrite date_months_skip by reflexivity ].

Ltac scan_text :=
  repeat (scan_step ||
          match goal with
          | |- context [?a <=? ?b] => destruct (Z.leb_spec a b)
          | |- context [?a <? ?b] => destruct (Z.ltb_spec a b)
          end).

Ltac component_cases o :=
  let H := fresh "Hc" in
  match goal with C : component_ok o |- _ => rename C into H end;
  destruct o as [o|]; [specialize (H o eq_refl) | clear H].

Lemma ParseDate_canonical ye mo we da tail :
  component_ok ye -> component_ok mo -> component_ok we -> component_ok da -> date_end tail ->
  TimeUtils_ParseDateString (Some (date_text ye mo we da tail)) (Some 0)
  = part ((present ye || present mo || present we || present da) && year_ok ye) (date_value mo we da).
Proof.
  intros Hye Hmo Hwe Hda Htail. unfold TimeUtils_ParseDateString, part, date_value, date_text, year_ok.
  component_cases ye; component_cases mo; component_cases we; component_cases da;
    cbn [component_then present orb andb default];
    unfold date_years, date_weeks, date_days; scan_text;
    done || (do 2 f_equal; tlia) || (exfalso; tlia).
Qed.

Lemma ParseTime_canonical ho mi se :
  component_ok ho -> component_ok mi -> component_ok se ->
  TimeUtils_ParseTimeString (Some (time_text ho mi se)) (Some 0)
  = part (time_present ho mi se) (time_value ho mi se).
Proof.
  intros Hho Hmi Hse. unfold TimeUtils_ParseTimeString, part, time_value, time_text, time_present.
  component_cases ho; component_cases mi; component_cases se;
    cbn [component_then present orb andb default];
    unfold time_hours, time_minutes, time_seconds; scan_text;
    done || (do 2 f_equal; tlia) || (exfalso; tlia).
Qed.

(** Locating the time part. *)
Lemma strchr_udec_skip n c rest x :
  0 <= n -> nondigit x -> Ascii.eqb c x = false ->
  strchr (udec_then n (String c rest)) x = strchr rest x.
Proof.
  intros Hn Hx Hc. replace (strchr rest x) with (strchr (String c rest) x) by (cbn; by rewrite Hc).
  #[local] Transparent udec_then. unfold udec_then. #[local] Opaque udec_then.
  generalize 20%nat. intros fuel. generalize (String c rest).
  revert n Hn. induction fuel as [|fuel IH]; intros n Hn s; [done|].
  rewrite udec_aux_cons. pose proof (Z.mod_pos_bound n 10 ltac:(lia)).
  assert (Hd : strchr (String (digit_char (n mod 10)) s) x = strchr s x).
  { cbn. by rewrite nondigit_ne_digit_char by (done || lia). }
  destruct (n <? 10); [done|]. rewrite IH by (apply Z.div_pos; lia). done.
Qed.

Lemma strchr_T_date ye mo we da tail :
  component_ok ye -> component_ok mo -> component_ok we -> component_ok da ->
  strchr (date_text ye mo we da tail) "T" = strchr tail "T".
Proof.
  intros. unfold date_text.
  component_cases ye; component_cases mo; component_cases we; component_cases da;
    cbn [component_then]; rewrite ?strchr_udec_skip by (reflexivity || ulia); done.
Qed.

Lemma date_text_first ye mo we da tail :
  component_ok ye -> component_ok mo -> component_ok we -> component_ok da ->
  present ye || present mo || present we || present da = true ->
  exists c s, date_text ye mo we da tail = String c s /\ c <> "T"%char.
Proof.
  assert (Haux : forall n rest, is_u32 n -> exists c s, udec_then n rest = String c s /\ c <> "T"%char).
  { intros n rest Hn. destruct (udec_then_first n rest) as (d & s & Hd & ->); [ulia|].
    do 2 eexists; split; [reflexivity|]. apply Ascii.eqb_neq. by apply nondigit_ne_digit_char. }
  intros. unfold date_text.
  component_cases ye; component_cases mo; component_cases we; component_cases da;
    cbn [component_then]; done || by apply Haux.
Qed.

Lemma advance_S_cons k s c r : advance k s = String c r -> advance (S k) s = r.
Proof.
  revert s. induction k as [|k IH]; intros [|d s] H; cbn in *; try discriminate.
  - by injection H as _ ->.
  - by apply IH.
Qed.


(** The time part and the date part of a canonical duration, as offsets. *)
Lemma duration_offset ye mo we da ho mi se :
  component_ok ye -> component_ok mo -> component_ok we -> component_ok da ->
  time_present ho mi se = true ->
  exists k, strchr_offset (duration_text ye mo we da ho mi se) "T" = Some (S k) /\
    advance (S (S k)) (duration_text ye mo we da ho mi se) = time_text ho mi se /\
    (k = 0%nat <-> present ye || present mo || present we || present da = false).
Proof.
  intros Hye Hmo Hwe Hda Ht. unfold duration_text, time_part. rewrite Ht.
  set (tail := String "T" (time_text ho mi se)).
  destruct (strchr_offset_advance (date_text ye mo we da tail) "T" tail) as (k & Hk & Ha).
  { by rewrite strchr_T_date. }
  exists k. split; [|split].
  - cbn [strchr_offset Ascii.eqb Bool.eqb]. by rewrite Hk.
  - change (advance (S k) (date_text ye mo we da tail) = time_text ho mi se).
    by eapply advance_S_cons.
  - split.
    + intros ->. cbn [advance] in Ha.
      destruct (present ye || present mo || present we || present da) eqn:E; [|done].
      destruct (date_text_first ye mo we da tail) as (c & s & Hs & Hc); try done.
      rewrite Hs in Ha. injection Ha as -> _. done.
    + intros E. unfold date_text in Hk.
      destruct ye, mo, we, da; try discriminate. cbn in Hk. congruence.
Qed.

Lemma duration_no_T ye mo we da ho mi se :
  component_ok ye -> component_ok mo -> component_ok we -> component_ok da ->
  time_present ho mi se = false ->
  strchr_offset (duration_text ye mo we da ho mi se) "T" = None.
Proof.
  intros Hye Hmo Hwe Hda Ht. unfold duration_text, time_part. rewrite Ht.
  apply strchr_offset_none. cbn [strchr Ascii.eqb Bool.eqb]. by rewrite strchr_T_date.
Qed.

Lemma time_value_absent ho mi se : time_present ho mi se = false -> time_value ho mi se = 0.
Proof. unfold time_present. by destruct ho, mi, se. Qed.

Lemma value_nonneg o unit : component_ok o -> 0 <= unit -> 0 <= default 0 o * unit.
Proof.
  intros Ho Hu. destruct o as [n|]; [|done]. specialize (Ho n eq_refl).
  cbn. apply Z.mul_nonneg_nonneg; ulia.
Qed.

Lemma date_value_nonneg mo we da :
  component_ok mo -> component_ok we -> component_ok da -> 0 <= date_value mo we da.
Proof. intros. unfold date_value. repeat apply Z.add_nonneg_nonneg; by apply value_nonneg. Qed.

Lemma time_value_nonneg ho mi se :
  component_ok ho -> component_ok mi -> component_ok se -> 0 <= time_value ho mi se.
Proof. intros. unfold time_value. repeat apply Z.add_nonneg_nonneg; by apply value_nonneg. Qed.

Lemma combine_parts_spec (okd okt : bool) (dv tv : Z) :
  0 <= dv -> 0 <= tv ->
  combine_parts (part okd dv) (part okt tv)
  = if okd && okt && (0 <? dv + tv) && (dv + tv <=? UINT32_MAX) then Some (dv + tv) else None.
Proof.
  intros Hd Ht. unfold combine_parts, part. destruct okd, okt; cbn [andb]; try done.
  2: destruct (dv <=? UINT32_MAX); done.
  destruct (Z.leb_spec dv UINT32_MAX), (Z.leb_spec tv UINT32_MAX); cbn [fst snd negb andb default].
  2-4: destruct (Z.leb_spec (dv + tv) UINT32_MAX); [lia | by rewrite andb_false_r].
  unfold id. rewrite AddUnsigned_spec by done.
  destruct (Z.leb_spec (dv + tv) UINT32_MAX), (Z.ltb_spec 0 (dv + tv)), (Z.eqb_spec (dv + tv) 0); done || lia.
Qed.

Lemma parse_canonical ye mo we da ho mi se :
  component_ok ye -> component_ok mo -> component_ok we -> component_ok da ->
  component_ok ho -> component_ok mi -> component_ok se ->
  TimeUtils_ISO8601DurationStringToMilliseconds (Some (duration_text ye mo we da ho mi se))
  = let total := date_value mo we da + time_value ho mi se in
    if year_ok ye && (0 <? total) && (total <=? UINT32_MAX) then Some total else None.
Proof.
  intros Hye Hmo Hwe Hda Hho Hmi Hse. cbv zeta.
  pose proof (date_value_nonneg mo we da Hmo Hwe Hda) as Hdv.
  pose proof (time_value_nonneg ho mi se Hho Hmi Hse) as Htv.
  assert (Hend : date_end (time_part ho mi se)).
  { unfold date_end, time_part. destruct (time_present ho mi se); eauto. }
  pose proof (ParseDate_canonical ye mo we da _ Hye Hmo Hwe Hda Hend) as Hdate.
  assert (Habs : present ye || present mo || present we || present da = false ->
                 date_value mo we da = 0 /\ year_ok ye = true).
  { by destruct ye, mo, we, da. }
  change (TimeUtils_ISO8601DurationStringToMilliseconds (Some (duration_text ye mo we da ho mi se)))
    with (let timeString := S <$> strchr_offset (duration_text ye mo we da ho mi se) "T" in
          combine_parts
            (if decide (timeString = Some 2%nat) then (true, Some 0)
             else TimeUtils_ParseDateString (Some (date_text ye mo we da (time_part ho mi se))) (Some 0))
            (match timeString with
             | None => (true, Some 0)
             | Some t => TimeUtils_ParseTimeString (Some (advance t (duration_text ye mo we da ho mi se))) (Some 0)
             end)).
  cbv zeta. rewrite Hdate. destruct (time_present ho mi se) eqn:Ht.
  - destruct (duration_offset ye mo we da ho mi se) as (k & -> & Hadv & Hk); try done.
    cbn [fmap option_fmap option_map]. rewrite Hadv, ParseTime_canonical, Ht by done.
    destruct (present ye || present mo || present we || present da) eqn:Hp.
    + rewrite decide_False by (intros [= ->]; destruct Hk as [Hk _]; by discriminate Hk).
      rewrite combine_parts_spec by done. by rewrite andb_true_r.
    + rewrite decide_True by (f_equal; destruct Hk as [_ Hk]; by rewrite Hk).
      destruct Habs as [-> ->]; [done|]. change (true, Some 0) with (part true 0).
      by rewrite combine_parts_spec.
  - rewrite duration_no_T by done. cbn [fmap option_fmap option_map].
    rewrite decide_False, (time_value_absent _ _ _ Ht) by done.
    change (true, Some 0) with (part true 0). rewrite combine_parts_spec by done.
    destruct (present ye || present mo || present we || present da); cbn [andb].
    + by rewrite andb_true_r.
    + destruct Habs as [-> ->]; done.
Qed.


(** ** The printer *)

Lemma component_append o c rest :
  (component_then o c EmptyString ++ rest)%string = component_then o c rest.
Proof.
  destruct o as [n|]; [|done]. cbn [component_then].
  #[local] Transparent udec_then. apply (udec_aux_app 20). 
Qed.
#[local] Opaque udec_then.

Lemma concatenate_ok b text :
  strlen text < bufferSize b <= UINT32_MAX ->
  Utils_ConcatenateToString b text = (true, mkBuffer (written b ++ text) (bufferSize b - strlen text)).
Proof.
  intros H. pose proof (strlen_nonneg text). unfold Utils_ConcatenateToString.
  replace (strlen text <? 0) with false by lia.
  replace (bufferSize b <=? strlen text) with false by lia.
  cbn [orb]. by rewrite u32_small by ulia.
Qed.

(** Printing a number of at most [k] digits and its specifier. *)
Lemma print_component_ok n c b (k : nat) :
  0 <= n < 10 ^ Z.of_nat k -> (0 < k <= 20)%nat -> Z.of_nat k + 1 < bufferSize b <= UINT32_MAX ->
  exists len, bufferSize b - (Z.of_nat k + 1) <= len <= bufferSize b /\
    print_component n c b
    = (true, mkBuffer (written b ++ component_then (shown n) c EmptyString)%string len).
Proof.
  intros Hn Hk Hb. unfold print_component, shown. destruct (Z.ltb_spec 0 n) as [Hpos|Hpos].
  - assert (Hlen : strlen (udec n ++ String c EmptyString)%string <= Z.of_nat k + 1).
    { rewrite strlen_app, strlen_cons. pose proof (udec_length n k Hn Hk). change (strlen "") with 0. lia. }
    rewrite concatenate_ok by lia. rewrite udec_append.
    pose proof (strlen_nonneg (udec n ++ String c EmptyString)%string).
    rewrite udec_append in *. eexists. split; [|reflexivity]. lia.
  - exists (bufferSize b). split; [lia|]. cbn [component_then].
    rewrite sapp_nil_r. by destruct b.
Qed.

(** The six quantities that the printer derives from a [uint32_t]. *)
Lemma duration_parts ms :
  MILLISECONDS_IN_A_SECOND <= ms <= UINT32_MAX ->
  let mo := ms / MILLISECONDS_IN_A_MONTH in
  let r1 := ms mod MILLISECONDS_IN_A_MONTH in
  let we := r1 / MILLISECONDS_IN_A_WEEK in
  let r2 := r1 mod MILLISECONDS_IN_A_WEEK in
  let da := r2 / MILLISECONDS_IN_A_DAY in
  let r3 := r2 mod MILLISECONDS_IN_A_DAY in
  let ho := r3 / MILLISECONDS_IN_AN_HOUR in
  let r4 := r3 mod MILLISECONDS_IN_AN_HOUR in
  let mi := r4 / MILLISECONDS_IN_A_MINUTE in
  let r5 := r4 mod MILLISECONDS_IN_A_MINUTE in
  let se := r5 / MILLISECONDS_IN_A_SECOND in
  0 <= mo <= 1 /\ 0 <= we <= 4 /\ 0 <= da <= 6 /\ 0 <= ho <= 23 /\ 0 <= mi <= 59 /\ 0 <= se <= 59 /\
  mo * MILLISECONDS_IN_A_MONTH + we * MILLISECONDS_IN_A_WEEK + da * MILLISECONDS_IN_A_DAY
  + (ho * MILLISECONDS_IN_AN_HOUR + mi * MILLISECONDS_IN_A_MINUTE + se * MILLISECONDS_IN_A_SECOND)
  = ms - ms mod MILLISECONDS_IN_A_SECOND.
Proof.
  unfold MILLISECONDS_IN_A_SECOND, MILLISECONDS_IN_A_MINUTE, MILLISECONDS_IN_AN_HOUR,
    MILLISECONDS_IN_A_DAY, MILLISECONDS_IN_A_WEEK, MILLISECONDS_IN_A_MONTH, UINT32_MAX.
  intros H. cbv zeta. Z.to_euclidean_division_equations. lia.
Qed.

Lemma then_print_component n c b (k : nat) K :
  0 <= n < 10 ^ Z.of_nat k -> (0 < k <= 20)%nat -> Z.of_nat k + 1 < bufferSize b <= UINT32_MAX ->
  exists len, bufferSize b - (Z.of_nat k + 1) <= len <= bufferSize b /\
    and_then (print_component n c b) K = K (mkBuffer (printed n c b) len).
Proof.
  intros Hn Hk Hb. destruct (print_component_ok n c b k Hn Hk Hb) as (len & Hlen & E).
  exists len. split; [done|]. unfold and_then. by rewrite E.
Qed.

Lemma then_print_1 n c b K :
  0 <= n <= 9 -> 2 < bufferSize b <= UINT32_MAX ->
  exists len, bufferSize b - 2 <= len <= bufferSize b /\
    and_then (print_component n c b) K = K (mkBuffer (printed n c b) len).
Proof.
  intros Hn Hb. apply (then_print_component n c b 1); [change (10 ^ Z.of_nat 1) with 10 | | ]; lia.
Qed.

Lemma then_print_2 n c b K :
  0 <= n <= 99 -> 3 < bufferSize b <= UINT32_MAX ->
  exists len, bufferSize b - 3 <= len <= bufferSize b /\
    and_then (print_component n c b) K = K (mkBuffer (printed n c b) len).
Proof.
  intros Hn Hb. apply (then_print_component n c b 2); [change (10 ^ Z.of_nat 2) with 100 | | ]; lia.
Qed.

Lemma and_then_true r : and_then r (fun b => (true, b)) = r.
Proof. destruct r as [[] b]; done. Qed.

(** The hours, minutes and seconds. *)
Lemma print_time_ok ho mi se b :
  0 <= ho <= 99 -> 0 <= mi <= 99 -> 0 <= se <= 99 -> 10 <= bufferSize b <= UINT32_MAX ->
  exists len,
    (if (0 <? ho) || (0 <? mi) || (0 <? se) then
      and_then (print_component ho "H" (print_T b)) (fun b =>
      and_then (print_component mi "M" b) (fun b => print_component se "S" b))
     else (true, b))
    = (true, mkBuffer (written b ++ time_part (shown ho) (shown mi) (shown se))%string len).
Proof.
  intros Hho Hmi Hse Hb.
  assert (Hp : time_present (shown ho) (shown mi) (shown se) = (0 <? ho) || (0 <? mi) || (0 <? se)).
  { unfold time_present, shown. by destruct (0 <? ho), (0 <? mi), (0 <? se). }
  unfold time_part. rewrite Hp. destruct (_ || _).
  - edestruct (then_print_2 ho "H" (print_T b)) as (l1 & H1 & ->); [done | cbn; lia |]. cbn [bufferSize print_T] in H1.
    edestruct (then_print_2 mi "M" (mkBuffer (printed ho "H" (print_T b)) l1)) as (l2 & H2 & ->); [done | cbn; lia |].
    cbn [bufferSize] in H2. rewrite <- (and_then_true (print_component _ _ _)).
    edestruct (then_print_2 se "S") as (l3 & H3 & ->); [done | cbn; lia |].
    exists l3. unfold printed, time_text. cbn [written print_T].
    rewrite !sapp_assoc, !component_append. done.
  - exists (bufferSize b). rewrite sapp_nil_r. by destruct b.
Qed.

Lemma print_parts mo we da ho mi se :
  0 <= mo <= 9 -> 0 <= we <= 9 -> 0 <= da <= 9 -> 0 <= ho <= 99 -> 0 <= mi <= 99 -> 0 <= se <= 99 ->
  exists len,
    and_then (Utils_ConcatenateToString (mkBuffer EmptyString DURATION_MAX_LENGTH) "P") (fun b =>
    and_then (print_component mo "M" b) (fun b =>
    and_then (print_component we "W" b) (fun b =>
    and_then (print_component da "D" b) (fun b =>
    if (0 <? ho) || (0 <? mi) || (0 <? se) then
      and_then (print_component ho "H" (print_T b)) (fun b =>
      and_then (print_component mi "M" b) (fun b => print_component se "S" b))
    else (true, b)))))
    = (true, mkBuffer (duration_text None (shown mo) (shown we) (shown da) (shown ho) (shown mi) (shown se)) len).
Proof.
  intros Hmo Hwe Hda Hho Hmi Hse.
  change (Utils_ConcatenateToString (mkBuffer EmptyString DURATION_MAX_LENGTH) "P") with (true, mkBuffer "P" 18).
  unfold and_then at 1. cbn [fst snd].
  edestruct (then_print_1 mo "M" (mkBuffer "P" 18)) as (l1 & H1 & ->); [done | cbn; ulia |]. cbn [bufferSize] in H1.
  edestruct (then_print_1 we "W" (mkBuffer (printed mo "M" (mkBuffer "P" 18)) l1)) as (l2 & H2 & ->); [done | cbn; ulia |].
  cbn [bufferSize] in H2.
  edestruct (then_print_1 da "D") as (l3 & H3 & ->); [done | cbn; ulia |]. cbn [bufferSize] in H3.
  edestruct (print_time_ok ho mi se) as (l4 & E); [done .. | | rewrite E]; [cbn; ulia|].
  exists l4. unfold printed, duration_text, date_text. cbn [written component_then].
  rewrite !sapp_assoc, !component_append. done.
Qed.

Lemma shown_ok n : 0 <= n <= UINT32_MAX -> component_ok (shown n).
Proof. intros Hn. unfold shown, component_ok. destruct (0 <? n); intros ? [= <-]; ulia. Qed.

Lemma shown_value n : 0 <= n -> default 0 (shown n) = n.
Proof. intros Hn. unfold shown. destruct (Z.ltb_spec 0 n); cbn; unfold id; lia. Qed.

Lemma print_canonical ms :
  MILLISECONDS_IN_A_SECOND <= ms <= UINT32_MAX ->
  exists mo we da ho mi se len,
    TimeUtils_MillisecondsToISO8601DurationString ms DURATION_MAX_LENGTH
    = (true, mkBuffer (duration_text None (shown mo) (shown we) (shown da) (shown ho) (shown mi) (shown se)) len) /\
    0 <= mo <= 9 /\ 0 <= we <= 9 /\ 0 <= da <= 9 /\ 0 <= ho <= 99 /\ 0 <= mi <= 99 /\ 0 <= se <= 99 /\
    mo * MILLISECONDS_IN_A_MONTH + we * MILLISECONDS_IN_A_WEEK + da * MILLISECONDS_IN_A_DAY
    + (ho * MILLISECONDS_IN_AN_HOUR + mi * MILLISECONDS_IN_A_MINUTE + se * MILLISECONDS_IN_A_SECOND)
    = ms - ms mod MILLISECONDS_IN_A_SECOND.
Proof.
  intros Hms. pose proof (duration_parts ms Hms) as (Hmo & Hwe & Hda & Hho & Hmi & Hse & Hsum).
  unfold TimeUtils_MillisecondsToISO8601DurationString.
  replace (ms <? MILLISECONDS_IN_A_SECOND) with false by lia.
  change (DURATION_MAX_LENGTH <? DURATION_MAX_LENGTH) with false. cbv iota zeta.
  do 6 eexists. edestruct print_parts as (len & E); cycle 6.
  1: exists len; split; [exact E|]; repeat (split; [lia|]); exact Hsum.
  all: lia.
Qed.

Lemma strlen_component o c rest (k : nat) :
  (forall n, o = Some n -> 0 <= n < 10 ^ Z.of_nat k) -> (0 < k <= 20)%nat ->
  strlen (component_then o c rest) <= Z.of_nat k + 1 + strlen rest.
Proof.
  intros Ho Hk. rewrite <- component_append, strlen_app. destruct o as [n|]; cbn [component_then].
  - rewrite <- udec_append, strlen_app, strlen_cons. pose proof (udec_length n k (Ho n eq_refl) Hk).
    change (strlen "") with 0. lia.
  - change (strlen "") with 0. lia.
Qed.

Lemma strlen_shown n c rest (k : nat) :
  0 <= n < 10 ^ Z.of_nat k -> (0 < k <= 20)%nat ->
  strlen (component_then (shown n) c rest) <= Z.of_nat k + 1 + strlen rest.
Proof.
  intros Hn. apply strlen_component. unfold shown. intros m. destruct (0 <? n); intros [= <-]. done.
Qed.

Lemma strlen_shown_1 n c rest :
  0 <= n <= 9 -> strlen (component_then (shown n) c rest) <= 2 + strlen rest.
Proof. intros. apply (strlen_shown n c rest 1); [change (10 ^ Z.of_nat 1) with 10|]; lia. Qed.

Lemma strlen_shown_2 n c rest :
  0 <= n <= 99 -> strlen (component_then (shown n) c rest) <= 3 + strlen rest.
Proof. intros. apply (strlen_shown n c rest 2); [change (10 ^ Z.of_nat 2) with 100|]; lia. Qed.

(** The printed text needs at most 17 characters. *)
Lemma duration_length mo we da ho mi se :
  0 <= mo <= 9 -> 0 <= we <= 9 -> 0 <= da <= 9 -> 0 <= ho <= 99 -> 0 <= mi <= 99 -> 0 <= se <= 99 ->
  strlen (duration_text None (shown mo) (shown we) (shown da) (shown ho) (shown mi) (shown se)) <= 17.
Proof.
  intros. unfold duration_text, date_text. rewrite strlen_cons. cbn [component_then].
  etransitivity; [apply Z.add_le_mono_r; etransitivity; [by apply strlen_shown_1|];
    apply Z.add_le_mono_l; etransitivity; [by apply strlen_shown_1|];
    apply Z.add_le_mono_l; by apply strlen_shown_1 |].
  enough (strlen (time_part (shown ho) (shown mi) (shown se)) <= 10) by lia.
  unfold time_part, time_text. destruct (time_present _ _ _); [|done]. rewrite strlen_cons.
  etransitivity; [apply Z.add_le_mono_r; etransitivity; [by apply strlen_shown_2|];
    apply Z.add_le_mono_l; etransitivity; [by apply strlen_shown_2|];
    apply Z.add_le_mono_l; by apply strlen_shown_2 |].
  done.
Qed.

(** The text of a duration is read back to the second. *)
Lemma print_parse ms :
  MILLISECONDS_IN_A_SECOND <= ms <= UINT32_MAX ->
  exists b,
    TimeUtils_MillisecondsToISO8601DurationString ms DURATION_MAX_LENGTH = (true, b) /\
    TimeUtils_ISO8601DurationStringToMilliseconds (Some (written b))
    = Some (ms - ms mod MILLISECONDS_IN_A_SECOND).
Proof.
  intros Hms. destruct (print_canonical ms Hms) as (mo & we & da & ho & mi & se & len & -> & Hb).
  destruct Hb as (Hmo & Hwe & Hda & Hho & Hmi & Hse & Hsum).
  eexists. split; [reflexivity|]. cbn [written].
  rewrite parse_canonical by (done || (apply shown_ok; ulia)). cbv zeta.
  unfold date_value, time_value. rewrite !shown_value, Hsum by lia.
  pose proof (Z.mod_pos_bound ms MILLISECONDS_IN_A_SECOND ltac:(done)).
  pose proof (Z.mod_le ms MILLISECONDS_IN_A_SECOND).
  unfold MILLISECONDS_IN_A_SECOND in *.
  assert (ms - ms mod 1000 > 0) by (Z.to_euclidean_division_equations; lia).
  cbn [year_ok andb]. replace (0 <? _) with true by lia. by replace (_ <=? UINT32_MAX) with true by lia.
Qed.

(** ** Properties *)

(** C30: Printing a number of milliseconds as an ISO 8601 duration into a buffer
    of [DURATION_MAX_LENGTH] bytes and parsing the text gives the number back,
    rounded down to whole seconds, for every [uint32_t] of at least one second. *)
Theorem duration_roundtrip ms :
  MILLISECONDS_IN_A_SECOND <= ms <= UINT32_MAX ->
  exists b,
    TimeUtils_MillisecondsToISO8601DurationString ms DURATION_MAX_LENGTH = (true, b) /\
    TimeUtils_ISO8601DurationStringToMilliseconds (Some (written b))
    = Some (ms - ms mod MILLISECONDS_IN_A_SECOND).
Proof. apply print_parse. Qed.

Lemma duration_roundtrip_witness :
  1000 <= 90061500 <= UINT32_MAX /\
  exists b,
    TimeUtils_MillisecondsToISO8601DurationString 90061500 DURATION_MAX_LENGTH = (true, b) /\
    TimeUtils_ISO8601DurationStringToMilliseconds (Some (written b)) = Some 90061000.
Proof. split; [ulia | apply (duration_roundtrip 90061500); tlia]. Defined.

(** C31: Parsing a duration with any choice of components, each a [uint32_t],
    returns exactly the sum of its months (30 days), weeks, days, hours, minutes
    and seconds when that sum is positive and fits [uint32_t], and fails
    otherwise: no intermediate product or sum wraps around.  Years are checked
    against their bound and then contribute nothing. *)
Theorem duration_parse_exact ye mo we da ho mi se :
  component_ok ye -> component_ok mo -> component_ok we -> component_ok da ->
  component_ok ho -> component_ok mi -> component_ok se ->
  TimeUtils_ISO8601DurationStringToMilliseconds (Some (duration_text ye mo we da ho mi se))
  = let total := date_value mo we da + time_value ho mi se in
    if year_ok ye && (0 <? total) && (total <=? UINT32_MAX) then Some total else None.
Proof. apply parse_canonical. Qed.

Lemma duration_parse_exact_witness :
  TimeUtils_ISO8601DurationStringToMilliseconds
    (Some (duration_text (Some 2) None None (Some 49) (Some 17) None None)) = Some 4294800000.
Proof.
  etransitivity; [apply (duration_parse_exact (Some 2) None None (Some 49) (Some 17) None None) | reflexivity];
    intros ? [= <-]; ulia.
Defined.

(** C40: The printer never overruns its buffer: for every [uint32_t] it succeeds
    exactly from one second on, and what it has written, with the terminating
    NUL, fits the [DURATION_MAX_LENGTH] bytes, although the "T" is written
    without being counted. *)
Theorem duration_print_in_bounds ms :
  is_u32 ms ->
  let r := TimeUtils_MillisecondsToISO8601DurationString ms DURATION_MAX_LENGTH in
  fst r = (MILLISECONDS_IN_A_SECOND <=? ms) /\ strlen (written (snd r)) + 1 <= DURATION_MAX_LENGTH.
Proof.
  intros Hms. cbv zeta. destruct (Z.leb_spec MILLISECONDS_IN_A_SECOND ms) as [H|H].
  - destruct (print_canonical ms) as (mo & we & da & ho & mi & se & len & -> & Hb); [ulia|].
    split; [done|]. cbn [snd written].
    pose proof (duration_length mo we da ho mi se). unfold DURATION_MAX_LENGTH. lia.
  - unfold TimeUtils_MillisecondsToISO8601DurationString.
    by replace (ms <? MILLISECONDS_IN_A_SECOND) with true by lia.
Qed.

Lemma duration_print_in_bounds_witness :
  let r := TimeUtils_MillisecondsToISO8601DurationString UINT32_MAX DURATION_MAX_LENGTH in
  fst r = true /\ strlen (written (snd r)) + 1 <= 19.
Proof. apply (duration_print_in_bounds UINT32_MAX). ulia. Defined.

(** Components of more than 32 bits wrap before they are checked: 2^32 + 1 days
    are accepted as one day. *)
Example duration_component_wraps :
  TimeUtils_ISO8601DurationStringToMilliseconds (Some "P4294967297D") = Some MILLISECONDS_IN_A_DAY.
Proof. vm_compute. reflexivity. Qed.

(** A duration of one year is rejected. *)
Example duration_one_year_rejected :
  TimeUtils_ISO8601DurationStringToMilliseconds (Some "P1Y") = None.
Proof. vm_compute. reflexivity. Qed.
