(* ===== verification/Parson.v ===== *)
(** * Interface of the JSON library (parson)

    [parson] is not part of the repository's sources: it is a parameter of the
    development.  [Doc] is a JSON document, the tree below a root
    [JSON_Value]; [Ptr] is a [JSON_Value*], [JSON_Object*] or [JSON_Array*]
    into a document.  The functions that change a document return the changed
    one, or [None] where the C function returns [JSONFailure]. *)

From S2P Require Import Prelude CString.
From Stdlib Require Import QArith Ascii String.
Open Scope Z_scope.

Inductive JSON_Value_Type : Type :=
  | JSONError | JSONNull | JSONString | JSONNumber | JSONObject | JSONArray | JSONBoolean.

#[export] Instance JSON_Value_Type_eq_dec : EqDecision JSON_Value_Type.
Proof. solve_decision. Defined.

Class Parson : Type := {
  Doc : Type;
  Ptr : Type;
  json_parse_string : string -> option Doc;
  json_parse_file : string -> option Doc;
  json_root : Doc -> Ptr;
  json_value_get_object : Doc -> Ptr -> option Ptr;
  json_value_get_array : Doc -> Ptr -> option Ptr;
  json_object_get_wrapping_value : Doc -> Ptr -> option Ptr;
  json_value_get_parent : Doc -> Ptr -> option Ptr;
  json_object_dothas_value : Doc -> Ptr -> string -> bool;
  json_object_dothas_value_of_type : Doc -> Ptr -> string -> JSON_Value_Type -> bool;
  json_object_dotget_value : Doc -> Ptr -> string -> option Ptr;
  json_object_dotget_object : Doc -> Ptr -> string -> option Ptr;
  json_object_dotget_array : Doc -> Ptr -> string -> option Ptr;
  json_value_get_type : Doc -> Ptr -> JSON_Value_Type;
  json_value_get_number : Doc -> Ptr -> Q;
  json_value_get_string : Doc -> Ptr -> option string;
  json_value_get_boolean : Doc -> Ptr -> Z;
  json_array_get_count : Doc -> Ptr -> Z;
  json_array_get_object : Doc -> Ptr -> Z -> option Ptr;
  json_object_get_count : Doc -> Ptr -> Z;
  json_value_init_object : option Doc;
  json_value_init_array : option Doc;
  json_object_set_string : Doc -> Ptr -> string -> string -> option Doc;
  json_object_set_number : Doc -> Ptr -> string -> Q -> option Doc;
  json_object_set_boolean : Doc -> Ptr -> string -> bool -> option Doc;
  json_object_set_value : Doc -> Ptr -> string -> Doc -> option Doc;
  json_array_append_value : Doc -> Ptr -> Doc -> option Doc;
  json_serialize_to_string : Doc -> option string;
  json_value_equals : Doc -> Doc -> bool;
}.

(** A key without a dot: [json_object_dotget_value] looks it up in the object
    itself and does not descend. *)
Fixpoint plain_key (key : string) : bool :=
  match key with
  | EmptyString => true
  | String c k => negb (Ascii.eqb c ".") && plain_key k
  end.

(** What the readers rely on: an object found under a plain key of [o] has [o]
    as the object of its parent value. *)
Class ParsonLaws (P : Parson) : Prop := {
  parson_parent : forall doc o key v o',
    plain_key key = true ->
    json_object_dotget_value doc o key = Some v ->
    json_value_get_object doc v = Some o' ->
    exists wv pv,
      json_object_get_wrapping_value doc o' = Some wv /\
      json_value_get_parent doc wv = Some pv /\
      json_value_get_object doc pv = Some o;
}.

(** A string that parson hands out is a C string. *)
Class CStrings (P : Parson) : Prop := json_c_string : forall doc v s, json_value_get_string doc v = Some s -> c_string s.
