(* ===== verification/ParsonModel.v ===== *)
(** * JSON trees, and a concrete JSON library for the witnesses

    [ParsonTrees] is what the documentation of parson says of the documents as
    trees, for the properties that need to know what a document holds.  The
    instance of [Parson] over JSON trees with paths as pointers satisfies it, and
    [ParsonLaws].  The parser and the printer of texts stay parameters ([parse],
    [print]): a witness chooses the texts it needs. *)

From S2P Require Import Prelude CString Parson.
From Stdlib Require Import QArith Ascii String.
Open Scope Z_scope.

Inductive json : Type :=
  | JNull
  | JBool (b : bool)
  | JNum (q : Q)
  | JStr (s : string)
  | JArr (l : list json)
  | JObj (m : list (string * json)).

Definition path : Type := list (string + nat).

Fixpoint assoc (key : string) (m : list (string * json)) : option json :=
  match m with
  | [] => None
  | (k, v) :: m' => if String.eqb k key then Some v else assoc key m'
  end.

Definition step_in (s : string + nat) (j : json) : option json :=
  match s, j with
  | inl key, JObj m => assoc key m
  | inr i, JArr l => l !! i
  | _, _ => None
  end.

Fixpoint resolve (p : path) (j : json) : option json :=
  match p with
  | [] => Some j
  | s :: p' => match step_in s j with Some j' => resolve p' j' | None => None end
  end.

Fixpoint assoc_set (key : string) (v : json) (m : list (string * json)) : list (string * json) :=
  match m with
  | [] => [(key, v)]
  | (k, v') :: m' => if String.eqb k key then (k, v) :: m' else (k, v') :: assoc_set key v m'
  end.

(** Change the value at a path; [None] when the path does not resolve or [f] fails. *)
Fixpoint change (p : path) (f : json -> option json) (j : json) : option json :=
  match p with
  | [] => f j
  | inl key :: p' =>
      match j with
      | JObj m => v ← assoc key m; v' ← change p' f v; Some (JObj (assoc_set key v' m))
      | _ => None
      end
  | inr i :: p' =>
      match j with
      | JArr l => v ← l !! i; v' ← change p' f v; Some (JArr (<[i:=v']> l))
      | _ => None
      end
  end.

Definition set_member (key : string) (v : json) (j : json) : option json :=
  match j with JObj m => Some (JObj (assoc_set key v m)) | _ => None end.

(** The keys between the dots. *)
Fixpoint split_dots (key cur : string) : list string :=
  match key with
  | EmptyString => [cur]
  | String c k => if Ascii.eqb c "." then cur :: split_dots k EmptyString
                  else split_dots k (cur ++ String c EmptyString)%string
  end.

Definition dot_path (key : string) : path := map inl (split_dots key EmptyString).

Definition type_of (j : json) : JSON_Value_Type :=
  match j with
  | JNull => JSONNull | JBool _ => JSONBoolean | JNum _ => JSONNumber
  | JStr _ => JSONString | JArr _ => JSONArray | JObj _ => JSONObject
  end.

Fixpoint json_eqb (a b : json) {struct a} : bool :=
  match a, b with
  | JNull, JNull => true
  | JBool x, JBool y => Bool.eqb x y
  | JNum x, JNum y => Qeq_bool x y
  | JStr x, JStr y => String.eqb x y
  | JArr x, JArr y =>
      (fix go x y := match x, y with
       | [], [] => true
       | j :: x', k :: y' => json_eqb j k && go x' y'
       | _, _ => false
       end) x y
  | JObj x, JObj y =>
      (fix go x y := match x, y with
       | [], [] => true
       | (i, j) :: x', (i', k) :: y' => String.eqb i i' && json_eqb j k && go x' y'
       | _, _ => false
       end) x y
  | _, _ => false
  end.

(** ** The library, as trees

    A pointer to a value shows a tree, a pointer to an object its members.  A
    call that changes the object of the root, and succeeds, sets one member and
    leaves the object where it is; numbers are laws for [int] values only. *)

Class ParsonTrees (P : Parson) : Type := {
  tree : Doc -> json;
  value_at : Doc -> Ptr -> option json;
  members : Doc -> Ptr -> option (list (string * json));
  root_law d : value_at d (json_root d) = Some (tree d);
  object_law d v m : value_at d v = Some (JObj m) -> exists o, json_value_get_object d v = Some o /\ members d o = Some m;
  dotget_law d o m key : members d o = Some m -> plain_key key = true ->
    match assoc key m with
    | Some j => exists v, json_object_dotget_value d o key = Some v /\ value_at d v = Some j
    | None => json_object_dotget_value d o key = None
    end;
  dothas_law d o key : json_object_dothas_value d o key = match json_object_dotget_value d o key with Some _ => true | None => false end;
  type_law d v j : value_at d v = Some j -> json_value_get_type d v = type_of j;
  string_law d v s : value_at d v = Some (JStr s) -> json_value_get_string d v = Some s;
  number_law d v q : value_at d v = Some (JNum q) -> json_value_get_number d v = q;
  boolean_law d v b : value_at d v = Some (JBool b) -> json_value_get_boolean d v = Z.b2z b;
  init_object_law d : json_value_init_object = Some d -> tree d = JObj [];
  set_string_law d o m key s d' :
    tree d = JObj m -> json_value_get_object d (json_root d) = Some o -> json_object_set_string d o key s = Some d' ->
    tree d' = JObj (assoc_set key (JStr s) m) /\ json_value_get_object d' (json_root d') = Some o;
  set_number_law d o m key n d' :
    tree d = JObj m -> json_value_get_object d (json_root d) = Some o -> json_object_set_number d o key (inject_Z (i32 n)) = Some d' ->
    tree d' = JObj (assoc_set key (JNum (inject_Z (i32 n))) m) /\ json_value_get_object d' (json_root d') = Some o;
  set_boolean_law d o m key b d' :
    tree d = JObj m -> json_value_get_object d (json_root d) = Some o -> json_object_set_boolean d o key b = Some d' ->
    tree d' = JObj (assoc_set key (JBool b) m) /\ json_value_get_object d' (json_root d') = Some o;
  set_value_law d o m key v d' :
    tree d = JObj m -> json_value_get_object d (json_root d) = Some o -> json_object_set_value d o key v = Some d' ->
    tree d' = JObj (assoc_set key (tree v) m) /\ json_value_get_object d' (json_root d') = Some o;
}.

(** ** The model *)

Definition object_at (j : json) (p : path) : option path :=
  match resolve p j with Some (JObj _) => Some p | _ => None end.

Definition array_at (j : json) (p : path) : option path :=
  match resolve p j with Some (JArr _) => Some p | _ => None end.

Definition dotget (j : json) (p : path) (key : string) : option path :=
  match resolve (p ++ dot_path key) j with Some _ => Some (p ++ dot_path key) | None => None end.

Definition model_parson (parse : string -> option json) (print : json -> string) : Parson := {|
  Doc := json;
  Ptr := path;
  json_parse_string := parse;
  json_parse_file := parse;
  json_root := fun _ => [];
  json_value_get_object := object_at;
  json_value_get_array := array_at;
  json_object_get_wrapping_value := fun _ p => Some p;
  json_value_get_parent := fun _ p => match p with [] => None | _ => Some (removelast p) end;
  json_object_dothas_value := fun j p key => match dotget j p key with Some _ => true | None => false end;
  json_object_dothas_value_of_type := fun j p key t =>
    match resolve (p ++ dot_path key) j with Some v => bool_decide (type_of v = t) | None => false end;
  json_object_dotget_value := dotget;
  json_object_dotget_object := fun j p key => object_at j (p ++ dot_path key);
  json_object_dotget_array := fun j p key => array_at j (p ++ dot_path key);
  json_value_get_type := fun j p => match resolve p j with Some v => type_of v | None => JSONError end;
  json_value_get_number := fun j p => match resolve p j with Some (JNum q) => q | _ => 0%Q end;
  json_value_get_string := fun j p => match resolve p j with Some (JStr s) => Some s | _ => None end;
  json_value_get_boolean := fun j p => match resolve p j with Some (JBool b) => Z.b2z b | _ => -1 end;
  json_array_get_count := fun j p => match resolve p j with Some (JArr l) => Z.of_nat (List.length l) | _ => 0 end;
  json_array_get_object := fun j p i => object_at j (p ++ [inr (Z.to_nat i)]);
  json_object_get_count := fun j p => match resolve p j with Some (JObj m) => Z.of_nat (List.length m) | _ => 0 end;
  json_value_init_object := Some (JObj []);
  json_value_init_array := Some (JArr []);
  json_object_set_string := fun j p key s => change p (set_member key (JStr s)) j;
  json_object_set_number := fun j p key q => change p (set_member key (JNum q)) j;
  json_object_set_boolean := fun j p key b => change p (set_member key (JBool b)) j;
  json_object_set_value := fun j p key v => change p (set_member key v) j;
  json_array_append_value := fun j p v =>
    change p (fun a => match a with JArr l => Some (JArr (l ++ [v])) | _ => None end) j;
  json_serialize_to_string := fun j => Some (print j);
  json_value_equals := json_eqb;
|}.

(** ** The laws *)

Lemma split_dots_plain key cur :
  plain_key key = true -> split_dots key cur = [(cur ++ key)%string].
Proof.
  revert cur. induction key as [|c k IH]; intros cur H; cbn in *.
  - f_equal. clear. induction cur; [done|]. unfold String.append in *. cbn. congruence.
  - apply andb_true_iff in H as [H1 H2]. apply negb_true_iff in H1. rewrite H1, IH by done.
    f_equal. clear. induction cur; [done|]. unfold String.append in *. cbn. congruence.
Qed.

Lemma dot_path_nonempty key : dot_path key <> [].
Proof.
  unfold dot_path. intros H%map_eq_nil. revert H. generalize EmptyString.
  induction key as [|c k IH]; intros cur; cbn; [done|]. destruct (_ =? _)%char; [done | apply IH].
Qed.

Lemma resolve_app p q j :
  resolve (p ++ q) j = match resolve p j with Some j' => resolve q j' | None => None end.
Proof.
  revert j. induction p as [|s p IH]; intros j; [done|]. cbn. destruct (step_in s j); [apply IH | done].
Qed.

#[export] Instance model_laws parse print : ParsonLaws (model_parson parse print).
Proof.
  constructor. intros doc o key v o' Hk Hv Ho. cbn in *.
  assert (Hd : dot_path key = [inl key]).
  { unfold dot_path. by rewrite split_dots_plain. }
  unfold dotget in Hv. rewrite Hd in Hv.
  assert (Ho' : o' = v).
  { revert Ho. unfold object_at. destruct (resolve v doc) as [[]|]; congruence. }
  subst o'. destruct (resolve (o ++ [inl key]) doc) as [j|] eqn:E; [|done]. injection Hv as <-.
  exists (o ++ [inl key]), o. split; [done|]. split.
  - destruct (o ++ [inl key]) eqn:E'; [by destruct o|]. rewrite <- E'. by rewrite removelast_last.
  - rewrite resolve_app in E. unfold object_at. destruct (resolve o doc) as [[]|]; done.
Qed.

Lemma dotget_plain doc o m key :
  resolve o doc = Some (JObj m) -> plain_key key = true ->
  dotget doc o key = match assoc key m with Some _ => Some (o ++ [inl key]) | None => None end.
Proof.
  intros Ho Hk. unfold dotget, dot_path. rewrite split_dots_plain by done. cbn. rewrite resolve_app, Ho. cbn. by destruct (assoc key m).
Qed.

Lemma set_member_root (d d' : json) o m key v :
  d = JObj m -> object_at d [] = Some o -> change o (set_member key v) d = Some d' ->
  d' = JObj (assoc_set key v m) /\ object_at d' [] = Some o.
Proof. intros -> [= <-] [= <-]. done. Qed.

#[export] Instance model_trees parse print : ParsonTrees (model_parson parse print).
Proof.
  unshelve refine (@Build_ParsonTrees (model_parson parse print) (fun d : json => d) (fun (d : json) (p : path) => resolve p d)
    (fun (d : json) (p : path) => match resolve p d with Some (JObj m) => Some m | _ => None end) _ _ _ _ _ _ _ _ _ _ _ _ _); cbn; try done.
  - intros d v m H. exists v. unfold object_at. by rewrite H.
  - intros d o m key Ho Hk. destruct (resolve o d) as [[| | | | |m']|] eqn:E; try done. injection Ho as ->.
    rewrite (dotget_plain _ _ _ _ E Hk). destruct (assoc key m) as [j|] eqn:Ej; [|done]. exists (o ++ [inl key]).
    split; [done|]. rewrite resolve_app, E. cbn. by rewrite Ej.
  - by intros d v j ->.
  - by intros d v s ->.
  - by intros d v q ->.
  - by intros d v b ->.
  - by intros d [= <-].
  - intros d o m key s d'. apply set_member_root.
  - intros d o m key n d'. apply set_member_root.
  - intros d o m key b d'. apply set_member_root.
  - intros d o m key v d'. apply set_member_root.
Defined.

(** The same library, of which every string is a C string. *)
Definition c_parson (P : Parson) : Parson := {|
  Doc := Doc;
  Ptr := Ptr;
  json_parse_string := json_parse_string;
  json_parse_file := json_parse_file;
  json_root := json_root;
  json_value_get_object := json_value_get_object;
  json_value_get_array := json_value_get_array;
  json_object_get_wrapping_value := json_object_get_wrapping_value;
  json_value_get_parent := json_value_get_parent;
  json_object_dothas_value := json_object_dothas_value;
  json_object_dothas_value_of_type := json_object_dothas_value_of_type;
  json_object_dotget_value := json_object_dotget_value;
  json_object_dotget_object := json_object_dotget_object;
  json_object_dotget_array := json_object_dotget_array;
  json_value_get_type := json_value_get_type;
  json_value_get_number := json_value_get_number;
  json_value_get_string := fun doc v => s ← json_value_get_string doc v; if c_stringb s then Some s else None;
  json_value_get_boolean := json_value_get_boolean;
  json_array_get_count := json_array_get_count;
  json_array_get_object := json_array_get_object;
  json_object_get_count := json_object_get_count;
  json_value_init_object := json_value_init_object;
  json_value_init_array := json_value_init_array;
  json_object_set_string := json_object_set_string;
  json_object_set_number := json_object_set_number;
  json_object_set_boolean := json_object_set_boolean;
  json_object_set_value := json_object_set_value;
  json_array_append_value := json_array_append_value;
  json_serialize_to_string := json_serialize_to_string;
  json_value_equals := json_value_equals;
|}.

#[export] Instance c_parson_strings P : CStrings (c_parson P).
Proof.
  intros doc v s. cbn. destruct (@json_value_get_string P doc v) as [x|]; cbn; [|done].
  destruct (c_stringb x) eqn:H; [|done]. intros [= <-]. by apply c_stringb_true.
Qed.

#[export] Instance c_parson_laws P : ParsonLaws P -> ParsonLaws (c_parson P).
Proof. intros [H]. by constructor. Qed.
