(* ===== verification/Json.v ===== *)
(** * JSON readers and writers ([json/*.c])

    The agent's handles over parson.  A reader or writer is a record; the
    functions that move its cursor or change its document return the new
    record next to the C result. *)

From S2P Require Import Prelude CString TwinDefs World TimeUtils Parson.
From Stdlib Require Import QArith Ascii String.
Open Scope Z_scope.

Inductive JsonReaderResult : Type :=
  | JSON_READER_OK
  | JSON_READER_KEY_MISSING
  | JSON_READER_VALUE_IS_NULL
  | JSON_READER_PARSE_ERROR
  | JSON_READER_EXCEPTION.

Inductive JsonWriterResult : Type :=
  | JSON_WRITER_OK
  | JSON_WRITER_EXCEPTION.

#[export] Instance JsonReaderResult_eq_dec : EqDecision JsonReaderResult.
Proof. solve_decision. Defined.
#[export] Instance JsonWriterResult_eq_dec : EqDecision JsonWriterResult.
Proof. solve_decision. Defined.

(** The conversion from [double] to [int32_t]: truncation towards zero,
    undefined out of range. *)
Definition double_to_int32 (q : Q) : option Z :=
  let z := Z.quot (Qnum q) (Zpos (Qden q)) in
  if (INT32_MIN <=? z) && (z <=? INT32_MAX) then Some z else None.

Section Json.
Context {P : Parson}.

(** ** Readers *)

(** [document] is the document that [rootObject] points into; [rootValue] is
    set when the reader was opened on the whole document. *)
Record JsonObjectReader : Type := mkReader {
  rd_document : Doc;
  rd_rootValue : bool;
  rd_rootObject : Ptr;
  rd_shouldFree : bool;
}.

Record JsonArrayReader : Type := mkArrayReader {
  ar_document : Doc;
  ar_rootArray : Ptr;
}.

Definition set_rootObject (p : Ptr) (r : JsonObjectReader) : JsonObjectReader :=
  mkReader (rd_document r) (rd_rootValue r) p (rd_shouldFree r).

Definition JsonObjectReader_GetValueOfType (reader : JsonObjectReader) (key : string)
    (type : JSON_Value_Type) : JsonReaderResult * option Ptr :=
  if negb (json_object_dothas_value (rd_document reader) (rd_rootObject reader) key)
  then (JSON_READER_KEY_MISSING, None)
  else
    match json_object_dotget_value (rd_document reader) (rd_rootObject reader) key with
    | None => (JSON_READER_EXCEPTION, None)
    | Some value =>
        let actualType := json_value_get_type (rd_document reader) value in
        if decide (actualType = JSONError) then (JSON_READER_EXCEPTION, None)
        else if decide (actualType = JSONNull) then (JSON_READER_VALUE_IS_NULL, None)
        else if decide (actualType <> type) then (JSON_READER_PARSE_ERROR, None)
        else (JSON_READER_OK, Some value)
    end.

(** [data] is the text of the document or the name of its file. *)
Definition JsonObjectReader_Init (data : string) (isString : bool)
    : M World (JsonReaderResult * option JsonObjectReader) :=
  ok <- malloc ;;
  require ok else (JSON_READER_EXCEPTION, None) ;;
  match (if isString then json_parse_string data else json_parse_file data) with
  | None => ret (JSON_READER_EXCEPTION, None)
  | Some doc =>
      match json_value_get_object doc (json_root doc) with
      | None => ret (JSON_READER_EXCEPTION, None)
      | Some o => ret (JSON_READER_OK, Some (mkReader doc true o true))
      end
  end.

Definition JsonObjectReader_InitFromString (data : string) := JsonObjectReader_Init data true.
Definition JsonObjectReader_InitFromFile (fileName : string) := JsonObjectReader_Init fileName false.

Definition JsonObjectReader_StepIn (reader : JsonObjectReader) (key : string)
    : JsonReaderResult * JsonObjectReader :=
  match JsonObjectReader_GetValueOfType reader key JSONObject with
  | (JSON_READER_OK, Some val) =>
      match json_value_get_object (rd_document reader) val with
      | None => (JSON_READER_EXCEPTION, reader)
      | Some newRoot => (JSON_READER_OK, set_rootObject newRoot reader)
      end
  | (result, _) => (result, reader)
  end.

Definition JsonObjectReader_StepOut (reader : JsonObjectReader) : JsonReaderResult * JsonObjectReader :=
  match json_object_get_wrapping_value (rd_document reader) (rd_rootObject reader) with
  | None => (JSON_READER_EXCEPTION, reader)
  | Some value =>
      match json_value_get_parent (rd_document reader) value with
      | None => (JSON_READER_EXCEPTION, reader)
      | Some parentValue =>
          match json_value_get_object (rd_document reader) parentValue with
          | None => (JSON_READER_EXCEPTION, reader)
          | Some newRoot => (JSON_READER_OK, set_rootObject newRoot reader)
          end
      end
  end.

(** The readers of scalars return the value stored through [output], if any. *)
Definition JsonObjectReader_ReadString (reader : JsonObjectReader) (key : string)
    : JsonReaderResult * option string :=
  match JsonObjectReader_GetValueOfType reader key JSONString with
  | (JSON_READER_OK, Some value) =>
      match json_value_get_string (rd_document reader) value with
      | None => (JSON_READER_EXCEPTION, None)
      | Some s => (JSON_READER_OK, Some s)
      end
  | (result, _) => (result, None)
  end.

Definition JsonObjectReader_ReadTimeInMilliseconds (reader : JsonObjectReader) (key : string)
    : JsonReaderResult * option Z :=
  match JsonObjectReader_ReadString reader key with
  | (JSON_READER_OK, timeValue) =>
      match TimeUtils_ISO8601DurationStringToMilliseconds timeValue with
      | None => (JSON_READER_PARSE_ERROR, None)
      | Some ms => (JSON_READER_OK, Some ms)
      end
  | (result, _) => (result, None)
  end.

Definition JsonObjectReader_ReadInt (reader : JsonObjectReader) (key : string)
    : M World (JsonReaderResult * option Z) :=
  match JsonObjectReader_GetValueOfType reader key JSONNumber with
  | (JSON_READER_OK, Some value) =>
      match double_to_int32 (json_value_get_number (rd_document reader) value) with
      | Some n => ret (JSON_READER_OK, Some n)
      | None => undefined
      end
  | (result, _) => ret (result, None)
  end.

Definition JsonObjectReader_ReadBool (reader : JsonObjectReader) (key : string)
    : JsonReaderResult * option bool :=
  match JsonObjectReader_GetValueOfType reader key JSONBoolean with
  | (JSON_READER_OK, Some value) =>
      (JSON_READER_OK, Some (negb (json_value_get_boolean (rd_document reader) value =? 0)))
  | (result, _) => (result, None)
  end.

Definition JsonObjectReader_InternalInit (doc : Doc) (object : Ptr)
    : M World (JsonReaderResult * option JsonObjectReader) :=
  ok <- malloc ;;
  require ok else (JSON_READER_EXCEPTION, None) ;;
  ret (JSON_READER_OK, Some (mkReader doc false object false)).

Definition JsonObjectReader_ReadObject (reader : JsonObjectReader) (key : string)
    : M World (JsonReaderResult * option JsonObjectReader) :=
  if negb (json_object_dothas_value_of_type (rd_document reader) (rd_rootObject reader) key JSONObject)
  then ret (JSON_READER_KEY_MISSING, None)
  else
    match json_object_dotget_object (rd_document reader) (rd_rootObject reader) key with
    | None => ret (JSON_READER_EXCEPTION, None)
    | Some subObject =>
        ok <- malloc ;;
        require ok else (JSON_READER_EXCEPTION, None) ;;
        ret (JSON_READER_OK, Some (mkReader (rd_document reader) false subObject false))
    end.

Definition JsonArrayReader_Init (parent : JsonObjectReader) (name : string)
    : M World (JsonReaderResult * option JsonArrayReader) :=
  if negb (json_object_dothas_value_of_type (rd_document parent) (rd_rootObject parent) name JSONArray)
  then ret (JSON_READER_KEY_MISSING, None)
  else
    ok <- malloc ;;
    require ok else (JSON_READER_EXCEPTION, None) ;;
    match json_object_dotget_array (rd_document parent) (rd_rootObject parent) name with
    | None => ret (JSON_READER_EXCEPTION, None)
    | Some a => ret (JSON_READER_OK, Some (mkArrayReader (rd_document parent) a))
    end.

Definition JsonObjectReader_ReadArray (reader : JsonObjectReader) (key : string) :=
  JsonArrayReader_Init reader key.

Definition JsonArrayReader_GetSize (reader : JsonArrayReader) : JsonReaderResult * Z :=
  (JSON_READER_OK, u32 (json_array_get_count (ar_document reader) (ar_rootArray reader))).

Definition JsonArrayReader_ReadObject (reader : JsonArrayReader) (index : Z)
    : M World (JsonReaderResult * option JsonObjectReader) :=
  match json_array_get_object (ar_document reader) (ar_rootArray reader) index with
  | None => ret (JSON_READER_EXCEPTION, None)
  | Some innerObject => JsonObjectReader_InternalInit (ar_document reader) innerObject
  end.

(** ** Writers *)

Record JsonObjectWriter : Type := mkWriter {
  wr_rootValue : Doc;
  wr_rootObject : Ptr;
  wr_shouldFree : bool;
}.

Record JsonArrayWriter : Type := mkArrayWriter {
  aw_rootValue : Doc;
  aw_rootArray : Ptr;
  aw_shouldFree : bool;
}.

Definition set_document (d : Doc) (w : JsonObjectWriter) : JsonObjectWriter :=
  mkWriter d (wr_rootObject w) (wr_shouldFree w).

(** The object now belongs to another document. *)
Definition give_away (w : JsonObjectWriter) : JsonObjectWriter :=
  mkWriter (wr_rootValue w) (wr_rootObject w) false.

Definition give_away_array (w : JsonArrayWriter) : JsonArrayWriter :=
  mkArrayWriter (aw_rootValue w) (aw_rootArray w) false.

Definition JsonObjectWriter_Init : M World (JsonWriterResult * option JsonObjectWriter) :=
  ok <- malloc ;;
  require ok else (JSON_WRITER_EXCEPTION, None) ;;
  match json_value_init_object with
  | None => ret (JSON_WRITER_EXCEPTION, None)
  | Some doc =>
      match json_value_get_object doc (json_root doc) with
      | None => ret (JSON_WRITER_EXCEPTION, None)
      | Some o => ret (JSON_WRITER_OK, Some (mkWriter doc o true))
      end
  end.

Definition JsonObjectWriter_InitFromString (json : string) : M World (JsonWriterResult * option JsonObjectWriter) :=
  ok <- malloc ;;
  require ok else (JSON_WRITER_EXCEPTION, None) ;;
  match json_parse_string json with
  | None => ret (JSON_WRITER_EXCEPTION, None)
  | Some doc =>
      match json_value_get_object doc (json_root doc) with
      | None => ret (JSON_WRITER_EXCEPTION, None)
      | Some o => ret (JSON_WRITER_OK, Some (mkWriter doc o true))
      end
  end.

Definition write_result (w : JsonObjectWriter) (d : option Doc) : JsonWriterResult * JsonObjectWriter :=
  match d with
  | None => (JSON_WRITER_EXCEPTION, w)
  | Some doc => (JSON_WRITER_OK, set_document doc w)
  end.

Definition JsonObjectWriter_WriteString (w : JsonObjectWriter) (key value : string) :=
  write_result w (json_object_set_string (wr_rootValue w) (wr_rootObject w) key value).

(** [value] is an [int]. *)
Definition JsonObjectWriter_WriteInt (w : JsonObjectWriter) (key : string) (value : Z) :=
  write_result w (json_object_set_number (wr_rootValue w) (wr_rootObject w) key (inject_Z value)).

Definition JsonObjectWriter_WriteBool (w : JsonObjectWriter) (key : string) (value : bool) :=
  write_result w (json_object_set_boolean (wr_rootValue w) (wr_rootObject w) key value).

Definition JsonObjectWriter_WriteArray (w : JsonObjectWriter) (key : string) (a : JsonArrayWriter)
    : JsonWriterResult * JsonObjectWriter * JsonArrayWriter :=
  match json_object_set_value (wr_rootValue w) (wr_rootObject w) key (aw_rootValue a) with
  | None => (JSON_WRITER_EXCEPTION, w, a)
  | Some doc => (JSON_WRITER_OK, set_document doc w, give_away_array a)
  end.

(** Returns the text and its [uint32_t] length. *)
Definition JsonObjectWriter_Serialize (w : JsonObjectWriter) : JsonWriterResult * option (string * Z) :=
  match json_serialize_to_string (wr_rootValue w) with
  | None => (JSON_WRITER_EXCEPTION, None)
  | Some s => (JSON_WRITER_OK, Some (s, u32 (strlen s)))
  end.

Definition JsonObjectWriter_WriteObject (w : JsonObjectWriter) (key : string) (o : JsonObjectWriter)
    : JsonWriterResult * JsonObjectWriter * JsonObjectWriter :=
  match json_object_set_value (wr_rootValue w) (wr_rootObject w) key (wr_rootValue o) with
  | None => (JSON_WRITER_EXCEPTION, w, o)
  | Some doc => (JSON_WRITER_OK, set_document doc w, give_away o)
  end.

Definition JsonObjectWriter_Copy (src : JsonObjectWriter) : M World (JsonWriterResult * option JsonObjectWriter) :=
  match JsonObjectWriter_Serialize src with
  | (JSON_WRITER_OK, Some (serializedSource, _)) => JsonObjectWriter_InitFromString serializedSource
  | (result, _) => ret (result, None)
  end.

Definition JsonObjectWriter_Compare (a b : JsonObjectWriter) : bool :=
  json_value_equals (wr_rootValue a) (wr_rootValue b).

Definition JsonObjectWriter_GetSize (w : JsonObjectWriter) : JsonWriterResult * Z :=
  (JSON_WRITER_OK, u32 (json_object_get_count (wr_rootValue w) (wr_rootObject w))).

Definition JsonObjectWriter_GetValueOfType (w : JsonObjectWriter) (key : string) (type : JSON_Value_Type)
    : JsonWriterResult * option Ptr :=
  if negb (json_object_dothas_value (wr_rootValue w) (wr_rootObject w) key) then (JSON_WRITER_EXCEPTION, None)
  else
    match json_object_dotget_value (wr_rootValue w) (wr_rootObject w) key with
    | None => (JSON_WRITER_EXCEPTION, None)
    | Some value =>
        let actualType := json_value_get_type (wr_rootValue w) value in
        if decide (actualType = JSONError \/ actualType = JSONNull \/ actualType <> type)
        then (JSON_WRITER_EXCEPTION, None)
        else (JSON_WRITER_OK, Some value)
    end.

Definition JsonObjectWriter_StepIn (w : JsonObjectWriter) (key : string) : JsonWriterResult * JsonObjectWriter :=
  match JsonObjectWriter_GetValueOfType w key JSONObject with
  | (JSON_WRITER_OK, Some val) =>
      match json_value_get_object (wr_rootValue w) val with
      | None => (JSON_WRITER_EXCEPTION, w)
      | Some newRoot => (JSON_WRITER_OK, mkWriter (wr_rootValue w) newRoot (wr_shouldFree w))
      end
  | (result, _) => (result, w)
  end.

Definition JsonArrayWriter_Init : M World (JsonWriterResult * option JsonArrayWriter) :=
  ok <- malloc ;;
  require ok else (JSON_WRITER_EXCEPTION, None) ;;
  match json_value_init_array with
  | None => ret (JSON_WRITER_EXCEPTION, None)
  | Some doc =>
      match json_value_get_array doc (json_root doc) with
      | None => ret (JSON_WRITER_EXCEPTION, None)
      | Some a => ret (JSON_WRITER_OK, Some (mkArrayWriter doc a true))
      end
  end.

Definition JsonArrayWriter_AddObject (a : JsonArrayWriter) (item : JsonObjectWriter)
    : JsonWriterResult * JsonArrayWriter * JsonObjectWriter :=
  match json_array_append_value (aw_rootValue a) (aw_rootArray a) (wr_rootValue item) with
  | None => (JSON_WRITER_EXCEPTION, a, item)
  | Some doc => (JSON_WRITER_OK, mkArrayWriter doc (aw_rootArray a) (aw_shouldFree a), give_away item)
  end.

Definition JsonArrayWriter_Serialize (a : JsonArrayWriter) : JsonWriterResult * option (string * Z) :=
  match json_serialize_to_string (aw_rootValue a) with
  | None => (JSON_WRITER_EXCEPTION, None)
  | Some s => (JSON_WRITER_OK, Some (s, u32 (strlen s)))
  end.

Definition JsonArrayWriter_GetSize (a : JsonArrayWriter) : JsonWriterResult * Z :=
  (JSON_WRITER_OK, u32 (json_array_get_count (aw_rootValue a) (aw_rootArray a))).

(** ** Specification *)

(** The empty object and the empty array that a writer starts from. *)
Definition new_writer : option JsonObjectWriter :=
  doc ← json_value_init_object;
  o ← json_value_get_object doc (json_root doc);
  Some (mkWriter doc o true).

Definition new_array : option JsonArrayWriter :=
  doc ← json_value_init_array;
  a ← json_value_get_array doc (json_root doc);
  Some (mkArrayWriter doc a true).

(** ** Lemmas *)

Lemma WriterInit_new w :
  reliable w ->
  JsonObjectWriter_Init w =
  Some (match new_writer with Some o => (JSON_WRITER_OK, Some o) | None => (JSON_WRITER_EXCEPTION, None) end, bump 1 w).
Proof.
  intros Hr. unfold JsonObjectWriter_Init, bind, new_writer. rewrite malloc_reliable by done.
  destruct json_value_init_object as [doc|]; [|done]. cbn. by destruct (json_value_get_object doc (json_root doc)).
Qed.

Lemma ArrayInit_new w :
  reliable w ->
  JsonArrayWriter_Init w =
  Some (match new_array with Some o => (JSON_WRITER_OK, Some o) | None => (JSON_WRITER_EXCEPTION, None) end, bump 1 w).
Proof.
  intros Hr. unfold JsonArrayWriter_Init, bind, new_array. rewrite malloc_reliable by done.
  destruct json_value_init_array as [doc|]; [|done]. cbn. by destruct (json_value_get_array doc (json_root doc)).
Qed.


(** Stepping into a plain key and out again leaves the reader where it was. *)
Lemma StepIn_StepOut {L : ParsonLaws P} reader key reader' :
  plain_key key = true ->
  JsonObjectReader_StepIn reader key = (JSON_READER_OK, reader') ->
  JsonObjectReader_StepOut reader' = (JSON_READER_OK, reader).
Proof.
  intros Hk. unfold JsonObjectReader_StepIn, JsonObjectReader_GetValueOfType.
  destruct (json_object_dothas_value _ _ _); [cbn [negb] | done].
  destruct (json_object_dotget_value _ _ _) as [v|] eqn:Hv; [|done].
  repeat case_decide; try done.
  destruct (json_value_get_object _ v) as [o'|] eqn:Ho; [|done]. intros [= <-].
  destruct (parson_parent (rd_document reader) (rd_rootObject reader) key v o' Hk Hv Ho)
    as (wv & pv & E1 & E2 & E3).
  unfold JsonObjectReader_StepOut. cbn. rewrite E1, E2, E3. by destruct reader.
Qed.

Lemma StepIn_fail reader key r reader' :
  JsonObjectReader_StepIn reader key = (r, reader') -> r <> JSON_READER_OK -> reader' = reader.
Proof.
  unfold JsonObjectReader_StepIn.
  destruct (JsonObjectReader_GetValueOfType reader key JSONObject) as [[] [v|]]; try (intros [= <- <-]; done).
  destruct (json_value_get_object _ v); intros [= <- <-]; done.
Qed.

Lemma StepIn_document reader key r reader' :
  JsonObjectReader_StepIn reader key = (r, reader') -> rd_document reader' = rd_document reader.
Proof.
  unfold JsonObjectReader_StepIn.
  destruct (JsonObjectReader_GetValueOfType reader key JSONObject) as [[] [v|]]; try (intros [= <- <-]; done).
  destruct (json_value_get_object _ v); intros [= <- <-]; done.
Qed.

End Json.
