(* ===== verification/Authentication.v ===== *)
(** * [authentication_manager.c]: credentials, the hub and the provisioning service

    The manager is one static record of bounded buffers and owned pointers.  The
    HTTP client of the SDK is an interface over a state that also carries the
    world and the ledger; what its calls own is counted with the pointers of the
    manager. *)

From S2P Require Import Prelude CString World Utils Ledger Http FileUtils Certificates Parson ParsonModel Json.
From Stdlib Require Import Ascii String.
Open Scope Z_scope.

(** ** Data *)

Inductive AuthenticationMethod : Type :=
  | SYMMETRIC_KEY
  | CERTIFICATE.

(** The three buffers and those of the provisioning service are C strings. *)
Record AuthenticationManager : Type := mkManager {
  relativeUrl : string;
  hostName : string;
  deviceId : string;
  sharedAccessKey : option string;
  certificate : option string;
  certificatePrivateKey : option string;
  dpsRelativeUrl : option string;
  sasTokenScope : option string;
  dpsRequestContent : option string;
  idScope : string;
  registrationId : string;
  lastDPSUpdateTime : string;
}.

Definition set_relativeUrl v m := mkManager v (hostName m) (deviceId m) (sharedAccessKey m) (certificate m) (certificatePrivateKey m)
  (dpsRelativeUrl m) (sasTokenScope m) (dpsRequestContent m) (idScope m) (registrationId m) (lastDPSUpdateTime m).
Definition set_hostName v m := mkManager (relativeUrl m) v (deviceId m) (sharedAccessKey m) (certificate m) (certificatePrivateKey m)
  (dpsRelativeUrl m) (sasTokenScope m) (dpsRequestContent m) (idScope m) (registrationId m) (lastDPSUpdateTime m).
Definition set_deviceId v m := mkManager (relativeUrl m) (hostName m) v (sharedAccessKey m) (certificate m) (certificatePrivateKey m)
  (dpsRelativeUrl m) (sasTokenScope m) (dpsRequestContent m) (idScope m) (registrationId m) (lastDPSUpdateTime m).
Definition set_sharedAccessKey v m := mkManager (relativeUrl m) (hostName m) (deviceId m) v (certificate m) (certificatePrivateKey m)
  (dpsRelativeUrl m) (sasTokenScope m) (dpsRequestContent m) (idScope m) (registrationId m) (lastDPSUpdateTime m).
Definition set_certificates c k m := mkManager (relativeUrl m) (hostName m) (deviceId m) (sharedAccessKey m) c k
  (dpsRelativeUrl m) (sasTokenScope m) (dpsRequestContent m) (idScope m) (registrationId m) (lastDPSUpdateTime m).
Definition set_dps u t c m := mkManager (relativeUrl m) (hostName m) (deviceId m) (sharedAccessKey m) (certificate m)
  (certificatePrivateKey m) u t c (idScope m) (registrationId m) (lastDPSUpdateTime m).
Definition set_idScope v m := mkManager (relativeUrl m) (hostName m) (deviceId m) (sharedAccessKey m) (certificate m)
  (certificatePrivateKey m) (dpsRelativeUrl m) (sasTokenScope m) (dpsRequestContent m) v (registrationId m) (lastDPSUpdateTime m).
Definition set_registrationId v m := mkManager (relativeUrl m) (hostName m) (deviceId m) (sharedAccessKey m) (certificate m)
  (certificatePrivateKey m) (dpsRelativeUrl m) (sasTokenScope m) (dpsRequestContent m) (idScope m) v (lastDPSUpdateTime m).
Definition set_lastDPSUpdateTime v m := mkManager (relativeUrl m) (hostName m) (deviceId m) (sharedAccessKey m) (certificate m)
  (certificatePrivateKey m) (dpsRelativeUrl m) (sasTokenScope m) (dpsRequestContent m) (idScope m) (registrationId m) v.

Definition MAX_BUFF : Z := 500.
Definition KEY_SIZE : Z := 300.

Definition PRIMARY_KEY : string := "authentication.symmetricKey.primaryKey".
Definition GLOBAL_DPS_HOSTNAME : string := "global.azure-devices-provisioning.net".
Definition RESPONSE_ASSIGNED_HUB : string := "assignedHub".
Definition RESPONSE_DEVICE_ID : string := "deviceId".
Definition RESPONSE_LAST_UPDATED : string := "lastUpdatedDateTimeUtc".
Definition RESPONSE_STATUS : string := "status".
Definition RESPONSE_STATUS_ASSIGNED : string := "assigned".
Definition CONTENT_TYPE_HEADER : string := "Content-Type".
Definition CONTENT_TYPE_JSON : string := "application/json".

(** The formats, as what they render, and the length of the format itself. *)
Definition SECURITY_MODULE_API (device : string) : string :=
  ("/devices/" ++ device ++ "/modules/azureiotsecurity?api-version=2018-06-30")%string.
Definition GENERATED_CONNECTION_STRING (host device key : string) : string :=
  ("HostName=" ++ host ++ ";DeviceId=" ++ device ++ ";ModuleId=azureiotsecurity;SharedAccessKey=" ++ key)%string.
Definition REGISTRATION_API (scope registration : string) : string :=
  ("/" ++ scope ++ "/registrations/" ++ registration ++ "?api-version=2019-03-31")%string.
Definition SAS_TOKEN_SCOPE (scope registration : string) : string :=
  (scope ++ "/registrations/" ++ registration)%string.
Definition quote : string := String "034" EmptyString.
Definition REGISTRATION_BODY (registration : string) : string :=
  ("{" ++ quote ++ "registrationId" ++ quote ++ " : " ++ quote ++ registration ++ quote ++ "}")%string.
Definition strlen_REGISTRATION_API : Z := strlen (REGISTRATION_API "%s" "%s").
Definition strlen_SAS_TOKEN_SCOPE : Z := strlen (SAS_TOKEN_SCOPE "%s" "%s").
Definition strlen_REGISTRATION_BODY : Z := strlen (REGISTRATION_BODY "%s").

(** [Utils_CopyString(src, strlen(src) + 1, dest, MAX_BUFF)] into a C string. *)
Definition copy_text (src dest : string) : option string :=
  until_nul <$> Utils_CopyString (src ++ String "000" EmptyString) (u32 (strlen src + 1)) dest MAX_BUFF.

(** [Utils_ConcatenateToString] at the start of a buffer of [size] bytes: the
    result, and the text that [vsnprintf] leaves there, cut when it does not fit. *)
Definition print_text (size : Z) (text : string) : bool * string :=
  (fst (Utils_ConcatenateToString (mkBuffer EmptyString size) text), stake (Z.to_nat (size - 1)) text).

(** The first line of what was read into a buffer of [size] zeroed bytes: up to
    the first line break or NUL.  [None] when neither is in the buffer: [strchr]
    then reads past its end. *)
Definition key_line (size : Z) (data : string) : option string :=
  let text := until_nul data in
  match strchr_offset text "010" with
  | Some n => Some (stake n text)
  | None => if (strlen data <? size) || has_nul data then Some text else None
  end.

(** ** Lemmas on the buffers *)

Lemma has_nul_app_l s t : has_nul s = true -> has_nul (s ++ t) = true.
Proof. induction s as [|c s IH]; cbn; [done|]. destruct (Ascii.eqb c "000"); cbn; auto. Qed.

Lemma until_nul_app_l s t : has_nul s = true -> until_nul (s ++ t) = until_nul s.
Proof. induction s as [|c s IH]; cbn; [done|]. destruct (Ascii.eqb c "000"); cbn; [done|]. intros H. by rewrite IH. Qed.

Lemma until_nul_app s t : has_nul s = false -> until_nul (s ++ String "000" t) = s.
Proof. induction s as [|c s IH]; cbn; [done|]. intros [H1 H2]%orb_false_iff. rewrite H1. f_equal. by apply IH. Qed.

Lemma stake_app_all s t : stake (String.length s) (s ++ t) = s.
Proof. induction s as [|c s IH]; cbn; [by destruct t | by rewrite IH]. Qed.

(** Copying a C string works when it fits the buffer with its terminator. *)
Lemma copy_text_spec src dest : c_string src -> copy_text src dest = if strlen src <? MAX_BUFF then Some src else None.
Proof.
  intros [Hn Hl]. unfold copy_text, Utils_CopyString. pose proof (strlen_nonneg src).
  rewrite u32_small by ulia. change MAX_BUFF with 500.
  destruct (Z.ltb_spec 500 (strlen src + 1)), (Z.ltb_spec (strlen src) 500); try lia; [done|]. cbn. f_equal.
  assert (Hs : Z.to_nat (strlen src + 1) = String.length (src ++ String "000" EmptyString)).
  { pose proof (strlen_app src (String "000" EmptyString)) as Ha. unfold strlen in *. cbn [String.length] in Ha. lia. }
  rewrite Hs, stake_all by done. rewrite sapp_assoc. by apply until_nul_app.
Qed.

Lemma print_text_spec size text :
  0 < size -> print_text size text = if strlen text <? size then (true, text) else (false, stake (Z.to_nat (size - 1)) text).
Proof.
  intros Hs. unfold print_text, Utils_ConcatenateToString. cbn [bufferSize]. pose proof (strlen_nonneg text).
  destruct (Z.ltb_spec (strlen text) 0); [lia|]. cbn [orb].
  destruct (Z.leb_spec size (strlen text)), (Z.ltb_spec (strlen text) size); try lia; cbn; [done|].
  f_equal. apply stake_all. unfold strlen in *. lia.
Qed.

Lemma print_text_fits size text : 0 < size -> strlen (snd (print_text size text)) < size.
Proof.
  intros Hs. rewrite print_text_spec by done. destruct (Z.ltb_spec (strlen text) size); [done|]. cbn.
  pose proof (stake_length (Z.to_nat (size - 1)) text). unfold strlen. lia.
Qed.

(** ** Operations *)

(** The HTTP client's state, with the world and the ledger in it, and the
    static [authenticationManager]. *)
Record AuthState (S : Type) : Type := mkAuth { au_inner : S; authenticationManager : AuthenticationManager }.
Arguments mkAuth {S} _ _.
Arguments au_inner {S} _.
Arguments authenticationManager {S} _.

Section Authentication.
Context {S : Type} {W : HasWorld S} {L : HasLedger S} {Client : Http S}.
Context {P : Parson} {Fs : FileSystem} {Ssl : OpenSSL}.

Definition inner {A} (m : M S A) : M (AuthState S) A :=
  fun s => match m (au_inner s) with
           | Some (a, i) => Some (a, mkAuth i (authenticationManager s))
           | None => None
           end.
Definition manager : M (AuthState S) AuthenticationManager := gets authenticationManager.
Definition update (f : AuthenticationManager -> AuthenticationManager) : M (AuthState S) unit :=
  modify (fun s => mkAuth (au_inner s) (f (authenticationManager s))).

Definition AuthenticationManager_EnsureHttpSuccessStatusCode (statusCode : Z) : bool := statusCode =? 200.

(** The pointers are overwritten, not freed. *)
Definition AuthenticationManager_Init : M (AuthState S) bool :=
  update (fun _ => mkManager EmptyString EmptyString EmptyString None None None None None None EmptyString EmptyString EmptyString) ;;;
  ret true.

Definition AuthenticationManager_DeinitDpsDetails : M (AuthState S) unit :=
  m <- manager ;;
  inner (release_if (dpsRelativeUrl m)) ;;;
  inner (release_if (sasTokenScope m)) ;;;
  inner (release_if (dpsRequestContent m)) ;;;
  update (set_dps None None None).

Definition AuthenticationManager_Deinit : M (AuthState S) unit :=
  m <- manager ;;
  inner (release_if (certificate m)) ;;;
  inner (release_if (certificatePrivateKey m)) ;;;
  update (set_certificates None None) ;;;
  inner (release_if (sharedAccessKey m)) ;;;
  update (set_sharedAccessKey None) ;;;
  AuthenticationManager_DeinitDpsDetails.

(** A buffer that is filled or refused. *)
Definition copy_field (src dest : string) (set : string -> AuthenticationManager -> AuthenticationManager) : M (AuthState S) bool :=
  match copy_text src dest with
  | None => ret false
  | Some text => update (set text) ;;; ret true
  end.

Definition print_relativeUrl (device : string) : M (AuthState S) bool :=
  let (ok, text) := print_text MAX_BUFF (SECURITY_MODULE_API device) in
  update (set_relativeUrl text) ;;;
  ret ok.

Definition AuthenticationManager_InitSharedProperties (host device : string) : M (AuthState S) bool :=
  m <- manager ;;
  ok <- copy_field host (hostName m) set_hostName ;;
  require ok else false ;;
  ok <- copy_field device (deviceId m) set_deviceId ;;
  require ok else false ;;
  ok <- print_relativeUrl device ;;
  require ok else false ;;
  ret true.

(** The cleanup of [AuthenticationManager_InitFromSharedAccessKey]. *)
Definition drop_key : M (AuthState S) bool :=
  m <- manager ;;
  inner (release_if (sharedAccessKey m)) ;;;
  update (set_sharedAccessKey None) ;;;
  ret false.

Definition AuthenticationManager_InitFromSharedAccessKey (filePath host device : string) : M (AuthState S) bool :=
  ok <- inner (acquire_if malloc) ;;
  update (set_sharedAccessKey (if ok then Some EmptyString else None)) ;;;
  require ok else false ;;
  let (fileResult, data) := FileUtils_ReadFile filePath KEY_SIZE true in
  if decide (fileResult <> FILE_UTILS_OK) then drop_key
  else
    key <- deref (key_line KEY_SIZE data) ;;
    update (set_sharedAccessKey (Some key)) ;;;
    ok <- AuthenticationManager_InitSharedProperties host device ;;
    if ok then ret true else drop_key.

Definition AuthenticationManager_InitFromCertificate (filePath host device : string) : M (AuthState S) bool :=
  m <- manager ;;
  let* (ok, c, k) := inner (CertificateManager_LoadFromFile filePath (certificate m) (certificatePrivateKey m)) in
  update (set_certificates c k) ;;;
  ok <- (if ok : bool then AuthenticationManager_InitSharedProperties host device else ret false) ;;
  if ok then ret true else AuthenticationManager_Deinit ;;; ret false.

(** [*connectionString], when the result is [true]. *)
Definition AuthenticationManager_GenerateConnectionStringFromSharedAccessKey (key host device : string)
    (connectionStringSize : Z) : option string :=
  let (ok, text) := print_text connectionStringSize (GENERATED_CONNECTION_STRING host device key) in
  if ok : bool then Some text else None.

(** A reader and its document, while it is open. *)
Definition open_reader (text : string) : M (AuthState S) (JsonReaderResult * option JsonObjectReader) :=
  let* (r, reader) := inner (up (JsonObjectReader_InitFromString text)) in
  match reader with
  | Some _ => inner acquire ;;; ret (r, reader)
  | None => ret (r, reader)
  end.

Definition AuthenticationManager_ExtractConnectionString (responseJson : string) (connectionStringSize : Z)
    : M (AuthState S) (option string) :=
  let* (r, jsonReader) := open_reader responseJson in
  match r, jsonReader with
  | JSON_READER_OK, Some reader =>
      m <- manager ;;
      let result :=
        match JsonObjectReader_ReadString reader PRIMARY_KEY with
        | (JSON_READER_OK, Some key) =>
            AuthenticationManager_GenerateConnectionStringFromSharedAccessKey key (hostName m) (deviceId m) connectionStringSize
        | _ => None
        end in
      inner release ;;;
      ret result
  | _, _ => inner (release_if jsonReader) ;;; ret None
  end.

(** *** Requests

    The result, the status and the response.  [content] comes with its length. *)

Definition failed_request : bool * Z * string := (false, 0, EmptyString).

(** Releases of the cleanup, for handles that may be null. *)
Definition free_handle {H} (free : H -> M S unit) (h : option H) : M S unit :=
  match h with Some h => free h | None => ret tt end.

(** The [Content-Type] header, for a request with content. *)
Definition content_header (headers : HTTP_HEADERS_HANDLE) (content : option string) (contentLength : Z)
    : M S (option HTTP_HEADERS_HANDLE) :=
  match content with
  | Some _ => if 0 <? contentLength then HTTPHeaders_AddHeaderNameValuePair headers CONTENT_TYPE_HEADER CONTENT_TYPE_JSON
              else ret (Some headers)
  | None => ret (Some headers)
  end.

(** The request on an open connection. *)
Definition execute_with_certificate (m : AuthenticationManager) (httpHandle : HTTP_HANDLE) (headers : HTTP_HEADERS_HANDLE)
    (requestType : HTTPAPI_REQUEST_TYPE) (url : string) (content : option string) (contentLength : Z)
    (responseContent : BUFFER_HANDLE) : M S (HTTP_HANDLE * (bool * Z * string)) :=
  set <- HTTPAPI_SetOption httpHandle SU_OPTION_X509_CERT (certificate m) ;;
  match set with
  | None => ret (httpHandle, failed_request)
  | Some httpHandle =>
      set <- HTTPAPI_SetOption httpHandle SU_OPTION_X509_PRIVATE_KEY (certificatePrivateKey m) ;;
      match set with
      | None => ret (httpHandle, failed_request)
      | Some httpHandle =>
          response <- HTTPAPI_ExecuteRequest httpHandle requestType url headers content contentLength responseContent ;;
          ret (httpHandle, response)
      end
  end.

Definition AuthenticationManager_HttpRequestUsingCertificate (m : AuthenticationManager) (requestType : HTTPAPI_REQUEST_TYPE)
    (host url : string) (content : option string) (contentLength : Z) (responseContent : BUFFER_HANDLE)
    : M S (bool * Z * string) :=
  requestHttpHeaders <- HTTPHeaders_Alloc ;;
  match requestHttpHeaders with
  | None => ret failed_request
  | Some headers =>
      added <- content_header headers content contentLength ;;
      match added with
      | None => HTTPHeaders_Free headers ;;; ret failed_request
      | Some headers =>
          httpApiInitialized <- HTTPAPI_Init ;;
          if negb httpApiInitialized then HTTPHeaders_Free headers ;;; ret failed_request
          else
            httpHandle <- HTTPAPI_CreateConnection host ;;
            match httpHandle with
            | None =>
                HTTPHeaders_Free headers ;;;
                HTTPAPI_Deinit ;;;
                ret failed_request
            | Some httpHandle =>
                let* (httpHandle, response) :=
                  execute_with_certificate m httpHandle headers requestType url content contentLength responseContent in
                HTTPHeaders_Free headers ;;;
                HTTPAPI_CloseConnection httpHandle ;;;
                HTTPAPI_Deinit ;;;
                ret response
            end
      end
  end.

(** The cleanup of a request with a SAS token. *)
Definition free_sas (sasHandle : option HTTPAPIEX_SAS_HANDLE) (headers : option HTTP_HEADERS_HANDLE)
    (httpExApiHandle : option HTTPAPIEX_HANDLE) (requestContent : option BUFFER_HANDLE) (response : bool * Z * string)
    : M S (bool * Z * string) :=
  free_handle HTTPAPIEX_SAS_Destroy sasHandle ;;;
  free_handle HTTPHeaders_Free headers ;;;
  free_handle HTTPAPIEX_Destroy httpExApiHandle ;;;
  free_handle BUFFER_delete requestContent ;;;
  ret response.

(** The request with its headers and its content ready. *)
Definition execute_with_sas (m : AuthenticationManager) (headers : HTTP_HEADERS_HANDLE) (requestContent : option BUFFER_HANDLE)
    (requestType : HTTPAPI_REQUEST_TYPE) (host url sasScope : string) (sasKeyName : option string)
    (responseContent : BUFFER_HANDLE) : M S (bool * Z * string) :=
  httpExApiHandle <- HTTPAPIEX_Create host ;;
  match httpExApiHandle with
  | None => free_sas None (Some headers) None requestContent failed_request
  | Some api =>
      sasHandle <- HTTPAPIEX_SAS_Create_From_String (sharedAccessKey m) sasScope sasKeyName ;;
      match sasHandle with
      | None => free_sas None (Some headers) (Some api) requestContent failed_request
      | Some sas =>
          response <- HTTPAPIEX_SAS_ExecuteRequest sas api requestType url headers requestContent responseContent ;;
          free_sas (Some sas) (Some headers) (Some api) requestContent response
      end
  end.

Definition AuthenticationManager_HttpRequestUsingSasToken (m : AuthenticationManager) (requestType : HTTPAPI_REQUEST_TYPE)
    (host url sasScope : string) (sasKeyName content : option string) (contentLength : Z) (responseContent : BUFFER_HANDLE)
    : M S (bool * Z * string) :=
  requestHttpHeaders <- HTTPHeaders_Alloc ;;
  match requestHttpHeaders with
  | None => ret failed_request
  | Some headers =>
      added <- HTTPHeaders_AddHeaderNameValuePair headers "Authorization" EmptyString ;;
      match added with
      | None => free_sas None (Some headers) None None failed_request
      | Some headers =>
          added <- content_header headers content contentLength ;;
          match added with
          | None => free_sas None (Some headers) None None failed_request
          | Some headers =>
              match content with
              | Some text =>
                  if 0 <? contentLength then
                    requestContent <- BUFFER_create text contentLength ;;
                    match requestContent with
                    | None => free_sas None (Some headers) None None failed_request
                    | Some _ => execute_with_sas m headers requestContent requestType host url sasScope sasKeyName responseContent
                    end
                  else execute_with_sas m headers None requestType host url sasScope sasKeyName responseContent
              | None => execute_with_sas m headers None requestType host url sasScope sasKeyName responseContent
              end
          end
      end
  end.

(** [(char* )BUFFER_u_char(responseContent)], read as a C string: the JSON reader
    reads it after the status 200, and the log after any other.  It ends at the
    first NUL of the memory; reading it is undefined when there is none, and when
    the pointer is null. *)
Definition response_text (response : string) : option string :=
  memory ← BUFFER_u_char response; if has_nul memory then Some (until_nul memory) else None.

(** *** The hub *)

Definition AuthenticationManager_GetConnectionStringFromHub (connectionStringSize : Z) (method : AuthenticationMethod)
    : M (AuthState S) (option string) :=
  m <- manager ;;
  responseContent <- inner BUFFER_new ;;
  match responseContent with
  | None => ret None
  | Some responseContent =>
      let* (ok, statusCode, response) := inner (
        match method with
        | SYMMETRIC_KEY =>
            AuthenticationManager_HttpRequestUsingSasToken m HTTPAPI_REQUEST_GET (hostName m) (relativeUrl m) (hostName m)
              None None 0 responseContent
        | CERTIFICATE =>
            AuthenticationManager_HttpRequestUsingCertificate m HTTPAPI_REQUEST_GET (hostName m) (relativeUrl m) None 0
              responseContent
        end) in
      connectionString <- (if negb ok then ret None
                           else
                             resp_content <- deref (response_text response) ;;
                             if AuthenticationManager_EnsureHttpSuccessStatusCode statusCode
                             then AuthenticationManager_ExtractConnectionString resp_content connectionStringSize
                             else ret None) ;;
      inner (BUFFER_delete responseContent) ;;;
      ret connectionString
  end.

Definition AuthenticationManager_GetConnectionString (connectionStringSize : Z) : M (AuthState S) (option string) :=
  m <- manager ;;
  match sharedAccessKey m, certificate m with
  | Some _, _ => AuthenticationManager_GetConnectionStringFromHub connectionStringSize SYMMETRIC_KEY
  | None, Some _ => AuthenticationManager_GetConnectionStringFromHub connectionStringSize CERTIFICATE
  | None, None => ret None
  end.

(** *** The provisioning service *)

(** The end of [AuthenticationManager_UpdateFromDpsResponse]: the reader is
    released, except when the address does not fit. *)
Definition update_from_reader (reader : JsonObjectReader) : M (AuthState S) bool :=
  let done (result : bool) := inner release ;;; ret result in
  match JsonObjectReader_ReadString reader RESPONSE_STATUS with
  | (JSON_READER_OK, Some status) =>
      if negb (Utils_UnsafeAreStringsEqual status RESPONSE_STATUS_ASSIGNED true) then done false
      else
        match JsonObjectReader_ReadString reader RESPONSE_ASSIGNED_HUB with
        | (JSON_READER_OK, Some assignedHub) =>
            m <- manager ;;
            ok <- copy_field assignedHub (hostName m) set_hostName ;;
            if negb ok then done false
            else
              match JsonObjectReader_ReadString reader RESPONSE_DEVICE_ID with
              | (JSON_READER_OK, Some device) =>
                  ok <- copy_field device (deviceId m) set_deviceId ;;
                  if negb ok then done false
                  else
                    match JsonObjectReader_ReadString reader RESPONSE_LAST_UPDATED with
                    | (JSON_READER_OK, Some lastUpdated) =>
                        if Utils_UnsafeAreStringsEqual lastUpdated (lastDPSUpdateTime m) true then done false
                        else
                          ok <- copy_field lastUpdated (lastDPSUpdateTime m) set_lastDPSUpdateTime ;;
                          if negb ok then done false
                          else
                            ok <- print_relativeUrl device ;;
                            if negb ok then ret false else done true
                    | _ => done false
                    end
              | _ => done false
              end
        | _ => done false
        end
  | _ => done false
  end.

Definition AuthenticationManager_UpdateFromDpsResponse (responseJson : string) : M (AuthState S) bool :=
  let* (r, jsonReader) := open_reader responseJson in
  match r, jsonReader with
  | JSON_READER_OK, Some reader => update_from_reader reader
  | _, _ => inner (release_if jsonReader) ;;; ret false
  end.

Definition AuthenticationManager_GetHostNameFromDPSService (method : AuthenticationMethod) : M (AuthState S) bool :=
  m <- manager ;;
  responseContent <- inner BUFFER_new ;;
  match responseContent with
  | None => ret false
  | Some responseContent =>
      ok <- inner (acquire_if malloc) ;;
      if negb ok then inner (BUFFER_delete responseContent) ;;; ret false
      else
        let tokenScopeSize := strlen_SAS_TOKEN_SCOPE + strlen (registrationId m) + strlen (idScope m) + 1 in
        let scope := stake (Z.to_nat (tokenScopeSize - 1)) (SAS_TOKEN_SCOPE (idScope m) (registrationId m)) in
        content <- deref (dpsRequestContent m) ;;
        url <- deref (dpsRelativeUrl m) ;;
        let* (ok, statusCode, response) := inner (
          match method with
          | SYMMETRIC_KEY =>
              AuthenticationManager_HttpRequestUsingSasToken m HTTPAPI_REQUEST_POST GLOBAL_DPS_HOSTNAME url scope
                (Some EmptyString) (Some content) (strlen content + 1) responseContent
          | CERTIFICATE =>
              AuthenticationManager_HttpRequestUsingCertificate m HTTPAPI_REQUEST_POST GLOBAL_DPS_HOSTNAME url
                (Some content) (strlen content + 1) responseContent
          end) in
        result <- (if negb ok then ret false
                   else
                     resp_content <- deref (response_text response) ;;
                     if AuthenticationManager_EnsureHttpSuccessStatusCode statusCode
                     then AuthenticationManager_UpdateFromDpsResponse resp_content
                     else ret false) ;;
        inner release ;;;
        inner (BUFFER_delete responseContent) ;;;
        ret result
  end.

Definition AuthenticationManager_GetHostNameFromDPS : M (AuthState S) bool :=
  m <- manager ;;
  match sharedAccessKey m, certificate m with
  | Some _, _ => AuthenticationManager_GetHostNameFromDPSService SYMMETRIC_KEY
  | None, Some _ => AuthenticationManager_GetHostNameFromDPSService CERTIFICATE
  | None, None => ret false
  end.

Definition dps_buffer (ok : bool) : option string := if ok then Some EmptyString else None.

(** The cleanup of [AuthenticationManager_SetDPSDetails]. *)
Definition dps_failed : M (AuthState S) bool := AuthenticationManager_DeinitDpsDetails ;;; ret false.

Definition AuthenticationManager_SetDPSDetails (scope registration : string) : M (AuthState S) bool :=
  m <- manager ;;
  ok <- copy_field scope (idScope m) set_idScope ;;
  if negb ok then dps_failed
  else
    ok <- copy_field registration (registrationId m) set_registrationId ;;
    if negb ok then dps_failed
    else
      let sharedSize := strlen registration + strlen scope + 1 in
      a <- inner (acquire_if malloc) ;;
      b <- inner (acquire_if malloc) ;;
      c <- inner (acquire_if malloc) ;;
      update (set_dps (dps_buffer a) (dps_buffer b) (dps_buffer c)) ;;;
      if negb (a && b && c) then dps_failed
      else
        m <- manager ;;
        let (ok, text) := print_text (u32 (strlen_REGISTRATION_API + sharedSize)) (REGISTRATION_API (idScope m) (registrationId m)) in
        update (fun m => set_dps (Some text) (sasTokenScope m) (dpsRequestContent m) m) ;;;
        if negb ok then dps_failed
        else
          ok <- (match sharedAccessKey m with
                 | Some _ =>
                     let (ok, text) :=
                       print_text (u32 (strlen_SAS_TOKEN_SCOPE + sharedSize)) (REGISTRATION_API (idScope m) (registrationId m)) in
                     update (fun m => set_dps (dpsRelativeUrl m) (Some text) (dpsRequestContent m) m) ;;;
                     ret ok
                 | None => ret true
                 end) ;;
          if negb ok then dps_failed
          else
            let (ok, text) := print_text (u32 (strlen_REGISTRATION_BODY + sharedSize)) (REGISTRATION_BODY (registrationId m)) in
            update (fun m => set_dps (dpsRelativeUrl m) (sasTokenScope m) (Some text) m) ;;;
            if negb ok then dps_failed else ret true.

(** ** Lemmas on the requests *)

Context {Laws : @HttpLaws S W L Client}.

#[local] Hint Resolve new_law create_law delete_law alloc_law add_law free_law api_init_law api_deinit_law connect_law option_law
  close_law execute_law create_api_law destroy_api_law create_sas_law destroy_sas_law execute_sas_law : ledger.

Lemma effect_handle {H} (free : H -> M S unit) h :
  (forall h, effect (fun _ => -1) (fun _ _ => True) (free h)) -> effect (fun _ => - owns h) (fun _ _ => True) (free_handle free h).
Proof. intros Hf. destruct h; [apply Hf | by apply effect_ret]. Qed.

Lemma effect_free_sas sas hs api content r :
  effect (fun _ => - owns sas - owns hs - owns api - owns content) (fun _ r' => r' = r) (free_sas sas hs api content r).
Proof.
  unfold free_sas.
  do 4 (eapply effect_bind; [apply effect_handle; eauto with ledger|]; intros ?). apply effect_ret; [cbn; lia | done].
Qed.

(** The headers of a request with or without content. *)
Definition content_lines (content : option string) (n : Z) : list (string * string) :=
  match content with
  | Some _ => if 0 <? n then [(CONTENT_TYPE_HEADER, CONTENT_TYPE_JSON)] else []
  | None => []
  end.

Lemma effect_content hs content n :
  effect (fun _ => 0) (yields header_lines (header_lines hs ++ content_lines content n)) (content_header hs content n).
Proof.
  unfold content_header, content_lines. destruct content; [destruct (0 <? n)|]; [apply add_law | apply effect_ret..];
    intros; cbn; by rewrite ?app_nil_r.
Qed.
#[local] Hint Resolve effect_free_sas effect_content : ledger.

(** The end of a request: a failed call, or the answer to what was given. *)
Ltac request_facts :=
  cbn; intros; subst;
  try match goal with |- answered_by _ _ failed_request => intros [|[=]] end;
  repeat match goal with H : never_fails ?e -> _, Hr : never_fails ?e |- _ => specialize (H Hr) end;
  repeat match goal with
  | H : ?f ?h = _ |- context [?f ?h] =>
      match f with connection => idtac | header_lines => idtac | api_host => idtac | sas_token => idtac | buffer_content => idtac end;
      rewrite H; cbn
  | H : ?f ?h = _, H' : context [?f ?h] |- _ =>
      match f with connection => idtac | header_lines => idtac | api_host => idtac | sas_token => idtac | buffer_content => idtac end;
      rewrite H in H'; cbn in H'
  end; try done.
Ltac request_end := apply effect_ret; [cbn; lia | request_facts].
Ltac request_by law := eapply effect_weaken; [apply law | cbn; lia | request_facts].

Lemma effect_execute_certificate m h hs t url content n buffer :
  effect (fun _ => 0)
    (fun e r => answered_by (answer_certificate (fst (connection h),
       (snd (connection h) ++ [(SU_OPTION_X509_CERT, certificate m)]) ++ [(SU_OPTION_X509_PRIVATE_KEY, certificatePrivateKey m)])
       t url (header_lines hs) content n) e r.2)
    (execute_with_certificate m h hs t url content n buffer).
Proof.
  unfold execute_with_certificate. effect_step. intros [h1|]; [|request_end].
  effect_step. intros [h2|]; [|request_end]. effect_step. intros r. request_end.
Qed.
#[local] Hint Resolve effect_execute_certificate : ledger.

Lemma effect_certificate m t host url content n buffer :
  effect (fun _ => 0)
    (answered_by (answer_certificate (host,
       [(SU_OPTION_X509_CERT, certificate m); (SU_OPTION_X509_PRIVATE_KEY, certificatePrivateKey m)])
       t url (content_lines content n) content n))
    (AuthenticationManager_HttpRequestUsingCertificate m t host url content n buffer).
Proof.
  unfold AuthenticationManager_HttpRequestUsingCertificate. effect_step. intros [hs|]; [|request_end].
  effect_step. intros [hs1|]; [|effect_step; intros ?; request_end].
  effect_step. intros []; cbn [negb]; [|effect_step; intros ?; request_end].
  effect_step. intros [h|]; [|do 2 (effect_step; intros ?); request_end].
  effect_step. intros [h' r]. do 3 (effect_step; intros ?). request_end.
Qed.

Lemma effect_execute_sas m hs content t host url scope name buffer :
  effect (fun _ => -1 - owns content)
    (answered_by (answer_sas (sharedAccessKey m, scope, name) host t url (header_lines hs) (buffer_content <$> content)))
    (execute_with_sas m hs content t host url scope name buffer).
Proof.
  unfold execute_with_sas. effect_step. intros [api|].
  - effect_step. intros [sas|].
    + effect_step. intros r. request_by effect_free_sas.
    + request_by effect_free_sas.
  - request_by effect_free_sas.
Qed.
#[local] Hint Resolve effect_execute_sas : ledger.

Definition sas_content (content : option string) (n : Z) : option (string * Z) :=
  match content with
  | Some text => if 0 <? n then Some (text, n) else None
  | None => None
  end.

Lemma effect_sas m t host url scope name content n buffer :
  effect (fun _ => 0)
    (answered_by (answer_sas (sharedAccessKey m, scope, name) host t url
       (("Authorization"%string, EmptyString) :: content_lines content n) (sas_content content n)))
    (AuthenticationManager_HttpRequestUsingSasToken m t host url scope name content n buffer).
Proof.
  unfold AuthenticationManager_HttpRequestUsingSasToken.
  effect_step. intros [hs|]; [|request_end].
  effect_step. intros [hs1|]; [|request_by effect_free_sas].
  effect_step. intros [hs2|]; [|request_by effect_free_sas].
  unfold sas_content. destruct content as [text|].
  - destruct (0 <? n) eqn:Hn.
    + effect_step. intros [b|]; [|request_by effect_free_sas].
      request_by effect_execute_sas.
    + request_by effect_execute_sas.
  - request_by effect_execute_sas.
Qed.

(** ** The manager *)

(** The pointers that the manager owns. *)
Definition owned (m : AuthenticationManager) : Z :=
  owns (sharedAccessKey m) + owns (certificate m) + owns (certificatePrivateKey m) +
  owns (dpsRelativeUrl m) + owns (sasTokenScope m) + owns (dpsRequestContent m).

(** Every buffer holds a C string with its terminator. *)
Definition fits (m : AuthenticationManager) : Prop :=
  Forall (fun text => strlen text < MAX_BUFF)
    [relativeUrl m; hostName m; deviceId m; idScope m; registrationId m; lastDPSUpdateTime m].

(** A computation from the manager [m0]: it returns; what is owned beside the
    manager changes by [d]; the buffers keep fitting; the result and the new
    manager satisfy [Q]. *)
Definition runs {A} (m0 : AuthenticationManager) (d : A -> Z) (Q : Env -> A -> AuthenticationManager -> Prop)
    (prog : M (AuthState S) A) : Prop :=
  forall i, exists a i' m', prog (mkAuth i m0) = Some (a, mkAuth i' m') /\
    live_of i' - owned m' = live_of i - owned m0 + d a /\ env (world_of i') = env (world_of i) /\
    (fits m0 -> fits m') /\ Q (env (world_of i)) a m'.

Lemma runs_ret {A} m0 (a : A) d (Q : Env -> A -> AuthenticationManager -> Prop) :
  d a = 0 -> (forall e, Q e a m0) -> runs m0 d Q (ret a).
Proof. intros Hd HQ i. exists a, i, m0. repeat split; try done. lia. Qed.

Lemma runs_bind {A B} m0 (p : M (AuthState S) A) (k : A -> M (AuthState S) B) d (Q : Env -> B -> AuthenticationManager -> Prop) d1 Q1 :
  runs m0 d1 Q1 p ->
  (forall a m1, (exists e, Q1 e a m1) -> runs m1 (fun b => d b - d1 a) (fun e b m2 => Q1 e a m1 -> Q e b m2) (k a)) ->
  runs m0 d Q (bind p k).
Proof.
  intros Hp Hk i. destruct (Hp i) as (a & i1 & m1 & H1 & L1 & E1 & F1 & Q1a).
  destruct (Hk a m1 (ex_intro _ _ Q1a) i1) as (b & i2 & m2 & H2 & L2 & E2 & F2 & Q2).
  exists b, i2, m2. rewrite (bind_eq _ _ _ _ _ H1). split; [done|]. split; [lia|]. split; [congruence|].
  split; [by auto|]. rewrite <- E1. apply Q2. by rewrite E1.
Qed.

Lemma runs_ret_bind {A B} m0 (a : A) (k : A -> M (AuthState S) B) d Q : runs m0 d Q (k a) -> runs m0 d Q (bind (ret a) k).
Proof. intros Hk i. exact (Hk i). Qed.

Lemma runs_assoc {A B C} m0 (p : M (AuthState S) A) (f : A -> M (AuthState S) B) (k : B -> M (AuthState S) C) d Q :
  runs m0 d Q (bind p (fun a => bind (f a) k)) -> runs m0 d Q (bind (bind p f) k).
Proof. intros H i. rewrite bind_assoc. apply H. Qed.

Lemma runs_weaken {A} m0 (p : M (AuthState S) A) d e (Q R : Env -> A -> AuthenticationManager -> Prop) :
  runs m0 d Q p -> (forall v a m, Q v a m -> d a = e a) -> (forall v a m, Q v a m -> R v a m) -> runs m0 e R p.
Proof.
  intros H Hd HQ i. destruct (H i) as (a & i' & m' & H1 & H2 & H3 & H4 & H5). exists a, i', m'.
  split; [done|]. split; [by rewrite <- (Hd _ _ _ H5)|]. split; [done|]. auto.
Qed.

Lemma runs_inner {A B} m0 (p : M S A) (k : A -> M (AuthState S) B) d (Q : Env -> B -> AuthenticationManager -> Prop) d1 Q1 :
  effect d1 Q1 p ->
  (forall a, (exists e, Q1 e a) -> runs m0 (fun b => d b - d1 a) (fun e b m2 => Q1 e a -> Q e b m2) (k a)) ->
  runs m0 d Q (bind (inner p) k).
Proof.
  intros Hp Hk. apply (runs_bind m0 _ _ _ _ d1 (fun e a m => m = m0 /\ Q1 e a)).
  - intros i. destruct (Hp i) as (a & i' & H1 & H2 & H3 & H4). exists a, i', m0. unfold inner. cbn. rewrite H1.
    repeat split; try done. lia.
  - intros a m1 (e & -> & HQ). eapply runs_weaken; [apply Hk; by exists e | done |]. cbn. intros v b m H [_ H']. by apply H.
Qed.

Lemma runs_manager {B} m0 (k : AuthenticationManager -> M (AuthState S) B) d Q : runs m0 d Q (k m0) -> runs m0 d Q (bind manager k).
Proof. intros Hk i. exact (Hk i). Qed.

Lemma runs_update {B} m0 f (k : unit -> M (AuthState S) B) d Q :
  (fits m0 -> fits (f m0)) -> runs (f m0) (fun b => d b - (owned m0 - owned (f m0))) Q (k tt) -> runs m0 d Q (bind (update f) k).
Proof.
  intros Hf Hk i. destruct (Hk i) as (b & i' & m' & H1 & H2 & H3 & H4 & H5). exists b, i', m'.
  split; [exact H1|]. split; [lia|]. split; [done|]. split; [by auto | done].
Qed.

Lemma runs_update_last m0 f d (Q : Env -> unit -> AuthenticationManager -> Prop) :
  (fits m0 -> fits (f m0)) -> d tt = owned m0 - owned (f m0) -> (forall e, Q e tt (f m0)) -> runs m0 d Q (update f).
Proof.
  intros Hf Hd HQ i. exists tt, i, (f m0). split; [done|]. split; [lia|]. split; [done|]. split; [done | apply HQ].
Qed.

Context {Strings : CStrings P}.

Lemma read_c_string reader key s : JsonObjectReader_ReadString reader key = (JSON_READER_OK, Some s) -> c_string s.
Proof.
  unfold JsonObjectReader_ReadString. destruct (JsonObjectReader_GetValueOfType reader key JSONString) as [[] [v|]]; try done.
  destruct (json_value_get_string (rd_document reader) v) eqn:E; [|done]. intros [= <-]. by apply json_c_string in E.
Qed.

(** ** What the operations do *)

Lemma runs_copy {B} m0 src dest set (k : bool -> M (AuthState S) B) d Q :
  c_string src -> (strlen src < MAX_BUFF -> fits m0 -> fits (set src m0)) ->
  (strlen src < MAX_BUFF -> runs (set src m0) (fun b => d b - (owned m0 - owned (set src m0))) Q (k true)) ->
  (MAX_BUFF <= strlen src -> runs m0 d Q (k false)) -> runs m0 d Q (bind (copy_field src dest set) k).
Proof.
  intros Hc Hf H1 H2. unfold copy_field. rewrite (copy_text_spec _ _ Hc).
  destruct (Z.ltb_spec (strlen src) MAX_BUFF) as [Hl|Hl].
  - apply runs_assoc, runs_update; auto.
  - by apply H2.
Qed.

(** The buffers that [InitSharedProperties] writes. *)
Definition set_shared (url host device : string) (m : AuthenticationManager) : AuthenticationManager :=
  set_relativeUrl url (set_deviceId device (set_hostName host m)).

Definition shared_fit (host device : string) : bool :=
  (strlen host <? MAX_BUFF) && (strlen device <? MAX_BUFF) && (strlen (SECURITY_MODULE_API device) <? MAX_BUFF).

Lemma print_relativeUrl_run m0 device d (Q : Env -> bool -> AuthenticationManager -> Prop) :
  (forall b, d b = 0) ->
  (forall e, let (ok, text) := print_text MAX_BUFF (SECURITY_MODULE_API device) in Q e ok (set_relativeUrl text m0)) ->
  runs m0 d Q (print_relativeUrl device).
Proof.
  intros Hd HQ. unfold print_relativeUrl.
  pose proof (print_text_fits MAX_BUFF (SECURITY_MODULE_API device) ltac:(done)) as Hf.
  destruct (print_text MAX_BUFF (SECURITY_MODULE_API device)) as [ok text]. cbn in Hf.
  apply runs_update.
  - unfold fits. rewrite !Forall_cons. tauto.
  - apply runs_ret; [rewrite Hd; unfold owned; cbn; lia | exact HQ].
Qed.

Lemma InitSharedProperties_run m0 host device :
  c_string host -> c_string device ->
  runs m0 (fun _ => 0)
    (fun _ ok m' => ok = shared_fit host device /\ (exists u h v, m' = set_shared u h v m0) /\
       (ok = true -> m' = set_shared (SECURITY_MODULE_API device) host device m0))
    (AuthenticationManager_InitSharedProperties host device).
Proof.
  intros Hh Hd. unfold AuthenticationManager_InitSharedProperties, shared_fit. apply runs_manager.
  apply runs_copy; [done | unfold fits; rewrite !Forall_cons; tauto | intros Hl | intros Hl].
  2: { apply runs_ret; [done|]. intros _. rewrite (proj2 (Z.ltb_ge _ _) Hl). split; [done|]. split; [|done].
       exists (relativeUrl m0), (hostName m0), (deviceId m0). by destruct m0. }
  rewrite (proj2 (Z.ltb_lt _ _) Hl).
  apply runs_copy; [done | unfold fits; rewrite !Forall_cons; tauto | intros Hl2 | intros Hl2].
  2: { apply runs_ret; [unfold owned; cbn; lia|]. intros _. rewrite (proj2 (Z.ltb_ge _ _) Hl2). split; [done|]. split; [|done].
       exists (relativeUrl m0), host, (deviceId m0). by destruct m0. }
  rewrite (proj2 (Z.ltb_lt _ _) Hl2).
  eapply (runs_bind _ _ _ _ _ (fun _ => 0)
    (fun _ ok m' => ok = (strlen (SECURITY_MODULE_API device) <? MAX_BUFF) /\
       exists u, m' = set_shared u host device m0 /\ (ok = true -> u = SECURITY_MODULE_API device))).
  - apply print_relativeUrl_run; [done|]. intros _. rewrite print_text_spec by done.
    destruct (_ <? MAX_BUFF); split; try done; eexists; by split.
  - intros ok m1 (_ & -> & u & -> & Hu). destruct (_ <? MAX_BUFF); apply runs_ret; try (unfold owned; cbn; lia);
      intros _ _; (split; [done|]); (split; [by eexists _, _, _|]); [|done]. intros _. by rewrite Hu.
Qed.

(** The pointer fields are as in [m]. *)
Definition same_pointers (m m' : AuthenticationManager) : Prop :=
  sharedAccessKey m' = sharedAccessKey m /\ certificate m' = certificate m /\
  certificatePrivateKey m' = certificatePrivateKey m /\ dpsRelativeUrl m' = dpsRelativeUrl m /\
  sasTokenScope m' = sasTokenScope m /\ dpsRequestContent m' = dpsRequestContent m.

Lemma DeinitDpsDetails_run m0 :
  runs m0 (fun _ => 0) (fun _ _ m' => m' = set_dps None None None m0) AuthenticationManager_DeinitDpsDetails.
Proof.
  unfold AuthenticationManager_DeinitDpsDetails. apply runs_manager.
  do 3 (eapply runs_inner; [apply effect_release_if|]; intros ? _).
  apply runs_update_last; [done | unfold owned; cbn; lia | done].
Qed.

Lemma Manager_Deinit_run m0 :
  runs m0 (fun _ => 0) (fun _ _ m' => m' = set_dps None None None (set_sharedAccessKey None (set_certificates None None m0)))
    AuthenticationManager_Deinit.
Proof.
  unfold AuthenticationManager_Deinit. apply runs_manager.
  do 2 (eapply runs_inner; [apply effect_release_if|]; intros ? _). apply runs_update; [done|].
  eapply runs_inner; [apply effect_release_if|]; intros ? _. apply runs_update; [done|].
  eapply runs_weaken; [apply DeinitDpsDetails_run | unfold owned; cbn; lia | done].
Qed.

Lemma drop_key_run m0 d (Q : Env -> bool -> AuthenticationManager -> Prop) :
  (forall b, d b = 0) -> (forall e, Q e false (set_sharedAccessKey None m0)) -> runs m0 d Q drop_key.
Proof.
  intros Hd HQ. unfold drop_key. apply runs_manager. eapply runs_inner; [apply effect_release_if|]; intros ? _.
  apply runs_update; [done|]. apply runs_ret; [rewrite Hd; unfold owned; cbn; lia | done].
Qed.

(** The key that a file gives, when it can be read and ends in time. *)
Definition file_key (filePath : string) : option string :=
  match open_file filePath with
  | Opened (Some content) => key_line KEY_SIZE (stake (Z.to_nat KEY_SIZE) content)
  | _ => None
  end.

(** The file is not one that fills the buffer without a line break or a NUL. *)
Definition key_ends (filePath : string) : Prop :=
  forall content, open_file filePath = Opened (Some content) -> key_line KEY_SIZE (stake (Z.to_nat KEY_SIZE) content) <> None.

(** The manager with the key and the three buffers set. *)
Definition with_key (key host device : string) (m : AuthenticationManager) : AuthenticationManager :=
  set_shared (SECURITY_MODULE_API device) host device (set_sharedAccessKey (Some key) m).

Definition key_outcome (filePath host device : string) (m0 : AuthenticationManager) (e : Env) (ok : bool) (m' : AuthenticationManager) : Prop :=
  (never_fails e -> ok = bool_decide (file_key filePath <> None) && shared_fit host device) /\
  if ok then exists key, file_key filePath = Some key /\ m' = with_key key host device m0
  else exists u h v, m' = set_sharedAccessKey None (set_shared u h v m0).

Lemma InitFromSharedAccessKey_run m0 filePath host device :
  sharedAccessKey m0 = None -> key_ends filePath -> c_string host -> c_string device ->
  runs m0 (fun _ => 0) (key_outcome filePath host device m0) (AuthenticationManager_InitFromSharedAccessKey filePath host device).
Proof.
  intros Hnone Hends Hh Hd. unfold AuthenticationManager_InitFromSharedAccessKey, key_outcome.
  assert (Hsame : exists u h v, m0 = set_shared u h v m0) by (exists (relativeUrl m0), (hostName m0), (deviceId m0); by destruct m0).
  destruct Hsame as (u0 & h0 & v0 & Hsame).
  eapply runs_inner; [apply effect_acquire_if|]. intros ok _. apply runs_update; [done|]. destruct ok.
  2: { apply runs_ret; [unfold owned; cbn; rewrite Hnone; cbn; lia|]. intros e He. split; [intros Hr; by specialize (He Hr)|].
       exists u0, h0, v0. by rewrite <- Hsame. }
  pose proof (ReadFile_cases filePath KEY_SIZE ltac:(done)) as Hread. unfold file_key.
  destruct (FileUtils_ReadFile filePath KEY_SIZE true) as [r data]. destruct (decide (r <> FILE_UTILS_OK)) as [Hr|Hr].
  { assert (Hno : forall content, open_file filePath <> Opened (Some content)) by (by destruct r).
    apply drop_key_run; [intros; unfold owned; cbn; rewrite Hnone; cbn; lia|]. intros e _. split.
    - intros _. destruct (open_file filePath) as [| | |[content|]]; try done. by destruct (Hno content).
    - exists u0, h0, v0. rewrite Hsame at 1. done. }
  apply dec_stable in Hr as ->. destruct Hread as (content & Ho & ->). specialize (Hends content Ho). rewrite Ho.
  destruct (key_line KEY_SIZE _) as [key|]; [|done]. cbn [deref]. apply runs_ret_bind, runs_update; [done|].
  eapply runs_bind; [by apply InitSharedProperties_run|]. intros ok m1 (_ & -> & (u & h & v & ->) & Hm1). destruct (shared_fit host device).
  - rewrite Hm1 by done. apply runs_ret; [unfold owned; cbn; rewrite Hnone; cbn; lia|]. intros e _ _. split; [done|]. by exists key.
  - apply drop_key_run; [intros; unfold owned; cbn; rewrite Hnone; cbn; lia|]. intros e _ _. split; [by rewrite andb_false_r|].
    by exists u, h, v.
Qed.

(** The details of the provisioning service, as they are kept. *)
Definition with_dps (scope registration : string) (m : AuthenticationManager) : AuthenticationManager :=
  set_dps (Some (REGISTRATION_API scope registration)) (Some EmptyString) (Some (REGISTRATION_BODY registration))
    (set_registrationId registration (set_idScope scope m)).

Definition dps_fit (scope registration : string) : bool := (strlen scope <? MAX_BUFF) && (strlen registration <? MAX_BUFF).

Definition no_dps (m : AuthenticationManager) : Prop :=
  dpsRelativeUrl m = None /\ sasTokenScope m = None /\ dpsRequestContent m = None.

Definition dps_outcome (scope registration : string) (m0 : AuthenticationManager) (e : Env) (ok : bool) (m' : AuthenticationManager) : Prop :=
  (never_fails e -> ok = dps_fit scope registration && bool_decide (sharedAccessKey m0 = None)) /\
  if ok then m' = with_dps scope registration m0
  else exists a b, m' = set_dps None None None (set_registrationId b (set_idScope a m0)).

Lemma dps_failed_run m0 d (Q : Env -> bool -> AuthenticationManager -> Prop) :
  (forall b, d b = 0) -> (forall e, Q e false (set_dps None None None m0)) -> runs m0 d Q dps_failed.
Proof.
  intros Hd HQ. unfold dps_failed. eapply runs_bind; [apply DeinitDpsDetails_run|]. intros ? m1 (_ & ->).
  apply runs_ret; [by rewrite Hd | auto].
Qed.

(** The lengths of what the formats render. *)
Ltac strlens :=
  rewrite ?strlen_app;
  repeat match goal with
  | |- context [strlen (String ?c ?s)] => let v := eval vm_compute in (strlen (String c s)) in change (strlen (String c s)) with v
  end.

Lemma strlen_REGISTRATION a b : strlen (REGISTRATION_API a b) = strlen_REGISTRATION_API - 4 + strlen a + strlen b.
Proof. unfold strlen_REGISTRATION_API, REGISTRATION_API. strlens. lia. Qed.

Lemma strlen_BODY a : strlen (REGISTRATION_BODY a) = strlen_REGISTRATION_BODY - 2 + strlen a.
Proof. unfold strlen_REGISTRATION_BODY, REGISTRATION_BODY, quote. strlens. lia. Qed.

Lemma SetDPSDetails_run m0 scope registration :
  no_dps m0 -> c_string scope -> c_string registration ->
  runs m0 (fun _ => 0) (dps_outcome scope registration m0) (AuthenticationManager_SetDPSDetails scope registration).
Proof.
  intros (N1 & N2 & N3) Hs Hr. unfold AuthenticationManager_SetDPSDetails, dps_outcome, dps_fit.
  assert (Hfit : forall text set, strlen text < MAX_BUFF -> (set = set_idScope \/ set = set_registrationId) ->
    forall m, fits m -> fits (set text m)) by (intros text set Ht [-> | ->] m; unfold fits; rewrite !Forall_cons; cbn; tauto).
  apply runs_manager.
  apply runs_copy; [done | intros; apply Hfit; auto | intros Hl | intros Hl].
  2: { rewrite (proj2 (Z.ltb_ge _ _) Hl). apply dps_failed_run; [done|]. intros e. split; [done|].
       exists (idScope m0), (registrationId m0). by destruct m0. }
  rewrite (proj2 (Z.ltb_lt _ _) Hl). cbn [negb].
  apply runs_copy; [done | intros; apply Hfit; auto | intros Hl2 | intros Hl2].
  2: { rewrite (proj2 (Z.ltb_ge _ _) Hl2). apply dps_failed_run; [intros; unfold owned; cbn; lia|]. intros e. split; [done|].
       exists scope, (registrationId m0). by destruct m0. }
  rewrite (proj2 (Z.ltb_lt _ _) Hl2). cbn [negb andb].
  pose proof (strlen_nonneg scope) as Hp1. pose proof (strlen_nonneg registration) as Hp2. unfold MAX_BUFF in Hl, Hl2.
  do 3 (eapply runs_inner; [apply effect_acquire_if|]; intros ? _).
  apply runs_update; [done|].
  destruct (a && a0 && a1) eqn:Hok; cbn [negb].
  2: { apply dps_failed_run.
       - intros _. unfold owned. cbn. rewrite N1, N2, N3. by destruct a, a0, a1; cbn; lia.
       - intros e H1 H2 H3. split; [|by exists scope, registration]. intros Hf. rewrite H1, H2, H3 in Hok by done. done. }
  apply andb_true_iff in Hok as [[-> ->]%andb_true_iff ->]. cbn [dps_buffer]. apply runs_manager. cbn [idScope registrationId set_dps set_registrationId set_idScope].
  assert (L1 : strlen (REGISTRATION_API scope registration) < u32 (strlen_REGISTRATION_API + (strlen registration + strlen scope + 1))).
  { rewrite strlen_REGISTRATION, u32_small; change strlen_REGISTRATION_API with 43; ulia. }
  assert (L3 : strlen (REGISTRATION_BODY registration) < u32 (strlen_REGISTRATION_BODY + (strlen registration + strlen scope + 1))).
  { rewrite strlen_BODY, u32_small; change strlen_REGISTRATION_BODY with 25; ulia. }
  rewrite (print_text_spec _ (REGISTRATION_API scope registration)) by (pose proof (strlen_nonneg (REGISTRATION_API scope registration)); lia).
  rewrite (proj2 (Z.ltb_lt _ _) L1). apply runs_update; [done|]. cbn [negb].
  eapply (runs_bind _ _ _ _ _ (fun _ => 0) (fun _ ok m' => ok = bool_decide (sharedAccessKey m0 = None) /\
    exists text, m' = set_dps (Some (REGISTRATION_API scope registration)) (Some text) (Some EmptyString)
      (set_registrationId registration (set_idScope scope m0)) /\ (ok = true -> text = EmptyString))).
  { cbn [sharedAccessKey set_dps set_registrationId set_idScope].
    destruct (sharedAccessKey m0) as [key|]; [|apply runs_ret; [done|]; intros _; split; [done|]; by exists EmptyString].
    rewrite print_text_spec by (change strlen_SAS_TOKEN_SCOPE with 19; rewrite u32_small; ulia).
    rewrite (proj2 (Z.ltb_ge _ _)) by
      (rewrite strlen_REGISTRATION, u32_small; change strlen_SAS_TOKEN_SCOPE with 19; change strlen_REGISTRATION_API with 43; ulia).
    apply runs_update; [done|]. apply runs_ret; [unfold owned; cbn; lia|]. intros _. split; [done|]. by eexists. }
  intros ok m1 (_ & -> & text & -> & Ht). destruct (decide (sharedAccessKey m0 = None)) as [Hn|Hn].
  - rewrite bool_decide_eq_true_2 in * by done. cbn [negb]. rewrite (Ht eq_refl).
    rewrite print_text_spec by (pose proof (strlen_nonneg (REGISTRATION_BODY registration)); lia).
    rewrite (proj2 (Z.ltb_lt _ _) L3). apply runs_update; [done|]. cbn [negb].
    apply runs_ret; [unfold owned; cbn; rewrite N1, N2, N3; cbn; lia|]. done.
  - rewrite bool_decide_eq_false_2 in * by done. cbn [negb].
    apply dps_failed_run; [intros; unfold owned; cbn; rewrite N1, N2, N3; cbn; lia|]. intros e _ _ _ _. split; [done|].
    by exists scope, registration.
Qed.

(** The reader of a text, and the string under a key. *)
Definition text_reader (text : string) : option JsonObjectReader :=
  doc ← json_parse_string text; o ← json_value_get_object doc (json_root doc); Some (mkReader doc true o true).

Definition read_text (reader : JsonObjectReader) (key : string) : option string :=
  match JsonObjectReader_ReadString reader key with (JSON_READER_OK, Some s) => Some s | _ => None end.

Lemma open_reader_run {B} m0 text (k : JsonReaderResult * option JsonObjectReader -> M (AuthState S) B) d Q :
  (forall reader, text_reader text = Some reader -> runs m0 (fun b => d b - 1) Q (k (JSON_READER_OK, Some reader))) ->
  (forall r, r <> JSON_READER_OK ->
     runs m0 d (fun e b m => (never_fails e -> text_reader text = None) -> Q e b m) (k (r, None))) ->
  runs m0 d Q (bind (open_reader text) k).
Proof.
  intros H1 H2. unfold open_reader. apply runs_assoc.
  apply (runs_inner _ _ _ _ _ (fun _ => 0) (fun e r =>
    (exists reader, text_reader text = Some reader /\ r = (JSON_READER_OK, Some reader)) \/
    (exists x, x <> JSON_READER_OK /\ r = (x, None) /\ (never_fails e -> text_reader text = None)))).
  - intros i. unfold up, JsonObjectReader_InitFromString, JsonObjectReader_Init, malloc, fallible, bind, text_reader. cbn.
    destruct (env_ok (env (world_of i)) (tick (world_of i))) eqn:Ht.
    + destruct (json_parse_string text) as [doc|]; cbn; [destruct (json_value_get_object doc (json_root doc)) as [o|]; cbn|];
        eexists _, _; (split; [reflexivity|]); rewrite live_of_with_world, world_of_with; (split; [lia|]); (split; [done|]);
        [left; by eexists | right; by exists JSON_READER_EXCEPTION..].
    + eexists _, _. split; [reflexivity|]. rewrite live_of_with_world, world_of_with. split; [lia|]. split; [done|].
      right. exists JSON_READER_EXCEPTION. split; [done|]. split; [done|]. intros Hn. by rewrite Hn in Ht.
  - intros r [e Hr]. destruct r as [r reader].
    assert (Hcase : (exists x, text_reader text = Some x /\ (r, reader) = (JSON_READER_OK, Some x)) \/ (r <> JSON_READER_OK /\ reader = None)).
    { destruct Hr as [(x & Hx & [= -> ->])|(x & Hx & [= -> ->] & _)]; [left; by exists x | by right]. }
    destruct Hcase as [(x & Hx & [= -> ->])|[Hn ->]].
    + apply runs_assoc. eapply runs_inner; [apply effect_acquire|]. intros ? _. apply runs_ret_bind.
      eapply runs_weaken; [by apply H1 | cbn; lia | done].
    + apply runs_ret_bind. eapply runs_weaken; [by apply H2 | cbn; lia |]. cbn. intros v b m HQ Hv. apply HQ.
      destruct Hv as [(x & _ & [=])|(x & _ & _ & Hv)]. done.
Qed.

(** *** The connection string *)

Definition spec_extract (m : AuthenticationManager) (size : Z) (text : string) : option string :=
  reader ← text_reader text; key ← read_text reader PRIMARY_KEY;
  AuthenticationManager_GenerateConnectionStringFromSharedAccessKey key (hostName m) (deviceId m) size.

(** The result [v]: always when there is one, and when no call fails. *)
Definition finds {A} (v : option A) (e : Env) (out : option A) : Prop := never_fails e \/ out <> None -> out = v.

Lemma ExtractConnectionString_run m0 text size :
  runs m0 (fun _ => 0) (fun e out m' => m' = m0 /\ finds (spec_extract m0 size text) e out)
    (AuthenticationManager_ExtractConnectionString text size).
Proof.
  unfold AuthenticationManager_ExtractConnectionString, spec_extract. apply open_reader_run.
  - intros reader ->. cbn. unfold read_text. apply runs_manager.
    eapply runs_inner; [apply effect_release|]. intros ? _. apply runs_ret; [cbn; lia|]. intros e _. split; [done|]. intros _.
    by destruct (JsonObjectReader_ReadString reader PRIMARY_KEY) as [[] [key|]].
  - intros r Hr. destruct r; try done; (eapply runs_inner; [apply effect_release_if|]); intros ? _; (apply runs_ret; [cbn; lia|]);
      intros e _ Hn; (split; [done|]); intros [He|He]; try done; by rewrite Hn.
Qed.

(** What the hub answers to the request for the module's identity. *)
Definition hub_answer (m : AuthenticationManager) (method : AuthenticationMethod) : bool * Z * string :=
  match method with
  | SYMMETRIC_KEY =>
      answer_sas (sharedAccessKey m, hostName m, None) (hostName m) HTTPAPI_REQUEST_GET (relativeUrl m)
        [("Authorization"%string, EmptyString)] None
  | CERTIFICATE =>
      answer_certificate (hostName m, [(SU_OPTION_X509_CERT, certificate m); (SU_OPTION_X509_PRIVATE_KEY, certificatePrivateKey m)])
        HTTPAPI_REQUEST_GET (relativeUrl m) [] None 0
  end.

(** The method, by what the manager holds. *)
Definition method_of (m : AuthenticationManager) : option AuthenticationMethod :=
  match sharedAccessKey m, certificate m with
  | Some _, _ => Some SYMMETRIC_KEY
  | None, Some _ => Some CERTIFICATE
  | None, None => None
  end.

(** An answer whose text can be read: there are bytes, and a NUL ends them. *)
Definition readable (answer : bool * Z * string) : Prop := answer.1.1 = true -> response_text answer.2 <> None.

(** An answer that holds a NUL is readable, whatever memory follows it. *)
Lemma terminated_readable ok status response :
  BUFFER_u_char response <> None -> has_nul response = true ->
  readable (ok, status, response) /\ response_text response = Some (until_nul response).
Proof.
  intros Hp Hn. assert (H : response_text response = Some (until_nul response)).
  { unfold response_text. destruct (BUFFER_u_char response) as [memory|] eqn:E; [|done]. cbn.
    destruct (u_char_law response memory E) as [rest ->]. by rewrite has_nul_app_l, until_nul_app_l. }
  split; [|done]. intros _. cbn. by rewrite H.
Qed.

Definition spec_hub_string (m : AuthenticationManager) (size : Z) (answer : bool * Z * string) : option string :=
  let '(ok, status, response) := answer in
  if ok && (status =? 200) then text ← response_text response; spec_extract m size text else None.

Definition spec_connection_string (m : AuthenticationManager) (size : Z) : option string :=
  method ← method_of m; spec_hub_string m size (hub_answer m method).

(** The hub's answer, when the manager can ask it, is readable. *)
Definition hub_readable (m : AuthenticationManager) : Prop :=
  forall method, method_of m = Some method -> readable (hub_answer m method).

Lemma request_effect m method buffer :
  effect (fun _ => 0) (answered_by (hub_answer m method))
    (match method with
     | SYMMETRIC_KEY =>
         AuthenticationManager_HttpRequestUsingSasToken m HTTPAPI_REQUEST_GET (hostName m) (relativeUrl m) (hostName m) None None 0 buffer
     | CERTIFICATE =>
         AuthenticationManager_HttpRequestUsingCertificate m HTTPAPI_REQUEST_GET (hostName m) (relativeUrl m) None 0 buffer
     end).
Proof. destruct method; [apply effect_sas | apply effect_certificate]. Qed.

Lemma FromHub_run m0 size method :
  readable (hub_answer m0 method) ->
  runs m0 (fun _ => 0) (fun e out m' => m' = m0 /\ finds (spec_hub_string m0 size (hub_answer m0 method)) e out)
    (AuthenticationManager_GetConnectionStringFromHub size method).
Proof.
  intros Hread. unfold AuthenticationManager_GetConnectionStringFromHub. apply runs_manager.
  eapply runs_inner; [apply new_law|]. intros [buffer|] _.
  2: { apply runs_ret; [done|]. intros e Hn. split; [done|]. intros [He|He]; [by destruct (Hn He) | done]. }
  eapply runs_inner; [apply request_effect|]. intros [[ok status] response] [e0 He0].
  eapply (runs_bind _ _ _ _ _ (fun _ => 0) (fun e out m' => m' = m0 /\ finds (spec_hub_string m0 size (ok, status, response)) e out)).
  - unfold AuthenticationManager_EnsureHttpSuccessStatusCode, spec_hub_string. destruct ok; cbn [negb andb]; [|by apply runs_ret].
    rewrite <- (He0 (or_intror eq_refl)) in Hread. specialize (Hread eq_refl). cbn in Hread.
    destruct (response_text response) as [text|]; [|done]. cbn [deref mbind option_bind]. apply runs_ret_bind.
    destruct (status =? 200); [apply ExtractConnectionString_run | by apply runs_ret].
  - intros out m1 (_ & -> & _). eapply runs_inner; [apply delete_law|]. intros ? _. apply runs_ret; [cbn; lia|].
    intros e _ [_ H1] H2 _. split; [done|]. intros Hr. rewrite (H1 Hr). destruct Hr as [Hr|Hr].
    + by rewrite <- (H2 (or_introl Hr)).
    + destruct ok; [by rewrite <- (H2 (or_intror eq_refl))|]. destruct out; [|done]. by specialize (H1 (or_intror Hr)).
Qed.

(** *** The provisioning service *)

(** The hub, the device and the time of an answer with the status assigned. *)
Definition dps_fields (reader : JsonObjectReader) : option (string * string * string) :=
  status ← read_text reader RESPONSE_STATUS;
  if Utils_UnsafeAreStringsEqual status RESPONSE_STATUS_ASSIGNED true then
    hub ← read_text reader RESPONSE_ASSIGNED_HUB; device ← read_text reader RESPONSE_DEVICE_ID;
    updated ← read_text reader RESPONSE_LAST_UPDATED; Some (hub, device, updated)
  else None.

(** Everything fits and the time is a new one. *)
Definition dps_accepts (m : AuthenticationManager) (x : string * string * string) : bool :=
  let '(hub, device, updated) := x in
  (strlen hub <? MAX_BUFF) && (strlen device <? MAX_BUFF) &&
  negb (Utils_UnsafeAreStringsEqual updated (lastDPSUpdateTime m) true) && (strlen updated <? MAX_BUFF).

Definition url_fits (device : string) : bool := strlen (SECURITY_MODULE_API device) <? MAX_BUFF.

(** The answer is accepted but for the address, which does not fit. *)
Definition dps_leaks (m : AuthenticationManager) (reader : JsonObjectReader) : bool :=
  match dps_fields reader with Some x => dps_accepts m x && negb (url_fits x.1.2) | None => false end.

Definition assigned (x : string * string * string) (m : AuthenticationManager) : AuthenticationManager :=
  let '(hub, device, updated) := x in
  set_relativeUrl (SECURITY_MODULE_API device) (set_lastDPSUpdateTime updated (set_deviceId device (set_hostName hub m))).

(** The outcome of an answer: the manager is assigned to a hub, or not.  Its
    pointers are never touched. *)
Definition dps_result (m : AuthenticationManager) (reader : JsonObjectReader) (ok : bool) (m' : AuthenticationManager) : Prop :=
  ok = match dps_fields reader with Some x => dps_accepts m x && url_fits x.1.2 | None => false end /\
  same_pointers m m' /\ (ok = true -> exists x, dps_fields reader = Some x /\ m' = assigned x m).

Lemma dps_fields_inv reader hub device updated :
  dps_fields reader = Some (hub, device, updated) ->
  (exists status, read_text reader RESPONSE_STATUS = Some status /\ Utils_UnsafeAreStringsEqual status RESPONSE_STATUS_ASSIGNED true = true) /\
  read_text reader RESPONSE_ASSIGNED_HUB = Some hub /\ read_text reader RESPONSE_DEVICE_ID = Some device /\
  read_text reader RESPONSE_LAST_UPDATED = Some updated.
Proof.
  unfold dps_fields. destruct (read_text reader RESPONSE_STATUS) as [status|]; cbn; [|done].
  destruct (Utils_UnsafeAreStringsEqual status RESPONSE_STATUS_ASSIGNED true) eqn:E; [|done].
  intros H. split; [by exists status|]. by simplify_option_eq.
Qed.

(** The matches of the code, through [read_text]. *)
Lemma read_match {T} reader key (f : string -> T) (z : T) :
  match JsonObjectReader_ReadString reader key with (JSON_READER_OK, Some s) => f s | _ => z end =
  match read_text reader key with Some s => f s | None => z end.
Proof. unfold read_text. by destruct (JsonObjectReader_ReadString reader key) as [[] [s|]]. Qed.

(** An answer that is refused before its address is printed. *)
Lemma refused_run m0 m1 reader d (Q : Env -> bool -> AuthenticationManager -> Prop) :
  (forall x, dps_fields reader = Some x -> dps_accepts m0 x = false) -> same_pointers m0 m1 ->
  (forall b, d b = if dps_leaks m0 reader then 0 else -1) -> (forall e m', dps_result m0 reader false m' -> Q e false m') ->
  runs m1 d Q (bind (inner release) (fun _ => ret false)).
Proof.
  intros Hx Hp Hd HQ.
  assert (Hno : forall f, match dps_fields reader with Some x => dps_accepts m0 x && f x | None => false end = false).
  { intros f. destruct (dps_fields reader) as [x|]; [by rewrite Hx | done]. }
  eapply runs_inner; [apply effect_release|]. intros ? _. apply runs_ret.
  - rewrite Hd. unfold dps_leaks. rewrite Hno. lia.
  - intros e _. apply HQ. by repeat split; try apply Hp; rewrite ?Hno.
Qed.

Lemma same_owned m m' : same_pointers m m' -> owned m' = owned m.
Proof. intros (H1 & H2 & H3 & H4 & H5 & H6). unfold owned. by rewrite H1, H2, H3, H4, H5, H6. Qed.

(** The answer is refused here: what was read so far says why. *)
Ltac refuse m reader :=
  apply (refused_run m _ reader);
  [ intros [[hub' device'] updated'] Hf; apply dps_fields_inv in Hf as ((? & ? & ?) & ? & ? & ?); simplify_eq; unfold dps_accepts;
    repeat match goal with H : MAX_BUFF <= strlen ?x |- context [strlen ?x <? MAX_BUFF] => rewrite (proj2 (Z.ltb_ge _ _) H) end;
    rewrite ?andb_false_r; try done; try congruence;
    repeat match goal with H : Utils_UnsafeAreStringsEqual _ _ _ = true |- _ => rewrite H end; by rewrite ?andb_false_r
  | by repeat split | intros; unfold owned; cbn; lia | done ].

Lemma update_from_reader_run m0 reader :
  runs m0 (fun _ => if dps_leaks m0 reader then 0 else -1) (fun _ ok m' => dps_result m0 reader ok m') (update_from_reader reader).
Proof.
  assert (Hfits : forall text set, strlen text < MAX_BUFF ->
    (set = set_hostName \/ set = set_deviceId \/ set = set_lastDPSUpdateTime \/ set = set_relativeUrl) ->
    forall m, fits m -> fits (set text m)).
  { intros text set Ht Hset m. unfold fits. rewrite !Forall_cons. destruct Hset as [->|[->|[->| ->]]]; cbn; tauto. }
  assert (Hc : forall key s, read_text reader key = Some s -> c_string s).
  { intros key s. unfold read_text. destruct (JsonObjectReader_ReadString reader key) as [[] [t|]] eqn:E; try done.
    intros [= ->]. by eapply read_c_string. }
  unfold update_from_reader.
  rewrite read_match. destruct (read_text reader RESPONSE_STATUS) as [status|] eqn:E1; [|refuse m0 reader].
  destruct (Utils_UnsafeAreStringsEqual status RESPONSE_STATUS_ASSIGNED true) eqn:E2; cbn [negb]; [|refuse m0 reader].
  rewrite read_match. destruct (read_text reader RESPONSE_ASSIGNED_HUB) as [hub|] eqn:E3; [|refuse m0 reader].
  apply runs_manager. apply runs_copy; [by eapply Hc | intros; apply Hfits; auto | intros L1 | intros L1; cbn [negb]; refuse m0 reader]. cbn [negb].
  rewrite read_match. destruct (read_text reader RESPONSE_DEVICE_ID) as [device|] eqn:E4; [|refuse m0 reader].
  apply runs_copy; [by eapply Hc | intros; apply Hfits; auto | intros L2 | intros L2; cbn [negb]; refuse m0 reader]. cbn [negb].
  rewrite read_match. destruct (read_text reader RESPONSE_LAST_UPDATED) as [updated|] eqn:E5; [|refuse m0 reader].
  destruct (Utils_UnsafeAreStringsEqual updated (lastDPSUpdateTime m0) true) eqn:E6; [refuse m0 reader|].
  apply runs_copy; [by eapply Hc | intros; apply Hfits; auto 6 | intros L3 | intros L3; cbn [negb]; refuse m0 reader]. cbn [negb].
  assert (Hx : dps_fields reader = Some (hub, device, updated)) by (unfold dps_fields; rewrite E1; cbn; rewrite E2, E3; cbn; by rewrite E4, E5).
  assert (Ha : dps_accepts m0 (hub, device, updated) = true).
  { unfold dps_accepts. rewrite E6. by rewrite !(proj2 (Z.ltb_lt _ _)). }
  eapply (runs_bind _ _ _ _ _ (fun _ => 0) (fun _ ok m' => ok = url_fits device /\
     exists u, (ok = true -> u = SECURITY_MODULE_API device) /\
       m' = set_relativeUrl u (set_lastDPSUpdateTime updated (set_deviceId device (set_hostName hub m0))))).
  { apply print_relativeUrl_run; [done|]. intros _. rewrite print_text_spec by done. unfold url_fits.
    destruct (_ <? MAX_BUFF); (split; [done|]); eexists; (split; [|reflexivity]); done. }
  intros ok m1 (_ & -> & u & Hu & ->). unfold dps_leaks, dps_result. rewrite Hx. cbn [fst snd]. rewrite Ha.
  destruct (url_fits device); cbn [negb andb].
  - eapply runs_inner; [apply effect_release|]. intros ? _. apply runs_ret; [unfold owned; cbn; lia|]. intros e _ _. split; [done|].
    split; [by repeat split|]. intros _. exists (hub, device, updated). split; [done|]. by rewrite Hu.
  - apply runs_ret; [unfold owned; cbn; lia|]. intros e _. split; [done|]. by repeat split.
Qed.


(** The manager after an answer that assigns the device. *)
Definition spec_response (m : AuthenticationManager) (text : string) : option AuthenticationManager :=
  reader ← text_reader text; x ← dps_fields reader;
  if dps_accepts m x && url_fits x.1.2 then Some (assigned x m) else None.

(** The reader of this answer is not released. *)
Definition response_leaks (m : AuthenticationManager) (text : string) : bool :=
  match text_reader text with Some reader => dps_leaks m reader | None => false end.

(** The new manager, when the result is [true]; when it is [false] and no call
    failed there is none, and what the pointers hold stays in any case. *)
Definition assigns (m0 : AuthenticationManager) (v : option AuthenticationManager) (e : Env) (ok : bool)
    (m' : AuthenticationManager) : Prop :=
  same_pointers m0 m' /\ if ok then v = Some m' else never_fails e -> v = None.

Lemma same_pointers_refl m : same_pointers m m.
Proof. by repeat split. Qed.
#[local] Hint Resolve same_pointers_refl : core.

Lemma UpdateFromDpsResponse_run m0 text :
  response_leaks m0 text = false ->
  runs m0 (fun _ => 0) (assigns m0 (spec_response m0 text)) (AuthenticationManager_UpdateFromDpsResponse text).
Proof.
  unfold response_leaks, AuthenticationManager_UpdateFromDpsResponse, spec_response. intros Hleak. apply open_reader_run.
  - intros reader Hr. rewrite Hr in Hleak. rewrite Hr. cbn.
    eapply runs_weaken; [apply update_from_reader_run | intros; cbn; by rewrite Hleak|].
    intros e ok m (Hok & Hp & Hm). split; [done|]. destruct ok.
    + destruct (Hm eq_refl) as (x & Hx & ->). rewrite Hx in *. cbn. by rewrite <- Hok.
    + intros _. destruct (dps_fields reader); [cbn; by rewrite <- Hok | done].
  - intros r Hr. destruct r; try done; (eapply runs_inner; [apply effect_release_if|]); intros ? _; (apply runs_ret; [cbn; lia|]);
      intros e _ Hn; (split; [done|]); intros He; by rewrite Hn.
Qed.

(** What the provisioning service answers to the registration. *)
Definition dps_answer (m : AuthenticationManager) (url content : string) (method : AuthenticationMethod) : bool * Z * string :=
  let n := strlen content + 1 in
  match method with
  | SYMMETRIC_KEY =>
      answer_sas (sharedAccessKey m, SAS_TOKEN_SCOPE (idScope m) (registrationId m), Some EmptyString) GLOBAL_DPS_HOSTNAME
        HTTPAPI_REQUEST_POST url [("Authorization"%string, EmptyString); (CONTENT_TYPE_HEADER, CONTENT_TYPE_JSON)] (Some (content, n))
  | CERTIFICATE =>
      answer_certificate
        (GLOBAL_DPS_HOSTNAME, [(SU_OPTION_X509_CERT, certificate m); (SU_OPTION_X509_PRIVATE_KEY, certificatePrivateKey m)])
        HTTPAPI_REQUEST_POST url [(CONTENT_TYPE_HEADER, CONTENT_TYPE_JSON)] (Some content) n
  end.

Definition spec_assign (m : AuthenticationManager) (answer : bool * Z * string) : option AuthenticationManager :=
  let '(ok, status, response) := answer in
  if ok && (status =? 200) then text ← response_text response; spec_response m text else None.

(** The printed scope: its buffer is allocated for the format and both texts. *)
Lemma token_scope_fits m :
  stake (Z.to_nat (strlen_SAS_TOKEN_SCOPE + strlen (registrationId m) + strlen (idScope m) + 1 - 1)) (SAS_TOKEN_SCOPE (idScope m) (registrationId m))
  = SAS_TOKEN_SCOPE (idScope m) (registrationId m).
Proof.
  apply stake_all. change strlen_SAS_TOKEN_SCOPE with 19. unfold SAS_TOKEN_SCOPE.
  pose proof (strlen_app (idScope m) ("/registrations/" ++ registrationId m)) as H1.
  pose proof (strlen_app "/registrations/" (registrationId m)) as H2. change (strlen "/registrations/") with 15 in H2.
  unfold strlen in *. lia.
Qed.

Lemma dps_request_effect m url content method buffer :
  effect (fun _ => 0) (answered_by (dps_answer m url content method))
    (match method with
     | SYMMETRIC_KEY =>
         AuthenticationManager_HttpRequestUsingSasToken m HTTPAPI_REQUEST_POST GLOBAL_DPS_HOSTNAME url
           (SAS_TOKEN_SCOPE (idScope m) (registrationId m)) (Some EmptyString) (Some content) (strlen content + 1) buffer
     | CERTIFICATE =>
         AuthenticationManager_HttpRequestUsingCertificate m HTTPAPI_REQUEST_POST GLOBAL_DPS_HOSTNAME url
           (Some content) (strlen content + 1) buffer
     end).
Proof.
  assert (Hn : 0 < strlen content + 1) by (pose proof (strlen_nonneg content); lia).
  unfold dps_answer. destruct method.
  - eapply effect_weaken; [apply effect_sas | done |]. intros e r. unfold content_lines, sas_content. by rewrite (proj2 (Z.ltb_lt _ _) Hn).
  - eapply effect_weaken; [apply effect_certificate | done |]. intros e r. unfold content_lines. by rewrite (proj2 (Z.ltb_lt _ _) Hn).
Qed.

Lemma GetHostNameFromDPSService_run m0 url content method :
  dpsRelativeUrl m0 = Some url -> dpsRequestContent m0 = Some content ->
  readable (dps_answer m0 url content method) ->
  (forall response text, dps_answer m0 url content method = (true, 200, response) -> response_text response = Some text ->
     response_leaks m0 text = false) ->
  runs m0 (fun _ => 0) (assigns m0 (spec_assign m0 (dps_answer m0 url content method)))
    (AuthenticationManager_GetHostNameFromDPSService method).
Proof.
  intros Hurl Hcontent Hread Hleak. unfold AuthenticationManager_GetHostNameFromDPSService. apply runs_manager.
  eapply runs_inner; [apply new_law|]. intros [buffer|] _.
  2: { apply runs_ret; [done|]. intros e Hn. split; [done|]. intros He. by destruct (Hn He). }
  eapply runs_inner; [apply effect_acquire_if|]. intros [] _; cbn [negb].
  2: { eapply runs_inner; [apply delete_law|]. intros ? _. apply runs_ret; [cbn; lia|]. intros e _ Hn _. split; [done|].
       intros He. by specialize (Hn He). }
  rewrite Hcontent, Hurl. cbn [deref]. do 2 apply runs_ret_bind. rewrite token_scope_fits.
  eapply runs_inner; [apply dps_request_effect|]. intros [[ok status] response] [e0 He0].
  eapply (runs_bind _ _ _ _ _ (fun _ => 0) (assigns m0 (spec_assign m0 (ok, status, response)))).
  - unfold AuthenticationManager_EnsureHttpSuccessStatusCode, spec_assign. destruct ok; cbn [negb andb]; [|by apply runs_ret].
    rewrite <- (He0 (or_intror eq_refl)) in Hread, Hleak. specialize (Hread eq_refl). cbn in Hread.
    destruct (response_text response) as [text|] eqn:Et; [|done]. cbn [deref mbind option_bind]. apply runs_ret_bind.
    destruct (Z.eqb_spec status 200) as [->|]; [|by apply runs_ret].
    by apply UpdateFromDpsResponse_run, (Hleak response).
  - intros out m1 _. eapply runs_inner; [apply effect_release|]. intros ? _.
    eapply runs_inner; [apply delete_law|]. intros ? _. apply runs_ret; [cbn; lia|].
    intros e _ _ [Hp Hv] Hr _ _. split; [done|]. destruct out.
    + destruct ok; [|done]. rewrite <- (Hr (or_intror eq_refl)). exact Hv.
    + intros He. rewrite <- (Hr (or_introl He)). by apply Hv.
Qed.

(** The manager with the certificate and the three buffers set. *)
Definition with_certificate (c k : option string) (host device : string) (m : AuthenticationManager) : AuthenticationManager :=
  set_shared (SECURITY_MODULE_API device) host device (set_certificates c k m).

Definition certificate_outcome (filePath host device : string) (m0 : AuthenticationManager) (e : Env) (ok : bool)
    (m' : AuthenticationManager) : Prop :=
  (if ok then exists c k, m' = with_certificate c k host device m0 else owned m' = 0) /\
  (never_fails e ->
   match spec_load filePath with
   | Some (c, k) => ok = shared_fit host device /\ (ok = true -> m' = with_certificate c k host device m0)
   | None => ok = false
   end).

Lemma InitFromCertificate_run m0 filePath host device :
  certificate m0 = None -> certificatePrivateKey m0 = None -> c_string host -> c_string device ->
  runs m0 (fun _ => 0) (certificate_outcome filePath host device m0) (AuthenticationManager_InitFromCertificate filePath host device).
Proof.
  intros Hc0 Hk0 Hh Hd. unfold AuthenticationManager_InitFromCertificate, certificate_outcome. apply runs_manager. rewrite Hc0, Hk0.
  eapply runs_inner; [apply effect_load|]. intros [[ok c] k] _. apply runs_update; [done|]. cbn [fst snd].
  eapply (runs_bind _ _ _ _ _ (fun _ => 0) (fun _ ok' m' => ok' = ok && shared_fit host device /\
    (ok' = true -> m' = with_certificate c k host device m0))).
  - destruct ok; [|by apply runs_ret]. eapply runs_weaken; [by apply InitSharedProperties_run | done|].
    intros e ok m (-> & _ & Hm). by split.
  - intros ok' m1 (_ & -> & Hm). destruct (ok && shared_fit host device) eqn:E.
    + apply andb_true_iff in E as [-> E]. rewrite Hm by done. apply runs_ret.
      { unfold owns_pair, owned. cbn. rewrite Hc0, Hk0. cbn. lia. }
      intros e _ [_ Hl]. split; [by exists c, k|]. intros He. specialize (Hl He).
      destruct (spec_load filePath) as [[c' k']|]; [|done]. simplify_eq. by rewrite E.
    + eapply runs_bind; [apply Manager_Deinit_run|]. intros ? m2 (_ & ->). apply runs_ret.
      { unfold owns_pair, owned. cbn. rewrite Hc0, Hk0. cbn. lia. }
      intros e _ _ [_ Hl]. split; [done|]. intros He. specialize (Hl He).
      destruct (spec_load filePath) as [[c' k']|]; [|done]. simplify_eq. cbn in E. by rewrite E.
Qed.

(** An initialised manager owns nothing. *)
Definition fresh : AuthenticationManager :=
  mkManager EmptyString EmptyString EmptyString None None None None None None EmptyString EmptyString EmptyString.

Lemma Manager_Init_run m0 : owned m0 = 0 -> runs m0 (fun _ => 0) (fun _ ok m' => ok = true /\ m' = fresh) AuthenticationManager_Init.
Proof.
  intros Ho. unfold AuthenticationManager_Init. apply runs_update; [by repeat constructor|]. apply runs_ret; [unfold owned in *; cbn in *; lia | done].
Qed.

Lemma GetConnectionString_run m0 size :
  hub_readable m0 ->
  runs m0 (fun _ => 0) (fun e out m' => m' = m0 /\ finds (spec_connection_string m0 size) e out)
    (AuthenticationManager_GetConnectionString size).
Proof.
  unfold AuthenticationManager_GetConnectionString, spec_connection_string, hub_readable, method_of. intros Hread. apply runs_manager.
  destruct (sharedAccessKey m0); [by apply FromHub_run, Hread|]. destruct (certificate m0); [by apply FromHub_run, Hread|].
  by apply runs_ret.
Qed.

(** The answer that the manager gets from the provisioning service. *)
Definition spec_registration (m : AuthenticationManager) : option (bool * Z * string) :=
  url ← dpsRelativeUrl m; content ← dpsRequestContent m; method ← method_of m; Some (dps_answer m url content method).

(** The answer of the service does not leave the reader open. *)
Definition no_leak (m : AuthenticationManager) : Prop :=
  match spec_registration m with
  | Some (true, 200, response) => forall text, response_text response = Some text -> response_leaks m text = false
  | _ => True
  end.

(** The answer of the service, when the manager can ask it, is readable. *)
Definition dps_readable (m : AuthenticationManager) : Prop := forall answer, spec_registration m = Some answer -> readable answer.

Lemma GetHostNameFromDPS_run m0 :
  dpsRelativeUrl m0 <> None -> dpsRequestContent m0 <> None -> dps_readable m0 -> no_leak m0 ->
  runs m0 (fun _ => 0) (assigns m0 (spec_registration m0 ≫= spec_assign m0)) AuthenticationManager_GetHostNameFromDPS.
Proof.
  unfold no_leak, dps_readable, spec_registration, AuthenticationManager_GetHostNameFromDPS, method_of. intros Hu Hc Hread Hl. apply runs_manager.
  destruct (dpsRelativeUrl m0) as [url|] eqn:Eu; [|done]. destruct (dpsRequestContent m0) as [content|] eqn:Ec; [|done]. cbn -[dps_answer] in *.
  destruct (sharedAccessKey m0) as [key|] eqn:Ek; [|destruct (certificate m0) as [c|] eqn:Eq]; cbn -[dps_answer] in *.
  3: { apply runs_ret; [done|]. intros e. by split. }
  all: apply (GetHostNameFromDPSService_run m0 url content _ Eu Ec); [by apply Hread | intros response text Ht; rewrite Ht in Hl; apply Hl].
Qed.

(** *** The buffers, whatever is called *)

(** The calls of the unit's interface. *)
Inductive AuthCall : Type :=
  | CallInit
  | CallDeinit
  | CallKey (filePath host device : string)
  | CallCertificate (filePath host device : string)
  | CallDetails (scope registration : string)
  | CallHost
  | CallConnectionString (size : Z).

Definition call (c : AuthCall) : M (AuthState S) unit :=
  match c with
  | CallInit => AuthenticationManager_Init ;;; ret tt
  | CallDeinit => AuthenticationManager_Deinit
  | CallKey filePath host device => AuthenticationManager_InitFromSharedAccessKey filePath host device ;;; ret tt
  | CallCertificate filePath host device => AuthenticationManager_InitFromCertificate filePath host device ;;; ret tt
  | CallDetails scope registration => AuthenticationManager_SetDPSDetails scope registration ;;; ret tt
  | CallHost => AuthenticationManager_GetHostNameFromDPS ;;; ret tt
  | CallConnectionString size => AuthenticationManager_GetConnectionString size ;;; ret tt
  end.

(** The texts are C strings. *)
Definition arguments (c : AuthCall) : Prop :=
  match c with
  | CallKey _ a b | CallCertificate _ a b | CallDetails a b => c_string a /\ c_string b
  | _ => True
  end.

(** The states of the program, from the zeroed statics. *)
Inductive reachable : AuthState S -> Prop :=
  | reachable_start i : reachable (mkAuth i fresh)
  | reachable_call c s s' : reachable s -> arguments c -> call c s = Some (tt, s') -> reachable s'.

Definition manager_fits (s : AuthState S) : Prop := fits (authenticationManager s).

(** A computation after which the buffers fit, wherever it returns. *)
Definition keeps {A} (p : M (AuthState S) A) : Prop := forall s a s', p s = Some (a, s') -> manager_fits s -> manager_fits s'.

Lemma keeps_ret {A} (a : A) : keeps (ret a).
Proof. by intros s b s' [= <- <-]. Qed.

Lemma keeps_bind {A B} (p : M (AuthState S) A) (k : A -> M (AuthState S) B) : keeps p -> (forall a, keeps (k a)) -> keeps (bind p k).
Proof.
  intros Hp Hk s b s' H Hs. unfold bind in H. destruct (p s) as [[a s1]|] eqn:E; [|done]. by eapply Hk, Hp.
Qed.

Lemma keeps_manager {B} (k : AuthenticationManager -> M (AuthState S) B) : (forall m, keeps (k m)) -> keeps (bind manager k).
Proof. intros Hk [i m] a s' H Hm. exact (Hk m _ a s' H Hm). Qed.

Lemma keeps_inner {A} (p : M S A) : keeps (inner p).
Proof. intros s a s' H. unfold inner in H. destruct (p (au_inner s)) as [[b i]|]; [|done]. by injection H as <- <-. Qed.

Lemma keeps_update f : (forall m, fits m -> fits (f m)) -> keeps (update f).
Proof. intros Hf s a s' [= <- <-]. apply Hf. Qed.

Lemma keeps_deref {A} (v : option A) : keeps (deref v).
Proof. destruct v; [apply keeps_ret | by intros s a s']. Qed.

Lemma keeps_copy src dest set :
  c_string src -> (forall m, strlen src < MAX_BUFF -> fits m -> fits (set src m)) -> keeps (copy_field src dest set).
Proof.
  intros Hc Hf. unfold copy_field. rewrite (copy_text_spec _ _ Hc). destruct (Z.ltb_spec (strlen src) MAX_BUFF); [|apply keeps_ret].
  apply keeps_bind; [apply keeps_update; auto | intros; apply keeps_ret].
Qed.

Lemma keeps_url device : keeps (print_relativeUrl device).
Proof.
  unfold print_relativeUrl. pose proof (print_text_fits MAX_BUFF (SECURITY_MODULE_API device) ltac:(done)) as Hf.
  destruct (print_text MAX_BUFF (SECURITY_MODULE_API device)) as [ok text]. cbn in Hf.
  apply keeps_bind; [|intros; apply keeps_ret]. apply keeps_update. intros m. unfold fits. rewrite !Forall_cons. tauto.
Qed.

Create HintDb keeps.
#[local] Hint Resolve keeps_ret keeps_inner keeps_deref keeps_url : keeps.

(** Programs keep the fit by their structure. *)
Ltac keeps_step :=
  match goal with
  | |- keeps (bind manager _) => apply keeps_manager; intros ?
  | |- keeps (bind _ _) => apply keeps_bind; [|intros ?]
  | |- keeps (update _) => apply keeps_update; intros ?; unfold fits; rewrite !Forall_cons; cbn; tauto
  | |- keeps (copy_field _ _ _) => apply keeps_copy; [by eauto using read_c_string | intros ? ?; unfold fits; rewrite !Forall_cons; cbn; tauto]
  | |- keeps (match ?x with _ => _ end) => destruct x eqn:?
  | |- keeps _ => solve [eauto with keeps]
  end.
Ltac keeps_all := repeat (keeps_step; cbn beta iota).

Lemma keeps_details : keeps AuthenticationManager_DeinitDpsDetails.
Proof. unfold AuthenticationManager_DeinitDpsDetails. keeps_all. Qed.
#[local] Hint Resolve keeps_details : keeps.

Lemma keeps_deinit : keeps AuthenticationManager_Deinit.
Proof. unfold AuthenticationManager_Deinit. keeps_all. Qed.
#[local] Hint Resolve keeps_deinit : keeps.

Lemma keeps_shared host device : c_string host -> c_string device -> keeps (AuthenticationManager_InitSharedProperties host device).
Proof. intros Hh Hd. unfold AuthenticationManager_InitSharedProperties. keeps_all. Qed.
#[local] Hint Resolve keeps_shared : keeps.

Lemma keeps_drop_key : keeps drop_key.
Proof. unfold drop_key. keeps_all. Qed.
#[local] Hint Resolve keeps_drop_key : keeps.

Lemma keeps_dps_failed : keeps dps_failed.
Proof. unfold dps_failed. keeps_all. Qed.
#[local] Hint Resolve keeps_dps_failed : keeps.

Lemma keeps_reader text : keeps (open_reader text).
Proof. unfold open_reader. keeps_all. Qed.
#[local] Hint Resolve keeps_reader : keeps.

Lemma keeps_update_reader reader : keeps (update_from_reader reader).
Proof. unfold update_from_reader. keeps_all. Qed.
#[local] Hint Resolve keeps_update_reader : keeps.

Lemma keeps_extract text size : keeps (AuthenticationManager_ExtractConnectionString text size).
Proof. unfold AuthenticationManager_ExtractConnectionString. keeps_all. Qed.
#[local] Hint Resolve keeps_extract : keeps.

Lemma keeps_call c : arguments c -> keeps (call c).
Proof.
  intros Hc. destruct c as [| |f a b|f a b|a b| |size]; cbn [call]; cbn in Hc;
    try match type of Hc with _ /\ _ => destruct Hc as [Ha Hb] end.
  - unfold AuthenticationManager_Init. repeat (apply keeps_bind; [|intros]); try apply keeps_ret.
    apply keeps_update. intros. by repeat constructor.
  - apply keeps_deinit.
  - unfold AuthenticationManager_InitFromSharedAccessKey. keeps_all.
  - unfold AuthenticationManager_InitFromCertificate. keeps_all.
  - unfold AuthenticationManager_SetDPSDetails. keeps_all.
  - unfold AuthenticationManager_GetHostNameFromDPS, AuthenticationManager_GetHostNameFromDPSService,
      AuthenticationManager_UpdateFromDpsResponse. keeps_all.
  - unfold AuthenticationManager_GetConnectionString, AuthenticationManager_GetConnectionStringFromHub. keeps_all.
Qed.

(** ** Properties *)

(** C21: When the hub's answer can be read as a C string, which the code takes for
    granted, [AuthenticationManager_GetConnectionString] returns whichever calls
    fail, leaves the manager as it was and releases every handle it took.  A
    connection string that it gives, whatever else failed, is the one for the key
    that the hub answers to the request made with the manager's key or
    certificate; when no call fails it gives one exactly when the hub answers with
    a key and the string fits.  An answer without a NUL is read past its end, and
    an empty one through a null pointer: see [unreadable_answer_undefined]. *)
Theorem GetConnectionString_correct size s :
  let m := authenticationManager s in
  hub_readable m ->
  exists out s',
    AuthenticationManager_GetConnectionString size s = Some (out, s') /\
    authenticationManager s' = m /\ live_of (au_inner s') = live_of (au_inner s) /\
    (out <> None \/ reliable (world_of (au_inner s)) -> out = spec_connection_string m size).
Proof.
  intros m Hread. destruct s as [i m0].
  destruct (GetConnectionString_run m0 size Hread i) as (out & i' & m' & H1 & H2 & _ & _ & -> & Hf).
  exists out, (mkAuth i' m0). cbn in *. split; [done|]. split; [done|]. split; [lia|]. intros H. apply Hf. by destruct H; [right|left].
Qed.

(** When no call fails and the hub's answer has no NUL that ends it, or no bytes,
    the code reads past the buffer or through a null pointer: to parse the answer
    when its status is 200, to log it otherwise. *)
Theorem unreadable_answer_undefined size s method :
  let m := authenticationManager s in
  reliable (world_of (au_inner s)) -> method_of m = Some method -> ~ readable (hub_answer m method) ->
  AuthenticationManager_GetConnectionString size s = None.
Proof.
  intros m Hr Hm Hno. destruct s as [i m0]. cbn in m, Hr. subst m.
  assert (H : AuthenticationManager_GetConnectionStringFromHub size method (mkAuth i m0) = None).
  { unfold AuthenticationManager_GetConnectionStringFromHub, manager, gets. unfold bind at 1. cbn [authenticationManager].
    destruct (new_law i) as (b & i1 & H1 & _ & He1 & Hb). unfold bind at 1. unfold inner at 1. cbn [au_inner]. rewrite H1.
    destruct b as [buffer|]; [|by specialize (Hb Hr)].
    destruct (request_effect m0 method buffer i1) as (r & i2 & H2 & _ & _ & Ha). unfold bind at 1. unfold inner at 1. cbn [au_inner].
    rewrite H2, (Ha (or_introl (eq_ind_r never_fails Hr He1))). destruct (hub_answer m0 method) as [[ok status] response].
    destruct ok; cbn [negb]; [|by destruct Hno]. destruct (response_text response) eqn:E; [|done].
    destruct Hno. intros _. cbn. by rewrite E. }
  unfold AuthenticationManager_GetConnectionString, manager, gets. unfold bind at 1. cbn [authenticationManager].
  unfold method_of in Hm. cbn [authenticationManager] in Hm.
  destruct (sharedAccessKey m0); [by injection Hm as <-|]. destruct (certificate m0); [by injection Hm as <-|done].
Qed.

(** C22: Asking the provisioning service, once its details are set, when its answer
    can be read as a C string and is not one whose device has an address that does
    not fit, after which the reader is not released: the call returns, releases
    every handle and keeps the manager's pointers and the fit of its buffers.
    When it succeeds, whatever else failed, the manager has the hub, the
    device, the time and the address of an answer with the status assigned that is
    newer than the last one; when no call fails it succeeds on every such answer. *)
Theorem GetHostNameFromDPS_correct s :
  let m := authenticationManager s in
  dpsRelativeUrl m <> None -> dpsRequestContent m <> None -> dps_readable m -> no_leak m ->
  exists ok s',
    AuthenticationManager_GetHostNameFromDPS s = Some (ok, s') /\
    live_of (au_inner s') = live_of (au_inner s) /\ same_pointers m (authenticationManager s') /\
    (fits m -> fits (authenticationManager s')) /\
    (ok = true -> spec_registration m ≫= spec_assign m = Some (authenticationManager s')) /\
    (ok = false -> reliable (world_of (au_inner s)) -> spec_registration m ≫= spec_assign m = None).
Proof.
  intros m Hu Hc Hread Hl. destruct s as [i m0].
  destruct (GetHostNameFromDPS_run m0 Hu Hc Hread Hl i) as (ok & i' & m' & H1 & H2 & _ & H3 & H4 & H5).
  exists ok, (mkAuth i' m'). cbn in *. rewrite (same_owned _ _ H4) in H2.
  split; [done|]. split; [lia|]. repeat split; try apply H4; try done; intros ->; done.
Qed.

(** Taking the device's key from a file is all or nothing: it succeeds, when no
    call fails, exactly when the file can be read and the host, the device and the
    address fit; the manager then owns the first line of the file and the buffers
    are set, and otherwise it owns no key. *)
Theorem InitFromSharedAccessKey_correct filePath host device s :
  let m := authenticationManager s in
  sharedAccessKey m = None -> key_ends filePath -> c_string host -> c_string device ->
  exists ok s',
    AuthenticationManager_InitFromSharedAccessKey filePath host device s = Some (ok, s') /\
    live_of (au_inner s') = live_of (au_inner s) + (if ok then 1 else 0) /\
    (reliable (world_of (au_inner s)) -> ok = bool_decide (file_key filePath <> None) && shared_fit host device) /\
    if ok then exists key, file_key filePath = Some key /\ authenticationManager s' = with_key key host device m
    else sharedAccessKey (authenticationManager s') = None.
Proof.
  intros m Hn He Hh Hd. destruct s as [i m0].
  destruct (InitFromSharedAccessKey_run m0 filePath host device Hn He Hh Hd i) as (ok & i' & m' & H1 & H2 & _ & _ & H3 & H4).
  exists ok, (mkAuth i' m'). cbn in *. split; [done|].
  assert (Ho : owned m' = owned m0 + if ok then 1 else 0).
  { destruct ok; [destruct H4 as (key & _ & ->) | destruct H4 as (u & h & v & ->)]; unfold owned; cbn; rewrite Hn; cbn; lia. }
  split; [lia|]. split; [done|]. destruct ok; [done|]. by destruct H4 as (u & h & v & ->).
Qed.

(** C23: In every state of the program, after any calls of the unit's interface with
    C strings in any order, each buffer of the manager holds a C string that ends
    within it. *)
Theorem buffers_always_fit s : reachable s -> fits (authenticationManager s).
Proof.
  induction 1 as [i|c s s' _ IH Hc Hs]; [by repeat constructor|]. by apply (keeps_call c Hc s tt s').
Qed.

End Authentication.

(** ** A concrete setting for the witnesses *)

Definition sample_key_file : string := "c2VjcmV0" ++ String "010" "rest".

#[export] Instance sample_files : FileSystem := {|
  open_file name := if String.eqb name "/var/key" then Opened (Some sample_key_file) else ENOENT;
  readlink_exe := Some "/opt/agent/agent"%string;
|}.

(** No file holds a certificate. *)
#[export] Instance no_certificates : OpenSSL := {|
  X509 := unit; EVP_PKEY := unit; PKCS12 := unit;
  PEM_read_X509 _ := (None, EmptyString);
  PEM_read_PrivateKey _ := None;
  PEM_write_bio_X509 _ := None;
  PEM_write_bio_PrivateKey _ := None;
  d2i_PKCS12_fp _ := None;
  PKCS12_parse _ := None;
|}.

(** The hub gives the module's key, the provisioning service assigns a hub; a NUL
    ends each answer. *)
Definition terminated (text : string) : string := text ++ String "000" EmptyString.

Definition sample_network : Network := {|
  net_certificate _ _ _ _ _ _ := (false, 0, EmptyString);
  net_sas _ host t _ _ _ := (true, 200, terminated (match t with HTTPAPI_REQUEST_GET => "identity" | _ => "registration" end));
|}.

(** The same answers without the NUL. *)
Definition unterminated_network : Network := {|
  net_certificate _ _ _ _ _ _ := (false, 0, EmptyString);
  net_sas _ host t _ _ _ := (true, 200, match t with HTTPAPI_REQUEST_GET => "identity" | _ => "registration" end);
|}.

Definition network_parse (text : string) : option json :=
  if String.eqb text "identity" then
    Some (JObj [("authentication", JObj [("symmetricKey", JObj [("primaryKey", JStr "bW9kdWxl")])])])
  else if String.eqb text "registration" then
    Some (JObj [("status", JStr "assigned"); ("assignedHub", JStr "hub.azure-devices.net"); ("deviceId", JStr "device1");
                ("lastUpdatedDateTimeUtc", JStr "2019-10-02T07:06:40Z")])
  else None.

Definition sample_json : Parson := c_parson (model_parson network_parse (fun _ => EmptyString)).

Definition sample_state (m : AuthenticationManager) : AuthState Counted := mkAuth (mkCounted (running_world good_env) 0) m.
Definition key_manager : AuthenticationManager := with_key "c2VjcmV0" "hub.azure-devices.net" "device1" fresh.

Lemma GetConnectionString_correct_witness :
  exists s', @AuthenticationManager_GetConnectionString Counted _ _ (model_http sample_network) sample_json 500 (sample_state key_manager) =
    Some (Some "HostName=hub.azure-devices.net;DeviceId=device1;ModuleId=azureiotsecurity;SharedAccessKey=bW9kdWxl"%string, s').
Proof.
  destruct (@GetConnectionString_correct Counted _ _ (model_http sample_network) sample_json (model_http_laws sample_network) 500
    (sample_state key_manager) ltac:(intros method [= <-] _; vm_compute; discriminate)) as (out & s' & H1 & _ & _ & H2).
  exists s'. rewrite H1. rewrite (H2 (or_intror good_reliable)). vm_compute. reflexivity.
Defined.

Lemma unreadable_answer_undefined_witness :
  @AuthenticationManager_GetConnectionString Counted _ _ (model_http unterminated_network) sample_json 500 (sample_state key_manager) = None.
Proof.
  apply (@unreadable_answer_undefined Counted _ _ (model_http unterminated_network) sample_json (model_http_laws unterminated_network) 500
    (sample_state key_manager) SYMMETRIC_KEY); [exact good_reliable | reflexivity | intros H; exact (H eq_refl eq_refl)].
Defined.

(** The manager of a device that registers with its key. *)
Definition registering : AuthenticationManager := with_key "c2VjcmV0" EmptyString EmptyString (with_dps "0ne000" "device1" fresh).

Lemma GetHostNameFromDPS_correct_witness :
  exists s', @AuthenticationManager_GetHostNameFromDPS Counted _ _ (model_http sample_network) sample_json (sample_state registering) = Some (true, s') /\
    hostName (authenticationManager s') = "hub.azure-devices.net"%string /\ deviceId (authenticationManager s') = "device1"%string.
Proof.
  destruct (@GetHostNameFromDPS_correct Counted _ _ (model_http sample_network) sample_json (model_http_laws sample_network) _
    (sample_state registering) ltac:(done) ltac:(done) ltac:(intros a [= <-] _; vm_compute; discriminate)
    ltac:(intros text [= <-]; vm_compute; reflexivity)) as (ok & s' & H1 & _ & _ & _ & H2 & H3).
  destruct ok.
  - exists s'. split; [exact H1|]. specialize (H2 eq_refl). destruct s' as [i m]. cbn [authenticationManager] in *.
    vm_compute in H2. injection H2 as <-. by split.
  - specialize (H3 eq_refl good_reliable). vm_compute in H3. discriminate H3.
Defined.

(** The answer of the provisioning service is read the same way. *)
Example unterminated_registration_undefined :
  @AuthenticationManager_GetHostNameFromDPS Counted _ _ (model_http unterminated_network) sample_json (sample_state registering) = None.
Proof. vm_compute. reflexivity. Qed.

Lemma InitFromSharedAccessKey_correct_witness :
  exists s', @AuthenticationManager_InitFromSharedAccessKey Counted _ _ _ "/var/key" "hub.azure-devices.net" "device1" (sample_state fresh) =
    Some (true, s') /\ sharedAccessKey (authenticationManager s') = Some "c2VjcmV0"%string /\ live_of (au_inner s') = 1.
Proof.
  assert (Hends : key_ends "/var/key") by (intros content H; vm_compute in H; injection H as <-; vm_compute; discriminate).
  destruct (@InitFromSharedAccessKey_correct Counted _ _ _ "/var/key" "hub.azure-devices.net" "device1" (sample_state fresh)
    eq_refl Hends ltac:(split; reflexivity) ltac:(split; reflexivity)) as (ok & s' & H1 & H2 & H3 & H4).
  specialize (H3 good_reliable). assert (ok = true) as -> by (rewrite H3; vm_compute; reflexivity).
  exists s'. split; [exact H1|]. destruct H4 as (key & Hk & Hm). vm_compute in Hk. injection Hk as <-.
  split; [exact (f_equal sharedAccessKey Hm) | exact H2].
Defined.

Lemma buffers_always_fit_witness :
  let register := CallKey "/var/key" "hub.azure-devices.net" "device1" in
  exists s', @call Counted _ _ (model_http sample_network) sample_json _ _ register (sample_state fresh) = Some (tt, s') /\
    fits (authenticationManager s').
Proof.
  intros register.
  assert (H : match @call Counted _ _ (model_http sample_network) sample_json _ _ register (sample_state fresh) with
              | Some _ => true | None => false end = true) by (vm_compute; reflexivity).
  destruct (call register (sample_state fresh)) as [[[] s']|] eqn:E; [|discriminate H].
  exists s'. split; [reflexivity|]. apply (@buffers_always_fit Counted _ _ (model_http sample_network) sample_json _ _ _).
  apply (reachable_call register (sample_state fresh) s'); [apply reachable_start | by split | exact E].
Defined.
