(* ===== verification/LocalConfig.v ===== *)
(** * [local_config.c]: the agent's configuration file and its connection string

    The statics of the unit, over those of the authentication manager.  The file
    is read with the JSON reader; the connection string comes from the module's
    key, from the hub with the device's credentials, or from the hub that the
    provisioning service assigns. *)

From S2P Require Import Prelude CString World Utils Ledger Http FileUtils Certificates TimeUtils Parson Json Authentication ParsonModel.
From Stdlib Require Import QArith Ascii String.
Open Scope Z_scope.

Inductive LocalConfigurationResultValues : Type :=
  | LOCAL_CONFIGURATION_OK
  | LOCAL_CONFIGURATION_EXCEPTION.

#[export] Instance LocalConfigurationResultValues_eq : EqDecision LocalConfigurationResultValues.
Proof. solve_decision. Defined.

Record LocalStatics : Type := mkStatics {
  connectionString : option string;
  agentId : option string;
  authenticationManagerInitialized : bool;
  useDps : bool;
  triggeredEventsInterval : Z;
  connectionTimeout : Z;
  systemLoggerMinimumSeverity : Z;
  diagnosticEventMinimumSeverity : Z;
  remoteConfigurationObjectName : option string;
}.

Definition set_string v c := mkStatics v (agentId c) (authenticationManagerInitialized c) (useDps c) (triggeredEventsInterval c)
  (connectionTimeout c) (systemLoggerMinimumSeverity c) (diagnosticEventMinimumSeverity c) (remoteConfigurationObjectName c).
Definition set_agentId v c := mkStatics (connectionString c) v (authenticationManagerInitialized c) (useDps c) (triggeredEventsInterval c)
  (connectionTimeout c) (systemLoggerMinimumSeverity c) (diagnosticEventMinimumSeverity c) (remoteConfigurationObjectName c).
Definition set_managerInitialized v c := mkStatics (connectionString c) (agentId c) v (useDps c) (triggeredEventsInterval c)
  (connectionTimeout c) (systemLoggerMinimumSeverity c) (diagnosticEventMinimumSeverity c) (remoteConfigurationObjectName c).
Definition set_useDps v c := mkStatics (connectionString c) (agentId c) (authenticationManagerInitialized c) v (triggeredEventsInterval c)
  (connectionTimeout c) (systemLoggerMinimumSeverity c) (diagnosticEventMinimumSeverity c) (remoteConfigurationObjectName c).
Definition set_triggeredEventsInterval v c := mkStatics (connectionString c) (agentId c) (authenticationManagerInitialized c) (useDps c) v
  (connectionTimeout c) (systemLoggerMinimumSeverity c) (diagnosticEventMinimumSeverity c) (remoteConfigurationObjectName c).
Definition set_connectionTimeout v c := mkStatics (connectionString c) (agentId c) (authenticationManagerInitialized c) (useDps c)
  (triggeredEventsInterval c) v (systemLoggerMinimumSeverity c) (diagnosticEventMinimumSeverity c) (remoteConfigurationObjectName c).
Definition set_severities v w c := mkStatics (connectionString c) (agentId c) (authenticationManagerInitialized c) (useDps c)
  (triggeredEventsInterval c) (connectionTimeout c) v w (remoteConfigurationObjectName c).
Definition set_remoteName v c := mkStatics (connectionString c) (agentId c) (authenticationManagerInitialized c) (useDps c)
  (triggeredEventsInterval c) (connectionTimeout c) (systemLoggerMinimumSeverity c) (diagnosticEventMinimumSeverity c) v.

(** The values before the first initialisation. *)
Definition zero_statics : LocalStatics := mkStatics None None false false 0 0 0 0 None.

Definition CONNECTION_STRING_SIZE : Z := 500.
Definition CONFIGURATION_FILE : string := "/LocalConfiguration.json".

Definition LOCAL_CONFIG_CONFIGURATION : string := "Configuration".
Definition LOCAL_CONFIG_AGENT_ID : string := "AgentId".
Definition LOCAL_CONFIG_AGENT_ID_TRIGGERED_EVENTS_INTERVAL : string := "TriggerdEventsInterval".
Definition LOCAL_CONFIG_CONNECTION_TIMEOUT : string := "ConnectionTimeout".
Definition LOCAL_CONFIG_REMOTE_CONFIGURATION_OBJECT_NAME : string := "RemoteConfigurationObjectName".
Definition LOCAL_CONFIG_AUTHENTICATION : string := "Authentication".
Definition LOCAL_CONFIG_AUTHENTICATION_SAS_TOKEN : string := "SasToken".
Definition LOCAL_CONFIG_AUTHENTICATION_SELF_SIGNED_CERTIFICATE : string := "SelfSignedCertificate".
Definition LOCAL_CONFIG_AUTHENTICATION_DEVICE_ID : string := "DeviceId".
Definition LOCAL_CONFIG_AUTHENTICATION_HOST_NAME : string := "HostName".
Definition LOCAL_CONFIG_AUTHENTICATION_AUTHENTICATION_METHOD : string := "AuthenticationMethod".
Definition LOCAL_CONFIG_AUTHENTICATION_IDENTITY : string := "Identity".
Definition LOCAL_CONFIG_AUTHENTICATION_IDENTITY_VALUE_SECURITY_MODULE : string := "SecurityModule".
Definition LOCAL_CONFIG_AUTHENTICATION_IDENTITY_VALUE_DEVICE : string := "Device".
Definition LOCAL_CONFIG_AUTHENTICATION_IDENTITY_VALUE_DPS : string := "DPS".
Definition LOCAL_CONFIG_AUTHENTICATION_FILE_PATH : string := "FilePath".
Definition LOCAL_CONFIG_AUTHENTICATION_DPS : string := "DPS".
Definition LOCAL_CONFIG_AUTHENTICATION_DPS_IDSCOPE : string := "IDScope".
Definition LOCAL_CONFIG_AUTHENTICATION_DPS_REGISTRATION_ID : string := "RegistrationId".
Definition LOCAL_CONFIG_LOGGING : string := "Logging".
Definition LOCAL_CONFIG_LOGGING_SYSTEM_LOGGER_MINIMUM_SEVERITY : string := "SystemLoggerMinimumSeverity".
Definition LOCAL_CONFIG_LOGGING_DIAGNOSTIC_EVENT_MINIMUM_SEVERITY : string := "DiagnoticEventMinimumSeverity".

Record LocalState (S : Type) : Type := mkLocal { lo_auth : AuthState S; localStatics : LocalStatics }.
Arguments mkLocal {S} _ _.
Arguments lo_auth {S} _.
Arguments localStatics {S} _.

Section LocalConfig.
Context {S : Type} {W : HasWorld S} {L : HasLedger S} {Client : Http S}.
Context {P : Parson} {Fs : FileSystem} {Ssl : OpenSSL}.

(** ** Operations *)

Definition auth {A} (m : M (AuthState S) A) : M (LocalState S) A :=
  fun s => match m (lo_auth s) with
           | Some (a, t) => Some (a, mkLocal t (localStatics s))
           | None => None
           end.
Definition base {A} (m : M S A) : M (LocalState S) A := auth (inner m).
Definition statics : M (LocalState S) LocalStatics := gets localStatics.
Definition assign (f : LocalStatics -> LocalStatics) : M (LocalState S) unit :=
  modify (fun s => mkLocal (lo_auth s) (f (localStatics s))).

(** [Utils_CreateStringCopy] into a static: what it held is overwritten. *)
Definition create_copy (src : string) (set : option string -> LocalStatics -> LocalStatics)
    : M (LocalState S) LocalConfigurationResultValues :=
  copy <- base (up (Utils_CreateStringCopy (Some src))) ;;
  match copy with
  | Some _ => base acquire ;;; assign (set copy) ;;; ret LOCAL_CONFIGURATION_OK
  | None => assign (set None) ;;; ret LOCAL_CONFIGURATION_EXCEPTION
  end.

Definition LocalConfiguration_InitAuthenticationThroughDevice (authenticationMethod filePath hostName deviceId : string)
    : M (LocalState S) LocalConfigurationResultValues :=
  ok <- auth AuthenticationManager_Init ;;
  if negb ok then ret LOCAL_CONFIGURATION_EXCEPTION
  else
    assign (set_managerInitialized true) ;;;
    if Utils_UnsafeAreStringsEqual authenticationMethod LOCAL_CONFIG_AUTHENTICATION_SAS_TOKEN true then
      ok <- auth (AuthenticationManager_InitFromSharedAccessKey filePath hostName deviceId) ;;
      ret (if ok then LOCAL_CONFIGURATION_OK else LOCAL_CONFIGURATION_EXCEPTION)
    else if Utils_UnsafeAreStringsEqual authenticationMethod LOCAL_CONFIG_AUTHENTICATION_SELF_SIGNED_CERTIFICATE true then
      ok <- auth (AuthenticationManager_InitFromCertificate filePath hostName deviceId) ;;
      ret (if ok then LOCAL_CONFIGURATION_OK else LOCAL_CONFIGURATION_EXCEPTION)
    else ret LOCAL_CONFIGURATION_EXCEPTION.

(** The result of [AuthenticationManager_SetDPSDetails] is not looked at. *)
Definition LocalConfiguration_InitAuthenticationThroughDps (idScope registrationId authenticationMethod filePath : string)
    : M (LocalState S) LocalConfigurationResultValues :=
  ok <- auth AuthenticationManager_Init ;;
  if negb ok then ret LOCAL_CONFIGURATION_EXCEPTION
  else
    assign (set_managerInitialized true) ;;;
    auth (AuthenticationManager_SetDPSDetails idScope registrationId) ;;;
    let register :=
      ok <- auth AuthenticationManager_GetHostNameFromDPS ;;
      ret (if ok : bool then LOCAL_CONFIGURATION_OK else LOCAL_CONFIGURATION_EXCEPTION) in
    if Utils_UnsafeAreStringsEqual authenticationMethod LOCAL_CONFIG_AUTHENTICATION_SAS_TOKEN true then
      ok <- auth (AuthenticationManager_InitFromSharedAccessKey filePath EmptyString EmptyString) ;;
      if negb ok then ret LOCAL_CONFIGURATION_EXCEPTION else register
    else if Utils_UnsafeAreStringsEqual authenticationMethod LOCAL_CONFIG_AUTHENTICATION_SELF_SIGNED_CERTIFICATE true then
      ok <- auth (AuthenticationManager_InitFromCertificate filePath EmptyString EmptyString) ;;
      if negb ok then ret LOCAL_CONFIGURATION_EXCEPTION else register
    else ret LOCAL_CONFIGURATION_EXCEPTION.

Definition LocalConfiguration_InitConnectionStringFromDevice : M (LocalState S) LocalConfigurationResultValues :=
  localConnectionString <- auth (AuthenticationManager_GetConnectionString CONNECTION_STRING_SIZE) ;;
  match localConnectionString with
  | None => ret LOCAL_CONFIGURATION_EXCEPTION
  | Some text => create_copy text set_string
  end.

(** The key is read as by [AuthenticationManager_InitFromSharedAccessKey]; a file
    that fills the buffer without a line break or a NUL is read past its end. *)
Definition LocalConfiguration_InitConnectionStringFromModule (filePath hostName deviceId : string)
    : M (LocalState S) LocalConfigurationResultValues :=
  let (fileResult, data) := FileUtils_ReadFile filePath KEY_SIZE true in
  if decide (fileResult <> FILE_UTILS_OK) then ret LOCAL_CONFIGURATION_EXCEPTION
  else
    sharedAccessKey <- deref (key_line KEY_SIZE data) ;;
    match AuthenticationManager_GenerateConnectionStringFromSharedAccessKey sharedAccessKey hostName deviceId
            CONNECTION_STRING_SIZE with
    | None => ret LOCAL_CONFIGURATION_EXCEPTION
    | Some text => create_copy text set_string
    end.

Definition LocalConfiguration_ReadJsonStringConfig (jsonReader : JsonObjectReader) (key : string) : JsonReaderResult * option string :=
  match JsonObjectReader_ReadString jsonReader key with
  | (JSON_READER_OK, Some s) => (if strlen s =? 0 then JSON_READER_KEY_MISSING else JSON_READER_OK, Some s)
  | r => r
  end.

Definition LocalConfiguration_ReadJsonTimeConfig (jsonReader : JsonObjectReader) (key : string) : JsonReaderResult * option Z :=
  JsonObjectReader_ReadTimeInMilliseconds jsonReader key.

(** The pieces of [parseResult]: it stays [JSON_READER_OK] when all of them are. *)
Definition all_ok (results : list JsonReaderResult) : bool := forallb (fun r => bool_decide (r = JSON_READER_OK)) results.

(** The dispatch at the end of [LocalConfiguration_InitConnectionString], with
    the pointers that were read. *)
Definition connect_by_identity (identity authenticationMethod filePath : string)
    (hostName deviceId idScope registrationId : option string) : M (LocalState S) LocalConfigurationResultValues :=
  c <- statics ;;
  if useDps c then
    scope <- deref idScope ;;
    registration <- deref registrationId ;;
    result <- LocalConfiguration_InitAuthenticationThroughDps scope registration authenticationMethod filePath ;;
    if decide (result <> LOCAL_CONFIGURATION_OK) then ret result
    else LocalConfiguration_InitConnectionStringFromDevice
  else if Utils_UnsafeAreStringsEqual identity LOCAL_CONFIG_AUTHENTICATION_IDENTITY_VALUE_DEVICE true then
    host <- deref hostName ;;
    device <- deref deviceId ;;
    result <- LocalConfiguration_InitAuthenticationThroughDevice authenticationMethod filePath host device ;;
    if decide (result <> LOCAL_CONFIGURATION_OK) then ret result
    else LocalConfiguration_InitConnectionStringFromDevice
  else if Utils_UnsafeAreStringsEqual identity LOCAL_CONFIG_AUTHENTICATION_IDENTITY_VALUE_SECURITY_MODULE true then
    if Utils_UnsafeAreStringsEqual authenticationMethod LOCAL_CONFIG_AUTHENTICATION_SAS_TOKEN true then
      host <- deref hostName ;;
      device <- deref deviceId ;;
      LocalConfiguration_InitConnectionStringFromModule filePath host device
    else ret LOCAL_CONFIGURATION_EXCEPTION
  else ret LOCAL_CONFIGURATION_EXCEPTION.

(** The result and the reader as it was left. *)
Definition LocalConfiguration_InitConnectionString (jsonReader : JsonObjectReader)
    : M (LocalState S) (LocalConfigurationResultValues * JsonObjectReader) :=
  let (stepIn, jsonReader) := JsonObjectReader_StepIn jsonReader LOCAL_CONFIG_AUTHENTICATION in
  if decide (stepIn <> JSON_READER_OK) then ret (LOCAL_CONFIGURATION_EXCEPTION, jsonReader)
  else
    let (r1, authenticationMethod) := LocalConfiguration_ReadJsonStringConfig jsonReader LOCAL_CONFIG_AUTHENTICATION_AUTHENTICATION_METHOD in
    let (r2, identity) := LocalConfiguration_ReadJsonStringConfig jsonReader LOCAL_CONFIG_AUTHENTICATION_IDENTITY in
    let (r3, filePath) := LocalConfiguration_ReadJsonStringConfig jsonReader LOCAL_CONFIG_AUTHENTICATION_FILE_PATH in
    identity <- deref identity ;;
    let* (results, jsonReader, hostName, deviceId, idScope, registrationId) :=
      (if Utils_UnsafeAreStringsEqual identity LOCAL_CONFIG_AUTHENTICATION_IDENTITY_VALUE_DPS true then
         assign (set_useDps true) ;;;
         let (r4, dps) := JsonObjectReader_StepIn jsonReader LOCAL_CONFIG_AUTHENTICATION_DPS in
         let (r5, idScope) := LocalConfiguration_ReadJsonStringConfig dps LOCAL_CONFIG_AUTHENTICATION_DPS_IDSCOPE in
         let (r6, registrationId) := LocalConfiguration_ReadJsonStringConfig dps LOCAL_CONFIG_AUTHENTICATION_DPS_REGISTRATION_ID in
         let (r7, jsonReader) := JsonObjectReader_StepOut dps in
         ret ([r4; r5; r6; r7], jsonReader, None, None, idScope, registrationId)
       else
         let (r4, hostName) := LocalConfiguration_ReadJsonStringConfig jsonReader LOCAL_CONFIG_AUTHENTICATION_HOST_NAME in
         let (r5, deviceId) := LocalConfiguration_ReadJsonStringConfig jsonReader LOCAL_CONFIG_AUTHENTICATION_DEVICE_ID in
         ret ([r4; r5], jsonReader, hostName, deviceId, None, None)) in
    if negb (all_ok ([r1; r2; r3] ++ results)) then ret (LOCAL_CONFIGURATION_EXCEPTION, jsonReader)
    else
      authenticationMethod <- deref authenticationMethod ;;
      filePath <- deref filePath ;;
      result <- connect_by_identity identity authenticationMethod filePath hostName deviceId idScope registrationId ;;
      ret (result, jsonReader).

(** The severities keep their value when they cannot be read. *)
Definition LocalConfiguration_InitLogger (jsonReader : JsonObjectReader) : M (LocalState S) unit :=
  match JsonObjectReader_StepIn jsonReader LOCAL_CONFIG_LOGGING with
  | (JSON_READER_OK, logging) =>
      let* (r, system) := base (up (JsonObjectReader_ReadInt logging LOCAL_CONFIG_LOGGING_SYSTEM_LOGGER_MINIMUM_SEVERITY)) in
      c <- statics ;;
      assign (set_severities (default (systemLoggerMinimumSeverity c) system) (diagnosticEventMinimumSeverity c)) ;;;
      let* (r, diagnostic) := base (up (JsonObjectReader_ReadInt logging LOCAL_CONFIG_LOGGING_DIAGNOSTIC_EVENT_MINIMUM_SEVERITY)) in
      c <- statics ;;
      assign (set_severities (systemLoggerMinimumSeverity c) (default (diagnosticEventMinimumSeverity c) diagnostic))
  | _ => ret tt
  end.

(** The name of the remote configuration is never freed: the last test frees the
    agent id again, which is null by then. *)
Definition LocalConfiguration_Deinit : M (LocalState S) unit :=
  c <- statics ;;
  (if authenticationManagerInitialized c then
     auth AuthenticationManager_Deinit ;;;
     assign (set_managerInitialized false)
   else ret tt) ;;;
  base (release_if (connectionString c)) ;;;
  assign (set_string None) ;;;
  base (release_if (agentId c)) ;;;
  assign (set_agentId None) ;;;
  c <- statics ;;
  match remoteConfigurationObjectName c with
  | Some _ => base (release_if (agentId c)) ;;; assign (set_agentId None)
  | None => ret tt
  end.

(** The part of [LocalConfiguration_Init] with the reader open. *)
Definition init_from_reader (jsonReader : JsonObjectReader) : M (LocalState S) LocalConfigurationResultValues :=
  match JsonObjectReader_StepIn jsonReader LOCAL_CONFIG_CONFIGURATION with
  | (JSON_READER_OK, jsonReader) =>
      match LocalConfiguration_ReadJsonStringConfig jsonReader LOCAL_CONFIG_AGENT_ID with
      | (JSON_READER_OK, Some strValue) =>
          copied <- create_copy strValue set_agentId ;;
          if decide (copied <> LOCAL_CONFIGURATION_OK) then ret LOCAL_CONFIGURATION_EXCEPTION
          else
            match LocalConfiguration_ReadJsonTimeConfig jsonReader LOCAL_CONFIG_AGENT_ID_TRIGGERED_EVENTS_INTERVAL with
            | (JSON_READER_OK, Some interval) =>
                assign (set_triggeredEventsInterval interval) ;;;
                match LocalConfiguration_ReadJsonTimeConfig jsonReader LOCAL_CONFIG_CONNECTION_TIMEOUT with
                | (JSON_READER_OK, Some timeout) =>
                    assign (set_connectionTimeout timeout) ;;;
                    match LocalConfiguration_ReadJsonStringConfig jsonReader LOCAL_CONFIG_REMOTE_CONFIGURATION_OBJECT_NAME with
                    | (JSON_READER_OK, Some strValue) =>
                        copied <- create_copy strValue set_remoteName ;;
                        if decide (copied <> LOCAL_CONFIGURATION_OK) then ret LOCAL_CONFIGURATION_EXCEPTION
                        else
                          let* (result, jsonReader) := LocalConfiguration_InitConnectionString jsonReader in
                          if decide (result <> LOCAL_CONFIGURATION_OK) then ret LOCAL_CONFIGURATION_EXCEPTION
                          else
                            match JsonObjectReader_StepOut jsonReader with
                            | (JSON_READER_OK, jsonReader) =>
                                LocalConfiguration_InitLogger jsonReader ;;;
                                ret LOCAL_CONFIGURATION_OK
                            | _ => ret LOCAL_CONFIGURATION_EXCEPTION
                            end
                    | _ => ret LOCAL_CONFIGURATION_EXCEPTION
                    end
                | _ => ret LOCAL_CONFIGURATION_EXCEPTION
                end
            | _ => ret LOCAL_CONFIGURATION_EXCEPTION
            end
      | _ => ret LOCAL_CONFIGURATION_EXCEPTION
      end
  | _ => ret LOCAL_CONFIGURATION_EXCEPTION
  end.

Definition init_failed : M (LocalState S) LocalConfigurationResultValues :=
  LocalConfiguration_Deinit ;;; ret LOCAL_CONFIGURATION_EXCEPTION.

Definition LocalConfiguration_Init : M (LocalState S) LocalConfigurationResultValues :=
  configurationFile <- base (up GetExecutableDirectory) ;;
  match configurationFile with
  | None => init_failed
  | Some directory =>
      base acquire ;;;
      temp <- base (up malloc) ;;
      if negb temp then base release ;;; init_failed
      else
        let* (result, jsonReader) := base (up (JsonObjectReader_InitFromFile (directory ++ CONFIGURATION_FILE))) in
        match result, jsonReader with
        | JSON_READER_OK, Some reader =>
            base acquire ;;;
            returnVal <- init_from_reader reader ;;
            base release ;;;
            base release ;;;
            if decide (returnVal <> LOCAL_CONFIGURATION_OK) then init_failed else ret returnVal
        | _, _ =>
            base (release_if jsonReader) ;;;
            base release ;;;
            init_failed
        end
  end.

Definition LocalConfiguration_TryRenewConnectionString : M (LocalState S) bool :=
  ok <- auth AuthenticationManager_GetHostNameFromDPS ;;
  if negb ok then ret false
  else
    result <- LocalConfiguration_InitConnectionStringFromDevice ;;
    ret (bool_decide (result = LOCAL_CONFIGURATION_OK)).

Definition LocalConfiguration_GetConnectionString (s : LocalState S) := connectionString (localStatics s).
Definition LocalConfiguration_GetAgentId (s : LocalState S) := agentId (localStatics s).
Definition LocalConfiguration_GetTriggeredEventInterval (s : LocalState S) := triggeredEventsInterval (localStatics s).
Definition LocalConfiguration_UseDps (s : LocalState S) := useDps (localStatics s).
Definition LocalConfiguration_GetSystemLoggerMinimumSeverity (s : LocalState S) := systemLoggerMinimumSeverity (localStatics s).
Definition LocalConfiguration_GetDiagnosticEventMinimumSeverity (s : LocalState S) := diagnosticEventMinimumSeverity (localStatics s).
Definition LocalConfiguration_GetConnectionTimeout (s : LocalState S) := connectionTimeout (localStatics s).
Definition LocalConfiguration_GetRemoteConfigurationObjectName (s : LocalState S) := remoteConfigurationObjectName (localStatics s).

(** ** Reasoning about the unit *)

Context {Laws : @HttpLaws S W L Client} {Strings : CStrings P} {Tree : ParsonLaws P}.

(** The pointers that the statics own. *)
Definition held_by (c : LocalStatics) : Z := owns (connectionString c) + owns (agentId c) + owns (remoteConfigurationObjectName c).

(** As [runs], with the statics, in the environments that satisfy [E]. *)
Definition does {A} (E : Env -> Prop) (m0 : AuthenticationManager) (c0 : LocalStatics) (d : A -> Z)
    (Q : Env -> A -> AuthenticationManager -> LocalStatics -> Prop) (prog : M (LocalState S) A) : Prop :=
  forall i, E (env (world_of i)) ->
    exists a i' m' c', prog (mkLocal (mkAuth i m0) c0) = Some (a, mkLocal (mkAuth i' m') c') /\
    live_of i' - owned m' - held_by c' = live_of i - owned m0 - held_by c0 + d a /\ env (world_of i') = env (world_of i) /\
    (fits m0 -> fits m') /\ Q (env (world_of i)) a m' c'.

Lemma does_ret {A} E m0 c0 (a : A) d (Q : Env -> A -> AuthenticationManager -> LocalStatics -> Prop) :
  d a = 0 -> (forall e, E e -> Q e a m0 c0) -> does E m0 c0 d Q (ret a).
Proof. intros Hd HQ i He. exists a, i, m0, c0. repeat split; try done; [lia | by apply HQ]. Qed.

Lemma does_bind {A B} E m0 c0 (p : M (LocalState S) A) (k : A -> M (LocalState S) B) d
    (Q : Env -> B -> AuthenticationManager -> LocalStatics -> Prop) d1 Q1 :
  does E m0 c0 d1 Q1 p ->
  (forall a m1 c1, (exists e, E e /\ Q1 e a m1 c1) ->
     does E m1 c1 (fun b => d b - d1 a) (fun e b m2 c2 => Q1 e a m1 c1 -> Q e b m2 c2) (k a)) ->
  does E m0 c0 d Q (bind p k).
Proof.
  intros Hp Hk i He. destruct (Hp i He) as (a & i1 & m1 & c1 & H1 & L1 & E1 & F1 & Q1a).
  destruct (Hk a m1 c1 (ex_intro _ _ (conj He Q1a)) i1) as (b & i2 & m2 & c2 & H2 & L2 & E2 & F2 & Q2); [by rewrite E1|].
  exists b, i2, m2, c2. rewrite (bind_eq _ _ _ _ _ H1). split; [done|]. split; [lia|]. split; [congruence|].
  split; [by auto|]. rewrite <- E1. apply Q2. by rewrite E1.
Qed.

Lemma does_ret_bind {A B} E m0 c0 (a : A) (k : A -> M (LocalState S) B) d Q :
  does E m0 c0 d Q (k a) -> does E m0 c0 d Q (bind (ret a) k).
Proof. intros Hk i. exact (Hk i). Qed.

Lemma does_assoc {A B C} E m0 c0 (p : M (LocalState S) A) (f : A -> M (LocalState S) B) (k : B -> M (LocalState S) C) d Q :
  does E m0 c0 d Q (bind p (fun a => bind (f a) k)) -> does E m0 c0 d Q (bind (bind p f) k).
Proof. intros H i. rewrite bind_assoc. apply H. Qed.

Lemma does_weaken {A} E m0 c0 (p : M (LocalState S) A) d d' (Q R : Env -> A -> AuthenticationManager -> LocalStatics -> Prop) :
  does E m0 c0 d Q p -> (forall v a m c, E v -> Q v a m c -> d a = d' a) -> (forall v a m c, E v -> Q v a m c -> R v a m c) ->
  does E m0 c0 d' R p.
Proof.
  intros H Hd HQ i He. destruct (H i He) as (a & i' & m' & c' & H1 & H2 & H3 & H4 & H5). exists a, i', m', c'.
  split; [done|]. split; [by rewrite <- (Hd _ _ _ _ He H5)|]. split; [done|]. auto.
Qed.

Lemma does_auth {A B} E m0 c0 (p : M (AuthState S) A) (k : A -> M (LocalState S) B) d
    (Q : Env -> B -> AuthenticationManager -> LocalStatics -> Prop) d1 Q1 :
  runs m0 d1 Q1 p ->
  (forall a m1, (exists e, E e /\ Q1 e a m1) ->
     does E m1 c0 (fun b => d b - d1 a) (fun e b m2 c2 => Q1 e a m1 -> Q e b m2 c2) (k a)) ->
  does E m0 c0 d Q (bind (auth p) k).
Proof.
  intros Hp Hk. apply (does_bind E m0 c0 _ _ _ _ d1 (fun e a m c => c = c0 /\ Q1 e a m)).
  - intros i He. destruct (Hp i) as (a & i' & m' & H1 & H2 & H3 & H4 & H5). exists a, i', m', c0. unfold auth. cbn. rewrite H1.
    repeat split; try done. lia.
  - intros a m1 c1 (e & He & -> & HQ). eapply does_weaken; [apply Hk; by exists e | done |]. cbn. intros v b m c _ H [_ H']. by apply H.
Qed.

Lemma does_base {A B} E m0 c0 (p : M S A) (k : A -> M (LocalState S) B) d
    (Q : Env -> B -> AuthenticationManager -> LocalStatics -> Prop) d1 Q1 :
  effect d1 Q1 p ->
  (forall a, (exists e, E e /\ Q1 e a) -> does E m0 c0 (fun b => d b - d1 a) (fun e b m2 c2 => Q1 e a -> Q e b m2 c2) (k a)) ->
  does E m0 c0 d Q (bind (base p) k).
Proof.
  intros Hp Hk. apply (does_auth E m0 c0 _ _ _ _ d1 (fun e a m => m = m0 /\ Q1 e a)).
  - intros i. destruct (Hp i) as (a & i' & H1 & H2 & H3 & H4). exists a, i', m0. unfold inner. cbn. rewrite H1.
    repeat split; try done. lia.
  - intros a m1 (e & He & -> & HQ). eapply does_weaken; [apply Hk; by exists e | done |]. cbn. intros v b m c _ H [_ H']. by apply H.
Qed.

Lemma does_statics {B} E m0 c0 (k : LocalStatics -> M (LocalState S) B) d Q : does E m0 c0 d Q (k c0) -> does E m0 c0 d Q (bind statics k).
Proof. intros Hk i. exact (Hk i). Qed.

Lemma does_assign {B} E m0 c0 f (k : unit -> M (LocalState S) B) d Q :
  does E m0 (f c0) (fun b => d b - (held_by c0 - held_by (f c0))) Q (k tt) -> does E m0 c0 d Q (bind (assign f) k).
Proof.
  intros Hk i He. destruct (Hk i He) as (b & i' & m' & c' & H1 & H2 & H3 & H4 & H5). exists b, i', m', c'.
  split; [exact H1|]. split; [lia|]. split; [done|]. by split.
Qed.

Lemma does_assign_last E m0 c0 f d (Q : Env -> unit -> AuthenticationManager -> LocalStatics -> Prop) :
  d tt = held_by c0 - held_by (f c0) -> (forall e, Q e tt m0 (f c0)) -> does E m0 c0 d Q (assign f).
Proof. intros Hd HQ i He. exists tt, i, m0, (f c0). split; [done|]. split; [lia|]. split; [done|]. split; [done | apply HQ]. Qed.

(** ** Specification *)

#[local] Abbreviation OK := LOCAL_CONFIGURATION_OK.
#[local] Abbreviation EXCEPTION := LOCAL_CONFIGURATION_EXCEPTION.

(** A string that is there and not empty. *)
Definition read_config (reader : JsonObjectReader) (key : string) : option string :=
  s ← read_text reader key; if strlen s =? 0 then None else Some s.

Definition read_time (reader : JsonObjectReader) (key : string) : option Z :=
  match JsonObjectReader_ReadTimeInMilliseconds reader key with (JSON_READER_OK, Some t) => Some t | _ => None end.

Definition enter (reader : JsonObjectReader) (key : string) : option JsonObjectReader :=
  match JsonObjectReader_StepIn reader key with (JSON_READER_OK, r) => Some r | _ => None end.

(** What the [Authentication] section asks for. *)
Inductive Credentials : Type :=
  | Provisioned (method file scope registration : string)
  | Named (identity method file host device : string).

Definition spec_credentials (reader : JsonObjectReader) : option Credentials :=
  method ← read_config reader LOCAL_CONFIG_AUTHENTICATION_AUTHENTICATION_METHOD;
  identity ← read_config reader LOCAL_CONFIG_AUTHENTICATION_IDENTITY;
  file ← read_config reader LOCAL_CONFIG_AUTHENTICATION_FILE_PATH;
  if Utils_UnsafeAreStringsEqual identity LOCAL_CONFIG_AUTHENTICATION_IDENTITY_VALUE_DPS true then
    dps ← enter reader LOCAL_CONFIG_AUTHENTICATION_DPS;
    scope ← read_config dps LOCAL_CONFIG_AUTHENTICATION_DPS_IDSCOPE;
    registration ← read_config dps LOCAL_CONFIG_AUTHENTICATION_DPS_REGISTRATION_ID;
    Some (Provisioned method file scope registration)
  else
    host ← read_config reader LOCAL_CONFIG_AUTHENTICATION_HOST_NAME;
    device ← read_config reader LOCAL_CONFIG_AUTHENTICATION_DEVICE_ID;
    Some (Named identity method file host device).

(** The manager with the credentials of a file. *)
Definition spec_manager (method file host device : string) (m : AuthenticationManager) : option AuthenticationManager :=
  if negb (shared_fit host device) then None
  else if Utils_UnsafeAreStringsEqual method LOCAL_CONFIG_AUTHENTICATION_SAS_TOKEN true then
    key ← file_key file; Some (with_key key host device m)
  else if Utils_UnsafeAreStringsEqual method LOCAL_CONFIG_AUTHENTICATION_SELF_SIGNED_CERTIFICATE true then
    '(c, k) ← spec_load file; Some (with_certificate c k host device m)
  else None.

Definition spec_connection (credentials : Credentials) : option string :=
  match credentials with
  | Provisioned method file scope registration =>
      m ← spec_manager method file EmptyString EmptyString (with_dps scope registration fresh);
      assigned ← spec_registration m ≫= spec_assign m;
      spec_connection_string assigned CONNECTION_STRING_SIZE
  | Named identity method file host device =>
      if Utils_UnsafeAreStringsEqual identity LOCAL_CONFIG_AUTHENTICATION_IDENTITY_VALUE_DEVICE true then
        m ← spec_manager method file host device fresh;
        spec_connection_string m CONNECTION_STRING_SIZE
      else if Utils_UnsafeAreStringsEqual identity LOCAL_CONFIG_AUTHENTICATION_IDENTITY_VALUE_SECURITY_MODULE true &&
              Utils_UnsafeAreStringsEqual method LOCAL_CONFIG_AUTHENTICATION_SAS_TOKEN true then
        key ← file_key file;
        AuthenticationManager_GenerateConnectionStringFromSharedAccessKey key host device CONNECTION_STRING_SIZE
      else None
  end.

(** ** What the operations do *)

Lemma create_copy_does E m0 c0 src set :
  held_by (set (Some src) c0) = held_by c0 + 1 -> held_by (set None c0) = held_by c0 ->
  does E m0 c0 (fun _ => 0)
    (fun e r m c => m = m0 /\ (never_fails e -> r = OK) /\ c = set (if decide (r = OK) then Some src else None) c0) (create_copy src set).
Proof.
  intros H1 H2. unfold create_copy.
  eapply (does_base _ _ _ _ _ _ _ (fun _ => 0) (fun e p => (p = None \/ p = Some src) /\ (never_fails e -> p = Some src))).
  - apply effect_up. intros w. unfold Utils_CreateStringCopy, malloc, fallible, bind. cbn.
    destruct (env_ok (env w) (tick w)) eqn:Ht; eexists _, _; (split; [reflexivity|]); (split; [done|]).
    + split; [by right | done].
    + split; [by left | intros Hn; by rewrite Hn in Ht].
  - intros p (e0 & _ & Hp & _). destruct p as [s|].
    + destruct Hp as [|[= ->]]; [done|]. eapply does_base; [apply effect_acquire|]. intros ? _. apply does_assign.
      apply does_ret; [lia | done].
    + apply does_assign. apply does_ret; [lia|]. intros e _ [_ Hn]. split; [done|]. split; [intros He; by specialize (Hn He) | done].
Qed.

(** The outcome that the specification says, when no call fails. *)
Definition agrees (spec : option AuthenticationManager) (e : Env) (ok : bool) (m : AuthenticationManager) : Prop :=
  never_fails e -> spec = if ok then Some m else None.

(** A manager that loading the credentials of a file may leave. *)
Definition loads (method file host device : string) (m0 m : AuthenticationManager) : Prop :=
  if Utils_UnsafeAreStringsEqual method LOCAL_CONFIG_AUTHENTICATION_SAS_TOKEN true
  then exists key, file_key file = Some key /\ m = with_key key host device m0
  else exists c k, m = with_certificate c k host device m0.

Definition load_outcome (method file host device : string) (m0 : AuthenticationManager) (e : Env) (ok : bool) (m : AuthenticationManager) : Prop :=
  agrees (spec_manager method file host device m0) e ok m /\ (ok = true -> loads method file host device m0 m).

Lemma sas_run m0 method file host device :
  Utils_UnsafeAreStringsEqual method LOCAL_CONFIG_AUTHENTICATION_SAS_TOKEN true = true ->
  sharedAccessKey m0 = None -> key_ends file -> c_string host -> c_string device ->
  runs m0 (fun _ => 0) (load_outcome method file host device m0) (AuthenticationManager_InitFromSharedAccessKey file host device).
Proof.
  intros Hm H0 Hk Hh Hd. eapply runs_weaken; [by apply InitFromSharedAccessKey_run | done|].
  intros e ok m [Hok Hx]. split; [|intros ->; unfold loads; by rewrite Hm].
  intros Hn. unfold spec_manager. rewrite Hm. specialize (Hok Hn). destruct ok.
  - destruct Hx as (key & -> & ->). symmetry in Hok. apply andb_true_iff in Hok as [_ ->]. done.
  - destruct (shared_fit host device); [|done]. rewrite andb_true_r in Hok. by destruct (file_key file).
Qed.

Lemma certificate_run m0 method file host device :
  Utils_UnsafeAreStringsEqual method LOCAL_CONFIG_AUTHENTICATION_SAS_TOKEN true = false ->
  Utils_UnsafeAreStringsEqual method LOCAL_CONFIG_AUTHENTICATION_SELF_SIGNED_CERTIFICATE true = true ->
  certificate m0 = None -> certificatePrivateKey m0 = None -> c_string host -> c_string device ->
  runs m0 (fun _ => 0) (load_outcome method file host device m0) (AuthenticationManager_InitFromCertificate file host device).
Proof.
  intros Hm1 Hm2 H0 H1 Hh Hd. eapply runs_weaken; [by apply InitFromCertificate_run | done|].
  intros e ok m [Hy Hx]. split; [|intros ->; unfold loads; by rewrite Hm1].
  intros Hn. specialize (Hx Hn). unfold spec_manager. rewrite Hm1, Hm2.
  destruct (spec_load file) as [[c k]|]; cbn.
  - destruct Hx as [-> Hx]. destruct (shared_fit host device); cbn; [by rewrite Hx | done].
  - subst ok. by destruct (shared_fit host device).
Qed.

Lemma spec_manager_other method file host device m :
  Utils_UnsafeAreStringsEqual method LOCAL_CONFIG_AUTHENTICATION_SAS_TOKEN true = false ->
  Utils_UnsafeAreStringsEqual method LOCAL_CONFIG_AUTHENTICATION_SELF_SIGNED_CERTIFICATE true = false ->
  spec_manager method file host device m = None.
Proof. intros H1 H2. unfold spec_manager. rewrite H1, H2. by destruct (shared_fit host device). Qed.

(** A result that agrees with a specification, as one of the unit's. *)
Definition result_of (ok : bool) : LocalConfigurationResultValues := if ok then OK else EXCEPTION.

Lemma ThroughDevice_does E m0 c0 method file host device :
  owned m0 = 0 -> key_ends file -> c_string host -> c_string device ->
  does E m0 c0 (fun _ => 0)
    (fun e r m c => c = set_managerInitialized true c0 /\ exists ok, r = result_of ok /\ load_outcome method file host device fresh e ok m)
    (LocalConfiguration_InitAuthenticationThroughDevice method file host device).
Proof.
  intros Ho Hk Hh Hd. unfold LocalConfiguration_InitAuthenticationThroughDevice.
  eapply does_auth; [by apply Manager_Init_run|]. intros ok m1 (_ & _ & -> & ->). cbn [negb]. apply does_assign.
  destruct (Utils_UnsafeAreStringsEqual method LOCAL_CONFIG_AUTHENTICATION_SAS_TOKEN true) eqn:H1;
    [|destruct (Utils_UnsafeAreStringsEqual method LOCAL_CONFIG_AUTHENTICATION_SELF_SIGNED_CERTIFICATE true) eqn:H2].
  - eapply does_auth; [by apply (sas_run fresh method)|]. intros ok m1 _. apply does_ret; [unfold held_by; cbn; lia|].
    intros e _ Hs _. split; [done|]. by exists ok.
  - eapply does_auth; [by apply (certificate_run fresh method)|]. intros ok m1 _. apply does_ret; [unfold held_by; cbn; lia|].
    intros e _ Hs _. split; [done|]. by exists ok.
  - apply does_ret; [unfold held_by; cbn; lia|]. intros e _ _. split; [done|]. exists false. split; [done|]. split; [|done]. intros _.
    by apply spec_manager_other.
Qed.

(** The connection string that a step leaves, which was null before it. *)
Definition connected (spec : option string) (c0 : LocalStatics) (e : Env) (r : LocalConfigurationResultValues) (c : LocalStatics) : Prop :=
  exists out, c = set_string out c0 /\ r = result_of (bool_decide (out <> None)) /\ finds spec e out.

Lemma no_connection c : connectionString c = None -> c = set_string None c.
Proof. destruct c. cbn. by intros ->. Qed.

Lemma create_connection_does E m0 c0 text :
  connectionString c0 = None ->
  does E m0 c0 (fun _ => 0) (fun e r m c => m = m0 /\ connected (Some text) c0 e r c) (create_copy text set_string).
Proof.
  intros Hc. eapply does_weaken; [apply create_copy_does; unfold held_by; cbn; rewrite Hc; cbn; lia | done |].
  intros e r m c _ (-> & Hn & ->). split; [done|]. destruct (decide (r = OK)) as [->|Hr].
  - by exists (Some text).
  - exists None. split; [done|]. split; [by destruct r|]. intros [He|He]; [by specialize (Hn He) | done].
Qed.

Lemma FromDevice_does E m0 c0 :
  connectionString c0 = None -> hub_readable m0 ->
  does E m0 c0 (fun _ => 0) (fun e r m c => m = m0 /\ connected (spec_connection_string m0 CONNECTION_STRING_SIZE) c0 e r c)
    LocalConfiguration_InitConnectionStringFromDevice.
Proof.
  intros Hc Hread. unfold LocalConfiguration_InitConnectionStringFromDevice.
  eapply does_auth; [by apply GetConnectionString_run|]. intros [text|] m1 (e0 & _ & -> & Ht).
  - eapply does_weaken; [by apply create_connection_does | cbn; lia|]. rewrite <- Ht by by right. intros e r m c _ [-> H] _. by split.
  - apply does_ret; [done|]. intros e _ [_ Hf]. split; [done|]. exists None. split; [by apply no_connection|]. by split.
Qed.

Lemma FromModule_does E m0 c0 file host device :
  connectionString c0 = None -> key_ends file ->
  does E m0 c0 (fun _ => 0)
    (fun e r m c => m = m0 /\ connected (key ← file_key file;
       AuthenticationManager_GenerateConnectionStringFromSharedAccessKey key host device CONNECTION_STRING_SIZE) c0 e r c)
    (LocalConfiguration_InitConnectionStringFromModule file host device).
Proof.
  intros Hc Hends. unfold LocalConfiguration_InitConnectionStringFromModule, file_key.
  pose proof (ReadFile_cases file KEY_SIZE ltac:(done)) as Hread.
  assert (Hnone : forall e, connected None c0 e EXCEPTION c0) by (intros e; exists None; split; [by apply no_connection | done]).
  destruct (FileUtils_ReadFile file KEY_SIZE true) as [r data]. destruct (decide (r <> FILE_UTILS_OK)) as [Hr|Hr].
  { apply does_ret; [done|]. intros e _. split; [done|].
    destruct (open_file file) as [| | |[content|]]; try apply Hnone. destruct r; try done; by destruct (Hread content). }
  apply dec_stable in Hr as ->. destruct Hread as (content & Ho & ->). specialize (Hends content Ho). rewrite Ho.
  destruct (key_line KEY_SIZE _) as [key|]; [|done].
  cbn -[AuthenticationManager_GenerateConnectionStringFromSharedAccessKey]. apply does_ret_bind.
  destruct (AuthenticationManager_GenerateConnectionStringFromSharedAccessKey key host device CONNECTION_STRING_SIZE)
    as [text|]; [by apply create_connection_does | by apply does_ret].
Qed.

Lemma spec_manager_dps method file host device m m' :
  spec_manager method file host device m = Some m' ->
  dpsRelativeUrl m' = dpsRelativeUrl m /\ dpsRequestContent m' = dpsRequestContent m.
Proof.
  unfold spec_manager. destruct (shared_fit host device); cbn [negb]; [|done].
  destruct (Utils_UnsafeAreStringsEqual method LOCAL_CONFIG_AUTHENTICATION_SAS_TOKEN true).
  - destruct (file_key file); [|done]. cbn. by intros [= <-].
  - destruct (Utils_UnsafeAreStringsEqual method LOCAL_CONFIG_AUTHENTICATION_SELF_SIGNED_CERTIFICATE true); [|done].
    destruct (spec_load file) as [[c k]|]; [|done]. cbn. by intros [= <-].
Qed.

(** The manager of the hub that the service assigns, from one that was loaded. *)
Definition registered (loaded : option AuthenticationManager) (r : LocalConfigurationResultValues) (m : AuthenticationManager) : Prop :=
  match m1 ← loaded; spec_registration m1 ≫= spec_assign m1 with Some m2 => r = OK /\ m = m2 | None => r = EXCEPTION end.

Lemma register_does m1 c0 ok loaded d (Q : Env -> LocalConfigurationResultValues -> AuthenticationManager -> LocalStatics -> Prop) :
  loaded = (if ok : bool then Some m1 else None) ->
  (ok = true -> dpsRelativeUrl m1 <> None /\ dpsRequestContent m1 <> None /\ dps_readable m1 /\ no_leak m1) ->
  (forall r, d r = 0) -> (forall e r m, registered loaded r m -> Q e r m c0) ->
  does never_fails m1 c0 d Q
    (if negb ok then ret EXCEPTION else ok <- auth AuthenticationManager_GetHostNameFromDPS ;; ret (result_of ok)).
Proof.
  intros -> Hp Hd HQ. unfold registered in HQ. destruct ok; cbn [negb].
  - destruct (Hp eq_refl) as (H1 & H2 & H3 & H4). eapply does_auth; [by apply GetHostNameFromDPS_run|]. intros ok m2 _.
    apply does_ret; [rewrite Hd; lia|]. intros e He [_ Ha]. apply HQ. cbn -[spec_registration spec_assign]. destruct ok; [by rewrite Ha | by rewrite (Ha He)].
  - apply does_ret; [apply Hd|]. intros e _. by apply HQ.
Qed.

(** The provisioning service, in an environment where no call fails. *)
Lemma ThroughDps_does m0 c0 method file scope registration :
  let loaded := spec_manager method file EmptyString EmptyString (with_dps scope registration fresh) in
  owned m0 = 0 -> key_ends file -> c_string scope -> c_string registration -> dps_fit scope registration = true ->
  (forall m, loaded = Some m -> dps_readable m /\ no_leak m) ->
  does never_fails m0 c0 (fun _ => 0) (fun _ r m c => c = set_managerInitialized true c0 /\ registered loaded r m)
    (LocalConfiguration_InitAuthenticationThroughDps scope registration method file).
Proof.
  intros loaded Ho Hk Hs Hr Hfit Hleak. unfold LocalConfiguration_InitAuthenticationThroughDps.
  eapply does_auth; [by apply Manager_Init_run|]. intros ok m1 (_ & _ & -> & ->). cbn [negb]. apply does_assign.
  eapply does_auth; [by apply SetDPSDetails_run|]. intros set m1 (e0 & Hn & Hok & Hm1).
  assert (Hm : m1 = with_dps scope registration fresh) by (specialize (Hok Hn); rewrite Hfit in Hok; cbn in Hok; by subst set).
  clear e0 Hn Hok Hm1. subst m1. assert (Hempty : c_string EmptyString) by done.
  assert (Hready : forall m1 ok, loaded = (if ok : bool then Some m1 else None) ->
    ok = true -> dpsRelativeUrl m1 <> None /\ dpsRequestContent m1 <> None /\ dps_readable m1 /\ no_leak m1).
  { intros m1 ok Hl ->. destruct (spec_manager_dps _ _ _ _ _ _ Hl) as [-> ->]. do 2 (split; [done|]). by apply Hleak. }
  destruct (Utils_UnsafeAreStringsEqual method LOCAL_CONFIG_AUTHENTICATION_SAS_TOKEN true) eqn:H1;
    [|destruct (Utils_UnsafeAreStringsEqual method LOCAL_CONFIG_AUTHENTICATION_SELF_SIGNED_CERTIFICATE true) eqn:H2].
  1: eapply does_auth; [by apply (sas_run _ method)|].
  2: eapply does_auth; [by apply (certificate_run _ method)|].
  1, 2: intros ok m1 (e0 & Hn & Ha & _); specialize (Ha Hn);
    apply (register_does _ _ _ loaded); [done | by apply Hready | unfold held_by; cbn; lia | by intros e r m H _ _].
  apply does_ret; [unfold held_by; cbn; lia|]. intros e _ _. split; [done|]. unfold loaded. by rewrite spec_manager_other.
Qed.

Lemma does_env {A} (E E' : Env -> Prop) m0 c0 d Q (p : M (LocalState S) A) :
  (forall e, E e -> E' e) -> does E' m0 c0 d Q p -> does E m0 c0 d Q p.
Proof. intros He H i Hi. by apply H, He. Qed.

(** What the credentials need: a key file that ends, and answers that can be read
    as C strings; and for the provisioning service, whose failures the unit does
    not check, an environment where no call fails, details that fit and an answer
    whose address fits. *)
Definition usable (E : Env -> Prop) (cr : Credentials) : Prop :=
  match cr with
  | Provisioned method file scope registration =>
      (forall e, E e -> never_fails e) /\ key_ends file /\ dps_fit scope registration = true /\
      (forall m, spec_manager method file EmptyString EmptyString (with_dps scope registration fresh) = Some m ->
         dps_readable m /\ no_leak m /\ forall m2, spec_registration m ≫= spec_assign m = Some m2 -> hub_readable m2)
  | Named identity method file host device =>
      key_ends file /\
      (Utils_UnsafeAreStringsEqual identity LOCAL_CONFIG_AUTHENTICATION_IDENTITY_VALUE_DEVICE true = true ->
       forall m, loads method file host device fresh m -> hub_readable m)
  end.

Definition texts (cr : Credentials) : Prop :=
  match cr with
  | Provisioned method file scope registration => c_string scope /\ c_string registration
  | Named identity method file host device => c_string host /\ c_string device
  end.

Definition is_provisioned (cr : Credentials) : bool := match cr with Provisioned _ _ _ _ => true | _ => false end.

(** What [connect_by_identity] is given; the provisioning service does not look at
    the identity again. *)
Definition connect_with (who : string) (cr : Credentials) : M (LocalState S) LocalConfigurationResultValues :=
  match cr with
  | Provisioned method file scope registration =>
      connect_by_identity who method file None None (Some scope) (Some registration)
  | Named identity method file host device => connect_by_identity identity method file (Some host) (Some device) None None
  end.

(** The connection string [spec] is there or not, and the manager is in use or
    owns nothing. *)
Definition connects (spec : option string) (c0 : LocalStatics) (e : Env) (r : LocalConfigurationResultValues)
    (m : AuthenticationManager) (c : LocalStatics) : Prop :=
  exists used out, c = set_string out (set_managerInitialized used c0) /\ (used = false -> owned m = 0) /\
    r = result_of (bool_decide (out <> None)) /\ (never_fails e -> out = spec).

(** Nothing is initialised. *)
Definition unused (m : AuthenticationManager) (c : LocalStatics) : Prop :=
  owned m = 0 /\ authenticationManagerInitialized c = false /\ connectionString c = None.

Lemma unused_statics m c : unused m c -> c = set_string None (set_managerInitialized false c).
Proof. intros (_ & H1 & H2). destruct c. cbn in *. by subst. Qed.

Lemma connected_connects spec c0 e r m c :
  connectionString c0 = None -> connected spec (set_managerInitialized true c0) e r c -> connects spec c0 e r m c.
Proof. intros Hc (out & -> & -> & Hf). exists true, out. repeat split; try done. intros He. apply Hf. by left. Qed.

(** The manager, then the connection string from the hub. *)
Lemma then_device_does E m1 c0 ok (d : LocalConfigurationResultValues -> Z)
    (Q : Env -> LocalConfigurationResultValues -> AuthenticationManager -> LocalStatics -> Prop) :
  connectionString c0 = None -> (ok = true -> hub_readable m1) -> (forall r, d r = 0) ->
  (forall e r m c, connects (if ok : bool then spec_connection_string m1 CONNECTION_STRING_SIZE else None) c0 e r m c -> Q e r m c) ->
  does E m1 (set_managerInitialized true c0) d Q
    (if decide (result_of ok <> OK) then ret (result_of ok) else LocalConfiguration_InitConnectionStringFromDevice).
Proof.
  intros Hc Hread Hd HQ. destruct ok; cbn [result_of].
  - rewrite decide_False by (intros H; by apply H).
    eapply does_weaken; [by apply FromDevice_does; auto | intros; cbn; by rewrite Hd|].
    intros e r m c He (-> & Hcon). by apply HQ, connected_connects.
  - rewrite decide_True by done. apply does_ret; [apply Hd|]. intros e He. apply HQ. exists true, None.
    split; [by rewrite no_connection at 1|]. by repeat split.
Qed.

Lemma connect_does E m0 c0 who cr :
  unused m0 c0 -> useDps c0 = is_provisioned cr -> usable E cr -> texts cr ->
  does E m0 c0 (fun _ => 0) (connects (spec_connection cr) c0) (connect_with who cr).
Proof.
  intros Hidle Hu Hus Ht. pose proof (unused_statics _ _ Hidle) as Hc0. destruct Hidle as (Ho & Hi & Hc).
  destruct cr as [method file scope registration|identity method file host device]; cbn [connect_with]; unfold connect_by_identity;
    apply does_statics; rewrite Hu; cbn [is_provisioned].
  - destruct Hus as (He & Hk & Hf & Hl), Ht as [Hs Hr]. do 2 (cbn [deref]; apply does_ret_bind). apply (does_env E never_fails); [done|].
    eapply does_bind; [apply ThroughDps_does; auto; intros m Hm; by destruct (Hl m Hm) as (? & ? & _)|]. intros r m1 c1 (e0 & Hn & -> & Hreg). unfold registered in Hreg. cbn [spec_connection].
    destruct (spec_manager _ _ _ _ _) as [m|]; cbn in Hreg |- *; [destruct (spec_registration m ≫= spec_assign m) as [m2|] eqn:Em2|]; cbn.
    + destruct Hreg as [-> ->]. eapply (then_device_does _ _ _ true); [done | | intros; cbn; lia | done].
      intros _. by apply (Hl m eq_refl).
    + subst r. eapply (then_device_does _ _ _ false); [done | done | intros; cbn; lia | done].
    + subst r. eapply (then_device_does _ _ _ false); [done | done | intros; cbn; lia | done].
  - cbn [usable] in Hus. destruct Hus as [Hus Hread], Ht as [Hh Hd]. cbn [spec_connection].
    destruct (Utils_UnsafeAreStringsEqual identity LOCAL_CONFIG_AUTHENTICATION_IDENTITY_VALUE_DEVICE true) eqn:H1.
    { do 2 (cbn [deref]; apply does_ret_bind).
      eapply does_bind; [by apply (ThroughDevice_does _ _ _ method)|]. intros r m1 c1 (e0 & He0 & -> & ok & -> & _ & Hload).
      eapply then_device_does; [done | by auto | intros; cbn; lia|].
      intros e r m c (used & out & H3 & H4 & H5 & H6) (_ & ok' & Hok & Ha & _). assert (ok' = ok) as -> by (by destruct ok, ok').
      exists used, out. repeat split; try done. intros Hn. rewrite (Ha Hn), (H6 Hn). by destruct ok. }
    destruct (Utils_UnsafeAreStringsEqual identity LOCAL_CONFIG_AUTHENTICATION_IDENTITY_VALUE_SECURITY_MODULE true) eqn:H2; cbn [andb].
    2: { apply does_ret; [done|]. intros e _. exists false, None. by repeat split. }
    destruct (Utils_UnsafeAreStringsEqual method LOCAL_CONFIG_AUTHENTICATION_SAS_TOKEN true) eqn:H3; cbn [andb].
    2: { apply does_ret; [done|]. intros e _. exists false, None. by repeat split. }
    do 2 (cbn [deref]; apply does_ret_bind).
    eapply does_weaken; [by apply FromModule_does | done|]. intros e r m c _ (-> & out & -> & -> & Hf).
    exists false, out. split; [rewrite Hc0 at 1; by destruct c0|]. repeat split; try done. intros Hn. apply Hf. by left.
Qed.

Lemma config_cases reader key :
  (exists s, LocalConfiguration_ReadJsonStringConfig reader key = (JSON_READER_OK, Some s) /\ read_config reader key = Some s /\ c_string s) \/
  (exists r v, LocalConfiguration_ReadJsonStringConfig reader key = (r, v) /\ r <> JSON_READER_OK /\ read_config reader key = None).
Proof.
  unfold LocalConfiguration_ReadJsonStringConfig, read_config, read_text.
  assert (Hsome : JsonObjectReader_ReadString reader key <> (JSON_READER_OK, None)).
  { unfold JsonObjectReader_ReadString, JsonObjectReader_GetValueOfType. repeat case_match; simplify_eq/=; congruence. }
  destruct (JsonObjectReader_ReadString reader key) as [r v] eqn:E. destruct v as [s|]; destruct r; try done; try (right; by eexists _, _).
  cbn. destruct (strlen s =? 0); [right; by eexists _, _|]. left. exists s. split; [done|]. split; [done|]. by eapply read_c_string.
Qed.

Lemma all_ok_false r l : r ∈ l -> r <> JSON_READER_OK -> all_ok l = false.
Proof.
  intros Hin Hr. unfold all_ok. apply not_true_iff_false. rewrite forallb_forall. intros H.
  apply list_elem_of_In in Hin. specialize (H r Hin). by apply bool_decide_eq_true_1 in H.
Qed.

(** Two members of a name without a dot: stepping in and out. *)
Lemma enter_leave reader key r : plain_key key = true -> enter reader key = Some r ->
  JsonObjectReader_StepIn reader key = (JSON_READER_OK, r) /\ JsonObjectReader_StepOut r = (JSON_READER_OK, reader).
Proof.
  unfold enter. intros Hk. destruct (JsonObjectReader_StepIn reader key) as [[] r'] eqn:E; try done. intros [= ->].
  split; [done|]. by eapply StepIn_StepOut.
Qed.

Lemma enter_none reader key : enter reader key = None -> exists r reader', JsonObjectReader_StepIn reader key = (r, reader') /\ r <> JSON_READER_OK.
Proof. unfold enter. destruct (JsonObjectReader_StepIn reader key) as [[] r']; try done; intros _; by eexists _, _. Qed.

(** The identity is there, though it may be empty: without it the unit compares a
    null pointer. *)
Definition has_identity (reader : JsonObjectReader) : Prop :=
  snd (LocalConfiguration_ReadJsonStringConfig reader LOCAL_CONFIG_AUTHENTICATION_IDENTITY) <> None.

(** What reading the section and connecting leave; [useDps] stays set. *)
Definition section_post (reader : JsonObjectReader) (c0 : LocalStatics) (e : Env) (x : LocalConfigurationResultValues * JsonObjectReader)
    (m : AuthenticationManager) (c : LocalStatics) : Prop :=
  exists dps, connects (spec_credentials reader ≫= spec_connection) (set_useDps dps c0) e x.1 m c /\
    (x.1 = OK -> x.2 = reader /\ exists cr, spec_credentials reader = Some cr /\ dps = is_provisioned cr).

Lemma unused_useDps dps m c : unused m c -> unused m (set_useDps dps c).
Proof. done. Qed.

(** The section is read: connecting decides. *)
Lemma section_connects E m0 c0 reader who cr :
  unused m0 c0 -> spec_credentials reader = Some cr -> usable E cr -> texts cr ->
  does E m0 (set_useDps (is_provisioned cr) c0) (fun _ => 0) (section_post reader c0)
    (result <- connect_with who cr ;; ret (result, reader)).
Proof.
  intros Hidle Hcr Hu Ht. eapply does_bind; [by apply connect_does|]. intros r m1 c1 _. apply does_ret; [done|].
  intros e _ Hc. exists (is_provisioned cr). rewrite Hcr. split; [exact Hc|]. intros _. split; [done|]. by exists cr.
Qed.

(** The section is refused. *)
Lemma section_refused E m0 c0 dps reader reader' (d : LocalConfigurationResultValues * JsonObjectReader -> Z) :
  unused m0 c0 -> spec_credentials reader = None -> (forall x, d x = 0) ->
  does E m0 (set_useDps dps c0) d (section_post reader c0) (ret (EXCEPTION, reader')).
Proof.
  intros Hidle Hcr Hd. apply does_ret; [apply Hd|]. intros e _. exists dps. split; [|done]. rewrite Hcr. exists false, None.
  split; [by apply (unused_statics m0), unused_useDps|]. repeat split; try done. intros _. apply Hidle.
Qed.

Ltac bad_read :=
  intros; unfold all_ok; cbn;
  match goal with H : ?x <> JSON_READER_OK |- _ => rewrite (bool_decide_eq_false_2 (x = _)) by exact H end; by rewrite ?andb_false_r.

(** The strings before the branch: all there, or the section is refused. *)
Lemma three_reads reader r1 r2 r3 method who file :
  LocalConfiguration_ReadJsonStringConfig reader LOCAL_CONFIG_AUTHENTICATION_AUTHENTICATION_METHOD = (r1, method) ->
  LocalConfiguration_ReadJsonStringConfig reader LOCAL_CONFIG_AUTHENTICATION_IDENTITY = (r2, Some who) ->
  LocalConfiguration_ReadJsonStringConfig reader LOCAL_CONFIG_AUTHENTICATION_FILE_PATH = (r3, file) ->
  ((forall l, all_ok ([r1; r2; r3] ++ l) = false) /\ spec_credentials reader = None) \/
  (r1 = JSON_READER_OK /\ r2 = JSON_READER_OK /\ r3 = JSON_READER_OK /\
   read_config reader LOCAL_CONFIG_AUTHENTICATION_AUTHENTICATION_METHOD = method /\
   read_config reader LOCAL_CONFIG_AUTHENTICATION_IDENTITY = Some who /\
   read_config reader LOCAL_CONFIG_AUTHENTICATION_FILE_PATH = file /\ method <> None /\ file <> None).
Proof.
  intros E1 E2 E3. unfold spec_credentials.
  destruct (config_cases reader LOCAL_CONFIG_AUTHENTICATION_AUTHENTICATION_METHOD) as [(m & H1 & S1 & _)|(r & v & H1 & Hr & S1)];
    rewrite E1 in H1; injection H1 as -> ->.
  2: { left. split; [bad_read|]. by rewrite S1. }
  destruct (config_cases reader LOCAL_CONFIG_AUTHENTICATION_IDENTITY) as [(w & H2 & S2 & _)|(r & v & H2 & Hr & S2)];
    rewrite E2 in H2; injection H2 as -> ->.
  2: { left. split; [bad_read|]. by rewrite S1, S2. }
  destruct (config_cases reader LOCAL_CONFIG_AUTHENTICATION_FILE_PATH) as [(f & H3 & S3 & _)|(r & v & H3 & Hr & S3)];
    rewrite E3 in H3; injection H3 as -> ->.
  2: { left. split; [bad_read|]. by rewrite S1, S2, S3. }
  right. by repeat split.
Qed.

(** A string is missing, and the section is refused. *)
Ltac refused :=
  apply does_ret_bind; cbn beta iota;
  match goal with |- context [all_ok ?l] => let H := fresh in assert (H : all_ok l = false) by (bad_read || auto); rewrite H; clear H end;
  cbn [negb]; apply section_refused;
  [ done
  | try done; unfold spec_credentials;
    repeat first [progress cbn | match goal with H : _ = _ |- _ => progress rewrite H end]; done
  | intros; unfold held_by; cbn; lia ].

Lemma InitConnectionString_does E m0 c0 root reader :
  unused m0 c0 -> useDps c0 = false -> enter root LOCAL_CONFIG_AUTHENTICATION = Some reader -> has_identity reader ->
  (forall cr, spec_credentials reader = Some cr -> usable E cr) ->
  does E m0 c0 (fun _ => 0) (section_post reader c0) (LocalConfiguration_InitConnectionString root).
Proof.
  intros Hidle Hd Hin Hid Hu. unfold LocalConfiguration_InitConnectionString.
  destruct (enter_leave root LOCAL_CONFIG_AUTHENTICATION reader eq_refl Hin) as [-> _]. rewrite decide_False by (intros H; by apply H).
  assert (Hc0 : c0 = set_useDps false c0) by (destruct c0; cbn in *; by subst).
  unfold has_identity in Hid.
  destruct (LocalConfiguration_ReadJsonStringConfig reader LOCAL_CONFIG_AUTHENTICATION_AUTHENTICATION_METHOD) as [r1 method] eqn:E1.
  destruct (LocalConfiguration_ReadJsonStringConfig reader LOCAL_CONFIG_AUTHENTICATION_IDENTITY) as [r2 [who|]] eqn:E2; [|done].
  destruct (LocalConfiguration_ReadJsonStringConfig reader LOCAL_CONFIG_AUTHENTICATION_FILE_PATH) as [r3 file] eqn:E3.
  cbn [deref]. apply does_ret_bind.
  destruct (three_reads reader r1 r2 r3 method who file E1 E2 E3) as [[Hbad Hnone]|(-> & -> & -> & S1 & S2 & S3 & Hm & Hf)].
  { destruct (Utils_UnsafeAreStringsEqual who LOCAL_CONFIG_AUTHENTICATION_IDENTITY_VALUE_DPS true).
    - apply does_assoc, does_assign. destruct (JsonObjectReader_StepIn reader LOCAL_CONFIG_AUTHENTICATION_DPS) as [r4 dps].
      destruct (LocalConfiguration_ReadJsonStringConfig dps LOCAL_CONFIG_AUTHENTICATION_DPS_IDSCOPE) as [r5 scope].
      destruct (LocalConfiguration_ReadJsonStringConfig dps LOCAL_CONFIG_AUTHENTICATION_DPS_REGISTRATION_ID) as [r6 registration].
      destruct (JsonObjectReader_StepOut dps) as [r7 out]. refused.
    - rewrite Hc0 at 1. destruct (LocalConfiguration_ReadJsonStringConfig reader LOCAL_CONFIG_AUTHENTICATION_HOST_NAME) as [r4 host].
      destruct (LocalConfiguration_ReadJsonStringConfig reader LOCAL_CONFIG_AUTHENTICATION_DEVICE_ID) as [r5 device]. refused. }
  destruct method as [method|]; [|done]. destruct file as [file|]; [|done]. clear Hid Hm Hf E1 E2 E3.
  destruct (Utils_UnsafeAreStringsEqual who LOCAL_CONFIG_AUTHENTICATION_IDENTITY_VALUE_DPS true) eqn:Hdps.
  - apply does_assoc, does_assign. destruct (enter reader LOCAL_CONFIG_AUTHENTICATION_DPS) as [dps|] eqn:Hdin.
    + destruct (enter_leave reader LOCAL_CONFIG_AUTHENTICATION_DPS dps eq_refl Hdin) as [-> ->].
      destruct (config_cases dps LOCAL_CONFIG_AUTHENTICATION_DPS_IDSCOPE) as [(scope & -> & S4 & T4)|(r & v & -> & Hr & S4)];
        destruct (config_cases dps LOCAL_CONFIG_AUTHENTICATION_DPS_REGISTRATION_ID) as [(registration & -> & S5 & T5)|(r' & v' & -> & Hr' & S5)].
      2-4: refused.
      apply does_ret_bind. cbn -[connect_by_identity]. do 2 apply does_ret_bind.
      assert (Hcr : spec_credentials reader = Some (Provisioned method file scope registration))
        by (unfold spec_credentials; rewrite S1, S2, S3; cbn; rewrite Hdps, Hdin; cbn; rewrite S4; cbn; by rewrite S5).
      eapply does_weaken; [by apply (section_connects _ _ _ _ who (Provisioned method file scope registration)); auto | cbn; unfold held_by; cbn; lia | done].
    + destruct (enter_none _ _ Hdin) as (r4 & dps & -> & Hr4).
      destruct (LocalConfiguration_ReadJsonStringConfig dps LOCAL_CONFIG_AUTHENTICATION_DPS_IDSCOPE) as [r5 scope].
      destruct (LocalConfiguration_ReadJsonStringConfig dps LOCAL_CONFIG_AUTHENTICATION_DPS_REGISTRATION_ID) as [r6 registration].
      destruct (JsonObjectReader_StepOut dps) as [r7 out].
      refused.
  - destruct (config_cases reader LOCAL_CONFIG_AUTHENTICATION_HOST_NAME) as [(host & -> & S4 & T4)|(r & v & -> & Hr & S4)];
      destruct (config_cases reader LOCAL_CONFIG_AUTHENTICATION_DEVICE_ID) as [(device & -> & S5 & T5)|(r' & v' & -> & Hr' & S5)].
    2-4: rewrite Hc0 at 1; refused.
    apply does_ret_bind. cbn -[connect_by_identity]. do 2 apply does_ret_bind. rewrite Hc0 at 1.
    assert (Hcr : spec_credentials reader = Some (Named who method file host device))
      by (unfold spec_credentials; rewrite S1, S2, S3; cbn; rewrite Hdps, S4; cbn; by rewrite S5).
    by apply (section_connects _ _ _ _ who (Named who method file host device)); auto.
Qed.

(** A severity, or [known] when it is not there; [None] for a number that is not
    an [int32_t]. *)
Definition read_severity (logging : JsonObjectReader) (key : string) (known : Z) : option Z :=
  match JsonObjectReader_GetValueOfType logging key JSONNumber with
  | (JSON_READER_OK, Some value) => double_to_int32 (json_value_get_number (rd_document logging) value)
  | _ => Some known
  end.

(** The severities that the file sets. *)
Definition spec_severities (root : JsonObjectReader) (system diagnostic : Z) : option (Z * Z) :=
  match enter root LOCAL_CONFIG_LOGGING with
  | Some logging =>
      x ← read_severity logging LOCAL_CONFIG_LOGGING_SYSTEM_LOGGER_MINIMUM_SEVERITY system;
      y ← read_severity logging LOCAL_CONFIG_LOGGING_DIAGNOSTIC_EVENT_MINIMUM_SEVERITY diagnostic;
      Some (x, y)
  | None => Some (system, diagnostic)
  end.

Lemma severity_effect logging key known x :
  read_severity logging key known = Some x ->
  effect (fun _ => 0) (fun _ r => default known (snd r) = x) (up (JsonObjectReader_ReadInt logging key)).
Proof.
  intros H. apply effect_up. intros w. unfold JsonObjectReader_ReadInt, read_severity in *.
  destruct (JsonObjectReader_GetValueOfType logging key JSONNumber) as [[] [v|]]; try (eexists _, _; repeat split; cbn; congruence).
  destruct (double_to_int32 _) as [n|]; [|done]. eexists _, _. repeat split. cbn. congruence.
Qed.

Lemma InitLogger_does E m0 c0 root x y :
  spec_severities root (systemLoggerMinimumSeverity c0) (diagnosticEventMinimumSeverity c0) = Some (x, y) ->
  does E m0 c0 (fun _ => 0) (fun _ _ m c => m = m0 /\ c = set_severities x y c0) (LocalConfiguration_InitLogger root).
Proof.
  unfold spec_severities, LocalConfiguration_InitLogger. destruct (enter root LOCAL_CONFIG_LOGGING) as [logging|] eqn:Hin.
  - destruct (enter_leave root LOCAL_CONFIG_LOGGING logging eq_refl Hin) as [-> _].
    destruct (read_severity logging LOCAL_CONFIG_LOGGING_SYSTEM_LOGGER_MINIMUM_SEVERITY _) as [x'|] eqn:H1; cbn; [|done].
    destruct (read_severity logging LOCAL_CONFIG_LOGGING_DIAGNOSTIC_EVENT_MINIMUM_SEVERITY _) as [y'|] eqn:H2; cbn; [|done].
    intros [= -> ->]. eapply does_base; [by eapply severity_effect|]. intros [r system] (e0 & _ & Hs). cbn in Hs.
    apply does_statics. rewrite Hs. apply does_assign.
    eapply does_base; [by eapply severity_effect|]. intros [r' diagnostic] (e1 & _ & Hd). cbn in Hd.
    apply does_statics, does_assign_last; [unfold held_by; cbn; lia|]. intros e _ _. split; [done|]. cbn. by rewrite Hd.
  - destruct (enter_none _ _ Hin) as (r & reader & -> & Hr). intros [= <- <-]. destruct r; try done;
      (apply does_ret; [done|]); intros e _; (split; [done|]); by destruct c0.
Qed.

Lemma Deinit_does E m0 c0 :
  (authenticationManagerInitialized c0 = false -> owned m0 = 0) ->
  does E m0 c0 (fun _ => 0)
    (fun _ _ m c => owned m = 0 /\ c = set_agentId None (set_string None (set_managerInitialized false c0))) LocalConfiguration_Deinit.
Proof.
  intros Ho. unfold LocalConfiguration_Deinit. apply does_statics.
  eapply (does_bind _ _ _ _ _ _ _ (fun _ => 0) (fun _ _ m c => owned m = 0 /\ c = set_managerInitialized false c0)).
  - destruct (authenticationManagerInitialized c0) eqn:Hi.
    + eapply does_auth; [apply Manager_Deinit_run|]. intros ? m1 (e & _ & ->). apply does_assign_last; [unfold held_by; cbn; lia|]. by repeat split.
    + apply does_ret; [done|]. intros e _. split; [by apply Ho|]. destruct c0. cbn in *. by subst.
  - intros ? m1 c1 (e & _ & Hm & ->).
    eapply does_base; [apply effect_release_if|]. intros ? _. apply does_assign.
    eapply does_base; [apply effect_release_if|]. intros ? _. apply does_assign, does_statics. cbn.
    destruct (remoteConfigurationObjectName c0).
    + apply does_base with (d1 := fun _ => 0) (Q1 := fun _ _ => True); [by apply effect_ret|]. intros ? _.
      apply does_assign_last; [unfold held_by; cbn; lia|]. done.
    + apply does_ret; [unfold held_by; cbn; lia|]. done.
Qed.

(** *** The whole file *)

(** The statics that the file says, with the name of the manager's flag left open. *)
Definition spec_statics (file : JsonObjectReader) (c : LocalStatics) : option LocalStatics :=
  root ← enter file LOCAL_CONFIG_CONFIGURATION;
  agent ← read_config root LOCAL_CONFIG_AGENT_ID;
  interval ← read_time root LOCAL_CONFIG_AGENT_ID_TRIGGERED_EVENTS_INTERVAL;
  timeout ← read_time root LOCAL_CONFIG_CONNECTION_TIMEOUT;
  remote ← read_config root LOCAL_CONFIG_REMOTE_CONFIGURATION_OBJECT_NAME;
  section ← enter root LOCAL_CONFIG_AUTHENTICATION;
  credentials ← spec_credentials section;
  connection ← spec_connection credentials;
  severities ← spec_severities root (systemLoggerMinimumSeverity c) (diagnosticEventMinimumSeverity c);
  Some (mkStatics (Some connection) (Some agent) false (is_provisioned credentials) interval timeout (fst severities) (snd severities) (Some remote)).

(** What the unit relies on in the file: the identity is there, the credentials
    are usable and the severities are [int32_t]s. *)
Definition well_formed (E : Env -> Prop) (file : JsonObjectReader) (c : LocalStatics) : Prop :=
  forall root, enter file LOCAL_CONFIG_CONFIGURATION = Some root ->
    spec_severities root (systemLoggerMinimumSeverity c) (diagnosticEventMinimumSeverity c) <> None /\
    forall section, enter root LOCAL_CONFIG_AUTHENTICATION = Some section ->
      has_identity section /\ forall cr, spec_credentials section = Some cr -> usable E cr.

(** The result agrees with [spec], and what is not in use owns nothing. *)
Definition initialises (spec : option LocalStatics) (e : Env) (r : LocalConfigurationResultValues) (m : AuthenticationManager)
    (c : LocalStatics) : Prop :=
  (authenticationManagerInitialized c = false -> owned m = 0) /\
  (never_fails e -> match r with OK => set_managerInitialized false <$> Some c = spec | EXCEPTION => spec = None end).

(** Nothing is held yet. *)
Definition cleared (m : AuthenticationManager) (c : LocalStatics) : Prop :=
  unused m c /\ agentId c = None /\ remoteConfigurationObjectName c = None /\ useDps c = false.

Lemma read_time_cases reader key :
  (exists t, LocalConfiguration_ReadJsonTimeConfig reader key = (JSON_READER_OK, Some t) /\ read_time reader key = Some t) \/
  (exists r v, LocalConfiguration_ReadJsonTimeConfig reader key = (r, v) /\ (r <> JSON_READER_OK \/ v = None) /\ read_time reader key = None).
Proof.
  unfold LocalConfiguration_ReadJsonTimeConfig, read_time.
  destruct (JsonObjectReader_ReadTimeInMilliseconds reader key) as [[] [t|]]; [left; by exists t | right..]; eexists _, _;
    (split; [done|]); (split; [|done]); by auto.
Qed.

Lemma not_ok {T} (r : JsonReaderResult) (v : option T) {B} (f : T -> B) (z : B) :
  r <> JSON_READER_OK \/ v = None -> match r, v with JSON_READER_OK, Some x => f x | _, _ => z end = z.
Proof. intros [H| ->]; by destruct r. Qed.

(** The file is refused. *)
Lemma refuse_file E m0 c0 spec d :
  (authenticationManagerInitialized c0 = false -> owned m0 = 0) -> spec = None -> (forall r, d r = 0) ->
  does E m0 c0 d (initialises spec) (ret EXCEPTION).
Proof. intros H -> Hd. apply does_ret; [apply Hd|]. intros e _. by split. Qed.

(** The end of the file, once the [Authentication] section is read. *)
Lemma finish_does E m0 c0 root d (Q : Env -> LocalConfigurationResultValues -> AuthenticationManager -> LocalStatics -> Prop) x y :
  spec_severities root (systemLoggerMinimumSeverity c0) (diagnosticEventMinimumSeverity c0) = Some (x, y) ->
  (forall r, d r = 0) -> (forall e, Q e OK m0 (set_severities x y c0)) ->
  does E m0 c0 d Q (LocalConfiguration_InitLogger root ;;; ret OK).
Proof.
  intros Hs Hd HQ. eapply does_bind; [by apply InitLogger_does|]. intros ? m1 c1 (e & _ & -> & ->).
  apply does_ret; [rewrite Hd; lia|]. intros e' _ _. apply HQ.
Qed.

(** A copy that was made, or a failure that the environment explains. *)
Lemma copied_does E m0 c0 src set (k : M (LocalState S) LocalConfigurationResultValues) spec d :
  held_by (set (Some src) c0) = held_by c0 + 1 -> held_by (set None c0) = held_by c0 -> (forall r, d r = 0) ->
  (authenticationManagerInitialized (set None c0) = false -> owned m0 = 0) ->
  does E m0 (set (Some src) c0) (fun _ => 0) (initialises spec) k ->
  does E m0 c0 d (initialises spec)
    (copied <- create_copy src set ;; if decide (copied <> OK) then ret EXCEPTION else k).
Proof.
  intros H1 H2 Hd Hi Hk. eapply does_bind; [by apply create_copy_does|]. intros r m1 c1 (e0 & _ & -> & _ & ->).
  destruct (decide (r = OK)) as [->|Hr].
  - rewrite decide_False by (intros H; by apply H). eapply does_weaken; [exact Hk | intros; rewrite Hd; lia | done].
  - rewrite decide_True by done. apply does_ret; [rewrite Hd; lia|]. intros e _ (_ & Hn & _). split; [done|].
    intros He. by destruct (Hr (Hn He)).
Qed.

(** The last part: the [Authentication] section, and the severities. *)
Lemma last_part_does E m0 c0 root :
  unused m0 c0 -> useDps c0 = false ->
  spec_severities root (systemLoggerMinimumSeverity c0) (diagnosticEventMinimumSeverity c0) <> None ->
  (forall section, enter root LOCAL_CONFIG_AUTHENTICATION = Some section ->
     has_identity section /\ forall cr, spec_credentials section = Some cr -> usable E cr) ->
  does E m0 c0 (fun _ => 0)
    (initialises (section ← enter root LOCAL_CONFIG_AUTHENTICATION; credentials ← spec_credentials section;
       connection ← spec_connection credentials;
       severities ← spec_severities root (systemLoggerMinimumSeverity c0) (diagnosticEventMinimumSeverity c0);
       Some (set_managerInitialized false (set_severities (fst severities) (snd severities)
         (set_string (Some connection) (set_useDps (is_provisioned credentials) c0))))))
    (let* (result, jsonReader) := LocalConfiguration_InitConnectionString root in
     if decide (result <> OK) then ret EXCEPTION
     else
       match JsonObjectReader_StepOut jsonReader with
       | (JSON_READER_OK, jsonReader) => LocalConfiguration_InitLogger jsonReader ;;; ret OK
       | _ => ret EXCEPTION
       end).
Proof.
  intros Hidle Hu Hsev Hsec. destruct (enter root LOCAL_CONFIG_AUTHENTICATION) as [section|] eqn:Hin.
  2: { destruct (enter_none _ _ Hin) as (r & reader & Hr & Hne). unfold LocalConfiguration_InitConnectionString. rewrite Hr.
       rewrite decide_True by done. apply does_ret_bind. rewrite decide_True by done. apply refuse_file; [intros _; apply Hidle | done | done]. }
  destruct (Hsec section eq_refl) as [Hid Hcr]. destruct (enter_leave root LOCAL_CONFIG_AUTHENTICATION section eq_refl Hin) as [_ Hout].
  eapply does_bind; [by apply InitConnectionString_does|]. intros [r reader] m1 c1 (e0 & _ & dps & Hcon & Hok). cbn [fst snd] in *.
  destruct Hcon as (used & out & -> & Hused & -> & _). cbn -[spec_severities spec_connection spec_credentials].
  destruct out as [connection|]; cbn [result_of bool_decide].
  - rewrite decide_False by (intros H; by apply H). destruct (Hok eq_refl) as (-> & cr & Hc & ->). rewrite Hout, Hc.
    destruct (spec_severities root _ _) as [[x y]|] eqn:Hxy; [|done].
    eapply finish_does; [exact Hxy | intros; lia|]. intros e (dps & (used' & out' & Heq & _ & Hr & Hs) & _).
    split; [exact Hused|]. intros Hn. specialize (Hs Hn). rewrite Hc in Hs. cbn -[spec_connection] in Hs |- *. rewrite <- Hs.
    assert (out' = Some connection) as -> by (by apply (f_equal connectionString) in Heq). done.
  - rewrite decide_True by done. apply does_ret; [done|]. intros e _ (dps' & (used' & out' & Heq & _ & _ & Hs) & _).
    split; [exact Hused|]. intros Hn. specialize (Hs Hn).
    assert (out' = None) as -> by (by apply (f_equal connectionString) in Heq).
    destruct (spec_credentials section) as [cr|]; [|done]. cbn -[spec_connection] in Hs |- *. by rewrite <- Hs.
Qed.

Lemma init_from_reader_does E m0 c0 file :
  cleared m0 c0 -> well_formed E file c0 ->
  does E m0 c0 (fun _ => 0) (initialises (spec_statics file c0)) (init_from_reader file).
Proof.
  intros (Hidle & Ha & Hr0 & Hu) Hwf. assert (Ho : owned m0 = 0) by apply Hidle. unfold init_from_reader, spec_statics.
  destruct (enter file LOCAL_CONFIG_CONFIGURATION) as [root|] eqn:Hroot.
  2: { destruct (enter_none _ _ Hroot) as (r & ? & -> & Hr). destruct r; try done; by apply refuse_file. }
  destruct (enter_leave file LOCAL_CONFIG_CONFIGURATION root eq_refl Hroot) as [-> _].
  destruct (Hwf root Hroot) as [Hsev Hsec]. cbn -[spec_severities spec_connection spec_credentials].
  destruct (config_cases root LOCAL_CONFIG_AGENT_ID) as [(agent & -> & -> & _)|(r & v & -> & Hr & ->)].
  2: { destruct r; try done; by apply refuse_file. }
  cbn -[spec_severities spec_connection spec_credentials]. apply copied_does; [unfold held_by; cbn; rewrite Ha; cbn; lia.. | done | done |].
  destruct (read_time_cases root LOCAL_CONFIG_AGENT_ID_TRIGGERED_EVENTS_INTERVAL) as [(interval & -> & ->)|(r & v & -> & Hr & ->)].
  2: { destruct Hr as [Hr| ->]; destruct r; try done; try destruct v; by apply refuse_file. }
  cbn -[spec_severities spec_connection spec_credentials]. apply does_assign.
  destruct (read_time_cases root LOCAL_CONFIG_CONNECTION_TIMEOUT) as [(timeout & -> & ->)|(r & v & -> & Hr & ->)].
  2: { destruct Hr as [Hr| ->]; destruct r; try done; try destruct v; apply refuse_file; try done; unfold held_by; cbn; lia. }
  cbn -[spec_severities spec_connection spec_credentials]. apply does_assign.
  destruct (config_cases root LOCAL_CONFIG_REMOTE_CONFIGURATION_OBJECT_NAME) as [(remote & -> & -> & _)|(r & v & -> & Hr & ->)].
  2: { destruct r; try done; apply refuse_file; try done; unfold held_by; cbn; lia. }
  cbn -[spec_severities spec_connection spec_credentials]. apply copied_does; [unfold held_by; cbn; rewrite Hr0; cbn; lia.. | unfold held_by; cbn; lia | done |].
  eapply does_weaken; [by apply last_part_does | unfold held_by; cbn; lia | done].
Qed.

Definition spec_directory : option string :=
  link ← readlink_exe; Some (Utils_TrimLastOccurance (until_nul (stake (Z.to_nat (DEFAULT_BUFFER - 1)) link)) "/").

Definition file_reader (name : string) : option JsonObjectReader :=
  doc ← json_parse_file name; o ← json_value_get_object doc (json_root doc); Some (mkReader doc true o true).

(** The configuration file beside the executable. *)
Definition spec_file : option JsonObjectReader := directory ← spec_directory; file_reader (directory ++ CONFIGURATION_FILE).

(** After a failure nothing is held but the name of the remote configuration. *)
Definition released (m : AuthenticationManager) (c : LocalStatics) : Prop := unused m c /\ agentId c = None.

Definition local_outcome (spec : option LocalStatics) (e : Env) (r : LocalConfigurationResultValues) (m : AuthenticationManager)
    (c : LocalStatics) : Prop :=
  (r = EXCEPTION -> released m c) /\
  (never_fails e -> match r with OK => set_managerInitialized false <$> Some c = spec | EXCEPTION => spec = None end).

Lemma init_failed_does E m0 c0 d (Q : Env -> LocalConfigurationResultValues -> AuthenticationManager -> LocalStatics -> Prop) :
  (authenticationManagerInitialized c0 = false -> owned m0 = 0) -> (forall r, d r = 0) ->
  (forall e m c, released m c -> Q e EXCEPTION m c) -> does E m0 c0 d Q init_failed.
Proof.
  intros Ho Hd HQ. unfold init_failed. eapply does_bind; [by apply Deinit_does|]. intros ? m1 c1 (e & _ & Hm & ->).
  apply does_ret; [rewrite Hd; lia|]. intros e' _ _. apply HQ. by repeat split.
Qed.

Lemma file_effect name :
  effect (fun _ => 0)
    (fun e x => (x.1 = JSON_READER_OK /\ x.2 = file_reader name /\ x.2 <> None) \/
                (x.1 <> JSON_READER_OK /\ x.2 = None /\ (never_fails e -> file_reader name = None)))
    (up (JsonObjectReader_InitFromFile name)).
Proof.
  apply effect_up. intros w. unfold JsonObjectReader_InitFromFile, JsonObjectReader_Init, malloc, fallible, bind, file_reader. cbn.
  destruct (env_ok (env w) (tick w)) eqn:Ht.
  - destruct (json_parse_file name) as [doc|]; cbn; [destruct (json_value_get_object doc (json_root doc)) as [o|]; cbn|];
      eexists _, _; (split; [reflexivity|]; split; [done|]); cbn.
    + by left.
    + by right.
    + by right.
  - eexists _, _. split; [reflexivity|]. split; [done|]. right. split; [done|]. split; [done|]. intros Hn. by rewrite Hn in Ht.
Qed.

(** What follows once the directory is known. *)
Lemma read_file_does E m0 c0 directory :
  cleared m0 c0 -> (forall file, file_reader (directory ++ CONFIGURATION_FILE) = Some file -> well_formed E file c0) ->
  does E m0 c0 (fun _ => 0) (local_outcome (file ← file_reader (directory ++ CONFIGURATION_FILE); spec_statics file c0))
    (base acquire ;;;
     temp <- base (up malloc) ;;
     if negb temp then base release ;;; init_failed
     else
       let* (result, jsonReader) := base (up (JsonObjectReader_InitFromFile (directory ++ CONFIGURATION_FILE))) in
       match result, jsonReader with
       | JSON_READER_OK, Some reader =>
           base acquire ;;;
           returnVal <- init_from_reader reader ;;
           base release ;;;
           base release ;;;
           if decide (returnVal <> OK) then init_failed else ret returnVal
       | _, _ => base (release_if jsonReader) ;;; base release ;;; init_failed
       end).
Proof.
  intros Hcl Hwf. assert (Ho : authenticationManagerInitialized c0 = false -> owned m0 = 0) by (intros _; apply Hcl).
  eapply does_base; [apply effect_acquire|]. intros ? _. eapply does_base; [apply effect_fallible|]. intros [] _; cbn [negb].
  2: { eapply does_base; [apply effect_release|]. intros ? _. apply init_failed_does; [done | intros; lia|].
       intros e m c Hr _ He _. split; [done|]. intros Hn. by specialize (He Hn). }
  eapply does_base; [apply file_effect|]. intros [r reader] (e0 & _ & Hcase). cbn [fst snd] in Hcase.
  destruct Hcase as [(-> & Hfile & Hne)|(Hne & -> & _)].
  2: { destruct r; [done|..].
       all: eapply does_base; [apply effect_release_if|]; intros ? _.
       all: eapply does_base; [apply effect_release|]; intros ? _.
       all: apply init_failed_does; [done | intros; cbn; lia|].
       all: intros e m c Hr _ _ Hcase _ _; cbn [fst snd] in Hcase; split; [done|]; intros He.
       all: destruct Hcase as [(_ & _ & Hx)|(_ & _ & Hn)]; [done | by rewrite (Hn He)]. }
  destruct reader as [reader|]; [|done]. rewrite <- Hfile. cbn -[spec_statics].
  eapply does_base; [apply effect_acquire|]. intros ? _.
  eapply does_bind; [apply init_from_reader_does; by auto|]. intros r m1 c1 (e1 & _ & Hi & _).
  do 2 (eapply does_base; [apply effect_release|]; intros ? _). destruct (decide (r <> OK)) as [Hr|Hr].
  - apply init_failed_does; [done | intros; lia|]. intros e m c Hrel _ _ [_ Hn] _ _ _ _. split; [done|]. intros He.
    specialize (Hn He). by destruct r.
  - apply dec_stable in Hr as ->. apply does_ret; [lia|]. intros e _ _ _ [_ Hn] _ _ _ _. by split.
Qed.

(** Every answer that renewing may get is readable. *)
Definition renewal_readable (m : AuthenticationManager) : Prop :=
  dps_readable m /\ forall m1, spec_registration m ≫= spec_assign m = Some m1 -> hub_readable m1.

(** What renewing finds: the hub that the service assigns now, and its string. *)
Definition spec_renew (m : AuthenticationManager) : option (AuthenticationManager * string) :=
  m1 ← spec_registration m ≫= spec_assign m; text ← spec_connection_string m1 CONNECTION_STRING_SIZE; Some (m1, text).

Lemma renew_does m0 c0 :
  dpsRelativeUrl m0 <> None -> dpsRequestContent m0 <> None -> renewal_readable m0 -> no_leak m0 ->
  does never_fails m0 c0 (fun ok : bool => if ok then owns (connectionString c0) else 0)
    (fun _ ok m c =>
       same_pointers m0 m /\ ok = bool_decide (spec_renew m0 <> None) /\
       c = (if ok then set_string (snd <$> spec_renew m0) c0 else c0) /\
       (ok = true -> fst <$> spec_renew m0 = Some m))
    LocalConfiguration_TryRenewConnectionString.
Proof.
  intros Hu Hc [Hdps Hhub] Hl. unfold LocalConfiguration_TryRenewConnectionString, spec_renew.
  eapply does_auth; [by apply GetHostNameFromDPS_run|]. intros ok m1 (e0 & Hn & Hsame & Ha). destruct ok; cbn [negb].
  2: { rewrite (Ha Hn). by apply does_ret; [lia|]. }
  rewrite Ha. cbn -[spec_connection_string]. unfold LocalConfiguration_InitConnectionStringFromDevice. apply does_assoc.
  eapply does_auth; [by apply GetConnectionString_run, Hhub|]. intros out m2 (e1 & Hn1 & -> & Hout). rewrite <- (Hout (or_introl Hn1)).
  destruct out as [text|]; cbn.
  - unfold create_copy. apply does_assoc.
    eapply (does_base _ _ _ _ _ _ _ (fun _ => 0) (fun e p => never_fails e -> p = Some text)).
    { apply effect_up. intros w. unfold Utils_CreateStringCopy, malloc, fallible, bind. cbn.
      destruct (env_ok (env w) (tick w)) eqn:Ht; eexists _, _; (split; [reflexivity|]); (split; [done|]); [done|].
      intros He. by rewrite He in Ht. }
    intros p (e2 & Hn2 & Hp). rewrite (Hp Hn2). apply does_assoc. eapply does_base; [apply effect_acquire|]. intros ? _.
    apply does_assoc, does_assign, does_ret_bind. rewrite bool_decide_eq_true_2 by done.
    apply does_ret; [unfold held_by; cbn; lia | done].
  - apply does_ret_bind. rewrite bool_decide_eq_false_2 by done. apply does_ret; [cbn; lia | done].
Qed.

(** ** Properties *)

(** C20: Reading the agent's configuration. Nothing is held yet, the first
    allocation succeeds, and the file is well formed: an [Authentication] section
    has an identity, the key file ends within its buffer, the severities are
    [int32_t]s, and every answer of the hub can be read as a C string; and for the
    provisioning service no call fails, the details fit, and its answer can be
    read and is not one that leaves the reader open. Then
    [LocalConfiguration_Init] returns, and what is allocated is exactly what the
    manager and the statics own; after a failure that is nothing but the name of
    the remote configuration, which is never freed. When no call fails the result
    is the one the file says: the agent id, the two intervals, the severities, the
    object name and the connection string, built from the key of the module, or
    asked from the hub with the device's key or certificate, or from the hub to
    which the provisioning service assigns the device. *)
Theorem LocalConfiguration_Init_correct s :
  let m0 := authenticationManager (lo_auth s) in
  let e := env (world_of (au_inner (lo_auth s))) in
  cleared m0 (localStatics s) -> env_ok e (tick (world_of (au_inner (lo_auth s)))) = true ->
  (forall file, spec_file = Some file -> well_formed (eq e) file (localStatics s)) ->
  exists r s',
    LocalConfiguration_Init s = Some (r, s') /\
    live_of (au_inner (lo_auth s')) =
      live_of (au_inner (lo_auth s)) + owned (authenticationManager (lo_auth s')) + held_by (localStatics s') /\
    (r = EXCEPTION -> released (authenticationManager (lo_auth s')) (localStatics s')) /\
    (never_fails e -> r = OK -> set_managerInitialized false <$> Some (localStatics s') = (file ← spec_file; spec_statics file (localStatics s))) /\
    (never_fails e -> r = EXCEPTION -> (file ← spec_file; spec_statics file (localStatics s)) = None).
Proof.
  intros m0 e Hcl Hok Hwf. destruct s as [[i m] c]. cbn in *. subst m0.
  assert (H0 : owned m = 0 /\ held_by c = 0).
  { destruct Hcl as ((H1 & _ & H2) & H3 & H4 & _). unfold held_by. by rewrite H2, H3, H4. }
  unfold LocalConfiguration_Init, spec_file, spec_directory in *.
  destruct readlink_exe as [link|] eqn:Hlink.
  - cbn [mbind option_bind] in *.
    set (directory := Utils_TrimLastOccurance (until_nul (stake (Z.to_nat (DEFAULT_BUFFER - 1)) link)) "/") in *.
    assert (Hdir : up GetExecutableDirectory i = Some (Some directory, with_world (bump 1 (world_of i)) i)).
    { unfold up, GetExecutableDirectory, malloc, fallible, bind. rewrite Hlink. cbn. fold e. by rewrite Hok. }
    set (i1 := with_world (bump 1 (world_of i)) i) in *.
    assert (He1 : env (world_of i1) = e) by (unfold i1; by rewrite world_of_with).
    assert (Hl1 : live_of i1 = live_of i) by (unfold i1; apply live_of_with_world).
    destruct (read_file_does (eq e) m c directory Hcl Hwf i1 (eq_sym He1)) as (r & i2 & m2 & c2 & H1 & H2 & _ & _ & H3 & H4).
    exists r, (mkLocal (mkAuth i2 m2) c2). cbn -[spec_statics] in *. rewrite He1 in H4. split; [|split; [lia|]].
    + unfold base, auth, inner. unfold bind at 1. cbn. rewrite Hdir. exact H1.
    + split; [done|]. split; intros Hn ->; by specialize (H4 Hn).
  - destruct (init_failed_does (eq e) m c (fun _ => 0) (fun _ r m c => r = EXCEPTION /\ released m c) ltac:(intros _; lia)
      ltac:(done) ltac:(done) i eq_refl) as (r & i2 & m2 & c2 & H1 & H2 & _ & _ & -> & H4).
    exists EXCEPTION, (mkLocal (mkAuth i2 m2) c2). cbn in *. split; [|split; [lia|]; split; [done|]; by split].
    unfold base, auth, inner, up, GetExecutableDirectory, bind at 1. rewrite Hlink. cbn. rewrite with_world_of. exact H1.
Qed.

(** Renewing the connection string, when no call fails and the answers can be
    read: it succeeds exactly when
    the provisioning service assigns a hub and the hub gives a key; the statics
    then hold the new string, and the string they held before is never freed. *)
Theorem TryRenew_correct s :
  let m := authenticationManager (lo_auth s) in
  let c := localStatics s in
  dpsRelativeUrl m <> None -> dpsRequestContent m <> None -> renewal_readable m -> no_leak m -> never_fails (env (world_of (au_inner (lo_auth s)))) ->
  exists s',
    LocalConfiguration_TryRenewConnectionString s = Some (bool_decide (spec_renew m <> None), s') /\
    live_of (au_inner (lo_auth s')) =
      live_of (au_inner (lo_auth s)) + match spec_renew m with Some _ => 1 | None => 0 end /\
    match spec_renew m with
    | Some (m1, text) => authenticationManager (lo_auth s') = m1 /\ localStatics s' = set_string (Some text) c
    | None => same_pointers m (authenticationManager (lo_auth s')) /\ localStatics s' = c
    end.
Proof.
  intros m c Hu Hc Hread Hl Hn. destruct s as [[i m0] c0]. cbn in *.
  destruct (renew_does m0 c0 Hu Hc Hread Hl i Hn) as (ok & i1 & m1 & c1 & H1 & H2 & _ & _ & Hp & -> & -> & H3).
  eexists. split; [exact H1|]. cbn. rewrite (same_owned _ _ Hp) in H2. subst m c.
  destruct (spec_renew m0) as [[m' text]|] eqn:Hs.
  - rewrite bool_decide_eq_true_2 in * by done. cbn in *. specialize (H3 eq_refl). injection H3 as ->. split; [|done].
    unfold held_by in H2. cbn in H2. destruct (connectionString c0); cbn in H2; lia.
  - rewrite bool_decide_eq_false_2 in * by (intros H; by apply H). split; [lia | done].
Qed.

(** [LocalConfiguration_Deinit] releases the manager, the connection string and
    the agent id, and nothing else: the name of the remote configuration stays
    allocated. *)
Theorem LocalConfiguration_Deinit_correct s :
  let m := authenticationManager (lo_auth s) in
  let c := localStatics s in
  (authenticationManagerInitialized c = false -> owned m = 0) ->
  exists s',
    LocalConfiguration_Deinit s = Some (tt, s') /\
    live_of (au_inner (lo_auth s')) = live_of (au_inner (lo_auth s)) - owned m - owns (connectionString c) - owns (agentId c) /\
    released (authenticationManager (lo_auth s')) (localStatics s') /\
    remoteConfigurationObjectName (localStatics s') = remoteConfigurationObjectName c.
Proof.
  intros m c Ho. destruct s as [[i m0] c0]. cbn in *. subst m c.
  destruct (Deinit_does (eq (env (world_of i))) m0 c0 Ho i eq_refl) as ([] & i1 & m1 & c1 & H1 & H2 & _ & _ & Hm & ->).
  eexists. split; [exact H1|]. cbn. split; [unfold held_by in H2; cbn in H2; lia|]. by repeat split.
Qed.

(** Without the identity the unit compares a null pointer. *)
Lemma missing_identity_undefined root section s :
  enter root LOCAL_CONFIG_AUTHENTICATION = Some section -> ~ has_identity section ->
  LocalConfiguration_InitConnectionString root s = None.
Proof.
  intros Hin Hid. unfold LocalConfiguration_InitConnectionString.
  destruct (enter_leave root LOCAL_CONFIG_AUTHENTICATION section eq_refl Hin) as [-> _]. rewrite decide_False by (intros H; by apply H).
  destruct (LocalConfiguration_ReadJsonStringConfig section LOCAL_CONFIG_AUTHENTICATION_AUTHENTICATION_METHOD) as [r1 method].
  unfold has_identity in Hid.
  destruct (LocalConfiguration_ReadJsonStringConfig section LOCAL_CONFIG_AUTHENTICATION_IDENTITY) as [r2 [who|]]; [by destruct Hid|].
  by destruct (LocalConfiguration_ReadJsonStringConfig section LOCAL_CONFIG_AUTHENTICATION_FILE_PATH) as [r3 file].
Qed.

End LocalConfig.

(** ** Witnesses *)

(** A device with a key in a file. *)
Definition sample_configuration : json :=
  JObj [("Configuration", JObj [
    ("AgentId", JStr "f8b4a2d1-52a4-4d5c-8a0f-3d9c1a7e2b60");
    ("TriggerdEventsInterval", JStr "PT2M"); ("ConnectionTimeout", JStr "PT30S");
    ("RemoteConfigurationObjectName", JStr "ms_iotn:urn_azureiot_Security_SecurityAgentConfiguration");
    ("Authentication", JObj [
      ("Identity", JStr "Device"); ("AuthenticationMethod", JStr "SasToken"); ("FilePath", JStr "/var/key");
      ("DeviceId", JStr "device1"); ("HostName", JStr "hub.azure-devices.net")]);
    ("Logging", JObj [("SystemLoggerMinimumSeverity", JNum (inject_Z 2))])])]%string.

Definition configuration_json : Parson :=
  c_parson (model_parson (fun text => if String.eqb text "/opt/agent/LocalConfiguration.json" then Some sample_configuration else network_parse text)
    (fun _ => EmptyString)).

Definition local_state (m : AuthenticationManager) (c : LocalStatics) : LocalState Counted := mkLocal (sample_state m) c.

Definition device_string : string := "HostName=hub.azure-devices.net;DeviceId=device1;ModuleId=azureiotsecurity;SharedAccessKey=bW9kdWxl".

Lemma LocalConfiguration_Init_correct_witness :
  exists s',
    @LocalConfiguration_Init Counted _ _ (model_http sample_network) configuration_json _ _ (local_state fresh zero_statics) =
      Some (LOCAL_CONFIGURATION_OK, s') /\
    connectionString (localStatics s') = Some device_string /\ triggeredEventsInterval (localStatics s') = 120000 /\
    systemLoggerMinimumSeverity (localStatics s') = 2.
Proof.
  assert (Hwf : forall file, @spec_file configuration_json _ = Some file ->
    @well_formed Counted _ _ (model_http sample_network) configuration_json _ _ (model_http_laws sample_network)
      (eq (env (world_of (au_inner (lo_auth (local_state fresh zero_statics)))))) file zero_statics).
  { intros file Hf root Hr. vm_compute in Hf. injection Hf as <-. vm_compute in Hr. injection Hr as <-. split; [vm_compute; discriminate|].
    intros section Hs. vm_compute in Hs. injection Hs as <-. split; [vm_compute; discriminate|].
    intros cr Hcr. vm_compute in Hcr. injection Hcr as <-. split.
    - intros content H. vm_compute in H. injection H as <-. vm_compute. discriminate.
    - intros _ m (key & Hk & ->) method Hm _. injection Hm as <-. vm_compute. discriminate. }
  destruct (@LocalConfiguration_Init_correct Counted _ _ (model_http sample_network) configuration_json _ _ (model_http_laws sample_network)
    _ _ (local_state fresh zero_statics) ltac:(by repeat split) eq_refl Hwf) as (r & [a c] & H1 & _ & _ & H2 & H3).
  destruct r.
  - exists (mkLocal a c). split; [exact H1|]. specialize (H2 good_reliable eq_refl). cbn [localStatics] in *.
    destruct c. vm_compute in H2. injection H2. intros. subst. cbn [connectionString triggeredEventsInterval systemLoggerMinimumSeverity].
    split; [reflexivity | split; reflexivity].
  - specialize (H3 good_reliable eq_refl). vm_compute in H3. discriminate H3.
Defined.

Lemma TryRenew_correct_witness :
  exists s',
    @LocalConfiguration_TryRenewConnectionString Counted _ _ (model_http sample_network) configuration_json
      (local_state registering (set_string (Some "old"%string) zero_statics)) = Some (true, s') /\
    connectionString (localStatics s') = Some device_string /\ live_of (au_inner (lo_auth s')) = 1.
Proof.
  assert (Hs : @spec_renew Counted _ _ (model_http sample_network) configuration_json (model_http_laws sample_network) registering =
    Some (assigned ("hub.azure-devices.net", "device1", "2019-10-02T07:06:40Z")%string registering, device_string))
    by (vm_compute; reflexivity).
  assert (Hread : @renewal_readable Counted _ _ (model_http sample_network) configuration_json (model_http_laws sample_network) registering).
  { split; [intros a [= <-] _; vm_compute; discriminate|]. intros m1 H. vm_compute in H. injection H as <-.
    intros method [= <-] _. vm_compute. discriminate. }
  destruct (@TryRenew_correct Counted _ _ (model_http sample_network) configuration_json (model_http_laws sample_network) _
    (local_state registering (set_string (Some "old"%string) zero_statics)) ltac:(done) ltac:(done) Hread ltac:(intros text [= <-]; vm_compute; reflexivity)
    good_reliable) as (s' & H1 & H2 & H3).
  cbn [lo_auth local_state authenticationManager sample_state] in H1, H2, H3. rewrite Hs in H1, H2, H3.
  destruct H3 as [_ H3]. exists s'. split; [exact H1|]. split; [rewrite H3; reflexivity | exact H2].
Defined.

Lemma LocalConfiguration_Deinit_correct_witness :
  let s := local_state key_manager (mkStatics (Some "string") (Some "agent") true false 0 0 0 0 (Some "name"))%string in
  exists s', @LocalConfiguration_Deinit Counted _ _ s = Some (tt, s') /\ remoteConfigurationObjectName (localStatics s') = Some "name"%string.
Proof.
  intros s. destruct (@LocalConfiguration_Deinit_correct Counted _ _ s ltac:(done)) as (s' & H1 & _ & _ & H2).
  exists s'. split; [exact H1 | exact H2].
Defined.
