(* ===== verification/TwinUtils.v ===== *)
(** * [twin_configuration_utils.c]: reading and writing one configuration

    A configuration [key] is stored in the twin as an object
    [{"<key>": {"value": v}}]. *)

From S2P Require Import Prelude CString TwinDefs World Parson Json.
From Stdlib Require Import String.
Open Scope Z_scope.

Inductive TwinConfigurationTypes : Type := STRING | UINT | TIME | BOOL.

Definition VALUE_KEY : string := "value".

(** What [void* value] points to, by the type of the configuration. *)
Inductive ConfigurationValue : Type :=
  | StringValue (s : string)
  | UintValue (n : Z)
  | TimeValue (ms : Z)
  | BoolValue (b : bool).

Section TwinUtils.
Context {P : Parson}.

(** Reading the value of the object that the reader is in: the reader's result
    and the value stored, if any.  An [int32_t] is stored through a
    [uint32_t*], so a negative number becomes a large one. *)
Definition read_value (reader : JsonObjectReader) (type : TwinConfigurationTypes)
    : M World (JsonReaderResult * option ConfigurationValue) :=
  match type with
  | STRING => let '(r, v) := JsonObjectReader_ReadString reader VALUE_KEY in ret (r, StringValue <$> v)
  | UINT => let* (r, v) := JsonObjectReader_ReadInt reader VALUE_KEY in
            ret (r, (fun n => UintValue (u32 n)) <$> v)
  | TIME => let '(r, v) := JsonObjectReader_ReadTimeInMilliseconds reader VALUE_KEY in ret (r, TimeValue <$> v)
  | BOOL => let '(r, v) := JsonObjectReader_ReadBool reader VALUE_KEY in ret (r, BoolValue <$> v)
  end.

Definition TwinConfigurationUtils_Internal_GetConfigurationValueFromJson
    (reader : JsonObjectReader) (key : string) (type : TwinConfigurationTypes)
    : M World (TwinConfigurationResult * JsonObjectReader * option ConfigurationValue) :=
  match JsonObjectReader_StepIn reader key with
  | (JSON_READER_KEY_MISSING, reader) | (JSON_READER_VALUE_IS_NULL, reader) =>
      ret (TWIN_CONF_NOT_EXIST, reader, None)
  | (JSON_READER_PARSE_ERROR, reader) => ret (TWIN_PARSE_EXCEPTION, reader, None)
  | (JSON_READER_EXCEPTION, reader) => ret (TWIN_EXCEPTION, reader, None)
  | (JSON_READER_OK, reader) =>
      let* (readerResult, value) := read_value reader type in
      let result :=
        match readerResult with
        | JSON_READER_KEY_MISSING | JSON_READER_VALUE_IS_NULL | JSON_READER_PARSE_ERROR => TWIN_PARSE_EXCEPTION
        | JSON_READER_OK => TWIN_OK
        | JSON_READER_EXCEPTION => TWIN_EXCEPTION
        end in
      let '(out, reader) := JsonObjectReader_StepOut reader in
      if decide (out <> JSON_READER_OK) then ret (TWIN_EXCEPTION, reader, value)
      else ret (result, reader, value)
  end.

Definition TwinConfigurationUtils_GetConfigurationTimeValueFromJson (reader : JsonObjectReader) (key : string)
    : M World (TwinConfigurationResult * JsonObjectReader * option Z) :=
  let* (r, reader, v) := TwinConfigurationUtils_Internal_GetConfigurationValueFromJson reader key TIME in
  ret (r, reader, match v with Some (TimeValue n) => Some n | _ => None end).

Definition TwinConfigurationUtils_GetConfigurationUintValueFromJson (reader : JsonObjectReader) (key : string)
    : M World (TwinConfigurationResult * JsonObjectReader * option Z) :=
  let* (r, reader, v) := TwinConfigurationUtils_Internal_GetConfigurationValueFromJson reader key UINT in
  ret (r, reader, match v with Some (UintValue n) => Some n | _ => None end).

Definition TwinConfigurationUtils_GetConfigurationStringValueFromJson (reader : JsonObjectReader) (key : string)
    : M World (TwinConfigurationResult * JsonObjectReader * option string) :=
  let* (r, reader, v) := TwinConfigurationUtils_Internal_GetConfigurationValueFromJson reader key STRING in
  ret (r, reader, match v with Some (StringValue s) => Some s | _ => None end).

Definition TwinConfigurationUtils_GetConfigurationBoolValueFromJson (reader : JsonObjectReader) (key : string)
    : M World (TwinConfigurationResult * JsonObjectReader * option bool) :=
  let* (r, reader, v) := TwinConfigurationUtils_Internal_GetConfigurationValueFromJson reader key BOOL in
  ret (r, reader, match v with Some (BoolValue b) => Some b | _ => None end).

(** The value is written into a new object, which is then added to [writer].
    A [TIME] is not a type that can be written. *)
Definition TwinConfigurationUtils_Internal_WriteConfigurationToJson
    (writer : JsonObjectWriter) (key : string) (value : ConfigurationValue)
    : M World (TwinConfigurationResult * JsonObjectWriter) :=
  let* (r, configurationObject) := JsonObjectWriter_Init in
  match configurationObject with
  | None => ret (TWIN_EXCEPTION, writer)
  | Some object =>
      if decide (r <> JSON_WRITER_OK) then ret (TWIN_EXCEPTION, writer)
      else
        let '(writerResult, object) :=
          match value with
          | StringValue s => JsonObjectWriter_WriteString object VALUE_KEY s
          | UintValue n => JsonObjectWriter_WriteInt object VALUE_KEY (i32 n)
          | BoolValue b => JsonObjectWriter_WriteBool object VALUE_KEY b
          | TimeValue _ => (JSON_WRITER_EXCEPTION, object)
          end in
        if decide (writerResult <> JSON_WRITER_OK) then ret (TWIN_EXCEPTION, writer)
        else
          match JsonObjectWriter_WriteObject writer key object with
          | (JSON_WRITER_OK, writer, _) => ret (TWIN_OK, writer)
          | (_, writer, _) => ret (TWIN_EXCEPTION, writer)
          end
  end.

Definition TwinConfigurationUtils_WriteUintConfigurationToJson (writer : JsonObjectWriter) (key : string) (value : Z) :=
  TwinConfigurationUtils_Internal_WriteConfigurationToJson writer key (UintValue value).

(** A null string is not written. *)
Definition TwinConfigurationUtils_WriteStringConfigurationToJson (writer : JsonObjectWriter) (key : string)
    (value : option string) : M World (TwinConfigurationResult * JsonObjectWriter) :=
  match value with
  | None => ret (TWIN_OK, writer)
  | Some s => TwinConfigurationUtils_Internal_WriteConfigurationToJson writer key (StringValue s)
  end.

Definition TwinConfigurationUtils_WriteBoolConfigurationToJson (writer : JsonObjectWriter) (key : string) (value : bool) :=
  TwinConfigurationUtils_Internal_WriteConfigurationToJson writer key (BoolValue value).

(** ** Specification of a lookup

    [lookup_configuration] is the outcome of looking a configuration up in an
    object, with no reader moving about: [None] is the undefined conversion of
    a number that does not fit [int32_t]. *)
Definition lookup_configuration (reader : JsonObjectReader) (key : string) (type : TwinConfigurationTypes)
    : option (TwinConfigurationResult * option ConfigurationValue) :=
  match JsonObjectReader_StepIn reader key with
  | (JSON_READER_KEY_MISSING, _) | (JSON_READER_VALUE_IS_NULL, _) => Some (TWIN_CONF_NOT_EXIST, None)
  | (JSON_READER_PARSE_ERROR, _) => Some (TWIN_PARSE_EXCEPTION, None)
  | (JSON_READER_EXCEPTION, _) => Some (TWIN_EXCEPTION, None)
  | (JSON_READER_OK, inner) =>
      let result (r : JsonReaderResult) :=
        match r with
        | JSON_READER_KEY_MISSING | JSON_READER_VALUE_IS_NULL | JSON_READER_PARSE_ERROR => TWIN_PARSE_EXCEPTION
        | JSON_READER_OK => TWIN_OK
        | JSON_READER_EXCEPTION => TWIN_EXCEPTION
        end in
      match type with
      | STRING => let '(r, v) := JsonObjectReader_ReadString inner VALUE_KEY in Some (result r, StringValue <$> v)
      | TIME => let '(r, v) := JsonObjectReader_ReadTimeInMilliseconds inner VALUE_KEY in Some (result r, TimeValue <$> v)
      | BOOL => let '(r, v) := JsonObjectReader_ReadBool inner VALUE_KEY in Some (result r, BoolValue <$> v)
      | UINT =>
          match JsonObjectReader_GetValueOfType inner VALUE_KEY JSONNumber with
          | (JSON_READER_OK, Some value) =>
              (fun n => (TWIN_OK, Some (UintValue (u32 n)))) <$>
                double_to_int32 (json_value_get_number (rd_document inner) value)
          | (r, _) => Some (result r, None)
          end
      end
  end.

(** ** Lemmas *)

Lemma GetValueOfType_ok reader key type r v :
  JsonObjectReader_GetValueOfType reader key type = (r, v) -> r = JSON_READER_OK -> is_Some v.
Proof.
  unfold JsonObjectReader_GetValueOfType. intros H ->. revert H.
  destruct (negb _); [done|]. destruct (json_object_dotget_value _ _ _); [|done].
  repeat case_decide; try done. intros [= <-]. eauto.
Qed.

(** Reading a configuration leaves the reader and the world as they were, and
    its outcome is that of the lookup. *)
Lemma GetConfigurationValue_spec {L : ParsonLaws P} reader key type w :
  plain_key key = true ->
  TwinConfigurationUtils_Internal_GetConfigurationValueFromJson reader key type w
  = match lookup_configuration reader key type with
    | Some (r, v) => Some (r, reader, v, w)
    | None => None
    end.
Proof.
  intros Hk. unfold TwinConfigurationUtils_Internal_GetConfigurationValueFromJson, lookup_configuration.
  destruct (JsonObjectReader_StepIn reader key) as [r inner] eqn:Hin.
  destruct r; try (rewrite (StepIn_fail _ _ _ _ Hin) by done; done).
  pose proof (StepIn_StepOut reader key inner Hk Hin) as Hout. rewrite Hout.
  unfold bind. destruct type; cbn [read_value].
  - by destruct (JsonObjectReader_ReadString inner VALUE_KEY) as [[] v].
  - unfold JsonObjectReader_ReadInt, bind.
    destruct (JsonObjectReader_GetValueOfType inner VALUE_KEY JSONNumber) as [r v] eqn:Hv.
    destruct r; try done. destruct (GetValueOfType_ok _ _ _ _ _ Hv eq_refl) as [x ->].
    by destruct (double_to_int32 _).
  - by destruct (JsonObjectReader_ReadTimeInMilliseconds inner VALUE_KEY) as [[] v].
  - by destruct (JsonObjectReader_ReadBool inner VALUE_KEY) as [[] v].
Qed.

(** A lookup allocates nothing. *)
Lemma lookup_not_memory reader key type v :
  lookup_configuration reader key type <> Some (TWIN_MEMORY_EXCEPTION, v).
Proof.
  unfold lookup_configuration. destruct (JsonObjectReader_StepIn reader key) as [[] inner]; try done.
  cbv zeta. destruct type.
  - by destruct (JsonObjectReader_ReadString inner VALUE_KEY) as [[] ?].
  - destruct (JsonObjectReader_GetValueOfType inner VALUE_KEY JSONNumber) as [[] [x|]]; try done.
    by destruct (double_to_int32 _).
  - by destruct (JsonObjectReader_ReadTimeInMilliseconds inner VALUE_KEY) as [[] ?].
  - by destruct (JsonObjectReader_ReadBool inner VALUE_KEY) as [[] ?].
Qed.

End TwinUtils.
