(* ===== verification/TwinCollectors.v ===== *)
(** * [twin_configuration_event_collectors.c]: event priorities and aggregation

    State: the static [eventPriorities] with its lock and its [isLocked] flag.
    Every public function brackets its work with
    [TwinConfigurationEventCollectors_Lock] and [.._Unlock]. *)

From S2P Require Import Prelude CString TwinDefs World Utils TimeUtils Parson ParsonModel Json TwinUtils.
From Stdlib Require Import String.
Open Scope Z_scope.

Definition PRIORITY_HIGH : string := "high".
Definition PRIORITY_LOW : string := "low".
Definition PRIORITY_OFF : string := "off".

Definition PROCESS_CREATE_DEFAULT_PRIORITY := EVENT_PRIORITY_LOW.
Definition LISTENING_PORTS_DEFAULT_PRIORITY := EVENT_PRIORITY_HIGH.
Definition SYSTEM_INFORMATION_DEFAULT_PRIORITY := EVENT_PRIORITY_LOW.
Definition LOCAL_USERS_DEFAULT_PRIORITY := EVENT_PRIORITY_HIGH.
Definition LOGIN_DEFAULT_PRIORITY := EVENT_PRIORITY_HIGH.
Definition CONNECTION_CREATE_DEFAULT_PRIORITY := EVENT_PRIORITY_LOW.
Definition FIREWALL_CONFIGURATION_DEFAULT_PRIORITY := EVENT_PRIORITY_LOW.
Definition BASELINE_DEFAULT_PRIORITY := EVENT_PRIORITY_LOW.
Definition DIAGNOSTIC_DEFAULT_PRIORITY := EVENT_PRIORITY_LOW.
Definition OPERATIONAL_EVENT_DEFAULT_PRIORITY := EVENT_PRIORITY_OPERATIONAL.
Definition PROCESS_CREATE_AGGREGATION_ENABLED : bool := true.
Definition CONNECTION_CREATE_AGGREGATION_ENABLED : bool := true.
Definition PROCESS_CREATE_AGGREGATION_INTERVAL : Z := MILLISECONDS_IN_AN_HOUR.
Definition CONNECTION_CREATE_AGGREGATION_INTERVAL : Z := MILLISECONDS_IN_AN_HOUR.

(** ** Updates of the static *)

Definition set_ev_isLocked (b : bool) (e : TwinConfigurationEventCollectors) : TwinConfigurationEventCollectors :=
  mkEventCollectors (ev_processCreatePriority e) (ev_listeningPortsPriority e) (ev_systemInformationPriority e)
    (ev_localUsersPriority e) (ev_loginPriority e) (ev_connectionCreatePriority e)
    (ev_firewallConfigurationPriority e) (ev_baselinePriority e) (ev_diagnostic e) (ev_operational e)
    (ev_processCreateAggregationEnabled e) (ev_connectionCreateAggregationEnabled e)
    (ev_processCreateAggregationInterval e) (ev_connectionCreateAggregationInterval e) (ev_lock e) b.

Definition set_ev_lock (l : LOCK_HANDLE) (e : TwinConfigurationEventCollectors) : TwinConfigurationEventCollectors :=
  mkEventCollectors (ev_processCreatePriority e) (ev_listeningPortsPriority e) (ev_systemInformationPriority e)
    (ev_localUsersPriority e) (ev_loginPriority e) (ev_connectionCreatePriority e)
    (ev_firewallConfigurationPriority e) (ev_baselinePriority e) (ev_diagnostic e) (ev_operational e)
    (ev_processCreateAggregationEnabled e) (ev_connectionCreateAggregationEnabled e)
    (ev_processCreateAggregationInterval e) (ev_connectionCreateAggregationInterval e) l (ev_isLocked e).

Definition set_ev_operational (p : TwinConfigurationEventPriority) (e : TwinConfigurationEventCollectors)
    : TwinConfigurationEventCollectors :=
  mkEventCollectors (ev_processCreatePriority e) (ev_listeningPortsPriority e) (ev_systemInformationPriority e)
    (ev_localUsersPriority e) (ev_loginPriority e) (ev_connectionCreatePriority e)
    (ev_firewallConfigurationPriority e) (ev_baselinePriority e) (ev_diagnostic e) p
    (ev_processCreateAggregationEnabled e) (ev_connectionCreateAggregationEnabled e)
    (ev_processCreateAggregationInterval e) (ev_connectionCreateAggregationInterval e) (ev_lock e) (ev_isLocked e).

Definition update_eventPriorities (f : TwinConfigurationEventCollectors -> TwinConfigurationEventCollectors)
    : M World unit :=
  modify (fun w => set_eventPriorities (f (eventPriorities w)) w).

(** ** Initialisation *)

Definition TwinConfigurationEventCollectors_Init : M World TwinConfigurationResult :=
  update_eventPriorities (set_ev_isLocked false) ;;;
  lock <- Lock_Init ;;
  update_eventPriorities (set_ev_lock lock) ;;;
  match lock with
  | None => ret TWIN_LOCK_EXCEPTION
  | Some _ =>
      update_eventPriorities (fun e =>
        mkEventCollectors PROCESS_CREATE_DEFAULT_PRIORITY LISTENING_PORTS_DEFAULT_PRIORITY
          SYSTEM_INFORMATION_DEFAULT_PRIORITY LOCAL_USERS_DEFAULT_PRIORITY LOGIN_DEFAULT_PRIORITY
          CONNECTION_CREATE_DEFAULT_PRIORITY FIREWALL_CONFIGURATION_DEFAULT_PRIORITY BASELINE_DEFAULT_PRIORITY
          DIAGNOSTIC_DEFAULT_PRIORITY OPERATIONAL_EVENT_DEFAULT_PRIORITY
          PROCESS_CREATE_AGGREGATION_ENABLED CONNECTION_CREATE_AGGREGATION_ENABLED
          PROCESS_CREATE_AGGREGATION_INTERVAL CONNECTION_CREATE_AGGREGATION_INTERVAL
          (ev_lock e) (ev_isLocked e)) ;;;
      ret TWIN_OK
  end.

Definition TwinConfigurationEventCollectors_Deinit : M World unit :=
  e <- gets eventPriorities ;;
  match ev_lock e with
  | None => ret tt
  | Some _ => Lock_Deinit (ev_lock e) ;;; update_eventPriorities (set_ev_lock None)
  end.

(** ** The critical section *)

Definition TwinConfigurationEventCollectors_Lock : M World bool :=
  e <- gets eventPriorities ;;
  if ev_isLocked e then ret false
  else
    ok <- Lock (ev_lock e) ;;
    require ok else false ;;
    update_eventPriorities (set_ev_isLocked true) ;;;
    ret true.

Definition TwinConfigurationEventCollectors_Unlock : M World bool :=
  e <- gets eventPriorities ;;
  ok <- (if ev_isLocked e then Unlock (ev_lock e) else ret true) ;;
  require ok else false ;;
  update_eventPriorities (set_ev_isLocked false) ;;;
  ret true.

(** The shape of every public function: lock, [body], and the [cleanup:] label
    that unlocks whether or not the lock was taken.  [failed] is the value the
    out parameter keeps when the lock is not taken. *)
Definition critical_section {A} (failed : A) (body : M World (TwinConfigurationResult * A))
    : M World (TwinConfigurationResult * A) :=
  locked <- TwinConfigurationEventCollectors_Lock ;;
  let* (result, a) := (if locked then body else ret (TWIN_LOCK_EXCEPTION, failed)) in
  unlocked <- TwinConfigurationEventCollectors_Unlock ;;
  ret (if unlocked then result else TWIN_LOCK_EXCEPTION, a).

(** ** Priorities and their names *)

Definition TwinConfigurationEventCollectors_PriorityAsEnum (str : string)
    : TwinConfigurationResult * option TwinConfigurationEventPriority :=
  if Utils_UnsafeAreStringsEqual str PRIORITY_HIGH false then (TWIN_OK, Some EVENT_PRIORITY_HIGH)
  else if Utils_UnsafeAreStringsEqual str PRIORITY_LOW false then (TWIN_OK, Some EVENT_PRIORITY_LOW)
  else if Utils_UnsafeAreStringsEqual str PRIORITY_OFF false then (TWIN_OK, Some EVENT_PRIORITY_OFF)
  else (TWIN_PARSE_EXCEPTION, None).

Definition TwinConfigurationEventCollectors_PriorityEnumAsString (priority : TwinConfigurationEventPriority)
    : TwinConfigurationResult * option string :=
  match priority with
  | EVENT_PRIORITY_HIGH | EVENT_PRIORITY_OPERATIONAL => (TWIN_OK, Some PRIORITY_HIGH)
  | EVENT_PRIORITY_LOW => (TWIN_OK, Some PRIORITY_LOW)
  | EVENT_PRIORITY_OFF => (TWIN_OK, Some PRIORITY_OFF)
  end.

(** ** Getters *)

Definition TwinConfigurationEventCollectors_SafeGetPriority (eventType : TwinConfigurationEventType)
    : M World (TwinConfigurationResult * option TwinConfigurationEventPriority) :=
  e <- gets eventPriorities ;;
  ret (TWIN_OK, Some
    match eventType with
    | EVENT_TYPE_PROCESS_CREATE => ev_processCreatePriority e
    | EVENT_TYPE_LISTENING_PORTS => ev_listeningPortsPriority e
    | EVENT_TYPE_SYSTEM_INFORMATION => ev_systemInformationPriority e
    | EVENT_TYPE_LOCAL_USERS => ev_localUsersPriority e
    | EVENT_TYPE_USER_LOGIN => ev_loginPriority e
    | EVENT_TYPE_CONNECTION_CREATE => ev_connectionCreatePriority e
    | EVENT_TYPE_FIREWALL_CONFIGURATION => ev_firewallConfigurationPriority e
    | EVENT_TYPE_BASELINE => ev_baselinePriority e
    | EVENT_TYPE_DIAGNOSTIC => ev_diagnostic e
    | EVENT_TYPE_OPERATIONAL_EVENT => ev_operational e
    end).

Definition TwinConfigurationEventCollectors_GetPriority (eventType : TwinConfigurationEventType)
    : M World (TwinConfigurationResult * option TwinConfigurationEventPriority) :=
  critical_section None (TwinConfigurationEventCollectors_SafeGetPriority eventType).

(** The [default:] branch returns from inside the critical section. *)
Definition TwinConfigurationEventCollectors_GetAggregationEnabled (eventType : TwinConfigurationEventType)
    : M World (TwinConfigurationResult * option bool) :=
  let cleanup (r : TwinConfigurationResult * option bool) :=
    unlocked <- TwinConfigurationEventCollectors_Unlock ;;
    ret (if unlocked then fst r else TWIN_LOCK_EXCEPTION, snd r) in
  locked <- TwinConfigurationEventCollectors_Lock ;;
  if negb locked then cleanup (TWIN_LOCK_EXCEPTION, None)
  else
    e <- gets eventPriorities ;;
    match eventType with
    | EVENT_TYPE_PROCESS_CREATE => cleanup (TWIN_OK, Some (ev_processCreateAggregationEnabled e))
    | EVENT_TYPE_CONNECTION_CREATE => cleanup (TWIN_OK, Some (ev_connectionCreateAggregationEnabled e))
    | _ => ret (TWIN_EXCEPTION, None)
    end.

Definition TwinConfigurationEventCollectors_GetAggregationInterval (eventType : TwinConfigurationEventType)
    : M World (TwinConfigurationResult * option Z) :=
  let cleanup (r : TwinConfigurationResult * option Z) :=
    unlocked <- TwinConfigurationEventCollectors_Unlock ;;
    ret (if unlocked then fst r else TWIN_LOCK_EXCEPTION, snd r) in
  locked <- TwinConfigurationEventCollectors_Lock ;;
  if negb locked then cleanup (TWIN_LOCK_EXCEPTION, None)
  else
    e <- gets eventPriorities ;;
    match eventType with
    | EVENT_TYPE_PROCESS_CREATE => cleanup (TWIN_OK, Some (ev_processCreateAggregationInterval e))
    | EVENT_TYPE_CONNECTION_CREATE => cleanup (TWIN_OK, Some (ev_connectionCreateAggregationInterval e))
    | _ => ret (TWIN_EXCEPTION, None)
    end.

(** ** Update from a twin *)

Section Update.
Context {P : Parson}.

(** Code that reads through the properties reader and leaves by
    [goto cleanup] (or [return]) with a result other than [TWIN_OK]. *)
Definition Reading (A : Type) : Type :=
  JsonObjectReader -> M World ((TwinConfigurationResult + A) * JsonObjectReader).

Definition reading_ret {A} (a : A) : Reading A := fun reader => ret (inr a, reader).

Definition reading_bind {A B} (m : Reading A) (k : A -> Reading B) : Reading B :=
  fun reader =>
    let* (r, reader) := m reader in
    match r with
    | inl result => ret (inl result, reader)
    | inr a => k a reader
    end.

Definition reading_do {A} (m : M World unit) (k : Reading A) : Reading A :=
  fun reader => m ;;; k reader.

Definition TwinConfigurationEventCollectors_SetSingleValues (key : string)
    (defaultValue : TwinConfigurationEventPriority) : Reading TwinConfigurationEventPriority :=
  fun reader =>
    let* (result, reader, strValue) := TwinConfigurationUtils_GetConfigurationStringValueFromJson reader key in
    match result, strValue with
    | TWIN_CONF_NOT_EXIST, _ => ret (inr defaultValue, reader)
    | TWIN_OK, Some str =>
        match TwinConfigurationEventCollectors_PriorityAsEnum str with
        | (TWIN_OK, Some priority) => ret (inr priority, reader)
        | (result, _) => ret (inl result, reader)
        end
    | TWIN_OK, None => undefined  (* strlen(NULL) *)
    | _, _ => ret (inl result, reader)
    end.

(** The field of [newPriorities] is [false] before it is read. *)
Definition TwinConfigurationEventCollectors_SetSingleBoolValue (key : string) (defaultValue : bool) : Reading bool :=
  fun reader =>
    let* (result, reader, field) := TwinConfigurationUtils_GetConfigurationBoolValueFromJson reader key in
    match result with
    | TWIN_CONF_NOT_EXIST => ret (inr defaultValue, reader)
    | TWIN_OK => ret (inr (default false field), reader)
    | _ => ret (inl result, reader)
    end.

Definition TwinConfigurationEventCollectors_SetSingleUintTimeValue (key : string) (defaultValue : Z) : Reading Z :=
  fun reader =>
    let* (result, reader, field) := TwinConfigurationUtils_GetConfigurationTimeValueFromJson reader key in
    match result with
    | TWIN_CONF_NOT_EXIST => ret (inr defaultValue, reader)
    | TWIN_OK => ret (inr (default 0 field), reader)
    | _ => ret (inl result, reader)
    end.

Notation "x <~ m ;; k" := (reading_bind m (fun x => k)) (at level 100, m at next level, right associativity).

(** [eventPriorities.operational] is normalised, not the new value. *)
Definition normalise_operational : M World unit :=
  update_eventPriorities (fun e =>
    set_ev_operational (match ev_operational e with
                        | EVENT_PRIORITY_OFF => EVENT_PRIORITY_OFF
                        | _ => EVENT_PRIORITY_OPERATIONAL
                        end) e).

(** The local [newPriorities], filled field by field; its lock fields are
    those of the static it replaces. *)
Definition read_newPriorities : Reading (LOCK_HANDLE -> bool -> TwinConfigurationEventCollectors) :=
  processCreate <~ TwinConfigurationEventCollectors_SetSingleValues PROCESS_CREATE_PRIORITY_KEY PROCESS_CREATE_DEFAULT_PRIORITY ;;
  listeningPorts <~ TwinConfigurationEventCollectors_SetSingleValues LISTENING_PORTS_PRIORITY_KEY LISTENING_PORTS_DEFAULT_PRIORITY ;;
  systemInformation <~ TwinConfigurationEventCollectors_SetSingleValues SYSTEM_INFORMATION_PRIORITY_KEY SYSTEM_INFORMATION_DEFAULT_PRIORITY ;;
  localUsers <~ TwinConfigurationEventCollectors_SetSingleValues LOCAL_USERS_PRIORITY_KEY LOCAL_USERS_DEFAULT_PRIORITY ;;
  login <~ TwinConfigurationEventCollectors_SetSingleValues LOGIN_PRIORITY_KEY LOGIN_DEFAULT_PRIORITY ;;
  connectionCreate <~ TwinConfigurationEventCollectors_SetSingleValues CONNECTION_CREATE_PRIORITY_KEY CONNECTION_CREATE_DEFAULT_PRIORITY ;;
  firewall <~ TwinConfigurationEventCollectors_SetSingleValues FIREWALL_CONFIGURATION_PRIORITY_KEY FIREWALL_CONFIGURATION_DEFAULT_PRIORITY ;;
  baseline <~ TwinConfigurationEventCollectors_SetSingleValues BASELINE_PRIORITY_KEY BASELINE_DEFAULT_PRIORITY ;;
  diagnostic <~ TwinConfigurationEventCollectors_SetSingleValues DIAGNOSTIC_PRIORITY_KEY DIAGNOSTIC_DEFAULT_PRIORITY ;;
  operational <~ TwinConfigurationEventCollectors_SetSingleValues OPERATIONAL_EVENT_KEY OPERATIONAL_EVENT_DEFAULT_PRIORITY ;;
  reading_do normalise_operational (
  processCreateEnabled <~ TwinConfigurationEventCollectors_SetSingleBoolValue PROCESS_CREATE_AGGREGATION_ENABLED_KEY PROCESS_CREATE_AGGREGATION_ENABLED ;;
  processCreateInterval <~ TwinConfigurationEventCollectors_SetSingleUintTimeValue PROCESS_CREATE_AGGREGATION_INTERVAL_KEY PROCESS_CREATE_AGGREGATION_INTERVAL ;;
  connectionCreateEnabled <~ TwinConfigurationEventCollectors_SetSingleBoolValue CONNECTION_CREATE_AGGREGATION_ENABLED_KEY CONNECTION_CREATE_AGGREGATION_ENABLED ;;
  connectionCreateInterval <~ TwinConfigurationEventCollectors_SetSingleUintTimeValue CONNECTION_CREATE_AGGREGATION_INTERVAL_KEY CONNECTION_CREATE_AGGREGATION_INTERVAL ;;
  reading_ret (mkEventCollectors processCreate listeningPorts systemInformation localUsers login connectionCreate
    firewall baseline diagnostic operational processCreateEnabled connectionCreateEnabled
    processCreateInterval connectionCreateInterval)).

Definition TwinConfigurationEventCollectors_SetValues (propertiesReader : JsonObjectReader)
    : M World TwinConfigurationResult :=
  let* (r, _) := read_newPriorities propertiesReader in
  match r with
  | inl result => ret result
  | inr newPriorities =>
      update_eventPriorities (fun e => newPriorities (ev_lock e) (ev_isLocked e)) ;;;
      ret TWIN_OK
  end.

Definition TwinConfigurationEventCollectors_Update (propertiesReader : JsonObjectReader)
    : M World TwinConfigurationResult :=
  let* (result, _) := critical_section tt
    (r <- TwinConfigurationEventCollectors_SetValues propertiesReader ;; ret (r, tt)) in
  ret result.

(** ** Writing the priorities *)

(** A sequence of writes, left at the first result other than [TWIN_OK]. *)
Definition Writing : Type := JsonObjectWriter -> M World (TwinConfigurationResult * JsonObjectWriter).

Fixpoint write_all (l : list Writing) (writer : JsonObjectWriter) : M World (TwinConfigurationResult * JsonObjectWriter) :=
  match l with
  | [] => ret (TWIN_OK, writer)
  | f :: l' =>
      let* (result, writer) := f writer in
      match result with
      | TWIN_OK => write_all l' writer
      | _ => ret (result, writer)
      end
  end.

Definition write_priority (key : string) (priority : TwinConfigurationEventPriority) : Writing :=
  fun writer => TwinConfigurationUtils_WriteStringConfigurationToJson writer key
                  (snd (TwinConfigurationEventCollectors_PriorityEnumAsString priority)).

Definition write_bool (key : string) (b : bool) : Writing :=
  fun writer => TwinConfigurationUtils_WriteBoolConfigurationToJson writer key b.

(** The duration is rendered into a buffer of [DURATION_MAX_LENGTH] bytes. *)
Definition write_interval (key : string) (ms : Z) : Writing :=
  fun writer =>
    let '(ok, b) := TimeUtils_MillisecondsToISO8601DurationString ms DURATION_MAX_LENGTH in
    if ok then TwinConfigurationUtils_WriteStringConfigurationToJson writer key (Some (written b))
    else ret (TWIN_EXCEPTION, writer).

Definition TwinConfigurationEventCollectors_SafeGetPrioritiesJson (writer : JsonObjectWriter)
    : M World (TwinConfigurationResult * JsonObjectWriter) :=
  e <- gets eventPriorities ;;
  write_all
    [ write_priority BASELINE_PRIORITY_KEY (ev_baselinePriority e);
      write_priority CONNECTION_CREATE_PRIORITY_KEY (ev_connectionCreatePriority e);
      write_priority DIAGNOSTIC_PRIORITY_KEY (ev_diagnostic e);
      write_priority FIREWALL_CONFIGURATION_PRIORITY_KEY (ev_firewallConfigurationPriority e);
      write_priority LISTENING_PORTS_PRIORITY_KEY (ev_listeningPortsPriority e);
      write_priority LOCAL_USERS_PRIORITY_KEY (ev_localUsersPriority e);
      write_priority LOGIN_PRIORITY_KEY (ev_loginPriority e);
      write_priority OPERATIONAL_EVENT_KEY (ev_operational e);
      write_priority PROCESS_CREATE_PRIORITY_KEY (ev_processCreatePriority e);
      write_priority SYSTEM_INFORMATION_PRIORITY_KEY (ev_systemInformationPriority e);
      write_bool PROCESS_CREATE_AGGREGATION_ENABLED_KEY (ev_processCreateAggregationEnabled e);
      write_interval PROCESS_CREATE_AGGREGATION_INTERVAL_KEY (ev_processCreateAggregationInterval e);
      write_bool CONNECTION_CREATE_AGGREGATION_ENABLED_KEY (ev_connectionCreateAggregationEnabled e);
      write_interval CONNECTION_CREATE_AGGREGATION_INTERVAL_KEY (ev_connectionCreateAggregationInterval e) ]
    writer.

(** The writer is mutated in place: it keeps what was written before a failure. *)
Definition TwinConfigurationEventCollectors_GetPrioritiesJson (writer : JsonObjectWriter)
    : M World (TwinConfigurationResult * JsonObjectWriter) :=
  critical_section writer (TwinConfigurationEventCollectors_SafeGetPrioritiesJson writer).

End Update.

(** ** Specification

    What a twin says about one field, from the lookup of its configuration:
    the default when it is absent, its value, or the error ([inl]). *)

Section Spec.
Context {P : Parson}.

Definition spec_priority (reader : JsonObjectReader) (key : string) (d : TwinConfigurationEventPriority)
    : option (TwinConfigurationResult + TwinConfigurationEventPriority) :=
  match lookup_configuration reader key STRING with
  | None => None
  | Some (TWIN_CONF_NOT_EXIST, _) => Some (inr d)
  | Some (TWIN_OK, Some (StringValue s)) =>
      match TwinConfigurationEventCollectors_PriorityAsEnum s with
      | (_, Some p) => Some (inr p)
      | (r, None) => Some (inl r)
      end
  | Some (TWIN_OK, _) => None
  | Some (r, _) => Some (inl r)
  end.

Definition spec_bool (reader : JsonObjectReader) (key : string) (d : bool) : option (TwinConfigurationResult + bool) :=
  match lookup_configuration reader key BOOL with
  | None => None
  | Some (TWIN_CONF_NOT_EXIST, _) => Some (inr d)
  | Some (TWIN_OK, v) => Some (inr (match v with Some (BoolValue b) => b | _ => false end))
  | Some (r, _) => Some (inl r)
  end.

Definition spec_time (reader : JsonObjectReader) (key : string) (d : Z) : option (TwinConfigurationResult + Z) :=
  match lookup_configuration reader key TIME with
  | None => None
  | Some (TWIN_CONF_NOT_EXIST, _) => Some (inr d)
  | Some (TWIN_OK, v) => Some (inr (match v with Some (TimeValue ms) => ms | _ => 0 end))
  | Some (r, _) => Some (inl r)
  end.

(** The event collectors' configuration that a twin selects. *)
Definition twin_selects (reader : JsonObjectReader) (e : TwinConfigurationEventCollectors) : Prop :=
  spec_priority reader PROCESS_CREATE_PRIORITY_KEY EVENT_PRIORITY_LOW = Some (inr (ev_processCreatePriority e)) /\
  spec_priority reader LISTENING_PORTS_PRIORITY_KEY EVENT_PRIORITY_HIGH = Some (inr (ev_listeningPortsPriority e)) /\
  spec_priority reader SYSTEM_INFORMATION_PRIORITY_KEY EVENT_PRIORITY_LOW = Some (inr (ev_systemInformationPriority e)) /\
  spec_priority reader LOCAL_USERS_PRIORITY_KEY EVENT_PRIORITY_HIGH = Some (inr (ev_localUsersPriority e)) /\
  spec_priority reader LOGIN_PRIORITY_KEY EVENT_PRIORITY_HIGH = Some (inr (ev_loginPriority e)) /\
  spec_priority reader CONNECTION_CREATE_PRIORITY_KEY EVENT_PRIORITY_LOW = Some (inr (ev_connectionCreatePriority e)) /\
  spec_priority reader FIREWALL_CONFIGURATION_PRIORITY_KEY EVENT_PRIORITY_LOW = Some (inr (ev_firewallConfigurationPriority e)) /\
  spec_priority reader BASELINE_PRIORITY_KEY EVENT_PRIORITY_LOW = Some (inr (ev_baselinePriority e)) /\
  spec_priority reader DIAGNOSTIC_PRIORITY_KEY EVENT_PRIORITY_LOW = Some (inr (ev_diagnostic e)) /\
  spec_priority reader OPERATIONAL_EVENT_KEY EVENT_PRIORITY_OPERATIONAL = Some (inr (ev_operational e)) /\
  spec_bool reader PROCESS_CREATE_AGGREGATION_ENABLED_KEY true = Some (inr (ev_processCreateAggregationEnabled e)) /\
  spec_time reader PROCESS_CREATE_AGGREGATION_INTERVAL_KEY MILLISECONDS_IN_AN_HOUR = Some (inr (ev_processCreateAggregationInterval e)) /\
  spec_bool reader CONNECTION_CREATE_AGGREGATION_ENABLED_KEY true = Some (inr (ev_connectionCreateAggregationEnabled e)) /\
  spec_time reader CONNECTION_CREATE_AGGREGATION_INTERVAL_KEY MILLISECONDS_IN_AN_HOUR = Some (inr (ev_connectionCreateAggregationInterval e)).

End Spec.

(** The lock of the event collectors is initialised and nobody holds it. *)
Definition section_free (w : World) : Prop :=
  ev_isLocked (eventPriorities w) = false /\ free_lock (ev_lock (eventPriorities w)) w.

(** The running thread is in the critical section. *)
Definition section_held (w : World) : Prop :=
  ev_isLocked (eventPriorities w) = true /\ exists l, ev_lock (eventPriorities w) = Some l /\ l ∈ held w.

(** The world inside the critical section entered from [w]. *)
Definition entered (w : World) : World :=
  match ev_lock (eventPriorities w) with
  | Some l => set_eventPriorities (set_ev_isLocked true (eventPriorities w))
                (set_held ({[l]} ∪ held w) (bump 1 w))
  | None => w
  end.

(** The world after leaving the critical section in [w], where [h] are the other locks held. *)
Definition left_section (h : gset nat) (w : World) : World :=
  set_eventPriorities (set_ev_isLocked false (eventPriorities w)) (set_held h (bump 1 w)).

(** The priority that a type of event is configured with. *)
Definition priority_of (t : TwinConfigurationEventType) (e : TwinConfigurationEventCollectors)
    : TwinConfigurationEventPriority :=
  match t with
  | EVENT_TYPE_PROCESS_CREATE => ev_processCreatePriority e
  | EVENT_TYPE_LISTENING_PORTS => ev_listeningPortsPriority e
  | EVENT_TYPE_SYSTEM_INFORMATION => ev_systemInformationPriority e
  | EVENT_TYPE_LOCAL_USERS => ev_localUsersPriority e
  | EVENT_TYPE_USER_LOGIN => ev_loginPriority e
  | EVENT_TYPE_CONNECTION_CREATE => ev_connectionCreatePriority e
  | EVENT_TYPE_FIREWALL_CONFIGURATION => ev_firewallConfigurationPriority e
  | EVENT_TYPE_BASELINE => ev_baselinePriority e
  | EVENT_TYPE_DIAGNOSTIC => ev_diagnostic e
  | EVENT_TYPE_OPERATIONAL_EVENT => ev_operational e
  end.

(** [operational] as an update leaves it in the old configuration. *)
Definition normalised (e : TwinConfigurationEventCollectors) : TwinConfigurationEventCollectors :=
  set_ev_operational (match ev_operational e with
                      | EVENT_PRIORITY_OFF => EVENT_PRIORITY_OFF
                      | _ => EVENT_PRIORITY_OPERATIONAL
                      end) e.

(** The state of the other components is as before. *)
Definition others_kept (w w' : World) : Prop :=
  env w' = env w /\ next_lock w' = next_lock w /\ memoryMonitor w' = memoryMonitor w /\
  twinConfigurationObjectName w' = twinConfigurationObjectName w /\
  twinConfiguration w' = twinConfiguration w /\ updateResult w' = updateResult w /\
  ev_lock (eventPriorities w') = ev_lock (eventPriorities w).

(** What a failed update leaves behind. *)
Definition failed_update (w : World) (r : TwinConfigurationResult) (w' : World) : Prop :=
  r <> TWIN_OK /\ r <> TWIN_MEMORY_EXCEPTION /\
  (w' = w \/ w' = set_eventPriorities (normalised (eventPriorities w)) w).


(** What the body of a section must not touch. *)
Definition keeps_section (w w' : World) : Prop :=
  env w' = env w /\ held w' = held w /\
  ev_lock (eventPriorities w') = ev_lock (eventPriorities w) /\
  ev_isLocked (eventPriorities w') = ev_isLocked (eventPriorities w).

(** ** A sample twin *)

(** A twin that sets the priority of operational events to "high". *)
Definition sample_twin : json :=
  JObj [(OPERATIONAL_EVENT_KEY, JObj [(VALUE_KEY, JStr PRIORITY_HIGH)]);
        (PROCESS_CREATE_AGGREGATION_INTERVAL_KEY, JObj [(VALUE_KEY, JStr "PT30M")])].

Definition no_text : string -> option json := fun _ => None.
Definition no_print : json -> string := fun _ => EmptyString.

Definition sample_reader : @JsonObjectReader (model_parson no_text no_print) :=
  @mkReader (model_parson no_text no_print) sample_twin true [] true.

(** ** Lemmas: the critical section *)

Lemma section_Lock w :
  section_free w ->
  TwinConfigurationEventCollectors_Lock w =
  Some (if env_ok (env w) (tick w) then (true, entered w) else (false, bump 1 w)).
Proof.
  intros [Hu (l & Hl & Hh)]. unfold TwinConfigurationEventCollectors_Lock, bind, gets.
  rewrite Hu, Hl, Lock_cases by done. unfold entered. rewrite Hl.
  by destruct (env_ok _ _).
Qed.

(** A thread that finds the section taken does not wait: it fails. *)
Lemma section_Lock_taken w :
  ev_isLocked (eventPriorities w) = true ->
  TwinConfigurationEventCollectors_Lock w = Some (false, w).
Proof. intros H. unfold TwinConfigurationEventCollectors_Lock, bind, gets. by rewrite H. Qed.

Lemma section_Unlock_free w :
  ev_isLocked (eventPriorities w) = false ->
  TwinConfigurationEventCollectors_Unlock w = Some (true, w).
Proof.
  intros H. unfold TwinConfigurationEventCollectors_Unlock, bind, gets, update_eventPriorities, modify, ret.
  rewrite H. destruct w as [? ? ? ? ? ? ? ? e]; destruct e; cbn in *. by rewrite H.
Qed.

Lemma section_Unlock w l :
  ev_isLocked (eventPriorities w) = true -> ev_lock (eventPriorities w) = Some l -> l ∈ held w ->
  TwinConfigurationEventCollectors_Unlock w =
  Some (if env_ok (env w) (tick w) then (true, left_section (held w ∖ {[l]}) w) else (false, bump 1 w)).
Proof.
  intros Hu Hl Hh. unfold TwinConfigurationEventCollectors_Unlock, bind, gets.
  rewrite Hu, Hl, Unlock_cases by done. by destruct (env_ok _ _).
Qed.

(** Running a public function on any environment. *)
Lemma critical_section_run {A} (failed a : A) body result w w' :
  section_free w ->
  body (entered w) = Some ((result, a), w') -> keeps_section (entered w) w' ->
  critical_section failed body w =
  Some (if env_ok (env w) (tick w) then
          if env_ok (env w) (tick w') then ((result, a), left_section (held w) w')
          else ((TWIN_LOCK_EXCEPTION, a), bump 1 w')
        else ((TWIN_LOCK_EXCEPTION, failed), bump 1 w)).
Proof.
  intros Hf Hb (He & Hh & Hlk & Hi). pose proof Hf as [Hu (l & Hl & Hn)].
  unfold critical_section, bind. rewrite section_Lock by done. cbv beta iota.
  destruct (env_ok (env w) (tick w)) eqn:E; cbv beta iota.
  - rewrite Hb. unfold entered in *. rewrite Hl in *. cbn in Hh, Hlk, Hi, He.
    rewrite (section_Unlock w' l) by (rewrite ?Hh, ?Hlk, ?Hi; done || auto).
    rewrite He, Hh, lock_unlock_held by done. by destruct (env_ok (env w) (tick w')).
  - unfold ret. cbv beta iota. by rewrite section_Unlock_free.
Qed.

(** A call made while the section is taken fails and releases the lock that
    it does not own. *)
Lemma critical_section_taken {A} (failed : A) body w l :
  ev_isLocked (eventPriorities w) = true -> ev_lock (eventPriorities w) = Some l -> l ∈ held w ->
  env_ok (env w) (tick w) = true ->
  critical_section failed body w = Some ((TWIN_LOCK_EXCEPTION, failed), left_section (held w ∖ {[l]}) w).
Proof.
  intros Hu Hl Hh He. unfold critical_section, bind. rewrite section_Lock_taken by done.
  unfold ret. cbv beta iota. by rewrite (section_Unlock w l), He.
Qed.

Lemma entered_left w w' :
  section_free w -> keeps_section (entered w) w' ->
  section_free (left_section (held w) w') /\ held (left_section (held w) w') = held w.
Proof.
  intros [Hu (l & Hl & Hn)] (He & Hh & Hlk & Hi). unfold entered in *. rewrite Hl in *.
  repeat split; cbn. exists l. by cbn in Hlk; rewrite Hlk.
Qed.

(** ** Lemmas: reading a twin *)

Section ReadingLemmas.
Context {P : Parson} {L : ParsonLaws P}.

Lemma SetSingleValues_spec key d reader w :
  plain_key key = true ->
  TwinConfigurationEventCollectors_SetSingleValues key d reader w
  = match spec_priority reader key d with Some r => Some ((r, reader), w) | None => None end.
Proof.
  intros Hk. unfold TwinConfigurationEventCollectors_SetSingleValues,
    TwinConfigurationUtils_GetConfigurationStringValueFromJson, spec_priority, bind.
  rewrite GetConfigurationValue_spec by done.
  destruct (lookup_configuration reader key STRING) as [[r v]|]; [|done].
  destruct r; try done. destruct v as [[s| | |]|]; try done. cbn.
  unfold TwinConfigurationEventCollectors_PriorityAsEnum.
  by repeat match goal with |- context [if ?b then _ else _] => destruct b end.
Qed.

Lemma SetSingleBoolValue_spec key d reader w :
  plain_key key = true ->
  TwinConfigurationEventCollectors_SetSingleBoolValue key d reader w
  = match spec_bool reader key d with Some r => Some ((r, reader), w) | None => None end.
Proof.
  intros Hk. unfold TwinConfigurationEventCollectors_SetSingleBoolValue,
    TwinConfigurationUtils_GetConfigurationBoolValueFromJson, spec_bool, bind.
  rewrite GetConfigurationValue_spec by done.
  destruct (lookup_configuration reader key BOOL) as [[r v]|]; [|done].
  destruct r; try done. by destruct v as [[]|].
Qed.

Lemma SetSingleUintTimeValue_spec key d reader w :
  plain_key key = true ->
  TwinConfigurationEventCollectors_SetSingleUintTimeValue key d reader w
  = match spec_time reader key d with Some r => Some ((r, reader), w) | None => None end.
Proof.
  intros Hk. unfold TwinConfigurationEventCollectors_SetSingleUintTimeValue,
    TwinConfigurationUtils_GetConfigurationTimeValueFromJson, spec_time, bind.
  rewrite GetConfigurationValue_spec by done.
  destruct (lookup_configuration reader key TIME) as [[r v]|]; [|done].
  destruct r; try done. by destruct v as [[]|].
Qed.

End ReadingLemmas.

Section UpdateLemmas.
Context {P : Parson} {L : ParsonLaws P}.

Lemma ReadString_ok reader key v :
  JsonObjectReader_ReadString reader key = (JSON_READER_OK, v) -> is_Some v.
Proof.
  unfold JsonObjectReader_ReadString.
  destruct (JsonObjectReader_GetValueOfType reader key JSONString) as [r x] eqn:E.
  destruct r; try done.
  destruct (GetValueOfType_ok _ _ _ _ _ E eq_refl) as [y ->].
  destruct (json_value_get_string _ y); [intros [= <-]; eauto | done].
Qed.

(** Every lookup of a priority is defined, and an error is not [TWIN_OK]. *)
Lemma spec_priority_total reader key d :
  exists x, spec_priority reader key d = Some x /\ forall r, x = inl r -> r <> TWIN_OK /\ r <> TWIN_MEMORY_EXCEPTION.
Proof.
  unfold spec_priority, lookup_configuration.
  destruct (JsonObjectReader_StepIn reader key) as [[] inner];
    try (eexists; split; [reflexivity | by intros ? [= <-]; split]).
  cbv zeta. destruct (JsonObjectReader_ReadString inner VALUE_KEY) as [r v] eqn:E.
  destruct r; try (eexists; split; [reflexivity | by intros ? [= <-]; split]).
  destruct (ReadString_ok _ _ _ E) as [s ->]. cbn.
  unfold TwinConfigurationEventCollectors_PriorityAsEnum.
  repeat match goal with |- context [if ?b then _ else _] => destruct b end;
    eexists; (split; [reflexivity | by intros ? [= <-]; split]).
Qed.

Lemma spec_bool_total reader key d :
  exists x, spec_bool reader key d = Some x /\ forall r, x = inl r -> r <> TWIN_OK /\ r <> TWIN_MEMORY_EXCEPTION.
Proof.
  unfold spec_bool, lookup_configuration.
  destruct (JsonObjectReader_StepIn reader key) as [[] inner];
    try (eexists; split; [reflexivity | by intros ? [= <-]; split]).
  cbv zeta. destruct (JsonObjectReader_ReadBool inner VALUE_KEY) as [[] v];
    eexists; (split; [reflexivity | by intros ? [= <-]; split]).
Qed.

Lemma spec_time_total reader key d :
  exists x, spec_time reader key d = Some x /\ forall r, x = inl r -> r <> TWIN_OK /\ r <> TWIN_MEMORY_EXCEPTION.
Proof.
  unfold spec_time, lookup_configuration.
  destruct (JsonObjectReader_StepIn reader key) as [[] inner];
    try (eexists; split; [reflexivity | by intros ? [= <-]; split]).
  cbv zeta. destruct (JsonObjectReader_ReadTimeInMilliseconds inner VALUE_KEY) as [[] v];
    eexists; (split; [reflexivity | by intros ? [= <-]; split]).
Qed.

Lemma reading_bind_spec {A B} (m : Reading A) (k : A -> Reading B) reader w x :
  m reader w = Some ((x, reader), w) ->
  reading_bind m k reader w = match x with inr a => k a reader w | inl r => Some ((inl r, reader), w) end.
Proof. intros H. unfold reading_bind, bind. rewrite H. by destruct x. Qed.

(** One field: either its value, or the end of the update. *)
Ltac read_field total set_spec :=
  match goal with
  | |- context [reading_bind (?m ?key ?d) ?k ?reader ?w0] =>
      let x := fresh "x" in let E := fresh "E" in let Hr := fresh "Hr" in
      destruct (total reader key d) as (x & E & Hr);
      rewrite (reading_bind_spec (m key d) k reader w0 x) by (rewrite set_spec, E by reflexivity; reflexivity);
      destruct x as [x|x];
      [eexists _, _; split; [reflexivity|]; right; destruct (Hr _ eq_refl) as [? ?]; split;
       [split; [assumption | split; [assumption | first [by left | by right]]]
       | let e := fresh "e" in let Hs := fresh "Hs" in intros e Hs; decompose [and] Hs;
         match goal with H : _ = Some (inr _) |- _ => discriminate (eq_trans (eq_sym E) H) end] | clear Hr]
  end.

Lemma SetValues_spec reader w :
  exists r w',
    TwinConfigurationEventCollectors_SetValues reader w = Some (r, w') /\
    ((r = TWIN_OK /\ exists e, twin_selects reader e /\ ev_lock e = ev_lock (eventPriorities w) /\
        ev_isLocked e = ev_isLocked (eventPriorities w) /\ w' = set_eventPriorities e w)
     \/ (failed_update w r w' /\ forall e, ~ twin_selects reader e)).
Proof.
  unfold TwinConfigurationEventCollectors_SetValues, bind, read_newPriorities, twin_selects, failed_update.
  do 10 read_field spec_priority_total SetSingleValues_spec.
  unfold reading_do at 1, bind at 1. unfold normalise_operational, update_eventPriorities, modify. cbv beta iota.
  fold (normalised (eventPriorities w)).
  set (w1 := set_eventPriorities (normalised (eventPriorities w)) w).
  do 2 (read_field spec_bool_total SetSingleBoolValue_spec;
        read_field spec_time_total SetSingleUintTimeValue_spec).
  eexists TWIN_OK, _. split; [reflexivity|]. left. split; [done|].
  eexists (mkEventCollectors _ _ _ _ _ _ _ _ _ _ _ _ _ _ _ _). cbn. repeat split; try eassumption.
Qed.

End UpdateLemmas.

(** ** Properties *)

Lemma set_isLocked_back e : ev_isLocked e = false -> set_ev_isLocked false (set_ev_isLocked true e) = e.
Proof. destruct e. cbn. by intros ->. Qed.

(** Entering and leaving the section only takes time. *)
Lemma left_entered w n :
  section_free w -> left_section (held w) (bump n (entered w)) = bump (2 + n) w.
Proof.
  intros [Hi (l & Hl & Hh)]. unfold entered, left_section. rewrite Hl.
  assert (He : set_ev_isLocked false (eventPriorities (bump n (set_eventPriorities (set_ev_isLocked true (eventPriorities w))
    (set_held ({[l]} ∪ held w) (bump 1 w))))) = eventPriorities w) by (by apply set_isLocked_back).
  rewrite He. apply world_ext; try reflexivity. change (S (n + S (tick w)) = (2 + n + tick w)%nat). lia.
Qed.

Lemma entered_keeps w : keeps_section w w.
Proof. done. Qed.

(** Reading a priority is correct in every environment: from a free lock,
    [GetPriority] always returns; when the mutex can be taken and given back it
    returns the configured priority of the event type and leaves the lock free
    and the configuration as it was, otherwise it returns
    [TWIN_LOCK_EXCEPTION] and the configured values are unchanged. *)
Theorem GetPriority_correct t w :
  section_free w ->
  exists r w',
    TwinConfigurationEventCollectors_GetPriority t w = Some (r, w') /\
    (forall u, priority_of u (eventPriorities w') = priority_of u (eventPriorities w)) /\
    if env_ok (env w) (tick w) && env_ok (env w) (S (tick w)) then
      r = (TWIN_OK, Some (priority_of t (eventPriorities w))) /\
      section_free w' /\ held w' = held w /\ eventPriorities w' = eventPriorities w
    else fst r = TWIN_LOCK_EXCEPTION.
Proof.
  intros Hf. pose proof Hf as [Hu (l & Hl & Hn)].
  unfold TwinConfigurationEventCollectors_GetPriority.
  erewrite critical_section_run; [| done | reflexivity | apply entered_keeps].
  assert (Hp : forall u, priority_of u (eventPriorities (entered w)) = priority_of u (eventPriorities w)).
  { intros u. unfold entered. rewrite Hl. by destruct u. }
  assert (Ht : tick (entered w) = S (tick w)) by (unfold entered; by rewrite Hl).
  rewrite Ht. destruct (env_ok (env w) (tick w)), (env_ok (env w) (S (tick w))); cbn [andb];
    eexists _, _; (split; [reflexivity|]).
  - split; [intros u; rewrite <- Hp; by destruct u|]. split; [by rewrite <- Hp; destruct t|].
    destruct (entered_left w (entered w) Hf (entered_keeps _)) as [H1 H2]. split; [done|]. split; [done|].
    unfold entered. rewrite Hl. cbn. by apply set_isLocked_back.
  - split; [intros u; rewrite <- Hp; by destruct u | done].
  - split; [by destruct u | done].
  - split; [by destruct u | done].
Qed.

Lemma GetPriority_run t w :
  reliable w -> section_free w ->
  TwinConfigurationEventCollectors_GetPriority t w = Some ((TWIN_OK, Some (priority_of t (eventPriorities w))), bump 2 w).
Proof.
  intros Hr Hf. unfold TwinConfigurationEventCollectors_GetPriority.
  erewrite critical_section_run; [| done | reflexivity | apply entered_keeps]. rewrite !Hr.
  pose proof (left_entered w 0 Hf) as E. rewrite bump_0 in E. rewrite E. do 4 f_equal.
  destruct Hf as [_ (l & Hl & _)]. unfold entered. rewrite Hl. by destruct t.
Qed.

Lemma running_free e : section_free (running_world e).
Proof. split; [done|]. exists 1%nat. split; [done | set_solver]. Qed.

Lemma GetPriority_correct_witness :
  exists r w',
    TwinConfigurationEventCollectors_GetPriority EVENT_TYPE_LISTENING_PORTS (running_world good_env) = Some (r, w') /\
    r = (TWIN_OK, Some EVENT_PRIORITY_HIGH).
Proof.
  destruct (GetPriority_correct EVENT_TYPE_LISTENING_PORTS (running_world good_env) (running_free good_env))
    as (r & w' & H & _ & Hr & _).
  exists r, w'. split; [exact H | exact Hr].
Defined.

(** Asking for the aggregation setting of an event type that has none leaves
    the critical section locked: the call returns [TWIN_EXCEPTION] while the
    mutex is still held and [isLocked] is still set, and the next reading of a
    priority fails with [TWIN_LOCK_EXCEPTION]. *)
Theorem GetAggregationEnabled_leaks_lock t w :
  section_free w -> reliable w -> t <> EVENT_TYPE_PROCESS_CREATE -> t <> EVENT_TYPE_CONNECTION_CREATE ->
  exists w',
    TwinConfigurationEventCollectors_GetAggregationEnabled t w = Some ((TWIN_EXCEPTION, None), w') /\
    section_held w' /\
    forall u, exists w'', TwinConfigurationEventCollectors_GetPriority u w' = Some ((TWIN_LOCK_EXCEPTION, None), w'').
Proof.
  intros Hf Hr H1 H2. pose proof Hf as [Hu (l & Hl & Hn)].
  exists (entered w). split; [|split].
  - unfold TwinConfigurationEventCollectors_GetAggregationEnabled, bind.
    rewrite section_Lock, (Hr (tick w)) by done. by destruct t.
  - unfold entered. rewrite Hl. split; [done|]. exists l. cbn. auto.
  - intros u. unfold entered. rewrite Hl. eexists. unfold TwinConfigurationEventCollectors_GetPriority.
    rewrite (critical_section_taken _ _ _ l); [reflexivity | done | done | cbn; auto | apply Hr].
Qed.

Lemma GetAggregationEnabled_leaks_lock_witness :
  exists w',
    TwinConfigurationEventCollectors_GetAggregationEnabled EVENT_TYPE_BASELINE (running_world good_env)
      = Some ((TWIN_EXCEPTION, None), w') /\ section_held w'.
Proof.
  destruct (GetAggregationEnabled_leaks_lock EVENT_TYPE_BASELINE (running_world good_env)
              (running_free _) good_reliable ltac:(done) ltac:(done)) as (w' & H1 & H2 & _).
  exists w'. split; [exact H1 | exact H2].
Defined.

(** Mutual exclusion is not kept: a call that finds the critical section
    taken does not wait but fails, and on its way out it unlocks the mutex it
    never locked.  When the mutex is its own thread's, the mutex is released
    and [isLocked] cleared while the caller is still inside the section; when
    the mutex is another thread's, the behaviour is undefined. *)
Theorem taken_section_is_released t w l :
  ev_isLocked (eventPriorities w) = true -> ev_lock (eventPriorities w) = Some l -> reliable w ->
  if decide (l ∈ held w) then
    (exists w',
      TwinConfigurationEventCollectors_GetPriority t w = Some ((TWIN_LOCK_EXCEPTION, None), w') /\
      (l ∉ held w') /\ ev_isLocked (eventPriorities w') = false)
  else TwinConfigurationEventCollectors_GetPriority t w = None.
Proof.
  intros Hu Hl Hr. unfold TwinConfigurationEventCollectors_GetPriority. case_decide as Hh.
  - eexists. rewrite (critical_section_taken _ _ _ l) by done.
    split; [reflexivity|]. split; [|done]. cbn. by intros [_ []%not_elem_of_singleton]%elem_of_difference.
  - unfold critical_section, bind. rewrite section_Lock_taken by done. unfold ret. cbv beta iota.
    unfold TwinConfigurationEventCollectors_Unlock, bind, gets. rewrite Hu, Hl.
    unfold Unlock, bind, gets. by rewrite decide_False.
Qed.

Lemma taken_section_is_released_witness :
  (exists w',
    TwinConfigurationEventCollectors_GetPriority EVENT_TYPE_BASELINE (entered (running_world good_env))
      = Some ((TWIN_LOCK_EXCEPTION, None), w') /\ 1%nat ∉ held w') /\
  TwinConfigurationEventCollectors_GetPriority EVENT_TYPE_BASELINE (set_held ∅ (entered (running_world good_env))) = None.
Proof.
  split.
  - destruct (taken_section_is_released EVENT_TYPE_BASELINE (entered (running_world good_env)) 1%nat)
      as (w' & H1 & H2 & _); [done | done | done | exists w'; split; [exact H1 | exact H2]].
  - exact (taken_section_is_released EVENT_TYPE_BASELINE (set_held ∅ (entered (running_world good_env))) 1%nat
             eq_refl eq_refl good_reliable).
Defined.

(** A priority string is recognised exactly when it is "high", "low" or
    "off" up to letter case; printing a priority and reading it back gives the
    priority again, except that [EVENT_PRIORITY_OPERATIONAL] comes back as
    [EVENT_PRIORITY_HIGH]. *)
Theorem PriorityAsEnum_spec s :
  strlen s <= UINT32_MAX ->
  TwinConfigurationEventCollectors_PriorityAsEnum s =
    (if decide (lower s = PRIORITY_HIGH) then (TWIN_OK, Some EVENT_PRIORITY_HIGH)
     else if decide (lower s = PRIORITY_LOW) then (TWIN_OK, Some EVENT_PRIORITY_LOW)
     else if decide (lower s = PRIORITY_OFF) then (TWIN_OK, Some EVENT_PRIORITY_OFF)
     else (TWIN_PARSE_EXCEPTION, None)) /\
  forall p, exists name,
    TwinConfigurationEventCollectors_PriorityEnumAsString p = (TWIN_OK, Some name) /\
    TwinConfigurationEventCollectors_PriorityAsEnum name =
      (TWIN_OK, Some (if decide (p = EVENT_PRIORITY_OPERATIONAL) then EVENT_PRIORITY_HIGH else p)).
Proof.
  intros Hlen. split.
  - unfold TwinConfigurationEventCollectors_PriorityAsEnum.
    assert (H : forall lit, strlen lit <= UINT32_MAX -> lower lit = lit ->
      Utils_UnsafeAreStringsEqual s lit false = bool_decide (lower s = lit)).
    { intros lit Hl Hlow. pose proof (UnsafeAreStringsEqual_nocase s lit Hlen Hl) as Hs. rewrite Hlow in Hs.
      case_bool_decide as E; [by apply Hs|]. apply not_true_is_false. by rewrite Hs. }
    rewrite !H by done. by repeat case_decide; repeat case_bool_decide.
  - intros p. destruct p; eexists; split; reflexivity.
Qed.

Lemma PriorityAsEnum_spec_witness :
  TwinConfigurationEventCollectors_PriorityAsEnum "HiGh" = (TWIN_OK, Some EVENT_PRIORITY_HIGH).
Proof. destruct (PriorityAsEnum_spec "HiGh" ltac:(done)) as [H _]. exact H. Defined.

Section UpdateProperties.
Context {P : Parson} {L : ParsonLaws P}.

Lemma Update_run reader w :
  section_free w -> reliable w ->
  exists r w',
    TwinConfigurationEventCollectors_Update reader w = Some (r, w') /\ section_free w' /\ held w' = held w /\
    others_kept w w' /\
    ((r = TWIN_OK /\ twin_selects reader (eventPriorities w'))
     \/ (r <> TWIN_OK /\ r <> TWIN_MEMORY_EXCEPTION /\ (forall e, ~ twin_selects reader e) /\
         (eventPriorities w' = eventPriorities w \/ eventPriorities w' = normalised (eventPriorities w)))).
Proof.
  intros Hf Hr. pose proof Hf as [Hu (l & Hl & Hn)].
  destruct (SetValues_spec reader (entered w)) as (r & w1 & Hs & Hw1).
  assert (Hk : keeps_section (entered w) w1).
  { destruct Hw1 as [(_ & e & _ & H1 & H2 & ->) | [[_ [_ [-> | ->]]] _]]; [| done | done]. by repeat split. }
  unfold TwinConfigurationEventCollectors_Update, bind at 1.
  erewrite critical_section_run; [| done | unfold bind; rewrite Hs; reflexivity | done].
  rewrite !Hr. eexists _, _. split; [reflexivity|].
  destruct (entered_left w w1 Hf Hk) as [H1 H2]. split; [done|]. split; [done|].
  unfold entered in *. rewrite Hl in *. split.
  { destruct Hk as (_ & _ & Hlk & _). cbn in Hlk. unfold others_kept. cbn. rewrite Hlk.
    by destruct Hw1 as [(-> & e & Hsel & _ & _ & ->) | [[Hne [_ [-> | ->]]] _]]. }
  destruct Hw1 as [(-> & e & Hsel & Hlk & Hi & ->) | [(Hne & Hm & Hw1) Hns]]; [left | right].
  - split; [done|]. exact Hsel.
  - do 3 (split; [done|]). destruct Hw1 as [-> | ->]; [left | right]; cbn.
    + by apply set_isLocked_back.
    + destruct (eventPriorities w). cbn in *. by subst.
Qed.

(** C25: An update of the event collectors is all or nothing: it returns with the
    lock free again; on [TWIN_OK] every one of the fourteen settings is the one
    that the twin selects (its value, or the default when it is absent), and on
    any other result the twin selects no configuration and the old settings are
    kept, except that [operational] may have been normalised to off/operational. *)
Theorem Update_all_or_nothing reader w :
  section_free w -> reliable w ->
  exists r w',
    TwinConfigurationEventCollectors_Update reader w = Some (r, w') /\ section_free w' /\ held w' = held w /\
    ((r = TWIN_OK /\ twin_selects reader (eventPriorities w'))
     \/ (r <> TWIN_OK /\ (forall e, ~ twin_selects reader e) /\
         (eventPriorities w' = eventPriorities w \/ eventPriorities w' = normalised (eventPriorities w)))).
Proof.
  intros Hf Hr. destruct (Update_run reader w Hf Hr) as (r & w' & H1 & H2 & H3 & _ & H4).
  exists r, w'. tauto.
Qed.

(** The new priority of operational events is not normalised: after an
    update with the value "high" it is [EVENT_PRIORITY_HIGH], although such
    events can only be off or operational. *)
Theorem Update_operational_high reader w w' :
  section_free w -> reliable w ->
  lookup_configuration reader OPERATIONAL_EVENT_KEY STRING = Some (TWIN_OK, Some (StringValue PRIORITY_HIGH)) ->
  TwinConfigurationEventCollectors_Update reader w = Some (TWIN_OK, w') ->
  ev_operational (eventPriorities w') = EVENT_PRIORITY_HIGH.
Proof.
  intros Hf Hr Hl Hu. destruct (Update_run reader w Hf Hr) as (r & w1 & Hu1 & _ & _ & _ & H).
  rewrite Hu in Hu1. injection Hu1 as <- <-.
  destruct H as [[_ Hs] | [Hne _]]; [|done].
  do 9 destruct Hs as [_ Hs]. destruct Hs as [Hs _].
  unfold spec_priority in Hs. rewrite Hl in Hs. by injection Hs as <-.
Qed.

End UpdateProperties.

Lemma Update_all_or_nothing_witness :
  exists r w',
    @TwinConfigurationEventCollectors_Update (model_parson no_text no_print) sample_reader (running_world good_env)
      = Some (r, w') /\ held w' = ∅.
Proof.
  destruct (@Update_all_or_nothing (model_parson no_text no_print) (model_laws _ _) sample_reader
              (running_world good_env) (running_free _) good_reliable) as (r & w' & H1 & _ & H2 & _).
  exists r, w'. split; [exact H1 | exact H2].
Defined.

Lemma Update_operational_high_witness :
  match @TwinConfigurationEventCollectors_Update (model_parson no_text no_print) sample_reader (running_world good_env) with
  | Some (TWIN_OK, w') => ev_operational (eventPriorities w') = EVENT_PRIORITY_HIGH
  | _ => False
  end.
Proof.
  assert (H : (match @TwinConfigurationEventCollectors_Update (model_parson no_text no_print) sample_reader
                       (running_world good_env) with Some (TWIN_OK, _) => true | _ => false end) = true)
    by (vm_compute; reflexivity).
  destruct (@TwinConfigurationEventCollectors_Update (model_parson no_text no_print) sample_reader
              (running_world good_env)) as [[r w']|] eqn:E; [|discriminate H].
  destruct r; try discriminate H.
  apply (@Update_operational_high (model_parson no_text no_print) (model_laws _ _) sample_reader
           (running_world good_env) w' (running_free _) good_reliable); [reflexivity | exact E].
Defined.
