(* ===== verification/TwinConfiguration.v ===== *)
(** * [twin_configuration.c]: the agent's remote configuration

    State: the statics [twinConfiguration] (guarded by its own lock),
    [updateResult] and [twinConfigurationObjectName], and through
    [TwinCollectors] the static [eventPriorities].  An update parses a twin
    document, extracts a whole new configuration from it, and only then
    replaces the static under the lock. *)

From S2P Require Import Prelude CString TwinDefs World Utils TimeUtils Parson ParsonModel Json TwinUtils TwinCollectors.
From Stdlib Require Import String.
Open Scope Z_scope.

(** ** Updates of the records *)

Definition set_tc_lock (l : LOCK_HANDLE) (t : TwinConfiguration) : TwinConfiguration :=
  mkTwinConfiguration (tc_maxLocalCacheSize t) (tc_maxMessageSize t) (tc_lowPriorityMessageFrequency t)
    (tc_highPriorityMessageFrequency t) (tc_snapshotFrequency t) (tc_baselineCustomChecksEnabled t)
    (tc_baselineCustomChecksFilePath t) (tc_baselineCustomChecksFileHash t) l.

Definition set_tc_path (s : option string) (t : TwinConfiguration) : TwinConfiguration :=
  mkTwinConfiguration (tc_maxLocalCacheSize t) (tc_maxMessageSize t) (tc_lowPriorityMessageFrequency t)
    (tc_highPriorityMessageFrequency t) (tc_snapshotFrequency t) (tc_baselineCustomChecksEnabled t)
    s (tc_baselineCustomChecksFileHash t) (tc_lock t).

Definition set_tc_hash (s : option string) (t : TwinConfiguration) : TwinConfiguration :=
  mkTwinConfiguration (tc_maxLocalCacheSize t) (tc_maxMessageSize t) (tc_lowPriorityMessageFrequency t)
    (tc_highPriorityMessageFrequency t) (tc_snapshotFrequency t) (tc_baselineCustomChecksEnabled t)
    (tc_baselineCustomChecksFilePath t) s (tc_lock t).

Definition set_bs_eventPriorities (s : TwinConfigurationStatus) (b : TwinConfigurationBundleStatus)
    : TwinConfigurationBundleStatus :=
  mkBundleStatus (bs_maxLocalCacheSize b) (bs_maxMessageSize b) (bs_lowPriorityMessageFrequency b)
    (bs_highPriorityMessageFrequency b) (bs_snapshotFrequency b) s (bs_baselineCustomChecksEnabled b)
    (bs_baselineCustomChecksFilePath b) (bs_baselineCustomChecksFileHash b).

Definition update_twinConfiguration (f : TwinConfiguration -> TwinConfiguration) : M World unit :=
  modify (fun w => set_twinConfiguration (f (twinConfiguration w)) w).

(** ** Initialisation and teardown *)

(** [dest] is always [&twinConfiguration]; its lock is kept. *)
Definition TwinConfiguration_DeepCopy (src : TwinConfiguration) : M World TwinConfigurationResult :=
  update_twinConfiguration (fun dest =>
    mkTwinConfiguration (tc_maxLocalCacheSize src) (tc_maxMessageSize src) (tc_lowPriorityMessageFrequency src)
      (tc_highPriorityMessageFrequency src) (tc_snapshotFrequency src) (tc_baselineCustomChecksEnabled src)
      (tc_baselineCustomChecksFilePath dest) (tc_baselineCustomChecksFileHash dest) (tc_lock dest)) ;;;
  let* (r, path) := Utils_DuplicateString (tc_baselineCustomChecksFilePath src) in
  update_twinConfiguration (set_tc_path path) ;;;
  if decide (r = ACTION_MEMORY_EXCEPTION) then ret TWIN_MEMORY_EXCEPTION
  else
    let* (r, hash) := Utils_DuplicateString (tc_baselineCustomChecksFileHash src) in
    update_twinConfiguration (set_tc_hash hash) ;;;
    if decide (r = ACTION_MEMORY_EXCEPTION) then ret TWIN_MEMORY_EXCEPTION else ret TWIN_OK.

(** A string that is not null is freed and replaced with the default pointer. *)
Definition TwinConfiguration_SafeDeinit : M World unit :=
  update_twinConfiguration (fun t =>
    match tc_baselineCustomChecksFilePath t with
    | Some _ => set_tc_path DEFAULT_BASELINE_CUSTOM_CHECKS_FILE_PATH t
    | None => t
    end) ;;;
  update_twinConfiguration (fun t =>
    match tc_baselineCustomChecksFileHash t with
    | Some _ => set_tc_hash DEFAULT_BASELINE_CUSTOM_CHECKS_FILE_HASH t
    | None => t
    end).

Definition TwinConfiguration_Deinit : M World unit :=
  TwinConfiguration_SafeDeinit ;;;
  TwinConfigurationEventCollectors_Deinit ;;;
  t <- gets twinConfiguration ;;
  match tc_lock t with
  | None => ret tt
  | Some _ => Lock_Deinit (tc_lock t) ;;; update_twinConfiguration (set_tc_lock None)
  end.

(** [objectName] is the result of [LocalConfiguration_GetRemoteConfigurationObjectName]. *)
Definition TwinConfiguration_Init (objectName : option string) : M World TwinConfigurationResult :=
  let cleanup (returnValue : TwinConfigurationResult) :=
    (if decide (returnValue <> TWIN_OK) then TwinConfiguration_Deinit else ret tt) ;;;
    ret returnValue in
  lock <- Lock_Init ;;
  update_twinConfiguration (set_tc_lock lock) ;;;
  match lock with
  | None => cleanup TWIN_LOCK_EXCEPTION
  | Some _ =>
      update_twinConfiguration (fun t =>
        mkTwinConfiguration DEFAULT_MAX_LOCAL_CACHE_SIZE DEFAULT_MAX_MESSAGE_SIZE
          DEFAULT_LOW_PRIORITY_MESSAGE_FREQUENCY DEFAULT_HIGH_PRIORITY_MESSAGE_FREQUENCY DEFAULT_SNAPSHOT_FREQUENCY
          DEFAULT_BASELINE_CUSTOM_CHECKS_ENABLED
          (tc_baselineCustomChecksFilePath t) (tc_baselineCustomChecksFileHash t) (tc_lock t)) ;;;
      let* (r, path) := Utils_DuplicateString DEFAULT_BASELINE_CUSTOM_CHECKS_FILE_PATH in
      update_twinConfiguration (set_tc_path path) ;;;
      if decide (r = ACTION_MEMORY_EXCEPTION) then cleanup TWIN_MEMORY_EXCEPTION
      else
        let* (r, hash) := Utils_DuplicateString DEFAULT_BASELINE_CUSTOM_CHECKS_FILE_HASH in
        update_twinConfiguration (set_tc_hash hash) ;;;
        if decide (r = ACTION_MEMORY_EXCEPTION) then cleanup TWIN_MEMORY_EXCEPTION
        else
          modify (set_objectName objectName) ;;;
          returnValue <- TwinConfigurationEventCollectors_Init ;;
          if decide (returnValue <> TWIN_OK) then
            t <- gets twinConfiguration ;;
            Lock_Deinit (tc_lock t) ;;;
            update_twinConfiguration (set_tc_lock None) ;;;
            cleanup returnValue
          else cleanup TWIN_OK
  end.

(** ** Getters

    The argument [field] is evaluated by the caller, before the lock is taken. *)

Definition TwinConfiguration_GetField {A : Type} (field : A) : M World (TwinConfigurationResult * option A) :=
  lock <- gets (fun w => tc_lock (twinConfiguration w)) ;;
  locked <- Lock lock ;;
  if negb locked then ret (TWIN_LOCK_EXCEPTION, None)
  else
    lock <- gets (fun w => tc_lock (twinConfiguration w)) ;;
    unlocked <- Unlock lock ;;
    ret (if unlocked then TWIN_OK else TWIN_LOCK_EXCEPTION, Some field).

Definition TwinConfiguration_GetFieldInteger (field : Z) := TwinConfiguration_GetField field.
Definition TwinConfiguration_GetFieldBool (field : bool) := TwinConfiguration_GetField field.
Definition TwinConfiguration_GetFieldString (field : option string) := TwinConfiguration_GetField field.

Definition TwinConfiguration_GetMaxLocalCacheSize : M World (TwinConfigurationResult * option Z) :=
  t <- gets twinConfiguration ;; TwinConfiguration_GetFieldInteger (tc_maxLocalCacheSize t).
Definition TwinConfiguration_GetMaxMessageSize : M World (TwinConfigurationResult * option Z) :=
  t <- gets twinConfiguration ;; TwinConfiguration_GetFieldInteger (tc_maxMessageSize t).
Definition TwinConfiguration_GetLowPriorityMessageFrequency : M World (TwinConfigurationResult * option Z) :=
  t <- gets twinConfiguration ;; TwinConfiguration_GetFieldInteger (tc_lowPriorityMessageFrequency t).
Definition TwinConfiguration_GetHighPriorityMessageFrequency : M World (TwinConfigurationResult * option Z) :=
  t <- gets twinConfiguration ;; TwinConfiguration_GetFieldInteger (tc_highPriorityMessageFrequency t).
Definition TwinConfiguration_GetSnapshotFrequency : M World (TwinConfigurationResult * option Z) :=
  t <- gets twinConfiguration ;; TwinConfiguration_GetFieldInteger (tc_snapshotFrequency t).
Definition TwinConfiguration_GetBaselineCustomChecksEnabled : M World (TwinConfigurationResult * option bool) :=
  t <- gets twinConfiguration ;; TwinConfiguration_GetFieldBool (tc_baselineCustomChecksEnabled t).
Definition TwinConfiguration_GetBaselineCustomChecksFilePath
    : M World (TwinConfigurationResult * option (option string)) :=
  t <- gets twinConfiguration ;; TwinConfiguration_GetFieldString (tc_baselineCustomChecksFilePath t).
Definition TwinConfiguration_GetBaselineCustomChecksFileHash
    : M World (TwinConfigurationResult * option (option string)) :=
  t <- gets twinConfiguration ;; TwinConfiguration_GetFieldString (tc_baselineCustomChecksFileHash t).

Definition TwinConfiguration_GetLastTwinUpdateData : M World TwinConfigurationUpdateResult :=
  u <- gets updateResult ;;
  ret (mkUpdateResult (ur_lastUpdateTime u) (ur_lastUpdateResult u) (ur_configurationBundleStatus u)).

(** ** Extracting a configuration from a twin *)

Section Extract.
Context {P : Parson}.

(** A key's new value and status, with the reader as it is left. *)
Definition KeyResult (A : Type) : Type :=
  TwinConfigurationResult * JsonObjectReader * A * TwinConfigurationStatus.

(** [value] is what [*value] holds before the call. *)
Definition TwinConfiguration_SetSingleUintValueFromJsonOrDefault (value defaultValue : Z)
    (reader : JsonObjectReader) (key : string) (isTime : bool) : M World (KeyResult Z) :=
  let* (result, reader, v) :=
    (if isTime then TwinConfigurationUtils_GetConfigurationTimeValueFromJson reader key
     else TwinConfigurationUtils_GetConfigurationUintValueFromJson reader key) in
  let value := default value v in
  match result with
  | TWIN_CONF_NOT_EXIST => ret (TWIN_OK, reader, defaultValue, CONFIGURATION_OK)
  | TWIN_PARSE_EXCEPTION => ret (result, reader, value, CONFIGURATION_TYPE_MISMATCH)
  | _ => ret (result, reader, value, CONFIGURATION_OK)
  end.

Definition TwinConfiguration_SetSingleBoolValueFromJsonOrDefault (value defaultValue : bool)
    (reader : JsonObjectReader) (key : string) : M World (KeyResult bool) :=
  let* (result, reader, v) := TwinConfigurationUtils_GetConfigurationBoolValueFromJson reader key in
  let value := default value v in
  match result with
  | TWIN_CONF_NOT_EXIST => ret (TWIN_OK, reader, defaultValue, CONFIGURATION_OK)
  | TWIN_PARSE_EXCEPTION => ret (result, reader, value, CONFIGURATION_TYPE_MISMATCH)
  | _ => ret (result, reader, value, CONFIGURATION_OK)
  end.

Definition TwinConfiguration_SetSingleStringValueFromJsonOrDefault (value defaultValue : option string)
    (reader : JsonObjectReader) (key : string) : M World (KeyResult (option string)) :=
  let* (result, reader, v) := TwinConfigurationUtils_GetConfigurationStringValueFromJson reader key in
  let value := match v with Some s => Some s | None => value end in
  match result with
  | TWIN_CONF_NOT_EXIST =>
      let* (r, copy) := Utils_DuplicateString defaultValue in
      if decide (r = ACTION_MEMORY_EXCEPTION) then ret (TWIN_MEMORY_EXCEPTION, reader, copy, CONFIGURATION_OK)
      else ret (TWIN_OK, reader, copy, CONFIGURATION_OK)
  | TWIN_PARSE_EXCEPTION => ret (result, reader, value, CONFIGURATION_TYPE_MISMATCH)
  | _ => ret (result, reader, value, CONFIGURATION_OK)
  end.

(** The out parameters of an extraction and its result. *)
Definition Extraction : Type :=
  TwinConfigurationResult * TwinConfigurationBundleStatus * TwinConfiguration * JsonObjectReader.

(** The block that follows the read of each key: a type mismatch is remembered
    and the extraction goes on with the next key, any other error ends it.
    [stop] is the outcome when the key ends the extraction. *)
Definition key_block {A} (result : TwinConfigurationResult) (read : M World (KeyResult A))
    (stop : TwinConfigurationResult -> JsonObjectReader -> A -> TwinConfigurationStatus -> Extraction)
    (next : TwinConfigurationResult -> JsonObjectReader -> A -> TwinConfigurationStatus -> M World Extraction)
    : M World Extraction :=
  let* (currentKeyResult, reader, value, status) := read in
  match currentKeyResult with
  | TWIN_PARSE_EXCEPTION => next TWIN_PARSE_EXCEPTION reader value status
  | TWIN_OK => next result reader value status
  | _ => ret (stop currentKeyResult reader value status)
  end.

(** The blocks in the order of the code; the status of a key that is not
    reached is [CONFIGURATION_OK], its value is zero. *)
Definition TwinConfiguration_ExtractConfiguration (jsonReader : JsonObjectReader) : M World Extraction :=
  let ok := CONFIGURATION_OK in
  key_block TWIN_OK
    (TwinConfiguration_SetSingleUintValueFromJsonOrDefault 0 DEFAULT_MAX_LOCAL_CACHE_SIZE jsonReader MAX_LOCAL_CACHE_SIZE_KEY false)
    (fun r rd v1 s1 => (r, mkBundleStatus s1 ok ok ok ok ok ok ok ok, mkTwinConfiguration v1 0 0 0 0 false None None None, rd))
    (fun result jsonReader v1 s1 =>
  key_block result
    (TwinConfiguration_SetSingleUintValueFromJsonOrDefault 0 DEFAULT_MAX_MESSAGE_SIZE jsonReader MAX_MESSAGE_SIZE_KEY false)
    (fun r rd v2 s2 => (r, mkBundleStatus s1 s2 ok ok ok ok ok ok ok, mkTwinConfiguration v1 v2 0 0 0 false None None None, rd))
    (fun result jsonReader v2 s2 =>
  key_block result
    (TwinConfiguration_SetSingleUintValueFromJsonOrDefault 0 DEFAULT_HIGH_PRIORITY_MESSAGE_FREQUENCY jsonReader HIGH_PRIORITY_MESSAGE_FREQUENCY_KEY true)
    (fun r rd v3 s3 => (r, mkBundleStatus s1 s2 ok s3 ok ok ok ok ok, mkTwinConfiguration v1 v2 0 v3 0 false None None None, rd))
    (fun result jsonReader v3 s3 =>
  key_block result
    (TwinConfiguration_SetSingleUintValueFromJsonOrDefault 0 DEFAULT_LOW_PRIORITY_MESSAGE_FREQUENCY jsonReader LOW_PRIORITY_MESSAGE_FREQUENCY_KEY true)
    (fun r rd v4 s4 => (r, mkBundleStatus s1 s2 s4 s3 ok ok ok ok ok, mkTwinConfiguration v1 v2 v4 v3 0 false None None None, rd))
    (fun result jsonReader v4 s4 =>
  key_block result
    (TwinConfiguration_SetSingleUintValueFromJsonOrDefault 0 DEFAULT_SNAPSHOT_FREQUENCY jsonReader SNAPSHOT_FREQUENCY_KEY true)
    (fun r rd v5 s5 => (r, mkBundleStatus s1 s2 s4 s3 s5 ok ok ok ok, mkTwinConfiguration v1 v2 v4 v3 v5 false None None None, rd))
    (fun result jsonReader v5 s5 =>
  key_block result
    (TwinConfiguration_SetSingleBoolValueFromJsonOrDefault false DEFAULT_BASELINE_CUSTOM_CHECKS_ENABLED jsonReader BASELINE_CUSTOM_CHECKS_ENABLED_KEY)
    (fun r rd v6 s6 => (r, mkBundleStatus s1 s2 s4 s3 s5 ok s6 ok ok, mkTwinConfiguration v1 v2 v4 v3 v5 v6 None None None, rd))
    (fun result jsonReader v6 s6 =>
  key_block result
    (TwinConfiguration_SetSingleStringValueFromJsonOrDefault None DEFAULT_BASELINE_CUSTOM_CHECKS_FILE_PATH jsonReader BASELINE_CUSTOM_CHECKS_FILE_PATH_KEY)
    (fun r rd v7 s7 => (r, mkBundleStatus s1 s2 s4 s3 s5 ok s6 s7 ok, mkTwinConfiguration v1 v2 v4 v3 v5 v6 v7 None None, rd))
    (fun result jsonReader v7 s7 =>
  key_block result
    (TwinConfiguration_SetSingleStringValueFromJsonOrDefault None DEFAULT_BASELINE_CUSTOM_CHECKS_FILE_HASH jsonReader BASELINE_CUSTOM_CHECKS_FILE_HASH_KEY)
    (fun r rd v8 s8 => (r, mkBundleStatus s1 s2 s4 s3 s5 ok s6 s7 s8, mkTwinConfiguration v1 v2 v4 v3 v5 v6 v7 v8 None, rd))
    (fun result jsonReader v8 s8 =>
  ret (result, mkBundleStatus s1 s2 s4 s3 s5 ok s6 s7 s8, mkTwinConfiguration v1 v2 v4 v3 v5 v6 v7 v8 None, jsonReader))))))))).

(** ** Update *)

(** The [cleanup:] label: the outcome is recorded, the lock released, and the
    configuration torn down after a memory failure. *)
Definition TwinConfiguration_Update_cleanup (isLocked : bool) (newBundleStatus : TwinConfigurationBundleStatus)
    (returnValue : TwinConfigurationResult) : M World TwinConfigurationResult :=
  now <- TimeUtils_GetCurrentTime ;;
  modify (set_updateResult (mkUpdateResult now returnValue newBundleStatus)) ;;;
  t <- gets twinConfiguration ;;
  unlocked <- (if isLocked then Unlock (tc_lock t) else ret true) ;;
  require unlocked else TWIN_LOCK_EXCEPTION ;;
  (if decide (returnValue = TWIN_MEMORY_EXCEPTION) then TwinConfiguration_Deinit else ret tt) ;;;
  ret returnValue.

Definition no_status : TwinConfigurationBundleStatus :=
  mkBundleStatus CONFIGURATION_OK CONFIGURATION_OK CONFIGURATION_OK CONFIGURATION_OK CONFIGURATION_OK
    CONFIGURATION_OK CONFIGURATION_OK CONFIGURATION_OK CONFIGURATION_OK.

(** The first part of an update: the reader in the object of the agent's
    configuration, an empty one when the twin has none.  A null object name is
    passed on to a string function. *)
Definition TwinConfiguration_Update_open (json : string) (complete : bool)
    : M World (TwinConfigurationResult + JsonObjectReader) :=
  let* (result, opened) := JsonObjectReader_InitFromString json in
  match result, opened with
  | JSON_READER_OK, Some jsonReader =>
      let '(result, jsonReader) :=
        (if complete then JsonObjectReader_StepIn jsonReader "desired" else (JSON_READER_OK, jsonReader)) in
      if decide (result <> JSON_READER_OK) then ret (inl TWIN_PARSE_EXCEPTION)
      else
        name <- gets twinConfigurationObjectName ;;
        match name with
        | None => undefined
        | Some objectName =>
            match JsonObjectReader_StepIn jsonReader objectName with
            | (JSON_READER_KEY_MISSING, _) | (JSON_READER_VALUE_IS_NULL, _) =>
                let* (result, opened) := JsonObjectReader_InitFromString "{}" in
                match result, opened with
                | JSON_READER_OK, Some jsonReader => ret (inr jsonReader)
                | _, _ => undefined  (* [cleanup:] frees [jsonReader] a second time *)
                end
            | (JSON_READER_OK, jsonReader) => ret (inr jsonReader)
            | (_, _) => ret (inl TWIN_PARSE_EXCEPTION)
            end
        end
  | _, _ => ret (inl TWIN_EXCEPTION)
  end.

Definition TwinConfiguration_Update (json : string) (complete : bool) : M World TwinConfigurationResult :=
  opened <- TwinConfiguration_Update_open json complete ;;
  match opened with
  | inl returnValue => TwinConfiguration_Update_cleanup false no_status returnValue
  | inr jsonReader =>
      let* (returnValue, newBundleStatus, newConfiguration, jsonReader) :=
        TwinConfiguration_ExtractConfiguration jsonReader in
      if decide (returnValue <> TWIN_OK) then TwinConfiguration_Update_cleanup false newBundleStatus returnValue
      else
        t <- gets twinConfiguration ;;
        isLocked <- Lock (tc_lock t) ;;
        if negb isLocked then TwinConfiguration_Update_cleanup false newBundleStatus TWIN_LOCK_EXCEPTION
        else
          returnValue <- TwinConfigurationEventCollectors_Update jsonReader ;;
          match returnValue with
          | TWIN_PARSE_EXCEPTION =>
              TwinConfiguration_Update_cleanup true
                (set_bs_eventPriorities CONFIGURATION_TYPE_MISMATCH newBundleStatus) returnValue
          | TWIN_OK =>
              TwinConfiguration_SafeDeinit ;;;
              returnValue <- TwinConfiguration_DeepCopy newConfiguration ;;
              TwinConfiguration_Update_cleanup true newBundleStatus returnValue
          | _ => TwinConfiguration_Update_cleanup true newBundleStatus returnValue
          end
  end.

(** ** Serialization *)

(** The writes of the configuration, in the order of the code.  [timeSpan] is
    rewritten for each frequency. *)
Definition TwinConfiguration_write_all (t : TwinConfiguration) (configurationObject : JsonObjectWriter)
    : M World (TwinConfigurationResult * JsonObjectWriter) :=
  let* (result, configurationObject) :=
    write_all
      [ (fun w => TwinConfigurationUtils_WriteUintConfigurationToJson w MAX_LOCAL_CACHE_SIZE_KEY (tc_maxLocalCacheSize t));
        (fun w => TwinConfigurationUtils_WriteUintConfigurationToJson w MAX_MESSAGE_SIZE_KEY (tc_maxMessageSize t));
        write_interval HIGH_PRIORITY_MESSAGE_FREQUENCY_KEY (tc_highPriorityMessageFrequency t);
        write_interval LOW_PRIORITY_MESSAGE_FREQUENCY_KEY (tc_lowPriorityMessageFrequency t);
        write_interval SNAPSHOT_FREQUENCY_KEY (tc_snapshotFrequency t);
        write_bool BASELINE_CUSTOM_CHECKS_ENABLED_KEY (tc_baselineCustomChecksEnabled t);
        (fun w => TwinConfigurationUtils_WriteStringConfigurationToJson w BASELINE_CUSTOM_CHECKS_FILE_PATH_KEY
                    (tc_baselineCustomChecksFilePath t));
        (fun w => TwinConfigurationUtils_WriteStringConfigurationToJson w BASELINE_CUSTOM_CHECKS_FILE_HASH_KEY
                    (tc_baselineCustomChecksFileHash t)) ]
      configurationObject in
  match result with
  | TWIN_OK => TwinConfigurationEventCollectors_GetPrioritiesJson configurationObject
  | _ => ret (result, configurationObject)
  end.

(** Returns the text and its size. *)
Definition TwinConfiguration_GetSerializedTwinConfiguration
    : M World (TwinConfigurationResult * option (string * Z)) :=
  let cleanup (result : TwinConfigurationResult * option (string * Z)) :=
    t <- gets twinConfiguration ;;
    unlocked <- Unlock (tc_lock t) ;;
    ret (if unlocked then fst result else TWIN_LOCK_EXCEPTION, snd result) in
  t <- gets twinConfiguration ;;
  isLocked <- Lock (tc_lock t) ;;
  if negb isLocked then ret (TWIN_LOCK_EXCEPTION, None)
  else
    let* (r, root) := JsonObjectWriter_Init in
    match r, root with
    | JSON_WRITER_OK, Some twinRoot =>
        let* (r, object) := JsonObjectWriter_Init in
        match r, object with
        | JSON_WRITER_OK, Some configurationObject =>
            let* (result, configurationObject) := TwinConfiguration_write_all t configurationObject in
            match result with
            | TWIN_OK =>
                name <- gets twinConfigurationObjectName ;;
                match name with
                | None => undefined
                | Some objectName =>
                    match JsonObjectWriter_WriteObject twinRoot objectName configurationObject with
                    | (JSON_WRITER_OK, twinRoot, _) =>
                        match JsonObjectWriter_Serialize twinRoot with
                        | (JSON_WRITER_OK, text) => cleanup (TWIN_OK, text)
                        | (_, text) => cleanup (TWIN_EXCEPTION, text)
                        end
                    | (_, _, _) => cleanup (TWIN_EXCEPTION, None)
                    end
                end
            | _ => cleanup (result, None)
            end
        | _, _ => cleanup (TWIN_EXCEPTION, None)
        end
    | _, _ => cleanup (TWIN_EXCEPTION, None)
    end.

End Extract.

(** ** Specification *)

Section Spec.
Context {P : Parson}.

(** Opening a document and stepping to the agent's section of it. *)
Definition open_document (text : string) : option JsonObjectReader :=
  doc ← json_parse_string text;
  o ← json_value_get_object doc (json_root doc);
  Some (mkReader doc true o true).

(** The section of a twin that an update reads: an error, or a reader in it. *)
Definition twin_section (json : string) (complete : bool) (objectName : string)
    : option (TwinConfigurationResult + JsonObjectReader) :=
  match open_document json with
  | None => Some (inl TWIN_EXCEPTION)
  | Some reader =>
      let '(r, reader) := (if complete then JsonObjectReader_StepIn reader "desired" else (JSON_READER_OK, reader)) in
      if decide (r <> JSON_READER_OK) then Some (inl TWIN_PARSE_EXCEPTION)
      else
        match JsonObjectReader_StepIn reader objectName with
        | (JSON_READER_KEY_MISSING, _) | (JSON_READER_VALUE_IS_NULL, _) => inr <$> open_document "{}"
        | (JSON_READER_OK, reader) => Some (inr reader)
        | (_, _) => Some (inl TWIN_PARSE_EXCEPTION)
        end
  end.

(** What a twin says about one key, from the lookup of its configuration: a
    result and the new value, which is the default when the key is absent. *)
Definition spec_key {A} (proj : ConfigurationValue -> option A) (zero absent : A)
    (l : option (TwinConfigurationResult * option ConfigurationValue)) : option (TwinConfigurationResult * A) :=
  match l with
  | None => None
  | Some (TWIN_CONF_NOT_EXIST, _) => Some (TWIN_OK, absent)
  | Some (r, v) => Some (r, default zero (v ≫= proj))
  end.

Definition as_uint (v : ConfigurationValue) : option Z := match v with UintValue n => Some n | _ => None end.
Definition as_time (v : ConfigurationValue) : option Z := match v with TimeValue n => Some n | _ => None end.
Definition as_bool (v : ConfigurationValue) : option bool := match v with BoolValue b => Some b | _ => None end.
Definition as_string (v : ConfigurationValue) : option (option string) :=
  match v with StringValue s => Some (Some s) | _ => None end.

Definition uint_key (reader : JsonObjectReader) (key : string) (d : Z) :=
  spec_key as_uint 0 d (lookup_configuration reader key UINT).
Definition time_key (reader : JsonObjectReader) (key : string) (d : Z) :=
  spec_key as_time 0 d (lookup_configuration reader key TIME).
Definition bool_key (reader : JsonObjectReader) (key : string) (d : bool) :=
  spec_key as_bool false d (lookup_configuration reader key BOOL).
Definition string_key (reader : JsonObjectReader) (key : string) :=
  spec_key as_string None None (lookup_configuration reader key STRING).

(** The configuration that a twin selects. *)
Definition twin_configures (reader : JsonObjectReader) (t : TwinConfiguration) : Prop :=
  uint_key reader MAX_LOCAL_CACHE_SIZE_KEY (10 * 1024 * 1024) = Some (TWIN_OK, tc_maxLocalCacheSize t) /\
  uint_key reader MAX_MESSAGE_SIZE_KEY (200 * 1024) = Some (TWIN_OK, tc_maxMessageSize t) /\
  time_key reader HIGH_PRIORITY_MESSAGE_FREQUENCY_KEY (7 * 60000) = Some (TWIN_OK, tc_highPriorityMessageFrequency t) /\
  time_key reader LOW_PRIORITY_MESSAGE_FREQUENCY_KEY (5 * 3600000) = Some (TWIN_OK, tc_lowPriorityMessageFrequency t) /\
  time_key reader SNAPSHOT_FREQUENCY_KEY (13 * 3600000) = Some (TWIN_OK, tc_snapshotFrequency t) /\
  bool_key reader BASELINE_CUSTOM_CHECKS_ENABLED_KEY false = Some (TWIN_OK, tc_baselineCustomChecksEnabled t) /\
  string_key reader BASELINE_CUSTOM_CHECKS_FILE_PATH_KEY = Some (TWIN_OK, tc_baselineCustomChecksFilePath t) /\
  string_key reader BASELINE_CUSTOM_CHECKS_FILE_HASH_KEY = Some (TWIN_OK, tc_baselineCustomChecksFileHash t).

(** The status that a key deserves. *)
Definition status_of (r : TwinConfigurationResult) : TwinConfigurationStatus :=
  match r with TWIN_PARSE_EXCEPTION => CONFIGURATION_TYPE_MISMATCH | _ => CONFIGURATION_OK end.

Definition key_status (reader : JsonObjectReader) (key : string) (type : TwinConfigurationTypes)
    : TwinConfigurationStatus :=
  match lookup_configuration reader key type with
  | Some (r, _) => status_of r
  | None => CONFIGURATION_OK
  end.

(** Every mistyped key of the twin, and only those, marked as a mismatch. *)
Definition all_statuses (reader : JsonObjectReader) : TwinConfigurationBundleStatus :=
  mkBundleStatus
    (key_status reader MAX_LOCAL_CACHE_SIZE_KEY UINT)
    (key_status reader MAX_MESSAGE_SIZE_KEY UINT)
    (key_status reader LOW_PRIORITY_MESSAGE_FREQUENCY_KEY TIME)
    (key_status reader HIGH_PRIORITY_MESSAGE_FREQUENCY_KEY TIME)
    (key_status reader SNAPSHOT_FREQUENCY_KEY TIME)
    CONFIGURATION_OK
    (key_status reader BASELINE_CUSTOM_CHECKS_ENABLED_KEY BOOL)
    (key_status reader BASELINE_CUSTOM_CHECKS_FILE_PATH_KEY STRING)
    (key_status reader BASELINE_CUSTOM_CHECKS_FILE_HASH_KEY STRING).

(** The numbers of the twin can be converted to [int32_t]. *)
Definition numbers_fit (reader : JsonObjectReader) : Prop :=
  lookup_configuration reader MAX_LOCAL_CACHE_SIZE_KEY UINT <> None /\
  lookup_configuration reader MAX_MESSAGE_SIZE_KEY UINT <> None.

(** Does the result of a key end the extraction, and what it leaves otherwise. *)
Definition stops (r : TwinConfigurationResult) : bool :=
  match r with TWIN_OK | TWIN_PARSE_EXCEPTION => false | _ => true end.
Definition combine (result r : TwinConfigurationResult) : TwinConfigurationResult :=
  match r with TWIN_PARSE_EXCEPTION => TWIN_PARSE_EXCEPTION | _ => result end.

(** What the extraction from [reader] ends with: the values when every key is
    fine, and the statuses of all keys unless another error cut it short. *)
Definition extracts (reader : JsonObjectReader) (r : TwinConfigurationResult)
    (bs : TwinConfigurationBundleStatus) (t : TwinConfiguration) : Prop :=
  (r = TWIN_OK -> twin_configures reader t) /\
  (r <> TWIN_OK -> forall t', ~ twin_configures reader t') /\
  (stops r = false -> bs = all_statuses reader) /\
  r <> TWIN_MEMORY_EXCEPTION.

(** The document [{}] opens, and holds nothing. *)
Definition empty_document_opens : Prop :=
  exists reader, open_document "{}" = Some reader /\
    forall key, json_object_dothas_value (rd_document reader) (rd_rootObject reader) key = false.

End Spec.

(** The configuration component at rest: both locks exist, are distinct, and
    are not held. *)
Definition locks_ready (w : World) : Prop :=
  section_free w /\
  exists l, tc_lock (twinConfiguration w) = Some l /\ (l ∉ held w) /\ ev_lock (eventPriorities w) <> Some l.

(** A getter of the field [proj], in any environment. *)
Definition getter_ok {A} (getter : M World (TwinConfigurationResult * option A)) (proj : TwinConfiguration -> A)
    (w : World) : Prop :=
  exists r w',
    getter w = Some (r, w') /\ twinConfiguration w' = twinConfiguration w /\
    if env_ok (env w) (tick w) && env_ok (env w) (S (tick w)) then
      r = (TWIN_OK, Some (proj (twinConfiguration w))) /\ held w' = held w
    else fst r = TWIN_LOCK_EXCEPTION.

(** The default configuration, with lock [l]. *)
Definition default_configuration (l : LOCK_HANDLE) : TwinConfiguration :=
  mkTwinConfiguration DEFAULT_MAX_LOCAL_CACHE_SIZE DEFAULT_MAX_MESSAGE_SIZE
    DEFAULT_LOW_PRIORITY_MESSAGE_FREQUENCY DEFAULT_HIGH_PRIORITY_MESSAGE_FREQUENCY DEFAULT_SNAPSHOT_FREQUENCY
    DEFAULT_BASELINE_CUSTOM_CHECKS_ENABLED None None l.

(** ** Sample twins *)

Definition SECTION : string := "ms_iotn:urn_azureiot_Security_SecurityAgentConfiguration".

(** A complete twin that sets the cache size, one frequency and the custom checks. *)
Definition sample_complete : json :=
  JObj [("desired"%string, JObj [(SECTION, JObj [
    (MAX_LOCAL_CACHE_SIZE_KEY, JObj [(VALUE_KEY, JNum (QArith_base.inject_Z 2560000))]);
    (SNAPSHOT_FREQUENCY_KEY, JObj [(VALUE_KEY, JStr "P1D")]);
    (BASELINE_CUSTOM_CHECKS_FILE_PATH_KEY, JObj [(VALUE_KEY, JStr "/etc/checks.json")])])])].

Definition sample_parse (text : string) : option json :=
  if String.eqb text "complete" then Some sample_complete
  else if String.eqb text "{}" then Some (JObj [])
  else if String.eqb text "patch" then Some (JObj [("other"%string, JBool true)])
  else None.

Definition sample_parson : Parson := model_parson sample_parse no_print.

(** The reader in the agent's section of the sample. *)
Definition sample_section : @JsonObjectReader sample_parson :=
  @mkReader sample_parson sample_complete true [inl "desired"%string; inl SECTION] true.

(** An environment in which the call at tick [bad] fails. *)
Definition failing_env (bad : nat) : Env :=
  mkEnv (fun n => negb (Nat.eqb n bad)) (env_time good_env) (env_localtime good_env) (env_gmtime good_env)
        (env_uuid good_env).

(** ** Lemmas: teardown *)

Lemma Deinit_lock w x w' :
  TwinConfiguration_Deinit w = Some (x, w') ->
  tc_lock (twinConfiguration w') = None /\ ev_lock (eventPriorities w') = None.
Proof.
  unfold TwinConfiguration_Deinit. intros H. apply bind_inv in H as (? & w1 & _ & H).
  apply bind_inv in H as (? & w2 & He & H). apply bind_inv in H as (t & w3 & [= <- <-] & H).
  assert (Hev : ev_lock (eventPriorities w2) = None).
  { unfold TwinConfigurationEventCollectors_Deinit in He. apply bind_inv in He as (e & w4 & [= <- <-] & He).
    destruct (ev_lock (eventPriorities w1)) eqn:E; [|by injection He as _ <-].
    apply bind_inv in He as (? & w5 & _ & [= _ <-]). done. }
  destruct (tc_lock (twinConfiguration w2)) eqn:E; [|by injection H as _ <-].
  apply bind_inv in H as (? & w4 & Hd & [= _ <-]). split; [done|].
  unfold Lock_Deinit in Hd. apply bind_inv in Hd as (? & ? & [= <- <-] & Hd). case_decide; [done|].
  by injection Hd as <- <-.
Qed.

(** ** Lemmas: extraction *)

Section ExtractLemmas.
Context {P : Parson} {L : ParsonLaws P}.

Lemma lookup_defined reader key type :
  type <> UINT -> exists r v, lookup_configuration reader key type = Some (r, v).
Proof.
  intros Ht. unfold lookup_configuration.
  destruct (JsonObjectReader_StepIn reader key) as [[] inner]; eauto.
  cbv zeta. destruct type; try done.
  - destruct (JsonObjectReader_ReadString inner VALUE_KEY); eauto.
  - destruct (JsonObjectReader_ReadTimeInMilliseconds inner VALUE_KEY); eauto.
  - destruct (JsonObjectReader_ReadBool inner VALUE_KEY); eauto.
Qed.

(** The three readers of a key compute [spec_key]. *)
Lemma SetSingleUint_spec d reader key isTime w :
  plain_key key = true ->
  TwinConfiguration_SetSingleUintValueFromJsonOrDefault 0 d reader key isTime w =
  match (if isTime then time_key reader key d else uint_key reader key d) with
  | Some (r, v) => Some ((r, reader, v, status_of r), w)
  | None => None
  end.
Proof.
  intros Hk. unfold TwinConfiguration_SetSingleUintValueFromJsonOrDefault, time_key, uint_key, spec_key,
    TwinConfigurationUtils_GetConfigurationTimeValueFromJson, TwinConfigurationUtils_GetConfigurationUintValueFromJson.
  destruct isTime; unfold bind; rewrite GetConfigurationValue_spec by done;
    destruct (lookup_configuration reader key _) as [[r v]|]; try done; by destruct r, v as [[]|].
Qed.

Lemma SetSingleBool_spec d reader key w :
  plain_key key = true ->
  TwinConfiguration_SetSingleBoolValueFromJsonOrDefault false d reader key w =
  match bool_key reader key d with
  | Some (r, v) => Some ((r, reader, v, status_of r), w)
  | None => None
  end.
Proof.
  intros Hk. unfold TwinConfiguration_SetSingleBoolValueFromJsonOrDefault, bool_key, spec_key,
    TwinConfigurationUtils_GetConfigurationBoolValueFromJson, bind.
  rewrite GetConfigurationValue_spec by done.
  destruct (lookup_configuration reader key _) as [[r v]|]; try done. by destruct r, v as [[]|].
Qed.

Lemma SetSingleString_spec reader key w :
  plain_key key = true ->
  TwinConfiguration_SetSingleStringValueFromJsonOrDefault None None reader key w =
  match string_key reader key with
  | Some (r, v) => Some ((r, reader, v, status_of r), w)
  | None => None
  end.
Proof.
  intros Hk. unfold TwinConfiguration_SetSingleStringValueFromJsonOrDefault, string_key, spec_key,
    TwinConfigurationUtils_GetConfigurationStringValueFromJson, bind.
  rewrite GetConfigurationValue_spec by done.
  destruct (lookup_configuration reader key _) as [[r v]|]; try done. by destruct r, v as [[]|].
Qed.

Lemma key_block_run {A} result (read : M World (KeyResult A)) stop next r reader v s w w' :
  read w = Some ((r, reader, v, s), w') ->
  key_block result read stop next w =
  if stops r then Some (stop r reader v s, w') else next (combine result r) reader v s w'.
Proof. intros H. unfold key_block, bind. rewrite H. by destruct r. Qed.

(** A key whose lookup is defined: its result, its value and its status. *)
Lemma spec_key_defined {A} proj (zero absent : A) reader key type :
  lookup_configuration reader key type <> None ->
  exists r v,
    spec_key proj zero absent (lookup_configuration reader key type) = Some (r, v) /\
    status_of r = key_status reader key type /\ r <> TWIN_MEMORY_EXCEPTION.
Proof.
  pose proof (lookup_not_memory reader key type) as Hm. unfold spec_key, key_status.
  destruct (lookup_configuration reader key type) as [[[] v]|]; intros; try done;
    try (eexists _, _; repeat split; done).
  by destruct (Hm v).
Qed.

(** One block of the extraction, for each type of key. *)
Definition runs_block {A} (read : M World (KeyResult A)) (reader : JsonObjectReader)
    (spec : option (TwinConfigurationResult * A)) (status : TwinConfigurationStatus) : Prop :=
  exists r v,
    spec = Some (r, v) /\ status_of r = status /\ r <> TWIN_MEMORY_EXCEPTION /\
    forall result stop next w,
      key_block result read stop next w =
      if stops r then Some (stop r reader v status, w) else next (combine result r) reader v status w.

Lemma runs_block_intro {A} (read : M World (KeyResult A)) reader proj (zero absent : A) key type :
  (forall w, read w = match spec_key proj zero absent (lookup_configuration reader key type) with
                      | Some (r, v) => Some ((r, reader, v, status_of r), w)
                      | None => None
                      end) ->
  lookup_configuration reader key type <> None ->
  runs_block read reader (spec_key proj zero absent (lookup_configuration reader key type)) (key_status reader key type).
Proof.
  intros Hr Hd. destruct (spec_key_defined proj zero absent _ _ _ Hd) as (r & v & E & S & Hm).
  exists r, v. repeat (split; [done|]). intros. apply key_block_run. rewrite Hr, E, S. done.
Qed.

Lemma lookup_some reader key type : type <> UINT -> lookup_configuration reader key type <> None.
Proof. intros H. destruct (lookup_defined reader key type H) as (? & ? & ->). done. Qed.

Lemma uint_block reader key d :
  plain_key key = true -> lookup_configuration reader key UINT <> None ->
  runs_block (TwinConfiguration_SetSingleUintValueFromJsonOrDefault 0 d reader key false) reader
    (uint_key reader key d) (key_status reader key UINT).
Proof. intros Hk H. apply runs_block_intro; [|done]. intros w. by rewrite SetSingleUint_spec. Qed.

Lemma time_block reader key d :
  plain_key key = true ->
  runs_block (TwinConfiguration_SetSingleUintValueFromJsonOrDefault 0 d reader key true) reader
    (time_key reader key d) (key_status reader key TIME).
Proof. intros Hk. apply runs_block_intro; [|by apply lookup_some]. intros w. by rewrite SetSingleUint_spec. Qed.

Lemma bool_block reader key d :
  plain_key key = true ->
  runs_block (TwinConfiguration_SetSingleBoolValueFromJsonOrDefault false d reader key) reader
    (bool_key reader key d) (key_status reader key BOOL).
Proof. intros Hk. apply runs_block_intro; [|by apply lookup_some]. intros w. by rewrite SetSingleBool_spec. Qed.

Lemma string_block reader key :
  plain_key key = true ->
  runs_block (TwinConfiguration_SetSingleStringValueFromJsonOrDefault None None reader key) reader
    (string_key reader key) (key_status reader key STRING).
Proof. intros Hk. apply runs_block_intro; [|by apply lookup_some]. intros w. by rewrite SetSingleString_spec. Qed.

Lemma combine_ok result r : stops r = false -> combine result r = TWIN_OK -> result = TWIN_OK /\ r = TWIN_OK.
Proof. by destruct r. Qed.

Lemma extracts_stop reader r bs t :
  stops r = true -> r <> TWIN_MEMORY_EXCEPTION -> (forall t', ~ twin_configures reader t') -> extracts reader r bs t.
Proof. intros H Hm Ht. unfold extracts. by destruct r. Qed.

Lemma combine_stops result r : stops result = false -> stops r = false -> stops (combine result r) = false.
Proof. by destruct r. Qed.

(** No configuration is selected when a key has a result ([E]) that [C] says
    is not [TWIN_OK]. *)
Ltac refute_key E C :=
  let t := fresh "t" in let Ht := fresh "Ht" in intros t Ht; unfold twin_configures in Ht;
  decompose [and] Ht; clear Ht;
  match goal with
  | H' : _ = Some (TWIN_OK, _) |- _ => injection (eq_trans (eq_sym E) H') as -> _; discriminate C
  end.

(** One key: it ends the extraction, or the extraction goes on. *)
Ltac next_key block :=
  let r := fresh "r" in let v := fresh "v" in let E := fresh "E" in let S := fresh "S" in
  let Hm := fresh "Hm" in let B := fresh "B" in let C := fresh "C" in
  edestruct block as (r & v & E & S & Hm & B);
  [..| rewrite B; clear B; destruct (stops r) eqn:C;
       [eexists _, _, _; split; [reflexivity | apply extracts_stop; [done | done | refute_key E C]] |]]; try done.

Lemma combine_memory result r :
  result <> TWIN_MEMORY_EXCEPTION -> r <> TWIN_MEMORY_EXCEPTION -> combine result r <> TWIN_MEMORY_EXCEPTION.
Proof. by destruct r. Qed.

Lemma Extract_run reader w :
  numbers_fit reader ->
  exists r bs t,
    TwinConfiguration_ExtractConfiguration reader w = Some ((r, bs, t, reader), w) /\ extracts reader r bs t.
Proof.
  intros [H1 H2]. unfold TwinConfiguration_ExtractConfiguration. cbv zeta.
  do 2 next_key uint_block. do 3 next_key time_block. next_key bool_block. do 2 next_key string_block.
  eexists _, _, _. split; [reflexivity|].
  split; [|split; [|split; [done|]]].
  - intros H. repeat (apply combine_ok in H as [H ->]; [|done]). by repeat split.
  - intros H t (K1 & K2 & K3 & K4 & K5 & K6 & K7 & K8). apply H.
    injection (eq_trans (eq_sym E) K1) as -> _. injection (eq_trans (eq_sym E0) K2) as -> _.
    injection (eq_trans (eq_sym E1) K3) as -> _. injection (eq_trans (eq_sym E2) K4) as -> _.
    injection (eq_trans (eq_sym E3) K5) as -> _. injection (eq_trans (eq_sym E4) K6) as -> _.
    injection (eq_trans (eq_sym E5) K7) as -> _. injection (eq_trans (eq_sym E6) K8) as -> _. done.
  - by repeat apply combine_memory.
Qed.

End ExtractLemmas.

(** ** Lemmas: update *)

Section UpdateLemmas.
Context {P : Parson} {L : ParsonLaws P}.

Lemma InitFromString_reliable text w :
  reliable w ->
  JsonObjectReader_InitFromString text w =
  Some (match open_document text with
        | Some reader => (JSON_READER_OK, Some reader)
        | None => (JSON_READER_EXCEPTION, None)
        end, bump 1 w).
Proof.
  intros Hr. unfold JsonObjectReader_InitFromString, JsonObjectReader_Init, open_document.
  unfold bind at 1. rewrite malloc_reliable by done. cbv beta iota.
  destruct (json_parse_string text) as [doc|]; [|done]. cbn.
  by destruct (json_value_get_object doc (json_root doc)).
Qed.

Lemma Update_open_run json complete name w :
  reliable w -> twinConfigurationObjectName w = Some name ->
  exists n, TwinConfiguration_Update_open json complete w =
  match twin_section json complete name with
  | Some x => Some (x, bump n w)
  | None => None
  end.
Proof.
  intros Hr Hn. unfold TwinConfiguration_Update_open, bind at 1, twin_section.
  rewrite InitFromString_reliable by done. destruct (open_document json) as [reader|]; [|by exists 1%nat].
  cbv beta iota.
  destruct (if complete then JsonObjectReader_StepIn reader "desired" else (JSON_READER_OK, reader)) as [r reader1].
  case_decide; [by exists 1%nat|]. unfold bind, gets. cbn [twinConfigurationObjectName bump set_tick]. rewrite Hn.
  destruct (JsonObjectReader_StepIn reader1 name) as [[] reader2]; try (by exists 1%nat).
  - exists 2%nat. rewrite InitFromString_reliable by done. by destruct (open_document "{}").
  - exists 2%nat. rewrite InitFromString_reliable by done. by destruct (open_document "{}").
Qed.

(** What an update records about itself. *)
Definition recorded (w' : World) (r : TwinConfigurationResult) (bs : TwinConfigurationBundleStatus) : Prop :=
  ur_lastUpdateResult (updateResult w') = r /\ ur_configurationBundleStatus (updateResult w') = bs.

(** What an update never changes. *)
Definition rest_kept (w w' : World) : Prop :=
  env w' = env w /\ next_lock w' = next_lock w /\ memoryMonitor w' = memoryMonitor w /\
  twinConfigurationObjectName w' = twinConfigurationObjectName w.

(** The [cleanup:] label when the lock was not taken. *)
Lemma cleanup_unlocked bs r w :
  r <> TWIN_MEMORY_EXCEPTION ->
  exists w', TwinConfiguration_Update_cleanup false bs r w = Some (r, w') /\
    held w' = held w /\ twinConfiguration w' = twinConfiguration w /\ eventPriorities w' = eventPriorities w /\
    recorded w' r bs /\ rest_kept w w'.
Proof.
  intros Hr. eexists. unfold TwinConfiguration_Update_cleanup, bind at 1, TimeUtils_GetCurrentTime, time_NULL.
  cbv beta iota. unfold bind, modify, gets, ret. rewrite decide_False by done. split; [reflexivity|]. done.
Qed.

(** The [cleanup:] label when the lock was taken. *)
Lemma cleanup_locked bs r w l :
  reliable w -> tc_lock (twinConfiguration w) = Some l -> l ∈ held w -> r <> TWIN_MEMORY_EXCEPTION ->
  exists w', TwinConfiguration_Update_cleanup true bs r w = Some (r, w') /\
    held w' = held w ∖ {[l]} /\ twinConfiguration w' = twinConfiguration w /\ eventPriorities w' = eventPriorities w /\
    recorded w' r bs /\ rest_kept w w'.
Proof.
  intros Hw Hl Hh Hr. eexists. unfold TwinConfiguration_Update_cleanup, bind at 1, TimeUtils_GetCurrentTime, time_NULL.
  cbv beta iota. unfold bind, modify, gets, ret. cbn [twinConfiguration set_updateResult set_tick]. rewrite Hl.
  rewrite Unlock_reliable by done. rewrite decide_False by done. split; [reflexivity|]. done.
Qed.

(** Replacing the configuration: the old strings are freed, the new ones copied. *)
Lemma SafeDeinit_run w :
  TwinConfiguration_SafeDeinit w =
  Some (tt, set_twinConfiguration (set_tc_hash None (set_tc_path None (twinConfiguration w))) w).
Proof.
  unfold TwinConfiguration_SafeDeinit, update_twinConfiguration, bind, modify. do 2 f_equal.
  by destruct w as [? ? ? ? ? ? [? ? ? ? ? ? [] [] ?] ? ?].
Qed.

Lemma replace_run {A} new (k : TwinConfigurationResult -> M World A) w :
  reliable w ->
  exists n, (TwinConfiguration_SafeDeinit ;;; returnValue <- TwinConfiguration_DeepCopy new ;; k returnValue) w =
    k TWIN_OK (bump n (set_twinConfiguration (set_tc_lock (tc_lock (twinConfiguration w)) new) w)).
Proof.
  intros Hr. unfold bind at 1. rewrite SafeDeinit_run. cbv beta iota.
  set (w1 := set_twinConfiguration (set_tc_hash None (set_tc_path None (twinConfiguration w))) w).
  assert (Hr1 : reliable w1) by exact Hr.
  unfold TwinConfiguration_DeepCopy, update_twinConfiguration.
  exists ((match tc_baselineCustomChecksFileHash new with None => 0 | Some _ => 1 end) +
          (match tc_baselineCustomChecksFilePath new with None => 0 | Some _ => 1 end))%nat.
  rewrite bind_assoc. unfold bind at 1, modify at 1. cbv beta iota. rewrite bind_assoc. unfold bind at 1.
  rewrite DuplicateString_reliable by exact Hr1. cbv beta iota. rewrite decide_False by done.
  rewrite bind_assoc. unfold bind at 1, modify at 1. cbv beta iota. rewrite bind_assoc. unfold bind at 1.
  rewrite DuplicateString_reliable by exact Hr1. cbv beta iota. rewrite decide_False by done.
  subst w1. destruct new as [? ? ? ? ? ? path hash ?]. cbn [tc_baselineCustomChecksFileHash tc_baselineCustomChecksFilePath].
  destruct path, hash; reflexivity.
Qed.

(** What an update that returned [r] did with the section it read. *)
Definition updated (reader : JsonObjectReader) (w w' : World) (r : TwinConfigurationResult) : Prop :=
  (r = TWIN_OK /\ twin_configures reader (twinConfiguration w') /\ twin_selects reader (eventPriorities w') /\
   recorded w' TWIN_OK (all_statuses reader))
  \/ (r <> TWIN_OK /\ r <> TWIN_MEMORY_EXCEPTION /\ twinConfiguration w' = twinConfiguration w /\
      (eventPriorities w' = eventPriorities w \/ eventPriorities w' = normalised (eventPriorities w)) /\
      ((forall t, ~ twin_configures reader t) \/ (forall e, ~ twin_selects reader e)) /\
      exists bs, recorded w' r bs /\
        (r = TWIN_PARSE_EXCEPTION ->
         bs = all_statuses reader \/ bs = set_bs_eventPriorities CONFIGURATION_TYPE_MISMATCH (all_statuses reader))).

Lemma configures_lock reader l t : twin_configures reader (set_tc_lock l t) <-> twin_configures reader t.
Proof. by destruct t. Qed.

(** The critical section of an update, from the lock to the [cleanup:] label. *)
Definition locked_part (reader : JsonObjectReader) (bs : TwinConfigurationBundleStatus) (new : TwinConfiguration)
    : M World TwinConfigurationResult :=
  returnValue <- TwinConfigurationEventCollectors_Update reader ;;
  match returnValue with
  | TWIN_PARSE_EXCEPTION =>
      TwinConfiguration_Update_cleanup true (set_bs_eventPriorities CONFIGURATION_TYPE_MISMATCH bs) returnValue
  | TWIN_OK =>
      TwinConfiguration_SafeDeinit ;;;
      returnValue <- TwinConfiguration_DeepCopy new ;;
      TwinConfiguration_Update_cleanup true bs returnValue
  | _ => TwinConfiguration_Update_cleanup true bs returnValue
  end.

Lemma locked_part_run reader new w l :
  reliable w -> section_free w -> tc_lock (twinConfiguration w) = Some l -> l ∈ held w ->
  twin_configures reader new ->
  exists r w',
    locked_part reader (all_statuses reader) new w = Some (r, w') /\ held w' = held w ∖ {[l]} /\
    tc_lock (twinConfiguration w') = Some l /\
    ev_isLocked (eventPriorities w') = false /\ ev_lock (eventPriorities w') = ev_lock (eventPriorities w) /\
    updated reader w w' r /\ rest_kept w w'.
Proof.
  intros Hr Hf Hl Hh Hc. unfold locked_part.
  destruct (Update_run reader w Hf Hr) as (r & w1 & Hu & [Hi _] & Hh1 & (He & Hn1 & Hn2 & Hn3 & Ht & _ & Hlk) & Hw1).
  assert (Hr1 : reliable w1) by (unfold reliable; by rewrite He).
  assert (Hl1 : tc_lock (twinConfiguration w1) = Some l) by (by rewrite Ht).
  assert (Hh' : l ∈ held w1) by (by rewrite Hh1).
  rewrite (bind_eq _ _ _ _ _ Hu). destruct Hw1 as [[-> Hsel] | (Hne & Hm & Hns & Hev)].
  - destruct (replace_run new (TwinConfiguration_Update_cleanup true (all_statuses reader)) w1 Hr1) as [n ->].
    rewrite Hl1.
    destruct (cleanup_locked (all_statuses reader) TWIN_OK
                (bump n (set_twinConfiguration (set_tc_lock (Some l) new) w1)) l) as (w' & Hw & H1 & H2 & H3 & H4 & K1 & K2 & K3 & K4);
      [exact Hr1 | done | exact Hh' | done |].
    exists TWIN_OK, w'. split; [exact Hw|]. rewrite H1, H2, H3. cbn. rewrite Hh1.
    do 4 (split; [done|]). split.
    + left. rewrite H2, H3. cbn. by rewrite configures_lock.
    + unfold rest_kept. rewrite K1, K2, K3, K4. cbn. by rewrite He, Hn1, Hn2, Hn3.
  - set (bs := match r with
               | TWIN_PARSE_EXCEPTION => set_bs_eventPriorities CONFIGURATION_TYPE_MISMATCH (all_statuses reader)
               | _ => all_statuses reader
               end).
    destruct (cleanup_locked bs r w1 l Hr1 Hl1 Hh' Hm) as (w' & Hw & H1 & H2 & H3 & H4 & K1 & K2 & K3 & K4).
    exists r, w'. split; [by destruct r|]. rewrite H1, H2, H3, Hh1, Ht. do 4 (split; [done|]). split.
    + right. rewrite H2, H3. do 4 (split; [done|]). split; [by right|]. exists bs. split; [done|]. intros ->. by right.
    + unfold rest_kept. by rewrite K1, K2, K3, K4, He, Hn1, Hn2, Hn3.
Qed.

Lemma twin_section_cases json complete name :
  is_Some (open_document "{}") ->
  match twin_section json complete name with
  | Some (inl e) => e <> TWIN_OK /\ e <> TWIN_MEMORY_EXCEPTION
  | Some (inr _) => True
  | None => False
  end.
Proof.
  intros [rd0 H0]. unfold twin_section. rewrite H0. destruct (open_document json) as [reader|]; [|done].
  destruct (if complete then _ else _) as [r rd]. case_decide; [done|].
  by destruct (JsonObjectReader_StepIn rd name) as [[] ?].
Qed.

Lemma locks_ready_kept w w' :
  locks_ready w -> held w' = held w -> tc_lock (twinConfiguration w') = tc_lock (twinConfiguration w) ->
  ev_isLocked (eventPriorities w') = false -> ev_lock (eventPriorities w') = ev_lock (eventPriorities w) ->
  locks_ready w'.
Proof.
  intros [[Hi Hf] Hl] E1 E2 E3 E4. unfold locks_ready, section_free, free_lock in *. by rewrite E1, E2, E3, E4.
Qed.

(** An update, from a component at rest and in an environment without failures. *)
Lemma Configuration_Update_run json complete name w :
  reliable w -> locks_ready w -> twinConfigurationObjectName w = Some name -> is_Some (open_document "{}") ->
  (forall reader, twin_section json complete name = Some (inr reader) -> numbers_fit reader) ->
  exists r w',
    TwinConfiguration_Update json complete w = Some (r, w') /\ locks_ready w' /\ held w' = held w /\
    tc_lock (twinConfiguration w') = tc_lock (twinConfiguration w) /\
    ev_lock (eventPriorities w') = ev_lock (eventPriorities w) /\ rest_kept w w' /\
    match twin_section json complete name with
    | Some (inr reader) => updated reader w w' r
    | Some (inl e) => r = e /\ r <> TWIN_OK /\ twinConfiguration w' = twinConfiguration w /\
        eventPriorities w' = eventPriorities w /\ recorded w' r no_status
    | None => False
    end.
Proof.
  intros Hr Hlocks Hn H0 Hfit. pose proof Hlocks as [[Hi Hf] (l & Hl & Hh & Hd)].
  unfold TwinConfiguration_Update. destruct (Update_open_run json complete name w Hr Hn) as [n Hopen].
  pose proof (twin_section_cases json complete name H0) as Hcases.
  destruct (twin_section json complete name) as [[e|reader]|]; [| | done]; rewrite (bind_eq _ _ _ _ _ Hopen).
  - destruct Hcases as [He1 He2].
    destruct (cleanup_unlocked no_status e (bump n w) He2) as (w' & Hw & E1 & E2 & E3 & E4 & E5).
    exists e, w'. rewrite Hw. split; [done|].
    split; [apply (locks_ready_kept w); rewrite ?E1, ?E2, ?E3; done|].
    rewrite E1, E2, E3. repeat (split; [done|]). done.
  - destruct (Extract_run reader (bump n w) (Hfit _ eq_refl)) as (r & bs & new & Hx & Hok & Hno & Hbs & Hm).
    rewrite (bind_eq _ _ _ _ _ Hx). cbv beta iota. case_decide as Hne.
    + destruct (cleanup_unlocked bs r (bump n w) Hm) as (w' & Hw & E1 & E2 & E3 & E4 & E5).
      exists r, w'. rewrite Hw. split; [done|].
      split; [apply (locks_ready_kept w); rewrite ?E1, ?E2, ?E3; done|].
      rewrite E1, E2, E3. do 4 (split; [done|]). right. rewrite E2, E3. do 3 (split; [done|]). split; [by left|].
      split; [left; by apply Hno|]. exists bs. split; [done|]. intros ->. left. by apply Hbs.
    + assert (r = TWIN_OK) as -> by (destruct r; tauto). rewrite Hbs by done. specialize (Hok eq_refl).
      unfold bind at 1, gets. unfold bind at 1. cbn [twinConfiguration bump set_tick]. rewrite Hl.
      rewrite (Lock_reliable l (bump n w)) by done. cbv beta iota. cbn [negb].
      set (w1 := set_held ({[l]} ∪ held (bump n w)) (bump 1 (bump n w))).
      assert (Hf1 : section_free w1).
      { split; [done|]. destruct Hf as (l' & Hl' & Hh'). exists l'. split; [done|]. cbn.
        intros [->%elem_of_singleton | ?]%elem_of_union; [congruence | done]. }
      destruct (locked_part_run reader new w1 l Hr Hf1 Hl (lock_now_held _ _) Hok)
        as (r & w' & Hw & E1 & E2 & E3 & E4 & Hu & Hk).
      exists r, w'. split; [exact Hw|].
      assert (E1' : held w' = held w) by (rewrite E1; apply lock_unlock_held, Hh).
      split; [apply (locks_ready_kept w); rewrite ?E1', ?E2, ?E3, ?E4; done|].
      split; [done|]. split; [by rewrite E2|]. split; [by rewrite E4|]. by split.
Qed.

End UpdateLemmas.

(** ** Properties *)

Lemma running_ready e : locks_ready (running_world e).
Proof. split; [apply running_free|]. exists 0%nat. split; [done|]. split; [apply not_elem_of_empty | done]. Qed.

Section Properties.
Context {P : Parson} {L : ParsonLaws P}.

(** C24: An update of the configuration is all or nothing.  From a component at
    rest, it returns with both locks free again, and records its own result
    and the status of every key.  When the twin has a section to read (its
    own, or an empty one when it has none), the result is [TWIN_OK] exactly
    when that section selects a configuration, and then every setting of
    [twinConfiguration] and of [eventPriorities] is the one selected;
    otherwise the old [twinConfiguration] is kept.  When the document does not
    parse, or the section is not an object, nothing is changed. *)
Theorem Update_correct json complete name w :
  reliable w -> locks_ready w -> twinConfigurationObjectName w = Some name -> is_Some (open_document "{}") ->
  (forall reader, twin_section json complete name = Some (inr reader) -> numbers_fit reader) ->
  exists r w',
    TwinConfiguration_Update json complete w = Some (r, w') /\ locks_ready w' /\ held w' = held w /\
    match twin_section json complete name with
    | Some (inr reader) => updated reader w w' r
    | Some (inl e) => r = e /\ r <> TWIN_OK /\ twinConfiguration w' = twinConfiguration w /\
        eventPriorities w' = eventPriorities w /\ recorded w' r no_status
    | None => False
    end.
Proof.
  intros H1 H2 H3 H4 H5. destruct (Configuration_Update_run json complete name w H1 H2 H3 H4 H5)
    as (r & w' & Hu & Hl & Hh & _ & _ & _ & H). eauto 10.
Qed.

(** An empty section has no configuration of any key. *)
Lemma lookup_absent reader key type :
  json_object_dothas_value (rd_document reader) (rd_rootObject reader) key = false ->
  lookup_configuration reader key type = Some (TWIN_CONF_NOT_EXIST, None).
Proof.
  intros H. unfold lookup_configuration, JsonObjectReader_StepIn, JsonObjectReader_GetValueOfType. by rewrite H.
Qed.

Definition empty_reader (reader : JsonObjectReader) : Prop :=
  forall key, json_object_dothas_value (rd_document reader) (rd_rootObject reader) key = false.

Lemma empty_configures reader t :
  empty_reader reader -> twin_configures reader t <-> t = default_configuration (tc_lock t).
Proof.
  intros He. unfold twin_configures, uint_key, time_key, bool_key, string_key.
  rewrite !lookup_absent by apply He. split; [|by intros ->].
  intros (K1 & K2 & K3 & K4 & K5 & K6 & K7 & K8). destruct t. unfold spec_key in *.
  injection K1 as <-. injection K2 as <-. injection K3 as <-. injection K4 as <-. injection K5 as <-.
  injection K6 as <-. injection K7 as <-. injection K8 as <-. reflexivity.
Qed.

Lemma empty_selects reader e :
  empty_reader reader ->
  twin_selects reader e <->
  e = mkEventCollectors EVENT_PRIORITY_LOW EVENT_PRIORITY_HIGH EVENT_PRIORITY_LOW EVENT_PRIORITY_HIGH
        EVENT_PRIORITY_HIGH EVENT_PRIORITY_LOW EVENT_PRIORITY_LOW EVENT_PRIORITY_LOW EVENT_PRIORITY_LOW
        EVENT_PRIORITY_OPERATIONAL true true MILLISECONDS_IN_AN_HOUR MILLISECONDS_IN_AN_HOUR (ev_lock e) (ev_isLocked e).
Proof.
  intros He. unfold twin_selects, spec_priority, spec_bool, spec_time.
  rewrite !lookup_absent by apply He. split; [|intros ->; by repeat split].
  intros H. decompose [and] H. clear H. destruct e.
  repeat match goal with H : Some (inr _) = Some (inr _) |- _ => injection H as <- end. reflexivity.
Qed.

(** A twin without the agent's section resets the agent: an update with
    such a twin, complete or a patch, succeeds, and leaves the default
    configuration whatever the configuration was before. *)
Theorem Update_without_section_resets (json : string) (complete : bool) (name : string) (reader : JsonObjectReader) w :
  reliable w -> locks_ready w -> twinConfigurationObjectName w = Some name -> empty_document_opens ->
  open_document json = Some reader ->
  (let section := if complete then JsonObjectReader_StepIn reader "desired" else (JSON_READER_OK, reader) in
   fst section = JSON_READER_OK /\
   (fst (JsonObjectReader_StepIn (snd section) name) = JSON_READER_KEY_MISSING \/
    fst (JsonObjectReader_StepIn (snd section) name) = JSON_READER_VALUE_IS_NULL)) ->
  exists w',
    TwinConfiguration_Update json complete w = Some (TWIN_OK, w') /\
    twinConfiguration w' = default_configuration (tc_lock (twinConfiguration w)) /\
    forall t, priority_of t (eventPriorities w') = priority_of t (eventPriorities (running_world (env w))).
Proof.
  intros Hr Hl Hn (rd0 & H0 & He) Hopen Hsec. cbv zeta in Hsec. destruct Hsec as [Hs1 Hs2].
  assert (Hsection : twin_section json complete name = Some (inr rd0)).
  { unfold twin_section. rewrite Hopen. destruct (if complete then _ else _) as [r rd]. cbn in Hs1, Hs2. subst r.
    rewrite decide_False by tauto. destruct (JsonObjectReader_StepIn rd name) as [r' ?]. cbn in Hs2.
    rewrite H0. by destruct Hs2 as [-> | ->]. }
  assert (Hfit : numbers_fit rd0) by (split; rewrite lookup_absent; done || apply He).
  destruct (Configuration_Update_run json complete name w) as (r & w' & Hu & _ & _ & Hlk & _ & _ & H);
    [done | done | done | by eexists | by rewrite Hsection; intros ? [= <-] |].
  rewrite Hsection in H. destruct H as [(-> & Hc & Hs & _) | (_ & _ & _ & _ & Hno & _)].
  - exists w'. split; [done|]. apply empty_configures in Hc; [|exact He]. apply empty_selects in Hs; [|exact He].
    split; [by rewrite <- Hlk|]. rewrite Hs. intros t. by destruct t.
  - exfalso. destruct Hno as [Hno | Hno].
    + apply (Hno (default_configuration None)). by apply empty_configures.
    + apply (Hno (eventPriorities (running_world (env w)))). apply empty_selects; [exact He | reflexivity].
Qed.

(** A twin without the agent's section is opened a second time as an empty
    document; when there is no memory for that, the reader that was already
    freed is freed again: the behaviour is undefined. *)
Theorem Update_reopen_double_free json name reader w :
  twinConfigurationObjectName w = Some name -> open_document json = Some reader ->
  fst (JsonObjectReader_StepIn reader name) = JSON_READER_KEY_MISSING ->
  env_ok (env w) (tick w) = true -> env_ok (env w) (S (tick w)) = false ->
  TwinConfiguration_Update json false w = None.
Proof.
  intros Hn Hopen Hs H1 H2.
  assert (Hi : JsonObjectReader_InitFromString json w = Some ((JSON_READER_OK, Some reader), bump 1 w)).
  { unfold JsonObjectReader_InitFromString, JsonObjectReader_Init, bind, malloc, fallible. rewrite H1.
    unfold open_document in Hopen. destruct (json_parse_string json) as [doc|]; [cbn in Hopen | done].
    destruct (json_value_get_object doc (json_root doc)); [|done]. by injection Hopen as <-. }
  unfold TwinConfiguration_Update, TwinConfiguration_Update_open. unfold bind at 1. unfold bind at 1. rewrite Hi.
  cbv beta iota. rewrite decide_False by tauto. unfold bind, gets. cbn [twinConfigurationObjectName bump set_tick].
  rewrite Hn. destruct (JsonObjectReader_StepIn reader name) as [r ?]. cbn in Hs. subst r.
  unfold JsonObjectReader_InitFromString, JsonObjectReader_Init, bind, malloc, fallible. cbn.
  by rewrite H2.
Qed.

End Properties.

Lemma getter_run {A} (proj : TwinConfiguration -> A) w :
  locks_ready w -> getter_ok (t <- gets twinConfiguration ;; TwinConfiguration_GetField (proj t)) proj w.
Proof.
  intros [_ (l & Hl & Hh & _)]. unfold getter_ok, TwinConfiguration_GetField, bind, gets.
  rewrite Hl, Lock_cases by done. destruct (env_ok (env w) (tick w)); cbn [negb andb].
  - cbn [twinConfiguration set_held bump set_tick]. rewrite Hl, Unlock_cases by apply lock_now_held. cbn.
    destruct (env_ok (env w) (S (tick w))); eexists _, _; (split; [reflexivity|]); [|done].
    split; [done|]. split; [done|]. apply lock_unlock_held, Hh.
  - eexists _, _. split; [reflexivity|]. done.
Qed.

(** Without failures, a getter leaves no trace but the two calls it made. *)
Lemma getter_reliable {A} (proj : TwinConfiguration -> A) w l :
  reliable w -> tc_lock (twinConfiguration w) = Some l -> l ∉ held w ->
  (t <- gets twinConfiguration ;; TwinConfiguration_GetField (proj t)) w =
  Some ((TWIN_OK, Some (proj (twinConfiguration w))), bump 2 w).
Proof.
  intros Hr Hl Hh. unfold TwinConfiguration_GetField, bind, gets.
  rewrite Hl, Lock_reliable by done. cbn [negb]. cbn [twinConfiguration set_held bump set_tick].
  rewrite Hl, Unlock_reliable by (exact Hr || apply lock_now_held). cbn.
  rewrite lock_unlock_held by done. by destruct w.
Qed.

(** Every getter is correct in every environment: it returns its own field
    of the configuration at the time of the call if the lock can be taken and
    given back, and [TWIN_LOCK_EXCEPTION] otherwise; it never changes the
    configuration, and gives back the lock it took. *)
Theorem Getters_correct w :
  locks_ready w ->
  getter_ok TwinConfiguration_GetMaxLocalCacheSize tc_maxLocalCacheSize w /\
  getter_ok TwinConfiguration_GetMaxMessageSize tc_maxMessageSize w /\
  getter_ok TwinConfiguration_GetLowPriorityMessageFrequency tc_lowPriorityMessageFrequency w /\
  getter_ok TwinConfiguration_GetHighPriorityMessageFrequency tc_highPriorityMessageFrequency w /\
  getter_ok TwinConfiguration_GetSnapshotFrequency tc_snapshotFrequency w /\
  getter_ok TwinConfiguration_GetBaselineCustomChecksEnabled tc_baselineCustomChecksEnabled w /\
  getter_ok TwinConfiguration_GetBaselineCustomChecksFilePath tc_baselineCustomChecksFilePath w /\
  getter_ok TwinConfiguration_GetBaselineCustomChecksFileHash tc_baselineCustomChecksFileHash w.
Proof. intros H. repeat split; by apply getter_run. Qed.

Lemma Getters_correct_witness :
  exists w', TwinConfiguration_GetMaxMessageSize (running_world good_env) = Some ((TWIN_OK, Some 204800), w').
Proof.
  destruct (Getters_correct (running_world good_env) (running_ready _)) as (_ & (r & w' & H & _ & Hr & _) & _).
  exists w'. rewrite H, Hr. reflexivity.
Defined.

(** A memory failure during an update disables the configuration for good:
    the update tears the component down, after which every getter, and every
    later update that gets as far as the lock, fails with
    [TWIN_LOCK_EXCEPTION]. *)
Theorem Update_memory_failure_disables {P : Parson} json complete w w' :
  TwinConfiguration_Update json complete w = Some (TWIN_MEMORY_EXCEPTION, w') ->
  tc_lock (twinConfiguration w') = None /\
  forall A (proj : TwinConfiguration -> A),
    (t <- gets twinConfiguration ;; TwinConfiguration_GetField (proj t)) w' = Some ((TWIN_LOCK_EXCEPTION, None), w').
Proof.
  intros H. assert (Hl : tc_lock (twinConfiguration w') = None).
  { assert (Hc : forall b bs r w, TwinConfiguration_Update_cleanup b bs r w = Some (TWIN_MEMORY_EXCEPTION, w') ->
      tc_lock (twinConfiguration w') = None).
    { intros b bs r w0 Hu. unfold TwinConfiguration_Update_cleanup in Hu.
      do 3 apply bind_inv in Hu as (? & ? & _ & Hu). apply bind_inv in Hu as (b1 & ? & _ & Hu).
      destruct b1; [|by injection Hu].
      apply bind_inv in Hu as (? & w1 & Hd & Hu). injection Hu as -> ->.
      rewrite decide_True in Hd by done. exact (proj1 (Deinit_lock _ _ _ Hd)). }
    unfold TwinConfiguration_Update in H. apply bind_inv in H as ([r|rd] & w1 & _ & H); [by apply Hc in H|].
    apply bind_inv in H as ([[[r bs] new] rd'] & w2 & _ & H). case_decide; [by apply Hc in H|].
    apply bind_inv in H as (t & w3 & _ & H). apply bind_inv in H as (b & w4 & _ & H). destruct b; cbn [negb] in H; [|by apply Hc in H].
    apply bind_inv in H as (r5 & w5 & _ & H). destruct r5; try (by apply Hc in H).
    apply bind_inv in H as (? & w6 & _ & H). apply bind_inv in H as (? & w7 & _ & H). by apply Hc in H. }
  split; [done|]. intros A proj. unfold bind, gets, TwinConfiguration_GetField, gets, bind. by cbn; rewrite Hl.
Qed.

(** Initialisation is complete or leaves nothing behind, in every
    environment: from the zeroed statics it returns [TWIN_OK] with the default
    configuration and two fresh free locks, or [TWIN_LOCK_EXCEPTION] with both
    lock handles null. *)
Theorem Init_complete_or_nothing name w :
  ev_lock (eventPriorities w) = None -> (forall l, l ∈ held w -> (l < next_lock w)%nat) ->
  exists r w', TwinConfiguration_Init name w = Some (r, w') /\ held w' = held w /\
    if env_ok (env w) (tick w) && env_ok (env w) (S (tick w)) then
      r = TWIN_OK /\ locks_ready w' /\ twinConfigurationObjectName w' = name /\
      twinConfiguration w' = default_configuration (tc_lock (twinConfiguration w')) /\
      forall t, priority_of t (eventPriorities w') = priority_of t (eventPriorities (running_world (env w)))
    else r = TWIN_LOCK_EXCEPTION /\ tc_lock (twinConfiguration w') = None /\ ev_lock (eventPriorities w') = None.
Proof.
  intros He Hn.
  assert (Hf : forall n, n ∈ held w -> (n < next_lock w)%nat) by done.
  destruct w as [en tk h nl mm on tc ur ep]. cbn in *.
  unfold TwinConfiguration_Init, TwinConfigurationEventCollectors_Init, TwinConfiguration_Deinit,
    TwinConfiguration_SafeDeinit, TwinConfigurationEventCollectors_Deinit, update_twinConfiguration,
    update_eventPriorities, Lock_Init, Lock_Deinit, fallible, Utils_DuplicateString.
  unfold bind, gets, modify, ret. cbn.
  destruct (env_ok en tk) eqn:E1; cbn [andb].
  - destruct (env_ok en (S tk)) eqn:E2.
    + eexists _, _. split; [repeat (rewrite decide_False by done; cbn); rewrite E2; cbn; reflexivity|].
      cbn. split; [done|]. split; [done|]. split; [|by repeat split; intros []].
      split; [split; [done|]; eexists; split; [done|]; intros Hl; apply Hn in Hl; cbn in Hl; lia|].
      eexists. split; [done|]. cbn. split; [intros Hl; apply Hn in Hl; lia|]. intros [=]. lia.
    + eexists _, _. split.
      { repeat (rewrite decide_False by done; cbn). rewrite E2. cbn. rewrite decide_True by done. cbn.
      rewrite decide_False by (intros Hl; apply Hn in Hl; lia). cbn. reflexivity. }
      done.
  - rewrite decide_True by done. cbn. rewrite He. cbn.
    destruct tc as [? ? ? ? ? ? [] [] ?]; (eexists _, _; split; [reflexivity|]; done).
Qed.

Lemma Init_complete_or_nothing_witness :
  exists w', TwinConfiguration_Init (Some SECTION) (set_eventPriorities (set_ev_lock None (eventPriorities
               (running_world good_env))) (running_world good_env)) = Some (TWIN_OK, w') /\ locks_ready w'.
Proof.
  destruct (Init_complete_or_nothing (Some SECTION) (set_eventPriorities (set_ev_lock None (eventPriorities
               (running_world good_env))) (running_world good_env)) eq_refl)
    as (r & w' & H & _ & -> & Hl & _); [by intros l Hl%not_elem_of_empty | exists w'; split; [exact H | exact Hl]].
Defined.

(** A memory failure while the file path is copied. *)
Lemma Update_memory_failure_disables_witness :
  match @TwinConfiguration_Update sample_parson "complete" true (running_world (failing_env 4)) with
  | Some (TWIN_MEMORY_EXCEPTION, w') => tc_lock (twinConfiguration w') = None
  | _ => False
  end.
Proof.
  assert (H : (match @TwinConfiguration_Update sample_parson "complete" true (running_world (failing_env 4))
               with Some (TWIN_MEMORY_EXCEPTION, _) => true | _ => false end) = true) by (vm_compute; reflexivity).
  destruct (@TwinConfiguration_Update sample_parson "complete" true (running_world (failing_env 4)))
    as [[r w']|] eqn:E; [|discriminate H].
  destruct r; try discriminate H.
  apply (@Update_memory_failure_disables sample_parson "complete" true (running_world (failing_env 4)) w' E).
Defined.

Lemma empty_opens : @empty_document_opens sample_parson.
Proof. eexists. split; [reflexivity|]. intros key. cbn. unfold dotget. 
  pose proof (dot_path_nonempty key). by destruct (dot_path key) as [|[]].
Qed.

Lemma Update_reopen_double_free_witness :
  @TwinConfiguration_Update sample_parson "patch" false (running_world (failing_env 1)) = None.
Proof.
  apply (@Update_reopen_double_free sample_parson "patch" SECTION
           (@mkReader sample_parson (JObj [("other"%string, JBool true)]) true [] true)); reflexivity.
Defined.

Lemma Update_without_section_resets_witness :
  exists w', @TwinConfiguration_Update sample_parson "patch" false (running_world good_env) = Some (TWIN_OK, w') /\
             twinConfiguration w' = default_configuration (Some 0%nat).
Proof.
  destruct (@Update_without_section_resets sample_parson (model_laws _ _) "patch" false SECTION
    (@mkReader sample_parson (JObj [("other"%string, JBool true)]) true [] true) (running_world good_env)
    good_reliable (running_ready _) eq_refl empty_opens eq_refl (conj eq_refl (or_introl eq_refl)))
    as (w' & H1 & H2 & _).
  exists w'. split; [exact H1 | exact H2].
Defined.

Lemma Update_correct_witness :
  match @TwinConfiguration_Update sample_parson "complete" true (running_world good_env) with
  | Some (TWIN_OK, w') =>
      tc_maxLocalCacheSize (twinConfiguration w') = 2560000 /\
      tc_maxMessageSize (twinConfiguration w') = DEFAULT_MAX_MESSAGE_SIZE
  | _ => False
  end.
Proof.
  assert (H : (match @TwinConfiguration_Update sample_parson "complete" true (running_world good_env)
               with Some (TWIN_OK, _) => true | _ => false end) = true) by (vm_compute; reflexivity).
  assert (Hs : @twin_section sample_parson "complete" true SECTION = Some (inr sample_section))
    by (vm_compute; reflexivity).
  destruct (@Update_correct sample_parson (model_laws _ _) "complete" true SECTION (running_world good_env)
    good_reliable (running_ready _) eq_refl ltac:(by eexists)) as (r & w' & H1 & _ & _ & H2).
  { rewrite Hs. intros ? [= <-]. split; vm_compute; discriminate. }
  rewrite H1 in *. rewrite Hs in H2. destruct H2 as [(Hr & (Hk1 & Hk2 & _) & _) | (Hne & _)];
    [subst r | exfalso; destruct r; [exact (Hne eq_refl) | discriminate H ..]].
  assert (E1 : @uint_key sample_parson sample_section MAX_LOCAL_CACHE_SIZE_KEY (10 * 1024 * 1024)
               = Some (TWIN_OK, 2560000)) by (vm_compute; reflexivity).
  assert (E2 : @uint_key sample_parson sample_section MAX_MESSAGE_SIZE_KEY (200 * 1024)
               = Some (TWIN_OK, DEFAULT_MAX_MESSAGE_SIZE)) by (vm_compute; reflexivity).
  rewrite E1 in Hk1. rewrite E2 in Hk2. injection Hk1 as <-. injection Hk2 as <-. split; reflexivity.
Defined.
