(* ===== verification/TwinReport.v ===== *)
(** * The twin that the agent reports ([twin_configuration.c])

    [TwinConfiguration_GetSerializedTwinConfiguration] writes every setting
    under its key into one JSON object.  Here is what that text is, as a list
    of settings, and that reading it back gives the configuration again. *)

From S2P Require Import Prelude CString TwinDefs World TimeUtils Utils Parson ParsonModel Json TwinUtils TwinCollectors TwinConfiguration.
From Stdlib Require Import QArith String.
Open Scope Z_scope.

(** ** Specification *)

(** A setting: its value, a string that may be null (and is then left out), or
    a number of milliseconds that is written as a duration. *)
Inductive Reported : Type :=
  | RValue (v : ConfigurationValue)
  | ROptional (s : option string)
  | RInterval (ms : Z).

Definition RPriority (p : TwinConfigurationEventPriority) : Reported :=
  ROptional (snd (TwinConfigurationEventCollectors_PriorityEnumAsString p)).

Definition configuration_settings (t : TwinConfiguration) : list (string * Reported) :=
  [ (MAX_LOCAL_CACHE_SIZE_KEY, RValue (UintValue (tc_maxLocalCacheSize t)));
    (MAX_MESSAGE_SIZE_KEY, RValue (UintValue (tc_maxMessageSize t)));
    (HIGH_PRIORITY_MESSAGE_FREQUENCY_KEY, RInterval (tc_highPriorityMessageFrequency t));
    (LOW_PRIORITY_MESSAGE_FREQUENCY_KEY, RInterval (tc_lowPriorityMessageFrequency t));
    (SNAPSHOT_FREQUENCY_KEY, RInterval (tc_snapshotFrequency t));
    (BASELINE_CUSTOM_CHECKS_ENABLED_KEY, RValue (BoolValue (tc_baselineCustomChecksEnabled t)));
    (BASELINE_CUSTOM_CHECKS_FILE_PATH_KEY, ROptional (tc_baselineCustomChecksFilePath t));
    (BASELINE_CUSTOM_CHECKS_FILE_HASH_KEY, ROptional (tc_baselineCustomChecksFileHash t)) ].

Definition collector_settings (e : TwinConfigurationEventCollectors) : list (string * Reported) :=
  [ (BASELINE_PRIORITY_KEY, RPriority (ev_baselinePriority e));
    (CONNECTION_CREATE_PRIORITY_KEY, RPriority (ev_connectionCreatePriority e));
    (DIAGNOSTIC_PRIORITY_KEY, RPriority (ev_diagnostic e));
    (FIREWALL_CONFIGURATION_PRIORITY_KEY, RPriority (ev_firewallConfigurationPriority e));
    (LISTENING_PORTS_PRIORITY_KEY, RPriority (ev_listeningPortsPriority e));
    (LOCAL_USERS_PRIORITY_KEY, RPriority (ev_localUsersPriority e));
    (LOGIN_PRIORITY_KEY, RPriority (ev_loginPriority e));
    (OPERATIONAL_EVENT_KEY, RPriority (ev_operational e));
    (PROCESS_CREATE_PRIORITY_KEY, RPriority (ev_processCreatePriority e));
    (SYSTEM_INFORMATION_PRIORITY_KEY, RPriority (ev_systemInformationPriority e));
    (PROCESS_CREATE_AGGREGATION_ENABLED_KEY, RValue (BoolValue (ev_processCreateAggregationEnabled e)));
    (PROCESS_CREATE_AGGREGATION_INTERVAL_KEY, RInterval (ev_processCreateAggregationInterval e));
    (CONNECTION_CREATE_AGGREGATION_ENABLED_KEY, RValue (BoolValue (ev_connectionCreateAggregationEnabled e)));
    (CONNECTION_CREATE_AGGREGATION_INTERVAL_KEY, RInterval (ev_connectionCreateAggregationInterval e)) ].

(** The value that is written, if any; [None] is a duration below one second. *)
Definition reported_value (r : Reported) : option (option ConfigurationValue) :=
  match r with
  | RValue v => Some (Some v)
  | ROptional s => Some (StringValue <$> s)
  | RInterval ms =>
      let '(ok, b) := TimeUtils_MillisecondsToISO8601DurationString ms DURATION_MAX_LENGTH in
      if ok then Some (Some (StringValue (written b))) else None
  end.

Section Report.
Context {P : Parson}.

(** An object with the one value, added to the writer under the key. *)
Definition put_value (key : string) (v : ConfigurationValue) (w : JsonObjectWriter) : option JsonObjectWriter :=
  o ← new_writer;
  d ← (match v with
       | StringValue s => json_object_set_string (wr_rootValue o) (wr_rootObject o) VALUE_KEY s
       | UintValue n => json_object_set_number (wr_rootValue o) (wr_rootObject o) VALUE_KEY (inject_Z (i32 n))
       | BoolValue b => json_object_set_boolean (wr_rootValue o) (wr_rootObject o) VALUE_KEY b
       | TimeValue _ => None
       end);
  d ← json_object_set_value (wr_rootValue w) (wr_rootObject w) key d;
  Some (set_document d w).

Definition put (setting : string * Reported) (w : JsonObjectWriter) : option JsonObjectWriter :=
  v ← reported_value (snd setting);
  match v with None => Some w | Some v => put_value (fst setting) v w end.

Fixpoint put_all (l : list (string * Reported)) (w : JsonObjectWriter) : option JsonObjectWriter :=
  match l with
  | [] => Some w
  | x :: l => w ← put x w; put_all l w
  end.

(** The document of the reported twin, and its text. *)
Definition reported_twin (name : string) (t : TwinConfiguration) (e : TwinConfigurationEventCollectors) : option Doc :=
  root ← new_writer;
  o ← new_writer;
  o ← put_all (configuration_settings t ++ collector_settings e) o;
  json_object_set_value (wr_rootValue root) (wr_rootObject root) name (wr_rootValue o).

Definition serialized (name : string) (t : TwinConfiguration) (e : TwinConfigurationEventCollectors) : option string :=
  d ← reported_twin name t e; json_serialize_to_string d.

(** ** Lemmas: writing *)

(** A write does what [g] says, and takes time. *)
Definition writes (f : Writing) (g : JsonObjectWriter -> option JsonObjectWriter) : Prop :=
  forall wr w, reliable w -> exists n r wr', f wr w = Some ((r, wr'), bump n w) /\
    match g wr with Some x => r = TWIN_OK /\ wr' = x | None => r = TWIN_EXCEPTION end.

Lemma write_value_writes key v :
  writes (fun wr => TwinConfigurationUtils_Internal_WriteConfigurationToJson wr key v) (put_value key v).
Proof.
  intros wr w Hr. unfold TwinConfigurationUtils_Internal_WriteConfigurationToJson, put_value.
  rewrite (bind_eq _ _ _ _ _ (WriterInit_new w Hr)). destruct new_writer as [o|]; [|(eexists _, _, _; split; [reflexivity | done])].
  rewrite decide_False by tauto. cbn [mbind option_bind].
  destruct v; unfold JsonObjectWriter_WriteString, JsonObjectWriter_WriteInt, JsonObjectWriter_WriteBool, write_result;
    (match goal with |- context [match ?d with Some _ => _ | None => (JSON_WRITER_EXCEPTION, _) end] => destruct d as [doc|] end
     || idtac); cbn; try ((eexists _, _, _; split; [reflexivity | done])).
  all: unfold JsonObjectWriter_WriteObject; cbn.
  all: destruct (json_object_set_value _ _ _ _); (eexists _, _, _; split; [reflexivity | done]).
Qed.

Lemma put_writes key r (f : Writing) :
  match r with
  | RValue v => f = fun wr => TwinConfigurationUtils_Internal_WriteConfigurationToJson wr key v
  | ROptional s => f = fun wr => TwinConfigurationUtils_WriteStringConfigurationToJson wr key s
  | RInterval ms => f = write_interval key ms
  end -> writes f (put (key, r)).
Proof.
  destruct r as [v|s|ms]; intros ->; unfold put; cbn [snd fst reported_value].
  - apply write_value_writes.
  - destruct s as [s|]; [apply write_value_writes|]. intros wr w _. exists 0%nat. rewrite bump_0. eexists _, _; split; [reflexivity | done].
  - unfold write_interval. destruct (TimeUtils_MillisecondsToISO8601DurationString ms _) as [[] b].
    + apply write_value_writes.
    + intros wr w _. exists 0%nat. rewrite bump_0. eexists _, _; split; [reflexivity | done].
Qed.

Lemma write_all_writes fs l : Forall2 (fun f x => writes f (put x)) fs l -> writes (write_all fs) (put_all l).
Proof.
  induction 1 as [|f x fs l Hf _ IH]; intros wr w Hr; cbn [write_all put_all].
  - exists 0%nat. rewrite bump_0. eexists _, _; split; [reflexivity | done].
  - destruct (Hf wr w Hr) as (n & r & wr1 & H & Hx). rewrite (bind_eq _ _ _ _ _ H).
    destruct (put x wr) as [wr2|]; [|subst r; (eexists _, _, _; split; [reflexivity | done])]. destruct Hx as [-> ->].
    destruct (IH wr2 (bump n w) Hr) as (m & r & wr3 & H3 & Hx). exists (m + n)%nat, r, wr3.
    rewrite H3, bump_bump. by split.
Qed.

Lemma put_all_app l l' w : put_all (l ++ l') w = (w ← put_all l w; put_all l' w).
Proof. revert w. induction l as [|x l IH]; intros w; [done|]. cbn. destruct (put x w); [apply IH | done]. Qed.

(** Every write of a list of settings, by its form. *)
Ltac each_write := repeat (constructor; [apply put_writes; reflexivity|]); constructor.

Lemma GetPrioritiesJson_run wr w :
  reliable w -> section_free w ->
  exists n r wr', TwinConfigurationEventCollectors_GetPrioritiesJson wr w = Some ((r, wr'), bump n w) /\
    match put_all (collector_settings (eventPriorities w)) wr with
    | Some x => r = TWIN_OK /\ wr' = x
    | None => r = TWIN_EXCEPTION
    end.
Proof.
  intros Hr Hf. pose proof Hf as [Hi (l & Hl & Hh)].
  assert (Hw : exists n r wr',
    TwinConfigurationEventCollectors_SafeGetPrioritiesJson wr (entered w) = Some ((r, wr'), bump n (entered w)) /\
    match put_all (collector_settings (eventPriorities w)) wr with
    | Some x => r = TWIN_OK /\ wr' = x
    | None => r = TWIN_EXCEPTION
    end).
  { replace (collector_settings (eventPriorities w)) with (collector_settings (eventPriorities (entered w)))
      by (unfold entered; rewrite Hl; by destruct (eventPriorities w)).
    unfold TwinConfigurationEventCollectors_SafeGetPrioritiesJson, bind at 1, gets.
    refine (write_all_writes _ _ _ wr (entered w) _); [each_write|]. unfold entered. by rewrite Hl. }
  destruct Hw as (n & r & wr' & Hb & Hx). exists (2 + n)%nat, r, wr'. split; [|exact Hx].
  unfold TwinConfigurationEventCollectors_GetPrioritiesJson.
  rewrite (critical_section_run wr wr' _ r w (bump n (entered w)) Hf Hb); [|done].
  rewrite !Hr. by rewrite left_entered.
Qed.

Lemma configuration_writes (t : TwinConfiguration) wr w :
  reliable w -> section_free w ->
  exists n r wr', TwinConfiguration_write_all t wr w = Some ((r, wr'), bump n w) /\
    match put_all (configuration_settings t ++ collector_settings (eventPriorities w)) wr with
    | Some x => r = TWIN_OK /\ wr' = x
    | None => r = TWIN_EXCEPTION
    end.
Proof.
  intros Hr Hf. unfold TwinConfiguration_write_all. rewrite put_all_app.
  match goal with |- context [write_all ?fs] => assert (Hw : writes (write_all fs) (put_all (configuration_settings t))) end.
  { apply write_all_writes. each_write. }
  destruct (Hw wr w Hr) as (n & r & wr1 & H & Hx). rewrite (bind_eq _ _ _ _ _ H).
  destruct (put_all (configuration_settings t) wr) as [wr2|].
  - destruct Hx as [-> ->]. destruct (GetPrioritiesJson_run wr2 (bump n w) Hr Hf) as (m & r & wr3 & H3 & Hx).
    exists (m + n)%nat, r, wr3. rewrite H3, bump_bump. by split.
  - subst r. eexists _, _, _. split; [reflexivity | done].
Qed.

(** The serialisation, from a component at rest and in an environment without
    failures: the text of the reported twin, or an error when it has none. *)
Lemma GetSerialized_run name w :
  reliable w -> locks_ready w -> twinConfigurationObjectName w = Some name ->
  exists n, TwinConfiguration_GetSerializedTwinConfiguration w =
    Some (match serialized name (twinConfiguration w) (eventPriorities w) with
          | Some text => (TWIN_OK, Some (text, u32 (strlen text)))
          | None => (TWIN_EXCEPTION, None)
          end, bump n w).
Proof.
  intros Hr [[Hi (le & Hle & Hhe)] (l & Hl & Hh & Hd)] Hn.
  unfold TwinConfiguration_GetSerializedTwinConfiguration, serialized, reported_twin. cbv zeta.
  unfold bind at 1, gets at 1. cbv beta iota. rewrite Hl, (bind_eq _ _ _ _ _ (Lock_reliable l w Hr Hh)). cbn [negb].
  set (w1 := set_held ({[l]} ∪ held w) (bump 1 w)).
  assert (Hr1 : reliable w1) by exact Hr.
  assert (Hf1 : section_free w1).
  { split; [done|]. exists le. split; [done|]. cbn. intros [->%elem_of_singleton | ?]%elem_of_union; [congruence | done]. }
  assert (Hout : forall (x : TwinConfigurationResult * option (string * Z)) n,
    (t <- gets twinConfiguration ;; unlocked <- Unlock (tc_lock t) ;;
     ret (if unlocked then fst x else TWIN_LOCK_EXCEPTION, snd x)) (bump n w1) = Some (x, bump (2 + n) w)).
  { intros [r x] n. unfold bind, gets. cbn [twinConfiguration bump set_tick w1 set_held]. rewrite Hl.
    rewrite (Unlock_reliable l (bump n w1)) by (done || apply lock_now_held). cbn [fst snd].
    unfold ret, w1, bump, set_held, set_tick. cbn. rewrite lock_unlock_held by done.
    do 2 f_equal. destruct w; cbn. f_equal. lia. }
  rewrite (bind_eq _ _ _ _ _ (WriterInit_new w1 Hr1)). destruct new_writer as [root|] eqn:Enew; cbn [mbind option_bind];
    [|exists 3%nat; apply (Hout (TWIN_EXCEPTION, None))].
  cbv beta iota. rewrite (bind_eq _ _ _ _ _ (WriterInit_new (bump 1 w1) Hr1)). rewrite Enew. cbv beta iota.
  destruct (configuration_writes (twinConfiguration w) root (bump 1 (bump 1 w1)) Hr1 Hf1) as (n & r & wr' & H & Hx).
  rewrite (bind_eq _ _ _ _ _ H). cbv beta iota. rewrite !bump_bump. cbn [eventPriorities bump set_tick w1 set_held] in Hx.
  destruct (put_all _ root) as [o|]; cbn [mbind option_bind]; [|subst r; eexists; apply (Hout (TWIN_EXCEPTION, None))].
  destruct Hx as [-> ->]. unfold bind at 1, gets at 1. cbn [twinConfigurationObjectName bump set_tick w1 set_held].
  rewrite Hn. cbv beta iota. unfold JsonObjectWriter_WriteObject.
  destruct (json_object_set_value _ _ name _) as [d|]; cbn [mbind option_bind]; [|eexists; apply (Hout (TWIN_EXCEPTION, None))].
  unfold JsonObjectWriter_Serialize. cbn [set_document wr_rootValue].
  destruct (json_serialize_to_string d) as [text|]; eexists; apply (Hout (_, _)).
Qed.

End Report.

(** ** Lemmas: what the document holds *)

Section ReadBack.
Context {P : Parson} {Trees : ParsonTrees P}.

Definition value_json (v : ConfigurationValue) : json :=
  match v with
  | StringValue s => JStr s
  | UintValue n => JNum (inject_Z (i32 n))
  | BoolValue b => JBool b
  | TimeValue _ => JNull
  end.

Definition written_as (v : ConfigurationValue) : json := JObj [(VALUE_KEY, value_json v)].

(** The writer's object is the root of its document and has the members [m]. *)
Definition writing (w : JsonObjectWriter) (m : list (string * json)) : Prop :=
  tree (wr_rootValue w) = JObj m /\ json_value_get_object (wr_rootValue w) (json_root (wr_rootValue w)) = Some (wr_rootObject w).

Lemma assoc_set_same key v m : assoc key (assoc_set key v m) = Some v.
Proof.
  induction m as [|[k x] m IH]; cbn; [by rewrite String.eqb_refl|].
  destruct (String.eqb k key) eqn:E; cbn; by rewrite E.
Qed.

Lemma assoc_set_other key key' v m : key' <> key -> assoc key' (assoc_set key v m) = assoc key' m.
Proof.
  intros Hne. induction m as [|[k x] m IH]; cbn.
  - by rewrite (proj2 (String.eqb_neq key key')) by congruence.
  - destruct (String.eqb k key) eqn:E; cbn.
    + apply String.eqb_eq in E as ->. by rewrite (proj2 (String.eqb_neq key key')) by congruence.
    + by rewrite IH.
Qed.

Lemma new_writer_writing w : new_writer = Some w -> writing w [].
Proof.
  unfold new_writer, writing. destruct json_value_init_object as [d|] eqn:Ed; cbn; [|done].
  destruct (json_value_get_object d (json_root d)) as [o|] eqn:Eo; cbn; [|done]. intros [= <-]. split; [by apply init_object_law | exact Eo].
Qed.

(** A value that was put is there, under its key. *)
Lemma put_value_writing key v w m w' :
  writing w m -> put_value key v w = Some w' -> writing w' (assoc_set key (written_as v) m).
Proof.
  intros [Hm Ho]. unfold put_value. destruct new_writer as [o|] eqn:En; cbn; [|done]. apply new_writer_writing in En as [Hn Hno].
  set (d1 := match v with StringValue _ => _ | _ => _ end). destruct d1 as [d|] eqn:Ed; cbn; [|done]. subst d1.
  assert (Hd : tree d = written_as v).
  { destruct v; try done;
      first [ apply (set_string_law _ _ _ _ _ _ Hn Hno) in Ed as [-> _] | apply (set_number_law _ _ _ _ _ _ Hn Hno) in Ed as [-> _]
            | apply (set_boolean_law _ _ _ _ _ _ Hn Hno) in Ed as [-> _] ]; done. }
  destruct (json_object_set_value _ _ key d) as [d2|] eqn:E2; cbn; [|done]. intros [= <-].
  apply (set_value_law _ _ _ _ _ _ Hm Ho) in E2 as [E2 Eo2]. rewrite Hd in E2. by split.
Qed.

(** Settings with different keys end up under their keys. *)
Lemma put_all_members l : forall m w w',
  NoDup l.*1 -> writing w m -> put_all l w = Some w' ->
  exists m', writing w' m' /\
    (forall key, key ∉ l.*1 -> assoc key m' = assoc key m) /\
    forall key r v, (key, r) ∈ l -> reported_value r = Some v ->
      assoc key m' = match v with Some v => Some (written_as v) | None => assoc key m end.
Proof.
  induction l as [|[key r] l IH]; intros m w w' Hnd Hw; cbn [put_all].
  - intros [= <-]. exists m. split; [done|]. split; [done|]. by intros ? ? ? ?%not_elem_of_nil.
  - cbn in Hnd. apply NoDup_cons in Hnd as [Hk Hnd]. unfold put. cbn [snd fst].
    destruct (reported_value r) as [v|] eqn:Er; cbn [mbind option_bind]; [|done].
    assert (Hput : forall w1, match v with None => Some w | Some v => put_value key v w end = Some w1 ->
      writing w1 (match v with Some v => assoc_set key (written_as v) m | None => m end)).
    { intros w1 H1. destruct v as [v|]; [by eapply put_value_writing | by injection H1 as <-]. }
    destruct (match v with None => Some w | Some v => put_value key v w end) as [w1|]; cbn [mbind option_bind]; [|done]. intros Hall.
    destruct (IH _ w1 w' Hnd (Hput w1 eq_refl) Hall) as (m' & Hw' & Hout & Hin).
    exists m'. split; [exact Hw'|]. split.
    + intros k Hk'. cbn in Hk'. apply not_elem_of_cons in Hk' as [H1 H2]. rewrite Hout by done.
      destruct v; [by apply assoc_set_other | done].
    + intros k r' v' [[= -> ->]|Hx]%elem_of_cons Hv'.
      * rewrite Er in Hv'. injection Hv' as <-. rewrite Hout by done. destruct v; [apply assoc_set_same | done].
      * rewrite (Hin k r' v' Hx Hv'). destruct v' as [|]; [done|]. destruct v; [|done]. apply assoc_set_other.
        intros ->. apply Hk. apply list_elem_of_fmap. by exists (key, r').
Qed.

(** ** Lemmas: reading the document back *)

(** The reader is at an object with the members [m]. *)
Definition reads (reader : JsonObjectReader) (m : list (string * json)) : Prop :=
  members (rd_document reader) (rd_rootObject reader) = Some m.

(** The value under a plain key, by its type. *)
Lemma GetValue_reads reader m key type :
  reads reader m -> plain_key key = true ->
  match assoc key m with
  | None => JsonObjectReader_GetValueOfType reader key type = (JSON_READER_KEY_MISSING, None)
  | Some j => type_of j <> JSONNull ->
      if decide (type_of j <> type) then JsonObjectReader_GetValueOfType reader key type = (JSON_READER_PARSE_ERROR, None)
      else exists v, JsonObjectReader_GetValueOfType reader key type = (JSON_READER_OK, Some v) /\ value_at (rd_document reader) v = Some j
  end.
Proof.
  intros Hm Hk. unfold JsonObjectReader_GetValueOfType. rewrite dothas_law. pose proof (dotget_law _ _ _ _ Hm Hk) as Hd.
  destruct (assoc key m) as [j|]; [|by rewrite Hd]. destruct Hd as (v & -> & Hv). cbn [negb]. intros Hn.
  cbv zeta. rewrite (type_law _ _ _ Hv). rewrite (decide_False (P := type_of j = JSONError)) by (by destruct j). rewrite (decide_False (P := type_of j = JSONNull)) by done.
  case_decide as H1; [done|]. by exists v.
Qed.

Lemma StepIn_reads reader m key m' :
  reads reader m -> plain_key key = true -> assoc key m = Some (JObj m') ->
  exists inner, JsonObjectReader_StepIn reader key = (JSON_READER_OK, inner) /\ reads inner m'.
Proof.
  intros Hm Hk Ha. unfold JsonObjectReader_StepIn. pose proof (GetValue_reads reader m key JSONObject Hm Hk) as Hg. rewrite Ha in Hg.
  specialize (Hg ltac:(done)). rewrite decide_False in Hg by (intros H; by apply H). destruct Hg as (v & -> & Hv).
  destruct (object_law _ _ _ Hv) as (o & -> & Ho). by exists (set_rootObject o reader).
Qed.

Lemma lookup_member reader m key v type :
  reads reader m -> plain_key key = true -> assoc key m = Some (written_as v) -> value_json v <> JNull ->
  lookup_configuration reader key type =
  match v, type with
  | StringValue s, STRING => Some (TWIN_OK, Some (StringValue s))
  | StringValue s, TIME =>
      Some (match TimeUtils_ISO8601DurationStringToMilliseconds (Some s) with
            | Some ms => (TWIN_OK, Some (TimeValue ms))
            | None => (TWIN_PARSE_EXCEPTION, None)
            end)
  | UintValue n, UINT => (fun n => (TWIN_OK, Some (UintValue (u32 n)))) <$> double_to_int32 (inject_Z (i32 n))
  | BoolValue b, BOOL => Some (TWIN_OK, Some (BoolValue b))
  | _, _ => Some (TWIN_PARSE_EXCEPTION, None)
  end.
Proof.
  intros Hr Hk Hm Hnull. unfold lookup_configuration. destruct (StepIn_reads _ _ _ _ Hr Hk Hm) as (inner & -> & Hi). cbv zeta.
  pose proof (fun type => GetValue_reads inner _ VALUE_KEY type Hi eq_refl) as Hg. cbn [assoc] in Hg. rewrite String.eqb_refl in Hg.
  destruct type; unfold JsonObjectReader_ReadTimeInMilliseconds, JsonObjectReader_ReadString, JsonObjectReader_ReadBool;
    match goal with |- context [JsonObjectReader_GetValueOfType inner VALUE_KEY ?ty] => specialize (Hg ty) end.
  all: destruct v; try done; specialize (Hg ltac:(done)); cbn [value_json type_of] in Hg.
  all: try (rewrite decide_True in Hg by done; by rewrite Hg).
  all: rewrite decide_False in Hg by (intros Hx; by apply Hx); destruct Hg as (pv & -> & Hv).
  - by rewrite (string_law _ _ _ Hv).
  - by rewrite (number_law _ _ _ Hv).
  - rewrite (string_law _ _ _ Hv). by destruct (TimeUtils_ISO8601DurationStringToMilliseconds (Some s)).
  - rewrite (boolean_law _ _ _ Hv). by destruct b.
Qed.

(** What a report keeps of a setting. *)
Definition to_second (ms : Z) : Z := ms - ms mod MILLISECONDS_IN_A_SECOND.
Definition read_back (p : TwinConfigurationEventPriority) : TwinConfigurationEventPriority :=
  match p with EVENT_PRIORITY_OPERATIONAL => EVENT_PRIORITY_HIGH | p => p end.

Definition interval_ok (ms : Z) : Prop := MILLISECONDS_IN_A_SECOND <= ms <= UINT32_MAX.

(** Reading the settings [l] from the members [m] that they were written to. *)
Section Members.
Context (reader : JsonObjectReader) (l : list (string * Reported)) (m : list (string * json)) (Hreader : reads reader m).
Context (Hin : forall key r v, (key, r) ∈ l -> reported_value r = Some v -> assoc key m = written_as <$> v).

Lemma double_i32 n : double_to_int32 (inject_Z (i32 n)) = Some (i32 n).
Proof.
  unfold double_to_int32. cbn. rewrite Z.quot_1_r. pose proof (i32_range n) as H.
  by rewrite (proj2 (Z.leb_le _ _) (proj1 H)), (proj2 (Z.leb_le _ _) (proj2 H)).
Qed.

Lemma uint_back key n d :
  (key, RValue (UintValue n)) ∈ l -> plain_key key = true -> is_u32 n -> uint_key reader key d = Some (TWIN_OK, n).
Proof.
  intros Hl Hk Hn. pose proof (Hin _ _ _ Hl eq_refl) as Hm. unfold uint_key.
  rewrite (lookup_member _ _ _ _ UINT Hreader Hk Hm), double_i32 by done. cbn. by rewrite u32_i32, u32_small.
Qed.

Lemma bool_back key b d :
  (key, RValue (BoolValue b)) ∈ l -> plain_key key = true ->
  bool_key reader key d = Some (TWIN_OK, b) /\ spec_bool reader key d = Some (inr b).
Proof.
  intros Hl Hk. pose proof (Hin _ _ _ Hl eq_refl) as Hm. unfold bool_key, spec_bool.
  by rewrite (lookup_member _ _ _ _ BOOL Hreader Hk Hm).
Qed.

Lemma time_back key ms d :
  (key, RInterval ms) ∈ l -> plain_key key = true -> interval_ok ms ->
  time_key reader key d = Some (TWIN_OK, to_second ms) /\ spec_time reader key d = Some (inr (to_second ms)).
Proof.
  intros Hl Hk Hms. destruct (print_parse ms Hms) as (b & Hp & Hb).
  assert (Hm : assoc key m = Some (written_as (StringValue (written b)))).
  { apply (Hin _ _ (Some (StringValue (written b))) Hl). cbn [reported_value]. by rewrite Hp. }
  unfold time_key, spec_time. by rewrite (lookup_member _ _ _ _ TIME Hreader Hk Hm), Hb.
Qed.

Lemma optional_lookup key s :
  (key, ROptional s) ∈ l -> plain_key key = true ->
  lookup_configuration reader key STRING =
  Some (match s with Some s => (TWIN_OK, Some (StringValue s)) | None => (TWIN_CONF_NOT_EXIST, None) end).
Proof.
  intros Hl Hk. pose proof (Hin _ _ _ Hl eq_refl) as Hm. destruct s as [s|]; [by apply (lookup_member _ m _ (StringValue s))|].
  apply lookup_absent. rewrite dothas_law. pose proof (dotget_law _ _ _ _ Hreader Hk) as Hd. rewrite Hm in Hd. by rewrite Hd.
Qed.

Lemma string_back key s : (key, ROptional s) ∈ l -> plain_key key = true -> string_key reader key = Some (TWIN_OK, s).
Proof. intros Hl Hk. unfold string_key. rewrite (optional_lookup _ _ Hl Hk). by destruct s. Qed.

Lemma priority_back key p d :
  (key, RPriority p) ∈ l -> plain_key key = true -> spec_priority reader key d = Some (inr (read_back p)).
Proof. intros Hl Hk. unfold spec_priority. rewrite (optional_lookup _ _ Hl Hk). by destruct p. Qed.

End Members.

End ReadBack.


(** ** Property *)

(** The configuration that a report describes: intervals to the second, and the
    priority [OPERATIONAL] as [HIGH]. *)
Definition configuration_reported (t : TwinConfiguration) : TwinConfiguration :=
  mkTwinConfiguration (tc_maxLocalCacheSize t) (tc_maxMessageSize t) (to_second (tc_lowPriorityMessageFrequency t))
    (to_second (tc_highPriorityMessageFrequency t)) (to_second (tc_snapshotFrequency t)) (tc_baselineCustomChecksEnabled t)
    (tc_baselineCustomChecksFilePath t) (tc_baselineCustomChecksFileHash t) (tc_lock t).

Definition collectors_reported (e : TwinConfigurationEventCollectors) : TwinConfigurationEventCollectors :=
  mkEventCollectors (read_back (ev_processCreatePriority e)) (read_back (ev_listeningPortsPriority e))
    (read_back (ev_systemInformationPriority e)) (read_back (ev_localUsersPriority e)) (read_back (ev_loginPriority e))
    (read_back (ev_connectionCreatePriority e)) (read_back (ev_firewallConfigurationPriority e))
    (read_back (ev_baselinePriority e)) (read_back (ev_diagnostic e)) (read_back (ev_operational e))
    (ev_processCreateAggregationEnabled e) (ev_connectionCreateAggregationEnabled e)
    (to_second (ev_processCreateAggregationInterval e)) (to_second (ev_connectionCreateAggregationInterval e))
    (ev_lock e) (ev_isLocked e).

(** Every number is one that the configuration can hold, every interval at least a second. *)
Definition reportable (t : TwinConfiguration) (e : TwinConfigurationEventCollectors) : Prop :=
  is_u32 (tc_maxLocalCacheSize t) /\ is_u32 (tc_maxMessageSize t) /\
  interval_ok (tc_lowPriorityMessageFrequency t) /\ interval_ok (tc_highPriorityMessageFrequency t) /\
  interval_ok (tc_snapshotFrequency t) /\
  interval_ok (ev_processCreateAggregationInterval e) /\ interval_ok (ev_connectionCreateAggregationInterval e).

(** One setting is read back, by its form. *)
Ltac back_to l m Hr Hm :=
  first [ eapply (uint_back _ l m Hr Hm) | refine (proj1 (time_back _ l m Hr Hm _ _ _ _ _ _))
        | refine (proj2 (time_back _ l m Hr Hm _ _ _ _ _ _))
        | refine (proj1 (bool_back _ l m Hr Hm _ _ _ _ _)) | refine (proj2 (bool_back _ l m Hr Hm _ _ _ _ _))
        | eapply (string_back _ l m Hr Hm) | eapply (priority_back _ l m Hr Hm) ];
  [ repeat first [apply list_elem_of_here | apply list_elem_of_further] | reflexivity | eassumption .. ].

(** The document that a configuration is written to, and what a reader of its
    section selects. *)
Lemma report_selects {P : Parson} {Trees : ParsonTrees P} name t e d :
  reportable t e -> reported_twin name t e = Some d ->
  exists m, tree d = JObj [(name, JObj m)] /\
    forall reader, reads reader m ->
      twin_configures reader (configuration_reported t) /\ twin_selects reader (collectors_reported e).
Proof.
  intros (H1 & H2 & H3 & H4 & H5 & H6 & H7). unfold reported_twin.
  destruct new_writer as [root|] eqn:En; cbn [mbind option_bind]; [|done]. pose proof (new_writer_writing _ En) as Hroot.
  set (l := configuration_settings t ++ collector_settings e).
  assert (Hnd : NoDup l.*1) by (by apply (bool_decide_eq_true_1 (NoDup l.*1))).
  destruct (put_all l root) as [o|] eqn:Ep; cbn [mbind option_bind]; [|done]. intros Hd.
  destruct (put_all_members l [] root o Hnd Hroot Ep) as (m & [Ho _] & _ & Hin).
  assert (Hm : forall key r v, (key, r) ∈ l -> reported_value r = Some v -> assoc key m = written_as <$> v).
  { intros key r v H Hv. rewrite (Hin key r v H Hv). by destruct v. }
  exists m. split.
  - destruct Hroot as [Hr Hro]. apply (set_value_law _ _ _ _ _ _ Hr Hro) in Hd as [Hd _]. rewrite Hd, Ho. done.
  - intros reader Hr. split; repeat split; back_to l m Hr Hm.
Qed.

(** Two answers to the same question. *)
Ltac same_answers :=
  repeat match goal with
         | A : ?x = Some _, B : ?x = Some _ |- _ => rewrite A in B; injection B as B
         end.

(** A twin selects one configuration, up to the locks. *)
Lemma configures_unique {P : Parson} reader t t' :
  twin_configures reader t -> twin_configures reader t' -> tc_lock t = tc_lock t' -> t = t'.
Proof.
  intros (A1 & A2 & A3 & A4 & A5 & A6 & A7 & A8) (B1 & B2 & B3 & B4 & B5 & B6 & B7 & B8) Hl.
  same_answers. destruct t, t'. cbn in *. by subst.
Qed.

Lemma selects_unique {P : Parson} reader e e' :
  twin_selects reader e -> twin_selects reader e' -> ev_lock e = ev_lock e' -> ev_isLocked e = ev_isLocked e' -> e = e'.
Proof.
  intros (A1 & A2 & A3 & A4 & A5 & A6 & A7 & A8 & A9 & A10 & A11 & A12 & A13 & A14)
    (B1 & B2 & B3 & B4 & B5 & B6 & B7 & B8 & B9 & B10 & B11 & B12 & B13 & B14) Hl Hi.
  same_answers. destruct e, e'. cbn in *. by subst.
Qed.

Lemma configures_fits {P : Parson} reader t : twin_configures reader t -> numbers_fit reader.
Proof.
  intros (A1 & A2 & _). unfold uint_key in A1, A2. split; intros H.
  - by rewrite H in A1.
  - by rewrite H in A2.
Qed.

Lemma section_of_report {P : Parson} {Trees : ParsonTrees P} text name m :
  plain_key name = true -> tree <$> json_parse_string text = Some (JObj [(name, JObj m)]) ->
  exists reader, twin_section text false name = Some (inr reader) /\ reads reader m.
Proof.
  intros Hk Hp. unfold twin_section, open_document. destruct (json_parse_string text) as [d|]; [|done]. cbn in Hp. injection Hp as Hp.
  pose proof (root_law d) as Hroot. rewrite Hp in Hroot. destruct (object_law _ _ _ Hroot) as (o & Ho & Hm). cbn [mbind option_bind]. rewrite Ho. cbn [mbind option_bind].
  rewrite decide_False by tauto. destruct (StepIn_reads (mkReader d true o true) _ name m Hm Hk) as (inner & -> & Hi);
    [cbn; by rewrite String.eqb_refl|]. by exists inner.
Qed.

(** C34: The reported twin is the configuration.  The configuration is at rest, its
    intervals are of at least one second, its object name has no dot, no
    allocation and no lock call fails, and the JSON library is one of trees that
    can write the report and reads the tree of the report back from its text.
    Then reporting the configuration and applying the text as a twin update
    succeeds and gives the same configuration again, except that every interval
    is rounded down to whole seconds and that a priority [OPERATIONAL] has become
    [HIGH]. *)
Theorem report_roundtrip {P : Parson} {Laws : ParsonLaws P} {Trees : ParsonTrees P} name w d text :
  reliable w -> locks_ready w -> twinConfigurationObjectName w = Some name -> plain_key name = true ->
  reportable (twinConfiguration w) (eventPriorities w) ->
  tree <$> json_parse_string "{}"%string = Some (JObj []) ->
  reported_twin name (twinConfiguration w) (eventPriorities w) = Some d -> json_serialize_to_string d = Some text ->
  tree <$> json_parse_string text = Some (tree d) ->
  exists w1 w',
    TwinConfiguration_GetSerializedTwinConfiguration w = Some ((TWIN_OK, Some (text, u32 (strlen text))), w1) /\
    TwinConfiguration_Update text false w1 = Some (TWIN_OK, w') /\
    twinConfiguration w' = configuration_reported (twinConfiguration w) /\
    eventPriorities w' = collectors_reported (eventPriorities w).
Proof.
  intros Hr Hl Hn Hk Hok H0 Hd Htext Hparse.
  destruct (report_selects name _ _ d Hok Hd) as (m & Htree & Hsel). rewrite Htree in Hparse.
  destruct (GetSerialized_run name w Hr Hl Hn) as [n Hrun]. unfold serialized in Hrun. rewrite Hd in Hrun. cbn [mbind option_bind] in Hrun.
  rewrite Htext in Hrun. destruct (section_of_report text name m Hk Hparse) as (reader & Hsec & Hreads). destruct (Hsel reader Hreads) as [Hc Hs].
  destruct (Configuration_Update_run text false name (bump n w)) as (r & w' & Hu & Hl' & _ & Htc & Hev & _ & H).
  - exact Hr.
  - exact Hl.
  - exact Hn.
  - unfold open_document. destruct (json_parse_string "{}") as [d0|]; [|done]. cbn in H0 |- *. injection H0 as H0.
    pose proof (root_law d0) as Hroot. rewrite H0 in Hroot. destruct (object_law _ _ _ Hroot) as (o & -> & _). by eexists.
  - rewrite Hsec. intros reader' [= <-]. by eapply configures_fits.
  - rewrite Hsec in H. destruct H as [(-> & Hc' & Hs' & _) | (_ & _ & _ & _ & Hno & _)].
    + eexists _, w'. split; [exact Hrun|]. split; [exact Hu|]. split.
      * eapply configures_unique; [exact Hc' | exact Hc | exact Htc].
      * eapply selects_unique; [exact Hs' | exact Hs | exact Hev |].
        destruct Hl' as [[-> _] _]. destruct Hl as [[Hi _] _]. symmetry. exact Hi.
    + exfalso. destruct Hno as [Hno | Hno]; by eapply Hno.
Qed.

(** ** Witness: the default configuration, with two strings and odd milliseconds *)

Definition reporting_world : World :=
  set_twinConfiguration
    (mkTwinConfiguration 4000000000 262144 1800500 60999 46800000 true (Some "/etc/checks"%string) None (Some 0%nat))
    (running_world good_env).

Definition reporting_parse (text : string) : option json :=
  if String.eqb text "{}" then Some (JObj [])
  else @reported_twin (model_parson no_text no_print) SECTION (twinConfiguration reporting_world) (eventPriorities reporting_world).

Lemma report_roundtrip_witness :
  exists text w1 w',
    @TwinConfiguration_GetSerializedTwinConfiguration (model_parson reporting_parse no_print) reporting_world
      = Some ((TWIN_OK, Some (text, u32 (strlen text))), w1) /\
    @TwinConfiguration_Update (model_parson reporting_parse no_print) text false w1 = Some (TWIN_OK, w') /\
    tc_lowPriorityMessageFrequency (twinConfiguration w') = 1800000 /\
    ev_operational (eventPriorities w') = EVENT_PRIORITY_HIGH.
Proof.
  destruct (@reported_twin (model_parson reporting_parse no_print) SECTION (twinConfiguration reporting_world)
    (eventPriorities reporting_world)) as [d|] eqn:Hd; [|by vm_compute in Hd].
  destruct (@report_roundtrip (model_parson reporting_parse no_print) (model_laws reporting_parse no_print) (model_trees reporting_parse no_print)
    SECTION reporting_world d (no_print d)) as (w1 & w' & H1 & H2 & H3 & H4).
  - exact good_reliable.
  - apply running_ready.
  - reflexivity.
  - reflexivity.
  - repeat split; by vm_compute.
  - reflexivity.
  - exact Hd.
  - reflexivity.
  - etransitivity; [|exact Hd]. vm_compute. reflexivity.
  - exists (no_print d), w1, w'. split; [exact H1|]. split; [exact H2|]. rewrite H3, H4. split; vm_compute; reflexivity.
Defined.
