(* ===== verification/MemoryMonitor.v ===== *)
(** * [memory_monitor.h]: accounting of the local cache

    The two statics of [internal/internal_memory_monitor.c], and the two
    implementations of the interface: [memory_monitor.c], which calls the
    internal functions, and [synchronized_memory_monitor.c], which calls them
    under a lock.  Clients are verified against the class [MemoryMonitorLaws]. *)

From S2P Require Import Prelude TwinDefs World TwinCollectors TwinConfiguration.
Open Scope Z_scope.

Inductive MemoryMonitorResultValues : Type :=
  | MEMORY_MONITOR_OK
  | MEMORY_MONITOR_MEMORY_EXCEEDED
  | MEMORY_MONITOR_INVALID_RELEASE_SIZE
  | MEMORY_MONITOR_EXCEPTION.

#[export] Instance MemoryMonitorResultValues_eq_dec : EqDecision MemoryMonitorResultValues.
Proof. solve_decision. Defined.

(** ** The internal monitor *)

Definition set_consumption (n : Z) : M World unit :=
  modify (fun w => set_memoryMonitor (mkMemoryMonitor n (memoryLimitInBytes (memoryMonitor w))
                                        (memoryMonitorLock (memoryMonitor w))) w).

Definition set_limit (n : Z) : M World unit :=
  modify (fun w => set_memoryMonitor (mkMemoryMonitor (currentConsumptionInBytes (memoryMonitor w)) n
                                        (memoryMonitorLock (memoryMonitor w))) w).

Definition set_memoryMonitorLock (l : LOCK_HANDLE) : M World unit :=
  modify (fun w => set_memoryMonitor (mkMemoryMonitor (currentConsumptionInBytes (memoryMonitor w))
                                        (memoryLimitInBytes (memoryMonitor w)) l) w).

Definition InternalMemoryMonitor_Init : M World unit :=
  set_limit DEFAULT_MAX_LOCAL_CACHE_SIZE ;;;
  set_consumption 0.

Definition InternalMemoryMonitor_Deinit : M World unit :=
  set_consumption 0 ;;;
  set_limit 0.

(** [GetMaxLocalCacheSize] writes straight into [memoryLimitInBytes]. *)
Definition InternalMemoryMonitor_Consume (size : Z) : M World MemoryMonitorResultValues :=
  let* (result, limit) := TwinConfiguration_GetMaxLocalCacheSize in
  (match limit with Some n => set_limit n | None => ret tt end) ;;;
  if decide (result <> TWIN_OK) then ret MEMORY_MONITOR_EXCEPTION
  else
    m <- gets memoryMonitor ;;
    if memoryLimitInBytes m <? u32 (currentConsumptionInBytes m + size) then ret MEMORY_MONITOR_MEMORY_EXCEEDED
    else
      set_consumption (u32 (currentConsumptionInBytes m + size)) ;;;
      ret MEMORY_MONITOR_OK.

Definition InternalMemoryMonitor_Release (size : Z) : M World MemoryMonitorResultValues :=
  m <- gets memoryMonitor ;;
  if currentConsumptionInBytes m <? size then ret MEMORY_MONITOR_INVALID_RELEASE_SIZE
  else
    set_consumption (currentConsumptionInBytes m - size) ;;;
    ret MEMORY_MONITOR_OK.

Definition InternalMemoryMonitor_CurrentConsumption : M World (MemoryMonitorResultValues * Z) :=
  m <- gets memoryMonitor ;;
  ret (MEMORY_MONITOR_OK, currentConsumptionInBytes m).

(** ** The interface *)

Class MemoryMonitor : Type := {
  MemoryMonitor_Init : M World bool;
  MemoryMonitor_Deinit : M World unit;
  MemoryMonitor_Consume : Z -> M World MemoryMonitorResultValues;
  MemoryMonitor_Release : Z -> M World MemoryMonitorResultValues;
  MemoryMonitor_CurrentConsumption : M World (MemoryMonitorResultValues * option Z);
  (** the component is initialised, and no lock that it needs is held *)
  monitor_ready : World -> Prop;
}.

(** [memory_monitor.c] *)
Module Plain.

Definition MemoryMonitor_Init : M World bool := InternalMemoryMonitor_Init ;;; ret true.
Definition MemoryMonitor_Deinit : M World unit := InternalMemoryMonitor_Deinit.
Definition MemoryMonitor_Consume (sizeInBytes : Z) := InternalMemoryMonitor_Consume sizeInBytes.
Definition MemoryMonitor_Release (sizeInBytes : Z) := InternalMemoryMonitor_Release sizeInBytes.
Definition MemoryMonitor_CurrentConsumption : M World (MemoryMonitorResultValues * option Z) :=
  let* (r, n) := InternalMemoryMonitor_CurrentConsumption in ret (r, Some n).

End Plain.

(** [synchronized_memory_monitor.c] *)
Module Synchronized.

Definition MemoryMonitor_Init : M World bool :=
  InternalMemoryMonitor_Init ;;;
  lock <- Lock_Init ;;
  set_memoryMonitorLock lock ;;;
  match lock with
  | None => InternalMemoryMonitor_Deinit ;;; ret false
  | Some _ => ret true
  end.

(** The lock's handle is kept after the lock is destroyed. *)
Definition MemoryMonitor_Deinit : M World unit :=
  InternalMemoryMonitor_Deinit ;;;
  m <- gets memoryMonitor ;;
  match memoryMonitorLock m with
  | None => ret tt
  | Some _ => Lock_Deinit (memoryMonitorLock m)
  end.

Definition synchronized {A} (failed : A) (body : M World A) (unlock_failed : A -> A) : M World A :=
  m <- gets memoryMonitor ;;
  locked <- Lock (memoryMonitorLock m) ;;
  require locked else failed ;;
  result <- body ;;
  m <- gets memoryMonitor ;;
  unlocked <- Unlock (memoryMonitorLock m) ;;
  ret (if unlocked then result else unlock_failed result).

Definition MemoryMonitor_Consume (sizeInBytes : Z) : M World MemoryMonitorResultValues :=
  synchronized MEMORY_MONITOR_EXCEPTION (InternalMemoryMonitor_Consume sizeInBytes)
    (fun _ => MEMORY_MONITOR_EXCEPTION).

Definition MemoryMonitor_Release (sizeInBytes : Z) : M World MemoryMonitorResultValues :=
  synchronized MEMORY_MONITOR_EXCEPTION (InternalMemoryMonitor_Release sizeInBytes)
    (fun _ => MEMORY_MONITOR_EXCEPTION).

Definition MemoryMonitor_CurrentConsumption : M World (MemoryMonitorResultValues * option Z) :=
  synchronized (MEMORY_MONITOR_EXCEPTION, None)
    (let* (r, n) := InternalMemoryMonitor_CurrentConsumption in ret (r, Some n))
    (fun '(_, n) => (MEMORY_MONITOR_EXCEPTION, n)).

End Synchronized.

#[export] Instance plain_monitor : MemoryMonitor := {|
  MemoryMonitor_Init := Plain.MemoryMonitor_Init;
  MemoryMonitor_Deinit := Plain.MemoryMonitor_Deinit;
  MemoryMonitor_Consume := Plain.MemoryMonitor_Consume;
  MemoryMonitor_Release := Plain.MemoryMonitor_Release;
  MemoryMonitor_CurrentConsumption := Plain.MemoryMonitor_CurrentConsumption;
  monitor_ready := locks_ready;
|}.

(** The lock of the synchronized monitor is free and is not the lock of the
    configuration, which [Consume] takes while it holds it. *)
Definition synchronized_ready (w : World) : Prop :=
  locks_ready w /\ exists l, memoryMonitorLock (memoryMonitor w) = Some l /\ (l ∉ held w) /\
    tc_lock (twinConfiguration w) <> Some l /\ ev_lock (eventPriorities w) <> Some l.

#[export] Instance synchronized_monitor : MemoryMonitor := {|
  MemoryMonitor_Init := Synchronized.MemoryMonitor_Init;
  MemoryMonitor_Deinit := Synchronized.MemoryMonitor_Deinit;
  MemoryMonitor_Consume := Synchronized.MemoryMonitor_Consume;
  MemoryMonitor_Release := Synchronized.MemoryMonitor_Release;
  MemoryMonitor_CurrentConsumption := Synchronized.MemoryMonitor_CurrentConsumption;
  monitor_ready := synchronized_ready;
|}.

(** ** What a client relies on *)

(** Only the monitor's counters and the time changed. *)
Definition only_monitor (w w' : World) : Prop :=
  env w' = env w /\ held w' = held w /\ next_lock w' = next_lock w /\
  memoryMonitorLock (memoryMonitor w') = memoryMonitorLock (memoryMonitor w) /\
  twinConfigurationObjectName w' = twinConfigurationObjectName w /\
  twinConfiguration w' = twinConfiguration w /\ updateResult w' = updateResult w /\
  eventPriorities w' = eventPriorities w.

Definition consumption (w : World) : Z := currentConsumptionInBytes (memoryMonitor w).
Definition cache_limit (w : World) : Z := tc_maxLocalCacheSize (twinConfiguration w).

(** Is a request for [size] bytes granted?  The sum is a [uint32_t]. *)
Definition granted (w : World) (size : Z) : bool := u32 (consumption w + size) <=? cache_limit w.

Class MemoryMonitorLaws (Mon : MemoryMonitor) : Prop := {
  Consume_law : forall size w,
    reliable w -> monitor_ready w ->
    exists w', MemoryMonitor_Consume size w =
        Some (if granted w size then MEMORY_MONITOR_OK else MEMORY_MONITOR_MEMORY_EXCEEDED, w') /\
      only_monitor w w' /\
      consumption w' = if granted w size then u32 (consumption w + size) else consumption w;
  Release_law : forall size w,
    reliable w -> monitor_ready w ->
    exists w', MemoryMonitor_Release size w =
        Some (if size <=? consumption w then MEMORY_MONITOR_OK else MEMORY_MONITOR_INVALID_RELEASE_SIZE, w') /\
      only_monitor w w' /\
      consumption w' = if size <=? consumption w then consumption w - size else consumption w;
  CurrentConsumption_law : forall w,
    reliable w -> monitor_ready w ->
    exists w', MemoryMonitor_CurrentConsumption w = Some ((MEMORY_MONITOR_OK, Some (consumption w)), w') /\
      only_monitor w w' /\ consumption w' = consumption w;
  ready_kept : forall w w', only_monitor w w' -> monitor_ready w -> monitor_ready w';
  ready_configuration : forall w, monitor_ready w -> locks_ready w;
  ready_locks : forall w w',
    monitor_ready w -> locks_ready w' -> held w' = held w -> memoryMonitor w' = memoryMonitor w ->
    tc_lock (twinConfiguration w') = tc_lock (twinConfiguration w) ->
    ev_lock (eventPriorities w') = ev_lock (eventPriorities w) -> monitor_ready w';
}.

(** ** Sequences of requests *)

Inductive Request : Type :=
  | RConsume (size : Z)
  | RRelease (size : Z).

Fixpoint run_requests `{MemoryMonitor} (l : list Request) : M World (list MemoryMonitorResultValues) :=
  match l with
  | [] => ret []
  | q :: l' =>
      r <- (match q with
            | RConsume size => MemoryMonitor_Consume size
            | RRelease size => MemoryMonitor_Release size
            end) ;;
      rs <- run_requests l' ;;
      ret (r :: rs)
  end.

(** The bytes outstanding after the requests that were answered
    [MEMORY_MONITOR_OK], in unbounded arithmetic. *)
Fixpoint outstanding (n : Z) (l : list (Request * MemoryMonitorResultValues)) : Z :=
  match l with
  | [] => n
  | (RConsume size, MEMORY_MONITOR_OK) :: l' => outstanding (n + size) l'
  | (RRelease size, MEMORY_MONITOR_OK) :: l' => outstanding (n - size) l'
  | _ :: l' => outstanding n l'
  end.

(** One request as a function of the consumption and the limit. *)
Definition answer (limit n : Z) (q : Request) : MemoryMonitorResultValues * Z :=
  match q with
  | RConsume size =>
      if u32 (n + size) <=? limit then (MEMORY_MONITOR_OK, u32 (n + size)) else (MEMORY_MONITOR_MEMORY_EXCEEDED, n)
  | RRelease size =>
      if size <=? n then (MEMORY_MONITOR_OK, n - size) else (MEMORY_MONITOR_INVALID_RELEASE_SIZE, n)
  end.

Fixpoint answers (limit n : Z) (l : list Request) : list MemoryMonitorResultValues * Z :=
  match l with
  | [] => ([], n)
  | q :: l' =>
      let '(r, n1) := answer limit n q in
      let '(rs, n2) := answers limit n1 l' in
      (r :: rs, n2)
  end.

(** A request that cannot wrap the [uint32_t] sum. *)
Definition small_request (limit : Z) (q : Request) : Prop :=
  match q with
  | RConsume size => 0 <= size /\ limit + size <= UINT32_MAX
  | RRelease size => 0 <= size
  end.

(** ** Lemmas *)

Create HintDb monitor.

Lemma only_monitor_refl w : only_monitor w w.
Proof. by repeat split. Qed.

Lemma only_monitor_trans w1 w2 w3 : only_monitor w1 w2 -> only_monitor w2 w3 -> only_monitor w1 w3.
Proof. unfold only_monitor. intuition congruence. Qed.

Lemma only_monitor_bump n w : only_monitor w (bump n w).
Proof. by repeat split. Qed.

Lemma only_monitor_set n lim w :
  only_monitor w (set_memoryMonitor (mkMemoryMonitor n lim (memoryMonitorLock (memoryMonitor w))) w).
Proof. by repeat split. Qed.

Lemma only_monitor_reliable w w' : only_monitor w w' -> reliable w -> reliable w'.
Proof. intros (He & _). unfold reliable. by rewrite He. Qed.

Lemma locks_ready_monitor w w' : only_monitor w w' -> locks_ready w -> locks_ready w'.
Proof.
  intros (_ & Hh & _ & _ & _ & Ht & _ & Hev). unfold locks_ready, section_free, free_lock. by rewrite Hh, Ht, Hev.
Qed.

#[export] Hint Resolve only_monitor_refl only_monitor_bump only_monitor_set : monitor.

Lemma InternalConsume_run size w l :
  reliable w -> tc_lock (twinConfiguration w) = Some l -> l ∉ held w ->
  exists w', InternalMemoryMonitor_Consume size w =
      Some (if granted w size then MEMORY_MONITOR_OK else MEMORY_MONITOR_MEMORY_EXCEEDED, w') /\
    only_monitor w w' /\ consumption w' = if granted w size then u32 (consumption w + size) else consumption w.
Proof.
  intros Hr Hl Hh. unfold InternalMemoryMonitor_Consume, TwinConfiguration_GetMaxLocalCacheSize,
    TwinConfiguration_GetFieldInteger.
  rewrite (bind_eq _ _ _ _ _ (getter_reliable tc_maxLocalCacheSize w l Hr Hl Hh)). cbv beta iota.
  unfold bind at 1, set_limit, modify. cbv beta iota. rewrite decide_False by tauto.
  unfold bind at 1, gets. cbn [memoryMonitor set_memoryMonitor memoryLimitInBytes currentConsumptionInBytes bump set_tick].
  rewrite Z.ltb_antisym. unfold granted, consumption, cache_limit.
  destruct (_ <=? _); cbn [negb]; eexists; (split; [reflexivity|]); by repeat split.
Qed.

Lemma InternalRelease_run size w :
  exists w', InternalMemoryMonitor_Release size w =
      Some (if size <=? consumption w then MEMORY_MONITOR_OK else MEMORY_MONITOR_INVALID_RELEASE_SIZE, w') /\
    only_monitor w w' /\ consumption w' = if size <=? consumption w then consumption w - size else consumption w.
Proof.
  unfold InternalMemoryMonitor_Release, bind at 1, gets. rewrite Z.ltb_antisym. fold (consumption w).
  destruct (size <=? consumption w); cbn [negb]; eexists; (split; [reflexivity|]); by repeat split.
Qed.

#[export] Instance plain_monitor_laws : MemoryMonitorLaws plain_monitor.
Proof.
  constructor; cbn.
  - intros size w Hr (_ & l & Hl & Hh & _). by apply (InternalConsume_run size w l).
  - intros size w _ _. apply InternalRelease_run.
  - intros w _ _. by exists w.
  - intros w w' Ho Hw. by apply (locks_ready_monitor w).
  - done.
  - done.
Qed.

(** A body that touches only the monitor, under its lock. *)
Lemma monitor_section_run {A} failed (body : M World A) uf a l w :
  reliable w -> memoryMonitorLock (memoryMonitor w) = Some l -> l ∉ held w ->
  (exists w', body (set_held ({[l]} ∪ held w) (bump 1 w)) = Some (a, w') /\
     only_monitor (set_held ({[l]} ∪ held w) (bump 1 w)) w') ->
  exists w' w1, body (set_held ({[l]} ∪ held w) (bump 1 w)) = Some (a, w1) /\
    Synchronized.synchronized failed body uf w = Some (a, w') /\ only_monitor w w' /\ consumption w' = consumption w1.
Proof.
  intros Hr Hl Hh (w1 & Hb & He & Hh1 & Hn & Hlk & Ho & Ht & Hu & Hev).
  exists (set_held (held w1 ∖ {[l]}) (bump 1 w1)), w1. split; [done|].
  unfold Synchronized.synchronized, bind, gets. rewrite Hl, Lock_reliable by done. rewrite Hb.
  cbn [memoryMonitor set_held bump set_tick memoryMonitorLock] in Hlk. rewrite Hlk, Hl.
  rewrite Unlock_reliable; [| intros n; rewrite He; apply Hr | rewrite Hh1; apply lock_now_held].
  split; [done|]. split; [|done]. cbn in *. repeat split; cbn; try congruence.
  rewrite Hh1. by apply lock_unlock_held.
Qed.

Lemma synchronized_inner w l :
  synchronized_ready w -> memoryMonitorLock (memoryMonitor w) = Some l ->
  exists l', tc_lock (twinConfiguration w) = Some l' /\ l' ∉ held (set_held ({[l]} ∪ held w) (bump 1 w)).
Proof.
  intros [(_ & l' & Hl' & Hh' & _) (l0 & Hl0 & _ & Hne & _)] Hl. exists l'. split; [done|]. cbn.
  intros [->%elem_of_singleton | ?]%elem_of_union; [congruence | done].
Qed.

#[export] Instance synchronized_monitor_laws : MemoryMonitorLaws synchronized_monitor.
Proof.
  constructor; cbn.
  - intros size w Hr Hw. pose proof Hw as (Hlk & l & Hl & Hh & _).
    destruct (synchronized_inner w l Hw Hl) as (l' & Hl' & Hh').
    destruct (InternalConsume_run size (set_held ({[l]} ∪ held w) (bump 1 w)) l' Hr Hl' Hh') as (w1 & Hb & Ho & Hc).
    edestruct (monitor_section_run MEMORY_MONITOR_EXCEPTION (InternalMemoryMonitor_Consume size)
      (fun _ => MEMORY_MONITOR_EXCEPTION)) as (w' & w2 & Hb2 & Hs & Ho' & Hc'); [done | done | done | eauto |].
    rewrite Hb in Hb2. injection Hb2 as <-. exists w'. rewrite Hc', Hc. done.
  - intros size w Hr (Hlk & l & Hl & Hh & _).
    destruct (InternalRelease_run size (set_held ({[l]} ∪ held w) (bump 1 w))) as (w1 & Hb & Ho & Hc).
    edestruct (monitor_section_run MEMORY_MONITOR_EXCEPTION (InternalMemoryMonitor_Release size)
      (fun _ => MEMORY_MONITOR_EXCEPTION)) as (w' & w2 & Hb2 & Hs & Ho' & Hc'); [done | done | done | eauto |].
    rewrite Hb in Hb2. injection Hb2 as <-. exists w'. rewrite Hc', Hc. done.
  - intros w Hr (Hlk & l & Hl & Hh & _).
    edestruct (monitor_section_run (MEMORY_MONITOR_EXCEPTION, None)
      (let* (r, n) := InternalMemoryMonitor_CurrentConsumption in ret (r, Some n))
      (fun '(_, n) => (MEMORY_MONITOR_EXCEPTION, n))) as (w' & w2 & Hb2 & Hs & Ho' & Hc'); [done | done | done | |].
    { eexists. split; [reflexivity | apply only_monitor_refl]. }
    injection Hb2 as <-. exists w'. done.
  - intros w w' Ho [H1 (l & H2)]. split; [by apply (locks_ready_monitor w)|]. exists l.
    destruct Ho as (_ & Hh & _ & Hlk & _ & Ht & _ & Hev). by rewrite Hh, Hlk, Ht, Hev.
  - by intros w [H _].
  - intros w w' [_ (l & H)] Hl Hh Hm Ht He. split; [done|]. exists l. by rewrite Hh, Hm, Ht, He.
Qed.

Section Clients.
Context {Mon : MemoryMonitor} {Laws : MemoryMonitorLaws Mon}.

Lemma request_run q w :
  reliable w -> monitor_ready w ->
  exists w', (match q with
              | RConsume size => MemoryMonitor_Consume size
              | RRelease size => MemoryMonitor_Release size
              end) w = Some (fst (answer (cache_limit w) (consumption w) q), w') /\
    only_monitor w w' /\ consumption w' = snd (answer (cache_limit w) (consumption w) q).
Proof.
  intros Hr Hw. destruct q as [size|size]; cbn [answer].
  - destruct (Consume_law size w Hr Hw) as (w' & Hc & Ho & Hn). exists w'. unfold granted in *. rewrite Hc, Hn.
    by destruct (_ <=? _).
  - destruct (Release_law size w Hr Hw) as (w' & Hc & Ho & Hn). exists w'. rewrite Hc, Hn. by destruct (_ <=? _).
Qed.

Lemma run_requests_run l : forall w,
  reliable w -> monitor_ready w ->
  exists w', run_requests l w = Some (fst (answers (cache_limit w) (consumption w) l), w') /\ only_monitor w w' /\
    consumption w' = snd (answers (cache_limit w) (consumption w) l).
Proof.
  induction l as [|q l IH]; intros w Hr Hw; [by exists w; auto with monitor|].
  destruct (request_run q w Hr Hw) as (w1 & Hq & Ho1 & Hc1). cbn [run_requests answers].
  rewrite (bind_eq _ _ _ _ _ Hq).
  destruct (IH w1) as (w2 & Hl & Ho2 & Hc2); [by eapply only_monitor_reliable | by eapply ready_kept |].
  assert (Hlim : cache_limit w1 = cache_limit w) by (unfold cache_limit; by destruct Ho1 as (_ & _ & _ & _ & _ & -> & _)).
  rewrite Hlim in *. rewrite Hc1 in *.
  destruct (answer (cache_limit w) (consumption w) q) as [r n]. cbn [fst snd] in *.
  rewrite (bind_eq _ _ _ _ _ Hl). destruct (answers (cache_limit w) n l) as [rs n2]. cbn [fst snd] in *.
  exists w2. split; [done|]. split; [by eapply only_monitor_trans | done].
Qed.

End Clients.

Lemma answers_outstanding limit l : forall n,
  0 <= n <= limit -> Forall (small_request limit) l ->
  outstanding n (zip l (fst (answers limit n l))) = snd (answers limit n l) /\
  0 <= snd (answers limit n l) <= limit.
Proof.
  induction l as [|q l IH]; intros n Hn Hl; [done|]. apply Forall_cons in Hl as [Hq Hl]. cbn [answers].
  destruct q as [size|size]; cbn [answer small_request] in *.
  - rewrite u32_small by ulia. destruct (Z.leb_spec (n + size) limit).
    + specialize (IH (n + size) ltac:(lia) Hl). by destruct (answers limit (n + size) l).
    + specialize (IH n Hn Hl). by destruct (answers limit n l).
  - destruct (Z.leb_spec size n).
    + specialize (IH (n - size) ltac:(lia) Hl). by destruct (answers limit (n - size) l).
    + specialize (IH n Hn Hl). by destruct (answers limit n l).
Qed.

(** ** Properties *)

(** C3: The accounting is exact and the cache limit is never exceeded, for any
    implementation of the interface and any sequence of requests whose sizes
    cannot wrap the [uint32_t] sum: the consumption is the sum of what was
    granted less the sum of what was released, and stays within the limit. *)
Theorem accounting_exact {Mon : MemoryMonitor} {Laws : MemoryMonitorLaws Mon} l w :
  reliable w -> monitor_ready w -> 0 <= consumption w <= cache_limit w -> Forall (small_request (cache_limit w)) l ->
  exists rs w', run_requests l w = Some (rs, w') /\
    consumption w' = outstanding (consumption w) (zip l rs) /\ 0 <= consumption w' <= cache_limit w.
Proof.
  intros Hr Hw Hn Hl. destruct (run_requests_run l w Hr Hw) as (w' & Hrun & _ & Hc).
  destruct (answers_outstanding (cache_limit w) l (consumption w) Hn Hl) as [H1 H2].
  eexists _, w'. split; [exact Hrun|]. by rewrite Hc, H1.
Qed.

Lemma running_synchronized : synchronized_ready (running_world good_env).
Proof.
  split; [apply running_ready|]. exists 2%nat. split; [done|]. split; [apply not_elem_of_empty | done].
Qed.

Lemma accounting_exact_witness :
  exists w', @run_requests synchronized_monitor [RConsume 1000; RRelease 400; RConsume 10485760; RRelease 700]
               (running_world good_env)
             = Some ([MEMORY_MONITOR_OK; MEMORY_MONITOR_OK; MEMORY_MONITOR_MEMORY_EXCEEDED;
                      MEMORY_MONITOR_INVALID_RELEASE_SIZE], w') /\ consumption w' = 600.
Proof.
  destruct (@accounting_exact synchronized_monitor _ [RConsume 1000; RRelease 400; RConsume 10485760; RRelease 700]
    (running_world good_env) good_reliable running_synchronized) as (rs & w' & Hrun & Hc & _).
  - split; reflexivity || discriminate.
  - repeat constructor; cbn; lia || (vm_compute; discriminate).
  - destruct (@run_requests_run synchronized_monitor _ [RConsume 1000; RRelease 400; RConsume 10485760; RRelease 700]
      (running_world good_env) good_reliable running_synchronized) as (w2 & Hrun2 & _ & _).
    rewrite Hrun in Hrun2. injection Hrun2 as -> ->. eexists. split; [rewrite Hrun; reflexivity|].
    rewrite Hc. reflexivity.
Defined.

(** The sum that is compared with the limit is a [uint32_t]: a request so
    large that the sum wraps around to a value within the limit is granted,
    and the recorded consumption decreases. *)
Theorem Consume_wraps {Mon : MemoryMonitor} {Laws : MemoryMonitorLaws Mon} size w :
  reliable w -> monitor_ready w -> is_u32 size -> is_u32 (consumption w) ->
  UINT32_MAX < consumption w + size -> consumption w + size - 4294967296 <= cache_limit w ->
  exists w', MemoryMonitor_Consume size w = Some (MEMORY_MONITOR_OK, w') /\ consumption w' < consumption w.
Proof.
  intros Hr Hw Hs Hn H1 H2. destruct (Consume_law size w Hr Hw) as (w' & Hc & _ & Hn').
  assert (Hu : u32 (consumption w + size) = consumption w + size - 4294967296) by (apply u32_wrap_once; ulia).
  assert (Hg : granted w size = true) by (unfold granted; rewrite Hu; apply Z.leb_le; lia).
  exists w'. rewrite Hc, Hn', Hg, Hu. split; [done|]. ulia.
Qed.

Lemma Consume_wraps_witness :
  exists w', @MemoryMonitor_Consume plain_monitor 4294967295
               (set_memoryMonitor (mkMemoryMonitor 1000 0 None) (running_world good_env)) = Some (MEMORY_MONITOR_OK, w')
             /\ consumption w' < 1000.
Proof.
  apply (@Consume_wraps plain_monitor _ 4294967295
           (set_memoryMonitor (mkMemoryMonitor 1000 0 None) (running_world good_env)));
    [exact good_reliable | exact (running_ready good_env) | by split | by split | reflexivity | by vm_compute].
Defined.

(** C38: The two implementations of the interface agree: without failures, the
    synchronized monitor answers every sequence of requests as the plain one,
    and ends with the same consumption. *)
Theorem implementations_agree l w :
  reliable w -> synchronized_ready w ->
  exists rs w1 w2,
    @run_requests plain_monitor l w = Some (rs, w1) /\ @run_requests synchronized_monitor l w = Some (rs, w2) /\
    consumption w1 = consumption w2.
Proof.
  intros Hr Hw. destruct (@run_requests_run plain_monitor _ l w Hr (proj1 Hw)) as (w1 & H1 & _ & E1).
  destruct (@run_requests_run synchronized_monitor _ l w Hr Hw) as (w2 & H2 & _ & E2).
  eexists _, w1, w2. rewrite E1, E2. eauto.
Qed.

Lemma implementations_agree_witness :
  exists rs w1, @run_requests plain_monitor [RConsume 5; RRelease 7] (running_world good_env) = Some (rs, w1).
Proof.
  destruct (implementations_agree [RConsume 5; RRelease 7] (running_world good_env) good_reliable running_synchronized)
    as (rs & w1 & _ & H & _).
  exists rs, w1. exact H.
Defined.

(** Initialisation of the synchronized monitor succeeds exactly when its
    lock can be created; it then counts nothing and is ready for use, and its
    lock is distinct from those of the configuration. *)
Theorem Synchronized_Init_correct w :
  locks_ready w ->
  (forall l, (l ∈ held w \/ tc_lock (twinConfiguration w) = Some l \/ ev_lock (eventPriorities w) = Some l) ->
             (l < next_lock w)%nat) ->
  exists w', Synchronized.MemoryMonitor_Init w = Some (env_ok (env w) (tick w), w') /\ consumption w' = 0 /\
    (env_ok (env w) (tick w) = true -> synchronized_ready w').
Proof.
  intros Hw Hf.
  unfold Synchronized.MemoryMonitor_Init, InternalMemoryMonitor_Init, InternalMemoryMonitor_Deinit, set_limit,
    set_consumption, set_memoryMonitorLock, Lock_Init, fallible, bind, gets, modify, ret. cbn.
  destruct (env_ok (env w) (tick w)); eexists; (split; [reflexivity|]); (split; [done|]); [intros _ | done].
  split; [exact Hw|]. exists (next_lock w). cbn. split; [done|].
  repeat split; [intros H | intros H | intros H]; assert (next_lock w < next_lock w)%nat by (apply Hf; auto); lia.
Qed.

Lemma Synchronized_Init_correct_witness :
  exists w', Synchronized.MemoryMonitor_Init (running_world good_env) = Some (true, w') /\ synchronized_ready w'.
Proof.
  destruct (Synchronized_Init_correct (running_world good_env) (running_ready _)) as (w' & H1 & _ & H2).
  - intros l [Hl%not_elem_of_empty | [[= <-] | [= <-]]]; [done | cbn; lia | cbn; lia].
  - exists w'. split; [exact H1 | exact (H2 eq_refl)].
Defined.
