(* ===== verification/Telemetry.v ===== *)
(** * Telemetry counters: [agent_telemetry_counters.c] and [agent_telemetry_provider.c]

    A counter is a union of two structures of [uint32_t]s, so it is modelled by
    its three words.  The provider keeps pointers to counters that belong to
    other components: they are resolved in a store of counters. *)

From S2P Require Import Prelude TwinDefs World.
Open Scope Z_scope.

(** [union _Counter]: [queueCounter] is the first two words, [messageCounter] all three. *)
Record Counter : Type := mkCounter {
  word0 : Z;
  word1 : Z;
  word2 : Z;
}.

(** What [countInstance] points to. *)
Inductive CountInstance : Type := Word0 | Word1 | Word2.

#[export] Instance CountInstance_eq_dec : EqDecision CountInstance.
Proof. solve_decision. Defined.

Definition queue_collected : CountInstance := Word0.
Definition queue_dropped : CountInstance := Word1.
Definition message_sentMessages : CountInstance := Word0.
Definition message_smallMessages : CountInstance := Word1.
Definition message_failedMessages : CountInstance := Word2.

Definition get_count (i : CountInstance) (c : Counter) : Z :=
  match i with Word0 => word0 c | Word1 => word1 c | Word2 => word2 c end.

Definition set_count (i : CountInstance) (n : Z) (c : Counter) : Counter :=
  match i with
  | Word0 => mkCounter n (word1 c) (word2 c)
  | Word1 => mkCounter (word0 c) n (word2 c)
  | Word2 => mkCounter (word0 c) (word1 c) n
  end.

Record SyncedCounter : Type := mkSyncedCounter {
  counter : Counter;
  sc_lock : LOCK_HANDLE;
}.

Definition zero_counter : Counter := mkCounter 0 0 0.

(** ** [agent_telemetry_counters.c]

    Each function returns its result and the counter as it leaves it. *)

Definition AgentTelemetryCounter_Init (c : SyncedCounter) : M World (bool * SyncedCounter) :=
  lock <- Lock_Init ;;
  ret (match lock with Some _ => true | None => false end, mkSyncedCounter zero_counter lock).

Definition AgentTelemetryCounter_Deinit (c : SyncedCounter) : M World SyncedCounter :=
  (match sc_lock c with Some _ => Lock_Deinit (sc_lock c) | None => ret tt end) ;;;
  ret (mkSyncedCounter (counter c) None).

(** Also returns [*outData]. *)
Definition AgentTelemetryCounter_SnapshotAndReset (inCounter : SyncedCounter)
    : M World (bool * SyncedCounter * Counter) :=
  locked <- Lock (sc_lock inCounter) ;;
  require locked else (false, inCounter, zero_counter) ;;
  unlocked <- Unlock (sc_lock inCounter) ;;
  ret (unlocked, mkSyncedCounter zero_counter (sc_lock inCounter), counter inCounter).

Definition AgentTelemetryCounter_IncreaseBy (c : SyncedCounter) (countInstance : CountInstance) (amount : Z)
    : M World (bool * SyncedCounter) :=
  locked <- Lock (sc_lock c) ;;
  require locked else (false, c) ;;
  unlocked <- Unlock (sc_lock c) ;;
  ret (unlocked,
       mkSyncedCounter (set_count countInstance (u32 (get_count countInstance (counter c) + amount)) (counter c))
                       (sc_lock c)).

(** ** [agent_telemetry_provider.c] *)

Inductive AgentTelemetryProviderResult : Type := TELEMETRY_PROVIDER_OK | TELEMETRY_PROVIDER_EXCEPTION.
Inductive AgentQueueMeter : Type := HIGH_PRIORITY | LOW_PRIORITY.

(** [static AgentTelemetryProvider agentTelemetryProvider]: a pointer is an
    address in the store of counters, [None] is the null pointer. *)
Record AgentTelemetryProvider : Type := mkProvider {
  lowPriorityQueueCounter : option nat;
  highPriorityQueueCounter : option nat;
  iotHubCounter : option nat;
}.

Record TelemetryState : Type := mkTelemetryState {
  ts_world : World;
  ts_counters : gmap nat SyncedCounter;
  agentTelemetryProvider : AgentTelemetryProvider;
}.

Definition set_provider (p : AgentTelemetryProvider) : M TelemetryState unit :=
  modify (fun s => mkTelemetryState (ts_world s) (ts_counters s) p).

Definition AgentTelemetryProvider_Init (low high hub : option nat) : M TelemetryState AgentTelemetryProviderResult :=
  set_provider (mkProvider low high hub) ;;;
  ret TELEMETRY_PROVIDER_OK.

Definition AgentTelemetryProvider_Deinit : M TelemetryState unit :=
  set_provider (mkProvider None None None).

(** A call on the counter that a pointer points to.  A null or dangling pointer
    is dereferenced: undefined. *)
Definition on_counter {A} (p : option nat) (f : SyncedCounter -> M World (A * SyncedCounter)) : M TelemetryState A :=
  fun s =>
    match p with
    | None => None
    | Some a =>
        match ts_counters s !! a with
        | None => None
        | Some c =>
            match f c (ts_world s) with
            | None => None
            | Some ((r, c'), w') =>
                Some (r, mkTelemetryState w' (<[a := c']> (ts_counters s)) (agentTelemetryProvider s))
            end
        end
    end.

Definition snapshot (p : option nat) : M TelemetryState (bool * Counter) :=
  on_counter p (fun c =>
    let* (ok, c, data) := AgentTelemetryCounter_SnapshotAndReset c in ret ((ok, data), c)).

(** The counter data are [collected] and [dropped]; [None] when they are not written. *)
Definition AgentTelemetryProvider_GetQueueCounterData (queue : AgentQueueMeter)
    : M TelemetryState (AgentTelemetryProviderResult * option (Z * Z)) :=
  p <- gets agentTelemetryProvider ;;
  let* (ok, data) :=
    snapshot (match queue with
              | HIGH_PRIORITY => highPriorityQueueCounter p
              | LOW_PRIORITY => lowPriorityQueueCounter p
              end) in
  require ok else (TELEMETRY_PROVIDER_EXCEPTION, None) ;;
  ret (TELEMETRY_PROVIDER_OK, Some (get_count queue_collected data, get_count queue_dropped data)).

(** The counter data are [sentMessages], [smallMessages] and [failedMessages]. *)
Definition AgentTelemetryProvider_GetMessageCounterData
    : M TelemetryState (AgentTelemetryProviderResult * option (Z * Z * Z)) :=
  p <- gets agentTelemetryProvider ;;
  let* (ok, data) := snapshot (iotHubCounter p) in
  require ok else (TELEMETRY_PROVIDER_EXCEPTION, None) ;;
  ret (TELEMETRY_PROVIDER_OK,
       Some (get_count message_sentMessages data, get_count message_smallMessages data,
             get_count message_failedMessages data)).

(** ** Sequences of calls on one counter *)

Inductive CounterCall : Type :=
  | CIncrease (i : CountInstance) (amount : Z)
  | CSnapshot.

(** Runs the calls; returns the snapshots taken, and the counter. *)
Fixpoint run_calls (c : SyncedCounter) (l : list CounterCall) : M World (list Counter * SyncedCounter) :=
  match l with
  | [] => ret ([], c)
  | CIncrease i amount :: l' =>
      let* (_, c) := AgentTelemetryCounter_IncreaseBy c i amount in run_calls c l'
  | CSnapshot :: l' =>
      let* (_, c, data) := AgentTelemetryCounter_SnapshotAndReset c in
      let* (snapshots, c) := run_calls c l' in
      ret (data :: snapshots, c)
  end.

(** Everything added to a count, in unbounded arithmetic. *)
Fixpoint total_increase (i : CountInstance) (l : list CounterCall) : Z :=
  match l with
  | [] => 0
  | CIncrease j amount :: l' => (if decide (i = j) then amount else 0) + total_increase i l'
  | CSnapshot :: l' => total_increase i l'
  end.

Fixpoint total_count (i : CountInstance) (l : list Counter) : Z :=
  match l with
  | [] => 0
  | c :: l' => get_count i c + total_count i l'
  end.

(** A counter whose lock is free. *)
Definition counter_ready (c : SyncedCounter) (w : World) : Prop := free_lock (sc_lock c) w.

(** ** Lemmas *)

Lemma IncreaseBy_reliable c i amount w :
  reliable w -> counter_ready c w ->
  AgentTelemetryCounter_IncreaseBy c i amount w =
  Some ((true, mkSyncedCounter (set_count i (u32 (get_count i (counter c) + amount)) (counter c)) (sc_lock c)), bump 2 w).
Proof.
  intros Hr (l & Hl & Hh). unfold AgentTelemetryCounter_IncreaseBy, bind. rewrite Hl, Lock_reliable by done.
  rewrite Unlock_reliable by (exact Hr || apply lock_now_held). cbn. rewrite lock_unlock_held by done.
  by destruct w.
Qed.

Lemma SnapshotAndReset_reliable c w :
  reliable w -> counter_ready c w ->
  AgentTelemetryCounter_SnapshotAndReset c w =
  Some ((true, mkSyncedCounter zero_counter (sc_lock c), counter c), bump 2 w).
Proof.
  intros Hr (l & Hl & Hh). unfold AgentTelemetryCounter_SnapshotAndReset, bind. rewrite Hl, Lock_reliable by done.
  rewrite Unlock_reliable by (exact Hr || apply lock_now_held). cbn. rewrite lock_unlock_held by done.
  by destruct w.
Qed.

Lemma run_calls_run l : forall c w,
  reliable w -> counter_ready c w ->
  exists snapshots c' n,
    run_calls c l w = Some ((snapshots, c'), bump n w) /\ sc_lock c' = sc_lock c /\
    forall i, u32 (total_count i snapshots + get_count i (counter c')) =
              u32 (get_count i (counter c) + total_increase i l).
Proof.
  induction l as [|q l IH]; intros c w Hr Hc.
  - exists [], c, 0%nat. rewrite bump_0. split; [done|]. split; [done|]. intros i. f_equal. cbn. lia.
  - destruct q as [i amount|]; cbn [run_calls].
    + rewrite (bind_eq _ _ _ _ _ (IncreaseBy_reliable c i amount w Hr Hc)). cbv beta iota.
      set (c1 := mkSyncedCounter _ _).
      destruct (IH c1 (bump 2 w) Hr Hc) as (s & c' & n & Hrun & Hl & Ht).
      exists s, c', (n + 2)%nat. rewrite Hrun, bump_bump. split; [done|]. split; [done|].
      intros j. rewrite Ht. subst c1. unfold u32.
      cbn [total_increase counter]. case_decide as E; [subst j|]; destruct i; try (destruct j; try done);
        cbn; rewrite ?Zplus_mod_idemp_l; f_equal; lia.
    + rewrite (bind_eq _ _ _ _ _ (SnapshotAndReset_reliable c w Hr Hc)). cbv beta iota.
      destruct (IH (mkSyncedCounter zero_counter (sc_lock c)) (bump 2 w) Hr Hc) as (s & c' & n & Hrun & Hl & Ht).
      exists (counter c :: s), c', (n + 2)%nat. rewrite (bind_eq _ _ _ _ _ Hrun), <- bump_bump.
      split; [done|]. split; [done|]. intros j. specialize (Ht j). cbn [total_count total_increase].
      replace (get_count j (counter c) + total_count j s + get_count j (counter c'))
        with (get_count j (counter c) + (total_count j s + get_count j (counter c'))) by lia.
      unfold u32 in *. rewrite <- Zplus_mod_idemp_r, Ht. cbn [counter]. rewrite Zplus_mod_idemp_r.
      destruct j; cbn; done.
Qed.

(** ** Properties *)

(** C33: No count is lost while no lock call fails: whatever sequence of
    increments and snapshots is made on a counter, what the snapshots reported
    plus what the counter still holds is everything that was added, modulo 2^32,
    for each of its words; and every call gives back the lock. A lock call that
    fails loses counts: [Snapshot_failure_loses_counts]. *)
Theorem no_count_lost l c w :
  reliable w -> counter_ready c w ->
  exists snapshots c' w',
    run_calls c l w = Some ((snapshots, c'), w') /\ counter_ready c' w' /\ held w' = held w /\
    forall i, u32 (total_count i snapshots + get_count i (counter c')) =
              u32 (get_count i (counter c) + total_increase i l).
Proof.
  intros Hr Hc. destruct (run_calls_run l c w Hr Hc) as (s & c' & n & Hrun & Hl & Ht).
  exists s, c', (bump n w). split; [done|]. split; [|by split]. unfold counter_ready. by rewrite Hl.
Qed.

Definition sample_counter : SyncedCounter := mkSyncedCounter (mkCounter 5 1 0) (Some 7%nat).

Lemma sample_counter_ready : counter_ready sample_counter (running_world good_env).
Proof. exists 7%nat. split; [done|]. apply not_elem_of_empty. Qed.

Lemma no_count_lost_witness :
  exists snapshots c' w',
    run_calls sample_counter [CIncrease Word0 2; CSnapshot; CIncrease Word0 4294967295] (running_world good_env)
      = Some ((snapshots, c'), w') /\ u32 (total_count Word0 snapshots + get_count Word0 (counter c')) = 6.
Proof.
  destruct (no_count_lost [CIncrease Word0 2; CSnapshot; CIncrease Word0 4294967295] sample_counter
    (running_world good_env) good_reliable sample_counter_ready) as (s & c' & w' & H1 & _ & _ & H2).
  exists s, c', w'. split; [exact H1|]. rewrite H2. reflexivity.
Defined.

(** Asking the provider for a queue's data returns what that queue's counter
    holds, resets that counter and no other one; after [Deinit] the provider
    has no counter to ask, and the call dereferences a null pointer. *)
Theorem GetQueueCounterData_correct queue s a c :
  reliable (ts_world s) ->
  (match queue with
   | HIGH_PRIORITY => highPriorityQueueCounter (agentTelemetryProvider s)
   | LOW_PRIORITY => lowPriorityQueueCounter (agentTelemetryProvider s)
   end) = Some a ->
  ts_counters s !! a = Some c -> counter_ready c (ts_world s) ->
  (exists s', AgentTelemetryProvider_GetQueueCounterData queue s =
      Some ((TELEMETRY_PROVIDER_OK, Some (word0 (counter c), word1 (counter c))), s') /\
    ts_counters s' = <[a := mkSyncedCounter zero_counter (sc_lock c)]> (ts_counters s) /\
    held (ts_world s') = held (ts_world s)) /\
  exists s1, AgentTelemetryProvider_Deinit s = Some (tt, s1) /\
    AgentTelemetryProvider_GetQueueCounterData queue s1 = None.
Proof.
  intros Hr Ha Hc Hf. split.
  - unfold AgentTelemetryProvider_GetQueueCounterData, snapshot, on_counter, bind, gets. rewrite Ha, Hc.
    rewrite SnapshotAndReset_reliable by done. cbn. eexists. split; [reflexivity | done].
  - eexists. split; [reflexivity|]. by destruct queue.
Qed.

Lemma GetQueueCounterData_correct_witness :
  exists s', AgentTelemetryProvider_GetQueueCounterData LOW_PRIORITY
               (mkTelemetryState (running_world good_env) {[ 3%nat := sample_counter ]} (mkProvider (Some 3%nat) None None))
             = Some ((TELEMETRY_PROVIDER_OK, Some (5, 1)), s').
Proof.
  destruct (GetQueueCounterData_correct LOW_PRIORITY
    (mkTelemetryState (running_world good_env) {[ 3%nat := sample_counter ]} (mkProvider (Some 3%nat) None None))
    3%nat sample_counter good_reliable eq_refl (lookup_singleton_eq 3%nat sample_counter) sample_counter_ready) as [(s' & H & _) _].
  exists s'. exact H.
Defined.

(** A snapshot whose unlock fails reports a failure although it has already
    reset the counter: what was counted is reported to nobody. *)
Theorem Snapshot_failure_loses_counts c w l :
  sc_lock c = Some l -> l ∉ held w -> env_ok (env w) (tick w) = true -> env_ok (env w) (S (tick w)) = false ->
  exists w', AgentTelemetryCounter_SnapshotAndReset c w =
    Some ((false, mkSyncedCounter zero_counter (sc_lock c), counter c), w') /\ l ∈ held w'.
Proof.
  intros Hl Hh H1 H2. eexists. unfold AgentTelemetryCounter_SnapshotAndReset, bind.
  rewrite Hl, Lock_cases, H1 by done. rewrite Unlock_cases by apply lock_now_held. cbn. rewrite H2.
  split; [reflexivity|]. cbn. apply lock_now_held.
Qed.

Lemma Snapshot_failure_loses_counts_witness :
  exists w', AgentTelemetryCounter_SnapshotAndReset sample_counter
      (running_world (mkEnv (fun n => Nat.eqb n 0) (env_time good_env) (env_localtime good_env) (env_gmtime good_env)
                            (env_uuid good_env)))
    = Some ((false, mkSyncedCounter zero_counter (Some 7%nat), mkCounter 5 1 0), w').
Proof.
  destruct (Snapshot_failure_loses_counts sample_counter
    (running_world (mkEnv (fun n => Nat.eqb n 0) (env_time good_env) (env_localtime good_env) (env_gmtime good_env)
                          (env_uuid good_env))) 7%nat eq_refl (not_elem_of_empty _) eq_refl eq_refl) as (w' & H & _).
  exists w'. exact H.
Defined.
