(* ===== verification/Queue.v ===== *)
(** * [queue.c]: the event queue

    The queue is a doubly linked list of heap-allocated items.  The model keeps
    the heap of items and the pointers as the code has them; a null or dangling
    pointer that is dereferenced or freed is undefined.  The specification is a
    bounded FIFO list.  [D] is what the [void* data] pointers stand for. *)

From S2P Require Import Prelude TwinDefs World TwinCollectors TwinConfiguration MemoryMonitor Telemetry.
Open Scope Z_scope.

Inductive QueueResultValues : Type :=
  | QUEUE_OK
  | QUEUE_CONDITION_FAILED
  | QUEUE_MAX_MEMORY_EXCEEDED
  | QUEUE_IS_EMPTY
  | QUEUE_MEMORY_EXCEPTION.

#[export] Instance QueueResultValues_eq_dec : EqDecision QueueResultValues.
Proof. solve_decision. Defined.

(** [dataSize + sizeof(QueueItem) + sizeof(QueueItem* )] on a 64-bit machine,
    converted to [uint32_t]. *)
Definition Queue_CalculateItemSize (dataSize : Z) : Z := u32 (dataSize + 32 + 8).

Section Queue.
Context {D : Type} {Mon : MemoryMonitor}.

Record QueueItem : Type := mkItem {
  item_data : D;
  item_dataSize : Z;
  nextItem : option nat;
  prevItem : option nat;
}.

Record Queue : Type := mkQueue {
  firstItem : option nat;
  lastItem : option nat;
  numberOfElements : Z;
  shouldSendLogs : bool;
  q_counter : SyncedCounter;
}.

(** The world and the heap of queue items; [next_item] is the next address. *)
Record Store : Type := mkStore {
  st_world : World;
  st_heap : gmap nat QueueItem;
  next_item : nat;
}.

Definition lift {A} (m : M World A) : M Store A :=
  fun s => match m (st_world s) with
           | None => None
           | Some (a, w) => Some (a, mkStore w (st_heap s) (next_item s))
           end.

#[export] Instance store_has_world : HasWorld Store.
Proof. refine {| world_of := st_world; with_world := fun w s => mkStore w (st_heap s) (next_item s) |}; by intros; destruct s. Defined.

(** [*p] *)
Definition load (p : option nat) : M Store QueueItem :=
  fun s => match p with
           | None => None
           | Some a => match st_heap s !! a with None => None | Some item => Some (item, s) end
           end.

(** [*p = item] *)
Definition store (p : option nat) (item : QueueItem) : M Store unit :=
  fun s => match p with
           | None => None
           | Some a => match st_heap s !! a with
                       | None => None
                       | Some _ => Some (tt, mkStore (st_world s) (<[a := item]> (st_heap s)) (next_item s))
                       end
           end.

Definition free_item (p : option nat) : M Store unit :=
  fun s => match p with
           | None => Some (tt, s)
           | Some a => match st_heap s !! a with
                       | None => None
                       | Some _ => Some (tt, mkStore (st_world s) (delete a (st_heap s)) (next_item s))
                       end
           end.

(** [malloc(sizeof(QueueItem))], with the fields the caller assigns at once. *)
Definition malloc_item (item : QueueItem) : M Store (option nat) :=
  ok <- lift malloc ;;
  if ok then
    fun s => Some (Some (next_item s),
                   mkStore (st_world s) (<[next_item s := item]> (st_heap s)) (S (next_item s)))
  else ret None.

Definition set_next (p : option nat) (i : QueueItem) : QueueItem :=
  mkItem (item_data i) (item_dataSize i) p (prevItem i).
Definition set_prev (p : option nat) (i : QueueItem) : QueueItem :=
  mkItem (item_data i) (item_dataSize i) (nextItem i) p.

(** ** Operations: each returns the queue as it leaves it *)

Definition Queue_Init (logs : bool) (old : SyncedCounter) : M Store (QueueResultValues * Queue) :=
  let* (ok, c) := lift (AgentTelemetryCounter_Init old) in
  let queue := mkQueue None None 0 logs c in
  require ok else (QUEUE_MEMORY_EXCEPTION, queue) ;;
  ret (QUEUE_OK, queue).

(** Also returns [*data] and [*dataSize], [None] when they are not written. *)
Definition Queue_PopFront (queue : Queue) : M Store (QueueResultValues * Queue * option (D * Z)) :=
  if numberOfElements queue =? 0 then ret (QUEUE_IS_EMPTY, queue, None)
  else
    item <- load (firstItem queue) ;;
    let out := (item_data item, item_dataSize item) in
    queue' <- (match nextItem item with
               | None => ret (mkQueue None None (numberOfElements queue) (shouldSendLogs queue) (q_counter queue))
               | Some _ =>
                   next <- load (nextItem item) ;;
                   store (nextItem item) (set_prev None next) ;;;
                   ret (mkQueue (nextItem item) (lastItem queue) (numberOfElements queue) (shouldSendLogs queue)
                                (q_counter queue))
               end) ;;
    let queue' := mkQueue (firstItem queue') (lastItem queue') (u32 (numberOfElements queue' - 1))
                          (shouldSendLogs queue') (q_counter queue') in
    lift (MemoryMonitor_Release (Queue_CalculateItemSize (item_dataSize item))) ;;;
    free_item (firstItem queue) ;;;
    ret (QUEUE_OK, queue', Some out).

Definition Queue_PopFrontIf (queue : Queue) (condition : D -> Z -> bool)
    : M Store (QueueResultValues * Queue * option (D * Z)) :=
  if numberOfElements queue =? 0 then ret (QUEUE_IS_EMPTY, queue, None)
  else
    item <- load (firstItem queue) ;;
    if negb (condition (item_data item) (item_dataSize item)) then ret (QUEUE_CONDITION_FAILED, queue, None)
    else Queue_PopFront queue.

Definition count (queue : Queue) (i : CountInstance) : M Store Queue :=
  let* (_, c) := lift (AgentTelemetryCounter_IncreaseBy (q_counter queue) i 1) in
  ret (mkQueue (firstItem queue) (lastItem queue) (numberOfElements queue) (shouldSendLogs queue) c).

(** The [cleanup:] label of [Queue_PushBack]. *)
Definition PushBack_cleanup (queue : Queue) (dataSize : Z) (memoryConsumed : bool) (result : QueueResultValues)
    : M Store (QueueResultValues * Queue) :=
  (if decide (result <> QUEUE_OK) then
     if memoryConsumed then
       _ <- lift (MemoryMonitor_Release (Queue_CalculateItemSize dataSize)) ;; ret tt
     else ret tt
   else ret tt) ;;;
  queue <- count queue queue_collected ;;
  ret (result, queue).

(** [result] is an [int] that holds first a [MemoryMonitorResultValues]: the value
    of [MEMORY_MONITOR_INVALID_RELEASE_SIZE] is that of [QUEUE_MAX_MEMORY_EXCEEDED]. *)
Definition Queue_PushBack (queue : Queue) (data : D) (dataSize : Z) : M Store (QueueResultValues * Queue) :=
  result <- lift (MemoryMonitor_Consume (Queue_CalculateItemSize dataSize)) ;;
  match result with
  | MEMORY_MONITOR_MEMORY_EXCEEDED =>
      queue <- count queue queue_dropped ;;
      PushBack_cleanup queue dataSize false QUEUE_MAX_MEMORY_EXCEEDED
  | MEMORY_MONITOR_EXCEPTION => PushBack_cleanup queue dataSize false QUEUE_MEMORY_EXCEPTION
  | MEMORY_MONITOR_INVALID_RELEASE_SIZE => PushBack_cleanup queue dataSize false QUEUE_MAX_MEMORY_EXCEEDED
  | MEMORY_MONITOR_OK =>
      newItem <- malloc_item (mkItem data dataSize None
                                (match firstItem queue with None => None | Some _ => lastItem queue end)) ;;
      match newItem with
      | None => PushBack_cleanup queue dataSize true QUEUE_MEMORY_EXCEPTION
      | Some _ =>
          first <- (match firstItem queue with
                    | None => ret newItem
                    | Some _ =>
                        last <- load (lastItem queue) ;;
                        store (lastItem queue) (set_next newItem last) ;;;
                        ret (firstItem queue)
                    end) ;;
          PushBack_cleanup (mkQueue first newItem (u32 (numberOfElements queue + 1)) (shouldSendLogs queue)
                                    (q_counter queue)) dataSize true QUEUE_OK
      end
  end.

Definition Queue_GetSize (queue : Queue) : M Store (QueueResultValues * Z) :=
  ret (QUEUE_OK, numberOfElements queue).

(** The loop of [Queue_Deinit]; running out of fuel is undefined. *)
Fixpoint Deinit_loop (fuel : nat) (queue : Queue) : M Store Queue :=
  if 0 <? numberOfElements queue then
    match fuel with
    | O => undefined
    | S fuel => let* (_, queue, _) := Queue_PopFront queue in Deinit_loop fuel queue
    end
  else ret queue.

Definition Queue_Deinit (fuel : nat) (queue : Queue) : M Store Queue :=
  c <- lift (AgentTelemetryCounter_Deinit (q_counter queue)) ;;
  Deinit_loop fuel (mkQueue (firstItem queue) (lastItem queue) (numberOfElements queue) (shouldSendLogs queue) c).

(** ** Representation *)

(** The items from pointer [p] to the last one are those of [l], whose
    addresses come with them; [prev] is the pointer before them. *)
Fixpoint linked (h : gmap nat QueueItem) (p prev : option nat) (l : list (nat * (D * Z))) (last : option nat) : Prop :=
  match l with
  | [] => p = None /\ last = prev
  | (a, (d, n)) :: l' =>
      p = Some a /\ exists next, h !! a = Some (mkItem d n next prev) /\ linked h next (Some a) l' last
  end.

(** The queue [queue] in the heap of [s] holds [l]. *)
Definition holds (s : Store) (queue : Queue) (l : list (nat * (D * Z))) : Prop :=
  linked (st_heap s) (firstItem queue) None l (lastItem queue) /\ NoDup l.*1 /\
  numberOfElements queue = Z.of_nat (length l) /\
  (forall a, is_Some (st_heap s !! a) -> (a < next_item s)%nat).

(** Nothing is changed in the heap but the items of the queue and new ones. *)
Definition heap_frame (l : list (nat * (D * Z))) (s s' : Store) : Prop :=
  forall a, a ∉ l.*1 -> (a < next_item s)%nat -> st_heap s' !! a = st_heap s !! a.

(** The environment of a queue at rest. *)
Definition queue_ready (queue : Queue) (s : Store) : Prop :=
  reliable (st_world s) /\ monitor_ready (st_world s) /\ counter_ready (q_counter queue) (st_world s).

(** ** Specification: a bounded first-in first-out queue *)

Record Fifo : Type := mkFifo {
  items : list (D * Z);
  used : Z;                       (** the consumption that the monitor has on record *)
}.

Definition spec_push (limit : Z) (f : Fifo) (d : D) (n : Z) : QueueResultValues * Fifo :=
  let size := Queue_CalculateItemSize n in
  if u32 (used f + size) <=? limit
  then (QUEUE_OK, mkFifo (items f ++ [(d, n)]) (u32 (used f + size)))
  else (QUEUE_MAX_MEMORY_EXCEEDED, f).

Definition spec_pop (f : Fifo) (condition : D -> Z -> bool) : QueueResultValues * Fifo * option (D * Z) :=
  match items f with
  | [] => (QUEUE_IS_EMPTY, f, None)
  | (d, n) :: l =>
      let size := Queue_CalculateItemSize n in
      if condition d n
      then (QUEUE_OK, mkFifo l (if size <=? used f then used f - size else used f), Some (d, n))
      else (QUEUE_CONDITION_FAILED, f, None)
  end.

Inductive QueueCall : Type :=
  | Push (d : D) (n : Z)
  | Pop
  | PopIf (condition : D -> Z -> bool)
  | Size.

Inductive QueueReply : Type :=
  | Pushed (r : QueueResultValues)
  | Popped (r : QueueResultValues) (out : option (D * Z))
  | SizeIs (r : QueueResultValues) (n : Z).

Definition run_call (c : QueueCall) (queue : Queue) : M Store (QueueReply * Queue) :=
  match c with
  | Push d n => let* (r, queue) := Queue_PushBack queue d n in ret (Pushed r, queue)
  | Pop => let* (r, queue, out) := Queue_PopFront queue in ret (Popped r out, queue)
  | PopIf condition => let* (r, queue, out) := Queue_PopFrontIf queue condition in ret (Popped r out, queue)
  | Size => let* (r, n) := Queue_GetSize queue in ret (SizeIs r n, queue)
  end.

Fixpoint run_queue (l : list QueueCall) (queue : Queue) : M Store (list QueueReply * Queue) :=
  match l with
  | [] => ret ([], queue)
  | c :: l' =>
      let* (r, queue) := run_call c queue in
      let* (rs, queue) := run_queue l' queue in
      ret (r :: rs, queue)
  end.

Definition spec_call (limit : Z) (c : QueueCall) (f : Fifo) : QueueReply * Fifo :=
  match c with
  | Push d n => let '(r, f) := spec_push limit f d n in (Pushed r, f)
  | Pop => let '(r, f, out) := spec_pop f (fun _ _ => true) in (Popped r out, f)
  | PopIf condition => let '(r, f, out) := spec_pop f condition in (Popped r out, f)
  | Size => (SizeIs QUEUE_OK (Z.of_nat (length (items f))), f)
  end.

Fixpoint spec_run (limit : Z) (l : list QueueCall) (f : Fifo) : list QueueReply * Fifo :=
  match l with
  | [] => ([], f)
  | c :: l' =>
      let '(r, f) := spec_call limit c f in
      let '(rs, f) := spec_run limit l' f in
      (r :: rs, f)
  end.

(** The bytes that the items of a queue are charged for. *)
Fixpoint charged (l : list (D * Z)) : Z :=
  match l with
  | [] => 0
  | (_, n) :: l' => Queue_CalculateItemSize n + charged l'
  end.

(** The concrete state refines the abstract one. *)
Definition refines (limit : Z) (queue : Queue) (s : Store) (f : Fifo) : Prop :=
  queue_ready queue s /\ cache_limit (st_world s) = limit /\ consumption (st_world s) = used f /\
  exists l, holds s queue l /\ l.*2 = items f.


(** ** Lemmas: linked lists *)

Lemma linked_frame h h' p prev l last :
  (forall a, a ∈ l.*1 -> h' !! a = h !! a) -> linked h p prev l last -> linked h' p prev l last.
Proof.
  revert p prev. induction l as [|[a [d n]] l IH]; intros p prev Hh; [done|]. cbn [linked].
  intros (-> & next & Ha & Hl). split; [done|]. exists next.
  rewrite Hh by (cbn; left). split; [done|]. apply IH; [|done]. intros b Hb. apply Hh. cbn. by right.
Qed.

Lemma linked_in h p prev l last a : linked h p prev l last -> a ∈ l.*1 -> is_Some (h !! a).
Proof.
  revert p prev. induction l as [|[b [d n]] l IH]; intros p prev; cbn; [by intros _ ?%not_elem_of_nil|].
  intros (_ & next & Hb & Hl) [-> | Ha]%elem_of_cons; [by rewrite Hb | by eapply IH].
Qed.

(** The last item of a list that is not empty. *)
Lemma linked_last h p prev l last :
  linked h p prev l last -> l <> [] ->
  exists b item, last = Some b /\ b ∈ l.*1 /\ h !! b = Some item /\ nextItem item = None.
Proof.
  revert p prev. induction l as [|[a [d n]] l IH]; intros p prev; [done|]. cbn [linked].
  intros (-> & next & Ha & Hl) _. destruct l as [|x l].
  - destruct Hl as [-> ->]. exists a, (mkItem d n None prev). repeat split; [cbn; left | done].
  - destruct (IH _ _ Hl) as (b & item & E1 & E2 & E3 & E4); [done|]. exists b, item.
    repeat split; try done. cbn. by right.
Qed.

(** Appending an item behind the last one. *)
Lemma linked_snoc h p prev l b item a d n :
  linked h p prev l (Some b) -> l <> [] -> NoDup l.*1 -> a ∉ l.*1 -> h !! b = Some item ->
  linked (<[b := set_next (Some a) item]> (<[a := mkItem d n None (Some b)]> h)) p prev (l ++ [(a, (d, n))]) (Some a).
Proof.
  revert p prev. induction l as [|[a0 [d0 n0]] l IH]; intros p prev; [done|]. cbn [linked app].
  intros (-> & next & Ha0 & Hl) _ [Hn0 Hnd]%NoDup_cons Ha Hb. cbn in Ha.
  apply not_elem_of_cons in Ha as [Hne Ha]. split; [done|]. destruct l as [|x l].
  - destruct Hl as [-> [= ->]]. exists (Some a). rewrite lookup_insert_eq. cbn [app linked].
    split; [rewrite Ha0 in Hb; injection Hb as <-; done|]. split; [done|]. exists None.
    rewrite lookup_insert_ne by done. rewrite lookup_insert_eq. done.
  - exists next. destruct (linked_last _ _ _ _ _ Hl) as (b' & ? & [= <-] & Hin & _); [done|].
    assert (b <> a0) by (intros ->; by apply Hn0).
    rewrite !lookup_insert_ne by congruence. split; [done|]. by apply IH.
Qed.

(** Removing the first item: the one behind it loses its predecessor. *)
Lemma linked_tail h next a x l last :
  linked h next (Some a) (x :: l) last -> a ∉ (x :: l).*1 -> NoDup (x :: l).*1 ->
  exists b item, next = Some b /\ h !! b = Some item /\
    linked (delete a (<[b := set_prev None item]> h)) next None (x :: l) last.
Proof.
  destruct x as [b [d n]]. cbn. intros (-> & next2 & Hb & Hl) Ha [Hnb Hnd]%NoDup_cons.
  apply not_elem_of_cons in Ha as [Hne Ha]. eexists b, _. split; [done|]. split; [done|]. split; [done|].
  exists next2. rewrite lookup_delete_ne, lookup_insert_eq by done. split; [done|].
  eapply linked_frame; [|exact Hl]. intros c Hc.
  rewrite lookup_delete_ne by (intros ->; by apply Ha). apply lookup_insert_ne. intros ->. by apply Hnb.
Qed.

Lemma charged_nonneg (l : list (D * Z)) : 0 <= charged l.
Proof.
  induction l as [|[d n] l IH]; cbn; [done|]. pose proof (u32_range (n + 32 + 8)) as [H _].
  unfold Queue_CalculateItemSize. lia.
Qed.

(** ** Lemmas: operations *)

Context {Laws : MemoryMonitorLaws Mon}.

Lemma ready_only_monitor queue queue' s s' :
  queue_ready queue s -> only_monitor (st_world s) (st_world s') ->
  sc_lock (q_counter queue') = sc_lock (q_counter queue) -> queue_ready queue' s'.
Proof.
  intros (Hr & Hm & l & Hl & Hh) Ho Hc. split; [by eapply only_monitor_reliable|].
  split; [by eapply ready_kept|]. exists l. rewrite Hc. split; [done|]. by destruct Ho as (_ & -> & _).
Qed.

(** The counter after one more of the counted events. *)
Definition counted (queue : Queue) (i : CountInstance) : SyncedCounter :=
  mkSyncedCounter (set_count i (u32 (get_count i (counter (q_counter queue)) + 1)) (counter (q_counter queue)))
                  (sc_lock (q_counter queue)).

Definition with_counter (queue : Queue) (c : SyncedCounter) : Queue :=
  mkQueue (firstItem queue) (lastItem queue) (numberOfElements queue) (shouldSendLogs queue) c.

Lemma count_run queue i s :
  reliable (st_world s) -> counter_ready (q_counter queue) (st_world s) ->
  count queue i s = Some (with_counter queue (counted queue i), mkStore (bump 2 (st_world s)) (st_heap s) (next_item s)).
Proof.
  intros Hr Hc. unfold count, bind, lift. by rewrite IncreaseBy_reliable.
Qed.

Lemma cleanup_ok queue n b s :
  reliable (st_world s) -> counter_ready (q_counter queue) (st_world s) ->
  PushBack_cleanup queue n b QUEUE_OK s =
  Some ((QUEUE_OK, with_counter queue (counted queue queue_collected)),
        mkStore (bump 2 (st_world s)) (st_heap s) (next_item s)).
Proof.
  intros Hr Hc. unfold PushBack_cleanup. rewrite decide_False by tauto. rewrite bind_ret_l.
  by rewrite (bind_eq _ _ _ _ _ (count_run _ _ _ Hr Hc)).
Qed.

Lemma cleanup_not_consumed queue n r s :
  reliable (st_world s) -> counter_ready (q_counter queue) (st_world s) -> r <> QUEUE_OK ->
  PushBack_cleanup queue n false r s =
  Some ((r, with_counter queue (counted queue queue_collected)),
        mkStore (bump 2 (st_world s)) (st_heap s) (next_item s)).
Proof.
  intros Hr Hc Hn. unfold PushBack_cleanup. rewrite decide_True by done. rewrite bind_ret_l.
  by rewrite (bind_eq _ _ _ _ _ (count_run _ _ _ Hr Hc)).
Qed.

Lemma holds_fresh s queue l : holds s queue l -> next_item s ∉ l.*1.
Proof.
  intros (Hl & _ & _ & Hf) Hin. destruct (linked_in _ _ _ _ _ _ Hl Hin) as [x Hx].
  assert (next_item s < next_item s)%nat by (apply Hf; eauto). lia.
Qed.

Lemma holds_other s s' queue queue' l :
  holds s queue l -> st_heap s' = st_heap s -> next_item s' = next_item s ->
  firstItem queue' = firstItem queue -> lastItem queue' = lastItem queue ->
  numberOfElements queue' = numberOfElements queue -> holds s' queue' l.
Proof. unfold holds. by intros H -> -> -> -> ->. Qed.

(** Linking a new item behind the last one. *)
Definition link (queue : Queue) (d : D) (n : Z) : M Store (option Queue) :=
  newItem <- malloc_item (mkItem d n None (match firstItem queue with None => None | Some _ => lastItem queue end)) ;;
  match newItem with
  | None => ret None
  | Some _ =>
      first <- (match firstItem queue with
                | None => ret newItem
                | Some _ =>
                    last <- load (lastItem queue) ;;
                    store (lastItem queue) (set_next newItem last) ;;;
                    ret (firstItem queue)
                end) ;;
      ret (Some (mkQueue first newItem (u32 (numberOfElements queue + 1)) (shouldSendLogs queue) (q_counter queue)))
  end.

Lemma link_run queue s l d n :
  reliable (st_world s) -> holds s queue l -> Z.of_nat (length l) < UINT32_MAX ->
  exists queue' s', link queue d n s = Some (Some queue', s') /\
    holds s' queue' (l ++ [(next_item s, (d, n))]) /\ heap_frame l s s' /\
    st_world s' = bump 1 (st_world s) /\ q_counter queue' = q_counter queue.
Proof.
  intros Hr Hh Hlen. pose proof (holds_fresh _ _ _ Hh) as Hfresh. pose proof Hh as (Hl & Hnd & Hn & Hf).
  unfold link, malloc_item. unfold bind at 1. unfold bind at 1, lift. rewrite malloc_reliable by done. cbv beta iota.
  assert (Hlen' : numberOfElements queue + 1 = Z.of_nat (length (l ++ [(next_item s, (d, n))]))).
  { rewrite length_app, Hn. cbn. lia. }
  assert (Hlt : is_u32 (numberOfElements queue + 1)) by (rewrite Hn; ulia).
  assert (Hnd' : NoDup (l ++ [(next_item s, (d, n))]).*1).
  { rewrite fmap_app. apply NoDup_app. split; [done|]. split; [|by apply NoDup_singleton].
    intros x Hx ->%list_elem_of_singleton. done. }
  destruct l as [|x l].
  - destruct Hl as [Hfirst Hlast]. rewrite Hfirst. unfold bind, ret. eexists _, _. split; [reflexivity|].
    split; [|split; [|done]].
    + split; [|split; [done|]]; cbn [firstItem lastItem st_heap next_item numberOfElements].
      * split; [done|]. exists None. by rewrite lookup_insert_eq.
      * rewrite u32_small by done. split; [done|]. intros a Ha. destruct (decide (a = next_item s)) as [->|]; [lia|].
        rewrite lookup_insert_ne in Ha by done. apply Hf in Ha. lia.
    + intros a _ Ha. cbn. rewrite lookup_insert_ne by lia. done.
  - destruct (linked_last _ _ _ _ _ Hl) as (b & item & Hlast & Hin & Hb & Hnext); [done|].
    destruct (firstItem queue) as [f|] eqn:Hfirst; [|destruct x as [? [? ?]]; by destruct Hl].
    assert (Hne : b <> next_item s) by (intros ->; done).
    rewrite Hlast in *. unfold bind, load, store, ret. cbn [st_heap].
    rewrite lookup_insert_ne by done. rewrite Hb. cbn [st_heap]. rewrite lookup_insert_ne by done. rewrite Hb.
    eexists _, _. split; [reflexivity|]. split; [|split; [|done]].
    + split; [|split; [done|]]; cbn [firstItem lastItem st_heap next_item numberOfElements].
      * by apply linked_snoc.
      * rewrite u32_small by done. split; [done|]. intros a Ha.
        destruct (decide (a = b)) as [->|]; [assert (b < next_item s)%nat by (apply Hf; eauto); lia|].
        rewrite lookup_insert_ne in Ha by done. destruct (decide (a = next_item s)) as [->|]; [lia|].
        rewrite lookup_insert_ne in Ha by done. apply Hf in Ha. lia.
    + intros a Ha Hlt2. cbn. rewrite lookup_insert_ne by (intros ->; done). rewrite lookup_insert_ne by lia. done.
Qed.

(** [Queue_PushBack] written with [link]. *)
Lemma PushBack_link queue d n s :
  Queue_PushBack queue d n s =
  (result <- lift (MemoryMonitor_Consume (Queue_CalculateItemSize n)) ;;
   match result with
   | MEMORY_MONITOR_MEMORY_EXCEEDED =>
       queue <- count queue queue_dropped ;;
       PushBack_cleanup queue n false QUEUE_MAX_MEMORY_EXCEEDED
   | MEMORY_MONITOR_EXCEPTION => PushBack_cleanup queue n false QUEUE_MEMORY_EXCEPTION
   | MEMORY_MONITOR_INVALID_RELEASE_SIZE => PushBack_cleanup queue n false QUEUE_MAX_MEMORY_EXCEEDED
   | MEMORY_MONITOR_OK =>
       linked <- link queue d n ;;
       match linked with
       | None => PushBack_cleanup queue n true QUEUE_MEMORY_EXCEPTION
       | Some queue => PushBack_cleanup queue n true QUEUE_OK
       end
   end) s.
Proof.
  unfold Queue_PushBack, link, bind, ret.
  destruct (lift (MemoryMonitor_Consume (Queue_CalculateItemSize n)) s) as [[[] s1]|]; try done.
  destruct (malloc_item _ s1) as [[[a|] s2]|]; try done. destruct (firstItem queue); [|done].
  destruct (load (lastItem queue) s2) as [[x s3]|]; [|done]. by destruct (store (lastItem queue) _ s3) as [[? ?]|].
Qed.

Definition counters_of (queue : Queue) : Counter := counter (q_counter queue).

(** A push: the queue holds one more item, or it is full and counts a drop. *)
Lemma PushBack_run queue s l d n :
  queue_ready queue s -> holds s queue l -> Z.of_nat (length l) < UINT32_MAX ->
  let size := Queue_CalculateItemSize n in
  let ok := granted (st_world s) size in
  exists queue' s',
    Queue_PushBack queue d n s = Some ((if ok then QUEUE_OK else QUEUE_MAX_MEMORY_EXCEEDED, queue'), s') /\
    queue_ready queue' s' /\ holds s' queue' (if ok then l ++ [(next_item s, (d, n))] else l) /\ heap_frame l s s' /\
    only_monitor (st_world s) (st_world s') /\
    consumption (st_world s') = (if ok then u32 (consumption (st_world s) + size) else consumption (st_world s)) /\
    counters_of queue' = mkCounter (u32 (word0 (counters_of queue) + 1))
      (if ok then word1 (counters_of queue) else u32 (word1 (counters_of queue) + 1)) (word2 (counters_of queue)).
Proof.
  intros (Hr & Hm & Hc) Hh Hlen size ok. rewrite PushBack_link.
  destruct (Consume_law size (st_world s) Hr Hm) as (w1 & Hcons & Ho & Hn). fold ok in Hcons, Hn.
  set (s1 := mkStore w1 (st_heap s) (next_item s)).
  assert (Hl1 : lift (MemoryMonitor_Consume size) s =
    Some (if ok then MEMORY_MONITOR_OK else MEMORY_MONITOR_MEMORY_EXCEEDED, s1)) by (unfold lift; by rewrite Hcons).
  rewrite (bind_eq _ _ _ _ _ Hl1).
  assert (Hr1 : reliable w1) by (by eapply only_monitor_reliable).
  assert (Hm1 : monitor_ready w1) by (by eapply ready_kept).
  assert (Hc1 : counter_ready (q_counter queue) w1).
  { destruct Hc as (lk & E & Hlk). exists lk. split; [done|]. by destruct Ho as (_ & -> & _). }
  assert (Hh1 : holds s1 queue l) by exact Hh.
  assert (Hob : forall k, only_monitor (st_world s) (bump k w1))
    by (intros k; eapply only_monitor_trans; [exact Ho | apply only_monitor_bump]).
  assert (Hmb : forall k, monitor_ready (bump k w1)) by (intros k; eapply ready_kept; [apply only_monitor_bump | done]).
  destruct ok.
  - destruct (link_run queue s1 l d n Hr1 Hh1 Hlen) as (q2 & s2 & Hlink & Hh2 & Hf2 & Hw2 & Hq2).
    rewrite (bind_eq _ _ _ _ _ Hlink), cleanup_ok; [| by rewrite Hw2 | by rewrite Hw2, Hq2].
    rewrite Hw2, bump_bump. eexists _, _. split; [reflexivity|]. cbn [st_world].
    split; [split; [done|]; split; [apply Hmb|]; unfold counter_ready; cbn; by rewrite Hq2|].
    split; [exact Hh2|]. split; [exact Hf2|]. split; [apply Hob|]. split; [exact Hn|].
    unfold counters_of. cbn. by rewrite Hq2.
  - rewrite (bind_eq _ _ _ _ _ (count_run queue queue_dropped s1 Hr1 Hc1)). rewrite cleanup_not_consumed by done.
    cbn [st_world st_heap next_item]. rewrite bump_bump. eexists _, _. split; [reflexivity|]. cbn [st_world].
    split; [split; [done|]; split; [apply Hmb | exact Hc1]|].
    split; [exact Hh1|]. split; [done|]. split; [apply Hob|]. split; [exact Hn|]. done.
Qed.

(** A pop: the first item comes out, and its bytes are released. *)
Lemma PopFront_run queue s a d n l :
  reliable (st_world s) -> monitor_ready (st_world s) -> holds s queue ((a, (d, n)) :: l) -> Z.of_nat (length l) < UINT32_MAX ->
  let size := Queue_CalculateItemSize n in
  exists queue' s',
    Queue_PopFront queue s = Some ((QUEUE_OK, queue', Some (d, n)), s') /\
    holds s' queue' l /\ heap_frame ((a, (d, n)) :: l) s s' /\
    st_heap s' !! a = None /\ next_item s' = next_item s /\ q_counter queue' = q_counter queue /\
    only_monitor (st_world s) (st_world s') /\
    consumption (st_world s') =
      if size <=? consumption (st_world s) then consumption (st_world s) - size else consumption (st_world s).
Proof.
  intros Hr Hm (Hl & Hnd & Hn & Hf) Hlen size. cbn [linked] in Hl. destruct Hl as (Hfirst & next & Ha & Hl).
  apply NoDup_cons in Hnd as [Hna Hnd]. cbn in Hna.
  unfold Queue_PopFront. rewrite (proj2 (Z.eqb_neq _ _)) by (rewrite Hn; cbn; lia).
  unfold load at 1. rewrite Hfirst. unfold bind at 1. rewrite Ha. cbn [nextItem item_data item_dataSize].
  destruct (Release_law size (st_world s) Hr Hm) as (w1 & Hrel & Ho & Hcons).
  assert (Hlen1 : u32 (numberOfElements queue - 1) = Z.of_nat (length l)) by (rewrite Hn, u32_small; cbn; ulia).
  destruct l as [|x l].
  - destruct Hl as [-> Hlast]. rewrite bind_ret_l. unfold bind, lift, ret, free_item.
    cbn [st_world st_heap next_item firstItem lastItem numberOfElements shouldSendLogs q_counter].
    fold size. rewrite Hrel. cbn [st_heap st_world next_item]. rewrite Ha.
    eexists _, _. split; [reflexivity|].
    split; [|split; [|split; [apply lookup_delete_eq | done]]].
    + split; [done|]. split; [done|]. split; [done|]. cbn. intros b Hb.
      destruct (decide (b = a)) as [->|]; [by rewrite lookup_delete_eq in Hb; destruct Hb|].
      rewrite lookup_delete_ne in Hb by done. by apply Hf.
    + intros b Hb _. cbn in *. apply not_elem_of_cons in Hb as [Hb _]. by rewrite lookup_delete_ne.
  - destruct (linked_tail _ _ _ _ _ _ Hl Hna Hnd) as (b & item & -> & Hb & Hl2).
    assert (Hin : b ∈ (x :: l).*1) by (destruct x as [? [? ?]]; destruct Hl as [[= <-] _]; left).
    assert (Hne : b <> a) by (intros ->; done).
    unfold load, store. unfold bind, lift, ret, free_item. rewrite Hb. cbn [st_world st_heap next_item]. rewrite Hb.
    cbn [st_world st_heap next_item firstItem lastItem numberOfElements shouldSendLogs q_counter].
    fold size. rewrite Hrel. cbn [st_heap st_world next_item]. rewrite lookup_insert_ne by done. rewrite Ha.
    eexists _, _. split; [reflexivity|].
    split; [|split; [|split; [apply lookup_delete_eq | done]]].
    + split; [exact Hl2|]. split; [done|]. split; [done|]. cbn. intros c Hc'.
      destruct (decide (c = a)) as [->|]; [by rewrite lookup_delete_eq in Hc'; destruct Hc'|].
      rewrite lookup_delete_ne in Hc' by done. destruct (decide (c = b)) as [->|]; [by apply Hf; eauto|].
      rewrite lookup_insert_ne in Hc' by done. by apply Hf.
    + intros c Hc' _. cbn [st_heap]. cbn in Hc'. apply not_elem_of_cons in Hc' as [Hca Hc'].
      rewrite lookup_delete_ne by done. apply lookup_insert_ne. intros ->. done.
Qed.

Lemma PopFront_empty queue s : numberOfElements queue = 0 -> Queue_PopFront queue s = Some ((QUEUE_IS_EMPTY, queue, None), s).
Proof. intros H. unfold Queue_PopFront. by rewrite H. Qed.

Lemma PopFrontIf_run queue s l condition :
  holds s queue l -> Z.of_nat (length l) < UINT32_MAX ->
  Queue_PopFrontIf queue condition s =
  match l with
  | [] => Some ((QUEUE_IS_EMPTY, queue, None), s)
  | (_, (d, n)) :: _ => if condition d n then Queue_PopFront queue s
                        else Some ((QUEUE_CONDITION_FAILED, queue, None), s)
  end.
Proof.
  intros (Hl & _ & Hn & _) Hlen. unfold Queue_PopFrontIf. destruct l as [|[a [d n]] l].
  - by rewrite Hn.
  - rewrite (proj2 (Z.eqb_neq _ _)) by (rewrite Hn; cbn; lia). destruct Hl as (-> & next & Ha & _).
    unfold bind, load. rewrite Ha. cbn [item_data item_dataSize]. by destruct (condition d n).
Qed.

(** Popping refines the specification, with a condition or without. *)
Lemma pop_refines limit queue s f condition :
  refines limit queue s f -> Z.of_nat (length (items f)) < UINT32_MAX ->
  exists queue' s', Queue_PopFrontIf queue condition s =
      Some ((fst (fst (spec_pop f condition)), queue', snd (spec_pop f condition)), s') /\
    refines limit queue' s' (snd (fst (spec_pop f condition))) /\ only_monitor (st_world s) (st_world s').
Proof.
  intros Href Hlen. pose proof Href as (Hq & Hlim & Hu & l & Hh & Hi).
  assert (Hlen' : Z.of_nat (length l) < UINT32_MAX) by (by rewrite <- Hi, length_fmap in Hlen).
  rewrite (PopFrontIf_run queue s l) by done. unfold spec_pop. rewrite <- Hi.
  destruct l as [|[a [d n]] l]; cbn [fmap list_fmap snd]; [by exists queue, s; auto with monitor|].
  destruct (condition d n); cbn [fst snd]; [|by exists queue, s; auto with monitor].
  pose proof Hq as (Hqr & Hqm & Hqc).
  destruct (PopFront_run queue s a d n l Hqr Hqm Hh) as (q2 & s2 & Hp & Hh2 & _ & _ & _ & Hqe & Ho & Hc);
    [cbn in Hlen'; lia|].
  assert (Hq2 : queue_ready q2 s2) by (apply (ready_only_monitor queue q2 s s2); congruence).
  exists q2, s2. rewrite Hp. split; [done|]. split; [|done]. split; [done|]. cbn [used items].
  split; [unfold cache_limit in *; by destruct Ho as (_ & _ & _ & _ & _ & -> & _)|].
  split; [by rewrite Hc, Hu|]. by exists l.
Qed.

Lemma PopFront_as_If queue s l :
  holds s queue l -> Z.of_nat (length l) < UINT32_MAX ->
  Queue_PopFront queue s = Queue_PopFrontIf queue (fun _ _ => true) s.
Proof.
  intros Hh Hlen. rewrite (PopFrontIf_run queue s l) by done. destruct l as [|[a [d n]] l]; [|done].
  apply PopFront_empty. by destruct Hh as (_ & _ & -> & _).
Qed.

Lemma call_refines limit c queue s f :
  refines limit queue s f -> Z.of_nat (length (items f)) < UINT32_MAX ->
  exists queue' s', run_call c queue s = Some ((fst (spec_call limit c f), queue'), s') /\
    refines limit queue' s' (snd (spec_call limit c f)) /\
    (length (items (snd (spec_call limit c f))) <= S (length (items f)))%nat /\
    only_monitor (st_world s) (st_world s').
Proof.
  intros Href Hlen. pose proof Href as (Hq & Hlim & Hu & l & Hh & Hi).
  assert (Hlen' : Z.of_nat (length l) < UINT32_MAX) by (by rewrite <- Hi, length_fmap in Hlen).
  assert (Hpop : forall condition, (length (items (snd (fst (spec_pop f condition)))) <= S (length (items f)))%nat).
  { intros condition. unfold spec_pop. destruct (items f) as [|[d n] l'] eqn:E; [cbn; rewrite E; cbn; lia|].
    destruct (condition d n); cbn; rewrite ?E; cbn; lia. }
  destruct c as [d n | | condition |]; cbn [run_call spec_call].
  - destruct (PushBack_run queue s l d n Hq Hh Hlen') as (q2 & s2 & Hp & Hq2 & Hh2 & _ & Ho & Hc & _).
    rewrite (bind_eq _ _ _ _ _ Hp). unfold spec_push. unfold granted in *. rewrite Hlim, Hu in *.
    destruct (u32 (used f + Queue_CalculateItemSize n) <=? limit); cbn [fst snd];
      exists q2, s2; (split; [done|]); (split; [|split; [|done]]).
    + split; [done|]. cbn [used items].
      split; [unfold cache_limit in *; by destruct Ho as (_ & _ & _ & _ & _ & -> & _)|]. split; [done|].
      eexists. split; [exact Hh2|]. by rewrite fmap_app, Hi.
    + cbn. rewrite length_app. cbn. lia.
    + split; [done|]. split; [unfold cache_limit in *; by destruct Ho as (_ & _ & _ & _ & _ & -> & _)|].
      split; [done|]. by exists l.
    + lia.
  - destruct (pop_refines limit queue s f (fun _ _ => true) Href Hlen) as (q2 & s2 & Hp & Hr2 & Ho2).
    rewrite <- (PopFront_as_If queue s l) in Hp by done. rewrite (bind_eq _ _ _ _ _ Hp).
    specialize (Hpop (fun _ _ => true)). destruct (spec_pop f (fun _ _ => true)) as [[r f2] out]. by exists q2, s2.
  - destruct (pop_refines limit queue s f condition Href Hlen) as (q2 & s2 & Hp & Hr2 & Ho2).
    rewrite (bind_eq _ _ _ _ _ Hp). specialize (Hpop condition).
    destruct (spec_pop f condition) as [[r f2] out]. by exists q2, s2.
  - exists queue, s. split; [|split; [done | split; [cbn; lia | apply only_monitor_refl]]]. unfold bind, Queue_GetSize, ret.
    destruct Hh as (_ & _ & -> & _). by rewrite <- Hi, length_fmap.
Qed.

(** Emptying the queue. *)
Lemma Deinit_loop_run l : forall fuel queue s,
  reliable (st_world s) -> monitor_ready (st_world s) -> holds s queue l -> Z.of_nat (length l) <= UINT32_MAX ->
  0 <= charged l.*2 <= consumption (st_world s) -> (length l <= fuel)%nat ->
  exists queue' s', Deinit_loop fuel queue s = Some (queue', s') /\
    holds s' queue' [] /\ q_counter queue' = q_counter queue /\ heap_frame l s s' /\ next_item s' = next_item s /\
    (forall a, a ∈ l.*1 -> st_heap s' !! a = None) /\ only_monitor (st_world s) (st_world s') /\
    consumption (st_world s') = consumption (st_world s) - charged l.*2.
Proof.
  induction l as [|[a [d n]] l IH]; intros fuel queue s Hr Hm Hh Hlen Hcharge Hfuel.
  - exists queue, s. pose proof Hh as (_ & _ & Hn & _). split; [|split; [done|]].
    + destruct fuel; cbn [Deinit_loop]; by rewrite Hn.
    + split; [done|]. split; [done|]. split; [done|]. split; [by intros a ?%not_elem_of_nil|].
      split; [apply only_monitor_refl | cbn; lia].
  - destruct fuel as [|fuel]; [cbn in Hfuel; lia|]. cbn [length] in *. cbn [fmap list_fmap snd charged] in Hcharge.
    assert (Hsz : 0 <= Queue_CalculateItemSize n) by (pose proof (u32_range (n + 32 + 8)); unfold is_u32 in *; apply H).
    assert (Hl0 : 0 <= charged l.*2) by apply charged_nonneg.
    pose proof Hh as (_ & Hnd & Hn & _). cbn [Deinit_loop]. rewrite (proj2 (Z.ltb_lt _ _)) by (rewrite Hn; cbn; lia).
    destruct (PopFront_run queue s a d n l Hr Hm Hh) as (q1 & s1 & Hp & Hh1 & Hf1 & Ha1 & Hn1 & Hc1 & Ho1 & Hu1); [lia|].
    rewrite (bind_eq _ _ _ _ _ Hp). rewrite (proj2 (Z.leb_le _ _)) in Hu1 by lia.
    destruct (IH fuel q1 s1) as (q2 & s2 & Hd & Hh2 & Hc2 & Hf2 & Hn2 & Ha2 & Ho2 & Hu2);
      [by eapply only_monitor_reliable | by eapply ready_kept | done | lia | lia | lia |].
    exists q2, s2. split; [done|]. split; [done|]. split; [congruence|].
    pose proof Hnd as [Hna _]%NoDup_cons. cbn in Hna.
    assert (Hlt : (a < next_item s)%nat) by (destruct Hh as ((_ & ? & Hsa & _) & _ & _ & Hf); apply Hf; eauto).
    split; [|split; [congruence|split; [|split; [by eapply only_monitor_trans | cbn; lia]]]].
    + intros b Hb Hltb. cbn in Hb. pose proof Hb as [Hba Hbl]%not_elem_of_cons.
      rewrite Hf2 by (done || by rewrite Hn1). by apply Hf1.
    + intros b [-> | Hb]%elem_of_cons; [|by apply Ha2]. rewrite Hf2 by (done || by rewrite Hn1). done.
Qed.

(** A heap in which nothing but one queue's items changed still holds another
    queue, whose items are others. *)
Lemma holds_frame s s' queue1 l1 queue2 l2 :
  holds s queue2 l2 -> heap_frame l1 s s' -> (forall a, a ∈ l2.*1 -> a ∉ l1.*1) ->
  (forall a, is_Some (st_heap s' !! a) -> (a < next_item s')%nat) -> holds s queue1 l1 -> holds s' queue2 l2.
Proof.
  intros (Hl & Hnd & Hn & Hf) Hframe Hdis Hnew _. split; [|by split].
  eapply linked_frame; [|exact Hl]. intros a Ha. apply Hframe; [by apply Hdis|]. apply Hf. by eapply linked_in.
Qed.

(** ** Properties *)

(** C1: The linked queue implements a bounded first-in first-out queue.  For
    every sequence of calls, from a queue whose pointers represent the list of
    items of [f], no pointer is misused, every reply is the one of the
    specification, and the pointers again represent the specification's list;
    the memory on record is the specification's too.  The specification grants
    a push exactly when the [uint32_t] sum fits the configured limit. *)
Theorem queue_refines_fifo limit l queue s f :
  refines limit queue s f -> Z.of_nat (length (items f)) + Z.of_nat (length l) <= UINT32_MAX ->
  exists queue' s',
    run_queue l queue s = Some ((fst (spec_run limit l f), queue'), s') /\
    refines limit queue' s' (snd (spec_run limit l f)).
Proof.
  revert queue s f. induction l as [|c l IH]; intros queue s f Href Hlen; [by exists queue, s|].
  cbn [length] in Hlen. destruct (call_refines limit c queue s f Href) as (q1 & s1 & H1 & Hr1 & Hl1 & _); [lia|].
  cbn [run_queue spec_run]. rewrite (bind_eq _ _ _ _ _ H1).
  destruct (spec_call limit c f) as [r f1]. cbn [fst snd] in *.
  destruct (IH q1 s1 f1 Hr1) as (q2 & s2 & H2 & Hr2); [lia|]. rewrite (bind_eq _ _ _ _ _ H2).
  destruct (spec_run limit l f1) as [rs f2]. by exists q2, s2.
Qed.

(** [Queue_Deinit] terminates, within as many rounds as there are items, and
    cleans up: every item of the queue is freed and no other one, the bytes
    charged for the items are given back to the memory monitor, and the
    queue's counter has no lock left. *)
Theorem Deinit_releases_all l fuel queue s :
  queue_ready queue s -> holds s queue l -> Z.of_nat (length l) <= UINT32_MAX ->
  charged l.*2 <= consumption (st_world s) -> (length l <= fuel)%nat ->
  exists queue' s', Queue_Deinit fuel queue s = Some (queue', s') /\
    numberOfElements queue' = 0 /\ firstItem queue' = None /\ sc_lock (q_counter queue') = None /\
    (forall a, a ∈ l.*1 -> st_heap s' !! a = None) /\ heap_frame l s s' /\
    consumption (st_world s') = consumption (st_world s) - charged l.*2.
Proof.
  intros (Hr & Hm & lk & Hl & Hlk) Hh Hlen Hc Hf. unfold Queue_Deinit, AgentTelemetryCounter_Deinit.
  set (c := mkSyncedCounter (counter (q_counter queue)) None).
  assert (Hd : lift ((match sc_lock (q_counter queue) with Some _ => Lock_Deinit (sc_lock (q_counter queue)) | None => ret tt end) ;;;
                     ret c) s = Some (c, s)).
  { unfold lift, Lock_Deinit, bind, gets. rewrite Hl. rewrite decide_False by done. by destruct s. }
  rewrite (bind_eq _ _ _ _ _ Hd).
  destruct (Deinit_loop_run l fuel (with_counter queue c) s Hr Hm) as
    (q' & s' & Hrun & (Hl' & _ & Hn' & _) & Hq' & Hframe & _ & Hfree & _ & Hcons); [exact Hh | done | | done |].
  { split; [apply charged_nonneg | done]. }
  exists q', s'. split; [exact Hrun|]. split; [exact Hn'|]. split; [exact (proj1 Hl')|]. by rewrite Hq'.
Qed.

(** Two queues that share the heap and the memory monitor do not disturb
    each other: pushing to one, or popping from it, leaves the items of the
    other as they were. *)
Theorem queues_independent queue1 l1 queue2 l2 s d n :
  queue_ready queue1 s -> holds s queue1 l1 -> holds s queue2 l2 -> (forall a, a ∈ l2.*1 -> a ∉ l1.*1) ->
  Z.of_nat (length l1) < UINT32_MAX ->
  (exists r queue' s', Queue_PushBack queue1 d n s = Some ((r, queue'), s') /\ holds s' queue2 l2) /\
  (exists r queue' out s', Queue_PopFront queue1 s = Some ((r, queue', out), s') /\ holds s' queue2 l2).
Proof.
  intros Hq H1 H2 Hdis Hlen. split.
  - destruct (PushBack_run queue1 s l1 d n Hq H1 Hlen) as (q' & s' & Hp & _ & Hh & Hframe & _).
    eexists _, q', s'. split; [exact Hp|]. eapply holds_frame; [done | done | done | | done].
    by destruct Hh as (_ & _ & _ & Hf).
  - destruct l1 as [|[a [d1 n1]] l1].
    + eexists _, _, _, s. split; [apply PopFront_empty; by destruct H1 as (_ & _ & -> & _) | done].
    + pose proof Hq as (Hr & Hm & _).
      destruct (PopFront_run queue1 s a d1 n1 l1 Hr Hm H1) as (q' & s' & Hp & Hh & Hframe & _);
        [cbn in Hlen; lia|].
      eexists _, q', _, s'. split; [exact Hp|]. eapply holds_frame; [done | done | done | | done].
      by destruct Hh as (_ & _ & _ & Hf).
Qed.

(** The telemetry of a push: [collected] counts every push, whether or not
    the item was queued, and [dropped] counts those that were refused for lack
    of memory. *)
Theorem push_counts queue s l d n :
  queue_ready queue s -> holds s queue l -> Z.of_nat (length l) < UINT32_MAX ->
  exists r queue' s', Queue_PushBack queue d n s = Some ((r, queue'), s') /\
    get_count queue_collected (counters_of queue') = u32 (get_count queue_collected (counters_of queue) + 1) /\
    get_count queue_dropped (counters_of queue') =
      (if decide (r = QUEUE_MAX_MEMORY_EXCEEDED) then u32 (get_count queue_dropped (counters_of queue) + 1)
       else get_count queue_dropped (counters_of queue)) /\
    numberOfElements queue' = numberOfElements queue + (if decide (r = QUEUE_OK) then 1 else 0).
Proof.
  intros Hq Hh Hlen. destruct (PushBack_run queue s l d n Hq Hh Hlen) as (q' & s' & Hp & _ & Hh' & _ & _ & _ & Hc).
  eexists _, q', s'. split; [exact Hp|]. rewrite Hc. split; [done|].
  destruct Hh as (_ & _ & Hn & _). destruct Hh' as (_ & _ & Hn' & _). rewrite Hn, Hn'.
  destruct (granted _ _); (split; [done|]); [rewrite length_app, decide_True by done | rewrite decide_False by done];
    cbn [length]; lia.
Qed.

End Queue.

(** ** Witnesses *)

Definition empty_queue : Queue := mkQueue None None 0 true (mkSyncedCounter zero_counter (Some 7%nat)).

Definition empty_store : Store (D := nat) := mkStore (running_world good_env) ∅ 0.

Lemma empty_ready : @queue_ready nat synchronized_monitor empty_queue empty_store.
Proof.
  split; [exact good_reliable|]. split; [exact running_synchronized|]. exists 7%nat.
  split; [done|]. apply not_elem_of_empty.
Qed.

Lemma empty_holds : holds empty_store empty_queue [].
Proof. repeat split; [constructor|]. intros a [x Hx]. cbn in Hx. by rewrite lookup_empty in Hx. Qed.

Lemma empty_refines : @refines nat synchronized_monitor DEFAULT_MAX_LOCAL_CACHE_SIZE empty_queue empty_store (mkFifo [] 0).
Proof.
  split; [exact empty_ready|]. split; [done|]. split; [done|]. exists []. split; [exact empty_holds | done].
Qed.

Lemma queue_refines_fifo_witness :
  exists queue' s',
    @run_queue nat synchronized_monitor
      [Push 1%nat 100; Push 2%nat 20000000; Push 3%nat 7; PopIf (fun _ n => n <? 50); Pop; Size; Pop; Pop]
      empty_queue empty_store
    = Some (([Pushed QUEUE_OK; Pushed QUEUE_MAX_MEMORY_EXCEEDED; Pushed QUEUE_OK; Popped QUEUE_CONDITION_FAILED None;
              Popped QUEUE_OK (Some (1%nat, 100)); SizeIs QUEUE_OK 1; Popped QUEUE_OK (Some (3%nat, 7));
              Popped QUEUE_IS_EMPTY None], queue'), s').
Proof.
  destruct (@queue_refines_fifo nat synchronized_monitor _ DEFAULT_MAX_LOCAL_CACHE_SIZE
    [Push 1%nat 100; Push 2%nat 20000000; Push 3%nat 7; PopIf (fun _ n => n <? 50); Pop; Size; Pop; Pop]
    empty_queue empty_store (mkFifo [] 0) empty_refines) as (q' & s' & H & _); [by vm_compute|].
  exists q', s'. exact H.
Defined.

Definition one_item : nat * (nat * Z) := (0%nat, (5%nat, 60)).

Definition one_queue : Queue :=
  mkQueue (Some 0%nat) (Some 0%nat) 1 true (mkSyncedCounter zero_counter (Some 7%nat)).

Definition one_store : Store (D := nat) :=
  mkStore (set_memoryMonitor (mkMemoryMonitor 100 0 (Some 2%nat)) (running_world good_env))
          {[ 0%nat := mkItem 5%nat 60 None None ]} 1.

Lemma one_ready : @queue_ready nat synchronized_monitor one_queue one_store.
Proof.
  split; [exact good_reliable|]. split; [exact running_synchronized|]. exists 7%nat.
  split; [done|]. apply not_elem_of_empty.
Qed.

Lemma one_holds : holds one_store one_queue [one_item].
Proof.
  split; [split; [done|]; exists None; split; done|]. split; [apply NoDup_singleton|]. split; [done|].
  intros a [x Hx]. cbn in Hx. apply lookup_singleton_Some in Hx as [<- _]. cbn. lia.
Qed.

Lemma Deinit_releases_all_witness :
  exists queue' s', @Queue_Deinit nat synchronized_monitor 1 one_queue one_store = Some (queue', s') /\
    st_heap s' !! 0%nat = None /\ consumption (st_world s') = 0.
Proof.
  destruct (@Deinit_releases_all nat synchronized_monitor _ [one_item] 1 one_queue one_store one_ready one_holds)
    as (q' & s' & H & _ & _ & _ & Hf & _ & Hc); [by vm_compute | by vm_compute | cbn; lia |].
  exists q', s'. split; [exact H|]. split; [apply Hf; left | exact Hc].
Defined.

Lemma queues_independent_witness :
  exists r queue' s', @Queue_PushBack nat synchronized_monitor empty_queue 9%nat 8 one_store = Some ((r, queue'), s') /\
    holds s' one_queue [one_item].
Proof.
  apply (@queues_independent nat synchronized_monitor _ empty_queue [] one_queue [one_item] one_store 9%nat 8).
  - exact one_ready.
  - repeat split; [constructor|]. exact (proj2 (proj2 (proj2 one_holds))).
  - exact one_holds.
  - intros a _ Ha. by apply not_elem_of_nil in Ha.
  - done.
Defined.

Lemma push_counts_witness :
  exists r queue' s', @Queue_PushBack nat synchronized_monitor empty_queue 9%nat 20000000 empty_store = Some ((r, queue'), s') /\
    get_count queue_collected (counters_of queue') = 1.
Proof.
  destruct (@push_counts nat synchronized_monitor _ empty_queue empty_store [] 9%nat 20000000 empty_ready empty_holds)
    as (r & q' & s' & H & Hc & _); [done|].
  exists r, q', s'. split; [exact H | exact Hc].
Defined.
