(* ===== verification/SyncQueue.v ===== *)
(** * [synchronized_queue.c]: the queue under a lock

    Every function takes the lock, calls the function of [queue.c], and gives
    the lock back.  The [int] results are those of the queue and one more. *)

From S2P Require Import Prelude TwinDefs World TwinCollectors TwinConfiguration MemoryMonitor Telemetry Queue.
Open Scope Z_scope.

Inductive SyncQueueResult : Type :=
  | QueueResult (r : QueueResultValues)
  | SYNC_QUEUE_LOCK_EXCEPTION.

#[export] Instance SyncQueueResult_eq_dec : EqDecision SyncQueueResult.
Proof. solve_decision. Defined.

Record SyncQueue : Type := mkSyncQueue {
  sq_queue : Queue;
  sq_lock : LOCK_HANDLE;
}.

Section SyncQueue.
Context {D : Type} {Mon : MemoryMonitor}.

(** The shape of every operation.  [failed] is what the out parameters hold when
    the lock is not taken. *)
Definition synchronized {A} (syncQueue : SyncQueue) (failed : A)
    (body : Queue -> M (Store (D := D)) (QueueResultValues * Queue * A))
    : M (Store (D := D)) (SyncQueueResult * SyncQueue * A) :=
  locked <- lift (Lock (sq_lock syncQueue)) ;;
  require locked else (SYNC_QUEUE_LOCK_EXCEPTION, syncQueue, failed) ;;
  let* (result, queue, out) := body (sq_queue syncQueue) in
  unlocked <- lift (Unlock (sq_lock syncQueue)) ;;
  ret (if unlocked then QueueResult result else SYNC_QUEUE_LOCK_EXCEPTION, mkSyncQueue queue (sq_lock syncQueue), out).

(** [old] is the memory that is initialised. *)
Definition SyncQueue_Init (old : SyncQueue) (shouldSendLogs : bool) : M (Store (D := D)) (SyncQueueResult * SyncQueue) :=
  let* (result, queue) := Queue_Init shouldSendLogs (q_counter (sq_queue old)) in
  if decide (result <> QUEUE_OK) then ret (QueueResult result, mkSyncQueue queue (sq_lock old))
  else
    lock <- lift Lock_Init ;;
    match lock with
    | None =>
        queue <- Queue_Deinit 0 queue ;;
        ret (SYNC_QUEUE_LOCK_EXCEPTION, mkSyncQueue queue None)
    | Some _ => ret (QueueResult QUEUE_OK, mkSyncQueue queue lock)
    end.

Definition SyncQueue_Deinit (fuel : nat) (syncQueue : SyncQueue) : M (Store (D := D)) SyncQueue :=
  queue <- Queue_Deinit fuel (sq_queue syncQueue) ;;
  (match sq_lock syncQueue with
   | None => ret tt
   | Some _ => lift (Lock_Deinit (sq_lock syncQueue))
   end) ;;;
  ret (mkSyncQueue queue (sq_lock syncQueue)).

Definition SyncQueue_PushBack (syncQueue : SyncQueue) (data : D) (dataSize : Z) :=
  synchronized syncQueue tt
    (fun queue => let* (r, queue) := Queue_PushBack queue data dataSize in ret (r, queue, tt)).

Definition SyncQueue_PopFront (syncQueue : SyncQueue) :=
  synchronized syncQueue None (fun queue => Queue_PopFront queue).

Definition SyncQueue_PopFrontIf (syncQueue : SyncQueue) (condition : D -> Z -> bool) :=
  synchronized syncQueue None (fun queue => Queue_PopFrontIf queue condition).

Definition SyncQueue_GetSize (syncQueue : SyncQueue) :=
  synchronized syncQueue None
    (fun queue => let* (r, n) := Queue_GetSize queue in ret (r, queue, Some n)).

(** ** Sequences of calls, as for the queue *)

Inductive SyncReply : Type :=
  | SyncPushed (r : SyncQueueResult)
  | SyncPopped (r : SyncQueueResult) (out : option (D * Z))
  | SyncSizeIs (r : SyncQueueResult) (n : option Z).

Definition sync_reply (r : QueueReply (D := D)) : SyncReply :=
  match r with
  | Pushed r => SyncPushed (QueueResult r)
  | Popped r out => SyncPopped (QueueResult r) out
  | SizeIs r n => SyncSizeIs (QueueResult r) (Some n)
  end.

Definition sync_call (c : QueueCall) (syncQueue : SyncQueue) : M (Store (D := D)) (SyncReply * SyncQueue) :=
  match c with
  | Push d n => let* (r, syncQueue, _) := SyncQueue_PushBack syncQueue d n in ret (SyncPushed r, syncQueue)
  | Pop => let* (r, syncQueue, out) := SyncQueue_PopFront syncQueue in ret (SyncPopped r out, syncQueue)
  | PopIf condition =>
      let* (r, syncQueue, out) := SyncQueue_PopFrontIf syncQueue condition in ret (SyncPopped r out, syncQueue)
  | Size => let* (r, syncQueue, n) := SyncQueue_GetSize syncQueue in ret (SyncSizeIs r n, syncQueue)
  end.

Fixpoint run_sync (l : list QueueCall) (syncQueue : SyncQueue) : M (Store (D := D)) (list SyncReply * SyncQueue) :=
  match l with
  | [] => ret ([], syncQueue)
  | c :: l' =>
      let* (r, syncQueue) := sync_call c syncQueue in
      let* (rs, syncQueue) := run_sync l' syncQueue in
      ret (r :: rs, syncQueue)
  end.

(** The queue in a world where the queue's own lock is held. *)
Definition in_section (l : nat) (s : Store) : Store (D := D) :=
  mkStore (set_held ({[l]} ∪ held (st_world s)) (bump 1 (st_world s))) (st_heap s) (next_item s).

(** A synchronized queue that represents [f] and that no thread is using. *)
Definition sync_refines (limit : Z) (syncQueue : SyncQueue) (s : Store) (f : Fifo) : Prop :=
  exists l, sq_lock syncQueue = Some l /\ (l ∉ held (st_world s)) /\
    refines limit (sq_queue syncQueue) (in_section l s) f.

(** ** Lemmas *)

Context {Laws : MemoryMonitorLaws Mon}.

Lemma refines_world limit queue (s s' : Store (D := D)) (f : Fifo (D := D)) :
  refines limit queue s f -> only_monitor (st_world s) (st_world s') ->
  consumption (st_world s') = consumption (st_world s) -> st_heap s' = st_heap s -> next_item s' = next_item s ->
  refines limit queue s' f.
Proof.
  intros (Hq & Hl & Hu & l & Hh & Hi) Ho Hc Hheap Hnext.
  split; [by apply (ready_only_monitor queue queue s)|].
  split; [unfold cache_limit in *; by destruct Ho as (_ & _ & _ & _ & _ & -> & _)|].
  split; [congruence|]. exists l. split; [|done]. by apply (holds_other s s' queue).
Qed.

(** An operation that, inside the section, runs like a call of the queue. *)
Lemma synchronized_run {A} limit syncQueue (s : Store (D := D)) (f : Fifo (D := D)) (failed : A) body r queue' out s1 f' l :
  sq_lock syncQueue = Some l -> l ∉ held (st_world s) -> refines limit (sq_queue syncQueue) (in_section l s) f ->
  body (sq_queue syncQueue) (in_section l s) = Some ((r, queue', out), s1) ->
  only_monitor (st_world (in_section l s)) (st_world s1) -> refines limit queue' s1 f' ->
  exists s', synchronized syncQueue failed body s =
      Some ((QueueResult r, mkSyncQueue queue' (Some l), out), s') /\
    held (st_world s') = held (st_world s) /\ sync_refines limit (mkSyncQueue queue' (Some l)) s' f'.
Proof.
  intros Hl Hh Href Hbody Ho Href'. pose proof Href as ((Hr & _) & _).
  assert (Hr1 : reliable (st_world s1)) by (by eapply only_monitor_reliable).
  pose proof Ho as (He & Hheld & _). cbn [in_section st_world set_held held] in Hheld.
  eexists. split; [|split].
  - unfold synchronized, bind, lift. rewrite Hl, Lock_reliable by done. fold (in_section l s). rewrite Hbody.
    rewrite Unlock_reliable by (done || by rewrite Hheld; apply lock_now_held). reflexivity.
  - cbn. rewrite Hheld. by apply lock_unlock_held.
  - exists l. split; [done|]. split; [cbn; rewrite Hheld, lock_unlock_held by done; done|].
    eapply refines_world; [exact Href' | | done | done | done].
    cbn. rewrite Hheld, lock_unlock_held by done. repeat split; cbn. by rewrite Hheld.
Qed.


Lemma sync_call_refines limit c syncQueue (s : Store (D := D)) (f : Fifo (D := D)) :
  sync_refines limit syncQueue s f -> Z.of_nat (length (items f)) < UINT32_MAX ->
  exists syncQueue' s', sync_call c syncQueue s = Some ((sync_reply (fst (spec_call limit c f)), syncQueue'), s') /\
    held (st_world s') = held (st_world s) /\ sync_refines limit syncQueue' s' (snd (spec_call limit c f)) /\
    (length (items (snd (spec_call limit c f))) <= S (length (items f)))%nat.
Proof.
  intros (l & Hl & Hh & Href) Hlen.
  destruct (call_refines limit c (sq_queue syncQueue) (in_section l s) f Href Hlen)
    as (q' & s1 & Hrun & Href' & Hlen' & Ho).
  destruct (spec_call limit c f) as [reply f'] eqn:Hspec. cbn [fst snd] in *.
  destruct c as [d n | | condition |]; cbn [sync_call run_call spec_call] in *.
  - apply bind_inv in Hrun as ([r q1] & s2 & Hb & [= <- <- <-]).
    edestruct (synchronized_run limit syncQueue s f tt
      (fun queue => let* (r, queue) := Queue_PushBack queue d n in ret (r, queue, tt))) as (s' & Hs & Hs1 & Hs2);
      [exact Hl | exact Hh | exact Href | cbv beta; by rewrite (bind_eq _ _ _ _ _ Hb) | exact Ho | exact Href' |].
    eexists _, s'. unfold SyncQueue_PushBack. rewrite (bind_eq _ _ _ _ _ Hs). by split.
  - apply bind_inv in Hrun as ([[r q1] out] & s2 & Hb & [= <- <- <-]).
    edestruct (synchronized_run limit syncQueue s f (@None (D * Z)) (fun queue => Queue_PopFront queue)) as (s' & Hs & Hs1 & Hs2);
      [exact Hl | exact Hh | exact Href | exact Hb | exact Ho | exact Href' |].
    eexists _, s'. unfold SyncQueue_PopFront. rewrite (bind_eq _ _ _ _ _ Hs). by split.
  - apply bind_inv in Hrun as ([[r q1] out] & s2 & Hb & [= <- <- <-]).
    edestruct (synchronized_run limit syncQueue s f (@None (D * Z)) (fun queue => Queue_PopFrontIf queue condition)) as (s' & Hs & Hs1 & Hs2);
      [exact Hl | exact Hh | exact Href | | exact Ho | exact Href' |].
    { cbv beta. exact Hb. }
    eexists _, s'. unfold SyncQueue_PopFrontIf. rewrite (bind_eq _ _ _ _ _ Hs). by split.
  - apply bind_inv in Hrun as ([r n] & s2 & Hb & [= <- <- <-]).
    edestruct (synchronized_run limit syncQueue s f (@None Z)
      (fun queue => let* (r, n) := Queue_GetSize queue in ret (r, queue, Some n))) as (s' & Hs & Hs1 & Hs2);
      [exact Hl | exact Hh | exact Href | cbv beta; by rewrite (bind_eq _ _ _ _ _ Hb) | exact Ho | exact Href' |].
    eexists _, s'. unfold SyncQueue_GetSize. rewrite (bind_eq _ _ _ _ _ Hs). by split.
Qed.

(** ** Lemmas: several queues in one store *)

(** A synchronized queue that holds [items] and that no thread is using. *)
Definition sync_holds (syncQueue : SyncQueue) (s : Store (D := D)) (items : list (nat * (D * Z))) : Prop :=
  exists l, sq_lock syncQueue = Some l /\ (l ∉ held (st_world s)) /\
    queue_ready (sq_queue syncQueue) (in_section l s) /\ holds s (sq_queue syncQueue) items.

(** What an operation on the queue with [items] leaves as it was. *)
Definition unaffected (items : list (nat * (D * Z))) (s s' : Store (D := D)) : Prop :=
  only_monitor (st_world s) (st_world s') /\ heap_frame items s s' /\ next_item s' = next_item s /\
  forall a, is_Some (st_heap s' !! a) -> (a < next_item s')%nat.

Lemma unaffected_refl (items : list (nat * (D * Z))) (s : Store (D := D)) queue l :
  holds s queue l -> unaffected items s s.
Proof. intros (_ & _ & _ & Hf). split; [apply only_monitor_refl|]. by split. Qed.

Lemma unaffected_trans (l l' : list (nat * (D * Z))) (s s1 s2 : Store (D := D)) :
  unaffected l s s1 -> unaffected l' s1 s2 -> (forall a, a ∈ l'.*1 -> a ∈ l.*1) -> unaffected l s s2.
Proof.
  intros (Ho & Hf & Hn & _) (Ho' & Hf' & Hn' & Hnew) Hin. split; [by eapply only_monitor_trans|].
  split; [|split; [congruence | done]]. intros a Ha Hlt.
  rewrite Hf' by (rewrite ?Hn; done || (intros H; apply Ha, Hin, H)). by apply Hf.
Qed.

Lemma sync_holds_reliable queue (s : Store (D := D)) l : sync_holds queue s l -> reliable (st_world s).
Proof. by intros (lk & _ & _ & (Hr & _) & _). Qed.

(** A call that only takes time. *)
Lemma sync_holds_bump queue (s : Store (D := D)) l n :
  sync_holds queue s l ->
  unaffected l s (mkStore (bump n (st_world s)) (st_heap s) (next_item s)) /\
  sync_holds queue (mkStore (bump n (st_world s)) (st_heap s) (next_item s)) l.
Proof.
  intros (lk & Hl & Hh & Hq & Hholds). split.
  - split; [apply only_monitor_bump|]. split; [done|]. split; [done|]. by destruct Hholds as (_ & _ & _ & Hf).
  - exists lk. split; [done|]. split; [done|]. split; [|done].
    eapply ready_only_monitor; [exact Hq | | done]. by repeat split.
Qed.

Lemma sync_holds_kept syncQueue s s' items1 items :
  sync_holds syncQueue s items -> unaffected items1 s s' -> (forall a, a ∈ items.*1 -> a ∉ items1.*1) ->
  sync_holds syncQueue s' items.
Proof.
  intros (l & Hl & Hh & Hq & (Hlk & Hnd & Hn & Hf)) (Ho & Hframe & Hnext & Hnew) Hdis.
  pose proof Ho as (_ & Hheld & _).
  exists l. split; [done|]. split; [by rewrite Hheld|]. split.
  - eapply ready_only_monitor; [exact Hq | | done]. cbn. rewrite Hheld.
    destruct Ho as (H1 & _ & H3 & H4 & H5 & H6 & H7 & H8). repeat split; cbn; congruence.
  - split; [|by split]. eapply linked_frame; [|exact Hlk]. intros a Ha. apply Hframe; [by apply Hdis|].
    apply Hf. by eapply linked_in.
Qed.

(** An operation that, inside the section, changes nothing but the monitor and
    the queue. *)
Lemma synchronized_holds {A} syncQueue (s : Store (D := D)) items (failed : A) body r queue' out s1 items' l :
  sq_lock syncQueue = Some l -> l ∉ held (st_world s) -> queue_ready (sq_queue syncQueue) (in_section l s) ->
  body (sq_queue syncQueue) (in_section l s) = Some ((r, queue', out), s1) ->
  only_monitor (st_world (in_section l s)) (st_world s1) -> heap_frame items (in_section l s) s1 ->
  next_item s1 = next_item s -> sc_lock (q_counter queue') = sc_lock (q_counter (sq_queue syncQueue)) ->
  holds s1 queue' items' ->
  exists syncQueue' s', synchronized syncQueue failed body s = Some ((QueueResult r, syncQueue', out), s') /\
    sync_holds syncQueue' s' items' /\ unaffected items s s'.
Proof.
  intros Hl Hh Hq Hbody Ho Hframe Hnext Hc Hholds. pose proof Hq as (Hr & _).
  assert (Hr1 : reliable (st_world s1)) by (by eapply only_monitor_reliable).
  pose proof Ho as (He & Hheld & H3 & H4 & H5 & H6 & H7 & H8). cbn [in_section st_world set_held held] in Hheld.
  exists (mkSyncQueue queue' (Some l)). eexists. split; [|split; [|split; [|split; [|split]]]].
  - unfold synchronized, bind, lift. rewrite Hl, Lock_reliable by done. fold (in_section l s). rewrite Hbody.
    rewrite Unlock_reliable by (done || by rewrite Hheld; apply lock_now_held). reflexivity.
  - exists l. cbn [sq_lock sq_queue st_world set_held held]. rewrite Hheld, lock_unlock_held by done.
    split; [done|]. split; [done|]. split.
    + eapply ready_only_monitor; [exact Hq | | exact Hc]. repeat split; cbn in *; congruence.
    + eapply holds_other; [exact Hholds | done ..].
  - cbn in *. repeat split; cbn; try congruence. rewrite Hheld. by apply lock_unlock_held.
  - exact Hframe.
  - exact Hnext.
  - cbn. by destruct Hholds as (_ & _ & _ & Hf).
Qed.

(** The consumption after a queue took these items over. *)
Definition charge_all (n : Z) (new : list (nat * (D * Z))) : Z :=
  foldl (fun n x => u32 (n + Queue_CalculateItemSize (snd (snd x)))) n new.

Lemma charge_all_app n new new' : charge_all n (new ++ new') = charge_all (charge_all n new) new'.
Proof. apply foldl_app. Qed.

(** An operation that may allocate: nothing else of the world changes. *)
Lemma synchronized_keeps {A} syncQueue (s : Store (D := D)) (failed : A) body r queue' out s1 items' l :
  sq_lock syncQueue = Some l -> l ∉ held (st_world s) -> queue_ready (sq_queue syncQueue) (in_section l s) ->
  body (sq_queue syncQueue) (in_section l s) = Some ((r, queue', out), s1) ->
  only_monitor (st_world (in_section l s)) (st_world s1) -> queue_ready queue' s1 -> holds s1 queue' items' ->
  exists syncQueue' s', synchronized syncQueue failed body s = Some ((QueueResult r, syncQueue', out), s') /\
    sync_holds syncQueue' s' items' /\ only_monitor (st_world s) (st_world s') /\
    consumption (st_world s') = consumption (st_world s1).
Proof.
  intros Hl Hh Hq Hbody Ho Hq1 Hholds. pose proof Hq as (Hr & _). pose proof Hq1 as (Hr1 & _).
  pose proof Ho as (He & Hheld & H3 & H4 & H5 & H6 & H7 & H8). cbn [in_section st_world set_held held] in Hheld.
  exists (mkSyncQueue queue' (Some l)). eexists. split; [|split; [|split]].
  - unfold synchronized, bind, lift. rewrite Hl, Lock_reliable by done. fold (in_section l s). rewrite Hbody.
    rewrite Unlock_reliable by (done || by rewrite Hheld; apply lock_now_held). reflexivity.
  - exists l. cbn [sq_lock sq_queue st_world set_held held]. rewrite Hheld, lock_unlock_held by done.
    split; [done|]. split; [done|]. split.
    + eapply ready_only_monitor; [exact Hq1 | | done]. repeat split; cbn in *; congruence.
    + eapply holds_other; [exact Hholds | done ..].
  - repeat split; cbn in *; try congruence. rewrite Hheld. by apply lock_unlock_held.
  - done.
Qed.

Lemma SyncPushBack_run syncQueue s items d n :
  sync_holds syncQueue s items -> Z.of_nat (length items) < UINT32_MAX ->
  exists ok syncQueue' s' b,
    SyncQueue_PushBack syncQueue d n s =
      Some ((QueueResult (if ok : bool then QUEUE_OK else QUEUE_MAX_MEMORY_EXCEEDED), syncQueue', tt), s') /\
    ok = granted (st_world s) (Queue_CalculateItemSize n) /\
    sync_holds syncQueue' s' (items ++ (if ok then [(b, (d, n))] else [])) /\ only_monitor (st_world s) (st_world s') /\
    consumption (st_world s') = charge_all (consumption (st_world s)) (if ok then [(b, (d, n))] else []).
Proof.
  intros (l & Hl & Hh & Hq & Hholds) Hlen. exists (granted (st_world s) (Queue_CalculateItemSize n)).
  assert (Hholds1 : holds (in_section l s) (sq_queue syncQueue) items) by exact Hholds.
  destruct (PushBack_run _ _ _ d n Hq Hholds1 Hlen) as (q1 & s1 & Hp & Hq1 & Hh1 & _ & Ho & Hn & _).
  edestruct (synchronized_keeps syncQueue s tt
    (fun queue => let* (r, queue) := Queue_PushBack queue d n in ret (r, queue, tt)))
    as (q2 & s2 & H & Hs2 & Ho2 & Hn2); [done | done | done | by rewrite (bind_eq _ _ _ _ _ Hp) | done | done | exact Hh1 |].
  exists q2, s2, (next_item (in_section l s)). split; [exact H|]. split; [done|]. split; [|split; [exact Ho2|]].
  - destruct (granted _ _); [exact Hs2 | by rewrite app_nil_r].
  - rewrite Hn2, Hn. by destruct (granted _ _).
Qed.

Lemma sync_locks_ready queue (s : Store (D := D)) items : sync_holds queue s items -> locks_ready (st_world s).
Proof.
  intros (l & _ & _ & (_ & Hm & _) & _). destruct (ready_configuration _ Hm) as [[Hu (k & Hk & Hn)] (j & Hj & Hjn & Hne)].
  assert (Hin : forall x, x ∉ held (st_world (in_section l s)) -> x ∉ held (st_world s))
    by (intros x Hx Hin; apply Hx; cbn; by apply elem_of_union_r).
  split; [split; [exact Hu|]; exists k; split; [exact Hk | by apply Hin]|]. exists j. split; [exact Hj|]. split; [by apply Hin | done].
Qed.

(** Popping under a condition. *)
Lemma SyncPopFrontIf_run syncQueue s items condition :
  sync_holds syncQueue s items -> Z.of_nat (length items) < UINT32_MAX ->
  exists syncQueue' s',
    SyncQueue_PopFrontIf syncQueue condition s =
      Some (match items with
            | [] => (QueueResult QUEUE_IS_EMPTY, syncQueue', None)
            | (_, (d, n)) :: _ => if condition d n then (QueueResult QUEUE_OK, syncQueue', Some (d, n))
                                  else (QueueResult QUEUE_CONDITION_FAILED, syncQueue', None)
            end, s') /\
    sync_holds syncQueue' s' (match items with
                              | [] => []
                              | (_, (d, n)) :: l => if condition d n then l else items
                              end) /\
    unaffected items s s'.
Proof.
  intros (l & Hl & Hh & Hq & Hholds) Hlen. unfold SyncQueue_PopFrontIf.
  assert (Hholds1 : holds (in_section l s) (sq_queue syncQueue) items) by exact Hholds.
  pose proof (PopFrontIf_run (sq_queue syncQueue) (in_section l s) items condition Hholds1 Hlen) as Hp.
  destruct items as [|[a [d n]] items]; [|destruct (condition d n)].
  - eapply synchronized_holds; [done | done | done | exact Hp | auto with monitor | done | done | done | done].
  - pose proof Hq as (Hr & Hm & _).
    destruct (PopFront_run _ _ _ _ _ _ Hr Hm Hholds1) as (q2 & s2 & Hp2 & Hh2 & Hf2 & _ & Hn2 & Hc2 & Ho2 & _);
      [cbn in Hlen; lia|].
    rewrite Hp2 in Hp. eapply synchronized_holds; [done | done | done | exact Hp | done | done | done | | done].
    by rewrite Hc2.
  - eapply synchronized_holds; [done | done | done | exact Hp | auto with monitor | done | done | done | done].
Qed.

Lemma SyncPopFront_run syncQueue s items :
  sync_holds syncQueue s items -> Z.of_nat (length items) < UINT32_MAX ->
  exists syncQueue' s',
    SyncQueue_PopFront syncQueue s =
      Some (match items with
            | [] => (QueueResult QUEUE_IS_EMPTY, syncQueue', None)
            | (_, (d, n)) :: _ => (QueueResult QUEUE_OK, syncQueue', Some (d, n))
            end, s') /\
    sync_holds syncQueue' s' (tail items) /\ unaffected items s s'.
Proof.
  intros Hq Hlen. pose proof Hq as (l & Hl & Hh & (Hr & _) & Hholds).
  assert (E : SyncQueue_PopFront syncQueue s = SyncQueue_PopFrontIf syncQueue (fun _ _ => true) s).
  { unfold SyncQueue_PopFront, SyncQueue_PopFrontIf, synchronized, bind, lift. rewrite Hl, Lock_reliable by done.
    fold (in_section l s). by rewrite (PopFront_as_If _ (in_section l s) items). }
  rewrite E. destruct (SyncPopFrontIf_run syncQueue s items (fun _ _ => true) Hq Hlen) as (q & s' & H & H' & Hu).
  exists q, s'. rewrite H. by destruct items as [|[a [d n]] items].
Qed.

(** The queue does not depend on the configuration that an update replaces. *)
Lemma sync_holds_configured syncQueue s items w :
  sync_holds syncQueue s items -> locks_ready w -> rest_kept (st_world s) w -> held w = held (st_world s) ->
  tc_lock (twinConfiguration w) = tc_lock (twinConfiguration (st_world s)) ->
  ev_lock (eventPriorities w) = ev_lock (eventPriorities (st_world s)) ->
  sync_holds syncQueue (mkStore w (st_heap s) (next_item s)) items.
Proof.
  intros (l & Hl & Hh & (Hr & Hm & Hc) & Hholds) [[Hi (le & Hle & Hhe)] (lt & Hlt & Hht & Hd)] (He & _ & Hmem & _) Hheld Ht Hev.
  exists l. cbn [st_world]. rewrite Hheld. split; [done|]. split; [done|].
  split; [|eapply holds_other; [exact Hholds | done ..]].
  split; [|split].
  - unfold reliable in *. cbn in *. by rewrite He.
  - destruct (ready_configuration _ Hm) as [[_ (le' & Hle' & Hhe')] (lt' & Hlt' & Hht' & Hd')].
    cbn [in_section st_world set_held bump set_tick held twinConfiguration eventPriorities] in *.
    eapply ready_locks; [exact Hm | | cbn; by rewrite Hheld | exact Hmem | exact Ht | exact Hev].
    split; [split; [exact Hi|] |]; cbn [in_section st_world set_held bump set_tick held twinConfiguration eventPriorities].
    + exists le'. rewrite Hev, Hheld. by split.
    + exists lt'. rewrite Ht, Hheld, Hev. by split.
  - unfold counter_ready, free_lock in *. cbn in *. by rewrite Hheld.
Qed.

Lemma SyncGetSize_run syncQueue s items :
  sync_holds syncQueue s items ->
  exists syncQueue' s',
    SyncQueue_GetSize syncQueue s =
      Some ((QueueResult QUEUE_OK, syncQueue', Some (Z.of_nat (length items))), s') /\
    sync_holds syncQueue' s' items /\ unaffected items s s'.
Proof.
  intros (l & Hl & Hh & Hq & Hholds). unfold SyncQueue_GetSize. pose proof Hholds as (_ & _ & <- & _).
  eapply synchronized_holds; [done | done | done | reflexivity | auto with monitor | done | done | done | done].
Qed.

(** ** Properties *)

(** C2: The synchronized queue implements the same bounded first-in first-out
    queue: for every sequence of calls without lock failures, the replies are
    those of the specification, and after every call the lock is free. *)
Theorem sync_queue_refines_fifo limit l syncQueue (s : Store (D := D)) (f : Fifo (D := D)) :
  sync_refines limit syncQueue s f -> Z.of_nat (length (items f)) + Z.of_nat (length l) <= UINT32_MAX ->
  exists syncQueue' s',
    run_sync l syncQueue s = Some ((map sync_reply (fst (spec_run limit l f)), syncQueue'), s') /\
    held (st_world s') = held (st_world s) /\ sync_refines limit syncQueue' s' (snd (spec_run limit l f)).
Proof.
  revert syncQueue s f. induction l as [|c l IH]; intros syncQueue s f Href Hlen; [by exists syncQueue, s|].
  cbn [length] in Hlen.
  destruct (sync_call_refines limit c syncQueue s f Href) as (q1 & s1 & H1 & Hh1 & Hr1 & Hl1); [lia|].
  cbn [run_sync spec_run]. rewrite (bind_eq _ _ _ _ _ H1).
  destruct (spec_call limit c f) as [r f1]. cbn [fst snd] in *.
  destruct (IH q1 s1 f1 Hr1) as (q2 & s2 & H2 & Hh2 & Hr2); [lia|]. rewrite (bind_eq _ _ _ _ _ H2).
  destruct (spec_run limit l f1) as [rs f2]. exists q2, s2. split; [done|]. split; [congruence | done].
Qed.

(** When the lock cannot be taken nothing happens; when it cannot be given
    back, the operation has been carried out all the same, so that a push
    reports a failure for an item that is in the queue. *)
Theorem lock_failures syncQueue (s : Store (D := D)) d n l queue' s1 :
  sq_lock syncQueue = Some l -> l ∉ held (st_world s) ->
  (env_ok (env (st_world s)) (tick (st_world s)) = false ->
   exists s', SyncQueue_PushBack syncQueue d n s = Some ((SYNC_QUEUE_LOCK_EXCEPTION, syncQueue, tt), s') /\
     st_heap s' = st_heap s) /\
  (env_ok (env (st_world s)) (tick (st_world s)) = true ->
   Queue_PushBack (sq_queue syncQueue) d n (in_section l s) = Some ((QUEUE_OK, queue'), s1) ->
   l ∈ held (st_world s1) -> env_ok (env (st_world s1)) (tick (st_world s1)) = false ->
   exists s', SyncQueue_PushBack syncQueue d n s =
       Some ((SYNC_QUEUE_LOCK_EXCEPTION, mkSyncQueue queue' (Some l), tt), s') /\
     st_heap s' = st_heap s1 /\ l ∈ held (st_world s')).
Proof.
  intros Hl Hh. split.
  - intros He. eexists. unfold SyncQueue_PushBack, synchronized, bind, lift. rewrite Hl, Lock_cases, He by done.
    split; [reflexivity | done].
  - intros He Hp Hin He1. eexists. unfold SyncQueue_PushBack, synchronized, bind, lift.
    rewrite Hl, Lock_cases, He by done. fold (in_section l s). rewrite Hp. cbn [ret].
    unfold ret. rewrite Unlock_cases, He1 by done. split; [reflexivity|]. split; [done | exact Hin].
Qed.

End SyncQueue.

(** ** Witnesses *)

Definition empty_sync : SyncQueue := mkSyncQueue empty_queue (Some 8%nat).

Lemma empty_section_ready : @queue_ready nat synchronized_monitor empty_queue (in_section 8 empty_store).
Proof.
  assert (H : forall n, n <> 8%nat -> n ∉ held (st_world (in_section 8 empty_store))).
  { intros n Hn. cbn. intros [->%elem_of_singleton | Hx%not_elem_of_empty]%elem_of_union; done. }
  split; [exact good_reliable|]. split.
  - split.
    + split; [split; [done|]; exists 1%nat; split; [done | by apply H]|]. exists 0%nat.
      split; [done|]. split; [by apply H | done].
    + exists 2%nat. split; [done|]. split; [by apply H | done].
  - exists 7%nat. split; [done | by apply H].
Qed.

Lemma empty_sync_refines :
  @sync_refines nat synchronized_monitor DEFAULT_MAX_LOCAL_CACHE_SIZE empty_sync empty_store (mkFifo [] 0).
Proof.
  exists 8%nat. split; [done|]. split; [apply not_elem_of_empty|].
  split; [exact empty_section_ready|]. split; [done|]. split; [done|]. exists []. split; [exact empty_holds | done].
Qed.

Lemma sync_queue_refines_fifo_witness :
  exists syncQueue' s',
    @run_sync nat synchronized_monitor [Push 1%nat 100; Push 2%nat 7; Pop; Size] empty_sync empty_store
    = Some (([SyncPushed (QueueResult QUEUE_OK); SyncPushed (QueueResult QUEUE_OK);
              SyncPopped (QueueResult QUEUE_OK) (Some (1%nat, 100)); SyncSizeIs (QueueResult QUEUE_OK) (Some 1)],
             syncQueue'), s').
Proof.
  destruct (@sync_queue_refines_fifo nat synchronized_monitor _ DEFAULT_MAX_LOCAL_CACHE_SIZE
    [Push 1%nat 100; Push 2%nat 7; Pop; Size] empty_sync empty_store (mkFifo [] 0) empty_sync_refines)
    as (q' & s' & H & _); [by vm_compute|].
  exists q', s'. exact H.
Defined.

(** A store in whose environment only the call at tick [bad] fails. *)
Definition failing_store (bad : nat) : Store (D := nat) := mkStore (running_world (failing_env bad)) ∅ 0.

Lemma lock_failures_witness :
  exists s', @SyncQueue_PushBack nat plain_monitor empty_sync 1%nat 100 (failing_store 0)
             = Some ((SYNC_QUEUE_LOCK_EXCEPTION, empty_sync, tt), s').
Proof.
  destruct (@lock_failures nat plain_monitor empty_sync (failing_store 0) 1%nat 100 8%nat empty_queue (failing_store 0)
    eq_refl (not_elem_of_empty _)) as [H _].
  destruct (H eq_refl) as (s' & H1 & _). exists s'. exact H1.
Defined.
