(* ===== verification/Schema.v ===== *)
(** * [message_schema_consts.c]: keys and names of the message schema *)

From Stdlib Require Import String.
#[local] Open Scope string_scope.

Definition PAYLOAD_KEY : string := "Payload".
Definition EVENTS_KEY : string := "Events".
Definition AGENT_VERSION_KEY : string := "AgentVersion".
Definition AGENT_ID_KEY : string := "AgentId".
Definition MESSAGE_SCHEMA_VERSION_KEY : string := "MessageSchemaVersion".
Definition HUB_RESOURCE_ID_PROPERTY_KEY : string := "HubResourceId".
Definition EXTRA_DETAILS_KEY : string := "ExtraDetails".
Definition EVENT_CATEGORY_KEY : string := "Category".
Definition EVENT_PERIODIC_CATEGORY : string := "Periodic".
Definition EVENT_TRIGGERED_CATEGORY : string := "Triggered".
Definition EVENT_AGGREGATED_CATEGORY : string := "Aggregated".
Definition EVENT_IS_EMPTY_KEY : string := "IsEmpty".
Definition EVENT_NAME_KEY : string := "Name".
Definition EVENT_TYPE_KEY : string := "EventType".
Definition EVENT_PAYLOAD_SCHEMA_VERSION_KEY : string := "PayloadSchemaVersion".
Definition EVENT_ID_KEY : string := "Id".
Definition EVENT_LOCAL_TIMESTAMP_KEY : string := "TimestampLocal".
Definition EVENT_UTC_TIMESTAMP_KEY : string := "TimestampUTC".
Definition EVENT_TYPE_SECURITY_VALUE : string := "Security".
Definition EVENT_TYPE_OPERATIONAL_VALUE : string := "Operational".
Definition EVENT_TYPE_DIAGNOSTIC_VALUE : string := "Diagnostic".
Definition PROCESS_CREATION_NAME : string := "ProcessCreate".
Definition PROCESS_CREATION_PAYLOAD_SCHEMA_VERSION : string := "1.0".
Definition PROCESS_CREATION_EXECUTABLE_KEY : string := "Executable".
Definition PROCESS_CREATION_EXECUTABLE_HASH_KEY : string := "Hash".
Definition PROCESS_CREATION_PROCESS_ID_KEY : string := "ProcessId".
Definition PROCESS_CREATION_PARENT_PROCESS_ID_KEY : string := "ParentProcessId".
Definition PROCESS_CREATION_USER_ID_KEY : string := "UserId".
Definition PROCESS_CREATION_COMMAND_LINE_KEY : string := "CommandLine".
Definition LOCAL_USERS_NAME : string := "LocalUsers".
Definition LOCAL_USERS_PAYLOAD_SCHEMA_VERSION : string := "1.0".
Definition LOCAL_USERS_USER_NAME_KEY : string := "UserName".
Definition LOCAL_USERS_USER_ID_KEY : string := "UserId".
Definition LOCAL_USERS_GROUP_NAMES_KEY : string := "GroupNames".
Definition LOCAL_USERS_GROUP_IDS_KEY : string := "GroupIds".
Definition LOCAL_USERS_PAYLOAD_DELIMITER : string := ";".
Definition USER_LOGIN_NAME : string := "Login".
Definition USER_LOGIN_PAYLOAD_SCHEMA_VERSION : string := "1.0".
Definition USER_LOGIN_PROCESS_ID_KEY : string := "ProcessId".
Definition USER_LOGIN_USER_ID_KEY : string := "UserId".
Definition USER_LOGIN_USERNAME_KEY : string := "UserName".
Definition USER_LOGIN_EXECUTABLE_KEY : string := "Executable".
Definition USER_LOGIN_RESULT_KEY : string := "Result".
Definition USER_LOGIN_RESULT_SUCCESS_VALUE : string := "Success".
Definition USER_LOGIN_RESULT_FAILED_VALUE : string := "Fail".
Definition USER_LOGIN_REMOTE_ADDRESS_KEY : string := "RemoteAddress".
Definition USER_LOGIN_OPERATION_KEY : string := "Operation".
Definition CONNECTION_CREATION_NAME : string := "ConnectionCreate".
Definition CONNECTION_CREATION_PAYLOAD_SCHEMA_VERSION : string := "1.0".
Definition CONNECTION_CREATION_EXECUTABLE_KEY : string := "Executable".
Definition CONNECTION_CREATION_COMMAND_LINE_KEY : string := "CommandLine".
Definition CONNECTION_CREATION_PROCESS_ID_KEY : string := "ProcessId".
Definition CONNECTION_CREATION_USER_ID_KEY : string := "UserId".
Definition CONNECTION_CREATION_PROTOCOL_KEY : string := "Protocol".
Definition CONNECTION_CREATION_REMOTE_ADDRESS_KEY : string := "RemoteAddress".
Definition CONNECTION_CREATION_REMOTE_PORT_KEY : string := "RemotePort".
Definition CONNECTION_CREATION_DIRECTION_KEY : string := "Direction".
Definition CONNECTION_CREATION_DIRECTION_INBOUND_NAME : string := "In".
Definition CONNECTION_CREATION_DIRECTION_OUTBOUND_NAME : string := "Out".
Definition DIAGNOSTIC_MESSAGE_KEY : string := "Message".
Definition DIAGNOSTIC_SEVERITY_KEY : string := "Severity".
Definition DIAGNOSTIC_PROCESSID_KEY : string := "ProcessId".
Definition DIAGNOSTIC_THREAD_KEY : string := "ThreadId".
Definition DIAGNOSTIC_CORRELATION_KEY : string := "CorrelationId".
Definition DIAGNOSTIC_SEVERITY_DEBUG_VALUE : string := "Debug".
Definition DIAGNOSTIC_SEVERITY_INFORMATION_VALUE : string := "Information".
Definition DIAGNOSTIC_SEVERITY_WARNING_VALUE : string := "Warning".
Definition DIAGNOSTIC_SEVERITY_ERROR_VALUE : string := "Error".
Definition DIAGNOSTIC_SEVERITY_FATAL_VALUE : string := "Fatal".
Definition DIAGNOSTIC_NAME : string := "Diagnostic".
Definition DIAGNOSTIC_PAYLOAD_SCHEMA_VERSION : string := "1.0".
Definition AGENT_TELEMETRY_COLLECTED_EVENTS_KEY : string := "CollectedEvents".
Definition AGENT_TELEMETRY_DROPPED_EVENTS_KEY : string := "DroppedEvents".
Definition AGENT_TELEMETRY_DROPPED_EVENTS_NAME : string := "DroppedEventsStatistics".
Definition AGENT_TELEMETRY_DROPPED_EVENTS_SCHEMA_VERSION : string := "1.0".
Definition AGENT_TELEMETRY_MESSAGE_STATISTICS_NAME : string := "MessageStatistics".
Definition AGENT_TELEMETRY_MESSAGE_STATISTICS_SCHEMA_VERSION : string := "1.0".
Definition AGENT_TELEMETRY_MESSAGES_FAILED_KEY : string := "TotalFailed".
Definition AGENT_TELEMETRY_MESSAGES_SENT_KEY : string := "MessagesSent".
Definition AGENT_TELEMETRY_MESSAGES_UNDER_4KB_KEY : string := "MessagesUnder4KB".
Definition AGENT_TELEMETRY_QUEUE_EVENTS_KEY : string := "Queue".
Definition AGENT_CONFIGURATION_ERROR_CONFIGURATION_NAME_KEY : string := "ConfigurationName".
Definition AGENT_CONFIGURATION_ERROR_ERROR_KEY : string := "ErrorType".
Definition AGENT_CONFIGURATION_ERROR_EVENT_NAME : string := "ConfigurationError".
Definition AGENT_CONFIGURATION_ERROR_EVENT_SCHEMA_VERSION : string := "1.0".
Definition AGENT_CONFIGURATION_ERROR_MESSAGE_KEY : string := "Message".
Definition AGENT_CONFIGURATION_ERROR_USED_CONFIGURATION_KEY : string := "UsedConfiguration".
Definition SYSTEM_INFORMATION_NAME : string := "SystemInformation".
Definition SYSTEM_INFORMATION_PAYLOAD_SCHEMA_VERSION : string := "1.0".
Definition SYSTEM_INFORMATION_OS_NAME_KEY : string := "OSName".
Definition SYSTEM_INFORMATION_OS_VERSION_KEY : string := "OSVersion".
Definition SYSTEM_INFORMATION_OS_ARCHITECTURE_KEY : string := "OsArchitecture".
Definition SYSTEM_INFORMATION_HOST_NAME_KEY : string := "HostName".
Definition SYSTEM_INFORMATION_TOTAL_PHYSICAL_MEMORY_KEY : string := "TotalPhysicalMemoryInKB".
Definition SYSTEM_INFORMATION_FREE_PHYSICAL_MEMORY_KEY : string := "FreePhysicalMemoryInKB".
Definition LISTENING_PORTS_NAME : string := "ListeningPorts".
Definition LISTENING_PORTS_PAYLOAD_SCHEMA_VERSION : string := "1.0".
Definition LISTENING_PORTS_PROTOCOL_KEY : string := "Protocol".
Definition LISTENING_PORTS_LOCAL_ADDRESS_KEY : string := "LocalAddress".
Definition LISTENING_PORTS_LOCAL_PORT_KEY : string := "LocalPort".
Definition LISTENING_PORTS_REMOTE_ADDRESS_KEY : string := "RemoteAddress".
Definition LISTENING_PORTS_REMOTE_PORT_KEY : string := "RemotePort".
Definition LISTENING_PORTS_PID_KEY : string := "Pid".
Definition FIREWALL_RULES_NAME : string := "FirewallConfiguration".
Definition FIREWALL_RULES_PAYLOAD_SCHEMA_VERSION : string := "1.0".
Definition FIREWALL_RULES_ENABLED_KEY : string := "Enabled".
Definition FIREWALL_RULES_ACTION_KEY : string := "Action".
Definition FIREWALL_RULES_PROTOCOL_KEY : string := "Protocol".
Definition FIREWALL_RULES_CHAIN_NAME_KEY : string := "ChainName".
Definition FIREWALL_RULES_DIRECTION_KEY : string := "Direction".
Definition FIREWALL_RULES_PRIORITY_KEY : string := "Priority".
Definition FIREWALL_RULES_SRC_ADDRESS_KEY : string := "SourceAddress".
Definition FIREWALL_RULES_SRC_PORT_KEY : string := "SourcePort".
Definition FIREWALL_RULES_DEST_ADDRESS_KEY : string := "DestinationAddress".
Definition FIREWALL_RULES_DEST_PORT_KEY : string := "DestinationPort".
Definition BASELINE_NAME : string := "OSBaseline".
Definition BASELINE_PAYLOAD_SCHEMA_VERSION : string := "1.0".
Definition BASELINE_DESCRIPTION_KEY : string := "Description".
Definition BASELINE_CCEID_KEY : string := "CceId".
Definition BASELINE_RESULT_KEY : string := "Result".
Definition BASELINE_ERROR_KEY : string := "Error".
Definition BASELINE_SEVERITY_KEY : string := "Severity".
