(* ===== verification/MessageSerializer.v ===== *)
(** * [message_serializer.c]: packing queued events into one security message

    Events are popped from the queues in order, as long as the next one fits
    into the maximal message size, parsed, and appended to the message's array.
    The specification [take_events] says which events a queue gives up. *)

From S2P Require Import Prelude TwinDefs World Parson ParsonModel Json TwinCollectors TwinConfiguration MemoryMonitor Telemetry Queue SyncQueue Schema.
From Stdlib Require Import String.
Open Scope Z_scope.

Inductive MessageSerializerResultValues : Type :=
  | MESSAGE_SERIALIZER_OK
  | MESSAGE_SERIALIZER_MEMORY_EXCEEDED
  | MESSAGE_SERIALIZER_EMPTY
  | MESSAGE_SERIALIZER_PARTIAL
  | MESSAGE_SERIALIZER_EXCEPTION.

#[export] Instance MessageSerializerResultValues_eq_dec : EqDecision MessageSerializerResultValues.
Proof. solve_decision. Defined.

(** The data of the queues are the texts of events. *)
Section Serializer.
Context {P : Parson} {Mon : MemoryMonitor}.

Definition sizeLimitationCondition (currentMessageSize maxMessageSize : Z) (_ : string) (size : Z) : bool :=
  u32 (currentMessageSize + size) <? maxMessageSize.

(** Returns also the queue, the array and the current size as they are left. *)
Definition MessageSerializer_AddSingleEvent (queue : SyncQueue) (eventsArray : JsonArrayWriter)
    (currentMessageSize maxMessageSize : Z)
    : M (Store (D := string)) (MessageSerializerResultValues * SyncQueue * JsonArrayWriter * Z) :=
  let* (queueResult, queue, out) :=
    SyncQueue_PopFrontIf queue (sizeLimitationCondition currentMessageSize maxMessageSize) in
  match queueResult, out with
  | QueueResult QUEUE_IS_EMPTY, _ => ret (MESSAGE_SERIALIZER_EMPTY, queue, eventsArray, currentMessageSize)
  | QueueResult QUEUE_CONDITION_FAILED, _ =>
      ret (MESSAGE_SERIALIZER_MEMORY_EXCEEDED, queue, eventsArray, currentMessageSize)
  | QueueResult QUEUE_OK, Some (data, dataSize) =>
      let* (r, eventWriter) := lift (JsonObjectWriter_InitFromString data) in
      match r, eventWriter with
      | JSON_WRITER_OK, Some eventWriter =>
          match JsonArrayWriter_AddObject eventsArray eventWriter with
          | (JSON_WRITER_OK, eventsArray, _) =>
              ret (MESSAGE_SERIALIZER_OK, queue, eventsArray, u32 (currentMessageSize + dataSize))
          | (_, eventsArray, _) => ret (MESSAGE_SERIALIZER_EXCEPTION, queue, eventsArray, currentMessageSize)
          end
      | _, _ => ret (MESSAGE_SERIALIZER_EXCEPTION, queue, eventsArray, currentMessageSize)
      end
  | _, _ => ret (MESSAGE_SERIALIZER_EXCEPTION, queue, eventsArray, currentMessageSize)
  end.

(** The [while] loop, with the size of the queue read before the round. *)
Fixpoint AddEvents_loop (fuel : nat) (queue : SyncQueue) (eventsArray : JsonArrayWriter)
    (queueSize currentMessageSize maxMessageSize : Z)
    : M (Store (D := string)) (MessageSerializerResultValues * SyncQueue * JsonArrayWriter * Z) :=
  if (0 <? queueSize) && (currentMessageSize <? maxMessageSize) then
    match fuel with
    | O => undefined
    | S fuel =>
        let* (result, queue, eventsArray, currentMessageSize) :=
          MessageSerializer_AddSingleEvent queue eventsArray currentMessageSize maxMessageSize in
        match result with
        | MESSAGE_SERIALIZER_MEMORY_EXCEEDED | MESSAGE_SERIALIZER_EMPTY =>
            ret (MESSAGE_SERIALIZER_OK, queue, eventsArray, currentMessageSize)
        | MESSAGE_SERIALIZER_OK =>
            let* (r, queue, size) := SyncQueue_GetSize queue in
            match r, size with
            | QueueResult QUEUE_OK, Some queueSize =>
                AddEvents_loop fuel queue eventsArray queueSize currentMessageSize maxMessageSize
            | _, _ => ret (MESSAGE_SERIALIZER_EXCEPTION, queue, eventsArray, currentMessageSize)
            end
        | _ => ret (MESSAGE_SERIALIZER_EXCEPTION, queue, eventsArray, currentMessageSize)
        end
    end
  else ret (MESSAGE_SERIALIZER_OK, queue, eventsArray, currentMessageSize).

Definition MessageSerializer_AddEventsFromQueue (fuel : nat) (queue : SyncQueue) (eventsArray : JsonArrayWriter)
    (currentMessageSize maxMessageSize : Z)
    : M (Store (D := string)) (MessageSerializerResultValues * SyncQueue * JsonArrayWriter * Z) :=
  let* (r, queue, size) := SyncQueue_GetSize queue in
  match r, size with
  | QueueResult QUEUE_OK, Some queueSize =>
      AddEvents_loop fuel queue eventsArray queueSize currentMessageSize maxMessageSize
  | _, _ => ret (MESSAGE_SERIALIZER_EXCEPTION, queue, eventsArray, currentMessageSize)
  end.

(** The [for] loop over the queues. *)
Fixpoint AddQueues (fuel : nat) (queues : list SyncQueue) (eventsArray : JsonArrayWriter)
    (currentMessageSize maxMessageSize : Z) (result : MessageSerializerResultValues)
    : M (Store (D := string)) (MessageSerializerResultValues * list SyncQueue * JsonArrayWriter * Z) :=
  match queues with
  | [] => ret (result, [], eventsArray, currentMessageSize)
  | queue :: queues =>
      let* (result, queue, eventsArray, currentMessageSize) :=
        (if currentMessageSize <? maxMessageSize then
           let* (r, queue, eventsArray, currentMessageSize) :=
             MessageSerializer_AddEventsFromQueue fuel queue eventsArray currentMessageSize maxMessageSize in
           ret (if decide (r <> MESSAGE_SERIALIZER_OK) then MESSAGE_SERIALIZER_PARTIAL else result,
                queue, eventsArray, currentMessageSize)
         else ret (result, queue, eventsArray, currentMessageSize)) in
      let* (result, queues, eventsArray, currentMessageSize) :=
        AddQueues fuel queues eventsArray currentMessageSize maxMessageSize result in
      ret (result, queue :: queues, eventsArray, currentMessageSize)
  end.

(** The [cleanup:] label: a message without bytes is empty, whatever happened. *)
Definition list_result (currentMessageSize : Z) (result : MessageSerializerResultValues) : MessageSerializerResultValues :=
  if currentMessageSize =? 0 then MESSAGE_SERIALIZER_EMPTY else result.

Definition MessageSerializer_GenerateEventList (fuel : nat) (queues : list SyncQueue) (parentObj : JsonObjectWriter)
    : M (Store (D := string)) (MessageSerializerResultValues * list SyncQueue * JsonObjectWriter) :=
  match queues with
  | [] => ret (list_result 0 MESSAGE_SERIALIZER_OK, queues, parentObj)
  | _ :: _ =>
      let* (r, maxMessageSize) := lift TwinConfiguration_GetMaxMessageSize in
      match r, maxMessageSize with
      | TWIN_OK, Some maxMessageSize =>
          let* (r, eventsArray) := lift JsonArrayWriter_Init in
          match r, eventsArray with
          | JSON_WRITER_OK, Some eventsArray =>
              let* (result, queues, eventsArray, currentMessageSize) :=
                AddQueues fuel queues eventsArray 0 maxMessageSize MESSAGE_SERIALIZER_OK in
              match JsonObjectWriter_WriteArray parentObj EVENTS_KEY eventsArray with
              | (JSON_WRITER_OK, parentObj, _) => ret (list_result currentMessageSize result, queues, parentObj)
              | (_, parentObj, _) =>
                  ret (list_result currentMessageSize MESSAGE_SERIALIZER_EXCEPTION, queues, parentObj)
              end
          | _, _ => ret (list_result 0 MESSAGE_SERIALIZER_EXCEPTION, queues, parentObj)
          end
      | _, _ => ret (list_result 0 MESSAGE_SERIALIZER_EXCEPTION, queues, parentObj)
      end
  end.

(** The three strings written at the head of the message, up to the first that fails. *)
Definition write_head (agentId : string) (w : JsonObjectWriter) : JsonWriterResult * JsonObjectWriter :=
  match JsonObjectWriter_WriteString w AGENT_VERSION_KEY AGENT_VERSION with
  | (JSON_WRITER_OK, w) =>
      match JsonObjectWriter_WriteString w AGENT_ID_KEY agentId with
      | (JSON_WRITER_OK, w) => JsonObjectWriter_WriteString w MESSAGE_SCHEMA_VERSION_KEY DEFAULT_MESSAGE_SCHEMA_VERSION
      | r => r
      end
  | r => r
  end.

(** [agentId] is the result of [LocalConfiguration_GetAgentId]; [*buffer] is null
    before the call.  Returns the text in [*buffer]. *)
Definition MessageSerializer_CreateSecurityMessage (fuel : nat) (agentId : string) (queues : list SyncQueue)
    : M (Store (D := string)) (MessageSerializerResultValues * list SyncQueue * option string) :=
  let* (r, securityMessageWriter) := lift JsonObjectWriter_Init in
  match r, securityMessageWriter with
  | JSON_WRITER_OK, Some securityMessageWriter =>
      match write_head agentId securityMessageWriter with
      | (JSON_WRITER_OK, securityMessageWriter) =>
          let* (result, queues, securityMessageWriter) :=
            MessageSerializer_GenerateEventList fuel queues securityMessageWriter in
          match result with
          | MESSAGE_SERIALIZER_OK | MESSAGE_SERIALIZER_PARTIAL =>
              match JsonObjectWriter_Serialize securityMessageWriter with
              | (JSON_WRITER_OK, Some (text, _)) => ret (result, queues, Some text)
              | (_, _) => ret (MESSAGE_SERIALIZER_EXCEPTION, queues, None)
              end
          | _ => ret (result, queues, None)
          end
      | (_, _) => ret (MESSAGE_SERIALIZER_EXCEPTION, queues, None)
      end
  | _, _ => ret (MESSAGE_SERIALIZER_EXCEPTION, queues, None)
  end.

(** ** Specification *)

(** The document of an event's text, when it is a JSON object. *)
Definition parse_event (text : string) : option Doc :=
  doc ← json_parse_string text;
  _ ← json_value_get_object doc (json_root doc);
  Some doc.

(** The array with one more event. *)
Definition append_event (a : JsonArrayWriter) (text : string) : option JsonArrayWriter :=
  event ← parse_event text;
  doc ← json_array_append_value (aw_rootValue a) (aw_rootArray a) event;
  Some (mkArrayWriter doc (aw_rootArray a) (aw_shouldFree a)).

(** The outcome of taking events from a queue: what was popped, what is left,
    the array, the size, and whether all that was popped was appended. *)
Record Taken : Type := mkTaken {
  tk_popped : list (string * Z);
  tk_left : list (string * Z);
  tk_array : JsonArrayWriter;
  tk_size : Z;
  tk_ok : bool;
}.

Fixpoint take_events (max : Z) (queue : list (string * Z)) (a : JsonArrayWriter) (size : Z) : Taken :=
  match queue with
  | [] => mkTaken [] [] a size true
  | (text, n) :: rest =>
      if (size <? max) && (u32 (size + n) <? max) then
        match append_event a text with
        | None => mkTaken [(text, n)] rest a size false
        | Some a' =>
            let t := take_events max rest a' (u32 (size + n)) in
            mkTaken ((text, n) :: tk_popped t) (tk_left t) (tk_array t) (tk_size t) (tk_ok t)
        end
      else mkTaken [] queue a size true
  end.

(** The queues one after the other. *)
Fixpoint take_queues (max : Z) (queues : list (list (string * Z))) (a : JsonArrayWriter) (size : Z)
    : list (list (string * Z)) * JsonArrayWriter * Z * bool :=
  match queues with
  | [] => ([], a, size, true)
  | q :: queues =>
      let t := if size <? max then take_events max q a size else mkTaken [] q a size true in
      let '(remaining, a, size, ok) := take_queues max queues (tk_array t) (tk_size t) in
      (tk_left t :: remaining, a, size, tk_ok t && ok)
  end.

(** The message made of the head [w], the events in [a] of [size] bytes, and
    whether all popped events are in it. *)
Definition spec_message (w : JsonObjectWriter) (a : JsonArrayWriter) (size : Z) (ok : bool)
    : MessageSerializerResultValues * option string :=
  if size =? 0 then (MESSAGE_SERIALIZER_EMPTY, None)
  else
    match JsonObjectWriter_WriteArray w EVENTS_KEY a with
    | (JSON_WRITER_OK, w, _) =>
        match JsonObjectWriter_Serialize w with
        | (JSON_WRITER_OK, Some (text, _)) =>
            (if ok then MESSAGE_SERIALIZER_OK else MESSAGE_SERIALIZER_PARTIAL, Some text)
        | _ => (MESSAGE_SERIALIZER_EXCEPTION, None)
        end
    | _ => (MESSAGE_SERIALIZER_EXCEPTION, None)
    end.

(** The queues of the array, each with what it holds, no item in two of them. *)
Fixpoint queues_hold (s : Store (D := string)) (queues : list SyncQueue) (contents : list (list (nat * (string * Z)))) : Prop :=
  match queues, contents with
  | [], [] => True
  | q :: queues, l :: contents =>
      sync_holds q s l /\ Z.of_nat (List.length l) < UINT32_MAX /\
      (forall l' a, l' ∈ contents -> a ∈ l'.*1 -> a ∉ l.*1) /\ queues_hold s queues contents
  | _, _ => False
  end.

(** ** Lemmas *)

Context {Laws : MemoryMonitorLaws Mon}.

Lemma WriterInit_run text w :
  reliable w ->
  JsonObjectWriter_InitFromString text w =
  Some (match parse_event text with
        | Some doc =>
            (JSON_WRITER_OK,
             o ← json_value_get_object doc (json_root doc); Some (mkWriter doc o true))
        | None => (JSON_WRITER_EXCEPTION, None)
        end, bump 1 w) /\
  forall doc, parse_event text = Some doc -> is_Some (json_value_get_object doc (json_root doc)).
Proof.
  intros Hr. unfold JsonObjectWriter_InitFromString, bind, parse_event. rewrite malloc_reliable by done.
  destruct (json_parse_string text) as [doc|]; [|done]. cbn.
  destruct (json_value_get_object doc (json_root doc)) as [o|] eqn:E; [|done]. cbn. rewrite E. split; [done|].
  intros ? [= <-]. rewrite E. eauto.
Qed.

(** One round, when the next event fits. *)
Lemma AddSingleEvent_fits queue s a text n l arr size max :
  sync_holds queue s ((a, (text, n)) :: l) -> Z.of_nat (List.length ((a, (text, n)) :: l)) < UINT32_MAX ->
  (u32 (size + n) <? max) = true ->
  exists queue' s',
    MessageSerializer_AddSingleEvent queue arr size max s =
      Some (match append_event arr text with
            | Some arr' => (MESSAGE_SERIALIZER_OK, queue', arr', u32 (size + n))
            | None => (MESSAGE_SERIALIZER_EXCEPTION, queue', arr, size)
            end, s') /\
    sync_holds queue' s' l /\ unaffected ((a, (text, n)) :: l) s s'.
Proof.
  intros Hh Hlen Hfit. unfold MessageSerializer_AddSingleEvent.
  destruct (SyncPopFrontIf_run queue s _ (sizeLimitationCondition size max) Hh Hlen) as (q1 & s1 & Hp & Hh1 & Hu1).
  unfold sizeLimitationCondition in Hp at 2, Hh1. rewrite Hfit in Hp, Hh1. rewrite (bind_eq _ _ _ _ _ Hp).
  pose proof (sync_holds_reliable _ _ _ Hh1) as Hr1.
  destruct (WriterInit_run text (st_world s1) Hr1) as [Hw Hobj].
  set (s2 := mkStore (bump 1 (st_world s1)) (st_heap s1) (next_item s1)).
  destruct (sync_holds_bump q1 s1 l 1 Hh1) as [Hu2 Hh2]. fold s2 in Hu2, Hh2.
  assert (Hlift : lift (JsonObjectWriter_InitFromString text) s1 =
    Some (match parse_event text with
          | Some doc => (JSON_WRITER_OK, o ← json_value_get_object doc (json_root doc); Some (mkWriter doc o true))
          | None => (JSON_WRITER_EXCEPTION, None)
          end, s2)) by (unfold lift; by rewrite Hw).
  rewrite (bind_eq _ _ _ _ _ Hlift). exists q1, s2. unfold append_event.
  split; [|split; [done|]; eapply unaffected_trans; [exact Hu1 | exact Hu2 | intros b Hb; by right]].
  destruct (parse_event text) as [doc|] eqn:E; [|done]. destruct (Hobj doc eq_refl) as [o Ho]. rewrite Ho. cbn.
  unfold JsonArrayWriter_AddObject. cbn [wr_rootValue].
  by destruct (json_array_append_value (aw_rootValue arr) (aw_rootArray arr) doc).
Qed.

(** One round, when it does not. *)
Lemma AddSingleEvent_full queue s a text n l arr size max :
  sync_holds queue s ((a, (text, n)) :: l) -> Z.of_nat (List.length ((a, (text, n)) :: l)) < UINT32_MAX ->
  (u32 (size + n) <? max) = false ->
  exists queue' s',
    MessageSerializer_AddSingleEvent queue arr size max s =
      Some ((MESSAGE_SERIALIZER_MEMORY_EXCEEDED, queue', arr, size), s') /\
    sync_holds queue' s' ((a, (text, n)) :: l) /\ unaffected ((a, (text, n)) :: l) s s'.
Proof.
  intros Hh Hlen Hfit. unfold MessageSerializer_AddSingleEvent.
  destruct (SyncPopFrontIf_run queue s _ (sizeLimitationCondition size max) Hh Hlen) as (q1 & s1 & Hp & Hh1 & Hu1).
  unfold sizeLimitationCondition in Hp at 2, Hh1. rewrite Hfit in Hp, Hh1. rewrite (bind_eq _ _ _ _ _ Hp).
  exists q1, s1. done.
Qed.

(** What a run of the loop leaves of the items [l] of a queue. *)
Definition left_over (l l' : list (nat * (string * Z))) (t : Taken) : Prop :=
  l'.*2 = tk_left t /\ exists k, l' = drop k l.

Lemma left_over_in l l' t a : left_over l l' t -> a ∈ l'.*1 -> a ∈ l.*1.
Proof. intros (_ & k & ->). rewrite fmap_drop. apply subseteq_drop. Qed.

Lemma AddEvents_loop_run max l : forall fuel queue s arr size,
  sync_holds queue s l -> Z.of_nat (List.length l) < UINT32_MAX -> (List.length l <= fuel)%nat ->
  let t := take_events max l.*2 arr size in
  exists queue' s' l',
    AddEvents_loop fuel queue arr (Z.of_nat (List.length l)) size max s =
      Some ((if tk_ok t then MESSAGE_SERIALIZER_OK else MESSAGE_SERIALIZER_EXCEPTION, queue', tk_array t, tk_size t), s') /\
    sync_holds queue' s' l' /\ left_over l l' t /\ unaffected l s s'.
Proof.
  induction l as [|[a [text n]] l IH]; intros fuel queue s arr size Hh Hlen Hfuel t.
  - exists queue, s, []. split; [by destruct fuel|]. split; [done|]. split; [by split; [|exists 0%nat]|].
    destruct Hh as (? & _ & _ & _ & Hh). by eapply unaffected_refl.
  - destruct fuel as [|fuel]; [cbn in Hfuel; lia|]. subst t. cbn [AddEvents_loop fmap list_fmap snd take_events].
    rewrite (proj2 (Z.ltb_lt 0 _)) by (cbn; lia). cbn [andb].
    destruct (size <? max); cbn [andb].
    2:{ exists queue, s, ((a, (text, n)) :: l). split; [done|]. split; [done|]. split; [by split; [|exists 0%nat]|].
        destruct Hh as (? & _ & _ & _ & Hh). by eapply unaffected_refl. }
    destruct (u32 (size + n) <? max) eqn:Hfit.
    2:{ destruct (AddSingleEvent_full queue s a text n l arr size max Hh Hlen Hfit) as (q1 & s1 & Ha & Hh1 & Hu1).
        rewrite (bind_eq _ _ _ _ _ Ha). exists q1, s1, ((a, (text, n)) :: l). split; [done|]. split; [done|].
        split; [by split; [|exists 0%nat] | done]. }
    destruct (AddSingleEvent_fits queue s a text n l arr size max Hh Hlen Hfit) as (q1 & s1 & Ha & Hh1 & Hu1).
    rewrite (bind_eq _ _ _ _ _ Ha). destruct (append_event arr text) as [arr'|].
    2:{ exists q1, s1, l. split; [done|]. split; [done|]. split; [by split; [|exists 1%nat] | done]. }
    destruct (SyncGetSize_run q1 s1 l Hh1) as (q2 & s2 & Hs & Hh2 & Hu2). rewrite (bind_eq _ _ _ _ _ Hs).
    destruct (IH fuel q2 s2 arr' (u32 (size + n)) Hh2) as (q3 & s3 & l' & Hrun & Hh3 & Hlo & Hu3);
      [cbn in Hlen; lia | cbn in Hfuel; lia |].
    exists q3, s3, l'. split; [exact Hrun|]. split; [done|]. split.
    + destruct Hlo as [H1 (k & H2)]. split; [done|]. by exists (S k).
    + eapply unaffected_trans; [exact Hu1 | eapply unaffected_trans; [exact Hu2 | exact Hu3 | done] |].
      intros b Hb. by right.
Qed.

Lemma AddEventsFromQueue_run max l fuel queue s arr size :
  sync_holds queue s l -> Z.of_nat (List.length l) < UINT32_MAX -> (List.length l <= fuel)%nat ->
  let t := take_events max l.*2 arr size in
  exists queue' s' l',
    MessageSerializer_AddEventsFromQueue fuel queue arr size max s =
      Some ((if tk_ok t then MESSAGE_SERIALIZER_OK else MESSAGE_SERIALIZER_EXCEPTION, queue', tk_array t, tk_size t), s') /\
    sync_holds queue' s' l' /\ left_over l l' t /\ unaffected l s s'.
Proof.
  intros Hh Hlen Hfuel t. unfold MessageSerializer_AddEventsFromQueue.
  destruct (SyncGetSize_run queue s l Hh) as (q1 & s1 & Hs & Hh1 & Hu1). rewrite (bind_eq _ _ _ _ _ Hs).
  destruct (AddEvents_loop_run max l fuel q1 s1 arr size Hh1 Hlen Hfuel) as (q2 & s2 & l' & Hr & Hh2 & Hlo & Hu2).
  exists q2, s2, l'. split; [exact Hr|]. split; [done|]. split; [done|]. by eapply unaffected_trans.
Qed.

(** Working on one queue leaves the others in place. *)
Lemma queues_hold_kept (queues : list SyncQueue) contents (l : list (nat * (string * Z))) s s' :
  queues_hold s queues contents -> unaffected l s s' -> (forall l' a, l' ∈ contents -> a ∈ l'.*1 -> a ∉ l.*1) ->
  queues_hold s' queues contents.
Proof.
  revert contents. induction queues as [|q queues IH]; intros [|c contents]; try done. cbn [queues_hold].
  intros (Hq & Hlen & Hdis & Hqs) Hu Hl. split; [|split; [done|split; [done|]]].
  - eapply sync_holds_kept; [exact Hq | exact Hu |]. intros a Ha. apply (Hl c); [by left | done].
  - apply IH; [done | done |]. intros l' a Hl'. apply Hl. by right.
Qed.

(** What a run over the queues leaves of their contents. *)
Definition leftovers (contents contents' : list (list (nat * (string * Z)))) : Prop :=
  Forall2 (fun l l' => exists k, l' = drop k l) contents contents'.

Lemma leftovers_in contents contents' l' :
  leftovers contents contents' -> l' ∈ contents' -> exists l, l ∈ contents /\ exists k, l' = drop k l.
Proof.
  induction 1 as [|l l1 contents contents1 Hk _ IH]; [by intros ?%not_elem_of_nil|].
  intros [-> | Hin]%elem_of_cons; [exists l; split; [by left | done]|].
  destruct (IH Hin) as (l2 & H1 & H2). exists l2. split; [by right | done].
Qed.

Lemma AddQueues_run max fuel queues : forall contents s arr size result,
  queues_hold s queues contents -> Forall (fun l => (List.length l <= fuel)%nat) contents ->
  let '(remaining, arr', size', ok) := take_queues max (map (fun l => l.*2) contents) arr size in
  exists queues' s' contents',
    AddQueues fuel queues arr size max result s =
      Some ((if ok then result else MESSAGE_SERIALIZER_PARTIAL, queues', arr', size'), s') /\
    queues_hold s' queues' contents' /\ map (fun l => l.*2) contents' = remaining /\ leftovers contents contents' /\
    only_monitor (st_world s) (st_world s') /\
    (forall q0 l0, sync_holds q0 s l0 -> (forall l a, l ∈ contents -> a ∈ l0.*1 -> a ∉ l.*1) -> sync_holds q0 s' l0).
Proof.
  induction queues as [|q queues IH]; intros [|l contents] s arr size result; try done.
  { intros _ _. cbn. exists [], s, []. repeat split; try constructor. by intros. }
  cbn [queues_hold map take_queues AddQueues]. intros (Hq & Hlen & Hdis & Hqs) [Hfuel Hfuels]%Forall_cons.
  set (t := if size <? max then take_events max l.*2 arr size else mkTaken [] l.*2 arr size true).
  assert (exists q1 s1 l1, (if size <? max then
      let* (r, queue, eventsArray, currentMessageSize) := MessageSerializer_AddEventsFromQueue fuel q arr size max in
      ret (if decide (r <> MESSAGE_SERIALIZER_OK) then MESSAGE_SERIALIZER_PARTIAL else result,
           queue, eventsArray, currentMessageSize)
    else ret (result, q, arr, size)) s =
    Some ((if tk_ok t then result else MESSAGE_SERIALIZER_PARTIAL, q1, tk_array t, tk_size t), s1) /\
    sync_holds q1 s1 l1 /\ left_over l l1 t /\ unaffected l s s1) as (q1 & s1 & l1 & H1 & Hh1 & Hlo & Hu1).
  { subst t. destruct (size <? max).
    - destruct (AddEventsFromQueue_run max l fuel q s arr size Hq Hlen Hfuel) as (q1 & s1 & l1 & Hr & Hh & Hl & Hu).
      rewrite (bind_eq _ _ _ _ _ Hr). exists q1, s1, l1. split; [|done].
      by destruct (tk_ok (take_events max l.*2 arr size)).
    - exists q, s, l. split; [done|]. split; [done|]. split; [by split; [|exists 0%nat]|].
      destruct Hq as (? & _ & _ & _ & Hh). by eapply unaffected_refl. }
  rewrite (bind_eq _ _ _ _ _ H1).
  assert (Hqs1 : queues_hold s1 queues contents) by (by eapply queues_hold_kept).
  specialize (IH contents s1 (tk_array t) (tk_size t) (if tk_ok t then result else MESSAGE_SERIALIZER_PARTIAL) Hqs1 Hfuels).
  destruct (take_queues max (map (fun l => l.*2) contents) (tk_array t) (tk_size t)) as [[[remaining arr2] size2] ok2].
  destruct IH as (qs2 & s2 & contents2 & H2 & Hh2 & Hrem & Hlos & Ho2 & Hk2). rewrite (bind_eq _ _ _ _ _ H2).
  assert (Hin1 : forall a, a ∈ l1.*1 -> a ∈ l.*1) by (intros a; by apply (left_over_in l l1 t)).
  exists (q1 :: qs2), s2, (l1 :: contents2). split; [by destruct (tk_ok t), ok2|]. split; [|split; [|split; [|split]]].
  - cbn [queues_hold]. split; [|split; [|split; [|done]]].
    + apply Hk2; [done|]. intros l' a Hl' Ha Ha'. by apply (Hdis l' a Hl' Ha'), Hin1.
    + destruct Hlo as [_ (k & ->)]. rewrite length_drop. lia.
    + intros l'' a Hl'' Ha Ha1. apply (leftovers_in _ _ _ Hlos) in Hl'' as (l' & Hl' & k & ->).
      rewrite fmap_drop in Ha. apply subseteq_drop in Ha. by apply (Hdis l' a Hl' Ha), Hin1.
  - cbn. destruct Hlo as [-> _]. by rewrite Hrem.
  - constructor; [by destruct Hlo | done].
  - destruct Hu1 as [Ho1 _]. by eapply only_monitor_trans.
  - intros q0 l0 Hq0 Hd0. apply Hk2; [|intros l' a Hl'; apply Hd0; by right].
    eapply sync_holds_kept; [exact Hq0 | exact Hu1 |]. intros a Ha. apply (Hd0 l); [by left | done].
Qed.

(** ** Lemmas on the specification *)

Lemma take_events_split max queue : forall a size,
  let t := take_events max queue a size in
  queue = tk_popped t ++ tk_left t.
Proof.
  induction queue as [|[text n] queue IH]; intros a size; [done|]. cbn [take_events].
  destruct (_ && _); [|done]. destruct (append_event a text) as [a'|]; [|done]. cbn. f_equal. apply IH.
Qed.

(** Appending the events of a list one after the other. *)
Fixpoint append_all (a : JsonArrayWriter) (l : list (string * Z)) : option JsonArrayWriter :=
  match l with
  | [] => Some a
  | (text, _) :: l' => a' ← append_event a text; append_all a' l'
  end.

Fixpoint sum_sizes (l : list (string * Z)) : Z :=
  match l with [] => 0 | (_, n) :: l' => n + sum_sizes l' end.

Lemma take_events_array max queue : forall a size,
  let t := take_events max queue a size in
  if tk_ok t then append_all a (tk_popped t) = Some (tk_array t)
  else exists good bad, tk_popped t = good ++ [bad] /\ append_all a good = Some (tk_array t) /\
         append_event (tk_array t) (fst bad) = None.
Proof.
  induction queue as [|[text n] queue IH]; intros a size; [done|]. cbn [take_events].
  destruct (_ && _); [|done]. destruct (append_event a text) as [a'|] eqn:E; cbn [tk_ok tk_popped tk_array].
  - specialize (IH a' (u32 (size + n))). cbv zeta in IH.
    destruct (tk_ok (take_events max queue a' (u32 (size + n)))).
    + cbn. by rewrite E.
    + destruct IH as (good & bad & Hp & Ha & Hb). exists ((text, n) :: good), bad. cbn. rewrite E, Hp. done.
  - exists [], (text, n). done.
Qed.

Lemma take_events_size max queue : forall a size,
  0 <= size < max -> max <= UINT32_MAX -> Forall (fun x => 0 <= snd x <= UINT32_MAX - max) queue ->
  let t := take_events max queue a size in
  tk_size t = size + sum_sizes (if tk_ok t then tk_popped t else removelast (tk_popped t)) /\ tk_size t < max.
Proof.
  induction queue as [|[text n] queue IH]; intros a size Hs Hm Hq; [cbn; lia|].
  apply Forall_cons in Hq as [Hn Hq]. cbn [snd] in Hn. cbn [take_events].
  rewrite (proj2 (Z.ltb_lt size max)) by lia. cbn [andb]. rewrite u32_small by ulia.
  destruct (Z.ltb_spec (size + n) max); [|cbn; lia].
  destruct (append_event a text) as [a'|]; cbn [tk_ok tk_popped tk_size]; [|cbn; lia].
  destruct (IH a' (size + n) ltac:(lia) Hm Hq) as [IH1 IH2]. split; [|done]. rewrite IH1.
  destruct (tk_ok (take_events max queue a' (size + n))) eqn:Hok; cbn [sum_sizes]; [lia|].
  pose proof (take_events_array max queue a' (size + n)) as Harr. cbv zeta in Harr. rewrite Hok in Harr.
  destruct Harr as (good & bad & Hp & _). rewrite Hp. rewrite removelast_last.
  change ((text, n) :: good ++ [bad]) with (((text, n) :: good) ++ [bad]). rewrite removelast_last. cbn. lia.
Qed.

(** The loop stops only when the next event does not fit. *)
Lemma take_events_maximal max queue : forall a size,
  0 <= size < max -> max <= UINT32_MAX -> Forall (fun x => 0 <= snd x <= UINT32_MAX - max) queue ->
  let t := take_events max queue a size in
  tk_ok t = true -> forall text n rest, tk_left t = (text, n) :: rest -> max <= tk_size t + n.
Proof.
  induction queue as [|[text n] queue IH]; intros a size Hs Hm Hq; [done|].
  apply Forall_cons in Hq as [Hn Hq]. cbn [snd] in Hn. cbn [take_events].
  rewrite (proj2 (Z.ltb_lt size max)) by lia. cbn [andb]. rewrite u32_small by ulia.
  destruct (Z.ltb_spec (size + n) max); cbn [tk_ok tk_left tk_size].
  - destruct (append_event a text) as [a'|]; [|done]. cbn [tk_ok tk_left tk_size]. apply IH; [lia | done | done].
  - intros _ text' n' rest [= <- <- <-]. lia.
Qed.

(** ** Lemmas: the message *)

Lemma queues_hold_world q queues contents (s : Store (D := string)) :
  queues_hold s (q :: queues) contents ->
  reliable (st_world s) /\ exists l, tc_lock (twinConfiguration (st_world s)) = Some l /\ l ∉ held (st_world s).
Proof.
  destruct contents as [|c contents]; [done|]. intros ((lk & _ & _ & (Hr & Hm & _) & _) & _).
  split; [exact Hr|]. destruct (ready_configuration _ Hm) as [_ (l & Hl & Hh & _)]. exists l. split; [done|].
  cbn in Hh. intros H. apply Hh. by apply elem_of_union_r.
Qed.

Lemma queues_hold_bump queues : forall contents (s : Store (D := string)) n,
  queues_hold s queues contents ->
  queues_hold (mkStore (bump n (st_world s)) (st_heap s) (next_item s)) queues contents.
Proof.
  induction queues as [|q queues IH]; intros [|c contents] s n; try done. cbn [queues_hold].
  intros (Hq & Hlen & Hdis & Hqs). split; [by apply sync_holds_bump|]. split; [done|]. split; [done|]. by apply IH.
Qed.

Lemma lift_bump {A} (m : M World A) (a : A) n (s : Store (D := string)) :
  m (st_world s) = Some (a, bump n (st_world s)) ->
  lift m s = Some (a, mkStore (bump n (st_world s)) (st_heap s) (next_item s)).
Proof. unfold lift. by intros ->. Qed.

Lemma WriterNew_run (w0 : JsonObjectWriter) w :
  reliable w -> new_writer = Some w0 -> JsonObjectWriter_Init w = Some ((JSON_WRITER_OK, Some w0), bump 1 w).
Proof.
  intros Hr. unfold new_writer, JsonObjectWriter_Init, bind. rewrite malloc_reliable by done.
  destruct json_value_init_object as [doc|]; [|done]. cbn. destruct (json_value_get_object doc (json_root doc)); [|done].
  by intros [= <-].
Qed.

Lemma ArrayNew_run (a0 : JsonArrayWriter) w :
  reliable w -> new_array = Some a0 -> JsonArrayWriter_Init w = Some ((JSON_WRITER_OK, Some a0), bump 1 w).
Proof.
  intros Hr. unfold new_array, JsonArrayWriter_Init, bind. rewrite malloc_reliable by done.
  destruct json_value_init_array as [doc|]; [|done]. cbn. destruct (json_value_get_array doc (json_root doc)); [|done].
  by intros [= <-].
Qed.

Lemma Create_run fuel agentId q queues contents (s : Store (D := string)) w0 w1 a0 :
  queues_hold s (q :: queues) contents -> Forall (fun l => (List.length l <= fuel)%nat) contents ->
  new_writer = Some w0 -> write_head agentId w0 = (JSON_WRITER_OK, w1) -> new_array = Some a0 ->
  let '(remaining, a, size, ok) :=
    take_queues (tc_maxMessageSize (twinConfiguration (st_world s))) (map (fun l => l.*2) contents) a0 0 in
  exists queues' s' contents',
    MessageSerializer_CreateSecurityMessage fuel agentId (q :: queues) s =
      Some ((fst (spec_message w1 a size ok), queues', snd (spec_message w1 a size ok)), s') /\
    queues_hold s' queues' contents' /\ map (fun l => l.*2) contents' = remaining /\ leftovers contents contents' /\
    only_monitor (st_world s) (st_world s').
Proof.
  intros Hq Hfuel Hw0 Hhead Ha0. destruct (queues_hold_world _ _ _ _ Hq) as (Hr & l & Hl & Hh).
  unfold MessageSerializer_CreateSecurityMessage.
  rewrite (bind_eq _ _ _ _ _ (lift_bump _ _ 1 s (WriterNew_run w0 _ Hr Hw0))). cbv beta iota. rewrite Hhead.
  set (s1 := mkStore (bump 1 (st_world s)) (st_heap s) (next_item s)).
  assert (Hmax : lift TwinConfiguration_GetMaxMessageSize s1 =
    Some ((TWIN_OK, Some (tc_maxMessageSize (twinConfiguration (st_world s)))),
          mkStore (bump 2 (st_world s1)) (st_heap s1) (next_item s1)))
    by (apply lift_bump, (getter_reliable tc_maxMessageSize (st_world s1) l); done).
  unfold MessageSerializer_GenerateEventList. rewrite bind_assoc, (bind_eq _ _ _ _ _ Hmax). cbv beta iota.
  set (s2 := mkStore (bump 2 (st_world s1)) (st_heap s1) (next_item s1)).
  rewrite bind_assoc, (bind_eq _ _ _ _ _ (lift_bump _ _ 1 s2 (ArrayNew_run a0 (st_world s2) Hr Ha0))). cbv beta iota.
  set (s3 := mkStore (bump 1 (st_world s2)) (st_heap s2) (next_item s2)).
  assert (Hq3 : queues_hold s3 (q :: queues) contents) by (by do 3 apply queues_hold_bump).
  set (max := tc_maxMessageSize (twinConfiguration (st_world s))).
  pose proof (AddQueues_run max fuel (q :: queues) contents s3 a0 0 MESSAGE_SERIALIZER_OK Hq3 Hfuel) as Hrun.
  destruct (take_queues max (map (fun l => l.*2) contents) a0 0) as [[[remaining a] size] ok].
  destruct Hrun as (qs & s4 & contents' & H4 & Hh4 & Hrem & Hlos & Ho & _). rewrite bind_assoc, (bind_eq _ _ _ _ _ H4).
  cbv beta iota. exists qs, s4, contents'. split; [|split; [done|split; [done|split; [done|]]]].
  - unfold spec_message, list_result.
    destruct (JsonObjectWriter_WriteArray w1 EVENTS_KEY a) as [[[] w2] a2]; rewrite bind_ret_l;
      destruct (size =? 0); try done.
    destruct (JsonObjectWriter_Serialize w2) as [[] [[text n]|]]; by destruct ok.
  - eapply only_monitor_trans; [|exact Ho]. by repeat split.
Qed.

(** ** Properties *)

(** What one queue contributes to a message.  The events popped are a prefix
    of the queue, and what is left is the rest; when the call succeeds the
    array is the old one with all of them appended in order, otherwise the
    last one popped is not a JSON object (or could not be appended), it is
    lost, and the array has the others.  The recorded size grows by the sizes
    of the appended events and stays below the limit; and the call succeeds
    leaving events only if the size is at the limit or the next event does not
    fit. *)
Theorem AddEventsFromQueue_correct max l fuel queue s arr size :
  sync_holds queue s l -> Z.of_nat (List.length l) < UINT32_MAX -> (List.length l <= fuel)%nat ->
  0 <= size < max -> max <= UINT32_MAX -> Forall (fun x => 0 <= snd x <= UINT32_MAX - max) l.*2 ->
  exists r queue' arr' size' s' l' popped,
    MessageSerializer_AddEventsFromQueue fuel queue arr size max s = Some ((r, queue', arr', size'), s') /\
    sync_holds queue' s' l' /\ l.*2 = popped ++ l'.*2 /\ size' < max /\
    match r with
    | MESSAGE_SERIALIZER_OK =>
        append_all arr popped = Some arr' /\ size' = size + sum_sizes popped /\
        (forall text n rest, l'.*2 = (text, n) :: rest -> max <= size' + n)
    | MESSAGE_SERIALIZER_EXCEPTION =>
        exists good bad, popped = good ++ [bad] /\ append_all arr good = Some arr' /\
          append_event arr' (fst bad) = None /\ size' = size + sum_sizes good
    | _ => False
    end.
Proof.
  intros Hh Hlen Hfuel Hs Hm Hq.
  destruct (AddEventsFromQueue_run max l fuel queue s arr size Hh Hlen Hfuel) as (q' & s' & l' & Hr & Hh' & [Hl' _] & _).
  pose proof (take_events_split max l.*2 arr size) as H1. pose proof (take_events_array max l.*2 arr size) as H2.
  pose proof (take_events_size max l.*2 arr size Hs Hm Hq) as [H3 H4].
  pose proof (take_events_maximal max l.*2 arr size Hs Hm Hq) as H5.
  set (t := take_events max l.*2 arr size) in *. cbv zeta in H1, H2, H5.
  eexists _, q', (tk_array t), (tk_size t), s', l', (tk_popped t). split; [exact Hr|]. split; [done|].
  rewrite Hl'. split; [done|]. split; [done|]. destruct (tk_ok t); [by repeat split; [..|apply H5]|].
  destruct H2 as (good & bad & Hp & Ha & Hb). exists good, bad. repeat split; try done.
  by rewrite H3, Hp, removelast_last.
Qed.

(** C4: The message.  Without failures of the environment, the queues are worked
    off in the order of the array; the result is [EMPTY] exactly when the
    recorded size is zero, and otherwise the text of the head with the events,
    reported as [PARTIAL] when an event was lost; each queue keeps the items
    that were not popped, in place. *)
Theorem CreateSecurityMessage_correct fuel agentId q queues contents (s : Store (D := string)) w0 w1 a0 :
  queues_hold s (q :: queues) contents -> Forall (fun l => (List.length l <= fuel)%nat) contents ->
  new_writer = Some w0 -> write_head agentId w0 = (JSON_WRITER_OK, w1) -> new_array = Some a0 ->
  exists remaining a size ok queues' s' contents',
    take_queues (tc_maxMessageSize (twinConfiguration (st_world s))) (map (fun l => l.*2) contents) a0 0
      = (remaining, a, size, ok) /\
    MessageSerializer_CreateSecurityMessage fuel agentId (q :: queues) s =
      Some ((fst (spec_message w1 a size ok), queues', snd (spec_message w1 a size ok)), s') /\
    queues_hold s' queues' contents' /\ map (fun l => l.*2) contents' = remaining /\ leftovers contents contents'.
Proof.
  intros Hq Hfuel Hw0 Hhead Ha0.
  pose proof (Create_run fuel agentId q queues contents s w0 w1 a0 Hq Hfuel Hw0 Hhead Ha0) as H.
  destruct (take_queues _ _ a0 0) as [[[remaining a] size] ok]. destruct H as (q' & s' & c' & H1 & H2 & H3 & H4 & _).
  exists remaining, a, size, ok, q', s', c'. auto.
Qed.

(** An event that is as large as a message blocks its queue: while it is at
    the head of the only queue, every attempt to create a message reports
    [EMPTY] and leaves all events where they are. *)
Theorem oversized_event_blocks fuel agentId q (s : Store (D := string)) w0 w1 a0 addr text n l :
  sync_holds q s ((addr, (text, n)) :: l) -> Z.of_nat (List.length ((addr, (text, n)) :: l)) < UINT32_MAX ->
  (List.length ((addr, (text, n)) :: l) <= fuel)%nat ->
  is_u32 n -> tc_maxMessageSize (twinConfiguration (st_world s)) <= n ->
  new_writer = Some w0 -> write_head agentId w0 = (JSON_WRITER_OK, w1) -> new_array = Some a0 ->
  exists q' s', MessageSerializer_CreateSecurityMessage fuel agentId [q] s =
      Some ((MESSAGE_SERIALIZER_EMPTY, [q'], None), s') /\ sync_holds q' s' ((addr, (text, n)) :: l).
Proof.
  intros Hh Hlen Hfuel Hn Hmax Hw0 Hhead Ha0.
  assert (Hq : queues_hold s [q] [(addr, (text, n)) :: l]) by (repeat split; try done; by intros ? ? ?%not_elem_of_nil).
  pose proof (Create_run fuel agentId q [] _ s w0 w1 a0 Hq ltac:(by repeat constructor) Hw0 Hhead Ha0) as H.
  set (max := tc_maxMessageSize (twinConfiguration (st_world s))) in *.
  assert (Ht : take_queues max (map (fun l => l.*2) [(addr, (text, n)) :: l]) a0 0
    = ([((addr, (text, n)) :: l).*2], a0, 0, true)).
  { cbn [map take_queues take_events fmap list_fmap snd]. rewrite Z.add_0_l, (u32_small n Hn).
    rewrite (proj2 (Z.ltb_ge n max)) by done. rewrite andb_false_r. by destruct (0 <? max). }
  rewrite Ht in H. destruct H as (qs & s' & c' & H1 & H2 & H3 & H4 & _).
  destruct c' as [|c [|]]; [by inversion H4 | | by inversion H4 as [|? ? ? ? ? Hbad]; inversion Hbad].
  destruct qs as [|q' [|]]; [done | | by destruct H2 as (_ & _ & _ & H2)].
  exists q', s'. split; [exact H1|]. destruct H2 as [H2 _]. cbn in H3. injection H3 as H3.
  inversion H4 as [|? ? ? ? (k & Hk) _]. destruct k as [|k]; [by rewrite Hk in H2|].
  exfalso. apply (f_equal List.length) in H3. rewrite Hk in H3. cbn in H3.
  rewrite !length_fmap, length_drop in H3. lia.
Qed.

End Serializer.

(** ** Witnesses *)

Definition event_parse (text : string) : option json :=
  if String.eqb text "event" then Some (JObj [("Name"%string, JStr "test")]) else None.

Definition event_parson : Parson := model_parson event_parse (fun _ => "message"%string).

(** Two queued texts; the second one does not parse. *)
Definition two_items : list (nat * (string * Z)) :=
  [(0%nat, ("event"%string, 100)); (1%nat, ("garbage"%string, 50))].

Definition two_queue : SyncQueue :=
  mkSyncQueue (mkQueue (Some 0%nat) (Some 1%nat) 2 true (mkSyncedCounter zero_counter (Some 7%nat))) (Some 8%nat).

Definition two_store : Store (D := string) :=
  mkStore (running_world good_env)
    (<[0%nat := mkItem "event"%string 100 (Some 1%nat) None]> {[ 1%nat := mkItem "garbage"%string 50 None (Some 0%nat) ]}) 2.

Lemma two_holds : @sync_holds string synchronized_monitor two_queue two_store two_items.
Proof.
  exists 8%nat. split; [done|]. split; [apply not_elem_of_empty|]. split; [exact empty_section_ready|].
  split; [|split; [|split; [done|]]].
  - split; [done|]. exists (Some 1%nat). split; [done|]. split; [done|]. exists None. split; done.
  - repeat constructor; [|by intros ?%not_elem_of_nil]. by intros [=]%list_elem_of_singleton.
  - intros a Ha. cbn in *. destruct (decide (a = 0%nat)) as [->|]; [lia|]. rewrite lookup_insert_ne in Ha by done.
    destruct (decide (a = 1%nat)) as [->|]; [lia|]. rewrite lookup_singleton_ne in Ha by done. by destruct Ha.
Qed.

(** The same store under a clock that stands still. *)
Definition still_env : Env :=
  mkEnv (fun _ => true) (fun _ => 1570000000) (env_localtime good_env) (env_gmtime good_env) (env_uuid good_env).

Definition still_store : Store (D := string) := mkStore (running_world still_env) (st_heap two_store) (next_item two_store).

Lemma still_holds q l :
  @sync_holds string synchronized_monitor q two_store l -> @sync_holds string synchronized_monitor q still_store l.
Proof.
  intros (k & H1 & H2 & (H3 & (H5 & H6) & H4) & H7). exists k. split; [exact H1|]. split; [exact H2|].
  split; [|exact H7]. split; [by intros n|]. split; [|exact H4]. by split.
Qed.

Lemma AddEventsFromQueue_correct_witness :
  exists queue' arr' s',
    @MessageSerializer_AddEventsFromQueue event_parson synchronized_monitor 2 two_queue
      (@mkArrayWriter event_parson (JArr []) [] true) 0 1000 two_store
    = Some ((MESSAGE_SERIALIZER_EXCEPTION, queue', arr', 100), s').
Proof.
  destruct (@AddEventsFromQueue_correct event_parson synchronized_monitor _ 1000 two_items 2 two_queue two_store
    (@mkArrayWriter event_parson (JArr []) [] true) 0 two_holds) as (r & q' & arr' & n' & s' & l' & popped & H & _);
    [done | cbn; lia | lia | ulia | repeat constructor; cbn; ulia |].
  destruct (@AddEventsFromQueue_run event_parson synchronized_monitor _ 1000 two_items 2 two_queue two_store
    (@mkArrayWriter event_parson (JArr []) [] true) 0 two_holds) as (q2 & s2 & l2 & H2 & _); [done | cbn; lia |].
  rewrite H in H2. injection H2 as -> -> -> -> ->. eexists q2, _, s2. exact H.
Defined.

Lemma CreateSecurityMessage_correct_witness :
  exists queues' s',
    @MessageSerializer_CreateSecurityMessage event_parson synchronized_monitor 2 "agent" [two_queue] two_store
    = Some ((MESSAGE_SERIALIZER_PARTIAL, queues', Some "message"%string), s').
Proof.
  edestruct (@CreateSecurityMessage_correct event_parson synchronized_monitor _ 2 "agent" two_queue [] [two_items]
    two_store) as (rem & a & n & ok & qs & s' & c & Ht & H & _);
    [split; [exact two_holds|]; repeat split; by intros ? ? ?%not_elem_of_nil | repeat constructor
    | reflexivity | reflexivity | reflexivity |].
  vm_compute in Ht. injection Ht as <- <- <- <-. exists qs, s'. exact H.
Defined.

Lemma oversized_event_blocks_witness :
  exists q' s',
    @MessageSerializer_CreateSecurityMessage event_parson synchronized_monitor 2 "agent" [two_queue]
      (mkStore (set_twinConfiguration (mkTwinConfiguration 0 100 0 0 0 false None None (Some 0%nat)) (st_world two_store))
               (st_heap two_store) (next_item two_store))
    = Some ((MESSAGE_SERIALIZER_EMPTY, [q'], None), s').
Proof.
  edestruct (@oversized_event_blocks event_parson synchronized_monitor _ 2 "agent" two_queue
    (mkStore (set_twinConfiguration (mkTwinConfiguration 0 100 0 0 0 false None None (Some 0%nat)) (st_world two_store))
             (st_heap two_store) (next_item two_store))) as (q' & s' & H & _).
  - destruct two_holds as (l & H1 & H2 & (H3 & (H5 & H6) & H4) & H7). exists l.
    split; [exact H1|]. split; [exact H2|]. split; [|exact H7]. split; [exact H3|]. split; [|exact H4].
    injection H1 as <-. split; [exact H5 | exact H6].
  - done.
  - cbn. lia.
  - ulia.
  - cbn. lia.
  - reflexivity.
  - reflexivity.
  - reflexivity.
  - exists q', s'. exact H.
Defined.
