(* ===== verification/GenericEvent.v ===== *)
(** * [collectors/linux/generic_event.c]: what every event has in common

    An event is written by a sequence of steps, each of which may fail; the
    function returns at the first failure, and the writer keeps what was
    written before it. *)

From S2P Require Import Prelude CString TwinDefs World TimeUtils Parson Json Schema.
From Stdlib Require Import String.
Open Scope Z_scope.

Inductive EventCollectorResult : Type :=
  | EVENT_COLLECTOR_OK
  | EVENT_COLLECTOR_RECORD_HAS_ERRORS
  | EVENT_COLLECTOR_RECORD_FILTERED
  | EVENT_COLLECTOR_OUT_OF_MEM
  | EVENT_COLLECTOR_EXCEPTION.

#[export] Instance EventCollectorResult_eq_dec : EqDecision EventCollectorResult.
Proof. solve_decision. Defined.

(** [static const int MAX_TIME_AS_STRING_LENGTH], [EVENT_ID_SIZE]. *)
Definition MAX_TIME_AS_STRING_LENGTH : Z := 25.
Definition EVENT_ID_SIZE : Z := 37.

Section GenericEvent.
Context {P : Parson}.

(** One step of writing an object: did it succeed, and the writer after it. *)
Definition Step : Type := JsonObjectWriter -> M World (bool * JsonObjectWriter).

Fixpoint run_steps (l : list Step) (w : JsonObjectWriter) : M World (bool * JsonObjectWriter) :=
  match l with
  | [] => ret (true, w)
  | step :: l' =>
      let* (ok, w) := step w in
      if ok then run_steps l' w else ret (false, w)
  end.

Definition string_step (key value : string) : Step := fun w =>
  let '(r, w) := JsonObjectWriter_WriteString w key value in ret (bool_decide (r = JSON_WRITER_OK), w).

Definition int_step (key : string) (value : Z) : Step := fun w =>
  let '(r, w) := JsonObjectWriter_WriteInt w key value in ret (bool_decide (r = JSON_WRITER_OK), w).

Definition bool_step (key : string) (value : bool) : Step := fun w =>
  let '(r, w) := JsonObjectWriter_WriteBool w key value in ret (bool_decide (r = JSON_WRITER_OK), w).

(** Writing what [value] computes, unless it fails. *)
Definition computed_step (key : string) (value : M World (option string)) : Step := fun w =>
  v <- value ;;
  match v with
  | None => ret (false, w)
  | Some s => string_step key s w
  end.

Definition collector_result (ok : bool) : EventCollectorResult :=
  if ok then EVENT_COLLECTOR_OK else EVENT_COLLECTOR_EXCEPTION.

Definition GenericEvent_AddMetadataWithTimes (eventWriter : JsonObjectWriter)
    (eventCategory eventName eventType eventPayloadVersion : string) (eventLocalTime : Z)
    : M World (EventCollectorResult * JsonObjectWriter) :=
  let* (ok, eventWriter) :=
    run_steps
      [ string_step EVENT_CATEGORY_KEY eventCategory;
        string_step EVENT_TYPE_KEY eventType;
        string_step EVENT_NAME_KEY eventName;
        string_step EVENT_PAYLOAD_SCHEMA_VERSION_KEY eventPayloadVersion;
        computed_step EVENT_ID_KEY UniqueId_Generate;
        computed_step EVENT_LOCAL_TIMESTAMP_KEY
          (TimeUtils_GetTimeAsString eventLocalTime MAX_TIME_AS_STRING_LENGTH);
        computed_step EVENT_UTC_TIMESTAMP_KEY
          (TimeUtils_GetLocalTimeAsUTCTimeAsString eventLocalTime MAX_TIME_AS_STRING_LENGTH) ]
      eventWriter in
  ret (collector_result ok, eventWriter).

Definition GenericEvent_AddMetadata (eventWriter : JsonObjectWriter)
    (eventCategory eventName eventType eventPayloadVersion : string)
    : M World (EventCollectorResult * JsonObjectWriter) :=
  currentTime <- TimeUtils_GetCurrentTime ;;
  GenericEvent_AddMetadataWithTimes eventWriter eventCategory eventName eventType eventPayloadVersion currentTime.

Definition GenericEvent_AddPayload (eventWriter : JsonObjectWriter) (payloadWriter : JsonArrayWriter)
    : EventCollectorResult * JsonObjectWriter * JsonArrayWriter :=
  let '(result, elements_count) := JsonArrayWriter_GetSize payloadWriter in
  if decide (result <> JSON_WRITER_OK) then (EVENT_COLLECTOR_EXCEPTION, eventWriter, payloadWriter)
  else
    match JsonObjectWriter_WriteBool eventWriter EVENT_IS_EMPTY_KEY (elements_count =? 0) with
    | (JSON_WRITER_OK, eventWriter) =>
        match JsonObjectWriter_WriteArray eventWriter PAYLOAD_KEY payloadWriter with
        | (JSON_WRITER_OK, eventWriter, payloadWriter) => (EVENT_COLLECTOR_OK, eventWriter, payloadWriter)
        | (_, eventWriter, payloadWriter) => (EVENT_COLLECTOR_EXCEPTION, eventWriter, payloadWriter)
        end
    | (_, eventWriter) => (EVENT_COLLECTOR_EXCEPTION, eventWriter, payloadWriter)
    end.

(** ** Lemmas: running steps takes only time *)

(** The times of the environment fit the buffers. *)
Definition times_fit (e : Env) : Prop :=
  forall t s, env_localtime e t = Some s \/ env_gmtime e t = Some s -> strlen s < MAX_TIME_AS_STRING_LENGTH.

(** A step that returns, and changes nothing in the world but the time. *)
Definition only_takes_time (step : Step) (e : Env) : Prop :=
  forall w writer, env w = e -> exists ok writer' n, step writer w = Some ((ok, writer'), bump n w).

Lemma run_steps_run l e w writer :
  Forall (fun step => only_takes_time step e) l -> env w = e ->
  exists ok writer' n, run_steps l writer w = Some ((ok, writer'), bump n w).
Proof.
  intros Hl. revert w writer. induction Hl as [|step l Hs _ IH]; intros w writer He; cbn [run_steps].
  - exists true, writer, 0%nat. by rewrite bump_0.
  - destruct (Hs w writer He) as (ok & writer1 & n & H1). rewrite (bind_eq _ _ _ _ _ H1).
    destruct ok; [|by eauto]. destruct (IH (bump n w) writer1 He) as (ok2 & writer2 & m & H2).
    exists ok2, writer2, (m + n)%nat. rewrite H2. by rewrite bump_bump.
Qed.

Lemma string_step_time key v e : only_takes_time (string_step key v) e.
Proof.
  intros w writer _. unfold string_step. destruct (JsonObjectWriter_WriteString writer key v) as [r w2].
  eexists _, _, 0%nat. rewrite bump_0. done.
Qed.

Lemma int_step_time key v e : only_takes_time (int_step key v) e.
Proof.
  intros w writer _. unfold int_step. destruct (JsonObjectWriter_WriteInt writer key v) as [r w2].
  eexists _, _, 0%nat. rewrite bump_0. done.
Qed.

Lemma computed_step_time key value e :
  (forall w, env w = e -> exists v n, value w = Some (v, bump n w)) -> only_takes_time (computed_step key value) e.
Proof.
  intros Hv w writer He. destruct (Hv w He) as (v & n & H). unfold computed_step. rewrite (bind_eq _ _ _ _ _ H).
  destruct v as [s|]; [|eauto]. destruct (string_step_time key s e (bump n w) writer He) as (ok & w2 & m & H2).
  exists ok, w2, (m + n)%nat. rewrite H2. by rewrite bump_bump.
Qed.

Lemma UniqueId_time w : exists v n, UniqueId_Generate w = Some (v, bump n w).
Proof. by eexists _, 1%nat. Qed.

Lemma LocalTime_time e t size :
  times_fit e -> MAX_TIME_AS_STRING_LENGTH <= size ->
  forall w, env w = e -> exists v n, TimeUtils_GetTimeAsString t size w = Some (v, bump n w).
Proof.
  intros Hf Hs w He. unfold TimeUtils_GetTimeAsString, strftime, bind, gets. rewrite He.
  destruct (env_localtime e t) as [s|] eqn:E; [|eexists _, 0%nat; by rewrite bump_0].
  rewrite (proj2 (Z.ltb_lt _ _)) by (specialize (Hf t s (or_introl E)); lia).
  eexists _, 0%nat. by rewrite bump_0.
Qed.

Lemma UtcTime_time e t size :
  times_fit e -> MAX_TIME_AS_STRING_LENGTH <= size ->
  forall w, env w = e -> exists v n, TimeUtils_GetLocalTimeAsUTCTimeAsString t size w = Some (v, bump n w).
Proof.
  intros Hf Hs w He. unfold TimeUtils_GetLocalTimeAsUTCTimeAsString, strftime, bind, gets. rewrite He.
  destruct (env_gmtime e t) as [s|] eqn:E; [|eexists _, 0%nat; by rewrite bump_0].
  rewrite (proj2 (Z.ltb_lt _ _)) by (specialize (Hf t s (or_intror E)); lia).
  eexists _, 0%nat. by rewrite bump_0.
Qed.

Lemma AddMetadataWithTimes_run w writer cat name type version t :
  times_fit (env w) ->
  exists r writer' n, GenericEvent_AddMetadataWithTimes writer cat name type version t w = Some ((r, writer'), bump n w).
Proof.
  intros Hf. unfold GenericEvent_AddMetadataWithTimes.
  edestruct (run_steps_run) as (ok & w2 & n & H); [| | erewrite (bind_eq _ _ _ _ _ H)]; [| reflexivity | by eexists _, w2, n].
  repeat constructor; first [ apply string_step_time | apply computed_step_time; intros; apply UniqueId_time
    | apply computed_step_time, LocalTime_time; done | apply computed_step_time, UtcTime_time; done ].
Qed.

Lemma AddMetadata_run w writer cat name type version :
  times_fit (env w) ->
  exists r writer' n, GenericEvent_AddMetadata writer cat name type version w = Some ((r, writer'), bump n w).
Proof.
  intros Hf. unfold GenericEvent_AddMetadata.
  assert (Hn : TimeUtils_GetCurrentTime w = Some (env_time (env w) (tick w), bump 1 w)) by done.
  rewrite (bind_eq _ _ _ _ _ Hn).
  destruct (AddMetadataWithTimes_run (bump 1 w) writer cat name type version (env_time (env w) (tick w)) Hf) as (r & w2 & n & H).
  exists r, w2, (n + 1)%nat. by rewrite H, bump_bump.
Qed.

End GenericEvent.
