(* ===== verification/Collector.v ===== *)
(** * What the event collectors share

    Most collectors end in the same way: an event with its metadata is created,
    an array is filled with payloads, the array is added to the event, and its
    text is pushed into the queue they were given.  This file has these steps
    as functions, which the collectors are written with, and what they do. *)

From S2P Require Import Prelude CString TwinDefs World TimeUtils Parson Json TwinCollectors TwinConfiguration MemoryMonitor Telemetry Queue SyncQueue Schema MessageSerializer GenericEvent.
From Stdlib Require Import String.
Open Scope Z_scope.

(** ** Objects of scalar fields *)

Inductive FieldValue : Type :=
  | FString (s : string)
  | FInt (n : Z)
  | FBool (b : bool).

Definition Field : Type := string * FieldValue.

Section Collector.
Context {P : Parson}.

Definition field_step (f : Field) : Step :=
  match f with
  | (key, FString s) => string_step key s
  | (key, FInt n) => int_step key n
  | (key, FBool b) => bool_step key b
  end.

(** A new object, written by [steps], is added to [payloadHandle]. *)
Definition add_object (payloadHandle : JsonArrayWriter) (steps : list Step)
    : M World (EventCollectorResult * JsonArrayWriter) :=
  let* (r, payloadObject) := JsonObjectWriter_Init in
  match r, payloadObject with
  | JSON_WRITER_OK, Some payloadObject =>
      let* (ok, payloadObject) := run_steps steps payloadObject in
      if negb ok then ret (EVENT_COLLECTOR_EXCEPTION, payloadHandle)
      else
        match JsonArrayWriter_AddObject payloadHandle payloadObject with
        | (JSON_WRITER_OK, payloadHandle, _) => ret (EVENT_COLLECTOR_OK, payloadHandle)
        | (_, payloadHandle, _) => ret (EVENT_COLLECTOR_EXCEPTION, payloadHandle)
        end
  | _, _ => ret (EVENT_COLLECTOR_EXCEPTION, payloadHandle)
  end.

(** ** The event *)

(** The event, when the result is [EVENT_COLLECTOR_OK].  [fill] writes the
    payloads.  A failure of [GenericEvent_AddMetadata] is always
    [EVENT_COLLECTOR_EXCEPTION]. *)
Definition build_event {S} `{HasWorld S} (category name type version : string)
    (fill : JsonArrayWriter -> M S (EventCollectorResult * JsonArrayWriter))
    : M S (EventCollectorResult * option JsonObjectWriter) :=
  let* (r, eventHandle) := up JsonObjectWriter_Init in
  match r, eventHandle with
  | JSON_WRITER_OK, Some eventHandle =>
      let* (r, eventHandle) := up (GenericEvent_AddMetadata eventHandle category name type version) in
      if decide (r <> EVENT_COLLECTOR_OK) then ret (r, None)
      else
        let* (r, payloadHandle) := up JsonArrayWriter_Init in
        match r, payloadHandle with
        | JSON_WRITER_OK, Some payloadHandle =>
            let* (r, payloadHandle) := fill payloadHandle in
            if decide (r <> EVENT_COLLECTOR_OK) then ret (r, None)
            else
              match GenericEvent_AddPayload eventHandle payloadHandle with
              | (EVENT_COLLECTOR_OK, eventHandle, _) => ret (EVENT_COLLECTOR_OK, Some eventHandle)
              | (r, _, _) => ret (r, None)
              end
        | _, _ => ret (EVENT_COLLECTOR_EXCEPTION, None)
        end
  | _, _ => ret (EVENT_COLLECTOR_EXCEPTION, None)
  end.

(** The text of the event is pushed; it is freed when the queue refuses it. *)
Definition push_event {Mon : MemoryMonitor} (queue : SyncQueue) (eventHandle : JsonObjectWriter)
    : M (Store (D := string)) (EventCollectorResult * SyncQueue) :=
  match JsonObjectWriter_Serialize eventHandle with
  | (JSON_WRITER_OK, Some (buffer, bufferSize)) =>
      let* (r, queue, _) := SyncQueue_PushBack queue buffer bufferSize in
      ret (if decide (r = QueueResult QUEUE_OK) then EVENT_COLLECTOR_OK else EVENT_COLLECTOR_EXCEPTION, queue)
  | _ => ret (EVENT_COLLECTOR_EXCEPTION, queue)
  end.

(** A collector whose payloads depend on the world only. *)
Definition collect {Mon : MemoryMonitor} (queue : SyncQueue) (category name type version : string)
    (fill : JsonArrayWriter -> M World (EventCollectorResult * JsonArrayWriter))
    : M (Store (D := string)) (EventCollectorResult * SyncQueue) :=
  let* (r, event) := build_event category name type version (fun a => up (fill a)) in
  match event with
  | Some event => push_event queue event
  | None => ret (r, queue)
  end.

(** ** Specification *)

Definition write_string (key value : string) (w : JsonObjectWriter) : option JsonObjectWriter :=
  d ← json_object_set_string (wr_rootValue w) (wr_rootObject w) key value; Some (set_document d w).

Definition write_field (f : Field) (w : JsonObjectWriter) : option JsonObjectWriter :=
  match f with
  | (key, FString s) => write_string key s w
  | (key, FInt n) =>
      d ← json_object_set_number (wr_rootValue w) (wr_rootObject w) key (QArith_base.inject_Z n); Some (set_document d w)
  | (key, FBool b) =>
      d ← json_object_set_boolean (wr_rootValue w) (wr_rootObject w) key b; Some (set_document d w)
  end.

Fixpoint write_fields (fs : list Field) (w : JsonObjectWriter) : option JsonObjectWriter :=
  match fs with
  | [] => Some w
  | f :: fs => w ← write_field f w; write_fields fs w
  end.

Definition append_object (a : JsonArrayWriter) (w : JsonObjectWriter) : option JsonArrayWriter :=
  d ← json_array_append_value (aw_rootValue a) (aw_rootArray a) (wr_rootValue w);
  Some (mkArrayWriter d (aw_rootArray a) (aw_shouldFree a)).

(** The array with one more object of these fields, and with one for each list. *)
Definition add_fields (a : JsonArrayWriter) (fs : list Field) : option JsonArrayWriter :=
  w ← new_writer; w ← write_fields fs w; append_object a w.

Fixpoint add_all (a : JsonArrayWriter) (l : list (list Field)) : option JsonArrayWriter :=
  match l with
  | [] => Some a
  | fs :: l => a ← add_fields a fs; add_all a l
  end.

(** How a step that depends on the payloads [l] ends: it adds them all or fails. *)
Definition adds_fields (a : JsonArrayWriter) (l : list (list Field)) (r : EventCollectorResult) (a' : JsonArrayWriter) : Prop :=
  (r = EVENT_COLLECTOR_OK -> add_all a l = Some a') /\ (r <> EVENT_COLLECTOR_OK -> add_all a l = None).

(** The text of an event with the payloads of the array [a]. *)
Definition event_text (a : JsonArrayWriter) (text : string) : Prop :=
  exists event event' a',
    GenericEvent_AddPayload event a = (EVENT_COLLECTOR_OK, event', a') /\
    json_serialize_to_string (wr_rootValue event') = Some text.

(** What a collector with the result [r] queues: one event whose payloads are
    written by [filled] into the empty array, or nothing. *)
Definition queued (filled : JsonArrayWriter -> JsonArrayWriter -> Prop) (r : EventCollectorResult)
    (new : list (nat * (string * Z))) : Prop :=
  match r with
  | EVENT_COLLECTOR_OK =>
      exists a0 a text b,
        new_array = Some a0 /\ filled a0 a /\ event_text a text /\ new = [(b, (text, u32 (strlen text)))]
  | _ => new = []
  end.

End Collector.

(** ** Lemmas *)

Section CollectorLemmas.
Context {P : Parson}.

Lemma field_run f w (x : World) :
  field_step f w x = Some (match write_field f w with Some w' => (true, w') | None => (false, w) end, x).
Proof.
  destruct f as [key [s|n|b]]; unfold field_step, string_step, int_step, bool_step, write_field, write_string,
    JsonObjectWriter_WriteString, JsonObjectWriter_WriteInt, JsonObjectWriter_WriteBool, write_result;
    by match goal with |- context [match ?x with Some _ => _ | None => _ end] => destruct x end.
Qed.

Lemma run_fields fs w (x : World) :
  exists ok w', run_steps (map field_step fs) w x = Some ((ok, w'), x) /\
    write_fields fs w = if ok then Some w' else None.
Proof.
  revert w. induction fs as [|f fs IH]; intros w; cbn [map run_steps write_fields]; [by exists true, w|].
  unfold bind. rewrite field_run. destruct (write_field f w) as [w1|]; cbn [mbind option_bind]; [apply IH | by exists false, w].
Qed.

Lemma add_object_run a fs w :
  reliable w ->
  add_object a (map field_step fs) w =
  Some (match add_fields a fs with Some a' => (EVENT_COLLECTOR_OK, a') | None => (EVENT_COLLECTOR_EXCEPTION, a) end, bump 1 w).
Proof.
  intros Hr. unfold add_object, add_fields. rewrite (bind_eq _ _ _ _ _ (WriterInit_new w Hr)).
  destruct new_writer as [o|]; cbn [mbind option_bind]; [|done].
  destruct (run_fields fs o (bump 1 w)) as (ok & o' & Hrun & ->). rewrite (bind_eq _ _ _ _ _ Hrun).
  destruct ok; cbn [negb mbind option_bind]; [|done]. unfold JsonArrayWriter_AddObject, append_object.
  by destruct (json_array_append_value (aw_rootValue a) (aw_rootArray a) (wr_rootValue o')).
Qed.

Lemma add_object_adds a fs w n :
  reliable w ->
  exists m r a', add_object a (map field_step fs) (bump n w) = Some ((r, a'), bump m w) /\ adds_fields a [fs] r a'.
Proof.
  intros Hr. rewrite add_object_run by done. rewrite bump_bump. unfold adds_fields. cbn [add_all].
  destruct (add_fields a fs) as [a'|]; cbn [mbind option_bind]; do 3 eexists; (split; [reflexivity|]); done.
Qed.

Lemma add_all_app a l l' : add_all a (l ++ l') = (a' ← add_all a l; add_all a' l').
Proof.
  revert a. induction l as [|fs l IH]; intros a; [done|]. cbn [app add_all].
  destruct (add_fields a fs) as [a'|]; [apply IH | done].
Qed.

Lemma adds_fields_nothing a : adds_fields a [] EVENT_COLLECTOR_OK a.
Proof. done. Qed.

(** A step after one that succeeded, and a step that failed. *)
Lemma adds_fields_app a l a1 l' r a' :
  adds_fields a l EVENT_COLLECTOR_OK a1 -> adds_fields a1 l' r a' -> adds_fields a (l ++ l') r a'.
Proof. intros [H1 _] [H2 H3]. unfold adds_fields. by rewrite add_all_app, H1. Qed.

Lemma adds_fields_stop a l r a1 l' : r <> EVENT_COLLECTOR_OK -> adds_fields a l r a1 -> adds_fields a (l ++ l') r a1.
Proof. intros Hr [_ H]. unfold adds_fields. by rewrite add_all_app, H. Qed.

(** How building an event ends when [fill] ends with [Q]: without a payload, or
    after [fill]. *)
Definition built {S} `{HasWorld S} (Q : JsonArrayWriter -> EventCollectorResult -> JsonArrayWriter -> S -> Prop)
    (r : EventCollectorResult) (event : option JsonObjectWriter) (s s' : S) : Prop :=
  (r <> EVENT_COLLECTOR_OK /\ event = None /\ exists n, s' = elapse n s) \/
  exists a0 r1 a, new_array = Some a0 /\ Q a0 r1 a s' /\
    match event with
    | None => r <> EVENT_COLLECTOR_OK
    | Some e => r = EVENT_COLLECTOR_OK /\ r1 = EVENT_COLLECTOR_OK /\
        exists e0 a', GenericEvent_AddPayload e0 a = (EVENT_COLLECTOR_OK, e, a')
    end.

Lemma build_event_run {S} `{HasWorld S} category name type version fill (s : S) Q :
  reliable (world_of s) -> times_fit (env (world_of s)) ->
  (forall a n, exists r a' s', fill a (elapse n s) = Some ((r, a'), s') /\ Q a r a' s') ->
  exists r event s', build_event category name type version fill s = Some ((r, event), s') /\ built Q r event s s'.
Proof.
  intros Hr Hf Hfill. unfold build_event.
  assert (Hstop : forall r n, r <> EVENT_COLLECTOR_OK -> exists r' event s',
    ret (r, @None JsonObjectWriter) (elapse n s) = Some ((r', event), s') /\ built Q r' event s s').
  { intros r n Hne. exists r, None, (elapse n s). split; [done|]. left. eauto. }
  rewrite (bind_eq _ _ _ _ _ (up_bump _ _ 1 s (WriterInit_new _ Hr))).
  destruct new_writer as [event|]; [|by apply Hstop].
  destruct (AddMetadata_run (bump 1 (world_of s)) event category name type version Hf) as (r1 & event1 & n1 & H1).
  rewrite <- world_of_elapse in H1. rewrite (bind_eq _ _ _ _ _ (up_bump _ _ n1 (elapse 1 s) H1)), elapse_elapse.
  case_decide as Hd; [by apply Hstop|].
  pose proof (ArrayInit_new (world_of (elapse (n1 + 1) s))) as H3.
  rewrite world_of_elapse in H3. specialize (H3 Hr). rewrite <- world_of_elapse in H3.
  rewrite (bind_eq _ _ _ _ _ (up_bump _ _ 1 (elapse (n1 + 1) s) H3)), elapse_elapse.
  destruct new_array as [a0|] eqn:Ea; [|by apply Hstop].
  destruct (Hfill a0 (1 + (n1 + 1))%nat) as (r2 & a & s' & Hrun & HQ). rewrite (bind_eq _ _ _ _ _ Hrun).
  case_decide as Hd2; [eexists _, _, _; split; [reflexivity|]; right; exists a0, r2, a; by split|].
  assert (r2 = EVENT_COLLECTOR_OK) as -> by (destruct r2; tauto).
  destruct (GenericEvent_AddPayload event1 a) as [[r3 event3] a3] eqn:E3.
  destruct r3; eexists _, _, _; (split; [reflexivity|]); right; eexists a0, _, a;
    (split; [done|]); (split; [exact HQ|]); first [done | by eauto].
Qed.

Context {Mon : MemoryMonitor} {Laws : MemoryMonitorLaws Mon}.

Lemma push_event_run queue (s : Store (D := string)) items event :
  sync_holds queue s items -> Z.of_nat (List.length items) < UINT32_MAX ->
  exists r queue' s' new, push_event queue event s = Some ((r, queue'), s') /\
    sync_holds queue' s' (items ++ new) /\ only_monitor (st_world s) (st_world s') /\
    match r with
    | EVENT_COLLECTOR_OK => exists text b, json_serialize_to_string (wr_rootValue event) = Some text /\
        new = [(b, (text, u32 (strlen text)))]
    | _ => new = []
    end.
Proof.
  intros Hq Hlen. unfold push_event, JsonObjectWriter_Serialize.
  destruct (json_serialize_to_string (wr_rootValue event)) as [text|].
  - destruct (SyncPushBack_run queue s items text (u32 (strlen text)) Hq Hlen) as (ok & q2 & s2 & b & Hp & _ & Hq2 & Ho & _).
    rewrite (bind_eq _ _ _ _ _ Hp). destruct ok.
    + exists EVENT_COLLECTOR_OK, q2, s2, [(b, (text, u32 (strlen text)))]. do 3 (split; [done|]). by exists text, b.
    + by exists EVENT_COLLECTOR_EXCEPTION, q2, s2, [].
  - eexists _, queue, s, []. split; [reflexivity|]. rewrite app_nil_r. split; [done|]. by split; [apply only_monitor_refl|].
Qed.

Lemma sync_holds_elapse queue (s : Store (D := string)) items n : sync_holds queue s items -> sync_holds queue (elapse n s) items.
Proof. apply sync_holds_bump. Qed.

(** A collector queues at most one event, with the payloads that [fill] writes. *)
Lemma collect_run queue category name type version fill (s : Store (D := string)) items filled :
  sync_holds queue s items -> times_fit (env (st_world s)) -> Z.of_nat (List.length items) < UINT32_MAX ->
  (forall a n, exists m r a', fill a (bump n (st_world s)) = Some ((r, a'), bump m (st_world s)) /\
     (r = EVENT_COLLECTOR_OK -> filled a a')) ->
  exists r queue' s' new, collect queue category name type version fill s = Some ((r, queue'), s') /\
    sync_holds queue' s' (items ++ new) /\ only_monitor (st_world s) (st_world s') /\ queued filled r new.
Proof.
  intros Hq Hf Hlen Hfill. unfold collect.
  assert (Hr : reliable (world_of s)) by exact (sync_holds_reliable _ _ _ Hq).
  assert (Hf' : times_fit (env (world_of s))) by exact Hf.
  destruct (build_event_run category name type version (fun a => up (fill a)) s
    (fun a r a' s' => (exists m, s' = elapse m s) /\ (r = EVENT_COLLECTOR_OK -> filled a a')) Hr Hf')
    as (r & event & s1 & Hb & Hbuilt).
  { intros a n. destruct (Hfill a n) as (m & r & a' & Hrun & Ha). exists r, a', (elapse m s). split; [|split; [by exists m | done]].
    unfold up. cbn. by rewrite Hrun. }
  rewrite (bind_eq _ _ _ _ _ Hb).
  assert (Hs1 : exists m, s1 = elapse m s) by (destruct Hbuilt as [(_ & _ & H)|(? & ? & ? & _ & [H _] & _)]; exact H).
  destruct Hs1 as [m ->]. pose proof (sync_holds_elapse queue s items m Hq) as Hqm.
  destruct event as [event|].
  - destruct Hbuilt as [(_ & [=] & _)|(a0 & r1 & a & Ha0 & [_ HQ] & -> & -> & e0 & a' & He)].
    destruct (push_event_run queue _ items event Hqm Hlen) as (r & q & s' & new & Hp & Hq' & Ho & Hnew).
    exists r, q, s', new. split; [exact Hp|]. split; [exact Hq'|].
    split; [eapply only_monitor_trans; [apply only_monitor_bump | exact Ho]|].
    destruct r; try done. destruct Hnew as (text & b & Ht & ->). exists a0, a, text, b.
    split; [done|]. split; [by apply HQ|]. split; [by exists e0, event, a' | done].
  - exists r, queue, (elapse m s), []. rewrite app_nil_r. split; [done|]. split; [exact Hqm|]. split; [apply only_monitor_bump|].
    assert (r <> EVENT_COLLECTOR_OK) as Hne by (destruct Hbuilt as [(? & _)|(? & ? & ? & _ & _ & H)]; done). by destruct r.
Qed.

End CollectorLemmas.
