(* ===== verification/EventAggregator.v ===== *)
(** * [collectors/event_aggregator.c]: aggregation of equal events

    The aggregator counts equal payloads and, when its interval has passed or
    aggregation is disabled, turns every payload it holds into one event with
    its hit count.  The list comes from the platform's shared utilities
    ([singlylinkedlist.h]), which are not part of the repository: they are a
    parameter, with the documented behaviour as laws.  The items that the list
    points to live in a heap of their own. *)

From S2P Require Import Prelude CString TwinDefs World Utils TimeUtils Parson Json TwinCollectors TwinConfiguration MemoryMonitor Telemetry Queue SyncQueue Schema MessageSerializer GenericEvent Collector ParsonModel.
From Stdlib Require Import String.
Open Scope Z_scope.

(** ** The list library *)

(** Values are addresses, [None] is the null pointer.  [find] calls its callback
    on the items, and is undefined where the callback is.  Whether [create] and
    [add] find memory is decided by the environment where they are called. *)
Class SinglyLinkedList : Type := {
  SLL : Type;
  LIST_ITEM : Type;
  singlylinkedlist_create : SLL;
  singlylinkedlist_add : SLL -> option nat -> SLL;
  singlylinkedlist_get_head_item : SLL -> option LIST_ITEM;
  singlylinkedlist_get_next_item : SLL -> LIST_ITEM -> option LIST_ITEM;
  singlylinkedlist_item_get_value : SLL -> LIST_ITEM -> option nat;
  singlylinkedlist_remove : SLL -> LIST_ITEM -> SLL;
  singlylinkedlist_find : SLL -> (LIST_ITEM -> option bool) -> option (option LIST_ITEM);
}.

(** The first item that the callback accepts, in order. *)
Fixpoint first_match {I V} (l : list (I * V)) (match_function : I -> option bool) : option (option I) :=
  match l with
  | [] => Some None
  | (i, _) :: l' =>
      match match_function i with
      | None => None
      | Some true => Some (Some i)
      | Some false => first_match l' match_function
      end
  end.

Class SinglyLinkedListLaws (Lib : SinglyLinkedList) : Type := {
  sll_wf : SLL -> Prop;
  sll_contents : SLL -> list (LIST_ITEM * option nat);
  sll_create_law : sll_wf singlylinkedlist_create /\ sll_contents singlylinkedlist_create = [];
  sll_add_law : forall l v, sll_wf l ->
    sll_wf (singlylinkedlist_add l v) /\
    exists i, sll_contents (singlylinkedlist_add l v) = sll_contents l ++ [(i, v)];
  sll_head_law : forall l, sll_wf l -> singlylinkedlist_get_head_item l = option_map fst (head (sll_contents l));
  sll_next_law : forall l l1 i v l2, sll_wf l -> sll_contents l = l1 ++ (i, v) :: l2 ->
    singlylinkedlist_get_next_item l i = option_map fst (head l2);
  sll_value_law : forall l i v, sll_wf l -> (i, v) ∈ sll_contents l -> singlylinkedlist_item_get_value l i = v;
  sll_remove_law : forall l i v l', sll_wf l -> sll_contents l = (i, v) :: l' ->
    sll_wf (singlylinkedlist_remove l i) /\ sll_contents (singlylinkedlist_remove l i) = l';
  sll_find_law : forall l f, sll_wf l -> singlylinkedlist_find l f = first_match (sll_contents l) f;
}.

(** ** Data *)

Inductive EventAggregatorResult : Type :=
  | EVENT_AGGREGATOR_OK
  | EVENT_AGGREGATOR_DISABLED
  | EVENT_AGGREGATOR_EXCEPTION.

#[export] Instance EventAggregatorResult_eq_dec : EqDecision EventAggregatorResult.
Proof. solve_decision. Defined.

Record EventAggregatorConfiguration : Type := mkAggregatorConfiguration {
  cfg_iotEventType : TwinConfigurationEventType;
  cfg_event_type : option string;
  cfg_event_name : option string;
  cfg_payload_schema_version : option string;
}.

Definition HIT_COUNT_KEY : string := "HitCount".
Definition START_TIME_LOCAL_KEY : string := "StartTimeLocal".
Definition START_TIME_UTC_KEY : string := "StartTimeUtc".
Definition END_TIME_LOCAL_KEY : string := "EndTimeLocal".
Definition END_TIME_UTC_KEY : string := "EndTimeUtc".

Section EventAggregator.
Context {P : Parson} {Mon : MemoryMonitor} {Lib : SinglyLinkedList}.

Record AggregatedEventItem : Type := mkAggregated {
  ai_json : option JsonObjectWriter;
  ai_hitCount : Z;
}.

Record EventAggregator : Type := mkAggregator {
  ea_iotEventType : TwinConfigurationEventType;
  ea_event_type : option string;
  ea_event_name : option string;
  ea_payload_schema_version : option string;
  ea_aggregatedEvents : option SLL;
  ea_lastAggregationTime : Z;
}.

Definition set_list (l : option SLL) (a : EventAggregator) : EventAggregator :=
  mkAggregator (ea_iotEventType a) (ea_event_type a) (ea_event_name a) (ea_payload_schema_version a) l
    (ea_lastAggregationTime a).

Definition set_lastAggregationTime (t : Z) (a : EventAggregator) : EventAggregator :=
  mkAggregator (ea_iotEventType a) (ea_event_type a) (ea_event_name a) (ea_payload_schema_version a)
    (ea_aggregatedEvents a) t.

(** The store of the queues, and the heap of aggregated items. *)
Record AgState : Type := mkAgState {
  ag_store : Store (D := string);
  ag_items : gmap nat AggregatedEventItem;
  ag_next : nat;
}.

Definition ag_world (s : AgState) : World := st_world (ag_store s).

Definition in_store {A} (m : M (Store (D := string)) A) : M AgState A :=
  fun s => match m (ag_store s) with
           | None => None
           | Some (a, st) => Some (a, mkAgState st (ag_items s) (ag_next s))
           end.

Definition in_world {A} (m : M World A) : M AgState A := in_store (lift m).

Definition load_item (a : nat) : M AgState AggregatedEventItem :=
  fun s => match ag_items s !! a with None => None | Some item => Some (item, s) end.

Definition store_item (a : nat) (item : AggregatedEventItem) : M AgState unit :=
  fun s => match ag_items s !! a with
           | None => None
           | Some _ => Some (tt, mkAgState (ag_store s) (<[a := item]> (ag_items s)) (ag_next s))
           end.

(** [malloc(sizeof(AggregatedEventItem))] and its first assignments. *)
Definition new_item (item : AggregatedEventItem) : M AgState (option nat) :=
  ok <- in_world malloc ;;
  if ok then
    fun s => Some (Some (ag_next s), mkAgState (ag_store s) (<[ag_next s := item]> (ag_items s)) (S (ag_next s)))
  else ret None.

(** ** Operations *)

Definition AggregatedEventItem_Deinit (item : option nat) : M AgState unit :=
  match item with
  | None => ret tt
  | Some a =>
      fun s => match ag_items s !! a with
               | None => None
               | Some _ => Some (tt, mkAgState (ag_store s) (delete a (ag_items s)) (ag_next s))
               end
  end.

Fixpoint EventAggregator_ClearAggregatedEvents (fuel : nat) (aggregatedEvents : SLL) : M AgState SLL :=
  match singlylinkedlist_get_head_item aggregatedEvents with
  | None => ret aggregatedEvents
  | Some listItem =>
      match fuel with
      | O => undefined
      | S fuel' =>
          AggregatedEventItem_Deinit (singlylinkedlist_item_get_value aggregatedEvents listItem) ;;;
          EventAggregator_ClearAggregatedEvents fuel' (singlylinkedlist_remove aggregatedEvents listItem)
      end
  end.

(** Frees the aggregator: nothing is left to return. *)
Definition EventAggregator_Deinit (fuel : nat) (aggregator : EventAggregator) : M AgState unit :=
  match ea_aggregatedEvents aggregator with
  | None => ret tt
  | Some l => EventAggregator_ClearAggregatedEvents fuel l ;;; ret tt
  end.

(** [configurtion] is [None] for the null pointer.  A failure after the
    aggregator is allocated deinitialises it, with no list yet. *)
Definition EventAggregator_Init (configurtion : option EventAggregatorConfiguration)
    : M AgState (EventAggregatorResult * option EventAggregator) :=
  match configurtion with
  | Some (mkAggregatorConfiguration type (Some event_type) (Some event_name) (Some version)) =>
      ok <- in_world malloc ;;
      require ok else (EVENT_AGGREGATOR_EXCEPTION, None) ;;
      now <- in_world TimeUtils_GetCurrentTime ;;
      name_copy <- in_world (Utils_CreateStringCopy (Some event_name)) ;;
      let failed := fun aggregatorObj =>
        EventAggregator_Deinit 0 aggregatorObj ;;; ret (EVENT_AGGREGATOR_EXCEPTION, None) in
      match name_copy with
      | None => failed (mkAggregator type None None None None now)
      | Some _ =>
          version_copy <- in_world (Utils_CreateStringCopy (Some version)) ;;
          match version_copy with
          | None => failed (mkAggregator type None name_copy None None now)
          | Some _ =>
              type_copy <- in_world (Utils_CreateStringCopy (Some event_type)) ;;
              match type_copy with
              | None => failed (mkAggregator type None name_copy version_copy None now)
              | Some _ =>
                  created <- in_world fallible ;;
                  if created : bool then
                    ret (EVENT_AGGREGATOR_OK,
                         Some (mkAggregator type type_copy name_copy version_copy (Some singlylinkedlist_create) now))
                  else failed (mkAggregator type type_copy name_copy version_copy None now)
              end
          end
      end
  | _ => ret (EVENT_AGGREGATOR_EXCEPTION, None)
  end.

Definition EventAggregator_IsAggregationEnabled (aggregator : EventAggregator)
    : M AgState (EventAggregatorResult * option bool) :=
  let* (r, isEnabled) := in_world (TwinConfigurationEventCollectors_GetAggregationEnabled (ea_iotEventType aggregator)) in
  ret (if decide (r <> TWIN_OK) then EVENT_AGGREGATOR_EXCEPTION else EVENT_AGGREGATOR_OK, isEnabled).

(** The callback of [singlylinkedlist_find]: undefined on a dangling item. *)
Definition EventAggregator_MatchEvent (items : gmap nat AggregatedEventItem) (l : SLL)
    (match_context : option JsonObjectWriter) (list_item : LIST_ITEM) : option bool :=
  match singlylinkedlist_item_get_value l list_item, match_context with
  | Some currentItem, Some matchPayload =>
      match items !! currentItem with
      | Some (mkAggregated (Some json) _) => Some (JsonObjectWriter_Compare json matchPayload)
      | _ => None
      end
  | _, _ => Some false
  end.

Definition EventAggregator_SearchEvent (l : SLL) (eventPayload : JsonObjectWriter) : M AgState (option nat) :=
  items <- gets ag_items ;;
  match singlylinkedlist_find l (EventAggregator_MatchEvent items l (Some eventPayload)) with
  | None => undefined
  | Some None => ret None
  | Some (Some listItem) => ret (singlylinkedlist_item_get_value l listItem)
  end.

Definition EventAggregator_AddNewEvent (l : SLL) (eventPayload : JsonObjectWriter)
    : M AgState (EventAggregatorResult * SLL) :=
  newItem <- new_item (mkAggregated None 1) ;;
  let cleanup := AggregatedEventItem_Deinit newItem ;;; ret (EVENT_AGGREGATOR_EXCEPTION, l) in
  match newItem with
  | None => cleanup
  | Some a =>
      let* (r, json) := in_world (JsonObjectWriter_Copy eventPayload) in
      store_item a (mkAggregated json 1) ;;;
      if decide (r <> JSON_WRITER_OK) then cleanup
      else
        added <- in_world fallible ;;
        if added : bool then ret (EVENT_AGGREGATOR_OK, singlylinkedlist_add l newItem) else cleanup
  end.

Definition EventAggregator_AggregateEvent (aggregator : EventAggregator) (eventPayload : JsonObjectWriter)
    : M AgState (EventAggregatorResult * EventAggregator) :=
  let* (result, isEnabled) := EventAggregator_IsAggregationEnabled aggregator in
  if decide (result <> EVENT_AGGREGATOR_OK) then ret (result, aggregator)
  else if negb (default false isEnabled) then ret (EVENT_AGGREGATOR_DISABLED, aggregator)
  else
    match ea_aggregatedEvents aggregator with
    | None => undefined
    | Some l =>
        eventDataItem <- EventAggregator_SearchEvent l eventPayload ;;
        match eventDataItem with
        | None =>
            let* (result, l) := EventAggregator_AddNewEvent l eventPayload in
            ret (result, set_list (Some l) aggregator)
        | Some a =>
            item <- load_item a ;;
            store_item a (mkAggregated (ai_json item) (u32 (ai_hitCount item + 1))) ;;;
            ret (result, aggregator)
        end
    end.

(** ** Flushing *)

(** The times of the aggregation are written in this order. *)
Definition metadata_steps (hitCount aggregationStartTime aggregationEndTime : Z) : list Step :=
  let bufferSize := MAX_TIME_AS_STRING_LENGTH + 1 in
  [ int_step HIT_COUNT_KEY (i32 hitCount);
    computed_step START_TIME_LOCAL_KEY (TimeUtils_GetTimeAsString aggregationStartTime bufferSize);
    computed_step START_TIME_UTC_KEY (TimeUtils_GetLocalTimeAsUTCTimeAsString aggregationStartTime bufferSize);
    computed_step END_TIME_LOCAL_KEY (TimeUtils_GetTimeAsString aggregationEndTime bufferSize);
    computed_step END_TIME_UTC_KEY (TimeUtils_GetLocalTimeAsUTCTimeAsString aggregationEndTime bufferSize) ].

(** When the payload has extra details, [metadata] is the payload itself,
    stepped into them. *)
Definition EventAggregator_AddAggregationMetadata (payload : JsonObjectWriter)
    (hitCount aggregationStartTime aggregationEndTime : Z) : M World (EventAggregatorResult * JsonObjectWriter) :=
  let steps := metadata_steps hitCount aggregationStartTime aggregationEndTime in
  match JsonObjectWriter_StepIn payload EXTRA_DETAILS_KEY with
  | (JSON_WRITER_OK, payload) =>
      let* (ok, payload) := run_steps steps payload in
      ret (if ok then EVENT_AGGREGATOR_OK else EVENT_AGGREGATOR_EXCEPTION, payload)
  | (_, payload) =>
      let* (r, metadata) := JsonObjectWriter_Init in
      match r, metadata with
      | JSON_WRITER_OK, Some metadata =>
          let* (ok, metadata) := run_steps steps metadata in
          if negb ok then ret (EVENT_AGGREGATOR_EXCEPTION, payload)
          else
            match JsonObjectWriter_WriteObject payload EXTRA_DETAILS_KEY metadata with
            | (JSON_WRITER_OK, payload, _) => ret (EVENT_AGGREGATOR_OK, payload)
            | (_, payload, _) => ret (EVENT_AGGREGATOR_EXCEPTION, payload)
            end
      | _, _ => ret (EVENT_AGGREGATOR_EXCEPTION, payload)
      end
  end.

(** Strings that are not null: the aggregator was initialised. *)
Definition EventAggregator_CreateSingleAggregatedEvent (aggregator : EventAggregator) (nodeData : nat)
    (queue : SyncQueue) (aggregationEndTime : Z) : M AgState (EventAggregatorResult * SyncQueue) :=
  match ea_event_name aggregator, ea_event_type aggregator, ea_payload_schema_version aggregator with
  | Some event_name, Some event_type, Some payload_schema_version =>
      let* (r, event) := in_world JsonObjectWriter_Init in
      match r, event with
      | JSON_WRITER_OK, Some event =>
          let* (r, event) := in_world (GenericEvent_AddMetadata event EVENT_AGGREGATED_CATEGORY event_name
                                         event_type payload_schema_version) in
          require bool_decide (r = EVENT_COLLECTOR_OK) else (EVENT_AGGREGATOR_EXCEPTION, queue) ;;
          let* (r, payloads) := in_world JsonArrayWriter_Init in
          match r, payloads with
          | JSON_WRITER_OK, Some payloads =>
              item <- load_item nodeData ;;
              match ai_json item with
              | None => undefined
              | Some json =>
                  let* (result, json) := in_world
                    (EventAggregator_AddAggregationMetadata json (ai_hitCount item)
                       (ea_lastAggregationTime aggregator) aggregationEndTime) in
                  store_item nodeData (mkAggregated (Some json) (ai_hitCount item)) ;;;
                  require bool_decide (result = EVENT_AGGREGATOR_OK) else (result, queue) ;;
                  let '(r, payloads, json) := JsonArrayWriter_AddObject payloads json in
                  store_item nodeData (mkAggregated (Some json) (ai_hitCount item)) ;;;
                  require bool_decide (r = JSON_WRITER_OK) else (EVENT_AGGREGATOR_EXCEPTION, queue) ;;
                  let '(r, event, payloads) := GenericEvent_AddPayload event payloads in
                  require bool_decide (r = EVENT_COLLECTOR_OK) else (EVENT_AGGREGATOR_EXCEPTION, queue) ;;
                  match JsonObjectWriter_Serialize event with
                  | (JSON_WRITER_OK, Some (output, outputSize)) =>
                      let* (qResult, queue, _) := in_store (SyncQueue_PushBack queue output outputSize) in
                      ret (if decide (qResult = QueueResult QUEUE_MAX_MEMORY_EXCEEDED) then EVENT_AGGREGATOR_OK
                           else if decide (qResult <> QueueResult QUEUE_OK) then EVENT_AGGREGATOR_EXCEPTION
                           else EVENT_AGGREGATOR_OK, queue)
                  | _ => ret (EVENT_AGGREGATOR_EXCEPTION, queue)
                  end
              end
          | _, _ => ret (EVENT_AGGREGATOR_EXCEPTION, queue)
          end
      | _, _ => ret (EVENT_AGGREGATOR_EXCEPTION, queue)
      end
  | _, _, _ => undefined
  end.

(** The loop over the list; [fuel] bounds its rounds. *)
Fixpoint CreateAggregatedEvents_loop (fuel : nat) (aggregator : EventAggregator) (l : SLL) (current : option LIST_ITEM)
    (aggregationEndTime : Z) (queue : SyncQueue) (result : EventAggregatorResult)
    : M AgState (EventAggregatorResult * SyncQueue) :=
  match current with
  | None => ret (result, queue)
  | Some item =>
      match fuel with
      | O => undefined
      | S fuel' =>
          let* (result, queue) :=
            match singlylinkedlist_item_get_value l item with
            | Some dataItem =>
                let* (r, queue) := EventAggregator_CreateSingleAggregatedEvent aggregator dataItem queue
                                     aggregationEndTime in
                ret (if decide (r <> EVENT_AGGREGATOR_OK) then EVENT_AGGREGATOR_EXCEPTION else result, queue)
            | None => ret (EVENT_AGGREGATOR_EXCEPTION, queue)
            end in
          CreateAggregatedEvents_loop fuel' aggregator l (singlylinkedlist_get_next_item l item)
            aggregationEndTime queue result
      end
  end.

(** [ClearAggregatedEvents] always returns [EVENT_AGGREGATOR_OK]. *)
Definition EventAggregator_CreateAggregatedEvents (fuel : nat) (aggregator : EventAggregator) (aggregationEndTime : Z)
    (queue : SyncQueue) : M AgState (EventAggregatorResult * EventAggregator * SyncQueue) :=
  match ea_aggregatedEvents aggregator with
  | None => undefined
  | Some l =>
      let* (result, queue) := CreateAggregatedEvents_loop fuel aggregator l (singlylinkedlist_get_head_item l)
                                aggregationEndTime queue EVENT_AGGREGATOR_OK in
      l <- EventAggregator_ClearAggregatedEvents fuel l ;;
      ret (result, set_list (Some l) aggregator, queue)
  end.

(** The time difference, an [int32_t], is compared with the [uint32_t] interval. *)
Definition interval_passed (diff aggregationInterval : Z) : bool := aggregationInterval <? u32 diff.

Definition EventAggregator_GetAggregatedEvents (fuel : nat) (aggregator : EventAggregator) (queue : SyncQueue)
    : M AgState (EventAggregatorResult * EventAggregator * SyncQueue) :=
  now <- in_world TimeUtils_GetCurrentTime ;;
  let* (result, isAggregationEnabled) := EventAggregator_IsAggregationEnabled aggregator in
  if decide (result <> EVENT_AGGREGATOR_OK) then ret (result, aggregator, queue)
  else
    let* (r, aggregationInterval) := in_world
      (TwinConfigurationEventCollectors_GetAggregationInterval (ea_iotEventType aggregator)) in
    match r, aggregationInterval with
    | TWIN_OK, Some aggregationInterval =>
        diff <- in_world (TimeUtils_GetTimeDiff now (ea_lastAggregationTime aggregator)) ;;
        if negb (default false isAggregationEnabled) || interval_passed diff aggregationInterval then
          let* (result, aggregator, queue) := EventAggregator_CreateAggregatedEvents fuel aggregator now queue in
          ret (result, set_lastAggregationTime now aggregator, queue)
        else ret (EVENT_AGGREGATOR_OK, aggregator, queue)
    | _, _ => ret (EVENT_AGGREGATOR_EXCEPTION, aggregator, queue)
    end.

(** ** Specification *)

(** What the aggregator holds: payloads with their hit counts. *)
Definition Aggregates : Type := list (Doc * Z).

(** One more of the first payload that equals [d]. *)
Fixpoint count_hit (d : Doc) (l : Aggregates) : option Aggregates :=
  match l with
  | [] => None
  | (d', n) :: l' => if json_value_equals d' d then Some ((d', u32 (n + 1)) :: l')
                     else option_map (cons (d', n)) (count_hit d l')
  end.

(** The copy of a payload: its text, parsed. *)
Definition copied (d : Doc) : option Doc :=
  text ← json_serialize_to_string d; parse_event text.

Definition spec_aggregate (d : Doc) (l : Aggregates) : EventAggregatorResult * Aggregates :=
  match count_hit d l with
  | Some l' => (EVENT_AGGREGATOR_OK, l')
  | None => match copied d with
            | Some d' => (EVENT_AGGREGATOR_OK, l ++ [(d', 1)])
            | None => (EVENT_AGGREGATOR_EXCEPTION, l)
            end
  end.

Fixpoint spec_aggregate_all (ds : list Doc) (l : Aggregates) : list EventAggregatorResult * Aggregates :=
  match ds with
  | [] => ([], l)
  | d :: ds' =>
      let '(r, l) := spec_aggregate d l in
      let '(rs, l) := spec_aggregate_all ds' l in
      (r :: rs, l)
  end.

Fixpoint aggregate_all (payloads : list JsonObjectWriter) (aggregator : EventAggregator)
    : M AgState (list EventAggregatorResult * EventAggregator) :=
  match payloads with
  | [] => ret ([], aggregator)
  | p :: payloads' =>
      let* (r, aggregator) := EventAggregator_AggregateEvent aggregator p in
      let* (rs, aggregator) := aggregate_all payloads' aggregator in
      ret (r :: rs, aggregator)
  end.

Fixpoint total_hits (l : Aggregates) : Z :=
  match l with
  | [] => 0
  | (_, n) :: l' => n + total_hits l'
  end.

(** The writer of a parsed document, at its root. *)
Definition writer_of (d : Doc) : option JsonObjectWriter :=
  o ← json_value_get_object d (json_root d); Some (mkWriter d o true).

(** *** The events of a flush *)

(** The strings that the aggregator's events carry. *)
Record Heading : Type := mkHeading {
  h_event_type : string;
  h_event_name : string;
  h_version : string;
}.

Definition headed (h : Heading) (aggregator : EventAggregator) : Prop :=
  ea_event_type aggregator = Some (h_event_type h) /\ ea_event_name aggregator = Some (h_event_name h) /\
  ea_payload_schema_version aggregator = Some (h_version h).

(** Fields of values that may be missing: all of them, or none. *)
Definition all_fields (l : list (string * option FieldValue)) : option (list Field) :=
  mapM (fun x => v ← snd x; Some (fst x, v)) l.

(** The hit count and the two times, as the environment [v] writes them. *)
Definition metadata_values (v : Env) (hitCount start stop : Z) : list (string * option FieldValue) :=
  [ (HIT_COUNT_KEY, Some (FInt (i32 hitCount)));
    (START_TIME_LOCAL_KEY, FString <$> env_localtime v start); (START_TIME_UTC_KEY, FString <$> env_gmtime v start);
    (END_TIME_LOCAL_KEY, FString <$> env_localtime v stop); (END_TIME_UTC_KEY, FString <$> env_gmtime v stop) ].

Definition metadata_fields (v : Env) (hitCount start stop : Z) : option (list Field) :=
  all_fields (metadata_values v hitCount start stop).

(** The payload with these fields among its extra details, which are a new
    object when it has none. *)
Definition with_metadata (fields : option (list Field)) (payload : JsonObjectWriter) : option JsonObjectWriter :=
  match JsonObjectWriter_StepIn payload EXTRA_DETAILS_KEY with
  | (JSON_WRITER_OK, details) => fields ← fields; write_fields fields details
  | (_, payload) =>
      o ← new_writer;
      details ← (fields ← fields; write_fields fields o);
      d ← json_object_set_value (wr_rootValue payload) (wr_rootObject payload) EXTRA_DETAILS_KEY (wr_rootValue details);
      Some (set_document d payload)
  end.

(** The aggregated payload of [e], as the environment [v] writes the times. *)
Definition aggregated_payload (v : Env) (start stop : Z) (e : Doc * Z) : option JsonObjectWriter :=
  payload ← writer_of (fst e);
  with_metadata (metadata_fields v (snd e) start stop) payload.

(** The text of the event of [e], created in [w]: a head of the category
    [Aggregated] and the aggregated payload as its only one. *)
Definition aggregated_text (h : Heading) (w : World) (start stop : Z) (e : Doc * Z) : option string :=
  o ← new_writer;
  match GenericEvent_AddMetadata o EVENT_AGGREGATED_CATEGORY (h_event_name h) (h_event_type h) (h_version h) w with
  | Some ((EVENT_COLLECTOR_OK, event), _) =>
      a ← new_array;
      payload ← aggregated_payload (env w) start stop e;
      a ← append_object a payload;
      match GenericEvent_AddPayload event a with
      | (EVENT_COLLECTOR_OK, event, _) => json_serialize_to_string (wr_rootValue event)
      | _ => None
      end
  | _ => None
  end.

(** How the event of [e] ends, when [n] bytes of [limit] are in use before and
    [n'] after it: queued with its whole text, refused because the cache is
    full, which is no error, or not written because a time, the identifier or
    the JSON library fails. *)
Inductive emission (h : Heading) (v : Env) (limit start stop : Z) (e : Doc * Z) (n : Z) :
    EventAggregatorResult -> list (nat * (string * Z)) -> Z -> Prop :=
  | emission_queued w text b :
      env w = v -> aggregated_text h w start stop e = Some text ->
      u32 (n + Queue_CalculateItemSize (u32 (strlen text))) <= limit ->
      emission h v limit start stop e n EVENT_AGGREGATOR_OK [(b, (text, u32 (strlen text)))]
        (u32 (n + Queue_CalculateItemSize (u32 (strlen text))))
  | emission_refused w text :
      env w = v -> aggregated_text h w start stop e = Some text ->
      limit < u32 (n + Queue_CalculateItemSize (u32 (strlen text))) ->
      emission h v limit start stop e n EVENT_AGGREGATOR_OK [] n
  | emission_unwritable w :
      env w = v -> aggregated_text h w start stop e = None ->
      emission h v limit start stop e n EVENT_AGGREGATOR_EXCEPTION [] n.

(** The events of all payloads, in order; one that fails does not stop the others. *)
Inductive emissions (h : Heading) (v : Env) (limit start stop : Z) :
    Aggregates -> Z -> EventAggregatorResult -> list (nat * (string * Z)) -> Z -> Prop :=
  | emissions_end n : emissions h v limit start stop [] n EVENT_AGGREGATOR_OK [] n
  | emissions_next e l n r new n1 r' new' n' :
      emission h v limit start stop e n r new n1 -> emissions h v limit start stop l n1 r' new' n' ->
      emissions h v limit start stop (e :: l) n
        (if decide (r <> EVENT_AGGREGATOR_OK) then EVENT_AGGREGATOR_EXCEPTION else r') (new ++ new') n'.

Context {LL : SinglyLinkedListLaws Lib}.

(** The item at [a] counts the payload of [e]. *)
Definition counts (items : gmap nat AggregatedEventItem) (a : nat) (e : Doc * Z) : Prop :=
  exists w, items !! a = Some (mkAggregated (Some w) (snd e)) /\ writer_of (fst e) = Some w.

(** The aggregator holds [entries] at the addresses [addrs]. *)
Definition aggregates (s : AgState) (aggregator : EventAggregator) (addrs : list nat) (entries : Aggregates) : Prop :=
  exists l, ea_aggregatedEvents aggregator = Some l /\ sll_wf l /\ (sll_contents l).*2 = map Some addrs /\
    Forall2 (counts (ag_items s)) addrs entries /\ NoDup addrs /\
    forall a, is_Some (ag_items s !! a) -> (a < ag_next s)%nat.

Definition aggregation_enabled (t : TwinConfigurationEventType) (e : TwinConfigurationEventCollectors) : option bool :=
  match t with
  | EVENT_TYPE_PROCESS_CREATE => Some (ev_processCreateAggregationEnabled e)
  | EVENT_TYPE_CONNECTION_CREATE => Some (ev_connectionCreateAggregationEnabled e)
  | _ => None
  end.

Definition aggregation_interval (t : TwinConfigurationEventType) (e : TwinConfigurationEventCollectors) : option Z :=
  match t with
  | EVENT_TYPE_PROCESS_CREATE => Some (ev_processCreateAggregationInterval e)
  | EVENT_TYPE_CONNECTION_CREATE => Some (ev_connectionCreateAggregationInterval e)
  | _ => None
  end.

(** Aggregation is on for the aggregator's type. *)
Definition aggregating (s : AgState) (aggregator : EventAggregator) : Prop :=
  reliable (ag_world s) /\ section_free (ag_world s) /\
  aggregation_enabled (ea_iotEventType aggregator) (eventPriorities (ag_world s)) = Some true.

(** ** Lemmas: the settings *)

Lemma entered_left_bump w :
  section_free w -> left_section (held w) (entered w) = bump 2 w.
Proof.
  intros [Hu (l & Hl & Hn)]. unfold entered, left_section. rewrite Hl.
  destruct w as [? ? ? ? ? ? ? ? e], e. cbn in *. subst. done.
Qed.

Lemma section_both w (Hf : section_free w) (Hr : reliable w) :
  TwinConfigurationEventCollectors_Lock w = Some (true, entered w) /\
  TwinConfigurationEventCollectors_Unlock (entered w) = Some (true, bump 2 w).
Proof.
  split; [by rewrite section_Lock, (Hr (tick w))|]. pose proof (entered_left_bump w Hf) as Hb.
  destruct Hf as [Hu (l & Hl & Hn)]. unfold entered in *. rewrite Hl in *.
  rewrite (section_Unlock _ l) by (done || cbn; auto). cbn [env set_held bump set_tick set_eventPriorities].
  rewrite (Hr _). cbn [held set_held set_eventPriorities]. by rewrite lock_unlock_held, Hb.
Qed.

Lemma entered_priorities w :
  section_free w -> eventPriorities (entered w) = set_ev_isLocked true (eventPriorities w).
Proof. intros [_ (l & Hl & _)]. unfold entered. by rewrite Hl. Qed.

Lemma GetAggregationEnabled_run t w b :
  section_free w -> reliable w -> aggregation_enabled t (eventPriorities w) = Some b ->
  TwinConfigurationEventCollectors_GetAggregationEnabled t w = Some ((TWIN_OK, Some b), bump 2 w).
Proof.
  intros Hf Hr Ht. destruct (section_both w Hf Hr) as [H1 H2].
  unfold TwinConfigurationEventCollectors_GetAggregationEnabled. rewrite (bind_eq _ _ _ _ _ H1). cbn [negb].
  unfold bind, gets. rewrite entered_priorities by done.
  destruct t; try discriminate; injection Ht as <-; by rewrite H2.
Qed.

Lemma GetAggregationInterval_run t w n :
  section_free w -> reliable w -> aggregation_interval t (eventPriorities w) = Some n ->
  TwinConfigurationEventCollectors_GetAggregationInterval t w = Some ((TWIN_OK, Some n), bump 2 w).
Proof.
  intros Hf Hr Ht. destruct (section_both w Hf Hr) as [H1 H2].
  unfold TwinConfigurationEventCollectors_GetAggregationInterval. rewrite (bind_eq _ _ _ _ _ H1). cbn [negb].
  unfold bind, gets. rewrite entered_priorities by done.
  destruct t; try discriminate; injection Ht as <-; by rewrite H2.
Qed.

(** ** Lemmas: the list and the heap *)

(** The state after calls that took only time. *)
Definition later (n : nat) (s : AgState) : AgState :=
  mkAgState (mkStore (bump n (ag_world s)) (st_heap (ag_store s)) (next_item (ag_store s))) (ag_items s) (ag_next s).

Lemma in_world_later {A} (m : M World A) a n s :
  m (ag_world s) = Some (a, bump n (ag_world s)) -> in_world m s = Some (a, later n s).
Proof. unfold ag_world at 1. unfold in_world, in_store, lift. by intros ->. Qed.

Lemma IsAggregationEnabled_run s agg b :
  section_free (ag_world s) -> reliable (ag_world s) ->
  aggregation_enabled (ea_iotEventType agg) (eventPriorities (ag_world s)) = Some b ->
  EventAggregator_IsAggregationEnabled agg s = Some ((EVENT_AGGREGATOR_OK, Some b), later 2 s).
Proof.
  intros Hf Hr He. unfold EventAggregator_IsAggregationEnabled.
  by rewrite (bind_eq _ _ _ _ _ (in_world_later _ _ _ _ (GetAggregationEnabled_run _ _ _ Hf Hr He))).
Qed.

(** The address of the first item whose payload equals [d]. *)
Fixpoint matching (addrs : list nat) (entries : Aggregates) (d : Doc) : option nat :=
  match addrs, entries with
  | a :: addrs', (d', _) :: entries' => if json_value_equals d' d then Some a else matching addrs' entries' d
  | _, _ => None
  end.

Lemma Match_run items l i a e payload :
  singlylinkedlist_item_get_value l i = Some a -> counts items a e ->
  EventAggregator_MatchEvent items l (Some payload) i = Some (json_value_equals (fst e) (wr_rootValue payload)).
Proof.
  intros Hv (w & Hi & Hd). unfold EventAggregator_MatchEvent. rewrite Hv, Hi. unfold JsonObjectWriter_Compare.
  unfold writer_of in Hd. destruct (json_value_get_object _ _); [|done]. by injection Hd as <-.
Qed.

Lemma first_match_run items l payload c : forall addrs entries,
  (forall i v, (i, v) ∈ c -> singlylinkedlist_item_get_value l i = v) -> c.*2 = map Some addrs ->
  Forall2 (counts items) addrs entries ->
  match matching addrs entries (wr_rootValue payload) with
  | None => first_match c (EventAggregator_MatchEvent items l (Some payload)) = Some None
  | Some a => exists i, first_match c (EventAggregator_MatchEvent items l (Some payload)) = Some (Some i) /\
                singlylinkedlist_item_get_value l i = Some a
  end.
Proof.
  induction c as [|[i v] c IH]; intros addrs entries Hv Hc Hall.
  - destruct addrs; [by inversion Hall | done].
  - destruct addrs as [|a addrs]; [done|]. injection Hc as -> Hc. inversion Hall as [|? [d n] ? entries' Hcnt Hall']; subst.
    assert (Hi : singlylinkedlist_item_get_value l i = Some a) by (apply Hv; left).
    cbn [matching first_match]. rewrite (Match_run _ _ _ _ _ _ Hi Hcnt). cbn [fst].
    destruct (json_value_equals d (wr_rootValue payload)); [by exists i|].
    apply IH; [intros ? ? H; apply Hv; by right | done | done].
Qed.

Lemma Search_run s agg addrs entries l payload :
  aggregates s agg addrs entries -> ea_aggregatedEvents agg = Some l ->
  EventAggregator_SearchEvent l payload s = Some (matching addrs entries (wr_rootValue payload), s).
Proof.
  intros (l' & El & Hwf & Hc & Hall & _ & _) Hl. rewrite Hl in El. injection El as <-.
  unfold EventAggregator_SearchEvent, bind, gets. rewrite (sll_find_law _ _ Hwf).
  assert (Hval : forall i v, (i, v) ∈ sll_contents l -> singlylinkedlist_item_get_value l i = v)
    by (intros i v Hi; by apply (sll_value_law l)).
  pose proof (first_match_run (ag_items s) l payload _ _ _ Hval Hc Hall) as Hm.
  destruct (matching addrs entries (wr_rootValue payload)) as [a|]; [|by rewrite Hm].
  destruct Hm as (i & -> & Hi). unfold ret. by rewrite Hi.
Qed.

(** The heap changes nowhere among [addrs]. *)
Lemma counts_frame items items' addrs entries :
  Forall2 (counts items) addrs entries -> (forall a, a ∈ addrs -> items' !! a = items !! a) ->
  Forall2 (counts items') addrs entries.
Proof.
  intros Hall Hf. induction Hall as [|a e addrs entries (w & Hi & Hd) _ IH]; constructor.
  - exists w. rewrite Hf by left. done.
  - apply IH. intros b Hb. apply Hf. by right.
Qed.

(** ** Lemmas: one event *)

Lemma matching_in addrs : forall entries d a, matching addrs entries d = Some a -> a ∈ addrs.
Proof.
  induction addrs as [|b addrs IH]; intros [|[d' n] entries] d a; cbn [matching]; try discriminate.
  destruct (json_value_equals d' d); [intros [= <-]; left | intros H; right; by eapply IH].
Qed.

Lemma no_match addrs entries items d :
  Forall2 (counts items) addrs entries -> matching addrs entries d = None -> count_hit d entries = None.
Proof.
  intros Hall. induction Hall as [|a [d' n] addrs entries _ _ IH]; cbn [matching count_hit]; [done|].
  destruct (json_value_equals d' d); [discriminate|]. intros H. by rewrite (IH H).
Qed.

(** Counting a hit in the heap counts it in the aggregates. *)
Lemma hit_run items addrs entries d a :
  Forall2 (counts items) addrs entries -> NoDup addrs -> matching addrs entries d = Some a ->
  exists item entries', items !! a = Some item /\ count_hit d entries = Some entries' /\
    Forall2 (counts (<[a := mkAggregated (ai_json item) (u32 (ai_hitCount item + 1))]> items)) addrs entries'.
Proof.
  intros Hall. induction Hall as [|b [d' n] addrs entries (w & Hi & Hd) Hall IH]; cbn [matching count_hit]; [done|].
  intros [Hb Hnd]%NoDup_cons. destruct (json_value_equals d' d) eqn:E.
  - intros [= ->]. exists (mkAggregated (Some w) n). eexists. split; [done|]. split; [done|]. constructor.
    + exists w. by rewrite lookup_insert_eq.
    + eapply counts_frame; [exact Hall|]. intros c Hc. rewrite lookup_insert_ne; [done|]. by intros ->.
  - intros Ha. destruct (IH Hnd Ha) as (item & entries' & H1 & H2 & H3).
    exists item, ((d', n) :: entries'). rewrite H2. split; [done|]. split; [done|]. constructor; [|done].
    exists w. rewrite lookup_insert_ne; [done|]. intros ->. by apply Hb, (matching_in _ _ _ _ Ha).
Qed.

Lemma Copy_run p w :
  reliable w ->
  exists n, JsonObjectWriter_Copy p w =
    Some (match copied (wr_rootValue p) with
          | Some doc => (JSON_WRITER_OK, o ← json_value_get_object doc (json_root doc); Some (mkWriter doc o true))
          | None => (JSON_WRITER_EXCEPTION, None)
          end, bump n w) /\
    forall doc, copied (wr_rootValue p) = Some doc -> is_Some (json_value_get_object doc (json_root doc)).
Proof.
  intros Hr. unfold JsonObjectWriter_Copy, JsonObjectWriter_Serialize, copied.
  destruct (json_serialize_to_string (wr_rootValue p)) as [text|]; cbn [mbind option_bind].
  - exists 1%nat. exact (WriterInit_run text w Hr).
  - exists 0%nat. rewrite bump_0. done.
Qed.

(** Nothing but time, and the heap at the new address. *)
Lemma AddNewEvent_run s agg addrs entries l payload :
  reliable (ag_world s) -> aggregates s agg addrs entries -> ea_aggregatedEvents agg = Some l ->
  exists l' n items',
    EventAggregator_AddNewEvent l payload s =
      Some ((match copied (wr_rootValue payload) with Some _ => EVENT_AGGREGATOR_OK | None => EVENT_AGGREGATOR_EXCEPTION end, l'),
            mkAgState (ag_store (later n s)) items' (S (ag_next s))) /\
    aggregates (mkAgState (ag_store (later n s)) items' (S (ag_next s))) (set_list (Some l') agg)
      (match copied (wr_rootValue payload) with Some _ => addrs ++ [ag_next s] | None => addrs end)
      (match copied (wr_rootValue payload) with Some d => entries ++ [(d, 1)] | None => entries end) /\
    forall a, (a < ag_next s)%nat -> items' !! a = ag_items s !! a.
Proof.
  intros Hr (l' & El & Hwf & Hc & Hall & Hnd & Hf) Hl. rewrite Hl in El. injection El as <-.
  set (a := ag_next s). assert (Ha : forall b, b ∈ addrs -> b <> a).
  { intros b Hb ->. eapply list_elem_of_lookup_1 in Hb as [i Hi].
    destruct (Forall2_lookup_l _ _ _ _ _ Hall Hi) as (e & _ & (w & Hw & _)).
    assert (a < ag_next s)%nat by (apply Hf; by rewrite Hw). unfold a in *. lia. }
  unfold EventAggregator_AddNewEvent, new_item. rewrite bind_assoc.
  rewrite (bind_eq _ _ _ _ _ (in_world_later malloc true 1 s (malloc_reliable _ Hr))).
  set (s1 := mkAgState (ag_store (later 1 s)) (<[a := mkAggregated None 1]> (ag_items s)) (S a)).
  assert (Hr1 : reliable (ag_world s1)) by done.
  destruct (Copy_run payload (ag_world s1) Hr1) as (k & Hcopy & Hobj).
  unfold bind at 1. fold a. fold s1. cbv beta iota zeta.
  rewrite (bind_eq _ _ _ _ _ (in_world_later _ _ _ _ Hcopy)).
  destruct (copied (wr_rootValue payload)) as [d|] eqn:Ed.
  - destruct (Hobj d eq_refl) as [o Ho]. rewrite Ho. cbn [mbind option_bind].
    unfold bind at 1, store_item. cbn [ag_items later s1]. rewrite lookup_insert_eq. rewrite decide_False by tauto.
    assert (Hok : fallible (ag_world (mkAgState (ag_store (later k s1)) (<[a := mkAggregated (Some (mkWriter d o true)) 1]> (<[a := mkAggregated None 1]> (ag_items s))) (ag_next (later k s1)))) = Some (true, bump 1 (bump k (ag_world s1)))) by (by apply fallible_reliable).
    rewrite (bind_eq _ _ _ _ _ (in_world_later _ _ 1 _ Hok)).
    destruct (sll_add_law l (Some a) Hwf) as (Hwf' & i & Hadd).
    eexists (singlylinkedlist_add l (Some a)), (1 + (k + 1))%nat, _. split; [|split].
    + unfold later, ret. cbn. rewrite !bump_bump. reflexivity.
    + eexists. split; [done|]. split; [done|]. split; [by rewrite Hadd, fmap_app, Hc, map_app|]. split; [|split].
      * apply Forall2_app; [|constructor; [|constructor]].
        -- eapply counts_frame; [exact Hall|]. intros b Hb. cbn. rewrite !lookup_insert_ne by (intros <-; by apply (Ha a)). done.
        -- exists (mkWriter d o true). cbn. unfold writer_of. by rewrite lookup_insert_eq, Ho.
      * apply NoDup_app. split; [done|]. split; [|apply NoDup_singleton].
        intros b Hb ->%list_elem_of_singleton. by apply (Ha a).
      * intros b. cbn. destruct (decide (b = a)) as [->|Hne]; [lia|]. rewrite !lookup_insert_ne by done.
        intros Hb%Hf. fold a in Hb. lia.
    + intros b Hb. fold a in Hb. cbn. rewrite !lookup_insert_ne by lia. done.
  - unfold bind at 1, store_item. cbn [ag_items later s1]. rewrite lookup_insert_eq. rewrite decide_True by done.
    unfold bind, AggregatedEventItem_Deinit. cbn [ag_items]. rewrite lookup_insert_eq.
    exists l, (k + 1)%nat. eexists. split; [|split].
    + unfold later, ret. cbn. rewrite !bump_bump. reflexivity.
    + exists l. split; [done|]. split; [done|]. split; [done|]. split; [|split; [done|]].
      * eapply counts_frame; [exact Hall|]. intros b Hb. cbn. apply Ha in Hb.
        rewrite lookup_delete_ne, !lookup_insert_ne by done. done.
      * intros b. cbn. destruct (decide (b = a)) as [->|Hne]; [lia|].
        rewrite lookup_delete_ne, !lookup_insert_ne by done. intros Hb%Hf. fold a in Hb. lia.
    + intros b Hb. fold a in Hb. cbn. rewrite lookup_delete_ne, !lookup_insert_ne by lia. done.
Qed.

Lemma aggregates_later s n agg addrs entries : aggregates s agg addrs entries -> aggregates (later n s) agg addrs entries.
Proof. done. Qed.

Lemma aggregating_later s n agg : aggregating s agg -> aggregating (later n s) agg.
Proof. done. Qed.

(** Every step of the aggregator is the step of the specification. *)
Lemma AggregateEvent_run s agg addrs entries payload :
  aggregating s agg -> aggregates s agg addrs entries ->
  exists agg' addrs' s',
    EventAggregator_AggregateEvent agg payload s =
      Some ((fst (spec_aggregate (wr_rootValue payload) entries), agg'), s') /\
    aggregates s' agg' addrs' (snd (spec_aggregate (wr_rootValue payload) entries)) /\ aggregating s' agg' /\
    eventPriorities (ag_world s') = eventPriorities (ag_world s) /\
    (exists n, ag_store s' = ag_store (later n s)) /\ agg' = set_list (ea_aggregatedEvents agg') agg.
Proof.
  intros (Hr & Hf & He) Hagg. unfold EventAggregator_AggregateEvent.
  rewrite (bind_eq _ _ _ _ _ (IsAggregationEnabled_run s agg true Hf Hr He)).
  rewrite decide_False by tauto.
  pose proof (aggregates_later s 2 agg _ _ Hagg) as Hagg2.
  pose proof Hagg as (l & El & Hwf & Hc & Hall & Hnd & Hfresh). cbn [id from_option negb]. rewrite El.
  rewrite (bind_eq _ _ _ _ _ (Search_run (later 2 s) agg addrs entries l payload Hagg2 El)).
  unfold spec_aggregate. destruct (matching addrs entries (wr_rootValue payload)) as [a|] eqn:Em.
  - destruct (hit_run (ag_items s) addrs entries _ a Hall Hnd Em) as (item & entries' & Hi & Hh & Hall'). rewrite Hh.
    unfold bind, load_item, store_item. cbn [later ag_items]. rewrite !Hi. cbn [later ag_items]. rewrite ?Hi.
    exists agg, addrs. eexists. split; [reflexivity|].
    split; [|split; [done|]; split; [done|]; split; [by exists 2%nat | by destruct agg]].
    exists l. split; [done|]. split; [done|]. split; [done|]. split; [done|]. split; [done|].
    intros b. cbn. destruct (decide (b = a)) as [->|Hne]; [|rewrite lookup_insert_ne by done; apply Hfresh].
    intros _. apply Hfresh. by rewrite Hi.
  - rewrite (no_match _ _ _ _ Hall Em).
    destruct (AddNewEvent_run (later 2 s) agg addrs entries l payload Hr Hagg2 El) as (l' & n & items' & Hrun & Hagg' & _).
    rewrite (bind_eq _ _ _ _ _ Hrun). exists (set_list (Some l') agg).
    exists (match copied (wr_rootValue payload) with Some _ => addrs ++ [ag_next s] | None => addrs end). eexists.
    split; [destruct (copied (wr_rootValue payload)); reflexivity|].
    split; [by destruct (copied (wr_rootValue payload))|]. split; [done|]. split; [done|]. split; [|by destruct agg].
    exists (n + 2)%nat. unfold later, ag_world. cbn. by rewrite bump_bump.
Qed.

Lemma aggregate_all_run payloads : forall s agg addrs entries,
  aggregating s agg -> aggregates s agg addrs entries ->
  exists agg' addrs' s',
    aggregate_all payloads agg s =
      Some ((fst (spec_aggregate_all (map wr_rootValue payloads) entries), agg'), s') /\
    aggregates s' agg' addrs' (snd (spec_aggregate_all (map wr_rootValue payloads) entries)) /\ aggregating s' agg'.
Proof.
  induction payloads as [|p payloads IH]; intros s agg addrs entries Ha Hagg; [by exists agg, addrs, s|].
  cbn [aggregate_all map spec_aggregate_all].
  destruct (AggregateEvent_run s agg addrs entries p Ha Hagg) as (agg1 & addrs1 & s1 & H1 & Hagg1 & Ha1 & _).
  rewrite (bind_eq _ _ _ _ _ H1). destruct (spec_aggregate (wr_rootValue p) entries) as [r e1]. cbn [fst snd] in *.
  destruct (IH s1 agg1 addrs1 e1 Ha1 Hagg1) as (agg2 & addrs2 & s2 & H2 & Hagg2 & Ha2).
  rewrite (bind_eq _ _ _ _ _ H2). destruct (spec_aggregate_all (map wr_rootValue payloads) e1) as [rs e2].
  by exists agg2, addrs2, s2.
Qed.

(** ** Lemmas: counting *)

Lemma count_hit_total d l : forall l', count_hit d l = Some l' ->
  Forall (fun e => 0 <= snd e) l -> total_hits l < UINT32_MAX ->
  total_hits l' = total_hits l + 1 /\ Forall (fun e => 0 <= snd e) l'.
Proof.
  induction l as [|[d' n] l IH]; intros l'; cbn [count_hit total_hits]; [done|]. intros Hh Hp Ht.
  apply Forall_cons in Hp as [Hn Hp]. cbn in Hn.
  assert (Hl : 0 <= total_hits l) by (clear -Hp; induction Hp as [|[? ?] ? ? ? IH]; cbn in *; lia).
  destruct (json_value_equals d' d).
  - injection Hh as <-. cbn [total_hits]. rewrite u32_small by ulia. split; [lia|]. constructor; [cbn; lia | done].
  - destruct (count_hit d l) as [l2|] eqn:E; [|done]. injection Hh as <-. cbn [total_hits].
    destruct (IH l2 eq_refl Hp) as [-> Hp2]; [ulia|]. split; [lia|]. by constructor.
Qed.

Lemma total_app l l' : total_hits (l ++ l') = total_hits l + total_hits l'.
Proof. induction l as [|[? ?] l IH]; cbn; [done|]. rewrite IH. lia. Qed.

Lemma spec_aggregate_total d l :
  Forall (fun e => 0 <= snd e) l -> total_hits l < UINT32_MAX ->
  total_hits (snd (spec_aggregate d l)) =
    total_hits l + (if decide (fst (spec_aggregate d l) = EVENT_AGGREGATOR_OK) then 1 else 0) /\
  Forall (fun e => 0 <= snd e) (snd (spec_aggregate d l)).
Proof.
  intros Hp Ht. unfold spec_aggregate. destruct (count_hit d l) as [l'|] eqn:E; [|destruct (copied d) as [d'|]]; cbn [fst snd].
  - by apply (count_hit_total d).
  - rewrite decide_True by done. rewrite total_app. cbn [total_hits]. split; [lia|]. apply Forall_app. split; [done|]. repeat constructor. cbn. lia.
  - rewrite decide_False by done. split; [lia | done].
Qed.

Lemma spec_all_total ds : forall l,
  Forall (fun e => 0 <= snd e) l -> total_hits l + Z.of_nat (List.length ds) <= UINT32_MAX ->
  total_hits (snd (spec_aggregate_all ds l)) =
    total_hits l + Z.of_nat (List.length (filter (fun r => r = EVENT_AGGREGATOR_OK) (fst (spec_aggregate_all ds l)))).
Proof.
  induction ds as [|d ds IH]; intros l Hp Ht; [cbn; lia|]. cbn [spec_aggregate_all]. cbn [List.length] in Ht.
  destruct (spec_aggregate_total d l Hp) as [Hn Hp']; [ulia|].
  destruct (spec_aggregate d l) as [r l1]. cbn [fst snd] in *.
  specialize (IH l1 Hp'). destruct (spec_aggregate_all ds l1) as [rs l2]. cbn [fst snd] in *.
  rewrite IH by (case_decide; lia). rewrite filter_cons. case_decide; cbn [List.length]; lia.
Qed.

(** ** Lemmas: flushing *)

(** Only time has passed, and only the item at [a] may have changed. *)
Definition touched (a : nat) (s s' : AgState) : Prop :=
  exists n, ag_store s' = ag_store (later n s) /\ ag_next s' = ag_next s /\
    (forall b, b <> a -> ag_items s' !! b = ag_items s !! b) /\ is_Some (ag_items s' !! a).

Lemma touched_later a s s' n : touched a s s' -> touched a s (later n s').
Proof.
  intros (m & Hs & Hn & Hf & Ha). exists (n + m)%nat. split; [|done].
  unfold later, ag_world in *. rewrite Hs. cbn. by rewrite bump_bump.
Qed.

Lemma touched_store a s s' item :
  touched a s s' -> touched a s (mkAgState (ag_store s') (<[a := item]> (ag_items s')) (ag_next s')).
Proof.
  intros (m & Hs & Hn & Hf & Ha). exists m. split; [done|]. split; [done|]. cbn. split.
  - intros b Hb. rewrite lookup_insert_ne by done. by apply Hf.
  - rewrite lookup_insert_eq. eauto.
Qed.

(** A step that takes only time, in a state of [a]. *)
Lemma step_later {A} (m : M World A) s s1 a :
  touched a s s1 -> (exists x n, m (ag_world s1) = Some (x, bump n (ag_world s1))) ->
  exists x s2, in_world m s1 = Some (x, s2) /\ touched a s s2 /\ ag_items s2 = ag_items s1.
Proof.
  intros Ht (x & n & H). exists x, (later n s1).
  split; [by apply in_world_later|]. split; [by apply touched_later | done].
Qed.

Definition sized (x : nat * (string * Z)) : Prop := snd (snd x) = u32 (strlen (fst (snd x))).

(** Only the item at [a] and what pushing [new] changes. *)
Definition pushed (a : nat) (items new : list (nat * (string * Z))) (queue : SyncQueue) (s s' : AgState) : Prop :=
  sync_holds queue (ag_store s') (items ++ new) /\ only_monitor (ag_world s) (ag_world s') /\
  consumption (ag_world s') = charge_all (consumption (ag_world s)) new /\
  ag_next s' = ag_next s /\ (forall b, b <> a -> ag_items s' !! b = ag_items s !! b) /\ is_Some (ag_items s' !! a).

(** What is left to do queues [text], or nothing when there is none. *)
Definition emits (a : nat) (items : list (nat * (string * Z))) (s : AgState) (text : option string)
    (result : option ((EventAggregatorResult * SyncQueue) * AgState)) : Prop :=
  exists r queue' s' new,
    result = Some ((r, queue'), s') /\ pushed a items new queue' s s' /\
    match text with
    | None => r = EVENT_AGGREGATOR_EXCEPTION /\ new = []
    | Some text => r = EVENT_AGGREGATOR_OK /\ exists b,
        new = if granted (ag_world s) (Queue_CalculateItemSize (u32 (strlen text))) then [(b, (text, u32 (strlen text)))] else []
    end.

Context {Laws : MemoryMonitorLaws Mon}.

Lemma touched_queue a s s' queue items :
  touched a s s' -> sync_holds queue (ag_store s) items -> pushed a items [] queue s s'.
Proof.
  intros (n & Hs & Hn & Hf & Ha) Hq. unfold pushed, ag_world. rewrite Hs, app_nil_r. cbn.
  destruct (sync_holds_bump queue (ag_store s) items n Hq) as [_ H2]. by repeat (split; [done || apply only_monitor_bump|]).
Qed.

Lemma emits_stop a items queue s s' :
  touched a s s' -> sync_holds queue (ag_store s) items ->
  emits a items s None (ret (EVENT_AGGREGATOR_EXCEPTION, queue) s').
Proof. intros Ht Hq. exists EVENT_AGGREGATOR_EXCEPTION, queue, s', []. split; [done|]. split; [by apply touched_queue | done]. Qed.

(** The push of the text, at the end. *)
Lemma emits_push a items queue s s' text :
  touched a s s' -> sync_holds queue (ag_store s) items -> Z.of_nat (List.length items) < UINT32_MAX ->
  emits a items s (Some text)
    ((let* (qResult, queue, _) := in_store (SyncQueue_PushBack queue text (u32 (strlen text))) in
      ret (if decide (qResult = QueueResult QUEUE_MAX_MEMORY_EXCEEDED) then EVENT_AGGREGATOR_OK
           else if decide (qResult <> QueueResult QUEUE_OK) then EVENT_AGGREGATOR_EXCEPTION
           else EVENT_AGGREGATOR_OK, queue)) s').
Proof.
  intros Ht Hq Hlen. destruct (touched_queue _ _ _ _ _ Ht Hq) as (Hq' & Ho & Hn0 & _). rewrite app_nil_r in Hq'.
  destruct Ht as (n & Hs & Hn & Hf & Ha).
  destruct (SyncPushBack_run queue (ag_store s') items text (u32 (strlen text)) Hq' Hlen)
    as (ok & q2 & s2 & b & Hp & Hok & Hq2 & Ho2 & Hn2).
  unfold emits, bind, in_store. rewrite Hp.
  exists EVENT_AGGREGATOR_OK, q2, (mkAgState s2 (ag_items s') (ag_next s')), (if ok then [(b, (text, u32 (strlen text)))] else []).
  split; [by destruct ok|]. split.
  - split; [exact Hq2|]. split; [by eapply only_monitor_trans|]. split; [|done].
    unfold ag_world in *. cbn [ag_store] in *. rewrite Hn2. by rewrite Hn0.
  - split; [done|]. exists b. rewrite Hok. unfold ag_world. by rewrite Hs.
Qed.

(** A step that takes no time and writes a field, if it has a value for it. *)
Definition writes_value (e : Env) (step : Step) (x : string * option FieldValue) : Prop :=
  forall o w, env w = e ->
  step o w = Some (match (v ← snd x; write_field (fst x, v) o) with Some o' => (true, o') | None => (false, o) end, w).

Lemma values_run e steps l : Forall2 (writes_value e) steps l -> forall o w, env w = e ->
  exists ok o', run_steps steps o w = Some ((ok, o'), w) /\
    (fields ← all_fields l; write_fields fields o) = if ok then Some o' else None.
Proof.
  induction 1 as [|step [key v] steps l Hs _ IH]; intros o w He; [by exists true, o|].
  cbn [run_steps]. rewrite (bind_eq _ _ _ _ _ (Hs o w He)). unfold all_fields in *. cbn [mapM fst snd].
  destruct v as [x|]; cbn [mbind option_bind]; [|by exists false, o].
  destruct (write_field (key, x) o) as [o1|] eqn:E.
  - destruct (IH o1 w He) as (ok & o' & Hrun & Hl). exists ok, o'. split; [exact Hrun|]. rewrite <- Hl.
    destruct (mapM _ l) as [fs|]; [|done]. cbn [mbind option_bind mret option_ret write_fields]. by rewrite E.
  - exists false, o. split; [done|]. destruct (mapM _ l) as [fs|]; [|done].
    cbn [mbind option_bind mret option_ret write_fields]. by rewrite E.
Qed.

Lemma computed_writes e key value text :
  (forall w, env w = e -> value w = Some (text, w)) -> writes_value e (computed_step key value) (key, FString <$> text).
Proof.
  intros Hv o w He. unfold computed_step. rewrite (bind_eq _ _ _ _ _ (Hv w He)).
  destruct text as [t|]; [exact (field_run (key, FString t) o w) | done].
Qed.

Lemma LocalTime_run e t w :
  times_fit e -> env w = e ->
  TimeUtils_GetTimeAsString t (MAX_TIME_AS_STRING_LENGTH + 1) w = Some (env_localtime e t, w).
Proof.
  intros Hf He. unfold TimeUtils_GetTimeAsString, strftime, bind, gets. rewrite He.
  destruct (env_localtime e t) as [x|] eqn:E; [|done].
  by rewrite (proj2 (Z.ltb_lt _ _)) by (specialize (Hf t x (or_introl E)); unfold MAX_TIME_AS_STRING_LENGTH in *; lia).
Qed.

Lemma UtcTime_run e t w :
  times_fit e -> env w = e ->
  TimeUtils_GetLocalTimeAsUTCTimeAsString t (MAX_TIME_AS_STRING_LENGTH + 1) w = Some (env_gmtime e t, w).
Proof.
  intros Hf He. unfold TimeUtils_GetLocalTimeAsUTCTimeAsString, strftime, bind, gets. rewrite He.
  destruct (env_gmtime e t) as [x|] eqn:E; [|done].
  by rewrite (proj2 (Z.ltb_lt _ _)) by (specialize (Hf t x (or_intror E)); unfold MAX_TIME_AS_STRING_LENGTH in *; lia).
Qed.

(** Writing the metadata takes no time, and gives the fields of the specification. *)
Lemma metadata_run e n t1 t2 o w :
  times_fit e -> env w = e ->
  exists ok o', run_steps (metadata_steps n t1 t2) o w = Some ((ok, o'), w) /\
    (fields ← metadata_fields e n t1 t2; write_fields fields o) = if ok then Some o' else None.
Proof.
  intros Hf. apply values_run. unfold metadata_steps, metadata_values.
  repeat constructor; first [ apply computed_writes; intros; by (apply LocalTime_run || apply UtcTime_run) | idtac ].
  intros o' w' _. exact (field_run (HIT_COUNT_KEY, FInt (i32 n)) o' w').
Qed.

Lemma AddAggregationMetadata_run payload n t1 t2 w :
  times_fit (env w) -> reliable w ->
  exists r p k, EventAggregator_AddAggregationMetadata payload n t1 t2 w = Some ((r, p), bump k w) /\
    match with_metadata (metadata_fields (env w) n t1 t2) payload with
    | Some p' => r = EVENT_AGGREGATOR_OK /\ p = p'
    | None => r = EVENT_AGGREGATOR_EXCEPTION
    end.
Proof.
  intros Hf Hr. unfold EventAggregator_AddAggregationMetadata, with_metadata.
  destruct (JsonObjectWriter_StepIn payload EXTRA_DETAILS_KEY) as [[] p].
  - destruct (metadata_run _ n t1 t2 p w Hf eq_refl) as (ok & p2 & H & ->).
    rewrite (bind_eq _ _ _ _ _ H). exists (if ok then EVENT_AGGREGATOR_OK else EVENT_AGGREGATOR_EXCEPTION), p2, 0%nat.
    rewrite bump_0. by destruct ok.
  - rewrite (bind_eq _ _ _ _ _ (WriterInit_new w Hr)).
    destruct new_writer as [metadata|]; cbn [mbind option_bind]; [|by eexists _, p, 1%nat].
    destruct (metadata_run (env w) n t1 t2 metadata (bump 1 w) Hf eq_refl) as (ok & m2 & H2 & ->).
    rewrite (bind_eq _ _ _ _ _ H2). destruct ok; cbn [negb mbind option_bind]; [|by eexists _, p, 1%nat].
    unfold JsonObjectWriter_WriteObject.
    destruct (json_object_set_value _ _ _ _) as [d|]; eexists _, _, 1%nat; (split; [reflexivity | done]).
Qed.

(** The strings of an initialised aggregator. *)
Definition named (agg : EventAggregator) : Prop := exists h, headed h agg.

Lemma touched_refl a s : is_Some (ag_items s !! a) -> touched a s s.
Proof.
  intros Ha. exists 0%nat. split; [|done]. unfold later, ag_world. cbn. rewrite bump_0. by destruct (ag_store s).
Qed.

(** The tail of the function, once the payload is in the array. *)
Lemma create_tail a items queue s s' event payloads :
  touched a s s' -> sync_holds queue (ag_store s) items -> Z.of_nat (List.length items) < UINT32_MAX ->
  emits a items s
    (match GenericEvent_AddPayload event payloads with
     | (EVENT_COLLECTOR_OK, event, _) => json_serialize_to_string (wr_rootValue event)
     | _ => None
     end)
    ((let '(r, event, payloads) := GenericEvent_AddPayload event payloads in
      require bool_decide (r = EVENT_COLLECTOR_OK) else (EVENT_AGGREGATOR_EXCEPTION, queue) ;;
      match JsonObjectWriter_Serialize event with
      | (JSON_WRITER_OK, Some (output, outputSize)) =>
          let* (qResult, queue, _) := in_store (SyncQueue_PushBack queue output outputSize) in
          ret (if decide (qResult = QueueResult QUEUE_MAX_MEMORY_EXCEEDED) then EVENT_AGGREGATOR_OK
               else if decide (qResult <> QueueResult QUEUE_OK) then EVENT_AGGREGATOR_EXCEPTION
               else EVENT_AGGREGATOR_OK, queue)
      | _ => ret (EVENT_AGGREGATOR_EXCEPTION, queue)
      end) s').
Proof.
  intros Ht Hq Hlen. destruct (GenericEvent_AddPayload event payloads) as [[r event2] payloads2].
  destruct r; try by apply emits_stop. unfold JsonObjectWriter_Serialize.
  destruct (json_serialize_to_string (wr_rootValue event2)) as [text|]; [|by apply emits_stop].
  by apply emits_push.
Qed.

(** One payload: its event is created right after the writer of the event. *)
Lemma CreateSingle_run a items agg h queue s endTime e :
  headed h agg -> times_fit (env (ag_world s)) -> counts (ag_items s) a e ->
  sync_holds queue (ag_store s) items -> Z.of_nat (List.length items) < UINT32_MAX ->
  emits a items s (aggregated_text h (bump 1 (ag_world s)) (ea_lastAggregationTime agg) endTime e)
    (EventAggregator_CreateSingleAggregatedEvent agg a queue endTime s).
Proof.
  intros (Et & En & Ev) Hf (w0 & Hi & Hd) Hq Hlen. pose proof (sync_holds_reliable _ _ _ Hq) as Hr.
  unfold EventAggregator_CreateSingleAggregatedEvent, aggregated_text. rewrite En, Et, Ev.
  assert (Hstop : forall n, emits a items s None (ret (EVENT_AGGREGATOR_EXCEPTION, queue) (later n s)))
    by (intros n; apply emits_stop; [apply touched_later, touched_refl; by rewrite Hi | done]).
  rewrite (bind_eq _ _ _ _ _ (in_world_later _ _ 1 s (WriterInit_new _ Hr))).
  destruct new_writer as [o|]; cbn [mbind option_bind]; [|apply Hstop].
  destruct (AddMetadata_run (bump 1 (ag_world s)) o EVENT_AGGREGATED_CATEGORY (h_event_name h) (h_event_type h) (h_version h) Hf)
    as (r & event & n & H2).
  rewrite (bind_eq _ _ _ _ _ (in_world_later _ _ n (later 1 s) H2)), H2.
  assert (Hl : forall k m, later k (later m s) = later (k + m) s) by (intros; unfold later, ag_world; cbn; by rewrite bump_bump).
  rewrite Hl. destruct r; try apply Hstop. rewrite bool_decide_eq_true_2 by done.
  rewrite (bind_eq _ _ _ _ _ (in_world_later _ _ 1 (later (n + 1) s) (ArrayInit_new (ag_world (later (n + 1) s)) Hr))), Hl.
  destruct new_array as [arr|]; cbn [mbind option_bind]; [|apply Hstop].
  unfold load_item. unfold bind at 1. cbn [ag_items later]. rewrite Hi. cbn [ai_json ai_hitCount].
  destruct (AddAggregationMetadata_run w0 (snd e) (ea_lastAggregationTime agg) endTime (ag_world (later (1 + (n + 1)) s)) Hf Hr)
    as (r & json & k & H4 & Hj).
  rewrite (bind_eq _ _ _ _ _ (in_world_later _ _ k _ H4)), Hl. set (q := (k + (1 + (n + 1)))%nat).
  assert (Ht : touched a s (later q s)) by (apply touched_later, touched_refl; by rewrite Hi).
  unfold store_item at 1. unfold bind at 1. cbn [ag_items later]. rewrite Hi.
  pose proof (touched_store a s (later q s) (mkAggregated (Some json) (snd e)) Ht) as Ht5.
  unfold aggregated_payload. rewrite Hd. cbn [mbind option_bind]. cbn [env ag_world later ag_store st_world bump set_tick] in Hj |- *.
  destruct (with_metadata _ w0) as [p|]; [|subst r; by apply emits_stop]. destruct Hj as [-> ->]. cbn [mbind option_bind].
  rewrite bool_decide_eq_true_2 by done. unfold JsonArrayWriter_AddObject, append_object.
  destruct (json_array_append_value _ _ _) as [d|]; cbn [mbind option_bind]; unfold store_item, bind at 1;
    cbn [ag_items ag_store ag_next later]; rewrite lookup_insert_eq.
  - rewrite bool_decide_eq_true_2 by done.
    match goal with |- context [mkAggregated (Some ?x) _] => pose proof (touched_store _ _ _ (mkAggregated (Some x) (snd e)) Ht5) as Ht6 end.
    by apply create_tail.
  - rewrite bool_decide_eq_false_2 by done.
    pose proof (touched_store _ _ _ (mkAggregated (Some p) (snd e)) Ht5) as Ht6. by apply emits_stop.
Qed.

(** ** Lemmas: the whole list *)

(** The state after a flush of [addrs]: the events of [entries] are queued, as
    they were created, and nothing but the items has changed. *)
Definition flushed (h : Heading) (start stop : Z) (addrs : list nat) (entries : Aggregates) (items : list (nat * (string * Z)))
    (s s' : AgState) (r : EventAggregatorResult) (queue' : SyncQueue) : Prop :=
  exists new, sync_holds queue' (ag_store s') (items ++ new) /\
    emissions h (env (ag_world s)) (cache_limit (ag_world s)) start stop entries
      (consumption (ag_world s)) r new (consumption (ag_world s')) /\
    only_monitor (ag_world s) (ag_world s') /\ ag_next s' = ag_next s /\
    (forall b, b ∉ addrs -> ag_items s' !! b = ag_items s !! b).

(** A flush queues at most one event for a payload, each with the length of its
    text as its size. *)
Lemma emissions_bounds h v limit start stop l n r new n' :
  emissions h v limit start stop l n r new n' -> (List.length new <= List.length l)%nat /\ Forall sized new.
Proof.
  induction 1 as [|e l n r new n1 r' new' n' H _ [IH1 IH2]]; [by split|].
  assert (Hnew : (List.length new <= 1)%nat /\ Forall sized new) by (destruct H; split; cbn; first [lia | repeat constructor]).
  destruct Hnew as [H1 H2]. split; [rewrite length_app; cbn; lia | by apply Forall_app].
Qed.

(** The consumption after a flush is that of what it queued. *)
Lemma emissions_charge h v limit start stop l n r new n' :
  emissions h v limit start stop l n r new n' -> n' = charge_all n new.
Proof.
  induction 1 as [|e l n r new n1 r' new' n' H _ IH]; [done|]. rewrite charge_all_app. by destruct H.
Qed.

Lemma emissions_result h v limit start stop l n r new n' :
  emissions h v limit start stop l n r new n' -> (if decide (r <> EVENT_AGGREGATOR_OK) then EVENT_AGGREGATOR_EXCEPTION else EVENT_AGGREGATOR_OK) = r.
Proof. induction 1 as [|e l n r new n1 r' new' n' H _ IH]; [done|]. destruct H; exact IH || done. Qed.

Lemma times_fit_kept w w' : only_monitor w w' -> times_fit (env w) -> times_fit (env w').
Proof. by intros (-> & _). Qed.

Lemma only_monitor_limit w w' : only_monitor w w' -> cache_limit w' = cache_limit w.
Proof. intros (_ & _ & _ & _ & _ & H & _). unfold cache_limit. by rewrite H. Qed.

(** What a single event leaves is one of the outcomes of its payload. *)
Lemma emits_emission h start stop e s r new :
  match aggregated_text h (bump 1 (ag_world s)) start stop e with
  | None => r = EVENT_AGGREGATOR_EXCEPTION /\ new = []
  | Some text => r = EVENT_AGGREGATOR_OK /\ exists b,
      new = if granted (ag_world s) (Queue_CalculateItemSize (u32 (strlen text))) then [(b, (text, u32 (strlen text)))] else []
  end ->
  emission h (env (ag_world s)) (cache_limit (ag_world s)) start stop e (consumption (ag_world s)) r new
    (charge_all (consumption (ag_world s)) new).
Proof.
  destruct (aggregated_text _ _ _ _ _) as [text|] eqn:E.
  - intros [-> [b ->]]. unfold granted. destruct (Z.leb_spec (u32 (consumption (ag_world s) + Queue_CalculateItemSize (u32 (strlen text)))) (cache_limit (ag_world s))).
    + by apply (emission_queued _ _ _ _ _ _ _ (bump 1 (ag_world s))).
    + by apply (emission_refused _ _ _ _ _ _ _ (bump 1 (ag_world s)) text).
  - intros [-> ->]. by apply (emission_unwritable _ _ _ _ _ _ _ (bump 1 (ag_world s))).
Qed.

Lemma Create_loop_run l agg h endTime suffix : forall prefix addrs entries fuel queue items s result,
  sll_wf l -> sll_contents l = prefix ++ suffix -> suffix.*2 = map Some addrs -> NoDup addrs ->
  Forall2 (counts (ag_items s)) addrs entries -> (List.length suffix <= fuel)%nat ->
  headed h agg -> times_fit (env (ag_world s)) -> sync_holds queue (ag_store s) items ->
  Z.of_nat (List.length items) + Z.of_nat (List.length addrs) < UINT32_MAX ->
  exists r queue' s',
    CreateAggregatedEvents_loop fuel agg l (option_map fst (head suffix)) endTime queue result s =
      Some ((if decide (r <> EVENT_AGGREGATOR_OK) then EVENT_AGGREGATOR_EXCEPTION else result, queue'), s') /\
    flushed h (ea_lastAggregationTime agg) endTime addrs entries items s s' r queue' /\
    Forall (fun a => is_Some (ag_items s' !! a)) addrs.
Proof.
  induction suffix as [|[i v] suffix IH];
    intros prefix addrs entries fuel queue items s result Hwf Hc Hs Hnd Hall Hfuel Hnames Hf Hq Hlen.
  - destruct addrs; [|done]. inversion Hall; subst. exists EVENT_AGGREGATOR_OK, queue, s. split; [by destruct fuel|].
    split; [|constructor]. exists []. rewrite app_nil_r. split; [done|]. split; [constructor|]. split; [apply only_monitor_refl | done].
  - destruct addrs as [|a addrs]; [done|]. injection Hs as -> Hs. apply NoDup_cons in Hnd as [Ha Hnd].
    inversion Hall as [|? e ? entries' Hcnt Hall']; subst. cbn [List.length] in Hfuel, Hlen.
    destruct fuel as [|fuel]; [lia|]. cbn [CreateAggregatedEvents_loop head option_map fst].
    rewrite (sll_value_law l i (Some a) Hwf) by (rewrite Hc; apply elem_of_app; right; left).
    destruct (CreateSingle_run a items agg h queue s endTime e Hnames Hf Hcnt Hq)
      as (r & q1 & s1 & new & Hrun & (Hq1 & Ho & Hn1 & Hnext & Hframe & Hin) & Htext); [lia|].
    assert (Hem : emission h (env (ag_world s)) (cache_limit (ag_world s)) (ea_lastAggregationTime agg) endTime e
      (consumption (ag_world s)) r new (consumption (ag_world s1))) by (rewrite Hn1; by eapply emits_emission).
    assert (Hl1 : (List.length new <= 1)%nat) by (destruct Hem; cbn; lia).
    rewrite bind_assoc, (bind_eq _ _ _ _ _ Hrun), bind_ret_l.
    rewrite (sll_next_law l prefix i (Some a) suffix Hwf Hc).
    assert (Hc' : sll_contents l = (prefix ++ [(i, Some a)]) ++ suffix) by (by rewrite <- app_assoc).
    assert (Hall1 : Forall2 (counts (ag_items s1)) addrs entries').
    { eapply counts_frame; [exact Hall'|]. intros b Hb. apply Hframe. by intros ->. }
    destruct (IH _ addrs entries' fuel q1 (items ++ new) s1
      (if decide (r <> EVENT_AGGREGATOR_OK) then EVENT_AGGREGATOR_EXCEPTION else result) Hwf Hc' Hs Hnd Hall1)
      as (r2 & q2 & s2 & H2 & (new2 & Hq2 & Hem2 & Ho2 & Hnext2 & Hframe2) & Hin2);
      [lia | done | by eapply times_fit_kept | done | rewrite length_app; lia|].
    exists (if decide (r <> EVENT_AGGREGATOR_OK) then EVENT_AGGREGATOR_EXCEPTION else r2), q2, s2. split; [|split].
    + rewrite H2. by destruct r, r2.
    + exists (new ++ new2). rewrite app_assoc. split; [done|].
      split; [eapply emissions_next; [exact Hem|]; by rewrite <- (only_monitor_limit _ _ Ho), <- (proj1 Ho)|].
      split; [by eapply only_monitor_trans|]. split; [congruence|].
      intros b [Hb1 Hb2]%not_elem_of_cons. by rewrite Hframe2, Hframe.
    + constructor; [by rewrite Hframe2 | done].
Qed.

(** Clearing frees every item of the list, and the list is empty. *)
Lemma Clear_run c : forall l addrs fuel s,
  sll_wf l -> sll_contents l = c -> c.*2 = map Some addrs -> NoDup addrs ->
  Forall (fun a => is_Some (ag_items s !! a)) addrs -> (List.length c <= fuel)%nat ->
  exists l' s', EventAggregator_ClearAggregatedEvents fuel l s = Some (l', s') /\
    sll_wf l' /\ sll_contents l' = [] /\ ag_store s' = ag_store s /\ ag_next s' = ag_next s /\
    (forall a, a ∈ addrs -> ag_items s' !! a = None) /\ (forall a, a ∉ addrs -> ag_items s' !! a = ag_items s !! a).
Proof.
  induction c as [|[i v] c IH]; intros l addrs fuel s Hwf Hc Hs Hnd Hin Hfuel.
  - destruct addrs; [|done]. exists l, s. split.
    + destruct fuel; cbn; by rewrite (sll_head_law _ Hwf), Hc.
    + repeat (split; [done|]). split; [intros a Ha; by apply not_elem_of_nil in Ha | done].
  - destruct addrs as [|a addrs]; [done|]. injection Hs as -> Hs. apply NoDup_cons in Hnd as [Ha Hnd].
    apply Forall_cons in Hin as [[item Hi] Hin]. cbn [List.length] in Hfuel. destruct fuel as [|fuel]; [lia|].
    cbn [EventAggregator_ClearAggregatedEvents]. rewrite (sll_head_law _ Hwf), Hc. cbn [head option_map fst].
    rewrite (sll_value_law l i (Some a) Hwf) by (rewrite Hc; left).
    unfold bind, AggregatedEventItem_Deinit. rewrite Hi.
    destruct (sll_remove_law l i (Some a) c Hwf Hc) as [Hwf' Hc'].
    destruct (IH (singlylinkedlist_remove l i) addrs fuel (mkAgState (ag_store s) (delete a (ag_items s)) (ag_next s)) Hwf' Hc' Hs Hnd)
      as (l2 & s2 & H2 & Hwf2 & Hc2 & Hst & Hn & Hg & Hfr); [| lia |].
    { eapply Forall_impl; [|intros b Hb; exact Hb]. apply Forall_forall. intros b Hb. cbn.
      rewrite lookup_delete_ne by (by intros ->). by apply (proj1 (Forall_forall _ _) Hin). }
    exists l2, s2. split; [exact H2|]. repeat (split; [done|]). cbn in Hfr. split.
    + intros b Hb. destruct (decide (b ∈ addrs)) as [Hx|Hx]; [by apply Hg|]. rewrite (Hfr b Hx).
      apply elem_of_cons in Hb as [->|Hb]; [apply lookup_delete_eq | done].
    + intros b [Hb1 Hb2]%not_elem_of_cons. rewrite (Hfr b Hb2). by rewrite lookup_delete_ne.
Qed.

Lemma sync_section_free queue (s : Store (D := string)) items :
  sync_holds queue s items -> section_free (st_world s).
Proof. intros H. exact (proj1 (sync_locks_ready queue s items H)). Qed.

(** The aggregator and the queue are at rest, and the times fit the buffers. *)
Definition flush_ready (s : AgState) (agg : EventAggregator) (h : Heading) (queue : SyncQueue) (addrs : list nat)
    (entries : Aggregates) (items : list (nat * (string * Z))) : Prop :=
  headed h agg /\ times_fit (env (ag_world s)) /\ aggregates s agg addrs entries /\ sync_holds queue (ag_store s) items /\
  Z.of_nat (List.length items) + Z.of_nat (List.length entries) < UINT32_MAX.

Lemma CreateAggregatedEvents_run fuel agg h queue s addrs entries items endTime :
  flush_ready s agg h queue addrs entries items -> (List.length entries <= fuel)%nat ->
  exists r agg' queue' s',
    EventAggregator_CreateAggregatedEvents fuel agg endTime queue s = Some ((r, agg', queue'), s') /\
    aggregates s' agg' [] [] /\ (forall a, a ∈ addrs -> ag_items s' !! a = None) /\
    flushed h (ea_lastAggregationTime agg) endTime addrs entries items s s' r queue' /\
    agg' = set_list (ea_aggregatedEvents agg') agg.
Proof.
  intros (Hnames & Hf & (l & El & Hwf & Hc & Hall & Hnd & Hfresh) & Hq & Hlen) Hfuel.
  unfold EventAggregator_CreateAggregatedEvents. rewrite El.
  pose proof (Forall2_length _ _ _ Hall) as Hla.
  assert (Hlc : List.length (sll_contents l) = List.length addrs).
  { pose proof (f_equal List.length Hc) as H. by rewrite length_fmap, length_map in H. }
  destruct (Create_loop_run l agg h endTime (sll_contents l) [] addrs entries fuel queue items s EVENT_AGGREGATOR_OK)
    as (r & q1 & s1 & H1 & (new & Hq1 & Hem & Ho & Hnext & Hframe) & Hin); try done; [lia | lia |].
  rewrite (emissions_result _ _ _ _ _ _ _ _ _ _ Hem) in H1.
  rewrite (sll_head_law _ Hwf), (bind_eq _ _ _ _ _ H1).
  destruct (Clear_run (sll_contents l) l addrs fuel s1 Hwf eq_refl Hc Hnd Hin)
    as (l2 & s2 & H2 & Hwf2 & Hc2 & Hst & Hnx & Hgone & Hfr); [lia|].
  rewrite (bind_eq _ _ _ _ _ H2). eexists r, _, q1, s2. split; [reflexivity|]. split; [|split; [done|split; [|done]]].
  - exists l2. split; [done|]. split; [done|]. split; [by rewrite Hc2|]. split; [constructor|]. split; [constructor|].
    intros a [x Ha]. destruct (decide (a ∈ addrs)) as [Hx|Hx]; [by rewrite Hgone in Ha|].
    rewrite Hnx, Hnext. apply Hfresh. rewrite <- (Hframe a Hx), <- (Hfr a Hx). eauto.
  - exists new. unfold ag_world in *. rewrite Hst, Hnx. repeat (split; [done|]). intros b Hb. by rewrite Hfr, Hframe.
Qed.

(** The clock and the settings, before anything is flushed. *)
Lemma Get_head_run fuel agg h queue s addrs entries items enabled interval :
  flush_ready s agg h queue addrs entries items ->
  aggregation_enabled (ea_iotEventType agg) (eventPriorities (ag_world s)) = Some enabled ->
  aggregation_interval (ea_iotEventType agg) (eventPriorities (ag_world s)) = Some interval ->
  let now := env_time (env (ag_world s)) (tick (ag_world s)) in
  let diff := (now - ea_lastAggregationTime agg) * 1000 in
  EventAggregator_GetAggregatedEvents fuel agg queue s =
  if (INT32_MIN <=? diff) && (diff <=? INT32_MAX) then
    if negb enabled || interval_passed diff interval then
      (let* (result, aggregator, queue) := EventAggregator_CreateAggregatedEvents fuel agg now queue in
       ret (result, set_lastAggregationTime now aggregator, queue)) (later 5 s)
    else Some ((EVENT_AGGREGATOR_OK, agg, queue), later 5 s)
  else None.
Proof.
  intros (Hnames & Hf & Hagg & Hq & Hlen) He Hi now diff. unfold EventAggregator_GetAggregatedEvents.
  pose proof (sync_holds_reliable _ _ _ Hq) as Hr. pose proof (sync_section_free _ _ _ Hq) as Hsf.
  assert (Hn : TimeUtils_GetCurrentTime (ag_world s) = Some (now, bump 1 (ag_world s))) by done.
  rewrite (bind_eq _ _ _ _ _ (in_world_later _ _ _ _ Hn)).
  rewrite (bind_eq _ _ _ _ _ (IsAggregationEnabled_run (later 1 s) agg enabled Hsf Hr He)).
  rewrite decide_False by tauto.
  pose proof (GetAggregationInterval_run _ (ag_world (later 2 (later 1 s))) _ Hsf Hr Hi) as Hint.
  rewrite (bind_eq _ _ _ _ _ (in_world_later _ _ _ _ Hint)).
  assert (Hl : later 2 (later 2 (later 1 s)) = later 5 s) by (unfold later, ag_world; cbn; by rewrite !bump_bump).
  rewrite Hl. unfold bind at 1, in_world, in_store, lift, TimeUtils_GetTimeDiff. fold diff.
  destruct ((INT32_MIN <=? diff) && (diff <=? INT32_MAX)); [|done]. cbn [from_option id].
  unfold ret at 1. cbv beta iota. by destruct (negb enabled || interval_passed diff interval).
Qed.

Lemma ready_later s n agg h queue addrs entries items :
  flush_ready s agg h queue addrs entries items -> flush_ready (later n s) agg h queue addrs entries items.
Proof.
  intros (Hnames & Hf & Hagg & Hq & Hlen). repeat (split; [done|]). split; [|done].
  by apply (sync_holds_bump queue (ag_store s) items n).
Qed.

(** A whole flush. *)
Lemma GetAggregatedEvents_run fuel agg h queue s addrs entries items enabled interval :
  flush_ready s agg h queue addrs entries items -> (List.length entries <= fuel)%nat ->
  aggregation_enabled (ea_iotEventType agg) (eventPriorities (ag_world s)) = Some enabled ->
  aggregation_interval (ea_iotEventType agg) (eventPriorities (ag_world s)) = Some interval ->
  let now := env_time (env (ag_world s)) (tick (ag_world s)) in
  let diff := (now - ea_lastAggregationTime agg) * 1000 in
  INT32_MIN <= diff <= INT32_MAX ->
  exists r agg' queue' s',
    EventAggregator_GetAggregatedEvents fuel agg queue s = Some ((r, agg', queue'), s') /\
    if negb enabled || interval_passed diff interval then
      aggregates s' agg' [] [] /\ agg' = set_list (ea_aggregatedEvents agg') (set_lastAggregationTime now agg) /\
      (forall a, a ∈ addrs -> ag_items s' !! a = None) /\
      flushed h (ea_lastAggregationTime agg) now addrs entries items (later 5 s) s' r queue'
    else r = EVENT_AGGREGATOR_OK /\ agg' = agg /\ queue' = queue /\ s' = later 5 s.
Proof.
  intros Hready Hfuel He Hi now diff Hd.
  rewrite (Get_head_run fuel agg h queue s addrs entries items enabled interval Hready He Hi). fold now diff.
  rewrite (proj2 (andb_true_iff _ _)) by (split; lia).
  pose proof (ready_later s 5 _ _ _ _ _ _ Hready) as Hready5. destruct (negb enabled || interval_passed diff interval).
  - destruct (CreateAggregatedEvents_run fuel agg h queue (later 5 s) addrs entries items now Hready5 Hfuel)
      as (r & agg' & q' & s' & H & Hagg' & Hgone & Hfl & Hsame).
    rewrite (bind_eq _ _ _ _ _ H). eexists r, _, q', s'. split; [reflexivity|].
    split; [exact Hagg'|]. split; [by rewrite Hsame|]. by split.
  - by eexists _, agg, queue, _.
Qed.

(** ** Properties *)

(** C27: While aggregation is on, every sequence of calls of [AggregateEvent]
    returns, answers as the specification does, and leaves the list of distinct
    payloads with their hit counts that the specification computes: equal
    payloads are counted, new ones are copied. *)
Theorem aggregation_refines payloads s agg addrs entries :
  aggregating s agg -> aggregates s agg addrs entries ->
  exists agg' addrs' s',
    aggregate_all payloads agg s =
      Some ((fst (spec_aggregate_all (map wr_rootValue payloads) entries), agg'), s') /\
    aggregates s' agg' addrs' (snd (spec_aggregate_all (map wr_rootValue payloads) entries)) /\ aggregating s' agg'.
Proof. apply aggregate_all_run. Qed.

(** No event is lost and none is counted twice: starting from an empty
    aggregator, the hit counts that it holds add up to the number of calls that
    answered [EVENT_AGGREGATOR_OK]. *)
Theorem no_event_lost payloads s agg :
  aggregating s agg -> aggregates s agg [] [] -> Z.of_nat (List.length payloads) <= UINT32_MAX ->
  exists results agg' addrs' entries' s',
    aggregate_all payloads agg s = Some ((results, agg'), s') /\ aggregates s' agg' addrs' entries' /\
    total_hits entries' = Z.of_nat (List.length (filter (fun r => r = EVENT_AGGREGATOR_OK) results)).
Proof.
  intros Ha Hagg Hlen. destruct (aggregate_all_run payloads s agg [] [] Ha Hagg) as (agg' & addrs' & s' & H & Hagg' & _).
  eexists _, agg', addrs', _, s'. split; [exact H|]. split; [exact Hagg'|].
  rewrite spec_all_total; [done | constructor | rewrite length_map; cbn; lia].
Qed.

(** C26: A flush is complete.  When aggregation is disabled or the interval has
    passed, [GetAggregatedEvents] makes of every payload, in order, one event of
    the category [Aggregated]: its only payload is the aggregated one with, among
    its extra details, the hit count and the local and UTC times of the last
    flush and of this one, and its text is queued with its length as its size.
    A text is left out only when the cache has no room for it, which is no
    error, and an event is not written only when a time, the identifier or the
    JSON library fails, which is reported and does not stop the others.  Every
    item is freed, and the aggregator is empty and has the time of the flush.
    Otherwise neither the aggregator nor the queue changes.  No lock or
    allocation fails, the times fit their buffers, and the time since the last
    flush is less than 24 days; fuel for the number of payloads is enough. *)
Theorem GetAggregatedEvents_correct fuel agg h queue s addrs entries items enabled interval :
  flush_ready s agg h queue addrs entries items -> (List.length entries <= fuel)%nat ->
  aggregation_enabled (ea_iotEventType agg) (eventPriorities (ag_world s)) = Some enabled ->
  aggregation_interval (ea_iotEventType agg) (eventPriorities (ag_world s)) = Some interval ->
  let now := env_time (env (ag_world s)) (tick (ag_world s)) in
  let diff := (now - ea_lastAggregationTime agg) * 1000 in
  INT32_MIN <= diff <= INT32_MAX ->
  exists r agg' queue' s',
    EventAggregator_GetAggregatedEvents fuel agg queue s = Some ((r, agg', queue'), s') /\
    if negb enabled || interval_passed diff interval then
      aggregates s' agg' [] [] /\ ea_lastAggregationTime agg' = now /\
      (forall a, a ∈ addrs -> ag_items s' !! a = None) /\
      flushed h (ea_lastAggregationTime agg) now addrs entries items (later 5 s) s' r queue'
    else r = EVENT_AGGREGATOR_OK /\ agg' = agg /\ queue' = queue /\
         sync_holds queue (ag_store s') items /\ aggregates s' agg addrs entries.
Proof.
  intros Hready Hfuel He Hi now diff Hd.
  destruct (GetAggregatedEvents_run fuel agg h queue s addrs entries items enabled interval Hready Hfuel He Hi Hd)
    as (r & agg' & q' & s' & H & Hc).
  exists r, agg', q', s'. split; [exact H|]. fold now diff in Hc. destruct (negb enabled || interval_passed diff interval).
  - destruct Hc as (Hagg & -> & Hgone & Hfl). by repeat split.
  - destruct Hc as (-> & -> & -> & ->). destruct (ready_later s 5 _ _ _ _ _ _ Hready) as (_ & _ & Hagg & Hq & _). done.
Qed.

(** The interval, a [uint32_t], is compared with a signed difference: an
    interval of [INT32_MAX] milliseconds or more never passes while the clock
    advances (the aggregator flushes nothing, or the difference is undefined),
    and a clock that is set back makes every shorter interval pass at once. *)
Theorem interval_comparison fuel agg h queue s addrs entries items interval :
  flush_ready s agg h queue addrs entries items -> (List.length entries <= fuel)%nat ->
  aggregation_enabled (ea_iotEventType agg) (eventPriorities (ag_world s)) = Some true ->
  aggregation_interval (ea_iotEventType agg) (eventPriorities (ag_world s)) = Some interval ->
  let now := env_time (env (ag_world s)) (tick (ag_world s)) in
  (INT32_MAX <= interval -> ea_lastAggregationTime agg <= now ->
   EventAggregator_GetAggregatedEvents fuel agg queue s = None \/
   EventAggregator_GetAggregatedEvents fuel agg queue s = Some ((EVENT_AGGREGATOR_OK, agg, queue), later 5 s)) /\
  (0 <= interval <= INT32_MAX -> now < ea_lastAggregationTime agg -> INT32_MIN <= (now - ea_lastAggregationTime agg) * 1000 ->
   exists r agg' queue' s',
     EventAggregator_GetAggregatedEvents fuel agg queue s = Some ((r, agg', queue'), s') /\
     aggregates s' agg' [] [] /\ ea_lastAggregationTime agg' = now).
Proof.
  intros Hready Hfuel He Hi now. set (diff := (now - ea_lastAggregationTime agg) * 1000).
  rewrite (Get_head_run fuel agg h queue s addrs entries items true interval Hready He Hi). fold now diff.
  cbn [negb orb]. split.
  - intros Hint Hle. destruct (Z.leb_spec INT32_MIN diff); [|by left]. destruct (Z.leb_spec diff INT32_MAX); [|by left].
    cbn [andb]. unfold interval_passed. rewrite u32_small by ulia. right.
    destruct (Z.ltb_spec interval diff); [lia | done].
  - intros Hint Hlt Hmin.
    rewrite (proj2 (andb_true_iff _ _)) by (split; [apply Z.leb_le; lia | apply Z.leb_le; ulia]).
    assert (Hu : u32 diff = diff + 4294967296).
    { unfold u32. replace diff with ((diff + 4294967296) + (-1) * 4294967296) at 1 by lia.
      rewrite Z_mod_plus_full. apply Z.mod_small. ulia. }
    unfold interval_passed. rewrite Hu. rewrite (proj2 (Z.ltb_lt _ _)) by ulia.
    destruct (CreateAggregatedEvents_run fuel agg h queue (later 5 s) addrs entries items now
      (ready_later s 5 _ _ _ _ _ _ Hready) Hfuel) as (r & agg' & q' & s' & H & Hagg' & _).
    rewrite (bind_eq _ _ _ _ _ H). eexists r, _, q', s'. split; [reflexivity|]. by split.
Qed.

(** In every environment, [EventAggregator_Init] either returns an aggregator
    that is complete and empty, or reports [EVENT_AGGREGATOR_EXCEPTION] and
    leaves nothing behind; it succeeds exactly when the allocations, the three
    string copies and the creation of the list succeed. *)
Theorem Aggregator_Init_correct type event_type event_name version s :
  let ok := fun n => env_ok (env (ag_world s)) (n + tick (ag_world s)) in
  let now := env_time (env (ag_world s)) (1 + tick (ag_world s)) in
  exists n,
    EventAggregator_Init (Some (mkAggregatorConfiguration type (Some event_type) (Some event_name) (Some version))) s =
    Some (if ok 0%nat && ok 2%nat && ok 3%nat && ok 4%nat && ok 5%nat
          then (EVENT_AGGREGATOR_OK,
                Some (mkAggregator type (Some event_type) (Some event_name) (Some version)
                        (Some singlylinkedlist_create) now))
          else (EVENT_AGGREGATOR_EXCEPTION, None), later n s).
Proof.
  intros ok now. unfold EventAggregator_Init, Utils_CreateStringCopy, malloc, TimeUtils_GetCurrentTime, time_NULL.
  assert (Hm : forall k, in_world fallible (later k s) = Some (ok k, later (S k) s)) by done.
  assert (H0 : in_world fallible s = Some (ok 0%nat, later 1 s)) by done.
  rewrite (bind_eq _ _ _ _ _ H0). destruct (ok 0%nat); [|by exists 1%nat]. cbn [andb].
  assert (Ht : in_world (fun w : World => Some (env_time (env w) (tick w), set_tick (S (tick w)) w)) (later 1 s)
               = Some (now, later 2 s)) by done.
  rewrite (bind_eq _ _ _ _ _ Ht).
  assert (Hc : forall k (text : string), in_world (ok0 <- fallible ;; if ok0 : bool then ret (Some text) else (ret None : M World (option string))) (later k s)
    = Some (if ok k then Some text else None, later (S k) s)).
  { intros k text. unfold in_world, in_store, lift, bind, fallible, ok. cbn. by destruct (env_ok _ _). }
  rewrite (bind_eq _ _ _ _ _ (Hc 2%nat event_name)). destruct (ok 2%nat); [|by exists 3%nat]. cbn [andb].
  rewrite (bind_eq _ _ _ _ _ (Hc 3%nat version)). destruct (ok 3%nat); [|by exists 4%nat]. cbn [andb].
  rewrite (bind_eq _ _ _ _ _ (Hc 4%nat event_type)). destruct (ok 4%nat); [|by exists 5%nat]. cbn [andb].
  rewrite (bind_eq _ _ _ _ _ (Hm 5%nat)). destruct (ok 5%nat); by exists 6%nat.
Qed.

End EventAggregator.

(** ** Witnesses *)

(** A list that behaves as the library's documentation says: every item has a
    number of its own. *)
Definition fresh_item (l : list (nat * option nat)) : nat := S (foldr Nat.max 0%nat l.*1).

Fixpoint next_after (l : list (nat * option nat)) (i : nat) : option nat :=
  match l with
  | [] => None
  | (j, _) :: l' => if decide (i = j) then option_map fst (head l') else next_after l' i
  end.

Fixpoint value_of (l : list (nat * option nat)) (i : nat) : option nat :=
  match l with
  | [] => None
  | (j, v) :: l' => if decide (i = j) then v else value_of l' i
  end.

#[export] Instance list_sll : SinglyLinkedList := {|
  SLL := list (nat * option nat);
  LIST_ITEM := nat;
  singlylinkedlist_create := [];
  singlylinkedlist_add l v := l ++ [(fresh_item l, v)];
  singlylinkedlist_get_head_item l := option_map fst (head l);
  singlylinkedlist_get_next_item := next_after;
  singlylinkedlist_item_get_value := value_of;
  singlylinkedlist_remove l i := filter (fun x => x.1 <> i) l;
  singlylinkedlist_find := first_match;
|}.

Lemma fresh_not_in l : fresh_item l ∉ l.*1.
Proof.
  intros Hin. assert (Hle : forall k, k ∈ l.*1 -> (k <= foldr Nat.max 0 l.*1)%nat).
  { clear Hin. induction (l.*1) as [|j m IH]; intros k Hk; [by apply not_elem_of_nil in Hk|].
    cbn. apply elem_of_cons in Hk as [->|Hk]; [lia|]. specialize (IH k Hk). lia. }
  apply Hle in Hin. unfold fresh_item in Hin. lia.
Qed.

Lemma next_after_run l1 : forall i v l2,
  NoDup (l1 ++ (i, v) :: l2).*1 -> next_after (l1 ++ (i, v) :: l2) i = option_map fst (head l2).
Proof.
  induction l1 as [|[j u] l1 IH]; intros i v l2 Hnd; cbn [next_after app].
  - by rewrite decide_True.
  - cbn in Hnd. apply NoDup_cons in Hnd as [Hj Hnd]. rewrite decide_False; [by apply IH|].
    intros ->. apply Hj. rewrite fmap_app. cbn. apply elem_of_app. right. left.
Qed.

Lemma value_of_run l i v : NoDup l.*1 -> (i, v) ∈ l -> value_of l i = v.
Proof.
  induction l as [|[j u] l IH]; intros Hnd Hin; [by apply not_elem_of_nil in Hin|].
  cbn in Hnd. apply NoDup_cons in Hnd as [Hj Hnd]. cbn [value_of].
  apply elem_of_cons in Hin as [[= -> ->]|Hin]; [by rewrite decide_True|].
  rewrite decide_False; [by apply IH|]. intros ->. apply Hj. by apply (list_elem_of_fmap_2 fst l (j, v)).
Qed.

Lemma remove_head i v (l : list (nat * option nat)) :
  NoDup (((i, v) :: l).*1) -> filter (fun x : nat * option nat => x.1 <> i) ((i, v) :: l) = l.
Proof.
  intros Hnd. cbn in Hnd. apply NoDup_cons in Hnd as [Hi Hnd]. rewrite filter_cons_False by (cbn; tauto).
  induction l as [|[j u] l IH]; [done|]. cbn in Hi, Hnd. apply NoDup_cons in Hnd as [_ Hnd].
  apply not_elem_of_cons in Hi as [Hne Hi]. rewrite filter_cons_True by (cbn; congruence). by rewrite IH.
Qed.

#[export] Instance list_sll_laws : SinglyLinkedListLaws list_sll.
Proof.
  refine {| sll_wf := fun l : @SLL list_sll => NoDup (l : list (nat * option nat)).*1;
            sll_contents := fun l : @SLL list_sll => l |}; cbn.
  - split; [constructor | done].
  - intros l v Hnd. split; [|eauto]. rewrite fmap_app. apply NoDup_app. split; [done|].
    split; [|apply NoDup_singleton]. intros i Hi ->%list_elem_of_singleton. by apply (fresh_not_in l).
  - done.
  - intros l l1 i v l2 Hnd ->. by apply (next_after_run l1 i v).
  - intros l i v Hnd Hin. by apply value_of_run.
  - intros l i v l' Hnd ->. rewrite (remove_head i v) by done. cbn in Hnd. by apply NoDup_cons in Hnd as [_ ?].
  - done.
Defined.

(** A library that writes the hit count of an event with an aggregated payload. *)
Definition print_hits (d : json) : string :=
  match resolve [inl PAYLOAD_KEY; inr 0%nat; inl EXTRA_DETAILS_KEY; inl HIT_COUNT_KEY] d with
  | Some (JNum q) => if QArith_base.Qeq_bool q (QArith_base.inject_Z 2) then "two hits"%string else "hits"%string
  | _ => "event"%string
  end.

Definition ag_parson : Parson := model_parson event_parse print_hits.

Definition test_payload : json := JObj [("Name"%string, JStr "test")].

Definition test_writer : @JsonObjectWriter ag_parson := @mkWriter ag_parson test_payload [] true.

Definition test_aggregator (l : list (nat * option nat)) (last : Z) : @EventAggregator list_sll :=
  @mkAggregator list_sll EVENT_TYPE_PROCESS_CREATE (Some "Security"%string) (Some "ProcessCreate"%string)
    (Some "1.0"%string) (Some l) last.

Definition empty_ag : @AgState ag_parson := @mkAgState ag_parson two_store ∅ 0.

Lemma empty_aggregating last : @aggregating ag_parson list_sll empty_ag (test_aggregator [] last).
Proof. split; [exact good_reliable|]. split; [exact (running_free _) | done]. Qed.

Lemma empty_aggregates last : aggregates empty_ag (test_aggregator [] last) [] [].
Proof.
  exists (@nil (nat * option nat)). split; [done|]. split; [constructor|]. split; [done|]. split; [constructor|].
  split; [constructor|]. intros a [x Hx]. done.
Qed.

Lemma aggregation_refines_witness :
  exists agg' s',
    aggregate_all [test_writer; test_writer] (test_aggregator [] 0) empty_ag
    = Some (([EVENT_AGGREGATOR_OK; EVENT_AGGREGATOR_OK], agg'), s') /\
    exists addrs, aggregates s' agg' addrs [(test_payload, 2)].
Proof.
  destruct (aggregation_refines [test_writer; test_writer] empty_ag (test_aggregator [] 0) [] []
    (empty_aggregating 0) (empty_aggregates 0)) as (agg' & addrs & s' & H1 & H2 & _).
  exists agg', s'. split; [exact H1 | exists addrs; exact H2].
Defined.

Lemma no_event_lost_witness :
  exists results agg' addrs' entries' s',
    aggregate_all [test_writer; test_writer] (test_aggregator [] 0) empty_ag = Some ((results, agg'), s') /\
    aggregates s' agg' addrs' entries' /\
    total_hits entries' = Z.of_nat (List.length (filter (fun r => r = EVENT_AGGREGATOR_OK) results)).
Proof.
  apply (no_event_lost [test_writer; test_writer] empty_ag (test_aggregator [] 0)
    (empty_aggregating 0) (empty_aggregates 0)). by vm_compute.
Defined.

Definition one_ag : @AgState ag_parson :=
  @mkAgState ag_parson two_store {[ 0%nat := mkAggregated (Some test_writer) 2 ]} 1.

Definition test_heading : Heading := mkHeading "Security"%string "ProcessCreate"%string "1.0"%string.

Lemma one_flush_ready last :
  @flush_ready ag_parson synchronized_monitor list_sll list_sll_laws one_ag (test_aggregator [(1%nat, Some 0%nat)] last)
    test_heading two_queue [0%nat] [(test_payload, 2)] two_items.
Proof.
  split; [by repeat split|]. split; [|split; [|split; [exact two_holds | by vm_compute]]].
  - intros t s [[= <-]|[= <-]]; by vm_compute.
  - exists [(1%nat, Some 0%nat)]. split; [done|]. split; [apply NoDup_singleton|]. split; [done|].
    split; [|split; [apply NoDup_singleton|]].
    + constructor; [|constructor]. exists test_writer. done.
    + intros a Ha. cbn in *. destruct (decide (a = 0%nat)) as [->|]; [lia|].
      rewrite lookup_singleton_ne in Ha by done. by destruct Ha.
Qed.

(** The payload that was counted twice is the third text of the queue, with its
    hit count. *)
Lemma GetAggregatedEvents_correct_witness :
  exists agg' queue' s',
    @EventAggregator_GetAggregatedEvents ag_parson synchronized_monitor list_sll 1
      (test_aggregator [(1%nat, Some 0%nat)] 1569990000) two_queue one_ag = Some ((EVENT_AGGREGATOR_OK, agg', queue'), s') /\
    ag_items s' !! 0%nat = None /\ ea_lastAggregationTime agg' = 1570000000 /\
    item_data <$> st_heap (ag_store s') !! 2%nat = Some "two hits"%string.
Proof.
  destruct (@GetAggregatedEvents_correct ag_parson synchronized_monitor list_sll list_sll_laws _ 1
    (test_aggregator [(1%nat, Some 0%nat)] 1569990000) test_heading two_queue one_ag [0%nat] [(test_payload, 2)] two_items
    true MILLISECONDS_IN_AN_HOUR (one_flush_ready _)) as (r & agg' & q' & s' & H & H2);
    [cbn; lia | done | done | by vm_compute |].
  assert (E : option_map (fun x => (fst (fst (fst x)), item_data <$> st_heap (ag_store (snd x)) !! 2%nat))
    (@EventAggregator_GetAggregatedEvents ag_parson synchronized_monitor list_sll 1
      (test_aggregator [(1%nat, Some 0%nat)] 1569990000) two_queue one_ag) = Some (EVENT_AGGREGATOR_OK, Some "two hits"%string))
    by (vm_compute; reflexivity).
  rewrite H in E. apply (inj Some), pair_equal_spec in E as [E1 E2]. cbn [fst snd] in E1, E2. subst r.
  exists agg', q', s'. split; [exact H|]. destruct H2 as (_ & Ht & Hg & _). split; [apply Hg; left|]. by split.
Defined.

Lemma interval_comparison_witness :
  exists r agg' queue' s',
    @EventAggregator_GetAggregatedEvents ag_parson synchronized_monitor list_sll 1
      (test_aggregator [(1%nat, Some 0%nat)] 1570000001) two_queue one_ag = Some ((r, agg', queue'), s') /\
    ea_lastAggregationTime agg' = 1570000000.
Proof.
  destruct (@interval_comparison ag_parson synchronized_monitor list_sll list_sll_laws _ 1
    (test_aggregator [(1%nat, Some 0%nat)] 1570000001) test_heading two_queue one_ag [0%nat] [(test_payload, 2)] two_items
    MILLISECONDS_IN_AN_HOUR (one_flush_ready _)) as (_ & H); [cbn; lia | done | done |].
  destruct H as (r & agg' & q' & s' & H & _ & Ht); [by vm_compute | by vm_compute | by vm_compute |].
  exists r, agg', q', s'. split; [exact H | exact Ht].
Defined.
