(* ===== verification/ConfigurationError.v ===== *)
(** * [collectors/agent_configuration_error_collector.c]: errors of the twin configuration

    After every update of the twin the collector queues one event that lists
    what is wrong with the configuration.  The static [lastEvent] is an argument
    and a result of [GetEvents]. *)

From S2P Require Import Prelude CString TwinDefs World Utils TimeUtils Parson Json TwinCollectors TwinConfiguration MemoryMonitor Telemetry Queue SyncQueue Schema MessageSerializer GenericEvent ParsonModel Collector.
From Stdlib Require Import Ascii String.
Open Scope Z_scope.

Definition ERROR_TYPE_CONFLICT : string := "Conflict".
Definition ERROR_TYPE_NOT_OPTIMAL : string := "NotOptimal".
Definition ERROR_TYPE_TYPE_MISMATCH : string := "TypeMismatch".
Definition EVENT_PROPERTIES_KEY : string := "eventPriorities".

(** ** The message of a type mismatch *)

Definition mismatch (status : TwinConfigurationStatus) : bool := bool_decide (status = CONFIGURATION_TYPE_MISMATCH).

(** [Utils_ConcatenateToString(&msgBuffer, &size, " %s,", key)] under its guard. *)
Definition concatenate_key (status : TwinConfigurationStatus) (key : string) (b : Buffer) : bool * Buffer :=
  if mismatch status then Utils_ConcatenateToString b (" " ++ key ++ ",")%string else (true, b).

(** The message in the buffer; [( * (msgBuffer - 2) = 0] ends it two characters
    before the end of what was written. *)
Definition AgentConfigurationErrorCollector_GenerateTypeMismatchMessage (status : TwinConfigurationBundleStatus)
    (size : Z) : option string :=
  let '(ok, b) :=
    and_then (Utils_ConcatenateToString (mkBuffer EmptyString size) "Couldn't parse the following conifgurations:") (fun b =>
    and_then (concatenate_key (bs_maxLocalCacheSize status) MAX_LOCAL_CACHE_SIZE_KEY b) (fun b =>
    and_then (concatenate_key (bs_maxMessageSize status) MAX_MESSAGE_SIZE_KEY b) (fun b =>
    and_then (concatenate_key (bs_lowPriorityMessageFrequency status) LOW_PRIORITY_MESSAGE_FREQUENCY_KEY b) (fun b =>
    and_then (concatenate_key (bs_highPriorityMessageFrequency status) HIGH_PRIORITY_MESSAGE_FREQUENCY_KEY b) (fun b =>
    and_then (concatenate_key (bs_snapshotFrequency status) SNAPSHOT_FREQUENCY_KEY b) (fun b =>
    concatenate_key (bs_eventPriorities status) EVENT_PROPERTIES_KEY b)))))) in
  if ok then Some (stake (String.length (written b) - 2) (written b)) else None.

Section ConfigurationError.
Context {P : Parson} {Mon : MemoryMonitor}.

(** ** Payloads *)

Definition error_fields (configurationName error msg usedConfig : string) : list Field :=
  [ (AGENT_CONFIGURATION_ERROR_CONFIGURATION_NAME_KEY, FString configurationName);
    (AGENT_CONFIGURATION_ERROR_USED_CONFIGURATION_KEY, FString usedConfig);
    (AGENT_CONFIGURATION_ERROR_MESSAGE_KEY, FString msg);
    (AGENT_CONFIGURATION_ERROR_ERROR_KEY, FString error) ].

Definition AgentConfigurationErrorCollector_AddPayload (payloadHandle : JsonArrayWriter)
    (configurationName error msg usedConfig : string) : M World (EventCollectorResult * JsonArrayWriter) :=
  add_object payloadHandle (map field_step (error_fields configurationName error msg usedConfig)).

(** [sprintf(configAsString, "%d", config)] of a [uint32_t]: at most 11 characters. *)
Definition config_as_int (config : Z) : string := sdec (i32 config).

Definition AgentConfigurationErrorCollector_ValidateMaxLocalCacheSizeIsHigherThanMaxMessageSize
    (payloadHandle : JsonArrayWriter) : M World (EventCollectorResult * JsonArrayWriter) :=
  let* (r, maxCacheConfig) := TwinConfiguration_GetMaxLocalCacheSize in
  match r, maxCacheConfig with
  | TWIN_OK, Some maxCacheConfig =>
      let* (r, maxMessageSizeConfig) := TwinConfiguration_GetMaxMessageSize in
      match r, maxMessageSizeConfig with
      | TWIN_OK, Some maxMessageSizeConfig =>
          if maxCacheConfig <? maxMessageSizeConfig then
            AgentConfigurationErrorCollector_AddPayload payloadHandle MAX_LOCAL_CACHE_SIZE_KEY ERROR_TYPE_CONFLICT
              "maxLocalCacheSize is lower than maxMessageSize" (config_as_int maxCacheConfig)
          else ret (EVENT_COLLECTOR_OK, payloadHandle)
      | _, _ => ret (EVENT_COLLECTOR_EXCEPTION, payloadHandle)
      end
  | _, _ => ret (EVENT_COLLECTOR_EXCEPTION, payloadHandle)
  end.

Definition AgentConfigurationErrorCollector_ValidateMaxMessageSizeOptimal
    (payloadHandle : JsonArrayWriter) : M World (EventCollectorResult * JsonArrayWriter) :=
  let* (r, maxMessageSizeConfig) := TwinConfiguration_GetMaxMessageSize in
  match r, maxMessageSizeConfig with
  | TWIN_OK, Some maxMessageSizeConfig =>
      if negb (maxMessageSizeConfig mod MESSAGE_BILLING_MULTIPLE =? 0) then
        AgentConfigurationErrorCollector_AddPayload payloadHandle MAX_MESSAGE_SIZE_KEY ERROR_TYPE_NOT_OPTIMAL
          "maxMessageSize is not optimal" (config_as_int maxMessageSizeConfig)
      else ret (EVENT_COLLECTOR_OK, payloadHandle)
  | _, _ => ret (EVENT_COLLECTOR_EXCEPTION, payloadHandle)
  end.

Definition AgentConfigurationErrorCollector_ValidateHighPrioFreqIsLowerThanLowPrioFreq
    (payloadHandle : JsonArrayWriter) : M World (EventCollectorResult * JsonArrayWriter) :=
  let* (r, highPrioFreq) := TwinConfiguration_GetHighPriorityMessageFrequency in
  match r, highPrioFreq with
  | TWIN_OK, Some highPrioFreq =>
      let* (r, lowPrioFreq) := TwinConfiguration_GetLowPriorityMessageFrequency in
      match r, lowPrioFreq with
      | TWIN_OK, Some lowPrioFreq =>
          if lowPrioFreq <? highPrioFreq then
            match TimeUtils_MillisecondsToISO8601DurationString highPrioFreq DURATION_MAX_LENGTH with
            | (true, configAsString) =>
                AgentConfigurationErrorCollector_AddPayload payloadHandle HIGH_PRIORITY_MESSAGE_FREQUENCY_KEY
                  ERROR_TYPE_CONFLICT "high priority frequency is higher than low priority frequency"
                  (written configAsString)
            | (false, _) => ret (EVENT_COLLECTOR_EXCEPTION, payloadHandle)
            end
          else ret (EVENT_COLLECTOR_OK, payloadHandle)
      | _, _ => ret (EVENT_COLLECTOR_EXCEPTION, payloadHandle)
      end
  | _, _ => ret (EVENT_COLLECTOR_EXCEPTION, payloadHandle)
  end.

Definition AgentConfigurationErrorCollector_CreateTypeMismatchPayload (payloadHandle : JsonArrayWriter)
    (lastUpdateResult : TwinConfigurationUpdateResult) : M World (EventCollectorResult * JsonArrayWriter) :=
  match AgentConfigurationErrorCollector_GenerateTypeMismatchMessage
          (ur_configurationBundleStatus lastUpdateResult) 512 with
  | None => ret (EVENT_COLLECTOR_EXCEPTION, payloadHandle)
  | Some buffer =>
      let* (r, currentConfiguration) := TwinConfiguration_GetSerializedTwinConfiguration in
      match r, currentConfiguration with
      | TWIN_OK, Some (currentConfiguration, _) =>
          AgentConfigurationErrorCollector_AddPayload payloadHandle "TwinConfiguration" ERROR_TYPE_TYPE_MISMATCH
            buffer currentConfiguration
      | _, _ => ret (EVENT_COLLECTOR_EXCEPTION, payloadHandle)
      end
  end.

(** ** The event *)

Definition AgentConfigurationErrorCollector_PushEvent (queue : SyncQueue) (eventHandle : JsonObjectWriter)
    : M (Store (D := string)) (EventCollectorResult * SyncQueue) :=
  push_event queue eventHandle.

(** One check after the other, up to the first that fails. *)
Fixpoint run_checks (checks : list (JsonArrayWriter -> M World (EventCollectorResult * JsonArrayWriter)))
    (payloadHandle : JsonArrayWriter) : M World (EventCollectorResult * JsonArrayWriter) :=
  match checks with
  | [] => ret (EVENT_COLLECTOR_OK, payloadHandle)
  | check :: checks' =>
      let* (r, payloadHandle) := check payloadHandle in
      if decide (r = EVENT_COLLECTOR_OK) then run_checks checks' payloadHandle else ret (r, payloadHandle)
  end.

(** What is checked, by the result of the last update. *)
Definition checks_of (lastTwinUpdateResult : TwinConfigurationUpdateResult)
    : list (JsonArrayWriter -> M World (EventCollectorResult * JsonArrayWriter)) :=
  match ur_lastUpdateResult lastTwinUpdateResult with
  | TWIN_OK =>
      [ AgentConfigurationErrorCollector_ValidateMaxLocalCacheSizeIsHigherThanMaxMessageSize;
        AgentConfigurationErrorCollector_ValidateMaxMessageSizeOptimal;
        AgentConfigurationErrorCollector_ValidateHighPrioFreqIsLowerThanLowPrioFreq ]
  | TWIN_PARSE_EXCEPTION =>
      [ fun payloadHandle => AgentConfigurationErrorCollector_CreateTypeMismatchPayload payloadHandle lastTwinUpdateResult ]
  | _ => []
  end.

(** The body of [GetEvents] up to [cleanup:]. *)
Definition report (queue : SyncQueue) (lastTwinUpdateResult : TwinConfigurationUpdateResult)
    : M (Store (D := string)) (EventCollectorResult * SyncQueue) :=
  collect queue EVENT_TRIGGERED_CATEGORY AGENT_CONFIGURATION_ERROR_EVENT_NAME EVENT_TYPE_OPERATIONAL_VALUE
    AGENT_CONFIGURATION_ERROR_EVENT_SCHEMA_VERSION (run_checks (checks_of lastTwinUpdateResult)).

(** Returns the result, the new [lastEvent] and the queue. *)
Definition AgentConfigurationErrorCollector_GetEvents (lastEvent : Z) (priorityQueue : SyncQueue)
    : M (Store (D := string)) (EventCollectorResult * Z * SyncQueue) :=
  lastTwinUpdateResult <- lift TwinConfiguration_GetLastTwinUpdateData ;;
  diff <- lift (TimeUtils_GetTimeDiff (ur_lastUpdateTime lastTwinUpdateResult) lastEvent) ;;
  let* (result, priorityQueue) :=
    (if diff =? 0 then ret (EVENT_COLLECTOR_OK, priorityQueue) else report priorityQueue lastTwinUpdateResult) in
  ret (result, ur_lastUpdateTime lastTwinUpdateResult, priorityQueue).

(** ** Specification *)

Record ConfigurationError : Type := mkConfigurationError {
  err_name : string;
  err_type : string;
  err_msg : string;
  err_used : string;
}.

(** What is wrong with a configuration, in the order of the checks. *)
Definition errors_of (t : TwinConfiguration) : list ConfigurationError :=
  (if tc_maxLocalCacheSize t <? tc_maxMessageSize t then
     [mkConfigurationError MAX_LOCAL_CACHE_SIZE_KEY ERROR_TYPE_CONFLICT "maxLocalCacheSize is lower than maxMessageSize"
        (config_as_int (tc_maxLocalCacheSize t))] else []) ++
  (if negb (tc_maxMessageSize t mod MESSAGE_BILLING_MULTIPLE =? 0) then
     [mkConfigurationError MAX_MESSAGE_SIZE_KEY ERROR_TYPE_NOT_OPTIMAL "maxMessageSize is not optimal"
        (config_as_int (tc_maxMessageSize t))] else []) ++
  (if tc_lowPriorityMessageFrequency t <? tc_highPriorityMessageFrequency t then
     [mkConfigurationError HIGH_PRIORITY_MESSAGE_FREQUENCY_KEY ERROR_TYPE_CONFLICT
        "high priority frequency is higher than low priority frequency"
        (written (snd (TimeUtils_MillisecondsToISO8601DurationString (tc_highPriorityMessageFrequency t) DURATION_MAX_LENGTH)))]
   else []).

(** The payload array with one more error for each of [l]. *)
Definition add_errors (a : JsonArrayWriter) (l : list ConfigurationError) : option JsonArrayWriter :=
  add_all a (map (fun e => error_fields (err_name e) (err_type e) (err_msg e) (err_used e)) l).

End ConfigurationError.

(** The keys of the mismatched configurations, as the message lists them. *)
Definition mismatched_keys (status : TwinConfigurationBundleStatus) : list string :=
  (if mismatch (bs_maxLocalCacheSize status) then [MAX_LOCAL_CACHE_SIZE_KEY] else []) ++
  (if mismatch (bs_maxMessageSize status) then [MAX_MESSAGE_SIZE_KEY] else []) ++
  (if mismatch (bs_lowPriorityMessageFrequency status) then [LOW_PRIORITY_MESSAGE_FREQUENCY_KEY] else []) ++
  (if mismatch (bs_highPriorityMessageFrequency status) then [HIGH_PRIORITY_MESSAGE_FREQUENCY_KEY] else []) ++
  (if mismatch (bs_snapshotFrequency status) then [SNAPSHOT_FREQUENCY_KEY] else []) ++
  (if mismatch (bs_eventPriorities status) then [EVENT_PROPERTIES_KEY] else []).

(** ** Lemmas: the message *)

Fixpoint key_items (keys : list string) : string :=
  match keys with
  | [] => EmptyString
  | k :: keys' => (" " ++ k ++ "," ++ key_items keys')%string
  end.

Definition message_head : string := "Couldn't parse the following conifgurations:".

Lemma key_items_app l l' : key_items (l ++ l') = (key_items l ++ key_items l')%string.
Proof. induction l as [|k l IH]; [done|]. cbn [app key_items]. by rewrite IH, !sapp_assoc. Qed.

Lemma stake_app a b : stake (String.length a) (a ++ b)%string = a.
Proof. induction a as [|c a IH]; cbn; [by destruct b | by rewrite IH]. Qed.

Lemma length_sapp a b : String.length (a ++ b)%string = (String.length a + String.length b)%nat.
Proof. induction a as [|c a IH]; [done|]. cbn. by rewrite IH. Qed.

(** Everything fits in 512 bytes; the text is ended two characters early. *)
Lemma written_message status :
  AgentConfigurationErrorCollector_GenerateTypeMismatchMessage status 512 =
  (let text := (message_head ++ key_items (mismatched_keys status))%string in
   Some (stake (String.length text - 2) text)).
Proof.
  unfold AgentConfigurationErrorCollector_GenerateTypeMismatchMessage, concatenate_key, mismatched_keys.
  destruct (mismatch (bs_maxLocalCacheSize status)), (mismatch (bs_maxMessageSize status)),
    (mismatch (bs_lowPriorityMessageFrequency status)), (mismatch (bs_highPriorityMessageFrequency status)),
    (mismatch (bs_snapshotFrequency status)), (mismatch (bs_eventPriorities status)); vm_compute; reflexivity.
Qed.

(** ** Lemmas: the payload *)

Section ErrorLemmas.
Context {P : Parson} {Mon : MemoryMonitor}.

(** A check that adds the errors [l]. *)
Definition adds (check : JsonArrayWriter -> M World (EventCollectorResult * JsonArrayWriter))
    (l : list ConfigurationError) (t : TwinConfiguration) : Prop :=
  forall a w, reliable w -> locks_ready w -> twinConfiguration w = t ->
  exists n r a', check a w = Some ((r, a'), bump n w) /\ (r = EVENT_COLLECTOR_OK -> add_errors a l = Some a') /\
    (r <> EVENT_COLLECTOR_OK -> add_errors a l = None).

Lemma reliable_getter {A} (proj : TwinConfiguration -> A) w :
  reliable w -> locks_ready w ->
  (t <- gets twinConfiguration ;; TwinConfiguration_GetField (proj t)) w =
  Some ((TWIN_OK, Some (proj (twinConfiguration w))), bump 2 w).
Proof. intros Hr (_ & l & Hl & Hh & _). by apply (getter_reliable proj w l). Qed.

Lemma AddPayload_adds a name error msg used w m :
  reliable w ->
  exists n r a', AgentConfigurationErrorCollector_AddPayload a name error msg used (bump m w) = Some ((r, a'), bump n w) /\
    (r = EVENT_COLLECTOR_OK -> add_errors a [mkConfigurationError name error msg used] = Some a') /\
    (r <> EVENT_COLLECTOR_OK -> add_errors a [mkConfigurationError name error msg used] = None).
Proof. intros Hr. by apply add_object_adds. Qed.

Lemma adds_nothing a w m :
  exists n r a', ret (EVENT_COLLECTOR_OK, a) (bump m w) = Some ((r, a'), bump n w) /\
    (r = EVENT_COLLECTOR_OK -> add_errors a [] = Some a') /\ (r <> EVENT_COLLECTOR_OK -> add_errors a [] = None).
Proof. exists m, EVENT_COLLECTOR_OK, a. done. Qed.

Lemma check_cache t :
  adds AgentConfigurationErrorCollector_ValidateMaxLocalCacheSizeIsHigherThanMaxMessageSize
    (if tc_maxLocalCacheSize t <? tc_maxMessageSize t then
     [mkConfigurationError MAX_LOCAL_CACHE_SIZE_KEY ERROR_TYPE_CONFLICT "maxLocalCacheSize is lower than maxMessageSize"
        (config_as_int (tc_maxLocalCacheSize t))] else []) t.
Proof.
  intros a w Hr Hl Ht. unfold AgentConfigurationErrorCollector_ValidateMaxLocalCacheSizeIsHigherThanMaxMessageSize.
  rewrite (bind_eq _ _ _ _ _ (reliable_getter tc_maxLocalCacheSize w Hr Hl)).
  rewrite (bind_eq _ _ _ _ _ (reliable_getter tc_maxMessageSize (bump 2 w) Hr Hl)), bump_bump.
  change (twinConfiguration (bump 2 w)) with (twinConfiguration w). rewrite Ht.
  destruct (tc_maxLocalCacheSize t <? tc_maxMessageSize t); [by apply AddPayload_adds | apply adds_nothing].
Qed.

Lemma check_message t :
  adds AgentConfigurationErrorCollector_ValidateMaxMessageSizeOptimal
    (if negb (tc_maxMessageSize t mod MESSAGE_BILLING_MULTIPLE =? 0) then
     [mkConfigurationError MAX_MESSAGE_SIZE_KEY ERROR_TYPE_NOT_OPTIMAL "maxMessageSize is not optimal"
        (config_as_int (tc_maxMessageSize t))] else []) t.
Proof.
  intros a w Hr Hl Ht. unfold AgentConfigurationErrorCollector_ValidateMaxMessageSizeOptimal.
  rewrite (bind_eq _ _ _ _ _ (reliable_getter tc_maxMessageSize w Hr Hl)). rewrite Ht.
  destruct (negb (tc_maxMessageSize t mod MESSAGE_BILLING_MULTIPLE =? 0)); [by apply AddPayload_adds | apply adds_nothing].
Qed.

(** A frequency that is reported has a duration to print. *)
Definition frequencies_printable (t : TwinConfiguration) : Prop :=
  tc_lowPriorityMessageFrequency t < tc_highPriorityMessageFrequency t ->
  MILLISECONDS_IN_A_SECOND <= tc_highPriorityMessageFrequency t <= UINT32_MAX.

Lemma check_frequencies t :
  frequencies_printable t ->
  adds AgentConfigurationErrorCollector_ValidateHighPrioFreqIsLowerThanLowPrioFreq
    (if tc_lowPriorityMessageFrequency t <? tc_highPriorityMessageFrequency t then
     [mkConfigurationError HIGH_PRIORITY_MESSAGE_FREQUENCY_KEY ERROR_TYPE_CONFLICT
        "high priority frequency is higher than low priority frequency"
        (written (snd (TimeUtils_MillisecondsToISO8601DurationString (tc_highPriorityMessageFrequency t) DURATION_MAX_LENGTH)))]
     else []) t.
Proof.
  intros Hp a w Hr Hl Ht. unfold AgentConfigurationErrorCollector_ValidateHighPrioFreqIsLowerThanLowPrioFreq.
  rewrite (bind_eq _ _ _ _ _ (reliable_getter tc_highPriorityMessageFrequency w Hr Hl)).
  rewrite (bind_eq _ _ _ _ _ (reliable_getter tc_lowPriorityMessageFrequency (bump 2 w) Hr Hl)), bump_bump.
  change (twinConfiguration (bump 2 w)) with (twinConfiguration w). rewrite Ht.
  destruct (Z.ltb_spec (tc_lowPriorityMessageFrequency t) (tc_highPriorityMessageFrequency t)) as [Hlt|]; [|apply adds_nothing].
  destruct (print_canonical _ (Hp Hlt)) as (mo & we & da & ho & mi & se & len & E & _). rewrite E. cbn [snd].
  by apply AddPayload_adds.
Qed.

Lemma add_errors_app a l l' : add_errors a (l ++ l') = (a' ← add_errors a l; add_errors a' l').
Proof. unfold add_errors. by rewrite map_app, add_all_app. Qed.

Lemma adds_nil t : adds (run_checks []) [] t.
Proof. intros a w _ _ _. exists 0%nat, EVENT_COLLECTOR_OK, a. by rewrite bump_0. Qed.

Lemma adds_cons check checks l l' t : adds check l t -> adds (run_checks checks) l' t -> adds (run_checks (check :: checks)) (l ++ l') t.
Proof.
  intros H1 H2 a w Hr Hl Ht. destruct (H1 a w Hr Hl Ht) as (n & r & a1 & E1 & Hok1 & Hno1).
  cbn [run_checks]. rewrite (bind_eq _ _ _ _ _ E1), add_errors_app. case_decide as Hd.
  - rewrite (Hok1 Hd). destruct (H2 a1 (bump n w)) as (m & r2 & a2 & E2 & Hok2 & Hno2); [done | | done |].
    { exact Hl. }
    exists (m + n)%nat, r2, a2. rewrite E2, bump_bump. done.
  - rewrite (Hno1 Hd). exists n, r, a1. done.
Qed.

Lemma checks_run t u :
  ur_lastUpdateResult u = TWIN_OK -> frequencies_printable t -> adds (run_checks (checks_of u)) (errors_of t) t.
Proof.
  intros Hu Hp. unfold checks_of, errors_of. rewrite Hu. rewrite <- (app_nil_r (if _ <? tc_highPriorityMessageFrequency t then _ else _)).
  repeat apply adds_cons; auto using check_cache, check_message, check_frequencies, adds_nil.
Qed.

End ErrorLemmas.

(** ** Lemmas: the event *)

Section ReportLemmas.
Context {P : Parson} {Mon : MemoryMonitor} {Laws : MemoryMonitorLaws Mon}.

(** The event that is queued holds the errors [l] and has its length as its size. *)
Definition reports (l : list ConfigurationError) : EventCollectorResult -> list (nat * (string * Z)) -> Prop :=
  queued (fun a0 a => add_errors a0 l = Some a).

Lemma report_run queue (s : Store (D := string)) items l u :
  sync_holds queue s items -> times_fit (env (st_world s)) -> Z.of_nat (List.length items) < UINT32_MAX ->
  adds (run_checks (checks_of u)) l (twinConfiguration (st_world s)) ->
  exists r queue' s' new, report queue u s = Some ((r, queue'), s') /\
    sync_holds queue' s' (items ++ new) /\ only_monitor (st_world s) (st_world s') /\ reports l r new.
Proof.
  intros Hq Hf Hlen Hadds. apply collect_run; [done | done | done |]. intros a n.
  destruct (Hadds a (bump n (st_world s)) (sync_holds_reliable _ _ _ Hq) (sync_locks_ready _ _ _ Hq) eq_refl)
    as (m & r & a' & H & Hok & _).
  exists (m + n)%nat, r, a'. by rewrite <- bump_bump.
Qed.

End ReportLemmas.

(** ** Properties *)

(** C32: After an update that succeeded, [GetEvents] queues exactly one event, and
    its payload lists exactly the errors of the configuration, in order: a cache
    smaller than a message, a message size that is not a multiple of 4 KB, and a
    high priority frequency above the low one. Nothing is queued when the update
    was reported before, or when a step fails; but [lastEvent] is the time of the
    update in every case, so a report that failed is never repeated. The time
    between the update and the last report, in milliseconds, fits an [int32_t],
    which leaves out the first report, undefined by [first_report_undefined], and
    the two frequencies can be printed as durations. *)
Theorem configuration_errors_reported {P : Parson} {Mon : MemoryMonitor} {Laws : MemoryMonitorLaws Mon}
    lastEvent queue (s : Store (D := string)) items :
  let u := updateResult (st_world s) in
  let t := twinConfiguration (st_world s) in
  sync_holds queue s items -> times_fit (env (st_world s)) -> Z.of_nat (List.length items) < UINT32_MAX ->
  ur_lastUpdateResult u = TWIN_OK -> frequencies_printable t ->
  INT32_MIN <= (ur_lastUpdateTime u - lastEvent) * 1000 <= INT32_MAX ->
  exists r queue' s' new,
    AgentConfigurationErrorCollector_GetEvents lastEvent queue s = Some ((r, ur_lastUpdateTime u, queue'), s') /\
    sync_holds queue' s' (items ++ new) /\ only_monitor (st_world s) (st_world s') /\
    if ur_lastUpdateTime u =? lastEvent then r = EVENT_COLLECTOR_OK /\ new = [] else reports (errors_of t) r new.
Proof.
  intros u t Hq Hf Hlen Hu Hp Hd. unfold AgentConfigurationErrorCollector_GetEvents.
  assert (Hg : lift TwinConfiguration_GetLastTwinUpdateData s = Some (u, s)).
  { unfold lift. cbn. unfold u. destruct s as [w ? ?]. cbn. by destruct (updateResult w). }
  rewrite (bind_eq _ _ _ _ _ Hg).
  assert (Ht : lift (TimeUtils_GetTimeDiff (ur_lastUpdateTime u) lastEvent) s = Some ((ur_lastUpdateTime u - lastEvent) * 1000, s)).
  { unfold lift, TimeUtils_GetTimeDiff. rewrite (proj2 (andb_true_iff _ _)) by (split; lia). by destruct s. }
  rewrite (bind_eq _ _ _ _ _ Ht).
  destruct (Z.eqb_spec ((ur_lastUpdateTime u - lastEvent) * 1000) 0), (Z.eqb_spec (ur_lastUpdateTime u) lastEvent); try lia.
  - exists EVENT_COLLECTOR_OK, queue, s, []. rewrite app_nil_r. split; [done|]. split; [done|].
    split; [apply only_monitor_refl | done].
  - destruct (report_run queue s items (errors_of t) u Hq Hf Hlen (checks_run t u Hu Hp)) as (r & q & s' & new & H & Hq' & Ho & Hrep).
    rewrite (bind_eq _ _ _ _ _ H). by exists r, q, s', new.
Qed.

(** The first report after the start is undefined: [lastEvent] is still 0, and
    the difference to the time of any update after January 1970 does not fit
    in the [int32_t] that [TimeUtils_GetTimeDiff] returns. *)
Theorem first_report_undefined {P : Parson} {Mon : MemoryMonitor} queue (s : Store (D := string)) :
  INT32_MAX / 1000 < ur_lastUpdateTime (updateResult (st_world s)) ->
  AgentConfigurationErrorCollector_GetEvents 0 queue s = None.
Proof.
  intros H. unfold AgentConfigurationErrorCollector_GetEvents, bind, lift. cbn. unfold TimeUtils_GetTimeDiff.
  rewrite (proj2 (Z.leb_gt (_ * 1000) INT32_MAX)); [by rewrite andb_false_r|].
  unfold INT32_MAX in *. change (2147483647 / 1000) with 2147483 in H. lia.
Qed.

(** The message of a type mismatch always fits its 512 bytes, but its end is
    cut off one character too early: it lists the mismatched keys, and the
    last of them has lost its last letter together with the comma. *)
Theorem type_mismatch_message status keys key c :
  mismatched_keys status = keys ++ [(key ++ String c EmptyString)%string] ->
  AgentConfigurationErrorCollector_GenerateTypeMismatchMessage status 512 =
  Some (message_head ++ key_items keys ++ " " ++ key)%string.
Proof.
  intros Hk. rewrite written_message, Hk, key_items_app. cbn [key_items]. cbv zeta. f_equal.
  set (m := (message_head ++ key_items keys ++ " " ++ key)%string).
  replace (message_head ++ key_items keys ++ " " ++ (key ++ String c EmptyString) ++ "," ++ EmptyString)%string
    with (m ++ String c ("," ++ EmptyString))%string by (unfold m; by rewrite !sapp_assoc).
  rewrite length_sapp. cbn [String.length append].
  replace (String.length m + 2 - 2)%nat with (String.length m) by lia. apply stake_app.
Qed.

(** ** Witnesses *)

(** A configuration with all three errors, updated at second 1000. *)
Definition wrong_configuration : TwinConfiguration :=
  mkTwinConfiguration 1000 5000 60000 120000 60000 false None None (Some 0%nat).

Definition wrong_world : World :=
  set_updateResult (mkUpdateResult 1000 TWIN_OK (ur_configurationBundleStatus (updateResult (running_world good_env))))
    (set_twinConfiguration wrong_configuration (st_world two_store)).

Definition wrong_store : Store (D := string) := mkStore wrong_world (st_heap two_store) (next_item two_store).

Lemma wrong_holds : @sync_holds string synchronized_monitor two_queue wrong_store two_items.
Proof.
  destruct two_holds as (l & H1 & H2 & (H3 & (H5 & H6) & H4) & H7). exists l.
  split; [exact H1|]. split; [exact H2|]. split; [|exact H7]. split; [exact H3|]. split; [|exact H4].
  injection H1 as <-. split; [exact H5 | exact H6].
Qed.

(** Its run succeeds, with the payload of three errors. *)
Example wrong_reported :
  option_map (fun x => fst (fst (fst x)))
    (@AgentConfigurationErrorCollector_GetEvents event_parson synchronized_monitor 900 two_queue wrong_store)
  = Some EVENT_COLLECTOR_OK.
Proof. vm_compute. reflexivity. Qed.

Lemma configuration_errors_reported_witness :
  exists r queue' s' new,
    @AgentConfigurationErrorCollector_GetEvents event_parson synchronized_monitor 900 two_queue wrong_store
    = Some ((r, 1000, queue'), s') /\ @reports event_parson (errors_of wrong_configuration) r new.
Proof.
  destruct (@configuration_errors_reported event_parson synchronized_monitor _ 900 two_queue wrong_store two_items
    wrong_holds) as (r & q & s' & new & H & Hq & Ho & Hrep); [| by vm_compute | done | by vm_compute | by vm_compute |].
  - intros t x [[= <-]|[= <-]]; by vm_compute.
  - exists r, q, s', new. split; [exact H | exact Hrep].
Defined.

Lemma first_report_undefined_witness :
  @AgentConfigurationErrorCollector_GetEvents event_parson synchronized_monitor 0 two_queue
    (mkStore (set_updateResult (mkUpdateResult 1570000000 TWIN_OK (ur_configurationBundleStatus (updateResult (running_world good_env))))
               (running_world good_env)) ∅ 0) = None.
Proof. apply first_report_undefined. by vm_compute. Defined.

Definition cache_mismatch : TwinConfigurationBundleStatus :=
  mkBundleStatus CONFIGURATION_TYPE_MISMATCH CONFIGURATION_OK CONFIGURATION_OK CONFIGURATION_OK CONFIGURATION_OK
    CONFIGURATION_OK CONFIGURATION_OK CONFIGURATION_OK CONFIGURATION_OK.

Lemma type_mismatch_message_witness :
  AgentConfigurationErrorCollector_GenerateTypeMismatchMessage cache_mismatch 512 =
  Some "Couldn't parse the following conifgurations: maxLocalCacheSizeInByte"%string.
Proof. exact (type_mismatch_message cache_mismatch [] "maxLocalCacheSizeInByte" "s"%char eq_refl). Defined.
