(* ===== verification/TelemetryCollector.v ===== *)
(** * [collectors/agent_telemetry_collector.c]: the agent's telemetry as events

    Two events: how many events each priority queue collected and dropped, and
    how many messages were sent.  Reading a counter resets it. *)

From S2P Require Import Prelude CString TwinDefs World TimeUtils Parson ParsonModel Json TwinCollectors TwinConfiguration MemoryMonitor Telemetry Queue SyncQueue Schema MessageSerializer GenericEvent Collector.
From Stdlib Require Import String.
Open Scope Z_scope.

Definition HIGH_PRIO_QUEUE_NAME : string := "High".
Definition LOW_PRIO_QUEUE_NAME : string := "Low".

(** The heap of queue items with the program's statics, the counters by their
    addresses, and the provider's pointers to them. *)
Record CollectorState : Type := mkCollectorState {
  cl_store : Store (D := string);
  cl_counters : gmap nat SyncedCounter;
  cl_provider : AgentTelemetryProvider;
}.

#[export] Instance collector_has_world : HasWorld CollectorState.
Proof.
  refine {| world_of := fun s => st_world (cl_store s);
            with_world := fun w s => mkCollectorState (mkStore w (st_heap (cl_store s)) (next_item (cl_store s)))
                                       (cl_counters s) (cl_provider s) |}; by intros; destruct s as [[] ? ?].
Defined.

(** A call of the provider. *)
Definition in_telemetry {A} (m : M TelemetryState A) : M CollectorState A :=
  fun s => match m (mkTelemetryState (st_world (cl_store s)) (cl_counters s) (cl_provider s)) with
           | None => None
           | Some (a, t) =>
               Some (a, mkCollectorState (mkStore (ts_world t) (st_heap (cl_store s)) (next_item (cl_store s)))
                          (ts_counters t) (agentTelemetryProvider t))
           end.

Definition set_queue_counter (c : SyncedCounter) (queue : SyncQueue) : SyncQueue :=
  mkSyncQueue (with_counter (sq_queue queue) c) (sq_lock queue).

(** A call on a queue whose counter is the one at [counterAddress]: the provider
    may point to it. *)
Definition on_queue {A} (counterAddress : nat) (m : SyncQueue -> M (Store (D := string)) (A * SyncQueue)) (queue : SyncQueue)
    : M CollectorState (A * SyncQueue) :=
  fun s => match cl_counters s !! counterAddress with
           | None => None
           | Some c =>
               match m (set_queue_counter c queue) (cl_store s) with
               | None => None
               | Some ((a, queue), st) =>
                   Some ((a, queue), mkCollectorState st
                           (<[counterAddress := q_counter (sq_queue queue)]> (cl_counters s)) (cl_provider s))
               end
           end.

Section TelemetryCollector.
Context {P : Parson} {Mon : MemoryMonitor}.

Definition AgentTelemetryCollector_PushEvent (counterAddress : nat) (queue : SyncQueue) (eventHandle : JsonObjectWriter)
    : M CollectorState (EventCollectorResult * SyncQueue) :=
  on_queue counterAddress (fun queue => push_event queue eventHandle) queue.

(** [WriteInt] takes an [int]. *)
Definition dropped_fields (queueCounterData : Z * Z) (queueName : string) : list Field :=
  [ (AGENT_TELEMETRY_QUEUE_EVENTS_KEY, FString queueName);
    (AGENT_TELEMETRY_COLLECTED_EVENTS_KEY, FInt (i32 (fst queueCounterData)));
    (AGENT_TELEMETRY_DROPPED_EVENTS_KEY, FInt (i32 (snd queueCounterData))) ].

Definition AgentTelemetryCollector_AddDroppedEventsStatsPayload (queueCounterData : Z * Z) (queueName : string)
    (payloadWriter : JsonArrayWriter) : M World (EventCollectorResult * JsonArrayWriter) :=
  add_object payloadWriter (map field_step (dropped_fields queueCounterData queueName)).

Definition statistics_fields (counterData : Z * Z * Z) : list Field :=
  let '(sentMessages, smallMessages, failedMessages) := counterData in
  [ (AGENT_TELEMETRY_MESSAGES_SENT_KEY, FInt (i32 sentMessages));
    (AGENT_TELEMETRY_MESSAGES_FAILED_KEY, FInt (i32 failedMessages));
    (AGENT_TELEMETRY_MESSAGES_UNDER_4KB_KEY, FInt (i32 smallMessages)) ].

Definition AgentTelemetryCollector_AddMessageStatisticsPayload (counterData : Z * Z * Z) (payloadHandle : JsonArrayWriter)
    : M World (EventCollectorResult * JsonArrayWriter) :=
  add_object payloadHandle (map field_step (statistics_fields counterData)).

Definition queue_name (queueMeter : AgentQueueMeter) : string :=
  match queueMeter with HIGH_PRIORITY => HIGH_PRIO_QUEUE_NAME | LOW_PRIORITY => LOW_PRIO_QUEUE_NAME end.

Definition AgentTelemetryCollector_AddQueueCounterPayload (payloadHandle : JsonArrayWriter) (queueMeter : AgentQueueMeter)
    : M CollectorState (EventCollectorResult * JsonArrayWriter) :=
  let* (r, counterData) := in_telemetry (AgentTelemetryProvider_GetQueueCounterData queueMeter) in
  match r, counterData with
  | TELEMETRY_PROVIDER_OK, Some counterData =>
      up (AgentTelemetryCollector_AddDroppedEventsStatsPayload counterData (queue_name queueMeter) payloadHandle)
  | _, _ => ret (EVENT_COLLECTOR_EXCEPTION, payloadHandle)
  end.

Definition AgentTelemetryCollector_AddDroppedEventsEvent (counterAddress : nat) (queue : SyncQueue)
    : M CollectorState (EventCollectorResult * SyncQueue) :=
  let* (r, event) :=
    build_event EVENT_PERIODIC_CATEGORY AGENT_TELEMETRY_DROPPED_EVENTS_NAME EVENT_TYPE_OPERATIONAL_VALUE
      AGENT_TELEMETRY_DROPPED_EVENTS_SCHEMA_VERSION
      (fun payloadHandle =>
        let* (r, payloadHandle) := AgentTelemetryCollector_AddQueueCounterPayload payloadHandle HIGH_PRIORITY in
        if decide (r <> EVENT_COLLECTOR_OK) then ret (r, payloadHandle)
        else AgentTelemetryCollector_AddQueueCounterPayload payloadHandle LOW_PRIORITY) in
  match event with
  | Some event => AgentTelemetryCollector_PushEvent counterAddress queue event
  | None => ret (r, queue)
  end.

Definition AgentTelemetryCollector_AddMessageStatisticsEvent (counterAddress : nat) (queue : SyncQueue)
    : M CollectorState (EventCollectorResult * SyncQueue) :=
  let* (r, event) :=
    build_event EVENT_PERIODIC_CATEGORY AGENT_TELEMETRY_MESSAGE_STATISTICS_NAME EVENT_TYPE_OPERATIONAL_VALUE
      AGENT_TELEMETRY_MESSAGE_STATISTICS_SCHEMA_VERSION
      (fun payloadHandle =>
        let* (r, counterData) := in_telemetry AgentTelemetryProvider_GetMessageCounterData in
        match r, counterData with
        | TELEMETRY_PROVIDER_OK, Some counterData =>
            up (AgentTelemetryCollector_AddMessageStatisticsPayload counterData payloadHandle)
        | _, _ => ret (EVENT_COLLECTOR_EXCEPTION, payloadHandle)
        end) in
  match event with
  | Some event => AgentTelemetryCollector_PushEvent counterAddress queue event
  | None => ret (r, queue)
  end.

Definition AgentTelemetryCollector_GetEvents (counterAddress : nat) (priorityQueue : SyncQueue)
    : M CollectorState (EventCollectorResult * SyncQueue) :=
  let* (result, queue) := AgentTelemetryCollector_AddDroppedEventsEvent counterAddress priorityQueue in
  if decide (result <> EVENT_COLLECTOR_OK) then ret (result, queue)
  else AgentTelemetryCollector_AddMessageStatisticsEvent counterAddress queue.

End TelemetryCollector.

(** ** Specification *)

(** The counter at an address is set to zero. *)
Definition reset (a : nat) (s : CollectorState) : CollectorState :=
  mkCollectorState (cl_store s) (alter (fun c => mkSyncedCounter zero_counter (sc_lock c)) a (cl_counters s)) (cl_provider s).

Section Properties.
Context {P : Parson} {Mon : MemoryMonitor} {Laws : MemoryMonitorLaws Mon}.

(** The queue, with its counter, holds [items], and no lock of a counter is held. *)
Definition telemetry_ready (counterAddress : nat) (queue : SyncQueue) (s : CollectorState)
    (items : list (nat * (string * Z))) : Prop :=
  (exists c, cl_counters s !! counterAddress = Some c /\ sync_holds (set_queue_counter c queue) (cl_store s) items) /\
  forall a c, cl_counters s !! a = Some c -> counter_ready c (st_world (cl_store s)).

(** The text of an event whose payloads have the fields of [l]. *)
Definition reports_fields (l : list (list Field)) (text : string) : Prop :=
  exists a0 a, new_array = Some a0 /\ add_all a0 l = Some a /\ event_text a text.

(** ** Lemmas *)

Lemma set_counter_idem queue : set_queue_counter (q_counter (sq_queue queue)) queue = queue.
Proof. by destruct queue as [[] ?]. Qed.

Lemma sync_holds_counter c c' queue (s : Store (D := string)) items :
  sc_lock c' = sc_lock c -> sync_holds (set_queue_counter c queue) s items -> sync_holds (set_queue_counter c' queue) s items.
Proof.
  intros Hl (l & H1 & H2 & (H3 & H4 & H5) & H6). exists l. split; [done|]. split; [done|]. split; [|exact H6].
  split; [done|]. split; [done|]. unfold counter_ready in *. cbn in *. by rewrite Hl.
Qed.

Lemma ready_reset aq queue s items a : telemetry_ready aq queue s items -> telemetry_ready aq queue (reset a s) items.
Proof.
  intros [(c & Hc & Hq) Hr]. split.
  - cbn. destruct (decide (aq = a)) as [<-|Hne].
    + exists (mkSyncedCounter zero_counter (sc_lock c)). rewrite lookup_alter_eq, Hc. split; [done|].
      by eapply sync_holds_counter.
    + exists c. by rewrite lookup_alter_ne.
  - intros b d. cbn. destruct (decide (a = b)) as [<-|Hne].
    + rewrite lookup_alter_eq. destruct (cl_counters s !! a) as [d'|] eqn:E; [|done]. intros [= <-]. by apply (Hr a d').
    + rewrite lookup_alter_ne by done. apply Hr.
Qed.

Lemma ready_elapse aq queue s items n : telemetry_ready aq queue s items -> telemetry_ready aq queue (elapse n s) items.
Proof.
  intros [(c & Hc & Hq) Hr]. split; [|exact Hr]. exists c. split; [exact Hc|]. by apply sync_holds_bump.
Qed.

Lemma elapse_reset n a s : elapse n (reset a s) = reset a (elapse n s).
Proof. done. Qed.

(** Reading a counter takes its counts and leaves zero. *)
Lemma snapshot_run {A} (k : bool * Counter -> A) p a c s :
  reliable (st_world (cl_store s)) -> p = Some a -> cl_counters s !! a = Some c -> counter_ready c (st_world (cl_store s)) ->
  in_telemetry (r <- snapshot p ;; ret (k r)) s = Some (k (true, counter c), elapse 2 (reset a s)).
Proof.
  intros Hr -> Hc Hf. unfold in_telemetry, snapshot, on_counter, bind. cbn [ts_counters ts_world agentTelemetryProvider].
  rewrite Hc, SnapshotAndReset_reliable by done. cbn. do 2 f_equal.
  unfold reset, elapse. cbn. f_equal. apply map_eq. intros b. destruct (decide (a = b)) as [<-|Hne].
  - by rewrite lookup_insert_eq, lookup_alter_eq, Hc.
  - by rewrite lookup_insert_ne, lookup_alter_ne.
Qed.

Lemma reliable_ready aq queue s items : telemetry_ready aq queue s items -> reliable (st_world (cl_store s)).
Proof. intros [(c & _ & Hq) _]. by eapply sync_holds_reliable. Qed.

Definition meter_address (meter : AgentQueueMeter) (p : AgentTelemetryProvider) : option nat :=
  match meter with HIGH_PRIORITY => highPriorityQueueCounter p | LOW_PRIORITY => lowPriorityQueueCounter p end.

Lemma AddQueueCounter_run aq queue s items meter a c arr n :
  telemetry_ready aq queue s items -> meter_address meter (cl_provider s) = Some a -> cl_counters s !! a = Some c ->
  exists m r arr', AgentTelemetryCollector_AddQueueCounterPayload arr meter (elapse n s) =
      Some ((r, arr'), elapse m (reset a s)) /\
    adds_fields arr [dropped_fields (word0 (counter c), word1 (counter c)) (queue_name meter)] r arr'.
Proof.
  intros Hr Ha Hc. unfold AgentTelemetryCollector_AddQueueCounterPayload.
  pose proof (reliable_ready _ _ _ _ Hr) as Hrel.
  assert (E : in_telemetry (AgentTelemetryProvider_GetQueueCounterData meter) (elapse n s) =
    Some ((TELEMETRY_PROVIDER_OK, Some (word0 (counter c), word1 (counter c))), elapse (2 + n) (reset a s))).
  { pose proof (snapshot_run (fun r => if fst r then (TELEMETRY_PROVIDER_OK,
        Some (get_count queue_collected (snd r), get_count queue_dropped (snd r))) else (TELEMETRY_PROVIDER_EXCEPTION, None))
      (meter_address meter (cl_provider s)) a c (elapse n s) Hrel Ha Hc) as H.
    rewrite <- elapse_reset, elapse_elapse in H. etrans; [|apply H; by apply (proj2 Hr a)].
    unfold in_telemetry, AgentTelemetryProvider_GetQueueCounterData, bind, gets. destruct meter;
      cbn [meter_address agentTelemetryProvider cl_provider elapse with_world collector_has_world];
      destruct (snapshot _ _) as [[[[] d] t]|]; done. }
  rewrite (bind_eq _ _ _ _ _ E).
  destruct (add_object_adds arr (dropped_fields (word0 (counter c), word1 (counter c)) (queue_name meter))
    (st_world (cl_store s)) (2 + n) Hrel) as (m & r & arr' & H & Hadds).
  exists m, r, arr'. split; [|exact Hadds]. unfold up, AgentTelemetryCollector_AddDroppedEventsStatsPayload.
  cbn [world_of collector_has_world elapse with_world cl_store st_world reset]. by rewrite H.
Qed.

(** The queue after an event was pushed, or refused. *)
Lemma PushEvent_run aq queue s items event :
  telemetry_ready aq queue s items -> Z.of_nat (List.length items) < UINT32_MAX ->
  exists r queue' s' new, AgentTelemetryCollector_PushEvent aq queue event s = Some ((r, queue'), s') /\
    telemetry_ready aq queue' s' (items ++ new) /\ cl_provider s' = cl_provider s /\
    env (st_world (cl_store s')) = env (st_world (cl_store s)) /\
    (forall a, a <> aq -> cl_counters s' !! a = cl_counters s !! a) /\
    match r with
    | EVENT_COLLECTOR_OK => exists text b, json_serialize_to_string (wr_rootValue event) = Some text /\
        new = [(b, (text, u32 (strlen text)))]
    | _ => new = []
    end.
Proof.
  intros [(c & Hc & Hq) Hr] Hlen. unfold AgentTelemetryCollector_PushEvent, on_queue. rewrite Hc.
  destruct (push_event_run (set_queue_counter c queue) (cl_store s) items event Hq Hlen) as (r & q & st & new & -> & Hq' & Ho & Hnew).
  eexists r, q, _, new. split; [reflexivity|]. pose proof Ho as (He & Hheld & _).
  split; [|split; [done|]; split; [exact He|]; split; [|exact Hnew]; intros a Ha; cbn; by rewrite lookup_insert_ne].
  split.
  - exists (q_counter (sq_queue q)). cbn. rewrite lookup_insert_eq, set_counter_idem. done.
  - intros a d. cbn. destruct (decide (aq = a)) as [<-|Hne].
    + rewrite lookup_insert_eq. intros [= <-]. destruct Hq' as (l & _ & _ & (_ & _ & k & Hk & Hn) & _).
      exists k. split; [done|]. intros Hin. apply Hn. cbn. by apply elem_of_union_r.
    + rewrite lookup_insert_ne by done. intros Hd. destruct (Hr a d Hd) as (k & Hk & Hn). exists k. by rewrite Hheld.
Qed.

(** An event whose payloads may reset counters: [inter] are the states in which
    it may stop, [target] is the one after all payloads. *)
Lemma emit_run aq queue category name type version fill s items filled (inter : CollectorState -> Prop) target :
  telemetry_ready aq queue s items -> times_fit (env (st_world (cl_store s))) ->
  Z.of_nat (List.length items) < UINT32_MAX -> inter s ->
  (forall s1, inter s1 -> telemetry_ready aq queue s1 items /\ env (st_world (cl_store s1)) = env (st_world (cl_store s)) /\
    cl_provider s1 = cl_provider s) ->
  (forall a n, exists m r a' s1, fill a (elapse n s) = Some ((r, a'), elapse m s1) /\ inter s1 /\
    (r = EVENT_COLLECTOR_OK -> s1 = target /\ filled a a')) ->
  exists r queue' s' new s1,
    (let* (r, event) := build_event category name type version fill in
     match event with
     | Some event => AgentTelemetryCollector_PushEvent aq queue event
     | None => ret (r, queue)
     end) s = Some ((r, queue'), s') /\
    telemetry_ready aq queue' s' (items ++ new) /\ cl_provider s' = cl_provider s /\
    env (st_world (cl_store s')) = env (st_world (cl_store s)) /\ inter s1 /\
    (forall a, a <> aq -> cl_counters s' !! a = cl_counters s1 !! a) /\
    (r = EVENT_COLLECTOR_OK -> s1 = target) /\ queued filled r new.
Proof.
  intros Hready Hf Hlen Hs Hinter Hfill.
  assert (Hrel : reliable (world_of s)) by exact (reliable_ready _ _ _ _ Hready).
  assert (Hf' : times_fit (env (world_of s))) by exact Hf.
  destruct (build_event_run category name type version fill s (fun a r a' s' => exists m s1, s' = elapse m s1 /\ inter s1 /\
    (r = EVENT_COLLECTOR_OK -> s1 = target /\ filled a a')) Hrel Hf') as (r & event & s' & Hb & Hbuilt).
  { intros a n. destruct (Hfill a n) as (m & r & a' & s1 & H & Hi & Hok). exists r, a', (elapse m s1). split; [done|]. by exists m, s1. }
  rewrite (bind_eq _ _ _ _ _ Hb).
  assert (Hs' : exists m s1, s' = elapse m s1 /\ inter s1) by
    (destruct Hbuilt as [(_ & _ & n & ->)|(? & ? & ? & _ & (m & s1 & -> & Hi & _) & _)]; eauto).
  destruct event as [event|].
  - destruct Hbuilt as [(_ & [=] & _)|(a0 & r1 & a & Ha0 & (m & s1 & -> & Hi & HQ) & -> & -> & e0 & a' & He)].
    destruct (HQ eq_refl) as [-> Hfilled]. destruct (Hinter target Hi) as (Hr1 & He1 & Hp1).
    destruct (PushEvent_run aq queue (elapse m target) items event (ready_elapse _ _ _ _ m Hr1) Hlen)
      as (r & q & s2 & new & Hrun & Hr2 & Hp2 & He2 & Hc2 & Hnew).
    exists r, q, s2, new, target. split; [exact Hrun|]. split; [done|]. split; [by rewrite Hp2|].
    split; [by rewrite He2|]. do 2 (split; [done|]). split; [done|]. destruct r; try done.
    destruct Hnew as (text & b & Ht & ->). exists a0, a, text, b. do 2 (split; [done|]). split; [by exists e0, event, a' | done].
  - destruct Hs' as (m & s1 & -> & Hi). destruct (Hinter s1 Hi) as (Hr1 & He1 & Hp1).
    assert (r <> EVENT_COLLECTOR_OK) as Hne by (destruct Hbuilt as [(? & _)|(? & ? & ? & _ & _ & H)]; done).
    exists r, queue, (elapse m s1), [], s1. rewrite app_nil_r. split; [done|]. split; [by apply ready_elapse|].
    do 5 (split; [done|]). by destruct r.
Qed.

Lemma AddDropped_run aq queue s items lo hi hub cl ch :
  telemetry_ready aq queue s items -> times_fit (env (st_world (cl_store s))) ->
  Z.of_nat (List.length items) < UINT32_MAX -> cl_provider s = mkProvider (Some lo) (Some hi) hub -> hi <> lo ->
  cl_counters s !! lo = Some cl -> cl_counters s !! hi = Some ch ->
  exists r queue' s' new s1, AgentTelemetryCollector_AddDroppedEventsEvent aq queue s = Some ((r, queue'), s') /\
    telemetry_ready aq queue' s' (items ++ new) /\ cl_provider s' = cl_provider s /\
    env (st_world (cl_store s')) = env (st_world (cl_store s)) /\
    (s1 = s \/ s1 = reset hi s \/ s1 = reset lo (reset hi s)) /\
    (forall a, a <> aq -> cl_counters s' !! a = cl_counters s1 !! a) /\
    (r = EVENT_COLLECTOR_OK -> s1 = reset lo (reset hi s)) /\
    queued (fun a0 a => add_all a0
      [ dropped_fields (word0 (counter ch), word1 (counter ch)) HIGH_PRIO_QUEUE_NAME;
        dropped_fields (word0 (counter cl), word1 (counter cl)) LOW_PRIO_QUEUE_NAME ] = Some a) r new.
Proof.
  intros Hr Hf Hlen Hp Hne Hlo Hhi.
  apply (emit_run aq queue _ _ _ _ _ s items _ (fun s1 => s1 = s \/ s1 = reset hi s \/ s1 = reset lo (reset hi s))
           (reset lo (reset hi s))); try done; [by left | |].
  { intros s1 [->|[->| ->]]; (split; [|done]); [done | | do 2 apply ready_reset]; by try apply ready_reset. }
  intros a n.
  destruct (AddQueueCounter_run aq queue s items HIGH_PRIORITY hi ch a n Hr) as (m & r & a1 & H1 & Ha1); [by rewrite Hp | done |].
  destruct (decide (r <> EVENT_COLLECTOR_OK)) as [Hd|Hd].
  - exists m, r, a1, (reset hi s). rewrite (bind_eq _ _ _ _ _ H1), decide_True by done. split; [done|]. split; [by right; left | done].
  - assert (r = EVENT_COLLECTOR_OK) as -> by (by apply dec_stable).
    destruct (AddQueueCounter_run aq queue (reset hi s) items LOW_PRIORITY lo cl a1 m (ready_reset _ _ _ _ hi Hr))
      as (m2 & r2 & a2 & H2 & Ha2); [cbn; by rewrite Hp | cbn; by rewrite lookup_alter_ne |].
    exists m2, r2, a2, (reset lo (reset hi s)). rewrite (bind_eq _ _ _ _ _ H1), decide_False by tauto.
    split; [done|]. split; [by right; right|]. intros ->. split; [done|]. exact (proj1 (adds_fields_app _ [_] _ _ _ _ Ha1 Ha2) eq_refl).
Qed.

Lemma AddStatistics_run aq queue s items hub cm :
  telemetry_ready aq queue s items -> times_fit (env (st_world (cl_store s))) ->
  Z.of_nat (List.length items) < UINT32_MAX -> iotHubCounter (cl_provider s) = Some hub -> cl_counters s !! hub = Some cm ->
  exists r queue' s' new s1, AgentTelemetryCollector_AddMessageStatisticsEvent aq queue s = Some ((r, queue'), s') /\
    telemetry_ready aq queue' s' (items ++ new) /\ cl_provider s' = cl_provider s /\
    env (st_world (cl_store s')) = env (st_world (cl_store s)) /\ (s1 = s \/ s1 = reset hub s) /\
    (forall a, a <> aq -> cl_counters s' !! a = cl_counters s1 !! a) /\
    (r = EVENT_COLLECTOR_OK -> s1 = reset hub s) /\
    queued (fun a0 a => add_all a0 [statistics_fields (word0 (counter cm), word1 (counter cm), word2 (counter cm))] = Some a) r new.
Proof.
  intros Hr Hf Hlen Hp Hhub. pose proof (reliable_ready _ _ _ _ Hr) as Hrel.
  apply (emit_run aq queue _ _ _ _ _ s items _ (fun s1 => s1 = s \/ s1 = reset hub s) (reset hub s)); try done; [by left | |].
  { intros s1 [->| ->]; (split; [|done]); [done | by apply ready_reset]. }
  intros a n.
  assert (E : in_telemetry AgentTelemetryProvider_GetMessageCounterData (elapse n s) =
    Some ((TELEMETRY_PROVIDER_OK, Some (word0 (counter cm), word1 (counter cm), word2 (counter cm))), elapse (2 + n) (reset hub s))).
  { pose proof (snapshot_run (fun r => if fst r then (TELEMETRY_PROVIDER_OK,
        Some (get_count message_sentMessages (snd r), get_count message_smallMessages (snd r), get_count message_failedMessages (snd r)))
        else (TELEMETRY_PROVIDER_EXCEPTION, None))
      (iotHubCounter (cl_provider s)) hub cm (elapse n s) Hrel Hp Hhub) as H.
    rewrite <- elapse_reset, elapse_elapse in H. etrans; [|apply H; by apply (proj2 Hr hub)].
    unfold in_telemetry, AgentTelemetryProvider_GetMessageCounterData, bind, gets.
    cbn [agentTelemetryProvider cl_provider elapse with_world collector_has_world].
    destruct (snapshot _ _) as [[[[] d] t]|]; done. }
  destruct (add_object_adds a (statistics_fields (word0 (counter cm), word1 (counter cm), word2 (counter cm)))
    (st_world (cl_store s)) (2 + n) Hrel) as (m & r & a' & H & Hadds).
  exists m, r, a', (reset hub s). rewrite (bind_eq _ _ _ _ _ E). split.
  - unfold up, AgentTelemetryCollector_AddMessageStatisticsPayload.
    cbn [world_of collector_has_world elapse with_world cl_store st_world reset]. by rewrite H.
  - split; [by right|]. intros ->. split; [done|]. by apply Hadds.
Qed.

(** ** Property *)

(** A counter that was read and not counted in since. *)
Definition was_reset (a : nat) (s s' : CollectorState) : Prop :=
  cl_counters s' !! a = (fun c => mkSyncedCounter zero_counter (sc_lock c)) <$> cl_counters s !! a.

(** C39: Telemetry is reported exactly once.  The collector queues at most two
    events; when it succeeds, the first one reports what the counters of the
    high and the low priority queue held, the second one what the message
    counter held, and all three start again from zero.  Whatever happens,
    every other counter is as before except that of the queue written to, and
    a counter that was not reset still holds its counts. *)
Theorem GetEvents_reports aq queue s items lo hi hub cl ch cm :
  telemetry_ready aq queue s items -> times_fit (env (st_world (cl_store s))) ->
  Z.of_nat (List.length items) + 1 < UINT32_MAX -> cl_provider s = mkProvider (Some lo) (Some hi) (Some hub) ->
  hi <> lo -> hub <> hi -> hub <> lo -> hub <> aq ->
  cl_counters s !! lo = Some cl -> cl_counters s !! hi = Some ch -> cl_counters s !! hub = Some cm ->
  exists r queue' s' new, AgentTelemetryCollector_GetEvents aq queue s = Some ((r, queue'), s') /\
    telemetry_ready aq queue' s' (items ++ new) /\ (List.length new <= 2)%nat /\
    (forall a, a <> aq -> cl_counters s' !! a = cl_counters s !! a \/ (a ∈ [hi; lo; hub] /\ was_reset a s s')) /\
    (r = EVENT_COLLECTOR_OK ->
       exists text1 text2 b1 b2, new = [(b1, (text1, u32 (strlen text1))); (b2, (text2, u32 (strlen text2)))] /\
         reports_fields [ dropped_fields (word0 (counter ch), word1 (counter ch)) HIGH_PRIO_QUEUE_NAME;
                          dropped_fields (word0 (counter cl), word1 (counter cl)) LOW_PRIO_QUEUE_NAME ] text1 /\
         reports_fields [statistics_fields (word0 (counter cm), word1 (counter cm), word2 (counter cm))] text2 /\
         forall a, a ∈ [hi; lo; hub] -> a <> aq -> was_reset a s s').
Proof.
  intros Hr Hf Hlen Hp H1 H2 H3 H4 Hlo Hhi Hhub.
  destruct (AddDropped_run aq queue s items lo hi (Some hub) cl ch Hr Hf) as
    (r & q1 & s1 & new1 & t1 & Hrun1 & Hr1 & Hp1 & He1 & Ht1 & Hc1 & Hok1 & Hq1); try done; [lia|].
  assert (Hkept : forall a, a <> aq -> cl_counters s1 !! a = cl_counters s !! a \/ (a ∈ [hi; lo; hub] /\ was_reset a s s1)).
  { intros a Ha. unfold was_reset. rewrite Hc1 by done. destruct (decide (a = hi)) as [->|Hh]; [|destruct (decide (a = lo)) as [->|Hl]].
    - destruct Ht1 as [->|[->| ->]]; [by left | right | right]; (split; [by left|]); cbn;
        rewrite ?(lookup_alter_ne _ _ lo) by done; by rewrite lookup_alter_eq.
    - destruct Ht1 as [->|[->| ->]]; [by left | left | right]; [cbn; by rewrite lookup_alter_ne|].
      split; [by right; left|]. cbn. by rewrite lookup_alter_eq, lookup_alter_ne.
    - left. destruct Ht1 as [->|[->| ->]]; cbn; by rewrite ?lookup_alter_ne. }
  unfold AgentTelemetryCollector_GetEvents. rewrite (bind_eq _ _ _ _ _ Hrun1). case_decide as Hd.
  { exists r, q1, s1, new1. split; [done|]. split; [done|]. split; [|by split].
    destruct r; cbn in Hq1; [by destruct Hd | rewrite Hq1; cbn; lia ..]. }
  assert (r = EVENT_COLLECTOR_OK) as -> by (destruct (decide (r = EVENT_COLLECTOR_OK)); [done | by destruct Hd]). specialize (Hok1 eq_refl). subst t1.
  destruct Hq1 as (a0 & a & text1 & b1 & Ha0 & Hadd1 & Htext1 & ->).
  assert (Hhub1 : cl_counters s1 !! hub = Some cm) by (rewrite Hc1 by done; cbn; by rewrite !lookup_alter_ne).
  destruct (AddStatistics_run aq q1 s1 (items ++ [(b1, (text1, u32 (strlen text1)))]) hub cm Hr1) as
    (r & q2 & s2 & new2 & t2 & Hrun2 & Hr2 & Hp2 & He2 & Ht2 & Hc2 & Hok2 & Hq2);
    [by rewrite He1 | rewrite length_app; cbn; lia | by rewrite Hp1, Hp | done |].
  exists r, q2, s2, ([(b1, (text1, u32 (strlen text1)))] ++ new2). rewrite app_assoc. split; [done|]. split; [done|].
  split; [destruct r; first [destruct Hq2 as (? & ? & ? & ? & _ & _ & _ & ->) | rewrite Hq2]; cbn; lia|].
  assert (Hother : forall a, a <> aq -> a <> hub -> cl_counters s2 !! a = cl_counters s1 !! a).
  { intros x Hx Hxh. rewrite Hc2 by done. destruct Ht2 as [->| ->]; [done|]. cbn. by rewrite lookup_alter_ne. }
  split.
  - intros x Hx. destruct (decide (x = hub)) as [->|Hxh].
    + unfold was_reset. rewrite Hc2, Hhub by done. destruct Ht2 as [->| ->]; [by left; rewrite Hhub1|].
      right. split; [by right; right; left|]. cbn. by rewrite lookup_alter_eq, Hhub1.
    + unfold was_reset in *. rewrite Hother by done. by apply Hkept.
  - intros ->. destruct Hq2 as (a0' & a' & text2 & b2 & Ha0' & Hadd2 & Htext2 & ->). specialize (Hok2 eq_refl). subst t2.
    exists text1, text2, b1, b2. split; [done|]. split; [by exists a0, a|]. split; [by exists a0', a'|].
    intros x Hx Hxa. unfold was_reset. destruct (decide (x = hub)) as [->|Hxh].
    + rewrite Hc2 by done. cbn. by rewrite lookup_alter_eq, Hhub1, Hhub.
    + rewrite Hother, Hc1 by done. cbn. apply elem_of_cons in Hx as [->|[->|[->|[]%elem_of_nil]%elem_of_cons]%elem_of_cons]; [| |done].
      * rewrite lookup_alter_ne by done. by rewrite lookup_alter_eq.
      * by rewrite lookup_alter_eq, lookup_alter_ne.
Qed.

End Properties.

(** ** Witness *)

(** The low priority queue holds two items; its counter and two others have
    counted. *)
Definition counting_state : CollectorState :=
  mkCollectorState two_store
    (<[20%nat := mkSyncedCounter (mkCounter 7 2 0) (Some 7%nat)]>
       (<[21%nat := mkSyncedCounter (mkCounter 4 1 0) (Some 9%nat)]> {[ 22%nat := mkSyncedCounter (mkCounter 5 3 1) (Some 10%nat) ]}))
    (mkProvider (Some 20%nat) (Some 21%nat) (Some 22%nat)).

Lemma counting_ready : @telemetry_ready synchronized_monitor 20 two_queue counting_state two_items.
Proof.
  split.
  - exists (mkSyncedCounter (mkCounter 7 2 0) (Some 7%nat)). split; [done|].
    apply (sync_holds_counter (mkSyncedCounter zero_counter (Some 7%nat))); [done | exact two_holds].
  - intros a c H. exists (default 0%nat (sc_lock c)). cbn in *.
    apply lookup_insert_Some in H as [[_ <-]|[_ [[_ <-]|[_ [_ <-]%lookup_singleton_Some]]%lookup_insert_Some]];
      (split; [done | apply not_elem_of_empty]).
Qed.

Lemma GetEvents_reports_witness :
  exists r queue' s' new,
    @AgentTelemetryCollector_GetEvents event_parson synchronized_monitor 20 two_queue counting_state = Some ((r, queue'), s') /\
    @telemetry_ready synchronized_monitor 20 queue' s' (two_items ++ new).
Proof.
  destruct (@GetEvents_reports event_parson synchronized_monitor _ 20 two_queue counting_state two_items 20 21 22
    (mkSyncedCounter (mkCounter 7 2 0) (Some 7%nat)) (mkSyncedCounter (mkCounter 4 1 0) (Some 9%nat))
    (mkSyncedCounter (mkCounter 5 3 1) (Some 10%nat)) counting_ready) as (r & q & s' & new & H & Hr & _);
    [ | by vm_compute | reflexivity | discriminate | discriminate | discriminate | discriminate | reflexivity | reflexivity
    | reflexivity |].
  - intros t x [[= <-]|[= <-]]; by vm_compute.
  - exists r, q, s', new. split; [exact H | exact Hr].
Defined.
