(* ===== verification/IoTHub.v ===== *)
(** * [iothub_adapter.c]: the connection to the hub

    The adapter owns a handle of the IoT module client and sends messages under
    the static [iotHubAdapterLock].  The client library is not part of the
    repository: it is a parameter, with its documented behaviour as laws.  Its
    callbacks arrive on its own threads; those that arrive while the adapter
    sleeps in [Connect] are an explicit sequence. *)

From S2P Require Import Prelude TwinDefs World TwinCollectors TwinConfiguration MemoryMonitor Telemetry Queue.
From Stdlib Require Import String.
Open Scope Z_scope.

(** ** The client library *)

(** [Client] is the state of the library, [HANDLE] a module client that is not
    null.  A call is undefined where the library leaves it undefined. *)
Class IoTHubClient : Type := {
  Client : Type;
  HANDLE : Type;
  MESSAGE : Type;
  OPTION_AUTO_URL_ENCODE_DECODE : string;
  OPTION_LOG_TRACE : string;
  IOTHUB_CLIENT_CONNECTION_BAD_CREDENTIAL : Z;
  IOTHUB_CLIENT_CONNECTION_NO_NETWORK : Z;
  IOTHUB_CLIENT_CONNECTION_OK : Z;
  IoTHubModuleClient_CreateFromConnectionString : string -> M Client (option HANDLE);
  IoTHubModuleClient_SetOption : HANDLE -> string -> bool -> M Client bool;
  IoTHubModuleClient_SetConnectionStatusCallback : HANDLE -> M Client bool;
  IoTHubModuleClient_SetModuleTwinCallback : HANDLE -> M Client bool;
  IoTHubModuleClient_SendEventAsync : HANDLE -> MESSAGE -> M Client bool;
  IoTHubModuleClient_SendReportedState : HANDLE -> string -> M Client bool;
  IoTHubModuleClient_Destroy : HANDLE -> M Client unit;
  IoTHubMessage_CreateFromByteArray : string -> M Client (option MESSAGE);
  IoTHubMessage_SetAsSecurityMessage : MESSAGE -> M Client bool;
  IoTHubMessage_Destroy : MESSAGE -> M Client unit;
}.

(** Nothing that matters to the adapter changed. *)
Definition same_client {C H : Type} (live : C -> H -> Prop) (accepted reported refused : C -> list string) (c c' : C) : Prop :=
  (forall h, live c' h <-> live c h) /\ accepted c' = accepted c /\ reported c' = reported c /\ refused c' = refused c.

(** What the library noted of a text: the one list or the other is longer. *)
Definition noted (ok : bool) (text : string) : list string * list string :=
  if ok then ([text], []) else ([], [text]).

(** [live] handles are created and not destroyed; [accepted] and [reported] are
    what the library took over for delivery, in order, and [refused] the texts
    of the messages and reports on which a call of it failed: a text that is in
    none of the three never reached the library.  [content] is the text of a
    message handle. *)
Class IoTHubClientLaws (Lib : IoTHubClient) : Type := {
  live : Client -> HANDLE -> Prop;
  accepted : Client -> list string;
  reported : Client -> list string;
  refused : Client -> list string;
  content : Client -> MESSAGE -> option string;
  create_law : forall cs c, exists r c',
    IoTHubModuleClient_CreateFromConnectionString cs c = Some (r, c') /\
    accepted c' = accepted c /\ reported c' = reported c /\
    (forall h, r = Some h -> ~ live c h) /\ (forall h, live c' h <-> live c h \/ r = Some h);
  option_law : forall h key b c, live c h -> exists ok c',
    IoTHubModuleClient_SetOption h key b c = Some (ok, c') /\ same_client live accepted reported refused c c';
  status_callback_law : forall h c, live c h -> exists ok c',
    IoTHubModuleClient_SetConnectionStatusCallback h c = Some (ok, c') /\ same_client live accepted reported refused c c';
  twin_callback_law : forall h c, live c h -> exists ok c',
    IoTHubModuleClient_SetModuleTwinCallback h c = Some (ok, c') /\ same_client live accepted reported refused c c';
  send_law : forall h m text c, live c h -> content c m = Some text -> exists ok c',
    IoTHubModuleClient_SendEventAsync h m c = Some (ok, c') /\ (forall h, live c' h <-> live c h) /\
    accepted c' = accepted c ++ (noted ok text).1 /\ reported c' = reported c /\ refused c' = refused c ++ (noted ok text).2 /\
    content c' m = Some text;
  report_law : forall h text c, live c h -> exists ok c',
    IoTHubModuleClient_SendReportedState h text c = Some (ok, c') /\ (forall h, live c' h <-> live c h) /\
    accepted c' = accepted c /\ reported c' = reported c ++ (noted ok text).1 /\ refused c' = refused c ++ (noted ok text).2;
  destroy_law : forall h c, live c h -> exists c',
    IoTHubModuleClient_Destroy h c = Some (tt, c') /\ accepted c' = accepted c /\ reported c' = reported c /\
    (forall h', live c' h' <-> live c h' /\ h' <> h);
  destroy_twice_law : forall h c, ~ live c h -> IoTHubModuleClient_Destroy h c = None;
  message_law : forall text c, exists r c',
    IoTHubMessage_CreateFromByteArray text c = Some (r, c') /\ (forall h, live c' h <-> live c h) /\
    accepted c' = accepted c /\ reported c' = reported c /\
    refused c' = refused c ++ (match r with Some _ => [] | None => [text] end) /\
    (forall m, r = Some m -> content c' m = Some text);
  security_law : forall m text c, content c m = Some text -> exists ok c',
    IoTHubMessage_SetAsSecurityMessage m c = Some (ok, c') /\ (forall h, live c' h <-> live c h) /\
    accepted c' = accepted c /\ reported c' = reported c /\ refused c' = refused c ++ (if ok : bool then [] else [text]) /\
    content c' m = Some text;
  message_destroy_law : forall m text c, content c m = Some text -> exists c',
    IoTHubMessage_Destroy m c = Some (tt, c') /\ same_client live accepted reported refused c c';
}.

Section IoTHub.
Context {D : Type} {Lib : IoTHubClient}.

(** ** Data *)

(** [twinUpdatesQueue] is the address of the queue. *)
Record IoTHubAdapter : Type := mkAdapter {
  moduleHandle : option HANDLE;
  hasTwinConfiguration : bool;
  connected : bool;
  connectionStatusReason : Z;
  hubInitiated : bool;
  twinUpdatesQueue : option nat;
  messageCounter : SyncedCounter;
}.

(** The program and the client library, the static [iotHubAdapterLock], and the
    connection string that [local_config.c] keeps. *)
Record HubState : Type := mkHubState {
  hub_store : Store (D := D);
  hub_client : Client;
  iotHubAdapterLock : LOCK_HANDLE;
  connectionString : string;
}.

(** What the adapter asks [local_config.c]: its settings, and how a connection
    string is renewed, which also returns the new one. *)
Record LocalConfiguration : Type := mkLocalConfiguration {
  LocalConfiguration_UseDps : bool;
  LocalConfiguration_GetConnectionTimeout : Z;
  LocalConfiguration_TryRenewConnectionString : string -> M World (bool * string);
}.

(** The build's transport: with MQTT one more option is set. *)
Variable USE_MQTT : bool.
Variable config : LocalConfiguration.

Definition in_hub_store {A} (m : M (Store (D := D)) A) : M HubState A :=
  fun s => match m (hub_store s) with
           | None => None
           | Some (a, st) => Some (a, mkHubState st (hub_client s) (iotHubAdapterLock s) (connectionString s))
           end.

Definition in_hub_world {A} (m : M World A) : M HubState A := in_hub_store (lift m).

Definition in_client {A} (m : M Client A) : M HubState A :=
  fun s => match m (hub_client s) with
           | None => None
           | Some (a, c) => Some (a, mkHubState (hub_store s) c (iotHubAdapterLock s) (connectionString s))
           end.

Definition set_adapter_lock (l : LOCK_HANDLE) : M HubState unit :=
  modify (fun s => mkHubState (hub_store s) (hub_client s) l (connectionString s)).

Definition set_connectionString (cs : string) : M HubState unit :=
  modify (fun s => mkHubState (hub_store s) (hub_client s) (iotHubAdapterLock s) cs).

Definition set_messageCounter (c : SyncedCounter) (a : IoTHubAdapter) : IoTHubAdapter :=
  mkAdapter (moduleHandle a) (hasTwinConfiguration a) (connected a) (connectionStatusReason a) (hubInitiated a)
    (twinUpdatesQueue a) c.

Definition set_hubInitiated (b : bool) (a : IoTHubAdapter) : IoTHubAdapter :=
  mkAdapter (moduleHandle a) (hasTwinConfiguration a) (connected a) (connectionStatusReason a) b
    (twinUpdatesQueue a) (messageCounter a).

(** ** Initialisation and teardown: the adapter is returned as it is left *)

(** The handle is destroyed, but the field keeps it. *)
Definition IoTHubAdapter_Deinit_Internal (iotHubAdapter : IoTHubAdapter) : M HubState IoTHubAdapter :=
  c <- in_hub_world (AgentTelemetryCounter_Deinit (messageCounter iotHubAdapter)) ;;
  (match moduleHandle iotHubAdapter with
   | None => ret tt
   | Some h => in_client (IoTHubModuleClient_Destroy h)
   end) ;;;
  ret (set_messageCounter c (set_hubInitiated false iotHubAdapter)).

(** The adapter after the [memset], with its queue. *)
Definition zero_adapter (queue : option nat) : IoTHubAdapter :=
  mkAdapter None false false 0 false queue (mkSyncedCounter zero_counter None).

Definition set_moduleHandle (h : option HANDLE) (a : IoTHubAdapter) : IoTHubAdapter :=
  mkAdapter h (hasTwinConfiguration a) (connected a) (connectionStatusReason a) (hubInitiated a)
    (twinUpdatesQueue a) (messageCounter a).

(** The calls that configure the new handle, up to the first that fails. *)
Definition configure (h : HANDLE) : M HubState bool :=
  ok <- (if USE_MQTT then in_client (IoTHubModuleClient_SetOption h OPTION_AUTO_URL_ENCODE_DECODE true) else ret true) ;;
  require ok else false ;;
  ok <- in_client (IoTHubModuleClient_SetOption h OPTION_LOG_TRACE false) ;;
  require ok else false ;;
  ok <- in_client (IoTHubModuleClient_SetConnectionStatusCallback h) ;;
  require ok else false ;;
  in_client (IoTHubModuleClient_SetModuleTwinCallback h).

Definition IoTHubAdapter_Init_Internal (queue : option nat) : M HubState (bool * IoTHubAdapter) :=
  cs <- gets connectionString ;;
  handle <- in_client (IoTHubModuleClient_CreateFromConnectionString cs) ;;
  let adapter := set_moduleHandle handle (zero_adapter queue) in
  let* (success, adapter) :=
    match handle with
    | None => ret (false, adapter)
    | Some h =>
        ok <- configure h ;;
        if negb ok then ret (false, adapter)
        else
          let* (success, c) := in_hub_world (AgentTelemetryCounter_Init (messageCounter adapter)) in
          ret (success, set_hubInitiated success (set_messageCounter c adapter))
    end in
  if success : bool then ret (true, adapter)
  else
    adapter <- IoTHubAdapter_Deinit_Internal adapter ;;
    ret (false, adapter).

(** [old] is the memory that is initialised. *)
Definition IoTHubAdapter_Init (old : IoTHubAdapter) (queue : option nat) : M HubState (bool * IoTHubAdapter) :=
  lock <- in_hub_world Lock_Init ;;
  set_adapter_lock lock ;;;
  match lock with
  | None => ret (false, old)
  | Some _ =>
      locked <- in_hub_world (Lock lock) ;;
      require locked else (false, old) ;;
      let* (result, adapter) := IoTHubAdapter_Init_Internal queue in
      unlocked <- in_hub_world (Unlock lock) ;;
      ret ((if unlocked then result else false), adapter)
  end.

Definition IoTHubAdapter_Deinit (iotHubAdapter : IoTHubAdapter) : M HubState IoTHubAdapter :=
  lock <- gets iotHubAdapterLock ;;
  match lock with
  | None => ret iotHubAdapter
  | Some _ =>
      locked <- in_hub_world (Lock lock) ;;
      require locked else iotHubAdapter ;;
      adapter <- IoTHubAdapter_Deinit_Internal iotHubAdapter ;;
      unlocked <- in_hub_world (Unlock lock) ;;
      if unlocked then
        in_hub_world (Lock_Deinit lock) ;;;
        set_adapter_lock None ;;;
        ret adapter
      else ret adapter
  end.

(** ** Connecting *)

(** What the library calls back while the adapter is connecting.  A twin
    callback is one whose item was queued: it then sets [hasTwinConfiguration]. *)
Inductive HubCallback : Type :=
  | ConnectionStatus (authenticated : bool) (reason : Z)
  | DeviceTwin.

Definition IoTHubAdapter_ConnectionStatusCallback (authenticated : bool) (reason : Z) (adapter : IoTHubAdapter)
    : IoTHubAdapter :=
  mkAdapter (moduleHandle adapter) (hasTwinConfiguration adapter)
    (authenticated && (reason =? IOTHUB_CLIENT_CONNECTION_OK)) reason (hubInitiated adapter)
    (twinUpdatesQueue adapter) (messageCounter adapter).

Definition set_hasTwinConfiguration (a : IoTHubAdapter) : IoTHubAdapter :=
  mkAdapter (moduleHandle a) true (connected a) (connectionStatusReason a) (hubInitiated a)
    (twinUpdatesQueue a) (messageCounter a).

Definition deliver (adapter : IoTHubAdapter) (callback : HubCallback) : IoTHubAdapter :=
  match callback with
  | ConnectionStatus authenticated reason => IoTHubAdapter_ConnectionStatusCallback authenticated reason adapter
  | DeviceTwin => set_hasTwinConfiguration adapter
  end.

(** Returns the result and [*isPermanent]. *)
Definition IoTHubAdapter_ValidateAdapterConnectionStatus (adapter : IoTHubAdapter) : bool * bool :=
  if connected adapter then (true, false)
  else (false, (connectionStatusReason adapter =? IOTHUB_CLIENT_CONNECTION_BAD_CREDENTIAL)
               || (connectionStatusReason adapter =? IOTHUB_CLIENT_CONNECTION_NO_NETWORK)).

Definition stops (adapter : IoTHubAdapter) : bool :=
  let '(isConnected, isPermanent) := IoTHubAdapter_ValidateAdapterConnectionStatus adapter in
  (isConnected && hasTwinConfiguration adapter) || isPermanent.

(** The polling loop.  The head of [deliveries] is called back during the next
    [ThreadAPI_Sleep(100)]; nothing is called back when they are used up. *)
Fixpoint Connect_loop (fuel : nat) (deliveries : list (list HubCallback)) (adapter : IoTHubAdapter)
    (stop : bool) (elapsedTime timeout : Z) : M HubState IoTHubAdapter :=
  if negb stop && (elapsedTime <? timeout) then
    match fuel with
    | O => undefined
    | S fuel =>
        Connect_loop fuel (tail deliveries) (foldl deliver adapter (default [] (head deliveries)))
          (stops adapter) (u32 (elapsedTime + 100)) timeout
    end
  else ret adapter.

Definition IoTHubAdapter_Connect (fuel : nat) (deliveries : list (list HubCallback)) (iotHubAdapter : IoTHubAdapter)
    : M HubState (bool * IoTHubAdapter) :=
  adapter <- Connect_loop fuel deliveries iotHubAdapter false 0 (LocalConfiguration_GetConnectionTimeout config) ;;
  ret (connected adapter && hasTwinConfiguration adapter, adapter).

Definition IoTHubAdapter_Reinit (fuel : nat) (deliveries : list (list HubCallback)) (iotHubAdapter : IoTHubAdapter)
    (queue : option nat) : M HubState (bool * IoTHubAdapter) :=
  _ <- IoTHubAdapter_Deinit_Internal iotHubAdapter ;;
  let* (success, adapter) := IoTHubAdapter_Init_Internal queue in
  require success else (false, adapter) ;;
  IoTHubAdapter_Connect fuel deliveries adapter.

(** ** Sending *)

Definition increase (i : CountInstance) (adapter : IoTHubAdapter) : M HubState IoTHubAdapter :=
  let* (_, c) := in_hub_world (AgentTelemetryCounter_IncreaseBy (messageCounter adapter) i 1) in
  ret (set_messageCounter c adapter).

(** The connection is renewed first when it is lost and the device uses DPS. *)
Definition renew_connection (fuel : nat) (deliveries : list (list HubCallback)) (adapter : IoTHubAdapter)
    : M HubState (bool * IoTHubAdapter) :=
  if negb (connected adapter) && LocalConfiguration_UseDps config then
    cs <- gets connectionString ;;
    let* (renewed, cs) := in_hub_world (LocalConfiguration_TryRenewConnectionString config cs) in
    set_connectionString cs ;;;
    require renewed else (false, adapter) ;;
    IoTHubAdapter_Reinit fuel deliveries adapter (twinUpdatesQueue adapter)
  else ret (true, adapter).

(** The message handed over and counted; [messageHandle] is destroyed on every
    path.  The library refuses a null module handle. *)
Definition hand_over (data : string) (dataSize : Z) (adapter : IoTHubAdapter) : M HubState (bool * IoTHubAdapter) :=
  messageHandle <- in_client (IoTHubMessage_CreateFromByteArray data) ;;
  match messageHandle with
  | None => ret (false, adapter)
  | Some m =>
      let cleanup success adapter := in_client (IoTHubMessage_Destroy m) ;;; ret (success, adapter) in
      ok <- in_client (IoTHubMessage_SetAsSecurityMessage m) ;;
      if negb ok then cleanup false adapter
      else
        match moduleHandle adapter with
        | None => cleanup false adapter
        | Some h =>
            ok <- in_client (IoTHubModuleClient_SendEventAsync h m) ;;
            if negb ok then cleanup false adapter
            else
              adapter <- (if dataSize <? MESSAGE_BILLING_MULTIPLE then increase message_smallMessages adapter else ret adapter) ;;
              adapter <- increase message_sentMessages adapter ;;
              cleanup true adapter
        end
  end.

Definition IoTHubAdapter_SendMessageAsync_Internal (fuel : nat) (deliveries : list (list HubCallback))
    (iotHubAdapter : IoTHubAdapter) (data : string) (dataSize : Z) : M HubState (bool * IoTHubAdapter) :=
  require hubInitiated iotHubAdapter else (false, iotHubAdapter) ;;
  let* (ok, adapter) := renew_connection fuel deliveries iotHubAdapter in
  require ok else (false, adapter) ;;
  hand_over data dataSize adapter.

Definition IoTHubAdapter_SendMessageAsync (fuel : nat) (deliveries : list (list HubCallback))
    (iotHubAdapter : IoTHubAdapter) (data : string) (dataSize : Z) : M HubState (bool * IoTHubAdapter) :=
  lock <- gets iotHubAdapterLock ;;
  match lock with
  | None => ret (false, iotHubAdapter)
  | Some _ =>
      locked <- in_hub_world (Lock lock) ;;
      require locked else (false, iotHubAdapter) ;;
      let* (success, adapter) := IoTHubAdapter_SendMessageAsync_Internal fuel deliveries iotHubAdapter data dataSize in
      unlocked <- in_hub_world (Unlock lock) ;;
      ret ((if unlocked then success else false), adapter)
  end.

Definition IoTHubAdapter_SendConfirmCallback (confirmed : bool) (adapter : IoTHubAdapter) : M HubState IoTHubAdapter :=
  if confirmed then ret adapter else increase message_failedMessages adapter.

(** [reportedData] is null when [None].  The library refuses a null handle. *)
Definition IoTHubAdapter_SetReportedPropertiesAsync (iotHubAdapter : IoTHubAdapter) (reportedData : option string)
    : M HubState bool :=
  match reportedData with
  | None => ret false
  | Some text =>
      match moduleHandle iotHubAdapter with
      | None => ret false
      | Some h => in_client (IoTHubModuleClient_SendReportedState h text)
      end
  end.

(** ** Specification *)

Context {Laws : IoTHubClientLaws Lib}.

Definition hub_world (s : HubState) : World := st_world (hub_store s).

(** An adapter that can send at once: initialised, with a live handle, its locks
    free and distinct, connected or not able to renew its connection. *)
Definition sending_ready (adapter : IoTHubAdapter) (s : HubState) : Prop :=
  reliable (hub_world s) /\ hubInitiated adapter = true /\
  (connected adapter = true \/ LocalConfiguration_UseDps config = false) /\
  (exists h, moduleHandle adapter = Some h /\ live (hub_client s) h) /\
  exists l k, iotHubAdapterLock s = Some l /\ (l ∉ held (hub_world s)) /\
    sc_lock (messageCounter adapter) = Some k /\ (k ∉ held (hub_world s)) /\ k <> l.

(** The counter after a message of [dataSize] bytes was accepted. *)
Definition count_message (dataSize : Z) (c : SyncedCounter) : SyncedCounter :=
  mkSyncedCounter
    (mkCounter (u32 (word0 (counter c) + 1))
       (if dataSize <? MESSAGE_BILLING_MULTIPLE then u32 (word1 (counter c) + 1) else word1 (counter c))
       (word2 (counter c)))
    (sc_lock c).

(** The adapter after [n] sleeps. *)
Definition delivered (deliveries : list (list HubCallback)) (n : nat) (adapter : IoTHubAdapter) : IoTHubAdapter :=
  foldl (foldl deliver) adapter (take n deliveries).

(** The number of sleeps until the timeout has elapsed. *)
Definition rounds (timeout : Z) : nat := Z.to_nat ((timeout + 99) / 100).

(** ** Lemmas *)

(** Only time passed, for the program. *)
Definition hub_later (n : nat) (c : Client) (s : HubState) : HubState :=
  mkHubState (mkStore (bump n (hub_world s)) (st_heap (hub_store s)) (next_item (hub_store s))) c
    (iotHubAdapterLock s) (connectionString s).

Lemma hub_later_later n m c c' s : hub_later n c (hub_later m c' s) = hub_later (n + m) c s.
Proof. unfold hub_later, hub_world. cbn. by rewrite bump_bump. Qed.

Lemma in_client_run {A} (m : M Client A) a c' n c s :
  m c = Some (a, c') -> in_client m (hub_later n c s) = Some (a, hub_later n c' s).
Proof. intros H. unfold in_client. cbn [hub_client hub_later]. by rewrite H. Qed.

(** Inside the section of the adapter's lock [l]. *)
Definition hub_in_section (l : nat) (s : HubState) : HubState :=
  mkHubState (mkStore (set_held ({[l]} ∪ held (hub_world s)) (bump 1 (hub_world s)))
                (st_heap (hub_store s)) (next_item (hub_store s)))
    (hub_client s) (iotHubAdapterLock s) (connectionString s).

Lemma increase_run i adapter k n c s :
  reliable (hub_world s) -> sc_lock (messageCounter adapter) = Some k -> k ∉ held (hub_world s) ->
  increase i adapter (hub_later n c s) =
  Some (set_messageCounter (mkSyncedCounter (set_count i (u32 (get_count i (counter (messageCounter adapter)) + 1))
          (counter (messageCounter adapter))) (sc_lock (messageCounter adapter))) adapter, hub_later (2 + n) c s).
Proof.
  intros Hr Hk Hh. unfold increase, bind, in_hub_world, in_hub_store, lift. cbn [hub_store hub_later st_world].
  rewrite (IncreaseBy_reliable _ i 1 (bump n (hub_world s))); [|done|by exists k].
  cbn. by rewrite bump_bump.
Qed.

(** An answer of the library that leaves the program's state alone. *)
Definition counted (ok : bool) (dataSize : Z) (adapter : IoTHubAdapter) : IoTHubAdapter :=
  if ok then set_messageCounter (count_message dataSize (messageCounter adapter)) adapter else adapter.

(** How the library noted the text of a message that was handed to it. *)
Definition hands_over (text : string) (ok : bool) (c c' : Client) : Prop :=
  (forall h, live c' h <-> live c h) /\ accepted c' = accepted c ++ (noted ok text).1 /\ reported c' = reported c /\
  refused c' = refused c ++ (noted ok text).2.

Lemma hands_over_trans text ok c c' c'' :
  same_client live accepted reported refused c c' -> hands_over text ok c' c'' -> hands_over text ok c c''.
Proof.
  intros (H1 & H2 & H3 & H4) (H5 & H6 & H7 & H8). split; [|split; [|split]; congruence].
  intros h. by rewrite H5, H1.
Qed.

Lemma hands_over_after text ok c c' c'' :
  hands_over text ok c c' -> same_client live accepted reported refused c' c'' -> hands_over text ok c c''.
Proof.
  intros (H1 & H2 & H3 & H4) (H5 & H6 & H7 & H8). split; [|split; [|split]; congruence].
  intros h. by rewrite H5, H1.
Qed.

Lemma hub_count_run adapter dataSize k n c s :
  reliable (hub_world s) -> sc_lock (messageCounter adapter) = Some k -> k ∉ held (hub_world s) ->
  exists m, (adapter <- (if dataSize <? MESSAGE_BILLING_MULTIPLE then increase message_smallMessages adapter else ret adapter) ;;
   increase message_sentMessages adapter) (hub_later n c s) = Some (counted true dataSize adapter, hub_later m c s).
Proof.
  intros Hr Hk Hh. unfold counted, count_message. destruct (dataSize <? MESSAGE_BILLING_MULTIPLE).
  - rewrite (bind_eq _ _ _ _ _ (increase_run message_smallMessages adapter k n c s Hr Hk Hh)).
    erewrite (increase_run message_sentMessages _ k (2 + n) c s Hr _ Hh). eexists. reflexivity.
    Unshelve. exact Hk.
  - rewrite bind_ret_l, (increase_run message_sentMessages _ k n c s Hr Hk Hh). eexists. reflexivity.
Qed.

Lemma hand_over_run adapter data dataSize h k n c s :
  reliable (hub_world s) -> moduleHandle adapter = Some h -> live c h ->
  sc_lock (messageCounter adapter) = Some k -> k ∉ held (hub_world s) ->
  exists ok m c', hand_over data dataSize adapter (hub_later n c s) =
    Some ((ok, counted ok dataSize adapter), hub_later m c' s) /\ hands_over data ok c c'.
Proof.
  intros Hr Hm Hlive Hk Hh. unfold hand_over.
  destruct (message_law data c) as (r & c1 & H1 & Hl1 & Ha1 & Hr1 & Hf1 & Hc1).
  rewrite (bind_eq _ _ _ _ _ (in_client_run _ _ _ n _ s H1)). destruct r as [m|].
  2: { exists false, n, c1. split; [done|]. split; [done|]. split; [by rewrite Ha1, app_nil_r|]. by split. }
  assert (Hs1 : same_client live accepted reported refused c c1) by (rewrite app_nil_r in Hf1; by split).
  destruct (security_law m data c1 (Hc1 m eq_refl)) as (ok2 & c2 & H2 & Hl2 & Ha2 & Hr2 & Hf2 & Hc2).
  rewrite (bind_eq _ _ _ _ _ (in_client_run _ _ _ n _ s H2)).
  assert (Hfinish : forall (ok : bool) c3 q (adapter' : IoTHubAdapter), hands_over data ok c1 c3 -> content c3 m = Some data ->
    exists c', (in_client (IoTHubMessage_Destroy m) ;;; ret (ok, adapter')) (hub_later q c3 s) =
      Some ((ok, adapter'), hub_later q c' s) /\ hands_over data ok c c').
  { intros ok c3 q adapter' Ho Hc3. destruct (message_destroy_law m data c3 Hc3) as (c4 & H4 & Hs4).
    exists c4. rewrite (bind_eq _ _ _ _ _ (in_client_run _ _ _ q _ s H4)). split; [done|].
    eapply hands_over_trans; [exact Hs1|]. by eapply hands_over_after. }
  destruct ok2; cbn [negb].
  2: { destruct (Hfinish false c2 n adapter) as (c' & H & Ho); [|done|by exists false, n, c'].
       split; [done|]. split; [by rewrite Ha2, app_nil_r|]. by split. }
  assert (Hs2 : same_client live accepted reported refused c1 c2) by (rewrite app_nil_r in Hf2; by split).
  rewrite Hm. assert (Hlive2 : live c2 h) by by apply Hl2, Hl1.
  destruct (send_law h m data c2 Hlive2 Hc2) as (ok3 & c3 & H3 & Hl3 & Ha3 & Hr3 & Hf3 & Hc3).
  assert (Hh3 : hands_over data ok3 c1 c3) by (eapply hands_over_trans; [exact Hs2 | by split]).
  rewrite (bind_eq _ _ _ _ _ (in_client_run _ _ _ n _ s H3)).
  destruct ok3; cbn [negb].
  - destruct (hub_count_run adapter dataSize k n c3 s Hr Hk Hh) as (q & Hq).
    destruct (Hfinish true c3 q (counted true dataSize adapter)) as (c' & H & Ho); [done | done|].
    exists true, q, c'. split; [|done]. rewrite <- H. unfold bind in Hq |- *. destruct (if _ <? _ then _ else _) as [[a1 s1]|]; [|done].
    by rewrite Hq.
  - destruct (Hfinish false c3 n adapter) as (c' & H & Ho); [done | done|]. by exists false, n, c'.
Qed.

Lemma hub_later_0 s : hub_later 0 (hub_client s) s = s.
Proof. unfold hub_later, hub_world. rewrite bump_0. by destruct s as [[] ? ? ?]. Qed.

Lemma hub_Lock_run l s :
  reliable (hub_world s) -> l ∉ held (hub_world s) ->
  in_hub_world (Lock (Some l)) s = Some (true, hub_in_section l s).
Proof. intros Hr Hh. unfold in_hub_world, in_hub_store, lift, hub_world in *. by rewrite Lock_reliable. Qed.

Lemma hub_Unlock_run l n c s :
  reliable (hub_world s) -> l ∉ held (hub_world s) ->
  in_hub_world (Unlock (Some l)) (hub_later n c (hub_in_section l s)) = Some (true, hub_later (2 + n) c s).
Proof.
  intros Hr Hh. unfold in_hub_world, in_hub_store, lift. cbn [hub_store hub_later st_world].
  rewrite Unlock_reliable by (done || apply lock_now_held).
  unfold hub_later. cbn. rewrite lock_unlock_held by done. unfold bump, set_tick, set_held. cbn.
  repeat f_equal. lia.
Qed.

Lemma renew_nothing fuel deliveries adapter s :
  connected adapter = true \/ LocalConfiguration_UseDps config = false ->
  renew_connection fuel deliveries adapter s = Some ((true, adapter), s).
Proof. intros H. unfold renew_connection. by destruct H as [-> | ->]; rewrite ?andb_false_r. Qed.

Lemma sending_ready_later adapter ok dataSize text n c s :
  sending_ready adapter s -> hands_over text ok (hub_client s) c ->
  sending_ready (counted ok dataSize adapter) (hub_later n c s).
Proof.
  intros (Hr & Hi & Hc & (h & Hm & Hl) & l & k & H1 & H2 & H3 & H4 & H5) (Ho & _).
  destruct ok; (split; [done|]); (split; [done|]); (split; [done|]); (split; [exists h; split; [done | by apply Ho]|]);
    by exists l, k.
Qed.

Lemma SendMessage_run fuel deliveries adapter data dataSize s :
  sending_ready adapter s ->
  exists ok n c, IoTHubAdapter_SendMessageAsync fuel deliveries adapter data dataSize s =
      Some ((ok, counted ok dataSize adapter), hub_later n c s) /\ hands_over data ok (hub_client s) c.
Proof.
  intros (Hr & Hi & Hc & (h & Hm & Hlive) & l & k & Hl & Hh & Hk & Hkh & Hne).
  unfold IoTHubAdapter_SendMessageAsync.
  rewrite (bind_eq _ _ _ _ _ (eq_refl : gets iotHubAdapterLock s = Some (iotHubAdapterLock s, s))), Hl.
  rewrite (bind_eq _ _ _ _ _ (hub_Lock_run l s Hr Hh)). unfold IoTHubAdapter_SendMessageAsync_Internal. rewrite Hi.
  rewrite bind_assoc, (bind_eq _ _ _ _ _ (renew_nothing fuel deliveries adapter (hub_in_section l s) Hc)). cbv iota.
  rewrite <- (hub_later_0 (hub_in_section l s)).
  destruct (hand_over_run adapter data dataSize h k 0 (hub_client s) (hub_in_section l s)) as (ok & m & c & Hrun & Ho);
    [done | done | done | exact Hk | |].
  { cbn. intros [Heq%elem_of_singleton|Hin]%elem_of_union; [by apply Hne | by apply Hkh]. }
  cbn [hub_client hub_in_section] in *. rewrite (bind_eq _ _ _ _ _ Hrun).
  rewrite (bind_eq _ _ _ _ _ (hub_Unlock_run l m c s Hr Hh)). by exists ok, (2 + m)%nat, c.
Qed.

(** The polling loop. *)
Lemma delivered_S deliveries n adapter :
  delivered deliveries (S n) adapter =
  delivered (tail deliveries) n (foldl deliver adapter (default [] (head deliveries))).
Proof. unfold delivered. destruct deliveries as [|d ds]; [by destruct n | done]. Qed.

Lemma rounds_step timeout elapsed :
  elapsed < timeout -> rounds (timeout - elapsed) = S (rounds (timeout - (elapsed + 100))).
Proof.
  intros H. unfold rounds. replace (timeout - elapsed + 99) with ((timeout - (elapsed + 100) + 99) + 1 * 100) by lia.
  rewrite Z.div_add by lia. assert (0 <= (timeout - (elapsed + 100) + 99) / 100) by (apply Z.div_pos; lia). lia.
Qed.

Lemma rounds_done timeout elapsed : timeout <= elapsed -> rounds (timeout - elapsed) = 0%nat.
Proof.
  intros H. unfold rounds. assert ((timeout - elapsed + 99) / 100 < 1) by (apply Z.div_lt_upper_bound; lia). lia.
Qed.

Lemma Connect_loop_run fuel : forall deliveries adapter stop elapsed timeout s,
  0 <= elapsed -> elapsed < timeout + 100 -> timeout <= UINT32_MAX - 100 -> (rounds (timeout - elapsed) <= fuel)%nat ->
  exists n, Connect_loop fuel deliveries adapter stop elapsed timeout s = Some (delivered deliveries n adapter, s) /\
    (n <= rounds (timeout - elapsed))%nat /\
    (forall i, (S i < n)%nat -> stops (delivered deliveries i adapter) = false) /\
    (if stop then n = 0%nat
     else (n < rounds (timeout - elapsed))%nat -> exists i, n = S i /\ stops (delivered deliveries i adapter) = true).
Proof.
  assert (Hstop : forall fuel deliveries adapter stop elapsed timeout s,
    negb stop && (elapsed <? timeout) = false ->
    Connect_loop fuel deliveries adapter stop elapsed timeout s = Some (delivered deliveries 0 adapter, s)).
  { intros [] ? ? ? ? ? ? E; cbn [Connect_loop]; by rewrite E. }
  induction fuel as [|fuel IH]; intros deliveries adapter stop elapsed timeout s H0 H1 H2 H3;
    (destruct (negb stop && (elapsed <? timeout)) eqn:E;
     [|exists 0%nat; split; [by apply Hstop|]; split; [lia|]; split; [lia|]; destruct stop; [done|];
       apply Z.ltb_ge in E; rewrite rounds_done by done; lia]).
  - apply andb_prop in E as [_ E%Z.ltb_lt]. rewrite rounds_step in H3 by done. lia.
  - cbn [Connect_loop]. rewrite E. apply andb_prop in E as [E1 E%Z.ltb_lt]. destruct stop; [done|].
    rewrite rounds_step in H3 |- * by done. rewrite u32_small by (unfold is_u32, UINT32_MAX in *; lia).
    destruct (IH (tail deliveries) (foldl deliver adapter (default [] (head deliveries))) (stops adapter)
      (elapsed + 100) timeout s) as (n & Hrun & Hn & Hbefore & Hlast); [lia | lia | lia | lia |].
    exists (S n). rewrite Hrun, delivered_S. split; [done|]. split; [lia|].
    destruct (stops adapter) eqn:Es.
    + subst n. split; [lia|]. intros _. by exists 0%nat.
    + split.
      * intros [|i] Hi; [done|]. rewrite delivered_S. apply Hbefore. lia.
      * intros Hlt. destruct Hlast as (i & -> & Hi); [lia|]. exists (S i). by rewrite delivered_S.
Qed.

(** Initialisation, in any environment. *)
Definition with_client (c : Client) (s : HubState) : HubState :=
  mkHubState (hub_store s) c (iotHubAdapterLock s) (connectionString s).

Definition config_call (m : M Client bool) (h : HANDLE) : Prop :=
  forall c, live c h -> exists ok c', m c = Some (ok, c') /\ same_client live accepted reported refused c c'.

Lemma same_client_trans c1 c2 c3 :
  same_client live accepted reported refused c1 c2 -> same_client live accepted reported refused c2 c3 ->
  same_client live accepted reported refused c1 c3.
Proof. intros (A1 & A2 & A3 & A4) (B1 & B2 & B3 & B4). split; [|split; [|split]; congruence]. intros h. by rewrite B1, A1. Qed.

(** A configuring call followed by the rest, up to the first failure. *)
Lemma config_step m h k s :
  config_call m h -> live (hub_client s) h ->
  (forall c, live c h -> exists ok c', k (with_client c s) = Some (ok, with_client c' s) /\ same_client live accepted reported refused c c') ->
  exists ok c', (ok <- in_client m ;; if ok : bool then k else ret false) s = Some (ok, with_client c' s) /\
    same_client live accepted reported refused (hub_client s) c'.
Proof.
  intros Hm Hl Hk. destruct (Hm _ Hl) as (ok & c1 & H1 & Hs1).
  assert (E : in_client m s = Some (ok, with_client c1 s)) by (unfold in_client; by rewrite H1).
  rewrite (bind_eq _ _ _ _ _ E). destruct ok; [|by exists false, c1].
  destruct (Hk c1) as (ok2 & c2 & H2 & Hs2); [by destruct Hs1 as [L _]; apply L|].
  exists ok2, c2. split; [done|]. by eapply same_client_trans.
Qed.

Lemma configure_run h s :
  live (hub_client s) h ->
  exists ok c', configure h s = Some (ok, with_client c' s) /\ same_client live accepted reported refused (hub_client s) c'.
Proof.
  assert (Hrefl : forall c, same_client live accepted reported refused c c) by done.
  assert (Hrest : forall s, live (hub_client s) h -> exists ok c',
    (ok <- in_client (IoTHubModuleClient_SetOption h OPTION_LOG_TRACE false) ;;
     require ok else false ;;
     ok <- in_client (IoTHubModuleClient_SetConnectionStatusCallback h) ;;
     require ok else false ;;
     in_client (IoTHubModuleClient_SetModuleTwinCallback h)) s = Some (ok, with_client c' s) /\
    same_client live accepted reported refused (hub_client s) c').
  { intros s0 Hl0. apply (config_step _ h); [intros c; apply option_law | done|]. intros c1 Hl1.
    apply (config_step _ h _ (with_client c1 s0)); [intros c; apply status_callback_law | done|]. intros c2 Hl2.
    destruct (twin_callback_law h c2 Hl2) as (ok & c3 & H3 & Hs3). exists ok, c3. split; [|done].
    unfold in_client. cbn. by rewrite H3. }
  intros Hl. unfold configure. destruct USE_MQTT.
  - apply (config_step _ h); [intros c; apply option_law | done|]. intros c Hc. by apply (Hrest (with_client c s)).
  - rewrite bind_ret_l. by apply Hrest.
Qed.

(** Tearing down an adapter whose counter has no lock. *)
Lemma Deinit_Internal_run a s :
  sc_lock (messageCounter a) = None ->
  match moduleHandle a with
  | None => IoTHubAdapter_Deinit_Internal a s = Some (set_hubInitiated false a, s)
  | Some h =>
      (live (hub_client s) h -> exists c', IoTHubAdapter_Deinit_Internal a s = Some (set_hubInitiated false a, with_client c' s) /\
        accepted c' = accepted (hub_client s) /\ reported c' = reported (hub_client s) /\
        (forall h', live c' h' <-> live (hub_client s) h' /\ h' <> h)) /\
      (~ live (hub_client s) h -> IoTHubAdapter_Deinit_Internal a s = None)
  end.
Proof.
  intros Hc.
  assert (E : in_hub_world (AgentTelemetryCounter_Deinit (messageCounter a)) s =
    Some (messageCounter a, s)).
  { unfold in_hub_world, in_hub_store, lift, AgentTelemetryCounter_Deinit, bind. rewrite Hc. cbn.
    destruct s as [[] ? ? ?]. cbn. destruct a as [? ? ? ? ? ? [? ?]]. cbn in Hc. by subst. }
  unfold IoTHubAdapter_Deinit_Internal. rewrite (bind_eq _ _ _ _ _ E).
  assert (Ha : set_messageCounter (messageCounter a) (set_hubInitiated false a) = set_hubInitiated false a) by (by destruct a).
  rewrite Ha. destruct (moduleHandle a) as [h|]; [|done]. unfold bind, in_client. split.
  - intros Hl. destruct (destroy_law h _ Hl) as (c' & Hd & H1 & H2 & H3). rewrite Hd. by exists c'.
  - intros Hl. by rewrite destroy_twice_law.
Qed.

Lemma AgentTelemetryCounter_Init_run (c : SyncedCounter) s :
  exists lock s', in_hub_world (AgentTelemetryCounter_Init c) s =
      Some ((match lock with Some _ => true | None => false end, mkSyncedCounter zero_counter lock), s') /\
    hub_client s' = hub_client s.
Proof.
  unfold in_hub_world, in_hub_store, lift, AgentTelemetryCounter_Init, Lock_Init, bind, fallible. cbn.
  destruct (env_ok _ _); cbn.
  - by eexists (Some _), _.
  - by eexists None, _.
Qed.

(** What [IoTHubAdapter_Init_Internal] leaves. *)
Definition init_outcome (ok : bool) (a : IoTHubAdapter) (s s' : HubState) : Prop :=
  if ok then
    hubInitiated a = true /\ connected a = false /\ hasTwinConfiguration a = false /\
    counter (messageCounter a) = zero_counter /\ is_Some (sc_lock (messageCounter a)) /\
    exists h, moduleHandle a = Some h /\ (~ live (hub_client s) h) /\
      (forall h', live (hub_client s') h' <-> live (hub_client s) h' \/ h' = h)
  else
    hubInitiated a = false /\ (forall h, live (hub_client s') h <-> live (hub_client s) h) /\
    (moduleHandle a <> None -> IoTHubAdapter_Deinit_Internal a s' = None).

Lemma failed_init a h s1 s :
  sc_lock (messageCounter a) = None -> moduleHandle a = Some h -> ~ live (hub_client s) h ->
  accepted (hub_client s1) = accepted (hub_client s) ->
  (forall h', live (hub_client s1) h' <-> live (hub_client s) h' \/ h' = h) ->
  exists s', (adapter <- IoTHubAdapter_Deinit_Internal a ;; ret (false, adapter)) s1 = Some ((false, set_hubInitiated false a), s') /\
    accepted (hub_client s') = accepted (hub_client s) /\ init_outcome false (set_hubInitiated false a) s s'.
Proof.
  intros Hc Hm Hn Ha Hl. pose proof (Deinit_Internal_run a s1 Hc) as H. rewrite Hm in H.
  destruct H as [H _]. destruct H as (c' & Hd & Ha' & _ & Hl'); [apply Hl; by right|].
  exists (with_client c' s1). rewrite (bind_eq _ _ _ _ _ Hd). split; [done|]. split; [cbn; congruence|].
  assert (Hd' : ~ live c' h) by (intros [_ ?]%Hl'; done).
  split; [done|]. split; [|intros _].
  - intros x. cbn. rewrite Hl', Hl. split; [intros [[|] ?]; done|]. intros Hx. split; [by left|]. by intros ->.
  - pose proof (Deinit_Internal_run (set_hubInitiated false a) (with_client c' s1) Hc) as H.
    cbn [moduleHandle set_hubInitiated] in H. rewrite Hm in H. by apply H.
Qed.

Lemma Init_Internal_run queue s :
  exists ok a s', IoTHubAdapter_Init_Internal queue s = Some ((ok, a), s') /\
    accepted (hub_client s') = accepted (hub_client s) /\ init_outcome ok a s s'.
Proof.
  unfold IoTHubAdapter_Init_Internal.
  rewrite (bind_eq _ _ _ _ _ (eq_refl : gets connectionString s = Some (connectionString s, s))).
  destruct (create_law (connectionString s) (hub_client s)) as (r & c1 & H1 & Ha1 & _ & Hnew & Hl1).
  assert (E1 : in_client (IoTHubModuleClient_CreateFromConnectionString (connectionString s)) s = Some (r, with_client c1 s))
    by (unfold in_client; by rewrite H1).
  rewrite (bind_eq _ _ _ _ _ E1). destruct r as [h|].
  2: { rewrite bind_ret_l. pose proof (Deinit_Internal_run (set_moduleHandle None (zero_adapter queue)) (with_client c1 s) eq_refl) as Hd.
       cbn [moduleHandle set_moduleHandle] in Hd. rewrite (bind_eq _ _ _ _ _ Hd). eexists false, _, _. split; [reflexivity|].
       split; [done|]. split; [done|]. split; [|done]. intros h. cbn. rewrite Hl1. split; [by intros [|]|by left]. }
  assert (Hl1' : forall h', live c1 h' <-> live (hub_client s) h' \/ h' = h).
  { intros h'. rewrite Hl1. split; (intros [?|Heq]; [by left | right; congruence]). }
  destruct (configure_run h (with_client c1 s)) as (ok & c2 & H2 & Hl2 & Ha2 & _); [apply Hl1'; by right|].
  rewrite bind_assoc, (bind_eq _ _ _ _ _ H2). cbn [with_client hub_client] in Hl2, Ha2.
  assert (Hl2' : forall h', live c2 h' <-> live (hub_client s) h' \/ h' = h) by (intros h'; by rewrite Hl2, Hl1').
  destruct ok; cbn [negb].
  2: { rewrite bind_ret_l. eexists false, _. eapply failed_init; [done | done | by apply Hnew | cbn; congruence | done]. }
  set (a := set_moduleHandle (Some h) (zero_adapter queue)).
  destruct (AgentTelemetryCounter_Init_run (messageCounter a) (with_client c2 (with_client c1 s))) as (lock & s3 & H3 & Hc3).
  rewrite bind_assoc, (bind_eq _ _ _ _ _ H3), bind_ret_l. cbn [with_client hub_client] in Hc3.
  destruct lock as [k|].
  - eexists true, _, s3. split; [reflexivity|]. rewrite Hc3. split; [congruence|]. do 4 (split; [done|]). split; [by eexists|].
    exists h. split; [done|]. split; [by apply Hnew|]. by rewrite Hc3.
  - eexists false, _. eapply failed_init; [done | done | by apply Hnew | congruence | by rewrite Hc3].
Qed.

(** ** Properties *)

(** C6: An adapter that is initialised and connected hands a message over at most
    once: the call returns, the library has taken over exactly the message when
    the result is true, and nothing when it is false, where a call of the
    library on this very message has failed; a message that was taken over is
    counted as sent, and as small when it is below 4 KB; handles and locks are
    as before, so that the next message can be sent. *)
Theorem SendMessageAsync_correct fuel deliveries adapter data dataSize s :
  sending_ready adapter s ->
  exists ok s', IoTHubAdapter_SendMessageAsync fuel deliveries adapter data dataSize s =
      Some ((ok, counted ok dataSize adapter), s') /\
    accepted (hub_client s') = accepted (hub_client s) ++ (if ok then [data] else []) /\
    refused (hub_client s') = refused (hub_client s) ++ (if ok then [] else [data]) /\
    sending_ready (counted ok dataSize adapter) s' /\ held (hub_world s') = held (hub_world s).
Proof.
  intros H. destruct (SendMessage_run fuel deliveries adapter data dataSize s H) as (ok & n & c & Hrun & Ho).
  exists ok, (hub_later n c s). split; [done|]. pose proof Ho as (_ & Ha & _ & Hf).
  split; [by destruct ok|]. split; [by destruct ok|]. split; [by eapply sending_ready_later | done].
Qed.

(** C37: Connecting returns: it polls every 100 ms until the adapter is connected
    and has a twin, or cannot recover, or the timeout is over, and one more
    sleep passes after the condition held; whatever the library calls back
    meanwhile, the result is whether the adapter is connected and has its twin
    at the end. *)
Theorem Connect_correct fuel deliveries adapter s :
  let timeout := LocalConfiguration_GetConnectionTimeout config in
  0 <= timeout <= UINT32_MAX - 100 -> (rounds timeout <= fuel)%nat ->
  exists n, let adapter' := delivered deliveries n adapter in
    IoTHubAdapter_Connect fuel deliveries adapter s = Some ((connected adapter' && hasTwinConfiguration adapter', adapter'), s) /\
    (n <= rounds timeout)%nat /\
    (forall i, (S i < n)%nat -> stops (delivered deliveries i adapter) = false) /\
    ((n < rounds timeout)%nat -> exists i, n = S i /\ stops (delivered deliveries i adapter) = true).
Proof.
  intros timeout Ht Hf. destruct (Connect_loop_run fuel deliveries adapter false 0 timeout s) as (n & H1 & H2 & H3 & H4);
    [lia | lia | lia | by rewrite Z.sub_0_r |].
  exists n. unfold IoTHubAdapter_Connect. rewrite (bind_eq _ _ _ _ _ H1). rewrite Z.sub_0_r in *. done.
Qed.

(** Initialising the connection either gives a new live handle and a zero
    counter with a lock, or leaves the library without any new handle.  After a
    failure the field may keep the handle that was destroyed: tearing the
    adapter down again, as the agent does at its end, destroys it a second
    time, which is undefined.  The environment and the library are arbitrary. *)
Theorem Init_Internal_correct queue s :
  exists ok a s', IoTHubAdapter_Init_Internal queue s = Some ((ok, a), s') /\
    accepted (hub_client s') = accepted (hub_client s) /\ init_outcome ok a s s'.
Proof. apply Init_Internal_run. Qed.

End IoTHub.

(** ** A concrete library for the witnesses *)

Record LogClient : Type := mkLog {
  lg_live : gset nat;
  lg_next : nat;
  lg_accepted : list string;
  lg_reported : list string;
  lg_refused : list string;
  lg_tick : nat;
}.

Definition lg_is_live (c : LogClient) (h : nat) : Prop := h ∈ lg_live c /\ (h < lg_next c)%nat.

(** [answers n] is the outcome of the [n]-th call that may fail. *)
Section LogClient.
Variable answers : nat -> bool.

#[local] Instance lg_is_live_dec c h : Decision (lg_is_live c h).
Proof. unfold lg_is_live. apply _. Defined.

Definition lg_next_tick (c : LogClient) : LogClient :=
  mkLog (lg_live c) (lg_next c) (lg_accepted c) (lg_reported c) (lg_refused c) (S (lg_tick c)).

(** [f] when the call succeeds, [g] when it fails. *)
Definition log_call (h : nat) (f g : LogClient -> LogClient) : M LogClient bool :=
  fun c => if decide (lg_is_live c h) then
             Some (if answers (lg_tick c) then (true, f (lg_next_tick c)) else (false, g (lg_next_tick c)))
           else None.

Definition lg_refuse (text : string) (c : LogClient) : LogClient :=
  mkLog (lg_live c) (lg_next c) (lg_accepted c) (lg_reported c) (lg_refused c ++ [text]) (lg_tick c).

#[export] Instance log_client : IoTHubClient := {|
  Client := LogClient;
  HANDLE := nat;
  MESSAGE := string;
  OPTION_AUTO_URL_ENCODE_DECODE := "auto_url_encode_decode";
  OPTION_LOG_TRACE := "logtrace";
  IOTHUB_CLIENT_CONNECTION_BAD_CREDENTIAL := 2;
  IOTHUB_CLIENT_CONNECTION_NO_NETWORK := 4;
  IOTHUB_CLIENT_CONNECTION_OK := 6;
  IoTHubModuleClient_CreateFromConnectionString := fun _ c =>
    Some (Some (lg_next c), mkLog ({[lg_next c]} ∪ lg_live c) (S (lg_next c)) (lg_accepted c) (lg_reported c) (lg_refused c)
      (lg_tick c));
  IoTHubModuleClient_SetOption := fun h _ _ => log_call h id id;
  IoTHubModuleClient_SetConnectionStatusCallback := fun h => log_call h id id;
  IoTHubModuleClient_SetModuleTwinCallback := fun h => log_call h id id;
  IoTHubModuleClient_SendEventAsync := fun h m => log_call h (fun c =>
    mkLog (lg_live c) (lg_next c) (lg_accepted c ++ [m]) (lg_reported c) (lg_refused c) (lg_tick c)) (lg_refuse m);
  IoTHubModuleClient_SendReportedState := fun h text => log_call h (fun c =>
    mkLog (lg_live c) (lg_next c) (lg_accepted c) (lg_reported c ++ [text]) (lg_refused c) (lg_tick c)) (lg_refuse text);
  IoTHubModuleClient_Destroy := fun h c =>
    if decide (lg_is_live c h) then
      Some (tt, mkLog (lg_live c ∖ {[h]}) (lg_next c) (lg_accepted c) (lg_reported c) (lg_refused c) (lg_tick c))
    else None;
  IoTHubMessage_CreateFromByteArray := fun text c => Some (Some text, c);
  IoTHubMessage_SetAsSecurityMessage := fun _ c => Some (true, c);
  IoTHubMessage_Destroy := fun _ c => Some (tt, c);
|}.

Definition lg_same := same_client lg_is_live lg_accepted lg_reported lg_refused.

Lemma log_call_run h f g c :
  lg_is_live c h ->
  log_call h f g c = Some (if answers (lg_tick c) then (true, f (lg_next_tick c)) else (false, g (lg_next_tick c))).
Proof. intros H. unfold log_call. by rewrite decide_True. Qed.

Lemma log_config h c : lg_is_live c h -> exists ok c', log_call h id id c = Some (ok, c') /\ lg_same c c'.
Proof. intros H. rewrite log_call_run by done. by destruct (answers _); eexists _, _. Qed.

#[export] Instance log_client_laws : IoTHubClientLaws log_client.
Proof.
  unshelve refine (Build_IoTHubClientLaws log_client lg_is_live lg_accepted lg_reported lg_refused (fun _ m => Some m)
    _ _ _ _ _ _ _ _ _ _ _).
  - intros cs c. eexists _, _. split; [reflexivity|]. do 2 (split; [done|]). split.
    + intros h [= <-] [_ Hlt]. lia.
    + intros h. unfold lg_is_live. cbn. rewrite elem_of_union, elem_of_singleton.
      split.
      * intros [[->|Hin] Hlt]; [by right|]. destruct (decide (h = lg_next c)) as [->|]; [by right|]. left. split; [done | lia].
      * intros [[Hin Hlt]|[= ->]]; (split; [|lia]); [by right | by left].
  - intros h key b c. apply log_config.
  - intros h c. apply log_config.
  - intros h c. apply log_config.
  - intros h m text c Hl [= ->]. cbn. rewrite log_call_run by done.
    destruct (answers _); eexists _, _; (split; [reflexivity|]); (split; [done|]);
      repeat split; cbn; by rewrite ?app_nil_r.
  - intros h text c Hl. cbn. rewrite log_call_run by done.
    destruct (answers _); eexists _, _; (split; [reflexivity|]); (split; [done|]);
      repeat split; cbn; by rewrite ?app_nil_r.
  - intros h c Hl. cbn. rewrite decide_True by done. eexists. split; [reflexivity|]. do 2 (split; [done|]).
    intros h'. unfold lg_is_live. cbn. rewrite elem_of_difference, elem_of_singleton. tauto.
  - intros h c Hl. cbn. by rewrite decide_False.
  - intros text c. eexists _, _. split; [reflexivity|]. do 3 (split; [done|]). split; [by rewrite app_nil_r|]. by intros m [= <-].
  - intros m text c Hc. eexists _, _. split; [reflexivity|]. do 3 (split; [done|]). by rewrite app_nil_r.
  - intros m text c Hc. by eexists.
Defined.

End LogClient.

(** ** Witnesses *)

(** A device that does not use DPS, with a timeout of one second. *)
Definition plain_device : LocalConfiguration := mkLocalConfiguration false 1000 (fun cs => ret (true, cs)).

Definition test_client : LogClient := mkLog {[ 0%nat ]} 1 [] [] [] 0.

Definition test_hub {D} (c : LogClient) (answers : nat -> bool) : @HubState D (log_client answers) :=
  @mkHubState D (log_client answers) (mkStore (running_world good_env) ∅ 0) c (Some 5%nat) "connection"%string.

Definition test_adapter (answers : nat -> bool) : @IoTHubAdapter (log_client answers) :=
  @mkAdapter (log_client answers) (Some 0%nat) true true 6 true (Some 0%nat) (mkSyncedCounter zero_counter (Some 6%nat)).

Lemma test_ready answers :
  @sending_ready string (log_client answers) plain_device (log_client_laws answers) (test_adapter answers)
    (test_hub test_client answers).
Proof.
  split; [done|]. split; [done|]. split; [by left|]. split.
  - exists 0%nat. split; [done|]. split; [apply (proj2 (elem_of_singleton 0%nat 0%nat) eq_refl) | cbn; lia].
  - exists 5%nat, 6%nat. split; [done|]. split; [apply not_elem_of_empty|]. split; [done|]. split; [apply not_elem_of_empty | done].
Qed.

Lemma SendMessageAsync_correct_witness :
  exists adapter s',
    @IoTHubAdapter_SendMessageAsync string (log_client (fun _ => true)) false plain_device 0 []
      (test_adapter (fun _ => true)) "message" 7 (test_hub test_client (fun _ => true)) = Some ((true, adapter), s') /\
    lg_accepted (hub_client s') = ["message"%string].
Proof.
  destruct (@SendMessageAsync_correct string (log_client (fun _ => true)) false plain_device _ 0 []
    (test_adapter (fun _ => true)) "message" 7 (test_hub test_client (fun _ => true)) (test_ready _)) as (ok & s' & H & Ha & _).
  exists (counted ok 7 (test_adapter (fun _ => true))), s'.
  assert (ok = true) as ->; [|by split]. apply (f_equal (fun x => option_map (fun y => fst (fst y)) x)) in H.
  vm_compute in H. congruence.
Defined.

(** Connected in the second sleep, with the twin in the third one. *)
Definition test_deliveries : list (list HubCallback) := [[]; [ConnectionStatus true 6]; [DeviceTwin]].

Lemma Connect_correct_witness :
  exists n, let adapter' := @delivered (log_client (fun _ => true)) test_deliveries n (zero_adapter None) in
    @IoTHubAdapter_Connect string (log_client (fun _ => true)) plain_device 10 test_deliveries (zero_adapter None)
      (test_hub test_client (fun _ => true)) =
    Some ((connected adapter' && hasTwinConfiguration adapter', adapter'), test_hub test_client (fun _ => true)).
Proof.
  destruct (@Connect_correct string (log_client (fun _ => true)) plain_device 10 test_deliveries (zero_adapter None)
    (test_hub test_client (fun _ => true))) as (n & H & _); [cbn; ulia | by vm_compute; lia |].
  exists n. exact H.
Defined.

(** The library refuses the first option: the handle it gave is destroyed, and
    destroyed again when the agent ends. *)
Example failed_init_destroyed_twice :
  match @IoTHubAdapter_Init_Internal string (log_client (fun _ => false)) true None (test_hub (mkLog ∅ 0 [] [] [] 0) (fun _ => false)) with
  | Some ((false, a), s') =>
      match @IoTHubAdapter_Deinit string (log_client (fun _ => false)) a s' with None => true | Some _ => false end
  | _ => false
  end = true.
Proof. vm_compute. reflexivity. Qed.
