(* ===== verification/UpdateTwin.v ===== *)
(** * [tasks/update_twin_task.c] and the twin callback of [iothub_adapter.c]

    The client library hands a twin to [IoTHubAdapter_DeviceTwinCallback], which
    copies it into a work item and queues the item's address; the task takes
    one item, applies the twin to the configuration, reports the configuration
    and frees the item. *)

From S2P Require Import Prelude CString TwinDefs World TimeUtils Parson ParsonModel Json TwinUtils TwinCollectors TwinConfiguration TwinReport MemoryMonitor Telemetry Queue SyncQueue IoTHub.
From Stdlib Require Import String Ascii.
Open Scope Z_scope.

(** ** Data *)

Inductive UpdateTwinState : Type := TWIN_COMPLETE | TWIN_PARTIAL.

#[export] Instance UpdateTwinState_eq_dec : EqDecision UpdateTwinState.
Proof. solve_decision. Defined.

(** [twinPayload] is the address of a block of bytes. *)
Record UpdateTwinTaskItem : Type := mkTwinItem {
  state : UpdateTwinState;
  twinPayload : option nat;
}.

(** [sizeof(UpdateTwinTaskItem)]: an [enum], padded to a pointer, and a pointer
    of eight bytes. *)
Definition sizeof_UpdateTwinTaskItem : Z := 16.

Section UpdateTwin.
Context {P : Parson} {Mon : MemoryMonitor} {Lib : IoTHubClient}.

(** The queue holds addresses of items; items and payloads are blocks of the
    heap, here apart from the queue's own. *)
Record TwinState : Type := mkTwinState {
  tw_hub : HubState (D := option nat);
  tw_items : gmap nat UpdateTwinTaskItem;
  tw_payloads : gmap nat string;
  tw_next : nat;
}.

Definition in_hub {A} (m : M (HubState (D := option nat)) A) : M TwinState A :=
  fun s => match m (tw_hub s) with
           | None => None
           | Some (a, h) => Some (a, mkTwinState h (tw_items s) (tw_payloads s) (tw_next s))
           end.

Definition in_queue {A} (m : M (Store (D := option nat)) A) : M TwinState A := in_hub (in_hub_store m).
Definition in_twin_world {A} (m : M World A) : M TwinState A := in_hub (in_hub_world m).

(** [*p] for items and payloads, and [free]. *)
Definition load_twin_item (p : option nat) : M TwinState UpdateTwinTaskItem :=
  fun s => match p with
           | None => None
           | Some a => match tw_items s !! a with Some i => Some (i, s) | None => None end
           end.

Definition load_payload (p : option nat) : M TwinState string :=
  fun s => match p with
           | None => None
           | Some a => match tw_payloads s !! a with Some bytes => Some (bytes, s) | None => None end
           end.

Definition store_twin_item (a : nat) (i : UpdateTwinTaskItem) : M TwinState unit :=
  modify (fun s => mkTwinState (tw_hub s) (<[a := i]> (tw_items s)) (tw_payloads s) (tw_next s)).

Definition store_payload (a : nat) (bytes : string) : M TwinState unit :=
  modify (fun s => mkTwinState (tw_hub s) (tw_items s) (<[a := bytes]> (tw_payloads s)) (tw_next s)).

Definition free_twin_item (p : option nat) : M TwinState unit :=
  load_twin_item p ;;;
  modify (fun s => mkTwinState (tw_hub s) (match p with Some a => delete a (tw_items s) | None => tw_items s end)
                     (tw_payloads s) (tw_next s)).

Definition free_payload (p : option nat) : M TwinState unit :=
  load_payload p ;;;
  modify (fun s => mkTwinState (tw_hub s) (tw_items s)
                     (match p with Some a => delete a (tw_payloads s) | None => tw_payloads s end) (tw_next s)).

(** [malloc]: a fresh address or the null pointer. *)
Definition allocate : M TwinState (option nat) :=
  ok <- in_twin_world malloc ;;
  if ok then
    a <- gets tw_next ;;
    modify (fun s => mkTwinState (tw_hub s) (tw_items s) (tw_payloads s) (S a)) ;;;
    ret (Some a)
  else ret None.

(** ** Work items *)

(** The item [*twinTaskItem] is freed; the pointer is set to null. *)
Definition UpdateTwinTask_DeinitUpdateTwinTaskItem (twinTaskItem : option nat) : M TwinState unit :=
  twinItem <- load_twin_item twinTaskItem ;;
  (match twinPayload twinItem with
   | None => ret tt
   | Some _ => free_payload (twinPayload twinItem)
   end) ;;;
  free_twin_item twinTaskItem.

(** Returns the result and [*twinTaskItem].  When there is no memory for the
    payload the item is freed through another pointer, and [*twinTaskItem]
    still holds its address. *)
Definition UpdateTwinTask_InitUpdateTwinTaskItem (payload : string) (isComplete : bool) : M TwinState (bool * option nat) :=
  twinItem <- allocate ;;
  match twinItem with
  | None => ret (false, None)
  | Some item =>
      store_twin_item item (mkTwinItem TWIN_COMPLETE None) ;;;
      block <- allocate ;;
      match block with
      | None =>
          UpdateTwinTask_DeinitUpdateTwinTaskItem twinItem ;;;
          ret (false, twinItem)
      | Some p =>
          store_payload p payload ;;;
          store_twin_item item (mkTwinItem (if isComplete then TWIN_COMPLETE else TWIN_PARTIAL) block) ;;;
          ret (true, twinItem)
      end
  end.

(** The callback with the adapter that the context points to, if any, and the
    adapter's queue.  The size of the payload is its length; the result of the
    initialisation is not looked at. *)
Definition IoTHubAdapter_DeviceTwinCallback (isComplete : bool) (payload : string)
    (adapter : option IoTHubAdapter) (twinUpdatesQueue : SyncQueue)
    : M TwinState (option IoTHubAdapter * SyncQueue) :=
  if strlen payload =? 0 then ret (adapter, twinUpdatesQueue)
  else
    match adapter with
    | None => ret (adapter, twinUpdatesQueue)
    | Some a =>
        let* (_, twinTaskItem) := UpdateTwinTask_InitUpdateTwinTaskItem payload isComplete in
        let* (r, queue, _) := in_queue (SyncQueue_PushBack twinUpdatesQueue twinTaskItem sizeof_UpdateTwinTaskItem) in
        if decide (r <> QueueResult QUEUE_OK) then
          (match twinTaskItem with
           | None => ret tt
           | Some _ => UpdateTwinTask_DeinitUpdateTwinTaskItem twinTaskItem
           end) ;;;
          ret (Some a, queue)
        else ret (Some (set_hasTwinConfiguration a), queue)
    end.

(** ** The task: what its pointers point to *)

Record UpdateTwinTask : Type := mkUpdateTwinTask {
  updateQueue : option SyncQueue;
  iothubClient : option IoTHubAdapter;
}.

Definition UpdateTwinTask_Init (updateQueue : option SyncQueue) (client : option IoTHubAdapter) : bool * UpdateTwinTask :=
  (true, mkUpdateTwinTask updateQueue client).

(** The item itself is passed where its address is expected: its first word is
    taken for the item's address.  That word holds [state], 0 or 1, which is
    the address of no object. *)
Definition deinit_through_item (currentData : option nat) : M TwinState unit :=
  load_twin_item currentData ;;;
  undefined.

Fixpoint Deinit_loop (fuel : nat) (queue : SyncQueue) (queueSize : Z) : M TwinState SyncQueue :=
  if 0 <? queueSize then
    match fuel with
    | O => undefined
    | S fuel =>
        let* (r, queue, out) := in_queue (SyncQueue_PopFront queue) in
        match r, out with
        | QueueResult QUEUE_OK, Some (currentData, _) =>
            deinit_through_item currentData ;;;
            let* (r, queue, n) := in_queue (SyncQueue_GetSize queue) in
            match r, n with
            | QueueResult QUEUE_OK, Some n => Deinit_loop fuel queue n
            | _, _ => ret queue
            end
        | _, _ => ret queue
        end
    end
  else ret queue.

(** Returns the task and the queue it pointed to. *)
Definition UpdateTwinTask_Deinit (fuel : nat) (task : UpdateTwinTask) : M TwinState (UpdateTwinTask * SyncQueue) :=
  match updateQueue task with
  | None => undefined
  | Some queue =>
      let* (r, queue, n) := in_queue (SyncQueue_GetSize queue) in
      queue <- (match r, n with
                | QueueResult QUEUE_OK, Some n => Deinit_loop fuel queue n
                | _, _ => ret queue
                end) ;;
      ret (mkUpdateTwinTask None None, queue)
  end.

Definition UpdateTwinTask_UpdateTwinReportedProperties (iothubClient : option IoTHubAdapter) : M TwinState bool :=
  let* (r, twinJson) := in_twin_world TwinConfiguration_GetSerializedTwinConfiguration in
  if decide (r <> TWIN_OK) then ret false
  else
    match iothubClient with
    | None => undefined
    | Some a => in_hub (IoTHubAdapter_SetReportedPropertiesAsync a (fst <$> twinJson))
    end.

(** The [cleanup:] label: the item and its payload are freed. *)
Definition release_work_item (workItem : option nat) : M TwinState unit :=
  match workItem with
  | None => ret tt
  | Some _ => UpdateTwinTask_DeinitUpdateTwinTaskItem workItem
  end.

(** What is done with an item that was taken from the queue. *)
Definition apply_work_item (task : UpdateTwinTask) (workItem : option nat) (bufferSize : Z) : M TwinState unit :=
  if negb (bufferSize =? sizeof_UpdateTwinTaskItem) then ret tt
  else
    item <- load_twin_item workItem ;;
    bytes <- load_payload (twinPayload item) ;;
    updateResult <- in_twin_world
      (TwinConfiguration_Update (until_nul bytes) (bool_decide (state item = TWIN_COMPLETE))) ;;
    match updateResult with
    | TWIN_OK | TWIN_PARSE_EXCEPTION =>
        _ <- UpdateTwinTask_UpdateTwinReportedProperties (iothubClient task) ;; ret tt
    | _ => ret tt
    end.

Definition UpdateTwinTask_Execute (task : UpdateTwinTask) : M TwinState UpdateTwinTask :=
  match updateQueue task with
  | None => undefined
  | Some queue =>
      let* (r, queue, queueSize) := in_queue (SyncQueue_GetSize queue) in
      let left queue := mkUpdateTwinTask (Some queue) (iothubClient task) in
      match r, queueSize with
      | QueueResult QUEUE_OK, Some queueSize =>
          if queueSize =? 0 then ret (left queue)
          else
            let* (r, queue, out) := in_queue (SyncQueue_PopFront queue) in
            let workItem := out ≫= fst in
            (match r, out with
             | QueueResult QUEUE_OK, Some (_, bufferSize) => apply_work_item task workItem bufferSize
             | _, _ => ret tt
             end) ;;;
            release_work_item workItem ;;;
            ret (left queue)
      | _, _ => ret (left queue)
      end
  end.

(** ** Specification *)

(** A queued update: where its item and its payload are, the bytes the library
    handed over, and whether they are the complete twin. *)
Record Work : Type := mkWork {
  wk_item : nat;
  wk_payload : nat;
  wk_bytes : string;
  wk_complete : bool;
}.

Definition item_of (w : Work) : UpdateTwinTaskItem :=
  mkTwinItem (if wk_complete w then TWIN_COMPLETE else TWIN_PARTIAL) (Some (wk_payload w)).

Definition items_of (works : list Work) : gmap nat UpdateTwinTaskItem :=
  list_to_map (map (fun w => (wk_item w, item_of w)) works).

Definition payloads_of (works : list Work) : gmap nat string :=
  list_to_map (map (fun w => (wk_payload w, wk_bytes w)) works).

(** The queue holds the works in order, and nothing but their items and
    payloads is allocated. *)
Definition twins_queued (queue : SyncQueue) (s : TwinState) (works : list Work) : Prop :=
  (exists items, sync_holds queue (hub_store (tw_hub s)) items /\
     items.*2 = map (fun w => (Some (wk_item w), sizeof_UpdateTwinTaskItem)) works) /\
  tw_items s = items_of works /\ tw_payloads s = payloads_of works /\
  NoDup (map wk_item works) /\ NoDup (map wk_payload works) /\
  Forall (fun w => (wk_item w < tw_next s)%nat /\ (wk_payload w < tw_next s)%nat) works.

Definition twin_world (s : TwinState) : World := hub_world (tw_hub s).

(** The state after [n] calls to the environment. *)
Definition twin_later (n : nat) (s : TwinState) : TwinState :=
  mkTwinState (hub_later n (hub_client (tw_hub s)) (tw_hub s)) (tw_items s) (tw_payloads s) (tw_next s).

(** ** Lemmas *)

Context {Laws : MemoryMonitorLaws Mon}.

Lemma in_queue_run {A} (m : M (Store (D := option nat)) A) s a st :
  m (hub_store (tw_hub s)) = Some (a, st) ->
  in_queue m s = Some (a, mkTwinState (mkHubState st (hub_client (tw_hub s)) (iotHubAdapterLock (tw_hub s))
                                         (connectionString (tw_hub s))) (tw_items s) (tw_payloads s) (tw_next s)).
Proof. intros H. unfold in_queue, in_hub, in_hub_store. by rewrite H. Qed.

Lemma in_twin_world_run {A} (m : M World A) s a w :
  m (twin_world s) = Some (a, w) ->
  in_twin_world m s = Some (a, mkTwinState (mkHubState (mkStore w (st_heap (hub_store (tw_hub s))) (next_item (hub_store (tw_hub s))))
      (hub_client (tw_hub s)) (iotHubAdapterLock (tw_hub s)) (connectionString (tw_hub s))) (tw_items s) (tw_payloads s) (tw_next s)).
Proof. intros H. unfold in_twin_world, in_hub, in_hub_world, in_hub_store, lift. fold (hub_world (tw_hub s)). unfold twin_world in H. by rewrite H. Qed.

Lemma allocate_run s :
  reliable (twin_world s) ->
  allocate s = Some (Some (tw_next s), mkTwinState (tw_hub (twin_later 1 s)) (tw_items s) (tw_payloads s) (S (tw_next s))).
Proof.
  intros Hr. unfold allocate. rewrite (bind_eq _ _ _ _ _ (in_twin_world_run _ _ _ _ (malloc_reliable _ Hr))). reflexivity.
Qed.

(** With memory for both blocks, the work item is complete. *)
Lemma InitItem_run s payload isComplete :
  reliable (twin_world s) ->
  UpdateTwinTask_InitUpdateTwinTaskItem payload isComplete s =
  let w := mkWork (tw_next s) (S (tw_next s)) payload isComplete in
  Some ((true, Some (wk_item w)),
        mkTwinState (tw_hub (twin_later 2 s)) (<[wk_item w := item_of w]> (tw_items s))
          (<[wk_payload w := payload]> (tw_payloads s)) (S (S (tw_next s)))).
Proof.
  intros Hr. unfold UpdateTwinTask_InitUpdateTwinTaskItem. rewrite (bind_eq _ _ _ _ _ (allocate_run s Hr)).
  set (s1 := mkTwinState _ _ _ _). unfold bind at 1, store_twin_item at 1, modify at 1. cbv beta iota.
  set (s2 := mkTwinState (tw_hub s1) _ _ _).
  assert (Hr2 : reliable (twin_world s2)) by exact Hr. rewrite (bind_eq _ _ _ _ _ (allocate_run s2 Hr2)). cbv beta iota.
  unfold bind, store_payload, store_twin_item, modify, ret. cbn. unfold s2. cbn. rewrite insert_insert_eq.
  unfold item_of. cbn. by rewrite hub_later_later.
Qed.

(** Freeing a work item that is there. *)
Lemma DeinitItem_run s a i p bytes :
  tw_items s !! a = Some i -> twinPayload i = Some p -> tw_payloads s !! p = Some bytes ->
  UpdateTwinTask_DeinitUpdateTwinTaskItem (Some a) s =
  Some (tt, mkTwinState (tw_hub s) (delete a (tw_items s)) (delete p (tw_payloads s)) (tw_next s)).
Proof.
  intros Ha Hp Hb. unfold UpdateTwinTask_DeinitUpdateTwinTaskItem, bind at 1, load_twin_item. rewrite Ha. cbv beta iota.
  rewrite Hp. unfold free_payload, free_twin_item, bind, load_payload, load_twin_item, modify. rewrite Hb. cbn. by rewrite Ha.
Qed.

Lemma queued_length (works : list Work) (items : list (nat * (option nat * Z))) :
  items.*2 = map (fun w => (Some (wk_item w), sizeof_UpdateTwinTaskItem)) works ->
  List.length items = List.length works.
Proof. intros H. rewrite <- (length_fmap snd items), H. apply length_map. Qed.

(** Blocks that were allocated are below [tw_next], so a fresh address is free. *)
Lemma fresh_item queue s works n : twins_queued queue s works -> (tw_next s <= n)%nat -> tw_items s !! n = None.
Proof.
  intros (_ & Hi & _ & _ & _ & Hf) Hn. rewrite Hi. apply not_elem_of_list_to_map_1. rewrite <- list_fmap_compose.
  intros (w & -> & Hw)%list_elem_of_fmap. cbn in Hn. rewrite Forall_forall in Hf. destruct (Hf w Hw). lia.
Qed.

Lemma fresh_payload queue s works n : twins_queued queue s works -> (tw_next s <= n)%nat -> tw_payloads s !! n = None.
Proof.
  intros (_ & _ & Hp & _ & _ & Hf) Hn. rewrite Hp. apply not_elem_of_list_to_map_1. rewrite <- list_fmap_compose.
  intros (w & -> & Hw)%list_elem_of_fmap. cbn in Hn. rewrite Forall_forall in Hf. destruct (Hf w Hw). lia.
Qed.

Lemma items_of_app works w : wk_item w ∉ map wk_item works -> items_of (works ++ [w]) = <[wk_item w := item_of w]> (items_of works).
Proof.
  intros Hw. unfold items_of. rewrite map_app. cbn. rewrite list_to_map_app.
  rewrite insert_union_singleton_l. cbn. rewrite insert_empty. apply map_union_comm, map_disjoint_singleton_r_2.
  apply not_elem_of_list_to_map_1. by rewrite <- list_fmap_compose.
Qed.

Lemma payloads_of_app works w :
  wk_payload w ∉ map wk_payload works -> payloads_of (works ++ [w]) = <[wk_payload w := wk_bytes w]> (payloads_of works).
Proof.
  intros Hw. unfold payloads_of. rewrite map_app. cbn. rewrite list_to_map_app.
  rewrite insert_union_singleton_l. cbn. rewrite insert_empty. apply map_union_comm, map_disjoint_singleton_r_2.
  apply not_elem_of_list_to_map_1. by rewrite <- list_fmap_compose.
Qed.

Lemma queued_bump queue s works n : twins_queued queue s works -> twins_queued queue (twin_later n s) works.
Proof.
  intros ((items & Hq & Hi) & H). split; [|exact H]. exists items. split; [|exact Hi]. by apply (sync_holds_bump _ _ _ n Hq).
Qed.

Lemma queued_reliable queue s works : twins_queued queue s works -> reliable (twin_world s).
Proof. intros ((items & Hq & _) & _). by eapply sync_holds_reliable. Qed.

(** The client library and the statics of the adapter are as before. *)
Definition same_hub (s s' : TwinState) : Prop :=
  hub_client (tw_hub s') = hub_client (tw_hub s) /\ iotHubAdapterLock (tw_hub s') = iotHubAdapterLock (tw_hub s) /\
  connectionString (tw_hub s') = connectionString (tw_hub s).

Lemma Callback_run isComplete payload a queue s works :
  twins_queued queue s works -> Z.of_nat (List.length works) < UINT32_MAX -> strlen payload <> 0 ->
  exists a' queue' s' works', IoTHubAdapter_DeviceTwinCallback isComplete payload (Some a) queue s = Some ((Some a', queue'), s') /\
    twins_queued queue' s' works' /\ only_monitor (twin_world s) (twin_world s') /\ same_hub s s' /\
    if granted (twin_world s) (Queue_CalculateItemSize sizeof_UpdateTwinTaskItem) then
      a' = set_hasTwinConfiguration a /\ exists i p, works' = works ++ [mkWork i p payload isComplete]
    else a' = a /\ works' = works.
Proof.
  intros Hq Hlen Hne. pose proof (queued_reliable _ _ _ Hq) as Hr. unfold IoTHubAdapter_DeviceTwinCallback.
  rewrite (proj2 (Z.eqb_neq _ _)) by done. cbv beta iota.
  rewrite (bind_eq _ _ _ _ _ (InitItem_run s payload isComplete Hr)). cbv zeta.
  set (w := mkWork (tw_next s) (S (tw_next s)) payload isComplete). set (s1 := mkTwinState _ _ _ _).
  pose proof (fresh_item _ _ _ (wk_item w) Hq ltac:(cbn; lia)) as Hfi.
  pose proof (fresh_payload _ _ _ (wk_payload w) Hq ltac:(cbn; lia)) as Hfp.
  pose proof Hq as ((items & Hsq & Hit) & Hitems & Hpay & Hnd & Hnd' & Hf).
  destruct (SyncPushBack_run queue (hub_store (tw_hub s1)) items (Some (wk_item w)) sizeof_UpdateTwinTaskItem)
    as (ok & q & st & b & Hp & Hok & Hsq' & Ho & _).
  { exact (proj2 (sync_holds_bump _ _ _ 2 Hsq)). }
  { by rewrite (queued_length _ _ Hit). }
  rewrite (bind_eq _ _ _ _ _ (in_queue_run _ s1 _ _ Hp)). cbv beta iota.
  change (granted (twin_world s) (Queue_CalculateItemSize sizeof_UpdateTwinTaskItem))
    with (granted (st_world (hub_store (tw_hub s1))) (Queue_CalculateItemSize sizeof_UpdateTwinTaskItem)). rewrite <- Hok.
  assert (Hmon : only_monitor (twin_world s) (st_world st)) by (eapply only_monitor_trans; [apply (only_monitor_bump 2) | exact Ho]).
  set (s2 := mkTwinState (mkHubState st _ _ _) _ _ _).
  assert (Hout : forall (l : list nat), (forall x, x ∈ l -> (x < tw_next s)%nat) -> (wk_item w ∉ l) /\ (wk_payload w ∉ l)).
  { intros l Hl. split; intros H%Hl; cbn in H; lia. }
  rewrite Forall_forall in Hf.
  destruct (Hout (map wk_item works)) as [Hi1 _]; [intros x (y & -> & Hy)%list_elem_of_fmap; by apply Hf|].
  destruct (Hout (map wk_payload works)) as [_ Hp1]; [intros x (y & -> & Hy)%list_elem_of_fmap; by apply Hf|].
  destruct ok.
  - rewrite decide_False by tauto. eexists _, q, s2, (works ++ [w]). split; [reflexivity|].
    split; [|split; [exact Hmon|]; split; [done|]; split; [done|]; by eexists _, _].
    split; [exists (items ++ [(b, (Some (wk_item w), sizeof_UpdateTwinTaskItem))]); split; [exact Hsq'|]; by rewrite fmap_app, Hit, map_app|].
    cbn [tw_items tw_payloads tw_next s2 s1]. rewrite items_of_app, payloads_of_app, <- Hitems, <- Hpay by done.
    split; [done|]. split; [done|]. rewrite !map_app. cbn [map].
    split; [|split].
    + apply NoDup_app. split; [done|]. split; [|apply NoDup_singleton]. by intros x Hx ->%list_elem_of_singleton.
    + apply NoDup_app. split; [done|]. split; [|apply NoDup_singleton]. by intros x Hx ->%list_elem_of_singleton.
    + apply Forall_app. split; [|repeat constructor; cbn; lia]. apply Forall_forall. intros x Hx.
      destruct (Hf x Hx). lia.
  - rewrite decide_True by done.
    rewrite (bind_eq _ _ _ _ _ (DeinitItem_run s2 (wk_item w) (item_of w) (wk_payload w) payload
      (lookup_insert_eq _ _ _) eq_refl (lookup_insert_eq _ _ _))).
    eexists _, q, _, works. split; [reflexivity|]. split; [|by split].
    cbn [tw_items tw_payloads tw_next s2 s1 tw_hub]. rewrite !delete_insert_id by done.
    split; [exists items; by rewrite app_nil_r in Hsq'|]. split; [done|]. split; [done|]. split; [done|]. split; [done|].
    apply Forall_forall. intros x Hx. destruct (Hf x Hx). cbn. lia.
Qed.

(** ** Lemmas: the task *)

Context {ClientLaws : IoTHubClientLaws Lib} {ReaderLaws : ParsonLaws P}.

(** What the library was asked to report: the text joins what it reports or,
    when its call failed, what it refused.  With nothing to report it is not
    called. *)
Definition reports (c c' : Client) (text : option string) : Prop :=
  match text with
  | None => c' = c
  | Some text => exists ok : bool, (forall h, live c' h <-> live c h) /\ accepted c' = accepted c /\
      reported c' = reported c ++ (noted ok text).1 /\ refused c' = refused c ++ (noted ok text).2
  end.

(** The twin that an update with the result [r] reports. *)
Definition report_after (r : TwinConfigurationResult) (name : string) (w : World) : option string :=
  match r with
  | TWIN_OK | TWIN_PARSE_EXCEPTION => serialized name (twinConfiguration w) (eventPriorities w)
  | _ => None
  end.

Lemma Report_run a h name s :
  reliable (twin_world s) -> locks_ready (twin_world s) -> twinConfigurationObjectName (twin_world s) = Some name ->
  moduleHandle a = Some h -> live (hub_client (tw_hub s)) h ->
  exists ok n c, UpdateTwinTask_UpdateTwinReportedProperties (Some a) s =
      Some (ok, mkTwinState (hub_later n c (tw_hub s)) (tw_items s) (tw_payloads s) (tw_next s)) /\
    reports (hub_client (tw_hub s)) c (serialized name (twinConfiguration (twin_world s)) (eventPriorities (twin_world s))).
Proof.
  intros Hr Hl Hn Hh Hlive. destruct (GetSerialized_run name _ Hr Hl Hn) as [n Hg].
  unfold UpdateTwinTask_UpdateTwinReportedProperties. rewrite (bind_eq _ _ _ _ _ (in_twin_world_run _ _ _ _ Hg)).
  destruct (serialized name _ _) as [text|].
  - rewrite decide_False by tauto. unfold in_hub, IoTHubAdapter_SetReportedPropertiesAsync. cbn [fmap option_fmap option_map fst].
    rewrite Hh. destruct (report_law h text (hub_client (tw_hub s)) Hlive) as (ok & c & Hc & Hrep).
    exists ok, n, c. unfold in_client. cbn [tw_hub hub_client]. rewrite Hc. split; [done|]. by exists ok.
  - rewrite decide_True by done. by exists false, n, (hub_client (tw_hub s)).
Qed.

Lemma items_of_head w works : items_of (w :: works) !! wk_item w = Some (item_of w).
Proof. apply lookup_insert_eq. Qed.

Lemma payloads_of_head w works : payloads_of (w :: works) !! wk_payload w = Some (wk_bytes w).
Proof. apply lookup_insert_eq. Qed.

(** An item that was taken from the queue is applied, reported and freed. *)
Lemma apply_run task a h name w works queue s :
  iothubClient task = Some a -> moduleHandle a = Some h -> live (hub_client (tw_hub s)) h ->
  (exists items, sync_holds queue (hub_store (tw_hub s)) items) ->
  twinConfigurationObjectName (twin_world s) = Some name -> is_Some (open_document "{}") ->
  (forall reader, twin_section (until_nul (wk_bytes w)) (wk_complete w) name = Some (inr reader) -> numbers_fit reader) ->
  tw_items s = items_of (w :: works) -> tw_payloads s = payloads_of (w :: works) ->
  exists r w2 n c s', apply_work_item task (Some (wk_item w)) sizeof_UpdateTwinTaskItem s = Some (tt, s') /\
    TwinConfiguration_Update (until_nul (wk_bytes w)) (wk_complete w) (twin_world s) = Some (r, w2) /\
    s' = mkTwinState (mkHubState (mkStore (bump n w2) (st_heap (hub_store (tw_hub s))) (next_item (hub_store (tw_hub s)))) c
           (iotHubAdapterLock (tw_hub s)) (connectionString (tw_hub s))) (tw_items s) (tw_payloads s) (tw_next s) /\
    (forall items, sync_holds queue (hub_store (tw_hub s)) items -> sync_holds queue (hub_store (tw_hub s')) items) /\
    reports (hub_client (tw_hub s)) c (report_after r name w2).
Proof.
  intros Ha Hh Hlive (items & Hq) Hn H0 Hfit Hitems Hpay.
  pose proof (sync_holds_reliable _ _ _ Hq) as Hr. pose proof (sync_locks_ready _ _ _ Hq) as Hl.
  destruct (Configuration_Update_run (until_nul (wk_bytes w)) (wk_complete w) name (twin_world s) Hr Hl Hn H0 Hfit)
    as (r & w2 & Hu & Hl2 & Hheld & Htc & Hev & Hrest & _).
  pose proof Hrest as (He & _ & _ & Hname).
  set (s1 := mkTwinState (mkHubState (mkStore w2 (st_heap (hub_store (tw_hub s))) (next_item (hub_store (tw_hub s))))
    (hub_client (tw_hub s)) (iotHubAdapterLock (tw_hub s)) (connectionString (tw_hub s))) (tw_items s) (tw_payloads s) (tw_next s)).
  assert (Hkept : forall items, sync_holds queue (hub_store (tw_hub s)) items -> sync_holds queue (hub_store (tw_hub s1)) items).
  { intros l H. by apply (sync_holds_configured queue (hub_store (tw_hub s)) l w2). }
  assert (Hstart : apply_work_item task (Some (wk_item w)) sizeof_UpdateTwinTaskItem s =
    (match r with
     | TWIN_OK | TWIN_PARSE_EXCEPTION => _ <- UpdateTwinTask_UpdateTwinReportedProperties (iothubClient task) ;; ret tt
     | _ => ret tt
     end) s1).
  { unfold apply_work_item. cbn [Z.eqb sizeof_UpdateTwinTaskItem negb Pos.eqb].
    unfold bind at 1, load_twin_item. rewrite Hitems, items_of_head. cbv beta iota.
    unfold bind at 1, load_payload. cbn [twinPayload item_of]. rewrite Hpay, payloads_of_head. cbv beta iota.
    replace (bool_decide (state (item_of w) = TWIN_COMPLETE)) with (wk_complete w)
      by (unfold item_of; cbn; by destruct (wk_complete w)).
    rewrite (bind_eq _ _ _ _ _ (in_twin_world_run _ _ _ _ Hu)). done. }
  assert (Hdone : reports (hub_client (tw_hub s)) (hub_client (tw_hub s)) None) by done.
  destruct (Report_run a h name s1) as (ok & n & c & Hrep & Hc); [| done | by rewrite <- Hn | done | done |].
  { unfold reliable in *. cbn in *. by rewrite He. }
  assert (Hbumped : forall n items, sync_holds queue (hub_store (tw_hub s)) items ->
    sync_holds queue (mkStore (bump n w2) (st_heap (hub_store (tw_hub s))) (next_item (hub_store (tw_hub s)))) items).
  { intros m l H. exact (proj2 (sync_holds_bump _ _ _ m (Hkept l H))). }
  rewrite Hstart, Hu.
  assert (Hend : forall n c, reports (hub_client (tw_hub s)) c (report_after r name w2) ->
    exists r' w2' n' c' s', Some (tt, mkTwinState (hub_later n c (tw_hub s1)) (tw_items s1) (tw_payloads s1) (tw_next s1)) = Some (tt, s') /\
      Some (r, w2) = Some (r', w2') /\
      s' = mkTwinState (mkHubState (mkStore (bump n' w2') (st_heap (hub_store (tw_hub s))) (next_item (hub_store (tw_hub s)))) c'
           (iotHubAdapterLock (tw_hub s)) (connectionString (tw_hub s))) (tw_items s) (tw_payloads s) (tw_next s) /\
      (forall items, sync_holds queue (hub_store (tw_hub s)) items -> sync_holds queue (hub_store (tw_hub s')) items) /\
      reports (hub_client (tw_hub s)) c' (report_after r' name w2')).
  { intros m d Hd. exists r, w2, m, d. eexists. split; [reflexivity|]. split; [done|]. split; [reflexivity|].
    split; [apply Hbumped | exact Hd]. }
  assert (Hs1 : mkTwinState (hub_later 0 (hub_client (tw_hub s)) (tw_hub s1)) (tw_items s1) (tw_payloads s1) (tw_next s1) = s1)
    by (unfold s1, hub_later, hub_world; cbn; by rewrite bump_0).
  rewrite Ha. destruct r; cbn [report_after] in *.
  1, 4: rewrite (bind_eq _ _ _ _ _ Hrep); by apply Hend.
  all: pose proof (Hend 0%nat (hub_client (tw_hub s)) Hdone) as E; rewrite Hs1 in E; exact E.
Qed.


(** ** Properties *)

(** C36: While no allocation and no lock call fails, a twin that the library
    hands over is queued or dropped as a whole.  A twin that is not empty and
    that the memory monitor accepts is queued as the last one, with all its
    bytes, and the adapter has its configuration from then on; an empty one, or
    one that the monitor refuses, leaves the adapter and the queue as before.
    In both cases exactly the queued twins stay allocated.  An allocation that
    fails breaks this: [lost_payload_dangles] below. *)
Theorem DeviceTwinCallback_correct isComplete payload a queue s works :
  twins_queued queue s works -> Z.of_nat (List.length works) < UINT32_MAX ->
  exists a' queue' s' works', IoTHubAdapter_DeviceTwinCallback isComplete payload (Some a) queue s = Some ((Some a', queue'), s') /\
    twins_queued queue' s' works' /\ only_monitor (twin_world s) (twin_world s') /\ same_hub s s' /\
    if negb (strlen payload =? 0) && granted (twin_world s) (Queue_CalculateItemSize sizeof_UpdateTwinTaskItem) then
      a' = set_hasTwinConfiguration a /\ exists i p, works' = works ++ [mkWork i p payload isComplete]
    else a' = a /\ works' = works.
Proof.
  intros Hq Hlen. destruct (Z.eqb_spec (strlen payload) 0) as [H0|Hne].
  - exists a, queue, s, works. unfold IoTHubAdapter_DeviceTwinCallback. rewrite H0. cbn.
    repeat (split; [done || apply only_monitor_refl|]). done.
  - by apply Callback_run.
Qed.

(** C35: One execution of the task applies the oldest queued twin.  It passes
    the twin's bytes, up to the first NUL, to the configuration exactly once;
    when the update succeeds, or fails to parse, and the configuration that is
    then in force can be serialised, its text is handed to the library once: it
    is reported, or the library's call failed on it; in every other case the
    library is not called; afterwards the twin is not queued any more, its
    memory is freed, and the others wait as before.  No lock or allocation
    fails, the adapter has a live handle, the empty JSON object parses, and the
    twin's numbers fit the conversion to an integer. *)
Theorem Execute_applies a h name queue s w works :
  twins_queued queue s (w :: works) -> Z.of_nat (List.length (w :: works)) < UINT32_MAX ->
  moduleHandle a = Some h -> live (hub_client (tw_hub s)) h ->
  twinConfigurationObjectName (twin_world s) = Some name -> is_Some (open_document "{}") ->
  (forall reader, twin_section (until_nul (wk_bytes w)) (wk_complete w) name = Some (inr reader) -> numbers_fit reader) ->
  exists r w1 w2 n queue' s',
    UpdateTwinTask_Execute (mkUpdateTwinTask (Some queue) (Some a)) s =
      Some (mkUpdateTwinTask (Some queue') (Some a), s') /\
    twins_queued queue' s' works /\
    only_monitor (twin_world s) w1 /\
    TwinConfiguration_Update (until_nul (wk_bytes w)) (wk_complete w) w1 = Some (r, w2) /\
    twin_world s' = bump n w2 /\
    reports (hub_client (tw_hub s)) (hub_client (tw_hub s')) (report_after r name w2).
Proof.
  intros Hq Hlen Hh Hlive Hn H0 Hfit.
  pose proof Hq as ((items & Hsq & Hit) & Hitems & Hpay & Hnd & Hnd' & Hf).
  destruct items as [|[b [d n]] items]; [done|]. cbn in Hit. injection Hit as -> -> Hit.
  assert (Hl : Z.of_nat (List.length ((b, (Some (wk_item w), sizeof_UpdateTwinTaskItem)) :: items)) < UINT32_MAX)
    by (cbn [List.length] in *; by rewrite (queued_length _ _ Hit)).
  destruct (SyncGetSize_run queue _ _ Hsq) as (q1 & st1 & Hsize & Hsq1 & Ho1 & _).
  unfold UpdateTwinTask_Execute. cbn [updateQueue iothubClient].
  rewrite (bind_eq _ _ _ _ _ (in_queue_run _ s _ _ Hsize)). cbv beta iota zeta.
  rewrite (proj2 (Z.eqb_neq _ _)) by (cbn [List.length]; lia).
  set (s1 := mkTwinState (mkHubState st1 _ _ _) _ _ _).
  destruct (SyncPopFront_run q1 (hub_store (tw_hub s1)) _ Hsq1 Hl) as (q2 & st2 & Hpop & Hsq2 & Ho2 & _).
  rewrite (bind_eq _ _ _ _ _ (in_queue_run _ s1 _ _ Hpop)). cbv beta iota. cbn [mbind option_bind fst].
  set (s2 := mkTwinState (mkHubState st2 _ _ _) _ _ _).
  assert (Ho : only_monitor (twin_world s) (twin_world s2)) by (by eapply only_monitor_trans).
  destruct (apply_run (mkUpdateTwinTask (Some queue) (Some a)) a h name w works q2 s2)
    as (r & w2 & m & c & s3 & Happly & Hu & Hs3 & Hq3 & Hrep); try done.
  { by exists items. }
  { by destruct Ho as (_ & _ & _ & _ & -> & _). }
  rewrite (bind_eq _ _ _ _ _ Happly). unfold release_work_item.
  assert (H1 : tw_items s3 !! wk_item w = Some (item_of w)) by (rewrite Hs3; cbn; rewrite Hitems; apply items_of_head).
  assert (H2 : tw_payloads s3 !! wk_payload w = Some (wk_bytes w)) by (rewrite Hs3; cbn; rewrite Hpay; apply payloads_of_head).
  rewrite (bind_eq _ _ _ _ _ (DeinitItem_run s3 _ _ _ _ H1 eq_refl H2)).
  exists r, (twin_world s2), w2, m, q2. eexists. split; [reflexivity|].
  split; [|split; [exact Ho|]; split; [exact Hu|]; subst s3; by split].
  apply NoDup_cons in Hnd as [Hi1 Hnd]. apply NoDup_cons in Hnd' as [Hp1 Hnd'].
  split; [exists items; split; [by apply Hq3 | done]|].
  rewrite Hs3. cbn [tw_items tw_payloads tw_next s2 s1]. rewrite Hitems, Hpay.
  split; [|split; [|split; [done|]; split; [done|]; by apply Forall_cons in Hf as [_ ?]]].
  - unfold items_of. cbn. apply delete_insert_id, not_elem_of_list_to_map_1. by rewrite <- list_fmap_compose.
  - unfold payloads_of. cbn. apply delete_insert_id, not_elem_of_list_to_map_1. by rewrite <- list_fmap_compose.
Qed.

(** The task can only be deinitialised when no twin is queued: a queued one
    is freed through a pointer that is not one, and the behaviour is undefined. *)
Theorem Deinit_needs_empty_queue fuel client queue s works :
  twins_queued queue s works -> Z.of_nat (List.length works) < UINT32_MAX ->
  match works with
  | [] => exists queue' s', UpdateTwinTask_Deinit fuel (mkUpdateTwinTask (Some queue) client) s =
            Some ((mkUpdateTwinTask None None, queue'), s') /\ twins_queued queue' s' []
  | _ => UpdateTwinTask_Deinit fuel (mkUpdateTwinTask (Some queue) client) s = None
  end.
Proof.
  intros Hq Hlen. pose proof Hq as ((items & Hsq & Hit) & Hrest).
  destruct (SyncGetSize_run queue _ _ Hsq) as (q1 & st1 & Hsize & Hsq1 & Ho1 & _).
  unfold UpdateTwinTask_Deinit. cbn [updateQueue]. rewrite (bind_eq _ _ _ _ _ (in_queue_run _ s _ _ Hsize)). cbv beta iota.
  pose proof (queued_length _ _ Hit) as Hl. destruct works as [|w works].
  - destruct items; [|done]. exists q1. eexists. split; [by destruct fuel|]. split; [|exact Hrest]. by exists [].
  - destruct items as [|[b [d n]] items]; [done|]. cbn in Hit. injection Hit as -> -> Hit.
    unfold bind at 1. destruct fuel as [|fuel]; cbn [Deinit_loop];
      rewrite (proj2 (Z.ltb_lt _ _)) by (cbn [List.length]; lia); [done|].
    set (s1 := mkTwinState (mkHubState st1 _ _ _) _ _ _).
    destruct (SyncPopFront_run q1 (hub_store (tw_hub s1)) _ Hsq1) as (q2 & st2 & Hpop & _ & _).
    { by rewrite Hl. }
    rewrite (bind_eq _ _ _ _ _ (in_queue_run _ s1 _ _ Hpop)). cbv beta iota.
    unfold deinit_through_item, bind at 1, bind at 1, load_twin_item. cbn [tw_items s1].
    destruct Hrest as (-> & _). by rewrite items_of_head.
Qed.

End UpdateTwin.

(** ** Witnesses *)

Definition accepts : nat -> bool := fun _ => true.

(** One complete twin waits in the queue. *)
Definition waiting_queue : SyncQueue :=
  mkSyncQueue (mkQueue (Some 0%nat) (Some 0%nat) 1 false (mkSyncedCounter zero_counter (Some 7%nat))) (Some 8%nat).

Definition waiting : Work := mkWork 0 1 "complete" true.

Definition waiting_store (e : Env) : Store (D := option nat) :=
  mkStore (running_world e) {[ 0%nat := mkItem (Some 0%nat) 16 None None ]} 1.

Definition twin_hub (st : Store (D := option nat)) : @HubState (option nat) (log_client accepts) :=
  @mkHubState (option nat) (log_client accepts) st test_client (Some 5%nat) "connection"%string.

Definition waiting_state : @TwinState (log_client accepts) :=
  @mkTwinState (log_client accepts) (twin_hub (waiting_store good_env)) (items_of [waiting]) (payloads_of [waiting]) 2.

Lemma waiting_queued : @twins_queued synchronized_monitor (log_client accepts) waiting_queue waiting_state [waiting].
Proof.
  split; [|split; [done|]; split; [done|]; split; [apply NoDup_singleton|]; split; [apply NoDup_singleton|]].
  - exists [(0%nat, (Some 0%nat, 16))]. split; [|done]. exists 8%nat. split; [done|]. split; [apply not_elem_of_empty|].
    split; [exact empty_section_ready|].
    split; [split; [done|]; exists None; split; done|]. split; [apply NoDup_singleton|]. split; [done|].
    intros a [x Hx]. cbn in Hx. apply lookup_singleton_Some in Hx as [<- _]. cbn. lia.
  - repeat constructor.
Qed.

Lemma DeviceTwinCallback_correct_witness :
  exists a' queue' s' works',
    @IoTHubAdapter_DeviceTwinCallback synchronized_monitor (log_client accepts) false "patch" (Some (test_adapter accepts))
      waiting_queue waiting_state = Some ((Some a', queue'), s') /\
    @twins_queued synchronized_monitor (log_client accepts) queue' s' works' /\ map wk_bytes works' = ["complete"; "patch"]%string.
Proof.
  destruct (@DeviceTwinCallback_correct synchronized_monitor (log_client accepts) _ false "patch" (test_adapter accepts)
    waiting_queue waiting_state [waiting] waiting_queued) as (a' & q & s' & works' & H & Hq & _ & _ & Hw); [by vm_compute|].
  assert (E : negb (strlen "patch" =? 0) && granted (twin_world waiting_state) (Queue_CalculateItemSize sizeof_UpdateTwinTaskItem) = true)
    by (vm_compute; reflexivity).
  rewrite E in Hw. destruct Hw as (_ & i & p & Hw). exists a', q, s', works'. split; [exact H|]. split; [exact Hq|].
  rewrite Hw. reflexivity.
Defined.

(** A library that writes a document as the name of its only member. *)
Definition print_name (d : json) : string :=
  match d with JObj [(name, _)] => ("twin " ++ name)%string | _ => "other"%string end.

Definition printing_parson : Parson := model_parson sample_parse print_name.

Definition printing_section : @JsonObjectReader printing_parson :=
  @mkReader printing_parson sample_complete true [inl "desired"%string; inl SECTION] true.

(** The twin is applied, freed and reported. *)
Lemma Execute_applies_witness :
  exists task' s',
    @UpdateTwinTask_Execute printing_parson synchronized_monitor (log_client accepts)
      (mkUpdateTwinTask (Some waiting_queue) (Some (test_adapter accepts))) waiting_state = Some (task', s') /\
    tw_items s' = ∅ /\ tw_payloads s' = ∅ /\
    tc_maxLocalCacheSize (twinConfiguration (twin_world s')) = 2560000 /\
    lg_reported (hub_client (tw_hub s')) = [("twin " ++ SECTION)%string].
Proof.
  destruct (@Execute_applies printing_parson synchronized_monitor (log_client accepts) _ _ _ (test_adapter accepts) 0%nat SECTION
    waiting_queue waiting_state waiting [] waiting_queued) as (r & w1 & w2 & n & q & s' & H & Hq & _).
  - by vm_compute.
  - reflexivity.
  - split; [apply (proj2 (elem_of_singleton 0%nat 0%nat) eq_refl) | cbn; lia].
  - reflexivity.
  - by eexists.
  - intros reader Hr. assert (Hs : @twin_section printing_parson "complete" true SECTION = Some (inr printing_section))
      by (vm_compute; reflexivity).
    change (until_nul (wk_bytes waiting)) with "complete"%string in Hr. change (wk_complete waiting) with true in Hr.
    rewrite Hs in Hr. injection Hr as <-. split; vm_compute; discriminate.
  - eexists _, s'. split; [exact H|]. pose proof Hq as (_ & H1 & H2 & _). split; [by rewrite H1|]. split; [by rewrite H2|].
    assert (E : option_map (fun x => (tc_maxLocalCacheSize (twinConfiguration (twin_world (snd x))),
        lg_reported (@hub_client _ (log_client accepts) (tw_hub (snd x)))))
      (@UpdateTwinTask_Execute printing_parson synchronized_monitor (log_client accepts)
        (mkUpdateTwinTask (Some waiting_queue) (Some (test_adapter accepts))) waiting_state) =
      Some (2560000, [("twin " ++ SECTION)%string])) by (vm_compute; reflexivity).
    rewrite H in E. apply (inj Some) in E. by apply pair_equal_spec in E.
Defined.

Lemma Deinit_needs_empty_queue_witness :
  @UpdateTwinTask_Deinit synchronized_monitor (log_client accepts) 5 (mkUpdateTwinTask (Some waiting_queue) None) waiting_state
  = None.
Proof.
  apply (@Deinit_needs_empty_queue synchronized_monitor (log_client accepts) _ 5 None waiting_queue waiting_state [waiting]
    waiting_queued). vm_compute; reflexivity.
Defined.

(** An empty queue, and no memory for the second block that is asked for. *)
Definition short_of_memory : @TwinState (log_client accepts) :=
  @mkTwinState (log_client accepts) (twin_hub (mkStore (running_world (failing_env 1)) ∅ 0)) ∅ ∅ 0.

(** The adapter has its twin, one address is queued, the item is not there any
    more, and the task's execution is undefined. *)
Definition after_lost_payload (isComplete : bool) (payload : string) : option (bool * Z * option UpdateTwinTaskItem * bool) :=
  match @IoTHubAdapter_DeviceTwinCallback synchronized_monitor (log_client accepts) isComplete payload
          (Some (test_adapter accepts)) (mkSyncQueue empty_queue (Some 8%nat)) short_of_memory with
  | Some ((Some a, queue), s) =>
      Some (hasTwinConfiguration a, numberOfElements (sq_queue queue), tw_items s !! 0%nat,
            match @UpdateTwinTask_Execute sample_parson synchronized_monitor (log_client accepts)
                    (mkUpdateTwinTask (Some queue) (Some a)) s with None => true | Some _ => false end)
  | _ => None
  end.

(** When there is no memory for a twin's payload, the address of the freed
    item is queued all the same, the adapter counts the twin as received, and
    the task that takes it reads freed memory: the behaviour is undefined. *)
Theorem lost_payload_dangles isComplete c payload :
  after_lost_payload isComplete (String c payload) = Some (true, 1, None, true).
Proof. vm_compute. reflexivity. Qed.
