(* ===== verification/EventMonitor.v ===== *)
(** * [tasks/event_monitor_task.c]: running the collectors

    The task runs the periodic collectors with one period and the triggered
    ones with another, each on the queue of the priority that the twin gives
    its type of event.  The collectors are an interface: a state that contains
    the program's statics, a function per collector, and what the task relies
    on. *)

From S2P Require Import Prelude TwinDefs World TimeUtils TwinCollectors TwinConfiguration MemoryMonitor Telemetry Queue SyncQueue GenericEvent.
From Stdlib Require Import String.
Open Scope Z_scope.

(** ** The collectors *)

(** The functions of type [EventCollectorFunc] that the task calls. *)
Inductive Collector : Type :=
  | AgentTelemetryCollector
  | LocalUsersCollector
  | SystemInformationCollector
  | ListeningPortCollector
  | FirewallCollector
  | BaselineCollector
  | DiagnosticEventCollector
  | AgentConfigurationErrorCollector
  | ProcessCreationCollector
  | UserLoginCollector
  | ConnectionCreateEventCollector.

(** A collector gets the queue and leaves it changed.  Two of them are
    initialised. *)
Class Collectors (S : Type) : Type := {
  GetEvents : Collector -> SyncQueue -> M S (EventCollectorResult * SyncQueue);
  ProcessCreationCollector_Init : M S EventCollectorResult;
  ProcessCreationCollector_Deinit : M S unit;
  ConnectionCreateEventCollector_Init : M S EventCollectorResult;
  ConnectionCreateEventCollector_Deinit : M S unit;
}.

(** What the pointers of the task point to. *)
Record EventMonitorTask : Type := mkMonitorTask {
  operationalEventsQueue : option SyncQueue;
  highPriorityQueue : option SyncQueue;
  lowPriorityQueue : option SyncQueue;
  lastPeriodicExecution : Z;
  lastTriggeredExecution : Z;
}.

Section EventMonitor.
Context {S : Type} {W : HasWorld S} {Coll : Collectors S}.

(** [LocalConfiguration_GetTriggeredEventInterval()] *)
Variable triggeredEventInterval : Z.

Definition EventMonitorTask_InitCollectors : M S bool :=
  r <- ProcessCreationCollector_Init ;;
  require bool_decide (r = EVENT_COLLECTOR_OK) else false ;;
  r <- ConnectionCreateEventCollector_Init ;;
  require bool_decide (r = EVENT_COLLECTOR_OK) else false ;;
  ret true.

Definition EventMonitorTask_DeinitCollectors : M S unit :=
  ProcessCreationCollector_Deinit ;;;
  ConnectionCreateEventCollector_Deinit.

Definition EventMonitorTask_Init (high low operational : option SyncQueue) : M S (bool * EventMonitorTask) :=
  ok <- EventMonitorTask_InitCollectors ;;
  ret (ok, mkMonitorTask operational high low 0 0).

Definition EventMonitorTask_Deinit (task : EventMonitorTask) : M S EventMonitorTask :=
  EventMonitorTask_DeinitCollectors ;;;
  ret (mkMonitorTask (operationalEventsQueue task) None None (lastPeriodicExecution task) (lastTriggeredExecution task)).

Definition set_operational (q : SyncQueue) (t : EventMonitorTask) : EventMonitorTask :=
  mkMonitorTask (Some q) (highPriorityQueue t) (lowPriorityQueue t) (lastPeriodicExecution t) (lastTriggeredExecution t).
Definition set_high (q : SyncQueue) (t : EventMonitorTask) : EventMonitorTask :=
  mkMonitorTask (operationalEventsQueue t) (Some q) (lowPriorityQueue t) (lastPeriodicExecution t) (lastTriggeredExecution t).
Definition set_low (q : SyncQueue) (t : EventMonitorTask) : EventMonitorTask :=
  mkMonitorTask (operationalEventsQueue t) (highPriorityQueue t) (Some q) (lastPeriodicExecution t) (lastTriggeredExecution t).

(** The result of the collector is only logged. *)
Definition EventMonitorTask_MonitorSingleEvents (task : EventMonitorTask) (eventType : TwinConfigurationEventType)
    (collector : Collector) : M S (bool * EventMonitorTask) :=
  let* (r, priority) := up (TwinConfigurationEventCollectors_GetPriority eventType) in
  match r, priority with
  | TWIN_OK, Some EVENT_PRIORITY_OPERATIONAL =>
      queue <- deref (operationalEventsQueue task) ;;
      let* (_, queue) := GetEvents collector queue in
      ret (true, set_operational queue task)
  | TWIN_OK, Some EVENT_PRIORITY_HIGH =>
      queue <- deref (highPriorityQueue task) ;;
      let* (_, queue) := GetEvents collector queue in
      ret (true, set_high queue task)
  | TWIN_OK, Some EVENT_PRIORITY_LOW =>
      queue <- deref (lowPriorityQueue task) ;;
      let* (_, queue) := GetEvents collector queue in
      ret (true, set_low queue task)
  | TWIN_OK, _ => ret (true, task)
  | _, _ => ret (false, task)
  end.

(** The calls of [MonitorSingleEvents], left at the first that fails. *)
Fixpoint monitor_all (l : list (TwinConfigurationEventType * Collector)) (task : EventMonitorTask)
    : M S (bool * EventMonitorTask) :=
  match l with
  | [] => ret (true, task)
  | (eventType, collector) :: l =>
      let* (ok, task) := EventMonitorTask_MonitorSingleEvents task eventType collector in
      require ok else (false, task) ;;
      monitor_all l task
  end.

Definition periodic_events : list (TwinConfigurationEventType * Collector) :=
  [ (EVENT_TYPE_OPERATIONAL_EVENT, AgentTelemetryCollector);
    (EVENT_TYPE_LOCAL_USERS, LocalUsersCollector);
    (EVENT_TYPE_SYSTEM_INFORMATION, SystemInformationCollector);
    (EVENT_TYPE_LISTENING_PORTS, ListeningPortCollector);
    (EVENT_TYPE_FIREWALL_CONFIGURATION, FirewallCollector);
    (EVENT_TYPE_BASELINE, BaselineCollector);
    (EVENT_TYPE_DIAGNOSTIC, DiagnosticEventCollector) ].

Definition EventMonitorTask_MonitorPeriodicEvents (task : EventMonitorTask) : M S (bool * EventMonitorTask) :=
  monitor_all periodic_events task.

Definition triggered_events : list (TwinConfigurationEventType * Collector) :=
  [ (EVENT_TYPE_OPERATIONAL_EVENT, AgentConfigurationErrorCollector);
    (EVENT_TYPE_PROCESS_CREATE, ProcessCreationCollector);
    (EVENT_TYPE_USER_LOGIN, UserLoginCollector);
    (EVENT_TYPE_CONNECTION_CREATE, ConnectionCreateEventCollector);
    (EVENT_TYPE_DIAGNOSTIC, DiagnosticEventCollector) ].

Definition EventMonitorTask_MonitorTriggeredEvents (task : EventMonitorTask) : M S (bool * EventMonitorTask) :=
  monitor_all triggered_events task.

Definition set_lastPeriodicExecution (now : Z) (t : EventMonitorTask) : EventMonitorTask :=
  mkMonitorTask (operationalEventsQueue t) (highPriorityQueue t) (lowPriorityQueue t) now (lastTriggeredExecution t).
Definition set_lastTriggeredExecution (now : Z) (t : EventMonitorTask) : EventMonitorTask :=
  mkMonitorTask (operationalEventsQueue t) (highPriorityQueue t) (lowPriorityQueue t) (lastPeriodicExecution t) now.

Definition EventMonitorTask_Execute (task : EventMonitorTask) : M S EventMonitorTask :=
  let* (r, periodicFrequency) := up TwinConfiguration_GetSnapshotFrequency in
  match r, periodicFrequency with
  | TWIN_OK, Some periodicFrequency =>
      currentTime <- up TimeUtils_GetCurrentTime ;;
      timeDiff <- up (TimeUtils_GetTimeDiff currentTime (lastPeriodicExecution task)) ;;
      task <- (if periodicFrequency <=? u32 timeDiff then
                 let* (_, task) := EventMonitorTask_MonitorPeriodicEvents (set_lastPeriodicExecution currentTime task) in
                 ret task
               else ret task) ;;
      timeDiff <- up (TimeUtils_GetTimeDiff currentTime (lastTriggeredExecution task)) ;;
      if triggeredEventInterval <=? u32 timeDiff then
        let* (_, task) := EventMonitorTask_MonitorTriggeredEvents (set_lastTriggeredExecution currentTime task) in
        ret task
      else ret task
  | _, _ => ret task
  end.

(** ** Specification *)

(** The queue of a priority. *)
Definition queue_of (p : TwinConfigurationEventPriority) (t : EventMonitorTask) : option SyncQueue :=
  match p with
  | EVENT_PRIORITY_OPERATIONAL => operationalEventsQueue t
  | EVENT_PRIORITY_HIGH => highPriorityQueue t
  | EVENT_PRIORITY_LOW => lowPriorityQueue t
  | EVENT_PRIORITY_OFF => None
  end.

Definition set_queue (p : TwinConfigurationEventPriority) (q : SyncQueue) (t : EventMonitorTask) : EventMonitorTask :=
  match p with
  | EVENT_PRIORITY_OPERATIONAL => set_operational q t
  | EVENT_PRIORITY_HIGH => set_high q t
  | EVENT_PRIORITY_LOW => set_low q t
  | EVENT_PRIORITY_OFF => t
  end.

(** The collectors whose events the configuration wants, with their priorities. *)
Definition selected (e : TwinConfigurationEventCollectors) (l : list (TwinConfigurationEventType * Collector))
    : list (Collector * TwinConfigurationEventPriority) :=
  filter (fun x => snd x <> EVENT_PRIORITY_OFF) (map (fun x => (snd x, priority_of (fst x) e)) l).

(** The collectors of the list were run in this order, each once and on the
    queue of its priority; between them only time passed. *)
Inductive collected : list (Collector * TwinConfigurationEventPriority) ->
    EventMonitorTask -> S -> EventMonitorTask -> S -> Prop :=
  | collected_none n t s : collected [] t s t (elapse n s)
  | collected_one c p l n t s q r q' s1 t' s' :
      queue_of p t = Some q -> GetEvents c q (elapse n s) = Some ((r, q'), s1) ->
      collected l (set_queue p q' t) s1 t' s' -> collected ((c, p) :: l) t s t' s'.

(** What the task relies on: from queues and a state that are [ready], every
    collector returns, and leaves them ready and the configuration unchanged. *)
Class CollectorsLaws : Type := {
  collectors_ready : SyncQueue -> SyncQueue -> SyncQueue -> S -> Prop;
  ready_reliable : forall o h l s, collectors_ready o h l s -> reliable (world_of s);
  ready_settings : forall o h l s, collectors_ready o h l s -> locks_ready (world_of s);
  ready_later : forall o h l n s, collectors_ready o h l s -> collectors_ready o h l (elapse n s);
  collector_law : forall c p o h l s q,
    collectors_ready o h l s -> queue_of p (mkMonitorTask (Some o) (Some h) (Some l) 0 0) = Some q ->
    exists r q' s', GetEvents c q s = Some ((r, q'), s') /\
      env (world_of s') = env (world_of s) /\ eventPriorities (world_of s') = eventPriorities (world_of s) /\
      twinConfiguration (world_of s') = twinConfiguration (world_of s) /\
      match p with
      | EVENT_PRIORITY_OPERATIONAL => collectors_ready q' h l s'
      | EVENT_PRIORITY_HIGH => collectors_ready o q' l s'
      | _ => collectors_ready o h q' s'
      end;
}.

(** The task's queues and the state are ready. *)
Definition task_ready {Laws : CollectorsLaws} (t : EventMonitorTask) (s : S) : Prop :=
  exists o h l, operationalEventsQueue t = Some o /\ highPriorityQueue t = Some h /\ lowPriorityQueue t = Some l /\
    collectors_ready o h l s.

(** ** Lemmas *)

Context {Laws : CollectorsLaws}.

Lemma up_run {A} (m : M World A) a n s : m (world_of s) = Some (a, bump n (world_of s)) -> up m s = Some (a, elapse n s).
Proof. intros H. unfold up, elapse. by rewrite H. Qed.

Lemma task_ready_later t n s : task_ready t s -> task_ready t (elapse n s).
Proof. intros (o & h & l & H1 & H2 & H3 & H4). exists o, h, l. repeat split; try done. by apply ready_later. Qed.

(** One collector, and the time the priority took to read. *)
Lemma single_run t s eventType c :
  task_ready t s ->
  exists t' s', EventMonitorTask_MonitorSingleEvents t eventType c s = Some ((true, t'), s') /\ task_ready t' s' /\
    env (world_of s') = env (world_of s) /\ eventPriorities (world_of s') = eventPriorities (world_of s) /\
    twinConfiguration (world_of s') = twinConfiguration (world_of s) /\
    lastPeriodicExecution t' = lastPeriodicExecution t /\ lastTriggeredExecution t' = lastTriggeredExecution t /\
    let p := priority_of eventType (eventPriorities (world_of s)) in
    if decide (p = EVENT_PRIORITY_OFF) then t' = t /\ s' = elapse 2 s
    else exists q r q', queue_of p t = Some q /\ GetEvents c q (elapse 2 s) = Some ((r, q'), s') /\ t' = set_queue p q' t.
Proof.
  intros Ht. pose proof Ht as (o & h & l & H1 & H2 & H3 & Hr).
  pose proof (GetPriority_run eventType _ (ready_reliable _ _ _ _ Hr) (proj1 (ready_settings _ _ _ _ Hr))) as Hp.
  unfold EventMonitorTask_MonitorSingleEvents. rewrite (bind_eq _ _ _ _ _ (up_run _ _ _ _ Hp)). cbv zeta.
  set (p := priority_of eventType _).
  pose proof (ready_later _ _ _ 2 _ Hr) as Hr2.
  assert (Hlaw := fun q => collector_law c p o h l (elapse 2 s) q Hr2).
  rewrite !world_of_elapse in Hlaw. cbn [bump set_tick env eventPriorities twinConfiguration] in Hlaw.
  destruct (decide (p = EVENT_PRIORITY_OFF)) as [->|Hoff].
  { exists t, (elapse 2 s). rewrite world_of_elapse. split; [done|]. split; [by apply task_ready_later|]. done. }
  destruct p; [| | |done]; cbn [queue_of set_queue operationalEventsQueue highPriorityQueue lowPriorityQueue] in *;
    destruct (Hlaw _ eq_refl) as (r & q' & s' & Hg & E1 & E2 & E3 & Hr'); rewrite ?H1, ?H2, ?H3; cbn [deref];
    rewrite bind_ret_l, (bind_eq _ _ _ _ _ Hg); eexists _, s'; (split; [reflexivity|]);
    (split; [eexists _, _, _; cbn; rewrite ?H1, ?H2, ?H3; by repeat split|]); do 5 (split; [done|]); by eexists _, r, q'.
Qed.

Lemma collected_later l t n s t' s' : collected l t (elapse n s) t' s' -> collected l t s t' s'.
Proof.
  intros H. inversion H as [m | c p l' m t0 s0 q r q' s1 t1 s2 Hq Hg Hc]; subst.
  - rewrite elapse_elapse. constructor.
  - rewrite elapse_elapse in Hg. by econstructor.
Qed.

Lemma collected_app l1 l2 t s t1 s1 t2 s2 :
  collected l1 t s t1 s1 -> collected l2 t1 s1 t2 s2 -> collected (l1 ++ l2) t s t2 s2.
Proof.
  induction 1 as [n t s|]; intros H2; [by eapply collected_later|]. cbn. econstructor; [done | done |]. by auto.
Qed.

Definition with_times (periodic triggered : Z) (t : EventMonitorTask) : EventMonitorTask :=
  mkMonitorTask (operationalEventsQueue t) (highPriorityQueue t) (lowPriorityQueue t) periodic triggered.

Lemma collected_times a b l t s t' s' : collected l t s t' s' -> collected l (with_times a b t) s (with_times a b t') s'.
Proof.
  induction 1 as [|c p l n t s q r q' s1 t' s' Hq Hg _ IH]; [constructor|].
  eapply collected_one; [by destruct p | exact Hg |].
  replace (set_queue p q' (with_times a b t)) with (with_times a b (set_queue p q' t)) by (by destruct p). done.
Qed.

(** What the task keeps while its collectors run. *)
Definition keeps_settings (s s' : S) : Prop :=
  env (world_of s') = env (world_of s) /\ eventPriorities (world_of s') = eventPriorities (world_of s) /\
  twinConfiguration (world_of s') = twinConfiguration (world_of s).

Lemma monitor_all_run l t s :
  task_ready t s ->
  exists t' s', monitor_all l t s = Some ((true, t'), s') /\ task_ready t' s' /\ keeps_settings s s' /\
    lastPeriodicExecution t' = lastPeriodicExecution t /\ lastTriggeredExecution t' = lastTriggeredExecution t /\
    collected (selected (eventPriorities (world_of s)) l) t s t' s'.
Proof.
  revert t s. induction l as [|[ty c] l IH]; intros t s Ht; cbn [monitor_all].
  - exists t, s. do 5 (split; [done|]). pose proof (collected_none 0 t s) as H. rewrite elapse_0 in H. exact H.
  - destruct (single_run t s ty c Ht) as (t1 & s1 & H1 & Ht1 & E1 & E2 & E3 & L1 & L2 & Hone).
    rewrite (bind_eq _ _ _ _ _ H1). destruct (IH t1 s1 Ht1) as (t2 & s2 & H2 & Ht2 & (F1 & F2 & F3) & L3 & L4 & Hc).
    exists t2, s2. split; [exact H2|]. split; [exact Ht2|]. split; [unfold keeps_settings; repeat split; congruence|].
    split; [congruence|]. split; [congruence|]. rewrite E2 in Hc.
    unfold selected in *. cbn [map fst snd]. cbv zeta in Hone. rewrite filter_cons. cbn [snd].
    destruct (decide (priority_of ty (eventPriorities (world_of s)) = EVENT_PRIORITY_OFF)) as [Hoff|Hon].
    + rewrite decide_False by tauto. destruct Hone as [-> ->]. by apply collected_later in Hc.
    + rewrite decide_True by done. destruct Hone as (q & r & q' & Hq & Hg & ->). by eapply collected_one.
Qed.

Lemma diff_run now last s :
  INT32_MIN <= (now - last) * 1000 <= INT32_MAX -> up (TimeUtils_GetTimeDiff now last) s = Some ((now - last) * 1000, s).
Proof.
  intros H. unfold up, TimeUtils_GetTimeDiff. rewrite (proj2 (andb_true_iff _ _)) by (split; lia).
  unfold ret. by rewrite with_world_of.
Qed.

(** The time that an execution from [s] reads. *)
Definition execution_time (s : S) : Z := env_time (env (world_of s)) (2 + tick (world_of s)).

Lemma start_run s o h l :
  collectors_ready o h l s ->
  up TwinConfiguration_GetSnapshotFrequency s =
    Some ((TWIN_OK, Some (tc_snapshotFrequency (twinConfiguration (world_of s)))), elapse 2 s) /\
  up TimeUtils_GetCurrentTime (elapse 2 s) = Some (execution_time s, elapse 3 s).
Proof.
  intros Hr. pose proof (ready_settings _ _ _ _ Hr) as (_ & lk & Hl & Hh & _).
  pose proof (getter_reliable tc_snapshotFrequency _ lk (ready_reliable _ _ _ _ Hr) Hl Hh) as Hg.
  split; [by apply up_run|]. change 3%nat with (1 + 2)%nat. rewrite <- elapse_elapse. apply up_run. by rewrite world_of_elapse.
Qed.

(** ** Properties *)

(** C9: One execution runs exactly the collectors that are due, when each
    collector returns and leaves the queues ready ([CollectorsLaws]) and the times
    since the two groups were run last, in milliseconds, fit an [int32_t]. When
    the snapshot period has passed, the periodic ones, and when the triggered
    interval has passed, the triggered ones, in their order and each once, on the
    queue of the priority that its type of event is configured with, those that
    are off left out; a collector that fails stops none of the others. The time of
    a group is set exactly when the group is run. The first execution after the
    initialisation is not covered: its times are zero, the difference does not
    fit, and it is undefined, by [first_execution_undefined]. *)
Theorem Execute_collects task s :
  task_ready task s ->
  INT32_MIN <= (execution_time s - lastPeriodicExecution task) * 1000 <= INT32_MAX ->
  INT32_MIN <= (execution_time s - lastTriggeredExecution task) * 1000 <= INT32_MAX ->
  let now := execution_time s in
  let e := eventPriorities (world_of s) in
  let periodic := tc_snapshotFrequency (twinConfiguration (world_of s)) <=? u32 ((now - lastPeriodicExecution task) * 1000) in
  let triggered := triggeredEventInterval <=? u32 ((now - lastTriggeredExecution task) * 1000) in
  exists task' s', EventMonitorTask_Execute task s = Some (task', s') /\ task_ready task' s' /\ keeps_settings s s' /\
    collected ((if periodic then selected e periodic_events else []) ++ (if triggered then selected e triggered_events else []))
      (with_times (if periodic then now else lastPeriodicExecution task) (if triggered then now else lastTriggeredExecution task) task)
      s task' s'.
Proof.
  intros Ht Hp Htr now e periodic triggered. pose proof Ht as (o & h & l & _ & _ & _ & Hr).
  pose proof (task_ready_later task 3 s Ht) as Ht3.
  destruct (start_run s o h l Hr) as [Hg Hn]. fold now in Hn.
  unfold EventMonitorTask_Execute. rewrite (bind_eq _ _ _ _ _ Hg). cbv beta iota. rewrite (bind_eq _ _ _ _ _ Hn).
  rewrite (bind_eq _ _ _ _ _ (diff_run now _ (elapse 3 s) Hp)). fold periodic.
  assert (Hfirst : exists t1 s1, (if periodic then
      let* (_, task) := EventMonitorTask_MonitorPeriodicEvents (set_lastPeriodicExecution now task) in ret task
    else ret task) (elapse 3 s) = Some (t1, s1) /\ task_ready t1 s1 /\ keeps_settings s s1 /\
    lastTriggeredExecution t1 = lastTriggeredExecution task /\
    lastPeriodicExecution t1 = (if periodic then now else lastPeriodicExecution task) /\
    collected (if periodic then selected e periodic_events else [])
      (with_times (if periodic then now else lastPeriodicExecution task) (lastTriggeredExecution task) task) s t1 s1).
  { destruct periodic.
    - destruct (monitor_all_run periodic_events (set_lastPeriodicExecution now task) (elapse 3 s) Ht3)
        as (t1 & s1 & H1 & Ht1 & Hk1 & LP & L & Hc).
      exists t1, s1. unfold EventMonitorTask_MonitorPeriodicEvents. rewrite (bind_eq _ _ _ _ _ H1).
      unfold keeps_settings in *. rewrite world_of_elapse in Hk1, Hc. apply collected_later in Hc.
      split; [done|]. split; [done|]. split; [exact Hk1|]. split; [exact L|]. split; [exact LP | exact Hc].
    - exists task, (elapse 3 s). unfold keeps_settings. rewrite world_of_elapse. split; [done|]. split; [done|].
      do 3 (split; [done|]). destruct task. exact (collected_none 3 _ s). }
  destruct Hfirst as (t1 & s1 & H1 & Ht1 & (K1 & K2 & K3) & L1 & LP & C1). rewrite (bind_eq _ _ _ _ _ H1).
  rewrite L1, (bind_eq _ _ _ _ _ (diff_run now _ s1 Htr)). fold triggered. destruct triggered.
  - destruct (monitor_all_run triggered_events (set_lastTriggeredExecution now t1) s1 Ht1)
      as (t2 & s2 & H2 & Ht2 & (F1 & F2 & F3) & _ & _ & C2).
    exists t2, s2. unfold EventMonitorTask_MonitorTriggeredEvents. rewrite (bind_eq _ _ _ _ _ H2).
    split; [done|]. split; [done|]. split; [unfold keeps_settings; repeat split; congruence|]. rewrite K2 in C2.
    eapply collected_app; [|exact C2].
    apply (collected_times (lastPeriodicExecution t1) now) in C1. cbn in C1. unfold with_times in *. cbn in *.
    rewrite <- LP. exact C1.
  - exists t1, s1. split; [done|]. split; [done|]. split; [done|]. by rewrite app_nil_r.
Qed.

(** The times of a new task are 0: unless the clock shows a time less than 25
    days after its epoch, the first execution converts a difference that does
    not fit [int32_t], and its behaviour is undefined. *)
Theorem first_execution_undefined high low operational task s s' :
  EventMonitorTask_Init high low operational s = Some ((true, task), s') ->
  task_ready task s' -> 2147483 < execution_time s' -> EventMonitorTask_Execute task s' = None.
Proof.
  intros Hi Ht Hlate. pose proof Ht as (o & h & l & _ & _ & _ & Hr). destruct (start_run s' o h l Hr) as [Hg Hn].
  unfold EventMonitorTask_Init in Hi. apply bind_inv in Hi as (ok & s1 & _ & [= _ <- _]).
  unfold EventMonitorTask_Execute. rewrite (bind_eq _ _ _ _ _ Hg). cbv beta iota. rewrite (bind_eq _ _ _ _ _ Hn).
  unfold bind at 1, up, TimeUtils_GetTimeDiff. cbn [lastPeriodicExecution].
  rewrite (proj2 (Z.leb_gt _ INT32_MAX)) by (unfold INT32_MAX; lia). by rewrite andb_false_r.
Qed.

End EventMonitor.

(** ** Witnesses: collectors that only keep a log, and all fail *)

Record LogState : Type := mkLogState { lg_world : World; lg_log : list Collector }.

#[export] Instance log_has_world : HasWorld LogState.
Proof. refine {| world_of := lg_world; with_world := fun w s => mkLogState w (lg_log s) |}; by intros; destruct s. Defined.

#[export] Instance log_collectors : Collectors LogState := {|
  GetEvents := fun c q s => Some ((EVENT_COLLECTOR_EXCEPTION, q), mkLogState (lg_world s) (lg_log s ++ [c]));
  ProcessCreationCollector_Init := ret EVENT_COLLECTOR_OK;
  ProcessCreationCollector_Deinit := ret tt;
  ConnectionCreateEventCollector_Init := ret EVENT_COLLECTOR_OK;
  ConnectionCreateEventCollector_Deinit := ret tt;
|}.

#[export] Instance log_laws : CollectorsLaws (S := LogState).
Proof.
  refine {| collectors_ready := fun _ _ _ s => reliable (lg_world s) /\ locks_ready (lg_world s) |}.
  - by intros o h l s [H _].
  - by intros o h l s [_ H].
  - done.
  - intros c p o h l s q Hr _. eexists _, _, _. split; [reflexivity|]. do 3 (split; [done|]). by destruct p.
Defined.

Definition log_task (lastPeriodic lastTriggered : Z) : EventMonitorTask :=
  mkMonitorTask (Some empty_sync) (Some empty_sync) (Some empty_sync) lastPeriodic lastTriggered.

Lemma log_ready a b : task_ready (log_task a b) (mkLogState (running_world good_env) []).
Proof.
  exists empty_sync, empty_sync, empty_sync. do 3 (split; [done|]). split; [exact good_reliable | apply running_ready].
Qed.

(** At second 1570000002 only the triggered interval of three minutes has passed. *)
Lemma Execute_collects_witness :
  exists task' s',
    EventMonitorTask_Execute 180000 (log_task 1570000000 1569000000) (mkLogState (running_world good_env) []) = Some (task', s') /\
    lg_log s' = [AgentConfigurationErrorCollector; ProcessCreationCollector; UserLoginCollector;
                 ConnectionCreateEventCollector; DiagnosticEventCollector].
Proof.
  destruct (Execute_collects 180000 (log_task 1570000000 1569000000) (mkLogState (running_world good_env) []) (log_ready _ _))
    as (task' & s' & H & _); [vm_compute; split; discriminate | vm_compute; split; discriminate |].
  exists task', s'. split; [exact H|].
  assert (E : option_map (fun x => lg_log (snd x))
    (EventMonitorTask_Execute 180000 (log_task 1570000000 1569000000) (mkLogState (running_world good_env) [])) =
    Some [AgentConfigurationErrorCollector; ProcessCreationCollector; UserLoginCollector;
          ConnectionCreateEventCollector; DiagnosticEventCollector]) by (vm_compute; reflexivity).
  rewrite H in E. by injection E.
Defined.

Lemma first_execution_undefined_witness :
  EventMonitorTask_Execute 180000 (log_task 0 0) (mkLogState (running_world good_env) []) = None.
Proof.
  apply (first_execution_undefined 180000 (Some empty_sync) (Some empty_sync) (Some empty_sync) (log_task 0 0)
    (mkLogState (running_world good_env) [])); [reflexivity | apply log_ready | vm_compute; reflexivity].
Defined.
