(* ===== verification/EventPublisher.v ===== *)
(** * [tasks/event_publisher_task.c]: sending the queued events

    When the cache holds more than a message, and whenever the period of a
    priority has passed, the task packs the queues into a message and hands it
    to the hub.  The specification of one round is a list of sends; what a send
    takes from the queues is the specification of the serializer. *)

From S2P Require Import Prelude TwinDefs World TimeUtils Parson ParsonModel Json TwinCollectors TwinConfiguration MemoryMonitor Telemetry Queue SyncQueue Schema MessageSerializer CString IoTHub.
From Stdlib Require Import String.
Open Scope Z_scope.

(** Which of the priority queues a send empties first. *)
Inductive Send : Type := SendHigh | SendLow.

#[export] Instance Send_eq_dec : EqDecision Send.
Proof. solve_decision. Defined.

Section EventPublisher.
Context {P : Parson} {Mon : MemoryMonitor} {Lib : IoTHubClient}.

(** ** The task: what its pointers point to, [None] for the null pointer *)

Record EventPublisherTask : Type := mkPublisher {
  operationalEventsQueue : option SyncQueue;
  lowPriorityEventQueue : option SyncQueue;
  highPriorityEventQueue : option SyncQueue;
  highPriorityQueueLastExecution : Z;
  lowPriorityQueueLastExecution : Z;
  iothubAdapter : option IoTHubAdapter;
}.

#[local] Abbreviation Hub := (HubState (D := string)).

Definition EventPublisherTask_Init (high low operational : option SyncQueue) (adapter : option IoTHubAdapter)
    : M Hub (bool * EventPublisherTask) :=
  highLast <- in_hub_world TimeUtils_GetCurrentTime ;;
  lowLast <- in_hub_world TimeUtils_GetCurrentTime ;;
  ret (true, mkPublisher operational low high highLast lowLast adapter).

Definition EventPublisherTask_Deinit (task : EventPublisherTask) : EventPublisherTask :=
  mkPublisher (operationalEventsQueue task) None None (highPriorityQueueLastExecution task)
    (lowPriorityQueueLastExecution task) None.

(** The build and the local settings of the adapter; the id of the agent; the
    fuel of the serializer and of the connecting loop, and what the hub calls
    back should the connection be renewed. *)
Variable USE_MQTT : bool.
Variable config : LocalConfiguration.
Variable agentId : string.
Variable fuel : nat.
Variable deliveries : list (list HubCallback).

(** Returns the result, and the operational, main and padding queue and the
    adapter as they are left. *)
Definition EventPublisherTask_SendEvents (operational mainQueue paddingQueue : option SyncQueue)
    (adapter : option IoTHubAdapter)
    : M Hub (bool * option SyncQueue * option SyncQueue * option SyncQueue * option IoTHubAdapter) :=
  main <- deref mainQueue ;;
  let* (r, main, queueSize) := in_hub_store (SyncQueue_GetSize (D := string) main) in
  match r, queueSize with
  | QueueResult QUEUE_OK, Some queueSize =>
      if queueSize =? 0 then ret (true, operational, Some main, paddingQueue, adapter)
      else
        op <- deref operational ;;
        padding <- deref paddingQueue ;;
        let* (serializationResult, queues, buffer) :=
          in_hub_store (MessageSerializer_CreateSecurityMessage fuel agentId [op; main; padding]) in
        match queues with
        | [op; main; padding] =>
            match serializationResult, buffer with
            | (MESSAGE_SERIALIZER_OK | MESSAGE_SERIALIZER_PARTIAL), Some buffer =>
                a <- deref adapter ;;
                let* (sent, a) := IoTHubAdapter_SendMessageAsync USE_MQTT config fuel deliveries a buffer (strlen buffer) in
                ret (sent, Some op, Some main, Some padding, Some a)
            | (MESSAGE_SERIALIZER_OK | MESSAGE_SERIALIZER_PARTIAL), None =>
                ret (true, Some op, Some main, Some padding, adapter)
            | _, _ => ret (false, Some op, Some main, Some padding, adapter)
            end
        | _ => undefined
        end
  | _, _ => ret (false, operational, Some main, paddingQueue, adapter)
  end.

Definition send_high (currentTime : Z) (task : EventPublisherTask) : M Hub EventPublisherTask :=
  let* (_, op, high, low, a) := EventPublisherTask_SendEvents (operationalEventsQueue task)
    (highPriorityEventQueue task) (lowPriorityEventQueue task) (iothubAdapter task) in
  ret (mkPublisher op low high currentTime (lowPriorityQueueLastExecution task) a).

Definition send_low (currentTime : Z) (task : EventPublisherTask) : M Hub EventPublisherTask :=
  let* (_, op, low, high, a) := EventPublisherTask_SendEvents (operationalEventsQueue task)
    (lowPriorityEventQueue task) (highPriorityEventQueue task) (iothubAdapter task) in
  ret (mkPublisher op low high (highPriorityQueueLastExecution task) currentTime a).

Definition EventPublisherTask_Execute (task : EventPublisherTask) : M Hub EventPublisherTask :=
  let* (r, highPriorityQueueFrequency) := in_hub_world TwinConfiguration_GetHighPriorityMessageFrequency in
  match r, highPriorityQueueFrequency with
  | TWIN_OK, Some highPriorityQueueFrequency =>
      let* (r, lowPriorityQueueFrequency) := in_hub_world TwinConfiguration_GetLowPriorityMessageFrequency in
      match r, lowPriorityQueueFrequency with
      | TWIN_OK, Some lowPriorityQueueFrequency =>
          let* (r, maxMessageSize) := in_hub_world TwinConfiguration_GetMaxMessageSize in
          match r, maxMessageSize with
          | TWIN_OK, Some maxMessageSize =>
              let* (r, currentMemoryConsumption) := in_hub_world MemoryMonitor_CurrentConsumption in
              match r, currentMemoryConsumption with
              | MEMORY_MONITOR_OK, Some currentMemoryConsumption =>
                  currentTime <- in_hub_world TimeUtils_GetCurrentTime ;;
                  task <- (if maxMessageSize <? currentMemoryConsumption then send_high currentTime task else ret task) ;;
                  highDiff <- in_hub_world (TimeUtils_GetTimeDiff currentTime (highPriorityQueueLastExecution task)) ;;
                  lowDiff <- in_hub_world (TimeUtils_GetTimeDiff currentTime (lowPriorityQueueLastExecution task)) ;;
                  task <- (if highPriorityQueueFrequency <? u32 highDiff then send_high currentTime task else ret task) ;;
                  if lowPriorityQueueFrequency <? u32 lowDiff then send_low currentTime task else ret task
              | _, _ => ret task
              end
          | _, _ => ret task
          end
      | _, _ => ret task
      end
  | _, _ => ret task
  end.

(** ** Specification *)

(** The texts and sizes in the operational, high and low priority queue. *)
Record Contents : Type := mkContents {
  c_operational : list (string * Z);
  c_high : list (string * Z);
  c_low : list (string * Z);
}.

(** What one send takes: nothing while its main queue is empty; otherwise the
    message of the operational, main and padding queue.  [w1] and [a0] are the
    message's head and the empty array. *)
Definition spec_send (max : Z) (w1 : JsonObjectWriter) (a0 : JsonArrayWriter) (k : Send) (c : Contents)
    : Contents * option string :=
  let '(main, padding) := match k with SendHigh => (c_high c, c_low c) | SendLow => (c_low c, c_high c) end in
  match main with
  | [] => (c, None)
  | _ =>
      match take_queues max [c_operational c; main; padding] a0 0 with
      | ([op; main; padding], a, size, ok) =>
          (match k with SendHigh => mkContents op main padding | SendLow => mkContents op padding main end,
           snd (spec_message w1 a size ok))
      | _ => (c, None)
      end
  end.

(** What the library notes of what a send hands over. *)
Definition taken_over (text : option string) (ok : bool) : list string * list string :=
  match text with Some t => noted ok t | None => ([], []) end.

(** The sends of a round one after the other.  [hub] is what the hub accepted
    and [lost] the messages on which a call of its library failed: the text of
    a send must be added to the one or to the other, so that no message is
    dropped without having been handed over. *)
Inductive publishes (max : Z) (w1 : JsonObjectWriter) (a0 : JsonArrayWriter)
    : list Send -> Contents -> list string -> list string -> Contents -> list string -> list string -> Prop :=
  | publishes_nothing c hub lost : publishes max w1 a0 [] c hub lost c hub lost
  | publishes_send k plan c hub lost c1 text (ok : bool) c' hub' lost' :
      spec_send max w1 a0 k c = (c1, text) ->
      publishes max w1 a0 plan c1 (hub ++ (taken_over text ok).1) (lost ++ (taken_over text ok).2) c' hub' lost' ->
      publishes max w1 a0 (k :: plan) c hub lost c' hub' lost'.

(** The sends of a round: the high priority queue when the cache is full or its
    period has passed, but not twice, and the low priority queue when its
    period has passed. *)
Definition round (full : bool) (highDue lowDue : bool) : list Send :=
  (if full || highDue then [SendHigh] else []) ++ (if lowDue then [SendLow] else []).


(** ** Lemmas *)

Context {Laws : MemoryMonitorLaws Mon} {HubLaws : IoTHubClientLaws Lib}.

Definition with_store (st : Store (D := string)) (s : Hub) : Hub :=
  mkHubState st (hub_client s) (iotHubAdapterLock s) (connectionString s).

Lemma in_hub_store_run {A} (m : M (Store (D := string)) A) a st s :
  m (hub_store s) = Some (a, st) -> in_hub_store m s = Some (a, with_store st s).
Proof. unfold in_hub_store. by intros ->. Qed.

Lemma in_hub_world_run {A} (m : M World A) a w s :
  m (hub_world s) = Some (a, w) ->
  in_hub_world m s = Some (a, with_store (mkStore w (st_heap (hub_store s)) (next_item (hub_store s))) s).
Proof. unfold in_hub_world, hub_world, lift. intros H. apply in_hub_store_run. by rewrite H. Qed.

Lemma sending_ready_store a st s :
  sending_ready config a s -> only_monitor (hub_world s) (st_world st) -> sending_ready config a (with_store st s).
Proof.
  intros (Hr & Hi & Hc & Hh & l & k & H1 & H2 & H3 & H4 & H5) Ho. pose proof Ho as (_ & Hheld & _).
  split; [by eapply only_monitor_reliable|]. split; [done|]. split; [done|]. split; [done|].
  exists l, k. unfold hub_world in *. cbn. by rewrite Hheld.
Qed.

Lemma queues_hold_swap (st : Store (D := string)) op q1 q2 lo l1 l2 :
  queues_hold st [op; q1; q2] [lo; l1; l2] -> queues_hold st [op; q2; q1] [lo; l2; l1].
Proof.
  cbn. intros (Ho & Hlo & Hdo & H1 & Hl1 & Hd1 & H2 & Hl2 & Hd2 & _).
  assert (Hin : forall l', l' ∈ [l2; l1] -> l' ∈ [l1; l2]) by (intros l'; rewrite !list_elem_of_In; cbn; tauto).
  split; [done|]. split; [done|]. split; [intros l' a Hl'; by apply Hdo, Hin|].
  split; [done|]. split; [done|]. split; [|split; [done|]; split; [done|]; split; [by intros ? ? ?%not_elem_of_nil | done]].
  intros l' a ->%list_elem_of_singleton Ha Ha2. by apply (Hd1 l2 a); [apply list_elem_of_singleton | ..].
Qed.

Lemma GetSize_hold op q1 q2 lo l1 l2 (st : Store (D := string)) :
  queues_hold st [op; q1; q2] [lo; l1; l2] ->
  exists q1' st', SyncQueue_GetSize q1 st = Some ((QueueResult QUEUE_OK, q1', Some (Z.of_nat (List.length l1))), st') /\
    queues_hold st' [op; q1'; q2] [lo; l1; l2] /\ only_monitor (st_world st) (st_world st').
Proof.
  cbn. intros (Ho & Hlo & Hdo & H1 & Hl1 & Hd1 & H2 & Hl2 & Hd2 & _).
  destruct (SyncGetSize_run q1 st l1 H1) as (q1' & st' & Hrun & Hq & Hu). exists q1', st'.
  split; [exact Hrun|]. split; [|by destruct Hu].
  assert (Hop : sync_holds op st' lo).
  { eapply sync_holds_kept; [exact Ho | exact Hu|]. intros a Ha Ha1. by apply (Hdo l1 a); [left | ..]. }
  assert (Hq2 : sync_holds q2 st' l2).
  { eapply sync_holds_kept; [exact H2 | exact Hu|]. intros a Ha. by apply (Hd1 l2 a); [left|]. }
  auto 10.
Qed.

(** What a send does to the contents of the operational, main and padding queue. *)
Definition send_effect (max : Z) (w1 : JsonObjectWriter) (a0 : JsonArrayWriter) (lo lm lp : list (string * Z))
    : list (string * Z) * list (string * Z) * list (string * Z) * option string :=
  match lm with
  | [] => (lo, lm, lp, None)
  | _ =>
      match take_queues max [lo; lm; lp] a0 0 with
      | ([lo'; lm'; lp'], a, size, ok) => (lo', lm', lp', snd (spec_message w1 a size ok))
      | _ => (lo, lm, lp, None)
      end
  end.

Lemma spec_send_effect max w1 a0 k c :
  spec_send max w1 a0 k c =
  match k with
  | SendHigh => let '(o, h, l, text) := send_effect max w1 a0 (c_operational c) (c_high c) (c_low c) in (mkContents o h l, text)
  | SendLow => let '(o, l, h, text) := send_effect max w1 a0 (c_operational c) (c_low c) (c_high c) in (mkContents o h l, text)
  end.
Proof.
  unfold spec_send, send_effect. destruct c as [o h l], k; cbn [c_operational c_high c_low].
  - destruct h as [|x h]; [done|]. destruct (take_queues _ _ _ _) as [[[[|? [|? [|? []]]] ?] ?] ?]; done.
  - destruct l as [|x l]; [done|]. destruct (take_queues _ _ _ _) as [[[[|? [|? [|? []]]] ?] ?] ?]; done.
Qed.

(** Three queues hold three lists, each short enough for the fuel. *)
Definition three_hold (s : Hub) (q1 q2 q3 : SyncQueue) (l1 l2 l3 : list (nat * (string * Z))) : Prop :=
  queues_hold (hub_store s) [q1; q2; q3] [l1; l2; l3] /\ Forall (fun l => (List.length l <= fuel)%nat) [l1; l2; l3].

Lemma spec_message_text w1 a size ok :
  match spec_message w1 a size ok with
  | (MESSAGE_SERIALIZER_OK, text) | (MESSAGE_SERIALIZER_PARTIAL, text) => is_Some text
  | (_, text) => text = None
  end.
Proof.
  unfold spec_message. destruct (size =? 0); [done|].
  destruct (JsonObjectWriter_WriteArray _ _ _) as [[[] ?] ?]; try done.
  destruct (JsonObjectWriter_Serialize _) as [[] [[]|]]; try done. by destruct ok.
Qed.

(** How a send that starts in [s] with the contents [lo], [lm] and [lp] ends. *)
Definition send_outcome (s : Hub) (w1 : JsonObjectWriter) (a0 : JsonArrayWriter) (lo lm lp : list (nat * (string * Z)))
    (run : option (bool * option SyncQueue * option SyncQueue * option SyncQueue * option IoTHubAdapter * Hub)) : Prop :=
  exists r op' main' pad' a' s' lo' lm' lp' text ok,
    run = Some ((r, Some op', Some main', Some pad', Some a'), s') /\
    three_hold s' op' main' pad' lo' lm' lp' /\ sending_ready config a' s' /\ only_monitor (hub_world s) (hub_world s') /\
    send_effect (tc_maxMessageSize (twinConfiguration (hub_world s))) w1 a0 lo.*2 lm.*2 lp.*2 =
      (lo'.*2, lm'.*2, lp'.*2, text) /\
    accepted (hub_client s') = accepted (hub_client s) ++ (taken_over text ok).1 /\
    refused (hub_client s') = refused (hub_client s) ++ (taken_over text ok).2.

(** Nothing to hand over. *)
Lemma send_outcome_nothing s w1 a0 lo lm lp r op main pad a st lo' lm' lp' :
  three_hold (with_store st s) op main pad lo' lm' lp' -> sending_ready config a s ->
  only_monitor (hub_world s) (st_world st) ->
  send_effect (tc_maxMessageSize (twinConfiguration (hub_world s))) w1 a0 lo.*2 lm.*2 lp.*2 = (lo'.*2, lm'.*2, lp'.*2, None) ->
  send_outcome s w1 a0 lo lm lp (ret (r, Some op, Some main, Some pad, Some a) (with_store st s)).
Proof.
  intros Hq Ha Ho He. exists r, op, main, pad, a, (with_store st s), lo', lm', lp', None, true.
  split; [done|]. split; [done|]. split; [by apply sending_ready_store|]. split; [done|]. split; [done|].
  split; symmetry; apply app_nil_r.
Qed.

(** A message to hand over. *)
Lemma send_outcome_text s w1 a0 lo lm lp op main pad a st lo' lm' lp' t :
  three_hold (with_store st s) op main pad lo' lm' lp' -> sending_ready config a s ->
  only_monitor (hub_world s) (st_world st) ->
  send_effect (tc_maxMessageSize (twinConfiguration (hub_world s))) w1 a0 lo.*2 lm.*2 lp.*2 = (lo'.*2, lm'.*2, lp'.*2, Some t) ->
  send_outcome s w1 a0 lo lm lp
    ((let* (sent, a) := IoTHubAdapter_SendMessageAsync USE_MQTT config fuel deliveries a t (strlen t) in
      ret (sent, Some op, Some main, Some pad, Some a)) (with_store st s)).
Proof.
  intros [Hq Hf] Ha Ho He. pose proof (sending_ready_store a st s Ha Ho) as Ha2.
  destruct (SendMessage_run USE_MQTT config fuel deliveries a t (strlen t) (with_store st s) Ha2) as (sent & n & cl & Hsend & Hover).
  rewrite (bind_eq _ _ _ _ _ Hsend).
  exists sent, op, main, pad, (counted sent (strlen t) a), (hub_later n cl (with_store st s)), lo', lm', lp', (Some t), sent.
  split; [done|]. split; [split; [by apply (queues_hold_bump _ _ st) | done]|]. split; [by eapply sending_ready_later|].
  split; [eapply only_monitor_trans; [exact Ho | apply only_monitor_bump]|]. split; [done|].
  destruct Hover as (_ & H1 & _ & H2). by split.
Qed.

Lemma leftovers_short c c' : leftovers c c' -> Forall (fun l => (List.length l <= fuel)%nat) c ->
  Forall (fun l => (List.length l <= fuel)%nat) c'.
Proof.
  induction 1 as [|l l' c c' [k ->] _ IH]; [done|]. intros [H1 H2]%Forall_cons.
  constructor; [rewrite length_drop; lia | by apply IH].
Qed.

Lemma SendEvents_run op main pad a s lo lm lp w0 w1 a0 :
  three_hold s op main pad lo lm lp -> sending_ready config a s ->
  new_writer = Some w0 -> write_head agentId w0 = (JSON_WRITER_OK, w1) -> new_array = Some a0 ->
  send_outcome s w1 a0 lo lm lp (EventPublisherTask_SendEvents (Some op) (Some main) (Some pad) (Some a) s).
Proof.
  intros [Hq Hfuel] Ha Hw0 Hw1 Ha0. unfold EventPublisherTask_SendEvents. cbn [deref]. rewrite bind_ret_l.
  destruct (GetSize_hold _ _ _ _ _ _ _ Hq) as (m1 & st1 & Hsize & Hq1 & Ho1).
  rewrite (bind_eq _ _ _ _ _ (in_hub_store_run _ _ _ s Hsize)).
  destruct lm as [|x lm]; [by apply (send_outcome_nothing s w1 a0 lo [] lp _ _ _ _ _ st1 lo [] lp)|].
  rewrite (proj2 (Z.eqb_neq _ _)) by (cbn; lia). rewrite !bind_ret_l.
  assert (Hmax : twinConfiguration (st_world st1) = twinConfiguration (hub_world s))
    by (destruct Ho1 as (_ & _ & _ & _ & _ & H & _); exact H).
  pose proof (Create_run fuel agentId op [m1; pad] [lo; x :: lm; lp] st1 w0 w1 a0 Hq1 Hfuel Hw0 Hw1 Ha0) as Hrun.
  rewrite Hmax in Hrun. cbn [map] in Hrun. change ((x :: lm).*2) with (x.2 :: lm.*2) in Hrun.
  destruct (take_queues _ [lo.*2; x.2 :: lm.*2; lp.*2] a0 0) as [[[remaining ar] size] ok] eqn:Htake.
  destruct Hrun as (qs & st2 & c' & Hrun & Hq2 & Hrem & Hlo & Ho2).
  rewrite (bind_eq _ _ _ _ _ (in_hub_store_run _ _ _ (with_store st1 s) Hrun)).
  destruct c' as [|lo' [|lm' [|lp' [|]]]]; try (exfalso; apply Forall2_length in Hlo; discriminate Hlo).
  destruct qs as [|op' [|main' [|pad' [|]]]]; try (exfalso; cbn in Hq2; tauto).
  cbn [map] in Hrem. subst remaining. change (with_store st2 (with_store st1 s)) with (with_store st2 s).
  assert (He : send_effect (tc_maxMessageSize (twinConfiguration (hub_world s))) w1 a0 lo.*2 (x :: lm).*2 lp.*2 =
    (lo'.*2, lm'.*2, lp'.*2, snd (spec_message w1 ar size ok))) by (unfold send_effect; cbn [fmap list_fmap]; by rewrite Htake).
  assert (Hthree : three_hold (with_store st2 s) op' main' pad' lo' lm' lp') by (split; [exact Hq2 | by eapply leftovers_short]).
  pose proof (only_monitor_trans _ _ _ Ho1 Ho2) as Ho.
  pose proof (spec_message_text w1 ar size ok) as Htext. destruct (spec_message w1 ar size ok) as [sr text].
  cbn [fst snd] in *. destruct sr; try (subst text; by eapply send_outcome_nothing).
  all: destruct Htext as [t ->]; rewrite bind_ret_l; by eapply send_outcome_text.
Qed.


(** A task at rest: its queues hold [c], its adapter can send. *)
Definition publisher_ready (task : EventPublisherTask) (s : Hub) (c : Contents) : Prop :=
  monitor_ready (hub_world s) /\
  exists op high low a lo lh ll,
    operationalEventsQueue task = Some op /\ highPriorityEventQueue task = Some high /\
    lowPriorityEventQueue task = Some low /\ iothubAdapter task = Some a /\
    three_hold s op high low lo lh ll /\ sending_ready config a s /\ c = mkContents lo.*2 lh.*2 ll.*2.

Definition last_execution (k : Send) (task : EventPublisherTask) : Z :=
  match k with SendHigh => highPriorityQueueLastExecution task | SendLow => lowPriorityQueueLastExecution task end.

Definition other (k : Send) : Send := match k with SendHigh => SendLow | SendLow => SendHigh end.

Definition send_now (k : Send) (now : Z) (task : EventPublisherTask) : M Hub EventPublisherTask :=
  match k with SendHigh => send_high now task | SendLow => send_low now task end.

Lemma three_hold_swap s op q1 q2 lo l1 l2 : three_hold s op q1 q2 lo l1 l2 -> three_hold s op q2 q1 lo l2 l1.
Proof. intros [H1 H2]. split; [by apply queues_hold_swap|]. decompose_Forall_hyps. by repeat constructor. Qed.

(** The message's head and the empty array exist. *)
Context (w0 w1 : JsonObjectWriter) (a0 : JsonArrayWriter).
Hypothesis Hw0 : new_writer = Some w0.
Hypothesis Hw1 : write_head agentId w0 = (JSON_WRITER_OK, w1).
Hypothesis Ha0 : new_array = Some a0.

Lemma send_now_run k now task s c :
  publisher_ready task s c ->
  exists task' s' c' text ok,
    send_now k now task s = Some (task', s') /\ publisher_ready task' s' c' /\ only_monitor (hub_world s) (hub_world s') /\
    spec_send (tc_maxMessageSize (twinConfiguration (hub_world s))) w1 a0 k c = (c', text) /\
    accepted (hub_client s') = accepted (hub_client s) ++ (taken_over text ok).1 /\
    refused (hub_client s') = refused (hub_client s) ++ (taken_over text ok).2 /\
    last_execution k task' = now /\ last_execution (other k) task' = last_execution (other k) task.
Proof.
  intros (Hm & op & high & low & a & lo & lh & ll & E1 & E2 & E3 & E4 & Hq & Ha & ->).
  destruct k; unfold send_now, send_high, send_low; rewrite E1, E2, E3, E4, spec_send_effect; cbn [c_operational c_high c_low].
  - destruct (SendEvents_run op high low a s lo lh ll w0 w1 a0 Hq Ha Hw0 Hw1 Ha0)
      as (r & op' & h' & l' & a' & s' & lo' & lh' & ll' & text & ok & Hrun & Hq' & Ha' & Ho & He & Hacc & Hrej).
    rewrite (bind_eq _ _ _ _ _ Hrun), He. eexists _, s', _, text, ok. split; [reflexivity|].
    split; [|by do 4 (split; [done|])]. split; [by eapply ready_kept|].
    by exists op', h', l', a', lo', lh', ll'.
  - destruct (SendEvents_run op low high a s lo ll lh w0 w1 a0 (three_hold_swap _ _ _ _ _ _ _ Hq) Ha Hw0 Hw1 Ha0)
      as (r & op' & l' & h' & a' & s' & lo' & ll' & lh' & text & ok & Hrun & Hq' & Ha' & Ho & He & Hacc & Hrej).
    rewrite (bind_eq _ _ _ _ _ Hrun), He. eexists _, s', _, text, ok. split; [reflexivity|].
    split; [|by do 4 (split; [done|])]. split; [by eapply ready_kept|].
    exists op', h', l', a', lo', lh', ll'. do 4 (split; [done|]). by split; [apply three_hold_swap, Hq'|].
Qed.


Lemma publishes_app max plan1 plan2 c hub lost c1 hub1 lost1 c2 hub2 lost2 :
  publishes max w1 a0 plan1 c hub lost c1 hub1 lost1 -> publishes max w1 a0 plan2 c1 hub1 lost1 c2 hub2 lost2 ->
  publishes max w1 a0 (plan1 ++ plan2) c hub lost c2 hub2 lost2.
Proof. induction 1 as [|k plan c hub lost c1 text ok c' hub' lost' Hs _ IH]; intros H; [done|]. econstructor; eauto. Qed.

(** The sends of a round, from one state of the program to another. *)
Definition sends (max : Z) (plan : list Send) (c : Contents) (s : Hub) (c' : Contents) (s' : Hub) : Prop :=
  publishes max w1 a0 plan c (accepted (hub_client s)) (refused (hub_client s))
    c' (accepted (hub_client s')) (refused (hub_client s')).

Lemma sends_app max plan1 plan2 c s c1 s1 c2 s2 :
  sends max plan1 c s c1 s1 -> sends max plan2 c1 s1 c2 s2 -> sends max (plan1 ++ plan2) c s c2 s2.
Proof. apply publishes_app. Qed.

Definition max_of (s : Hub) : Z := tc_maxMessageSize (twinConfiguration (hub_world s)).

Lemma maybe_send_run (b : bool) k now task s c :
  publisher_ready task s c ->
  exists task' s' c',
    (if b then send_now k now task else ret task) s = Some (task', s') /\ publisher_ready task' s' c' /\
    only_monitor (hub_world s) (hub_world s') /\
    sends (max_of s) (if b then [k] else []) c s c' s' /\
    last_execution k task' = (if b then now else last_execution k task) /\
    last_execution (other k) task' = last_execution (other k) task.
Proof.
  intros Hp. destruct b.
  - destruct (send_now_run k now task s c Hp) as (task' & s' & c' & text & ok & H1 & H2 & H3 & H4 & H5 & H6 & H7 & H8).
    exists task', s', c'. split; [done|]. split; [done|]. split; [done|]. split; [|done].
    eapply (publishes_send _ _ _ _ _ _ _ _ _ text ok); [exact H4|]. rewrite <- H5, <- H6. constructor.
  - exists task, s, c. split; [done|]. split; [done|]. split; [apply only_monitor_refl|]. split; [constructor | done].
Qed.

(** The queues and the adapter do not see what only the monitor and the clock see. *)
Lemma queues_hold_monitor queues : forall contents (st : Store (D := string)) w,
  queues_hold st queues contents -> only_monitor (st_world st) w ->
  queues_hold (mkStore w (st_heap st) (next_item st)) queues contents.
Proof.
  induction queues as [|q queues IH]; intros [|l contents] st w; try done. cbn [queues_hold].
  intros (Hq & Hlen & Hdis & Hqs) Ho. split; [|split; [done|]; split; [done|]; by apply IH].
  eapply (sync_holds_kept q st _ []); [exact Hq | | by intros a _ ?%not_elem_of_nil].
  split; [exact Ho|]. split; [done|]. split; [done|]. by destruct Hq as (? & _ & _ & _ & _ & _ & _ & Hf).
Qed.

Lemma publisher_ready_monitor task s c w :
  publisher_ready task s c -> only_monitor (hub_world s) w ->
  publisher_ready task (with_store (mkStore w (st_heap (hub_store s)) (next_item (hub_store s))) s) c.
Proof.
  intros (Hm & op & high & low & a & lo & lh & ll & E1 & E2 & E3 & E4 & [Hq Hf] & Ha & ->) Ho.
  split; [by eapply ready_kept|]. exists op, high, low, a, lo, lh, ll. do 4 (split; [done|]).
  split; [split; [by apply queues_hold_monitor | done]|]. by split; [apply sending_ready_store|].
Qed.

(** Reading what decides about a round. *)
Lemma getter_hub {A} (proj : TwinConfiguration -> A) task s c :
  publisher_ready task s c ->
  exists s', in_hub_world (t <- gets twinConfiguration ;; TwinConfiguration_GetField (proj t)) s =
      Some ((TWIN_OK, Some (proj (twinConfiguration (hub_world s)))), s') /\ publisher_ready task s' c /\
    hub_client s' = hub_client s /\ only_monitor (hub_world s) (hub_world s') /\
    consumption (hub_world s') = consumption (hub_world s).
Proof.
  intros Hp. pose proof Hp as (Hm & op & _ & _ & _ & _ & _ & _ & _ & _ & _ & _ & _ & (Hr & _) & _).
  destruct (ready_configuration _ Hm) as [_ (l & Hl & Hh & _)].
  pose proof (in_hub_world_run _ _ _ s (getter_reliable proj (hub_world s) l Hr Hl Hh)) as E.
  eexists. split; [exact E|]. split; [apply publisher_ready_monitor; [done | apply only_monitor_bump]|].
  split; [done|]. split; [apply only_monitor_bump | done].
Qed.

Lemma consumption_hub task s c :
  publisher_ready task s c ->
  exists s', in_hub_world MemoryMonitor_CurrentConsumption s =
      Some ((MEMORY_MONITOR_OK, Some (consumption (hub_world s))), s') /\ publisher_ready task s' c /\
    hub_client s' = hub_client s /\ only_monitor (hub_world s) (hub_world s').
Proof.
  intros Hp. pose proof Hp as (Hm & op & _ & _ & _ & _ & _ & _ & _ & _ & _ & _ & _ & (Hr & _) & _).
  destruct (CurrentConsumption_law (hub_world s) Hr Hm) as (w' & Hrun & Ho & _).
  eexists. split; [exact (in_hub_world_run _ _ _ s Hrun)|]. split; [by apply publisher_ready_monitor|]. done.
Qed.

Lemma time_hub task s c :
  publisher_ready task s c ->
  exists s', in_hub_world TimeUtils_GetCurrentTime s =
      Some (env_time (env (hub_world s)) (tick (hub_world s)), s') /\ publisher_ready task s' c /\
    hub_client s' = hub_client s /\ only_monitor (hub_world s) (hub_world s').
Proof.
  intros Hp. eexists. split; [apply in_hub_world_run; reflexivity|]. fold (bump 1 (hub_world s)).
  split; [apply publisher_ready_monitor; [done | apply only_monitor_bump with (n := 1%nat)]|].
  split; [done | apply only_monitor_bump with (n := 1%nat)].
Qed.

Lemma diff_hub now last (s : Hub) :
  INT32_MIN <= (now - last) * 1000 <= INT32_MAX ->
  in_hub_world (TimeUtils_GetTimeDiff now last) s = Some ((now - last) * 1000, s).
Proof.
  intros H. unfold in_hub_world, in_hub_store, lift, TimeUtils_GetTimeDiff.
  rewrite (proj2 (andb_true_iff _ _)) by (split; lia). by destruct s as [[] ? ? ?].
Qed.

(** The time of every round is close enough to the last executions. *)
Definition times_close (task : EventPublisherTask) (w : World) : Prop :=
  forall n k, INT32_MIN <= (env_time (env w) n - last_execution k task) * 1000 <= INT32_MAX.

Definition due (frequency now last : Z) : bool := frequency <? u32 ((now - last) * 1000).

Lemma due_now frequency now : 0 <= frequency -> due frequency now now = false.
Proof. intros H. unfold due. rewrite Z.sub_diag. cbn. apply Z.ltb_ge. exact H. Qed.


(** The part of a round after the reads. *)
Lemma round_run now maxMessageSize n highFrequency lowFrequency task s c :
  publisher_ready task s c -> 0 <= highFrequency ->
  (forall k, INT32_MIN <= (now - last_execution k task) * 1000 <= INT32_MAX) ->
  let plan := round (maxMessageSize <? n) (due highFrequency now (last_execution SendHigh task))
                (due lowFrequency now (last_execution SendLow task)) in
  exists task' s' c',
    (task <- (if maxMessageSize <? n then send_high now task else ret task) ;;
     highDiff <- in_hub_world (TimeUtils_GetTimeDiff now (highPriorityQueueLastExecution task)) ;;
     lowDiff <- in_hub_world (TimeUtils_GetTimeDiff now (lowPriorityQueueLastExecution task)) ;;
     task <- (if highFrequency <? u32 highDiff then send_high now task else ret task) ;;
     if lowFrequency <? u32 lowDiff then send_low now task else ret task) s = Some (task', s') /\
    publisher_ready task' s' c' /\ only_monitor (hub_world s) (hub_world s') /\
    sends (max_of s) plan c s c' s' /\
    (forall k, last_execution k task' = if bool_decide (k ∈ plan) then now else last_execution k task).
Proof.
  intros Hp Hf Hd plan. set (full := maxMessageSize <? n) in *.
  destruct (maybe_send_run full SendHigh now task s c Hp) as (t1 & s1 & c1 & H1 & Hp1 & Ho1 & Hpub1 & Hh1 & Hl1).
  cbn [send_now] in H1. rewrite (bind_eq _ _ _ _ _ H1).
  assert (Hd1 : forall k, INT32_MIN <= (now - last_execution k t1) * 1000 <= INT32_MAX).
  { intros k. specialize (Hd k). destruct k; [rewrite Hh1 | cbn [other] in Hl1; rewrite Hl1; done].
    destruct full; [|done]. rewrite Z.sub_diag. ulia. }
  rewrite (bind_eq _ _ _ _ _ (diff_hub now _ s1 (Hd1 SendHigh))).
  rewrite (bind_eq _ _ _ _ _ (diff_hub now _ s1 (Hd1 SendLow))).
  change (highFrequency <? u32 ((now - last_execution SendHigh t1) * 1000)) with (due highFrequency now (last_execution SendHigh t1)).
  change (lowFrequency <? u32 ((now - last_execution SendLow t1) * 1000)) with (due lowFrequency now (last_execution SendLow t1)).
  destruct (maybe_send_run (due highFrequency now (last_execution SendHigh t1)) SendHigh now t1 s1 c1 Hp1)
    as (t2 & s2 & c2 & H2 & Hp2 & Ho2 & Hpub2 & Hh2 & Hl2).
  cbn [send_now other] in *. rewrite (bind_eq _ _ _ _ _ H2).
  destruct (maybe_send_run (due lowFrequency now (last_execution SendLow t1)) SendLow now t2 s2 c2 Hp2)
    as (t3 & s3 & c3 & H3 & Hp3 & Ho3 & Hpub3 & Hh3 & Hl3).
  cbn [send_now other] in *. exists t3, s3, c3. split; [exact H3|]. split; [done|].
  split; [eapply only_monitor_trans; [|exact Ho3]; by eapply only_monitor_trans|].
  assert (Emax : forall s', only_monitor (hub_world s) (hub_world s') -> max_of s' = max_of s)
    by (intros s' (_ & _ & _ & _ & _ & E & _); unfold max_of; by rewrite E).
  rewrite (Emax s1) in Hpub2 by done. rewrite (Emax s2) in Hpub3 by (by eapply only_monitor_trans).
  assert (Edue : due highFrequency now (last_execution SendHigh t1) =
    negb full && due highFrequency now (last_execution SendHigh task)).
  { rewrite Hh1. destruct full; [by apply due_now | done]. }
  rewrite Edue in *. rewrite Hl1 in *. split.
  - pose proof (sends_app _ _ _ _ _ _ _ _ _ (sends_app _ _ _ _ _ _ _ _ _ Hpub1 Hpub2) Hpub3) as H. subst plan.
    unfold round. by destruct full, (due highFrequency _ _).
  - subst plan. unfold round. intros k. destruct k; [rewrite Hl3, Hh2, Hh1 | rewrite Hh3, Hl2];
      by destruct full, (due highFrequency _ _), (due lowFrequency _ _).
Qed.

(** ** Property *)

(** C5: One round of the publisher.  It always ends with the task ready for the
    next round; it sends the high priority queue when the cache holds more
    than a message or its period has passed, but only once, and then the low
    priority queue when its period has passed; each send whose main queue is not
    empty takes from the queues what the serializer specifies, and the message
    it gives is handed to the library once: afterwards the hub has accepted it,
    in order, or a call of the library on this message has failed and it is
    lost; a send whose main queue is empty does nothing; the times of the queues
    that were due are set to now.  No lock or allocation fails, the adapter is
    connected (or does not use DPS), the times of the last executions are less
    than 24 days away, and the head of the message can be written. *)
Theorem Execute_correct task s c :
  publisher_ready task s c -> times_close task (hub_world s) ->
  0 <= tc_highPriorityMessageFrequency (twinConfiguration (hub_world s)) ->
  exists n task' s' c',
    let now := env_time (env (hub_world s)) n in
    let t := twinConfiguration (hub_world s) in
    let plan := round (tc_maxMessageSize t <? consumption (hub_world s))
                  (due (tc_highPriorityMessageFrequency t) now (last_execution SendHigh task))
                  (due (tc_lowPriorityMessageFrequency t) now (last_execution SendLow task)) in
    EventPublisherTask_Execute task s = Some (task', s') /\ publisher_ready task' s' c' /\
    publishes (tc_maxMessageSize t) w1 a0 plan c (accepted (hub_client s)) (refused (hub_client s))
      c' (accepted (hub_client s')) (refused (hub_client s')) /\
    (forall k, last_execution k task' = if bool_decide (k ∈ plan) then now else last_execution k task).
Proof.
  intros Hp Ht Hf. unfold EventPublisherTask_Execute.
  destruct (getter_hub tc_highPriorityMessageFrequency task s c Hp) as (s1 & H1 & Hp1 & Hc1 & Ho1 & Hn1).
  rewrite (bind_eq _ _ _ _ _ H1). clear H1.
  destruct (getter_hub tc_lowPriorityMessageFrequency task s1 c Hp1) as (s2 & H2 & Hp2 & Hc2 & Ho2 & Hn2).
  rewrite (bind_eq _ _ _ _ _ H2). clear H2.
  destruct (getter_hub tc_maxMessageSize task s2 c Hp2) as (s3 & H3 & Hp3 & Hc3 & Ho3 & Hn3).
  rewrite (bind_eq _ _ _ _ _ H3). clear H3.
  destruct (consumption_hub task s3 c Hp3) as (s4 & H4 & Hp4 & Hc4 & Ho4). rewrite (bind_eq _ _ _ _ _ H4). clear H4.
  destruct (time_hub task s4 c Hp4) as (s5 & H5 & Hp5 & Hc5 & Ho5). rewrite (bind_eq _ _ _ _ _ H5). clear H5.
  pose proof (only_monitor_trans _ _ _ Ho1 Ho2) as Ho12. pose proof (only_monitor_trans _ _ _ Ho12 Ho3) as Ho13.
  pose proof (only_monitor_trans _ _ _ Ho13 Ho4) as Ho14. pose proof (only_monitor_trans _ _ _ Ho14 Ho5) as Ho15.
  assert (E1 : twinConfiguration (hub_world s1) = twinConfiguration (hub_world s)) by (by destruct Ho1 as (_ & _ & _ & _ & _ & E & _)).
  assert (E2 : twinConfiguration (hub_world s2) = twinConfiguration (hub_world s)) by (by destruct Ho12 as (_ & _ & _ & _ & _ & E & _)).
  assert (E4 : env (hub_world s4) = env (hub_world s)) by (by destruct Ho14 as (E & _)).
  assert (E5 : max_of s5 = tc_maxMessageSize (twinConfiguration (hub_world s)))
    by (destruct Ho15 as (_ & _ & _ & _ & _ & E & _); unfold max_of; by rewrite E).
  rewrite E1, E2, E4, Hn3, Hn2, Hn1. exists (tick (hub_world s4)).
  destruct (round_run (env_time (env (hub_world s)) (tick (hub_world s4))) (tc_maxMessageSize (twinConfiguration (hub_world s)))
    (consumption (hub_world s)) (tc_highPriorityMessageFrequency (twinConfiguration (hub_world s)))
    (tc_lowPriorityMessageFrequency (twinConfiguration (hub_world s))) task s5 c Hp5 Hf (Ht _))
    as (task' & s' & c' & Hrun & Hp' & _ & Hpub & Hlast).
  exists task', s', c'. split; [exact Hrun|]. split; [done|]. split; [|done].
  unfold sends in Hpub. rewrite E5, Hc5, Hc4, Hc3, Hc2, Hc1 in Hpub. exact Hpub.
Qed.

End EventPublisher.

(** ** Witness: two texts in the high priority queue, the other queues empty *)

Definition idle_queue : SyncQueue :=
  mkSyncQueue (mkQueue None None 0 true (mkSyncedCounter zero_counter (Some 4%nat))) (Some 3%nat).

Lemma idle_holds : @sync_holds string synchronized_monitor idle_queue two_store [].
Proof.
  exists 3%nat. split; [done|]. split; [apply not_elem_of_empty|].
  assert (H : forall n, n <> 3%nat -> n ∉ held (st_world (in_section 3 two_store))).
  { intros n Hn. cbn. intros [->%elem_of_singleton | Hx%not_elem_of_empty]%elem_of_union; done. }
  split.
  - split; [exact good_reliable|]. split; [|exists 4%nat; split; [done | by apply H]]. split.
    + split; [split; [done|]; exists 1%nat; split; [done | by apply H]|]. exists 0%nat.
      split; [done|]. split; [by apply H | done].
    + exists 2%nat. split; [done|]. split; [by apply H | done].
  - destruct two_holds as (l & _ & _ & _ & _ & _ & _ & Hf). split; [done|]. split; [constructor|]. split; [done | exact Hf].
Qed.

Lemma two_queues_hold :
  @queues_hold synchronized_monitor still_store [idle_queue; two_queue; idle_queue] [[]; two_items; []].
Proof.
  assert (H : forall (c : list (list (nat * (string * Z)))) l' a, l' ∈ c -> a ∈ l'.*1 -> a ∉ (@nil (nat * (string * Z))).*1)
    by (intros; apply not_elem_of_nil).
  split; [apply still_holds, idle_holds|]. split; [done|]. split; [by eapply H|].
  split; [apply still_holds, two_holds|]. split; [done|]. split.
  - intros l' a ->%list_elem_of_singleton Ha. by apply not_elem_of_nil in Ha.
  - split; [apply still_holds, idle_holds|]. split; [done|]. split; [by intros ? ? ?%not_elem_of_nil | done].
Qed.

#[local] Abbreviation accepting := (fun _ : nat => true).

Definition publisher_hub : @HubState string (log_client accepting) :=
  @mkHubState string (log_client accepting) still_store test_client (Some 5%nat) "connection"%string.

(** The last sends were seven minutes and one second ago: only the high priority queue is due. *)
Definition publisher_task : @EventPublisherTask (log_client accepting) :=
  @mkPublisher (log_client accepting) (Some idle_queue) (Some idle_queue) (Some two_queue)
    (1570000000 - 421) (1570000000 - 421) (Some (test_adapter accepting)).

Lemma publisher_is_ready :
  @publisher_ready synchronized_monitor (log_client accepting) plain_device 2 (log_client_laws accepting)
    publisher_task publisher_hub (mkContents [] two_items.*2 []).
Proof.
  split; [exact running_synchronized|].
  exists idle_queue, two_queue, idle_queue, (test_adapter accepting), [], two_items, [].
  do 4 (split; [done|]). split; [split; [exact two_queues_hold | by repeat constructor]|]. split; [|done].
  destruct (test_ready accepting) as (_ & H). split; [by intros n | exact H].
Qed.

(** One message is handed over, and the hub accepts it; the library refuses
    nothing. *)
Lemma Execute_correct_witness :
  exists task' s' c' w1 a0,
    @EventPublisherTask_Execute event_parson synchronized_monitor (log_client accepting) false plain_device "agent" 2 []
      publisher_task publisher_hub = Some (task', s') /\
    @publishes event_parson 204800 w1 a0
      [SendHigh] (mkContents [] two_items.*2 []) [] [] c' (lg_accepted (hub_client s')) (lg_refused (hub_client s')) /\
    List.length (lg_accepted (hub_client s')) = 1%nat /\ lg_refused (hub_client s') = [].
Proof.
  destruct (@Execute_correct event_parson synchronized_monitor (log_client accepting) false plain_device "agent" 2 [] _ _
    _ _ _ eq_refl eq_refl eq_refl publisher_task publisher_hub _ publisher_is_ready) as (n & task' & s' & c' & H & _ & Hp & _).
  - intros n []; by vm_compute.
  - by vm_compute.
  - exists task', s', c'. eexists _, _. split; [exact H|]. split; [exact Hp|].
    assert (E : option_map (fun x => (List.length (lg_accepted (@hub_client _ (log_client accepting) (snd x))),
        lg_refused (@hub_client _ (log_client accepting) (snd x))))
      (@EventPublisherTask_Execute event_parson synchronized_monitor (log_client accepting) false plain_device "agent" 2 []
        publisher_task publisher_hub) = Some (1%nat, [])) by (vm_compute; reflexivity).
    rewrite H in E. apply (inj Some) in E. by apply pair_equal_spec in E.
Defined.
