(* ===== verification/Scheduler.v ===== *)
(** * [scheduler_thread.c]: running a task on a thread of its own

    The worker thread and the thread that starts and stops it share the
    scheduler.  [step] interleaves them: each step reads or writes the
    scheduler once, in the order of the code; the steps of the controlling
    thread are those of [SecurityAgent_StartAsyncTask], [SecurityAgent_Wait] and
    [SecurityAgent_StopAsyncTask].  [ThreadAPI_Create] and [ThreadAPI_Join] are
    not in the repository: a thread that was created runs from its start, and a
    join returns when the thread has returned and is allowed once.  Steps are
    sequentially consistent; the code itself reads and writes the two shared
    fields without any synchronisation. *)

From S2P Require Import Prelude.
From stdpp Require Import relations.
Open Scope Z_scope.

Section Scheduler.
(** What is passed as [SchedulerTask] and as its parameter. *)
Context {Task Param : Type}.

(** ** Data *)

Inductive SchedulerThreadState : Type :=
  | SCHEDULER_THREAD_CREATED
  | SCHEDULER_THREAD_STARTED
  | SCHEDULER_THREAD_STOPPED.

#[export] Instance SchedulerThreadState_eq : EqDecision SchedulerThreadState.
Proof. solve_decision. Defined.

Record SchedulerThread : Type := mkScheduler {
  threadHandle : option Z;
  schedulerInterval : Z;
  task : option Task;
  taskParam : option Param;
  continueRunning : bool;
  state : SchedulerThreadState;
}.

Definition set_threadHandle (h : option Z) (s : SchedulerThread) : SchedulerThread :=
  mkScheduler h (schedulerInterval s) (task s) (taskParam s) (continueRunning s) (state s).
Definition set_continueRunning (b : bool) (s : SchedulerThread) : SchedulerThread :=
  mkScheduler (threadHandle s) (schedulerInterval s) (task s) (taskParam s) b (state s).
Definition set_state (st : SchedulerThreadState) (s : SchedulerThread) : SchedulerThread :=
  mkScheduler (threadHandle s) (schedulerInterval s) (task s) (taskParam s) (continueRunning s) st.

(** ** Operations *)

Definition SchedulerThread_Init (interval : Z) (t : option Task) (param : option Param) : bool * SchedulerThread :=
  (true, mkScheduler None interval t param true SCHEDULER_THREAD_CREATED).

(** [memset(scheduler, 0, sizeof( *scheduler))] *)
Definition SchedulerThread_Deinit (scheduler : SchedulerThread) : SchedulerThread :=
  mkScheduler None 0 None None false SCHEDULER_THREAD_CREATED.

Definition SchedulerThread_Stop (scheduler : SchedulerThread) : SchedulerThread := set_continueRunning false scheduler.

Definition SchedulerThread_GetState (scheduler : SchedulerThread) : SchedulerThreadState := state scheduler.

(** What the caller of [SchedulerThread_Start] sees, when the new thread does not
    run before it returns. *)
Definition SchedulerThread_Start (handle : option Z) (scheduler : SchedulerThread) : bool * SchedulerThread :=
  if decide (state scheduler <> SCHEDULER_THREAD_CREATED) then (false, scheduler)
  else match handle with
  | Some h => (true, set_state SCHEDULER_THREAD_STARTED (set_threadHandle (Some h) scheduler))
  | None => (false, scheduler)
  end.

(** ** The worker thread *)

(** Where [SchedulerThread_MainFunc] is. *)
Inductive WorkerPc : Type :=
  | NotCreated
  | Testing      (* about to read [continueRunning] *)
  | Calling      (* about to read [task] and [taskParam] *)
  | InTask       (* the task runs *)
  | Sleeping
  | Marking      (* about to write [state] *)
  | Returned
  | Crashed.     (* a null function pointer was called *)

(** One step of [SchedulerThread_MainFunc], and the call it makes. *)
Definition SchedulerThread_MainFunc (pc : WorkerPc) (scheduler : SchedulerThread)
    : option (WorkerPc * SchedulerThread * list (Task * option Param)) :=
  match pc with
  | Testing => Some (if continueRunning scheduler then Calling else Marking, scheduler, [])
  | Calling =>
      match task scheduler with
      | Some t => Some (InTask, scheduler, [(t, taskParam scheduler)])
      | None => Some (Crashed, scheduler, [])
      end
  | InTask => Some (Sleeping, scheduler, [])
  | Sleeping => Some (Testing, scheduler, [])
  | Marking => Some (Returned, set_state SCHEDULER_THREAD_STOPPED scheduler, [])
  | NotCreated | Returned | Crashed => None
  end.

(** ** The controlling thread *)

(** Where it is, between [SchedulerThread_Init] and the return of
    [SecurityAgent_StopAsyncTask]. *)
Inductive ControllerPc : Type :=
  | Starting       (* [SchedulerThread_Start]: about to read [state] *)
  | Creating       (* about to create the thread *)
  | MarkingStarted (* the thread exists; about to write [state] *)
  | StartFailed
  | Running        (* [SchedulerThread_Start] returned [true] *)
  | Waiting        (* [SecurityAgent_Wait]: about to join *)
  | Stopping       (* [SecurityAgent_StopAsyncTask]: about to read [state] *)
  | Requesting     (* about to call [SchedulerThread_Stop] *)
  | Joining
  | Clearing       (* about to call [SchedulerThread_Deinit] *)
  | Done
  | JoinedTwice.   (* undefined: the thread was joined before *)

#[export] Instance ControllerPc_eq : EqDecision ControllerPc.
Proof. solve_decision. Defined.

Record Config : Type := mkConfig {
  scheduler : SchedulerThread;
  worker : WorkerPc;
  controller : ControllerPc;
  joined : bool;
  calls : list (Task * option Param);
}.

(** A join returns when the thread has returned. *)
Definition join (next : ControllerPc) (c : Config) : option Config :=
  if joined c then Some (mkConfig (scheduler c) (worker c) JoinedTwice true (calls c))
  else match worker c with
       | Returned => Some (mkConfig (scheduler c) Returned next true (calls c))
       | _ => None
       end.

(** The steps of the controlling thread: the handle that [ThreadAPI_Create]
    would return, or its failure, and whether a started task is waited for are
    left open. *)
Definition control (handle : option Z) (wait : bool) (c : Config) : option Config :=
  let go sch pc := Some (mkConfig sch (worker c) pc (joined c) (calls c)) in
  let sch := scheduler c in
  match controller c with
  | Starting =>
      if decide (state sch = SCHEDULER_THREAD_CREATED) then go sch Creating else go sch StartFailed
  | Creating =>
      match handle with
      | Some h => Some (mkConfig (set_threadHandle (Some h) sch) Testing MarkingStarted (joined c) (calls c))
      | None => go sch StartFailed
      end
  | MarkingStarted => go (set_state SCHEDULER_THREAD_STARTED sch) Running
  | StartFailed => go sch Stopping
  | Running => if wait then go sch Waiting else go sch Stopping
  | Waiting => join Stopping c
  | Stopping =>
      if decide (SchedulerThread_GetState sch = SCHEDULER_THREAD_STARTED) then go sch Requesting else go sch Clearing
  | Requesting => go (SchedulerThread_Stop sch) Joining
  | Joining => join Clearing c
  | Clearing => go (SchedulerThread_Deinit sch) Done
  | Done | JoinedTwice => None
  end.

(** ** Interleaving *)

(** Another thread calls [SchedulerThread_Stop] when the controlling thread is
    at a point where it may. *)
Variable may_stop : ControllerPc -> bool.

Inductive step : Config -> Config -> Prop :=
  | worker_step c pc sch new :
      SchedulerThread_MainFunc (worker c) (scheduler c) = Some (pc, sch, new) ->
      step c (mkConfig sch pc (controller c) (joined c) (calls c ++ new))
  | controller_step handle wait c c' :
      control handle wait c = Some c' -> step c c'
  | stop_step c :
      may_stop (controller c) = true -> continueRunning (scheduler c) = true ->
      step c (mkConfig (SchedulerThread_Stop (scheduler c)) (worker c) (controller c) (joined c) (calls c)).

Definition initial (interval : Z) (t : Task) (param : option Param) : Config :=
  mkConfig (SchedulerThread_Init interval (Some t) param).2 NotCreated Starting false [].

End Scheduler.
Arguments SchedulerThread : clear implicits.
Arguments Config : clear implicits.
Arguments step {Task Param} may_stop _ _.

(** ** Invariant *)

(** A stop may be requested from the moment [SchedulerThread_Start] returned. *)
Definition after_start (pc : ControllerPc) : bool :=
  match pc with Starting | Creating | MarkingStarted => false | _ => true end.

(** A stop may be requested as soon as the thread runs. *)
Definition once_created (pc : ControllerPc) : bool :=
  match pc with Starting | Creating => false | _ => true end.

Section Invariant.
Context {Task Param : Type}.
Implicit Types (c : Config Task Param).

(** Where the worker can be when the state field has this value and the thread
    was or was not joined. *)
Definition worker_at (running : bool) (st : SchedulerThreadState) (w : WorkerPc) : bool :=
  match w with
  | Testing | InTask | Sleeping | Calling => bool_decide (st = SCHEDULER_THREAD_STARTED)
  | Marking => negb running && bool_decide (st = SCHEDULER_THREAD_STARTED)
  | Returned => negb running && bool_decide (st = SCHEDULER_THREAD_STOPPED)
  | NotCreated | Crashed => false
  end.

Definition is_returned (w : WorkerPc) : bool := match w with Returned => true | _ => false end.
Definition is_not_created (w : WorkerPc) : bool := match w with NotCreated => true | _ => false end.

(** What the controlling thread can rely on at each of its points. *)
Definition controller_at (running : bool) (st : SchedulerThreadState) (w : WorkerPc) (j : bool) (k : ControllerPc) : bool :=
  match k with
  | Starting | Creating =>
      running && is_not_created w && bool_decide (st = SCHEDULER_THREAD_CREATED) && negb j
  | StartFailed =>
      is_not_created w && bool_decide (st = SCHEDULER_THREAD_CREATED) && negb j
  | MarkingStarted =>
      running && negb j && worker_at running SCHEDULER_THREAD_STARTED w && bool_decide (st = SCHEDULER_THREAD_CREATED)
  | Running | Waiting | Requesting => negb j && worker_at running st w
  | Joining => negb j && negb running && worker_at running st w
  | Stopping =>
      if is_not_created w then bool_decide (st = SCHEDULER_THREAD_CREATED) && negb j
      else worker_at running st w && (negb j || is_returned w)
  | Clearing => is_not_created w || is_returned w
  | Done => (is_not_created w || is_returned w) && negb running
  | JoinedTwice => false
  end.

(** The task of the scheduler, kept until it is cleared. *)
Definition keeps_task (t : Task) (param : option Param) c : Prop :=
  match controller c with
  | Done => scheduler c = SchedulerThread_Deinit (scheduler c)
  | _ => task (scheduler c) = Some t /\ taskParam (scheduler c) = param
  end.

Definition scheduler_inv (t : Task) (param : option Param) c : Prop :=
  controller_at (continueRunning (scheduler c)) (state (scheduler c)) (worker c) (joined c) (controller c) = true /\
  keeps_task t param c /\ Forall (eq (t, param)) (calls c).

(** The finitely many combinations of the control fields are checked by
    computation. *)
Ltac by_cases :=
  repeat match goal with
  | w : WorkerPc |- _ => destruct w
  | k : ControllerPc |- _ => destruct k
  | b : bool |- _ => destruct b
  | st : SchedulerThreadState |- _ => destruct st
  end; try discriminate; try reflexivity; try congruence.

Lemma worker_inv t param c pc sch new :
  scheduler_inv t param c -> SchedulerThread_MainFunc (worker c) (scheduler c) = Some (pc, sch, new) ->
  scheduler_inv t param (mkConfig sch pc (controller c) (joined c) (calls c ++ new)).
Proof.
  destruct c as [[h i tk p run st] w k j l]. intros (Hc & Hk & Hl) Hs. unfold scheduler_inv, keeps_task in *. cbn in *.
  destruct (decide (k = Done)) as [->|Hd]; [destruct w; cbn in Hs; try discriminate; by_cases|].
  assert (Ht : tk = Some t /\ p = param) by (by destruct k). destruct Ht as [-> ->].
  destruct w; cbn in Hs; try discriminate; injection Hs as <- <- <-; rewrite ?app_nil_r;
    (split; [by_cases | split; [by destruct k | try done]]).
  rewrite Forall_app. split; [done | by repeat constructor].
Qed.

Lemma controller_inv t param handle wait c c' :
  scheduler_inv t param c -> control handle wait c = Some c' -> scheduler_inv t param c'.
Proof.
  destruct c as [[h i tk p run st] w k j l]. intros (Hc & Hk & Hl) Hs. unfold scheduler_inv, keeps_task in *. cbn in *.
  destruct k; cbn in Hs; try discriminate; unfold join in Hs; cbn in Hs;
    repeat match type of Hs with context [match ?x with _ => _ end] => destruct x end; try discriminate;
    injection Hs as <-; cbn; (split; [by_cases | split; [|done]]);
    first [exact Hk | done].
Qed.

Lemma step_inv t param c c' :
  scheduler_inv t param c -> step after_start c c' -> scheduler_inv t param c'.
Proof.
  intros Hi Hs. destruct Hs as [c pc sch new Hs | handle wait c c' Hs | c Hm Hr].
  - by eapply worker_inv.
  - by eapply controller_inv.
  - destruct c as [[h i tk p run st] w k j l], Hi as (Hc & Hk & Hl). unfold scheduler_inv, keeps_task in *. cbn in *.
    subst run. split; [by_cases|]. split; [destruct k; try exact Hk; by_cases | done].
Qed.

Lemma reachable_inv interval t param c :
  rtc (step after_start) (initial interval t param) c -> scheduler_inv t param c.
Proof.
  revert c. apply rtc_ind_r; [by repeat constructor|].
  intros. by eapply step_inv.
Qed.

(** ** After a stop *)

(** The steps a thread can still take once [continueRunning] is false. *)
Definition worker_budget (w : WorkerPc) : nat :=
  match w with
  | Calling => 5 | InTask => 4 | Sleeping => 3 | Testing => 2 | Marking => 1 | NotCreated | Returned | Crashed => 0
  end.
Definition controller_budget (k : ControllerPc) : nat :=
  match k with
  | Starting => 16 | Creating => 15 | MarkingStarted => 7 | StartFailed | Running => 6 | Waiting => 5 | Stopping => 4
  | Requesting => 3 | Joining => 2 | Clearing => 1 | Done | JoinedTwice => 0
  end.
Definition budget c : nat := worker_budget (worker c) + controller_budget (controller c).

(** The call that a worker about to call the task still makes. *)
Definition pending_call (w : WorkerPc) : nat := match w with Calling => 1 | _ => 0 end.

Lemma stopped_step may_stop c c' :
  continueRunning (scheduler c) = false -> step may_stop c c' ->
  continueRunning (scheduler c') = false /\ (budget c' < budget c)%nat /\
  (length (calls c') + pending_call (worker c') <= length (calls c) + pending_call (worker c))%nat.
Proof.
  intros Hr Hs. destruct Hs as [c pc sch new Hs | handle wait c c' Hs | c Hm Hr']; [| |congruence];
    destruct c as [[h i tk p run st] w k j l]; cbn in *; subst run; unfold budget.
  - destruct w; cbn in Hs; try discriminate; try (destruct tk); injection Hs as <- <- <-;
      cbn; rewrite length_app; cbn; split; (done || lia).
  - destruct k; cbn in Hs; try discriminate; unfold join in Hs; cbn in Hs;
      repeat match type of Hs with context [match ?x with _ => _ end] => destruct x end; try discriminate;
      injection Hs as <-; cbn; (split; [done | try destruct w; cbn; lia]).
Qed.

Lemma stopped_steps may_stop n c c' :
  continueRunning (scheduler c) = false -> nsteps (step may_stop) n c c' ->
  (n + budget c' <= budget c)%nat /\
  (length (calls c') + pending_call (worker c') <= length (calls c) + pending_call (worker c))%nat.
Proof.
  intros Hr Hs. revert Hr. induction Hs as [|n c c1 c' H1 _ IH]; intros Hr; [lia|].
  destruct (stopped_step _ _ _ Hr H1) as (Hr1 & Hb & Hc). destruct (IH Hr1) as (IH1 & IH2). lia.
Qed.

Definition worker_active (w : WorkerPc) : bool :=
  match w with NotCreated | Returned | Crashed => false | _ => true end.

Lemma worker_progress may_stop c : worker_active (worker c) = true -> exists c', step may_stop c c'.
Proof.
  intros Hw. destruct (SchedulerThread_MainFunc (worker c) (scheduler c)) as [[[pc sch] new]|] eqn:Hs.
  - eexists. by apply worker_step, Hs.
  - destruct (worker c); cbn in Hs, Hw; try discriminate. by destruct (task (scheduler c)).
Qed.

(** Some thread can always step until the controlling thread is done. *)
Lemma progress t param may_stop c :
  scheduler_inv t param c -> controller c <> Done -> exists c', step may_stop c c'.
Proof.
  intros (Hc & _ & _) Hd. destruct (worker_active (worker c)) eqn:Hw; [by apply worker_progress|].
  destruct (control None false c) as [c'|] eqn:Hk; [exists c'; by eapply controller_step|].
  destruct c as [[h i tk p run st] w k j l]; cbn in *.
  destruct k; cbn in Hk; try discriminate; try done; unfold join in Hk; cbn in Hk;
    repeat match type of Hk with context [match ?x with _ => _ end] => destruct x eqn:? end; by_cases.
Qed.

(** ** Schedules

    An interleaving as the list of the threads' turns, which can be computed. *)

Inductive Turn : Type :=
  | WorkerTurn
  | ControllerTurn (handle : option Z) (wait : bool)
  | StopTurn.

Definition turn (may_stop : ControllerPc -> bool) (x : Turn) c : option (Config Task Param) :=
  match x with
  | WorkerTurn =>
      match SchedulerThread_MainFunc (worker c) (scheduler c) with
      | Some (pc, sch, new) => Some (mkConfig sch pc (controller c) (joined c) (calls c ++ new))
      | None => None
      end
  | ControllerTurn handle wait => control handle wait c
  | StopTurn =>
      if may_stop (controller c) && continueRunning (scheduler c)
      then Some (mkConfig (SchedulerThread_Stop (scheduler c)) (worker c) (controller c) (joined c) (calls c))
      else None
  end.

Fixpoint run_turns (may_stop : ControllerPc -> bool) (l : list Turn) c : option (Config Task Param) :=
  match l with
  | [] => Some c
  | x :: l => match turn may_stop x c with Some c' => run_turns may_stop l c' | None => None end
  end.

Lemma turn_step may_stop x c c' : turn may_stop x c = Some c' -> step may_stop c c'.
Proof.
  destruct x as [|handle wait|]; cbn; intros H.
  - destruct (SchedulerThread_MainFunc (worker c) (scheduler c)) as [[[pc sch] new]|] eqn:E; [|done].
    injection H as <-. by apply worker_step.
  - by eapply controller_step.
  - destruct (may_stop (controller c) && continueRunning (scheduler c)) eqn:E; [|done].
    injection H as <-. apply andb_true_iff in E as [E1 E2]. by apply stop_step.
Qed.

Lemma run_turns_rtc may_stop l c c' : run_turns may_stop l c = Some c' -> rtc (step may_stop) c c'.
Proof.
  revert c. induction l as [|x l IH]; cbn; intros c H; [by injection H as <-|].
  destruct (turn may_stop x c) as [c1|] eqn:E; [|done]. eapply rtc_l; [by eapply turn_step | by apply IH].
Qed.

(** The controlling thread alone carries out [SchedulerThread_Start]. *)
Lemma start_alone may_stop handle sch w l :
  exists turns, run_turns may_stop turns (mkConfig sch w Starting false l) =
    let (ok, sch') := SchedulerThread_Start handle sch in
    Some (if ok then mkConfig sch' Testing Running false l else mkConfig sch' w StartFailed false l).
Proof.
  unfold SchedulerThread_Start. destruct (decide (state sch <> SCHEDULER_THREAD_CREATED)) as [Hs|Hs].
  - exists [ControllerTurn handle false]. cbn. by rewrite decide_False.
  - apply dec_stable in Hs. destruct handle as [h|].
    + exists [ControllerTurn None false; ControllerTurn (Some h) false; ControllerTurn None false].
      cbn. by rewrite decide_True.
    + exists [ControllerTurn None false; ControllerTurn None false]. cbn. by rewrite decide_True.
Qed.

(** A start, a full round of the loop, a stop during the next call, and the
    clean up. *)
Definition shutdown_turns : list Turn :=
  [ControllerTurn None false; ControllerTurn (Some 1) false; ControllerTurn None false;
   WorkerTurn; WorkerTurn; WorkerTurn; WorkerTurn; WorkerTurn; WorkerTurn; StopTurn; WorkerTurn; WorkerTurn; WorkerTurn].
Definition cleanup_turns : list Turn :=
  [WorkerTurn; ControllerTurn None false; ControllerTurn None false; ControllerTurn None false].

(** A stop before the state is set: the worker returns, the state becomes
    [SCHEDULER_THREAD_STARTED] after it, and the waiting thread joins, then stops
    the task and joins again. *)
Definition early_stop_turns : list Turn :=
  [ControllerTurn None false; ControllerTurn (Some 1) false; StopTurn; WorkerTurn; WorkerTurn;
   ControllerTurn None false; ControllerTurn None true; ControllerTurn None true;
   ControllerTurn None false; ControllerTurn None false; ControllerTurn None false].

(** ** Properties *)

(** C8: In every interleaving in which a stop is requested at the earliest when
    the start has returned, the worker only calls the task it was initialised
    with, on its parameter, never through a null pointer; the thread is joined
    at most once; and when the controlling thread is done the scheduler is
    cleared and the worker has returned or was never created, so that no thread
    uses the scheduler again. *)
Theorem scheduler_safe interval t param c :
  rtc (step after_start) (initial interval t param) c ->
  worker c <> Crashed /\ controller c <> JoinedTwice /\ Forall (eq (t, param)) (calls c) /\
  (controller c = Done ->
   (worker c = NotCreated \/ worker c = Returned) /\ scheduler c = SchedulerThread_Deinit (scheduler c) /\
   forall c', ~ step after_start c c').
Proof.
  intros H. apply reachable_inv in H as (Hc & Hk & Hl).
  destruct c as [[h i tk p run st] w k j l]; cbn in *.
  split; [intros ->; by_cases|]. split; [intros ->; by_cases|]. split; [done|]. intros ->.
  cbn in Hc. apply andb_true_iff in Hc as [Hw Hr]. apply negb_true_iff in Hr as ->.
  split; [by destruct w; auto|]. split; [done|]. intros c' Hs.
  inversion Hs as [c pc sch new Hs' | handle wait c c1 Hs' | c Hm Hr]; subst; cbn in *; [by destruct w | done | done].
Qed.

(** C18: After a stop every execution comes to its end: from any point reached
    there are at most eleven more steps, at most one more call of the task,
    and none at all unless the worker was just about to make it; and an execution
    that cannot go on has ended with the controlling thread done. *)
Theorem stop_terminates interval t param c n c' :
  rtc (step after_start) (initial interval t param) c -> continueRunning (scheduler c) = false ->
  nsteps (step after_start) n c c' ->
  (n <= 11)%nat /\ (length (calls c') <= length (calls c) + pending_call (worker c))%nat /\
  (nf (step after_start) c' -> controller c' = Done).
Proof.
  intros Hc Hr Hn. pose proof (stopped_steps _ _ _ _ Hr Hn) as [Hb Hl].
  assert (Hc' : scheduler_inv t param c').
  { eapply reachable_inv. etrans; [exact Hc|]. by eapply rtc_nsteps_2. }
  split; [|split].
  - apply reachable_inv in Hc as (Hc & _ & _). rewrite Hr in Hc.
    assert (budget c <= 11)%nat; [|lia]. unfold budget.
    destruct (controller c), (worker c); cbn in *; (discriminate || lia).
  - lia.
  - intros Hnf. destruct (decide (controller c' = Done)) as [|Hd]; [done|].
    destruct Hnf. destruct (progress t param after_start c' Hc' Hd) as [c1 H1]. by exists c1.
Qed.

(** When a stop may come as soon as the thread exists, before
    [SchedulerThread_Start] has set the state, the state stays
    [SCHEDULER_THREAD_STARTED] after the worker has returned, and a thread that
    was waited for is joined a second time. *)
Theorem early_stop_joins_twice interval t param :
  exists c, rtc (step once_created) (initial interval t param) c /\
    worker c = Returned /\ state (scheduler c) = SCHEDULER_THREAD_STARTED /\ controller c = JoinedTwice.
Proof.
  exists (mkConfig (mkScheduler (Some 1) interval (Some t) param false SCHEDULER_THREAD_STARTED) Returned JoinedTwice true []).
  split; [by apply (run_turns_rtc _ early_stop_turns) | done].
Qed.

End Invariant.

(** ** Witnesses *)

Definition sample : Config nat nat := initial 1000 7%nat (Some 5%nat).

Definition during_stop : Config nat nat :=
  mkConfig (mkScheduler (Some 1) 1000 (Some 7%nat) (Some 5%nat) false SCHEDULER_THREAD_STARTED) Marking Running false
    [(7%nat, Some 5%nat); (7%nat, Some 5%nat)].
Definition stopped : Config nat nat :=
  mkConfig (mkScheduler None 0 None None false SCHEDULER_THREAD_CREATED) Returned Done false
    [(7%nat, Some 5%nat); (7%nat, Some 5%nat)].

Lemma sample_stops : rtc (step after_start) sample during_stop.
Proof. by apply (run_turns_rtc _ shutdown_turns). Qed.

Lemma sample_cleans_up : rtc (step after_start) during_stop stopped.
Proof. by apply (run_turns_rtc _ cleanup_turns). Qed.

Lemma scheduler_safe_witness :
  rtc (step after_start) sample stopped /\ worker stopped <> Crashed /\ forall c, ~ step after_start stopped c.
Proof.
  assert (H : rtc (step after_start) sample stopped) by (etrans; [exact sample_stops | exact sample_cleans_up]).
  destruct (scheduler_safe 1000 7%nat (Some 5%nat) stopped H) as (Hw & _ & _ & Hd).
  split; [done|]. split; [exact Hw|]. by apply (Hd eq_refl).
Defined.

Lemma stop_terminates_witness :
  exists n, nsteps (step after_start) n during_stop stopped /\ (n <= 11)%nat.
Proof.
  destruct (rtc_nsteps_1 _ _ sample_cleans_up) as [n Hn]. exists n. split; [exact Hn|].
  by apply (stop_terminates 1000 7%nat (Some 5%nat) during_stop n stopped sample_stops).
Defined.
