(* ===== verification/SecurityAgent.v ===== *)
(** * [security_agent.c] and [main.c]: the modules put together

    The agent starts its modules in the order of what they need from each other,
    starts a thread for each task, and at the end stops the threads and releases
    the modules.  The modules are an interface here: what a module promises is
    that its initialisation succeeds or leaves it uninitialised, and that it can
    be released once, when no other module and no thread needs it any more.  The
    files of the modules prove what stands behind these promises. *)

From S2P Require Import Prelude Scheduler.
Open Scope Z_scope.

(** ** Modules and threads *)

(** What the agent initialises: the [..._Init] and [..._Deinit] functions, with
    the five queues one by one.  [EventMonitorTask_Init] initialises collectors. *)
Inductive Module : Type :=
  | Logger
  | IoTHub
  | LocalConfiguration
  | MemoryMonitor
  | TwinConfiguration
  | DiagnosticEventQueue
  | OperationalEventsQueue
  | HighPriorityEventQueue
  | LowPriorityEventQueue
  | TwinUpdatesQueue
  | DiagnosticEventCollector
  | AgentTelemetryProvider
  | IoTHubAdapter
  | EventPublisherTask
  | EventMonitorTask
  | UpdateTwinTask.

#[export] Instance Module_eq : EqDecision Module.
Proof. solve_decision. Defined.

(** The functions the threads run. *)
Inductive Task : Type :=
  | EventPublisherTask_Execute
  | EventMonitorTask_Execute
  | UpdateTwinTask_Execute.

#[export] Instance Task_eq : EqDecision Task.
Proof. solve_decision. Defined.

(** A parameter of a task is the task's own module. *)
Definition module_of (t : Task) : Module :=
  match t with
  | EventPublisherTask_Execute => EventPublisherTask
  | EventMonitorTask_Execute => EventMonitorTask
  | UpdateTwinTask_Execute => UpdateTwinTask
  end.

(** The functions that the agent calls. *)
Class AgentModules (S : Type) : Type := {
  Init : Module -> M S bool;
  Deinit : Module -> M S unit;
  Logger_SetMinimumSeverities : M S unit;
  Logger_SetCorrelation : M S unit;
  ProcessInfoHandler_SwitchRealAndEffectiveUsers : M S bool;
  IoTHubAdapter_Connect : M S bool;
  twinUpdatesQueue_GetSize : M S (option Z);  (* [None]: not [QUEUE_OK] *)
  execute : Task -> M S unit;
  ThreadAPI_Create : Task -> M S (option Z);  (* [None]: not [THREADAPI_OK] *)
  ThreadAPI_Join : Z -> M S unit;
}.

Record SecurityAgentAsyncTask : Type := mkAsyncTask {
  taskInitiated : bool;
  taskThread : SchedulerThread Task Module;
  taskThreadInitiated : bool;
}.

(** The fields [...Initiated] of the agent and of its queues, and its tasks. *)
Record SecurityAgent : Type := mkAgent {
  initiated : Module -> bool;
  async : Task -> SecurityAgentAsyncTask;
}.

Definition set_initiated (m : Module) (agent : SecurityAgent) : SecurityAgent :=
  mkAgent (fun m' => if decide (m' = m) then true else initiated agent m') (async agent).
Definition set_async (t : Task) (x : SecurityAgentAsyncTask) (agent : SecurityAgent) : SecurityAgent :=
  mkAgent (initiated agent) (fun t' => if decide (t' = t) then x else async agent t').
Definition set_taskInitiated (t : Task) (agent : SecurityAgent) : SecurityAgent :=
  set_async t (mkAsyncTask true (taskThread (async agent t)) (taskThreadInitiated (async agent t))) agent.
Definition set_taskThread (t : Task) (sch : SchedulerThread Task Module) (agent : SecurityAgent) : SecurityAgent :=
  set_async t (mkAsyncTask (taskInitiated (async agent t)) sch (taskThreadInitiated (async agent t))) agent.

(** [memset(agent, 0, sizeof( *agent))] *)
Definition zero_agent : SecurityAgent :=
  mkAgent (fun _ => false)
    (fun _ => mkAsyncTask false (mkScheduler None 0 None None false SCHEDULER_THREAD_CREATED) false).

Definition SCHEDULER_INTERVAL : Z := 1 * 1000.
Definition TWIN_UPDATE_SCHEDULER_INTERVAL : Z := 10 * 1000.

(** ** Operations *)

Section SecurityAgent.
Context {S : Type} {Mods : AgentModules S}.

Definition SecurityAgent_InitQueue (queue : Module) (agent : SecurityAgent) : M S (bool * SecurityAgent) :=
  ok <- Init queue ;;
  ret (if ok then (true, set_initiated queue agent) else (false, agent)).

Definition SecurityAgent_DeinitQueue (queue : Module) (queueInitiated : bool) : M S unit :=
  if queueInitiated then Deinit queue else ret tt.

Definition SecurityAgent_InitAllQueues (agent : SecurityAgent) : M S (bool * SecurityAgent) :=
  let* (ok, agent) := SecurityAgent_InitQueue DiagnosticEventQueue agent in
  require ok else (false, agent) ;;
  let* (ok, agent) := SecurityAgent_InitQueue OperationalEventsQueue agent in
  require ok else (false, agent) ;;
  let* (ok, agent) := SecurityAgent_InitQueue HighPriorityEventQueue agent in
  require ok else (false, agent) ;;
  let* (ok, agent) := SecurityAgent_InitQueue LowPriorityEventQueue agent in
  require ok else (false, agent) ;;
  let* (ok, agent) := SecurityAgent_InitQueue TwinUpdatesQueue agent in
  require ok else (false, agent) ;;
  ret (true, agent).

(** [ThreadAPI_Join] waits for a thread whose loop goes on: it does not return
    then.  A thread that has returned has set the state of its scheduler. *)
Definition join_thread (sch : SchedulerThread Task Module) : M S (SchedulerThread Task Module) :=
  if continueRunning sch then undefined
  else
    handle <- deref (threadHandle sch) ;;
    ThreadAPI_Join handle ;;;
    ret (set_state SCHEDULER_THREAD_STOPPED sch).

Definition SecurityAgent_StopAsyncTask (t : Task) (agent : SecurityAgent) : M S SecurityAgent :=
  let asyncTask := async agent t in
  if taskThreadInitiated asyncTask then
    sch <- (if decide (SchedulerThread_GetState (taskThread asyncTask) = SCHEDULER_THREAD_STARTED) then
              join_thread (SchedulerThread_Stop (taskThread asyncTask))
            else ret (taskThread asyncTask)) ;;
    ret (set_taskThread t (SchedulerThread_Deinit sch) agent)
  else ret agent.

(** The part of [SecurityAgent_Deinit] for a task. *)
Definition deinit_task (t : Task) (agent : SecurityAgent) : M S SecurityAgent :=
  agent <- SecurityAgent_StopAsyncTask t agent ;;
  (if taskInitiated (async agent t) then Deinit (module_of t) else ret tt) ;;;
  ret agent.

Definition SecurityAgent_Deinit (agent : SecurityAgent) : M S SecurityAgent :=
  agent <- deinit_task EventPublisherTask_Execute agent ;;
  agent <- deinit_task EventMonitorTask_Execute agent ;;
  agent <- deinit_task UpdateTwinTask_Execute agent ;;
  (if initiated agent IoTHubAdapter then Deinit IoTHubAdapter else ret tt) ;;;
  (if initiated agent TwinConfiguration then Deinit TwinConfiguration else ret tt) ;;;
  Deinit AgentTelemetryProvider ;;;
  (if initiated agent DiagnosticEventCollector then Deinit DiagnosticEventCollector else ret tt) ;;;
  SecurityAgent_DeinitQueue HighPriorityEventQueue (initiated agent HighPriorityEventQueue) ;;;
  SecurityAgent_DeinitQueue LowPriorityEventQueue (initiated agent LowPriorityEventQueue) ;;;
  SecurityAgent_DeinitQueue TwinUpdatesQueue (initiated agent TwinUpdatesQueue) ;;;
  SecurityAgent_DeinitQueue OperationalEventsQueue (initiated agent OperationalEventsQueue) ;;;
  SecurityAgent_DeinitQueue DiagnosticEventQueue (initiated agent DiagnosticEventQueue) ;;;
  (if initiated agent MemoryMonitor then Deinit MemoryMonitor else ret tt) ;;;
  (if initiated agent LocalConfiguration then Deinit LocalConfiguration else ret tt) ;;;
  (if initiated agent IoTHub then Deinit IoTHub else ret tt) ;;;
  (if initiated agent Logger then Deinit Logger else ret tt) ;;;
  ret agent.

(** [SecurityAgent_Init] up to its label [cleanup]. *)
Definition init_modules : M S (bool * SecurityAgent) :=
  let agent := zero_agent in
  ok <- Init Logger ;;
  require ok else (false, agent) ;;
  let agent := set_initiated Logger agent in
  ok <- Init IoTHub ;;
  require ok else (false, agent) ;;
  let agent := set_initiated IoTHub agent in
  ok <- Init LocalConfiguration ;;
  require ok else (false, agent) ;;
  let agent := set_initiated LocalConfiguration agent in
  Logger_SetMinimumSeverities ;;;
  ok <- Init MemoryMonitor ;;
  require ok else (false, agent) ;;
  let agent := set_initiated MemoryMonitor agent in
  ok <- Init TwinConfiguration ;;
  require ok else (false, agent) ;;
  let agent := set_initiated TwinConfiguration agent in
  ok <- ProcessInfoHandler_SwitchRealAndEffectiveUsers ;;
  require ok else (false, agent) ;;
  let* (ok, agent) := SecurityAgent_InitAllQueues agent in
  require ok else (false, agent) ;;
  ok <- Init DiagnosticEventCollector ;;
  require ok else (false, agent) ;;
  let agent := set_initiated DiagnosticEventCollector agent in
  Logger_SetCorrelation ;;;
  ok <- Init AgentTelemetryProvider ;;
  require ok else (false, agent) ;;
  ok <- Init IoTHubAdapter ;;
  require ok else (false, agent) ;;
  ret (true, set_initiated IoTHubAdapter agent).

Definition SecurityAgent_Init : M S (bool * SecurityAgent) :=
  let* (success, agent) := init_modules in
  agent <- (if success then ret agent else SecurityAgent_Deinit agent) ;;
  ret (success, agent).

Definition SecurityAgent_ConnectAndUpdateConfiguration : M S bool :=
  ok <- IoTHubAdapter_Connect ;;
  require ok else false ;;
  size <- twinUpdatesQueue_GetSize ;;
  match size with
  | None => ret false
  | Some twinUpdatesQueueSize =>
      if twinUpdatesQueueSize =? 0 then ret false
      else execute UpdateTwinTask_Execute ;;; ret true
  end.

Definition SecurityAgent_StartAsyncTask (t : Task) (interval : Z) (agent : SecurityAgent) : M S (bool * SecurityAgent) :=
  let (ok, sch) := SchedulerThread_Init interval (Some t) (Some (module_of t)) in
  require ok else (false, set_taskThread t sch agent) ;;
  let agent := set_async t (mkAsyncTask (taskInitiated (async agent t)) sch true) agent in
  handle <- (if decide (state sch = SCHEDULER_THREAD_CREATED) then ThreadAPI_Create t else ret None) ;;
  let (ok, sch) := SchedulerThread_Start handle sch in
  ret (ok, set_taskThread t sch agent).

Definition SecurityAgent_Start (agent : SecurityAgent) : M S (bool * SecurityAgent) :=
  ok <- Init UpdateTwinTask ;;
  require ok else (false, agent) ;;
  let agent := set_taskInitiated UpdateTwinTask_Execute agent in
  ok <- SecurityAgent_ConnectAndUpdateConfiguration ;;
  require ok else (false, agent) ;;
  ok <- Init EventPublisherTask ;;
  require ok else (false, agent) ;;
  let agent := set_taskInitiated EventPublisherTask_Execute agent in
  let* (ok, agent) := SecurityAgent_StartAsyncTask EventPublisherTask_Execute SCHEDULER_INTERVAL agent in
  require ok else (false, agent) ;;
  ok <- Init EventMonitorTask ;;
  require ok else (false, agent) ;;
  let* (ok, agent) := SecurityAgent_StartAsyncTask EventMonitorTask_Execute SCHEDULER_INTERVAL agent in
  require ok else (false, agent) ;;
  SecurityAgent_StartAsyncTask UpdateTwinTask_Execute TWIN_UPDATE_SCHEDULER_INTERVAL agent.

Definition SecurityAgent_Wait (agent : SecurityAgent) : M S SecurityAgent :=
  sch <- join_thread (taskThread (async agent EventPublisherTask_Execute)) ;;
  let agent := set_taskThread EventPublisherTask_Execute sch agent in
  sch <- join_thread (taskThread (async agent EventMonitorTask_Execute)) ;;
  let agent := set_taskThread EventMonitorTask_Execute sch agent in
  sch <- join_thread (SchedulerThread_Stop (taskThread (async agent UpdateTwinTask_Execute))) ;;
  ret (set_taskThread UpdateTwinTask_Execute sch agent).

Definition stop_thread (t : Task) (agent : SecurityAgent) : SecurityAgent :=
  set_taskThread t (SchedulerThread_Stop (taskThread (async agent t))) agent.

Definition SecurityAgent_Stop (agent : SecurityAgent) : M S SecurityAgent :=
  SecurityAgent_Wait (stop_thread EventMonitorTask_Execute (stop_thread EventPublisherTask_Execute agent)).

Definition main : M S Z :=
  let* (agentInitiated, agent) := SecurityAgent_Init in
  require agentInitiated else 0 ;;
  let* (started, agent) := SecurityAgent_Start agent in
  agent <- (if started then SecurityAgent_Wait agent else ret agent) ;;
  _ <- SecurityAgent_Deinit agent ;;
  ret 0.

(** ** What the agent relies on *)

(** The modules that a module uses from its initialisation until it is
    released.  The monitor task only keeps pointers; its thread uses them. *)
Definition needs (m : Module) : list Module :=
  match m with
  | DiagnosticEventQueue | OperationalEventsQueue | HighPriorityEventQueue | LowPriorityEventQueue | TwinUpdatesQueue =>
      [MemoryMonitor]
  | DiagnosticEventCollector => [DiagnosticEventQueue]
  | AgentTelemetryProvider => [LowPriorityEventQueue; HighPriorityEventQueue]
  | IoTHubAdapter => [IoTHub; LocalConfiguration; TwinUpdatesQueue]
  | EventPublisherTask => [HighPriorityEventQueue; LowPriorityEventQueue; OperationalEventsQueue; IoTHubAdapter]
  | UpdateTwinTask => [TwinUpdatesQueue; IoTHubAdapter]
  | _ => []
  end.

(** The modules that a thread uses. *)
Definition thread_needs (t : Task) : list Module :=
  [ module_of t; Logger; LocalConfiguration; TwinConfiguration; MemoryMonitor; DiagnosticEventCollector ] ++
  match t with
  | EventPublisherTask_Execute => [HighPriorityEventQueue; LowPriorityEventQueue; OperationalEventsQueue; IoTHubAdapter]
  | EventMonitorTask_Execute =>
      [HighPriorityEventQueue; LowPriorityEventQueue; OperationalEventsQueue; DiagnosticEventQueue; AgentTelemetryProvider]
  | UpdateTwinTask_Execute => [TwinUpdatesQueue; IoTHubAdapter]
  end.

(** What the modules promise: [resources] are the modules that are initialised,
    [running] the handles of the threads, and [waiting] whether twins are queued.
    No twin arrives but while the adapter connects. *)
Class AgentLaws : Type := {
  resources : S -> Module -> bool;
  running : S -> Task -> option Z;
  waiting : S -> bool;
  keeps (s s' : S) : Prop :=
    (forall m, resources s' m = resources s m) /\ (forall t, running s' t = running s t) /\ waiting s' = waiting s;
  Init_law m s :
    resources s m = false -> (forall d, d ∈ needs m -> resources s d = true) ->
    exists ok s', Init m s = Some (ok, s') /\
      (forall m', resources s' m' = if decide (m' = m) then ok else resources s m') /\
      (forall t, running s' t = running s t) /\ waiting s' = waiting s;
  Deinit_law m s :
    resources s m = true \/ m = AgentTelemetryProvider ->
    (forall m', m ∈ needs m' -> resources s m' = false) -> (forall t, m ∈ thread_needs t -> running s t = None) ->
    (m = UpdateTwinTask -> waiting s = false) ->
    exists s', Deinit m s = Some (tt, s') /\
      (forall m', resources s' m' = if decide (m' = m) then false else resources s m') /\
      (forall t, running s' t = running s t) /\ (waiting s = false -> waiting s' = false);
  Deinit_waiting s : resources s UpdateTwinTask = true -> waiting s = true -> Deinit UpdateTwinTask s = None;
  severities_law s : exists s', Logger_SetMinimumSeverities s = Some (tt, s') /\ keeps s s';
  correlation_law s : exists s', Logger_SetCorrelation s = Some (tt, s') /\ keeps s s';
  switch_law s : exists ok s', ProcessInfoHandler_SwitchRealAndEffectiveUsers s = Some (ok, s') /\ keeps s s';
  GetSize_law s : resources s TwinUpdatesQueue = true -> exists size s', twinUpdatesQueue_GetSize s = Some (size, s') /\ keeps s s';
  Connect_law s :
    resources s IoTHubAdapter = true ->
    exists ok s', IoTHubAdapter_Connect s = Some (ok, s') /\
      (forall m, resources s' m = resources s m) /\ (forall t, running s' t = running s t);
  execute_law t s :
    resources s (module_of t) = true ->
    exists s', execute t s = Some (tt, s') /\
      (forall m, resources s' m = resources s m) /\ (forall t', running s' t' = running s t');
  Create_law t s :
    (forall m, m ∈ thread_needs t -> resources s m = true) -> running s t = None ->
    exists handle s', ThreadAPI_Create t s = Some (handle, s') /\
      (forall m, resources s' m = resources s m) /\
      (forall t', running s' t' = if decide (t' = t) then handle else running s t') /\ waiting s' = waiting s /\
      (forall t', handle = running s t' -> handle = None);
  Join_law t h s :
    running s t = Some h -> (forall t', running s t' = Some h -> t' = t) ->
    exists s', ThreadAPI_Join h s = Some (tt, s') /\
      (forall m, resources s' m = resources s m) /\
      (forall t', running s' t' = if decide (t' = t) then None else running s t') /\
      (waiting s = false -> waiting s' = false);
}.

(** ** Releasing *)

Context {Laws : AgentLaws}.

Definition inb {A} `{EqDecision A} (x : A) (l : list A) : bool := existsb (fun y => bool_decide (y = x)) l.

Definition all_modules : list Module :=
  [ Logger; IoTHub; LocalConfiguration; MemoryMonitor; TwinConfiguration; DiagnosticEventQueue; OperationalEventsQueue;
    HighPriorityEventQueue; LowPriorityEventQueue; TwinUpdatesQueue; DiagnosticEventCollector; AgentTelemetryProvider;
    IoTHubAdapter; EventPublisherTask; EventMonitorTask; UpdateTwinTask ].
Definition all_tasks : list Task := [EventPublisherTask_Execute; EventMonitorTask_Execute; UpdateTwinTask_Execute].

(** What the fields of the agent say of a module, the telemetry provider and the
    monitor task, of which they say nothing, apart. *)
Definition flag (provider monitor : bool) (a : SecurityAgent) (m : Module) : bool :=
  match m with
  | AgentTelemetryProvider => provider
  | EventMonitorTask => monitor
  | EventPublisherTask => taskInitiated (async a EventPublisherTask_Execute)
  | UpdateTwinTask => taskInitiated (async a UpdateTwinTask_Execute)
  | _ => initiated a m
  end.

(** The thread that the agent knows of. *)
Definition thread (x : SecurityAgentAsyncTask) : option Z :=
  if taskThreadInitiated x && bool_decide (state (taskThread x) = SCHEDULER_THREAD_STARTED)
  then threadHandle (taskThread x) else None.

(** The agent's fields are true to the state. *)
Definition agent_ok (provider monitor : bool) (a : SecurityAgent) (s : S) : Prop :=
  (forall m, resources s m = flag provider monitor a m) /\
  (forall t, running s t = thread (async a t)) /\
  (forall t, state (taskThread (async a t)) = SCHEDULER_THREAD_STARTED -> threadHandle (taskThread (async a t)) <> None) /\
  (forall t t' h, thread (async a t) = Some h -> thread (async a t') = Some h -> t = t') /\
  taskInitiated (async a EventMonitorTask_Execute) = false.

(** The modules [l] have been released and the threads [ts] stopped. *)
Definition stage (provider monitor : bool) (a : SecurityAgent) (l : list Module) (ts : list Task) (s : S) : Prop :=
  (forall m, resources s m = flag provider monitor a m && negb (inb m l)) /\
  (forall t, running s t = if inb t ts then None else thread (async a t)) /\ waiting s = false.

(** Nothing that is left needs the module. *)
Definition may_release (l : list Module) (ts : list Task) (m : Module) : bool :=
  forallb (fun m' => inb m' l || negb (inb m (needs m'))) all_modules &&
  forallb (fun t => inb t ts || negb (inb m (thread_needs t))) all_tasks && negb (inb m l).

Lemma inb_true {A} `{EqDecision A} (x : A) l : x ∈ l -> inb x l = true.
Proof. intros H. apply existsb_exists. exists x. rewrite <- list_elem_of_In. by rewrite bool_decide_eq_true_2. Qed.

Lemma in_all_modules m : In m all_modules.
Proof. destruct m; cbn; tauto. Qed.

Lemma in_all_tasks t : In t all_tasks.
Proof. destruct t; cbn; tauto. Qed.

Lemma inb_cons {A} `{EqDecision A} (x y : A) l : inb x (y :: l) = bool_decide (x = y) || inb x l.
Proof. cbn. f_equal. by apply bool_decide_ext. Qed.

Lemma may_release_modules l ts m m' : may_release l ts m = true -> m ∈ needs m' -> inb m' l = true.
Proof.
  unfold may_release. rewrite !andb_true_iff, !forallb_forall. intros [[H _] _] Hm.
  specialize (H m' (in_all_modules m')). apply orb_true_iff in H as [H|H]; [done|].
  by rewrite inb_true in H.
Qed.

Lemma may_release_threads l ts m t : may_release l ts m = true -> m ∈ thread_needs t -> inb t ts = true.
Proof.
  unfold may_release. rewrite !andb_true_iff, !forallb_forall. intros [[_ H] _] Hm.
  specialize (H t (in_all_tasks t)). apply orb_true_iff in H as [H|H]; [done|].
  by rewrite inb_true in H.
Qed.

(** A guarded release: the module is released when it is initialised. *)
Lemma release_step p q a l ts m (b : bool) s :
  stage p q a l ts s -> may_release l ts m = true ->
  (b = flag p q a m \/ (b = true /\ m = AgentTelemetryProvider)) ->
  exists s', (if b then Deinit m else ret tt) s = Some (tt, s') /\ stage p q a (m :: l) ts s'.
Proof.
  intros (Hr & Ht & Hw) Hm Hb.
  assert (Hl : inb m l = false) by (apply andb_true_iff in Hm as [_ Hm]; by destruct (inb m l)).
  destruct b.
  - destruct (Deinit_law m s) as (s' & Hs & Hr' & Ht' & Hw').
    + destruct Hb as [Hb|[_ ->]]; [left|by right]. by rewrite Hr, <- Hb, Hl.
    + intros m' Hn. by rewrite Hr, (may_release_modules _ _ _ _ Hm Hn), andb_false_r.
    + intros t Hn. by rewrite Ht, (may_release_threads _ _ _ _ Hm Hn).
    + done.
    + exists s'. split; [done|]. split; [|split; [|by apply Hw']].
      * intros m'. rewrite Hr', inb_cons. destruct (decide (m' = m)) as [->|Hd].
        { by rewrite bool_decide_eq_true_2, andb_false_r. }
        by rewrite bool_decide_eq_false_2, Hr.
      * intros t. by rewrite Ht', Ht.
  - exists s. split; [done|]. split; [|done]. intros m'. rewrite inb_cons.
    destruct (decide (m' = m)) as [->|Hd]; [|by rewrite bool_decide_eq_false_2, Hr].
    destruct Hb as [Hb|[? _]]; [|done]. by rewrite Hr, <- Hb.
Qed.

(** [b] is the agent [a], but for threads that have been stopped. *)
Definition stopped_of (a b : SecurityAgent) (ts : list Task) : Prop :=
  initiated b = initiated a /\ (forall t, taskInitiated (async b t) = taskInitiated (async a t)) /\
  (forall t, inb t ts = false -> async b t = async a t).

Lemma stop_step p q a b l ts t s :
  (forall t, state (taskThread (async a t)) = SCHEDULER_THREAD_STARTED -> threadHandle (taskThread (async a t)) <> None) ->
  (forall t t' h, thread (async a t) = Some h -> thread (async a t') = Some h -> t = t') ->
  stage p q a l ts s -> stopped_of a b ts -> inb t ts = false ->
  exists b' s', SecurityAgent_StopAsyncTask t b s = Some (b', s') /\
    stage p q a l (t :: ts) s' /\ stopped_of a b' (t :: ts).
Proof.
  intros Hh Hd (Hr & Ht & Hw) (B1 & B2 & B3) Hn. unfold SecurityAgent_StopAsyncTask. rewrite (B3 t Hn).
  assert (Hcut : forall sch, stopped_of a (set_taskThread t sch b) (t :: ts)).
  { intros sch. split; [exact B1|]. split; intros t'; cbn [async set_taskThread set_async].
    - destruct (decide (t' = t)) as [->|]; apply B2.
    - rewrite inb_cons. intros [Hne Hl]%orb_false_iff. apply bool_decide_eq_false_1 in Hne.
      rewrite decide_False by done. by apply B3. }
  assert (Hidle : thread (async a t) = None -> stage p q a l (t :: ts) s).
  { intros Hnone. split; [done|]. split; [|done]. intros t'. rewrite inb_cons, Ht.
    destruct (decide (t' = t)) as [->|Hne]; [|by rewrite bool_decide_eq_false_2].
    by rewrite bool_decide_eq_true_2, Hn, Hnone. }
  destruct (taskThreadInitiated (async a t)) eqn:Hi.
  2: { exists b, s. split; [done|]. split; [apply Hidle; unfold thread; by rewrite Hi|].
       split; [exact B1|]. split; [exact B2|]. intros t' [_ H]%orb_false_iff. by apply B3. }
  unfold SchedulerThread_GetState. destruct (decide _) as [Hs|Hs].
  - destruct (threadHandle (taskThread (async a t))) as [h|] eqn:Hth; [|by destruct (Hh t Hs)].
    assert (Hrun : thread (async a t) = Some h) by (unfold thread; by rewrite Hi, bool_decide_eq_true_2).
    destruct (Join_law t h s) as (s' & Hj & Hr' & Ht' & Hw').
    + by rewrite Ht, Hn.
    + intros t'. rewrite Ht. destruct (inb t' ts); [done|]. intros H. by apply (Hd t' t h).
    + eexists _, s'. split.
      { unfold join_thread. cbn. unfold bind at 1 2 3. rewrite Hth. cbn. unfold bind. rewrite Hj. reflexivity. }
      split; [|apply Hcut]. split; [by intros m; rewrite Hr', Hr|]. split; [|by apply Hw'].
      intros t'. rewrite Ht', inb_cons, Ht. destruct (decide (t' = t)) as [->|Hne].
      * by rewrite bool_decide_eq_true_2.
      * by rewrite bool_decide_eq_false_2.
  - eexists _, s. split; [reflexivity|]. split; [|apply Hcut]. apply Hidle. unfold thread.
    by rewrite bool_decide_eq_false_2, andb_false_r.
Qed.

Lemma deinit_task_step p q a b l ts t s :
  (forall t, state (taskThread (async a t)) = SCHEDULER_THREAD_STARTED -> threadHandle (taskThread (async a t)) <> None) ->
  (forall t t' h, thread (async a t) = Some h -> thread (async a t') = Some h -> t = t') ->
  stage p q a l ts s -> stopped_of a b ts -> inb t ts = false ->
  may_release l (t :: ts) (module_of t) = true -> taskInitiated (async a t) = flag p q a (module_of t) ->
  exists b' s', deinit_task t b s = Some (b', s') /\
    stage p q a (module_of t :: l) (t :: ts) s' /\ stopped_of a b' (t :: ts).
Proof.
  intros Hh Hd Hs Hb Hn Hm Hf. destruct (stop_step p q a b l ts t s Hh Hd Hs Hb Hn) as (b' & s1 & H1 & Hs1 & Hb').
  destruct (release_step p q a l (t :: ts) (module_of t) (taskInitiated (async b' t)) s1 Hs1 Hm) as (s2 & H2 & Hs2).
  { left. destruct Hb' as (_ & -> & _). done. }
  exists b', s2. unfold deinit_task. rewrite (bind_eq _ _ _ _ _ H1), (bind_eq _ _ _ _ _ H2). done.
Qed.

Ltac release_next :=
  match goal with
  | Hs : stage ?p ?q ?a ?l ?ts ?s |- context [bind (if initiated ?b ?m then _ else _) _ ?s] =>
      let s' := fresh "s" in let H := fresh "H" in let Hs' := fresh "Hs" in
      destruct (release_step p q a l ts m (initiated b m) s Hs ltac:(vm_compute; reflexivity)) as (s' & H & Hs');
      [left; cbn [flag]; congruence | rewrite (bind_eq _ _ _ _ _ H); clear s H Hs]
  end.

(** From any agent whose fields are true to the state and when no twin is
    queued, everything but the collectors of the monitor task is released. *)
Lemma Deinit_run p q a s :
  agent_ok p q a s -> waiting s = false ->
  exists a' s', SecurityAgent_Deinit a s = Some (a', s') /\
    (forall m, resources s' m = q && bool_decide (m = EventMonitorTask)) /\ (forall t, running s' t = None) /\
    waiting s' = false.
Proof.
  intros (Hr & Ht & Hh & Hd & Hmon) Hw.
  assert (Hs : stage p q a [] [] s) by (split; [intros m; by rewrite Hr, andb_true_r | done]).
  unfold SecurityAgent_Deinit.
  destruct (deinit_task_step p q a a [] [] EventPublisherTask_Execute s Hh Hd Hs) as (b1 & s1 & H1 & Hs1 & Hb1); [done..|].
  rewrite (bind_eq _ _ _ _ _ H1). clear H1 Hs.
  destruct (stop_step p q a b1 _ _ EventMonitorTask_Execute s1 Hh Hd Hs1 Hb1 eq_refl) as (b2 & s2 & H2 & Hs2 & Hb2).
  assert (H2' : deinit_task EventMonitorTask_Execute b1 s1 = Some (b2, s2)).
  { unfold deinit_task. rewrite (bind_eq _ _ _ _ _ H2). destruct Hb2 as (_ & Hti & _). by rewrite Hti, Hmon. }
  rewrite (bind_eq _ _ _ _ _ H2'). clear H2 H2' Hs1.
  destruct (deinit_task_step p q a b2 _ _ UpdateTwinTask_Execute s2 Hh Hd Hs2 Hb2) as (b3 & s3 & H3 & Hs3 & Hb3); [done..|].
  rewrite (bind_eq _ _ _ _ _ H3). clear H3 Hs2. destruct Hb3 as (Hi & _ & _).
  unfold SecurityAgent_DeinitQueue.
  do 2 release_next.
  destruct (release_step p q a _ _ AgentTelemetryProvider true _ Hs0 ltac:(vm_compute; reflexivity)) as (s' & H & Hs');
    [by right|]. rewrite (bind_eq (Deinit _) _ _ _ _ H). clear H Hs0.
  do 10 release_next.
  match goal with Hs : stage _ _ _ _ _ ?s |- context [ret b3 ?s] => exists b3, s; destruct Hs as (R1 & R2 & R3) end.
  split; [done|]. split; [|split; [|exact R3]].
  - intros m. rewrite R1. destruct m, q; cbn; by rewrite ?andb_false_r.
  - intros t. rewrite R2. by destruct t.
Qed.

(** ** Starting up *)

(** Exactly the modules [l] are initialised, and no thread runs. *)
Definition up (l : list Module) (s : S) : Prop :=
  (forall m, resources s m = inb m l) /\ (forall t, running s t = None) /\ waiting s = false.

Lemma up_keeps l s s' : up l s -> keeps s s' -> up l s'.
Proof.
  intros (H1 & H2 & H3) (K1 & K2 & K3).
  split; [intros m; by rewrite K1 | split; [intros t; by rewrite K2 | by rewrite K3]].
Qed.

Lemma init_step l m s :
  up l s -> inb m l = false -> forallb (fun d => inb d l) (needs m) = true ->
  exists ok s', Init m s = Some (ok, s') /\ up (if ok then m :: l else l) s'.
Proof.
  intros (H1 & H2 & H3) Hm Hn. rewrite forallb_forall in Hn.
  destruct (Init_law m s) as (ok & s' & Hs & R1 & R2 & R3).
  - by rewrite H1.
  - intros d Hd. rewrite H1. apply Hn. by apply list_elem_of_In.
  - exists ok, s'. split; [done|]. split; [|split; [intros t; by rewrite R2 | by rewrite R3]].
    intros m'. rewrite R1. destruct (decide (m' = m)) as [->|Hd].
    + destruct ok; [rewrite inb_cons; by rewrite bool_decide_eq_true_2 | done].
    + destruct ok; [rewrite inb_cons; by rewrite bool_decide_eq_false_2, H1 | done].
Qed.

(** The fields of an agent that has started no task say that [l] is
    initialised. *)
Definition says (l : list Module) (a : SecurityAgent) : Prop :=
  async a = async zero_agent /\ forall m, flag (inb AgentTelemetryProvider l) false a m = inb m l.

Lemma up_ok l a s : up l s -> says l a -> agent_ok (inb AgentTelemetryProvider l) false a s.
Proof.
  intros (H1 & H2 & H3) [Ha Hf]. split; [intros m; by rewrite Hf|]. rewrite Ha. by repeat split.
Qed.

Definition startup : list Module :=
  [ IoTHubAdapter; AgentTelemetryProvider; DiagnosticEventCollector; TwinUpdatesQueue; LowPriorityEventQueue;
    HighPriorityEventQueue; OperationalEventsQueue; DiagnosticEventQueue; TwinConfiguration; MemoryMonitor;
    LocalConfiguration; IoTHub; Logger ].

Definition before_queues : list Module := [TwinConfiguration; MemoryMonitor; LocalConfiguration; IoTHub; Logger].

(** The agent whose fields say that [l] was initialised. *)
Definition agent_with (l : list Module) : SecurityAgent := foldr set_initiated zero_agent l.

Lemma queue_step l q s :
  up l s -> inb q l = false -> forallb (fun d => inb d l) (needs q) = true ->
  exists (ok : bool) (s' : S), SecurityAgent_InitQueue q (agent_with l) s = Some ((ok, agent_with (if ok then q :: l else l)), s') /\
    up (if ok then q :: l else l) s'.
Proof.
  intros H Hq Hn. destruct (init_step l q s H Hq Hn) as (ok & s' & H1 & H2). exists ok, s'.
  unfold SecurityAgent_InitQueue. rewrite (bind_eq _ _ _ _ _ H1). by destruct ok.
Qed.

(** What an initialisation that fails at a module leaves. *)
Ltac stop_here := eexists false, _, _, _; split; [reflexivity|]; split; [eassumption|]; split; [by split; [|intros []] | done].

Ltac queue_next :=
  match goal with
  | Hs : up ?l ?s |- context [bind (SecurityAgent_InitQueue ?q _) _ ?s] =>
      let ok := fresh "ok" in let s' := fresh "s" in let H := fresh "H" in let Hs' := fresh "Hs" in
      destruct (queue_step l q s Hs eq_refl eq_refl) as (ok & s' & H & Hs'); rewrite (bind_eq _ _ _ _ _ H);
      clear H Hs; destruct ok; [|stop_here]
  end.

Lemma queues_run s :
  up before_queues s ->
  exists ok a s' l, SecurityAgent_InitAllQueues (agent_with before_queues) s = Some ((ok, a), s') /\ up l s' /\ says l a /\
    (ok = true -> a = agent_with l /\
       l = TwinUpdatesQueue :: LowPriorityEventQueue :: HighPriorityEventQueue :: OperationalEventsQueue ::
         DiagnosticEventQueue :: before_queues).
Proof.
  intros H. unfold SecurityAgent_InitAllQueues. do 5 queue_next.
  eexists true, _, _, _. split; [reflexivity|]. split; [eassumption|]. split; [by split; [|intros []] | done].
Qed.

Ltac init_next :=
  match goal with
  | Hs : up ?l ?s |- context [bind (Init ?m) _ ?s] =>
      let ok := fresh "ok" in let s' := fresh "s" in let H := fresh "H" in let Hs' := fresh "Hs" in
      destruct (init_step l m s Hs eq_refl eq_refl) as (ok & s' & H & Hs'); rewrite (bind_eq _ _ _ _ _ H);
      clear H Hs; destruct ok; [|stop_here]
  end.
Ltac keeps_next law :=
  match goal with
  | Hs : up ?l ?s |- _ =>
      let s' := fresh "s" in let H := fresh "H" in let K := fresh "K" in let Hs' := fresh "Hs" in
      destruct (law s) as (s' & H & K); rewrite (bind_eq _ _ _ _ _ H);
      assert (Hs' := up_keeps _ _ _ Hs K); clear H K Hs
  end.

Lemma init_modules_run s :
  up [] s ->
  exists ok a s' l, init_modules s = Some ((ok, a), s') /\ up l s' /\ says l a /\ (ok = true -> l = startup).
Proof.
  intros H. unfold init_modules. cbv zeta.
  do 3 init_next. keeps_next severities_law. do 2 init_next.
  match goal with Hs : up _ ?s |- _ =>
    destruct (switch_law s) as (ok & z & Hz & K); rewrite (bind_eq _ _ _ _ _ Hz); pose proof (up_keeps _ _ _ Hs K) as Hu5;
    clear Hs Hz K end.
  destruct ok; [|stop_here].
  destruct (queues_run z Hu5) as (ok & a & z1 & l & H6 & Hu & Hsay & Hok). rewrite (bind_eq _ _ _ _ _ H6). cbv beta iota.
  destruct ok; [destruct (Hok eq_refl) as [-> ->]|by exists false, a, z1, l]. clear Hok H6 Hu5 Hsay.
  init_next. keeps_next correlation_law. do 2 init_next.
  eexists true, _, _, _. split; [reflexivity|]. split; [eassumption|]. split; [by split; [|intros []] | done].
Qed.

(** ** Starting and stopping the tasks *)

Lemma flag_ext p q a b m :
  initiated b = initiated a -> (forall t, taskInitiated (async b t) = taskInitiated (async a t)) -> flag p q b m = flag p q a m.
Proof. intros Hi Ht. destruct m; cbn; by rewrite ?Hi, ?Ht. Qed.

(** Replacing the scheduler of a task by one whose thread is [handle]. *)
Lemma set_thread_ok p q a t x handle s s' :
  agent_ok p q a s -> (forall m, resources s' m = resources s m) ->
  (forall t', running s' t' = if decide (t' = t) then handle else running s t') ->
  thread x = handle -> (state (taskThread x) = SCHEDULER_THREAD_STARTED -> threadHandle (taskThread x) <> None) ->
  (forall t', t' <> t -> handle = running s t' -> handle = None) -> taskInitiated x = taskInitiated (async a t) ->
  agent_ok p q (set_async t x a) s'.
Proof.
  intros (Hr & Ht & Hh & Hd & Hm) Hr' Ht' Hx Hxh Hfresh Hxi.
  assert (Hflag : forall t', taskInitiated (async (set_async t x a) t') = taskInitiated (async a t')).
  { intros t'. cbn. by destruct (decide (t' = t)) as [->|]. }
  split; [intros m; by rewrite Hr', Hr, (flag_ext p q a (set_async t x a))|].
  split; [intros t'; rewrite Ht'; cbn; destruct (decide (t' = t)) as [->|]; auto|].
  split; [intros t'; cbn; destruct (decide (t' = t)) as [->|]; auto|].
  split; [|by rewrite Hflag].
  intros t1 t2 h. cbn. destruct (decide (t1 = t)) as [->|H1], (decide (t2 = t)) as [->|H2]; [done| | |by apply Hd].
  - rewrite Hx, <- (Ht t2). intros H3 H4. specialize (Hfresh t2 H2). rewrite H3, H4 in Hfresh. by specialize (Hfresh eq_refl).
  - rewrite Hx, <- (Ht t1). intros H3 H4. specialize (Hfresh t1 H1). rewrite H3, H4 in Hfresh. by specialize (Hfresh eq_refl).
Qed.

(** The agent with the task [t] started, and what else is as before. *)
Definition only_task (t : Task) (a b : SecurityAgent) : Prop :=
  initiated b = initiated a /\ (forall t', taskInitiated (async b t') = taskInitiated (async a t')) /\
  (forall t', t' <> t -> async b t' = async a t').

Lemma start_async_run p q a t interval s :
  agent_ok p q a s -> thread (async a t) = None -> (forall m, m ∈ thread_needs t -> flag p q a m = true) ->
  exists ok a' s', SecurityAgent_StartAsyncTask t interval a s = Some ((ok, a'), s') /\
    agent_ok p q a' s' /\ only_task t a a' /\ waiting s' = waiting s /\
    (ok = true -> thread (async a' t) <> None /\ continueRunning (taskThread (async a' t)) = true).
Proof.
  intros Hok Hn Hneeds. pose proof Hok as (Hr & Ht & _).
  destruct (Create_law t s) as (handle & s' & Hc & R1 & R2 & R3 & R4).
  { intros m Hm. rewrite Hr. by apply Hneeds. } { by rewrite Ht. }
  set (new := mkScheduler None interval (Some t) (Some (module_of t)) true SCHEDULER_THREAD_CREATED).
  set (x := mkAsyncTask (taskInitiated (async a t)) (SchedulerThread_Start handle new).2 true).
  assert (Hstart : SchedulerThread_Start handle new =
    match handle with
    | Some h => (true, set_state SCHEDULER_THREAD_STARTED (set_threadHandle (Some h) new))
    | None => (false, new)
    end) by (unfold SchedulerThread_Start; rewrite decide_False; [done | by intros []]).
  assert (Hrun : exists b, SecurityAgent_StartAsyncTask t interval a s =
      Some (((SchedulerThread_Start handle new).1, b), s') /\ initiated b = initiated a /\
      forall t', async b t' = async (set_async t x a) t').
  { unfold SecurityAgent_StartAsyncTask, SchedulerThread_Init. fold new. cbv beta iota zeta.
    rewrite decide_True by done. rewrite (bind_eq _ _ _ _ _ Hc). unfold x.
    destruct (SchedulerThread_Start handle new) as [ok sch]. eexists. split; [reflexivity|]. split; [done|].
    intros t'. cbn. destruct (decide (t' = t)) as [->|]; [|done]. by rewrite decide_True. }
  unfold x in *. rewrite Hstart in *. clear Hstart x.
  destruct Hrun as (b & Hrun & Hbi & Hbt). eexists _, b, s'. split; [exact Hrun|].
  assert (Hx : agent_ok p q (set_async t (mkAsyncTask (taskInitiated (async a t)) (match handle with
    | Some h => (true, set_state SCHEDULER_THREAD_STARTED (set_threadHandle (Some h) new))
    | None => (false, new) end).2 true) a) s').
  { apply (set_thread_ok p q a t _ handle s s'); try done; [by destruct handle..|]. intros t' _. apply R4. }
  assert (Hbok : agent_ok p q b s').
  { destruct Hx as (X1 & X2 & X3 & X4 & X5). unfold agent_ok.
    split; [intros m; rewrite X1; symmetry; apply flag_ext; [done | intros; by rewrite Hbt]|].
    split; [intros; by rewrite Hbt|]. split; [intros t'; rewrite Hbt; apply X3|].
    split; [intros t1 t2 h; rewrite !Hbt; apply X4 | by rewrite Hbt]. }
  split; [done|]. split; [|split; [done|]].
  - split; [done|]. split; intros t'; rewrite Hbt; cbn; by destruct (decide (t' = t)) as [->|].
  - rewrite Hbt. cbn. rewrite decide_True by done. by destruct handle.
Qed.

(** The agent's fields after an initialisation: a task's own field is set, or
    the monitor task is recorded apart. *)
Lemma init_task_run p q a t s :
  agent_ok p q a s -> flag p q a (module_of t) = false ->
  (forall d, d ∈ needs (module_of t) -> flag p q a d = true) ->
  exists ok s', Init (module_of t) s = Some (ok, s') /\ waiting s' = waiting s /\
    match t with
    | EventMonitorTask_Execute => agent_ok p ok a s'
    | _ => agent_ok p q (if ok then set_taskInitiated t a else a) s'
    end.
Proof.
  intros (Hr & Ht & Hh & Hd & Hm) Hf Hn.
  destruct (Init_law (module_of t) s) as (ok & s' & Hs & R1 & R2 & R3).
  { by rewrite Hr. } { intros d Hd'. rewrite Hr. by apply Hn. }
  exists ok, s'. split; [done|]. split; [done|].
  assert (Hb : forall b, (forall t', taskThread (async b t') = taskThread (async a t')) ->
    (forall t', taskThreadInitiated (async b t') = taskThreadInitiated (async a t')) ->
    forall q', (forall m', flag p q' b m' = if decide (m' = module_of t) then ok else flag p q a m') ->
    taskInitiated (async b EventMonitorTask_Execute) = false -> agent_ok p q' b s').
  { intros b B1 B2 q' B3 B4. assert (Hth : forall t', thread (async b t') = thread (async a t')).
    { intros t'. unfold thread. by rewrite B1, B2. }
    split; [intros m'; by rewrite R1, B3, Hr|]. split; [intros t'; by rewrite R2, Hth|].
    split; [intros t'; rewrite B1; apply Hh|]. split; [intros t1 t2 h; rewrite !Hth; apply Hd | done]. }
  destruct t; cbn [module_of] in *.
  - destruct ok; apply Hb; try done; try (intros []; cbn; done).
  - apply Hb; try done. intros []; done.
  - destruct ok; apply Hb; try done; try (intros []; cbn; done).
Qed.

Lemma agent_ok_same p q a s s' :
  agent_ok p q a s -> (forall m, resources s' m = resources s m) -> (forall t, running s' t = running s t) ->
  agent_ok p q a s'.
Proof.
  intros (Hr & Ht & H) R1 R2.
  split; [intros m; by rewrite R1|]. split; [intros t; by rewrite R2 | done].
Qed.

Lemma connect_run s :
  resources s IoTHubAdapter = true -> resources s TwinUpdatesQueue = true -> resources s UpdateTwinTask = true ->
  exists ok s', SecurityAgent_ConnectAndUpdateConfiguration s = Some (ok, s') /\
    (forall m, resources s' m = resources s m) /\ (forall t, running s' t = running s t).
Proof.
  intros H1 H2 H3. unfold SecurityAgent_ConnectAndUpdateConfiguration.
  destruct (Connect_law s H1) as (ok & s1 & Hc & R1 & T1). rewrite (bind_eq _ _ _ _ _ Hc).
  destruct ok; [|by exists false, s1].
  destruct (GetSize_law s1) as (size & s2 & Hg & R2 & T2 & _); [by rewrite R1|]. rewrite (bind_eq _ _ _ _ _ Hg).
  assert (R : forall m, resources s2 m = resources s m) by (intros; by rewrite R2).
  assert (T : forall t, running s2 t = running s t) by (intros; by rewrite T2).
  destruct size as [n|]; [|by exists false, s2]. destruct (n =? 0); [by exists false, s2|].
  destruct (execute_law UpdateTwinTask_Execute s2) as (s3 & He & R3 & T3); [by rewrite R|].
  rewrite (bind_eq _ _ _ _ _ He). exists true, s3. split; [done|].
  split; [intros m; by rewrite R3 | intros t; by rewrite T3].
Qed.

(** According to its fields the agent has the modules [l]. *)
Definition has (l : list Module) (q : bool) (a : SecurityAgent) : Prop :=
  forall m, inb m l = true -> flag true q a m = true.

Lemma has_all (l : list Module) q a (xs : list Module) :
  has l q a -> forallb (fun d => inb d l) xs = true -> forall d : Module, d ∈ xs -> flag true q a d = true.
Proof. rewrite forallb_forall. intros Ha Hx d Hd. apply Ha, Hx. by apply list_elem_of_In. Qed.

Lemma has_only_task t (l : list Module) q a b : only_task t a b -> has l q a -> has l q b.
Proof. intros (Hi & Ht & _) Ha m Hm. rewrite (flag_ext true q a b m Hi Ht). by apply Ha. Qed.

Lemma has_task t (l : list Module) q a : t <> EventMonitorTask_Execute -> has l q a -> has (module_of t :: l) q (set_taskInitiated t a).
Proof.
  intros Ht Ha m. rewrite inb_cons. intros [Hm|Hm]%orb_true_iff.
  - apply bool_decide_eq_true_1 in Hm as ->. by destruct t.
  - specialize (Ha m Hm). by destruct m, t.
Qed.

Lemma has_monitor (l : list Module) a : has l false a -> has (EventMonitorTask :: l) true a.
Proof.
  intros Ha m. rewrite inb_cons. intros [Hm|Hm]%orb_true_iff; [by apply bool_decide_eq_true_1 in Hm as ->|].
  specialize (Ha m Hm). by destruct m.
Qed.

(** A start, successful or not, leaves fields that are true to the state; when
    it succeeds everything is initialised and every task has its thread. *)
Definition start_outcome (ok : bool) (a : SecurityAgent) (s : S) : Prop :=
  exists q, agent_ok true q a s /\
  (ok = true -> q = true /\ (forall m, resources s m = true) /\
    forall t, thread (async a t) <> None /\ continueRunning (taskThread (async a t)) = true).

Lemma thread_taskInitiated t a t' : thread (async (set_taskInitiated t a) t') = thread (async a t').
Proof. cbn. by destruct (decide (t' = t)) as [->|]. Qed.

Lemma Start_run a s :
  agent_ok true false a s -> has startup false a ->
  (forall t, thread (async a t) = None /\ taskInitiated (async a t) = false) ->
  exists ok a' s', SecurityAgent_Start a s = Some ((ok, a'), s') /\ start_outcome ok a' s'.
Proof.
  intros Hok Hc Hnone. unfold SecurityAgent_Start.
  assert (Hstop : forall q b s', agent_ok true q b s' -> start_outcome false b s') by (intros q b s' H; by exists q).
  destruct (init_task_run true false a UpdateTwinTask_Execute s Hok) as (ok1 & s1 & H1 & _ & Ha1).
  { apply Hnone. } { by apply (has_all _ _ _ _ Hc). }
  rewrite (bind_eq _ _ _ _ _ H1). destruct ok1; [|by eauto 6].
  apply (has_task UpdateTwinTask_Execute) in Hc as Hc1; [|done]. cbn [module_of] in Hc1.
  assert (R1 : forall m, inb m (UpdateTwinTask :: startup) = true -> resources s1 m = true).
  { intros m Hm. destruct Ha1 as [Hr _]. rewrite Hr. by apply Hc1. }
  destruct (connect_run s1) as (ok2 & s2 & H2 & R2 & T2); [by apply R1..|].
  rewrite (bind_eq _ _ _ _ _ H2). pose proof (agent_ok_same _ _ _ _ _ Ha1 R2 T2) as Ha2.
  destruct ok2; [|by eauto 6]. set (a1 := set_taskInitiated UpdateTwinTask_Execute a) in *.
  destruct (init_task_run true false a1 EventPublisherTask_Execute s2 Ha2) as (ok3 & s3 & H3 & _ & Ha3).
  { apply Hnone. } { by apply (has_all _ _ _ _ Hc1). }
  rewrite (bind_eq _ _ _ _ _ H3). destruct ok3; [|by eauto 6].
  apply (has_task EventPublisherTask_Execute) in Hc1 as Hc2; [|done]. cbn [module_of] in Hc2.
  set (a2 := set_taskInitiated EventPublisherTask_Execute a1) in *.
  assert (Hth2 : forall t, thread (async a2 t) = None) by (intros t; unfold a2, a1; by rewrite !thread_taskInitiated, (proj1 (Hnone t))).
  destruct (start_async_run true false a2 EventPublisherTask_Execute SCHEDULER_INTERVAL s3 Ha3 (Hth2 _))
    as (ok4 & a3 & s4 & H4 & Ha4 & Ho3 & _ & Hr3); [by apply (has_all _ _ _ _ Hc2)|].
  rewrite (bind_eq _ _ _ _ _ H4). destruct ok4; [|by eauto 6]. pose proof (has_only_task _ _ _ _ _ Ho3 Hc2) as Hc3.
  destruct (init_task_run true false a3 EventMonitorTask_Execute s4 Ha4 eq_refl) as (ok5 & s5 & H5 & _ & Ha5).
  { by apply (has_all _ _ _ _ Hc3). }
  cbn [module_of] in H5. rewrite (bind_eq _ _ _ _ _ H5). destruct ok5; [|by eauto 6].
  apply has_monitor in Hc3.
  destruct Ho3 as (_ & _ & Hs3).
  destruct (start_async_run true true a3 EventMonitorTask_Execute SCHEDULER_INTERVAL s5 Ha5)
    as (ok6 & a4 & s6 & H6 & Ha6 & Ho4 & _ & Hr4); [by rewrite Hs3, Hth2 | by apply (has_all _ _ _ _ Hc3)|].
  rewrite (bind_eq _ _ _ _ _ H6). destruct ok6; [|by eauto 6]. pose proof (has_only_task _ _ _ _ _ Ho4 Hc3) as Hc4.
  destruct Ho4 as (_ & _ & Hs4).
  destruct (start_async_run true true a4 UpdateTwinTask_Execute TWIN_UPDATE_SCHEDULER_INTERVAL s6 Ha6)
    as (ok7 & a5 & s7 & H7 & Ha7 & Ho5 & _ & Hr5); [by rewrite Hs4, Hs3, Hth2 | by apply (has_all _ _ _ _ Hc4)|].
  exists ok7, a5, s7. split; [exact H7|]. exists true. split; [done|]. intros ->. split; [done|].
  pose proof (has_only_task _ _ _ _ _ Ho5 Hc4) as Hc5. destruct Ho5 as (_ & _ & Hs5).
  split; [intros m; destruct Ha7 as [Hr _]; rewrite Hr; apply Hc5; by destruct m|].
  intros []; rewrite ?Hs5, ?Hs4 by done; auto.
Qed.

Lemma thread_stop t a t' : thread (async (stop_thread t a) t') = thread (async a t').
Proof. unfold stop_thread, set_taskThread. cbn. by destruct (decide (t' = t)) as [->|]. Qed.

Lemma stop_thread_ok p q a t s : agent_ok p q a s -> agent_ok p q (stop_thread t a) s.
Proof.
  intros Hok. pose proof Hok as (_ & Ht & Hh & Hd & _). unfold stop_thread, set_taskThread.
  apply (set_thread_ok p q a t _ (running s t) s s); try done.
  - intros t'. by destruct (decide (t' = t)) as [->|].
  - cbn. apply Hh.
  - intros t' Hne. rewrite !Ht. intros He. destruct (thread (async a t)) as [h|] eqn:E; [|done].
    destruct Hne. by apply (Hd t' t h).
Qed.

(** Joining the thread of a task that was told to stop. *)
Lemma join_run p q a t sch s :
  agent_ok p q a s -> thread (async a t) = threadHandle sch -> threadHandle sch <> None -> continueRunning sch = false ->
  exists s', join_thread sch s = Some (set_state SCHEDULER_THREAD_STOPPED sch, s') /\
    agent_ok p q (set_taskThread t (set_state SCHEDULER_THREAD_STOPPED sch) a) s' /\
    (forall m, resources s' m = resources s m).
Proof.
  intros Hok Hth Hn Hc. pose proof Hok as (_ & Ht & _ & Hd & _).
  destruct (threadHandle sch) as [h|] eqn:Hh; [|done].
  destruct (Join_law t h s) as (s' & Hj & R1 & R2 & _).
  { by rewrite Ht. } { intros t'. rewrite Ht. intros H. by apply (Hd t' t h). }
  exists s'. unfold join_thread. rewrite Hc, Hh. cbn [deref]. rewrite bind_ret_l, (bind_eq _ _ _ _ _ Hj).
  split; [done|]. split; [|done]. apply (set_thread_ok p q a t _ None s s'); try done.
  unfold thread. cbn. by rewrite andb_false_r.
Qed.

(** The join of the next thread. *)
Ltac join_next Hth1 Hh Hn t :=
  match goal with
  | H : agent_ok ?p ?q ?a ?s |- context [bind (join_thread ?sch) _ ?s] =>
      let s' := fresh "s" in let Hj := fresh "Hj" in let H' := fresh "Hok" in let R := fresh "R" in
      destruct (join_run p q a t sch s H) as (s' & Hj & H' & R);
      [exact (eq_trans (Hth1 t) (Hh t)) | exact (Hn t) | reflexivity | rewrite (bind_eq _ _ _ _ _ Hj); clear Hj H]
  end.

Lemma Stop_run q a s :
  agent_ok true q a s -> (forall t, thread (async a t) <> None) ->
  exists a' s', SecurityAgent_Stop a s = Some (a', s') /\ agent_ok true q a' s' /\
    (forall m, resources s' m = resources s m) /\ forall t, running s' t = None.
Proof.
  intros Hok Hth.
  assert (Hh : forall t, thread (async a t) = threadHandle (taskThread (async a t))).
  { intros t. specialize (Hth t). unfold thread in *. by destruct (_ && _). }
  assert (Hn : forall t, threadHandle (taskThread (async a t)) <> None) by (intros t; by rewrite <- Hh).
  unfold SecurityAgent_Stop, SecurityAgent_Wait.
  pose proof (stop_thread_ok _ _ _ EventMonitorTask_Execute _ (stop_thread_ok _ _ _ EventPublisherTask_Execute _ Hok)) as Hok1.
  assert (Hth1 : forall t, thread (async (stop_thread EventMonitorTask_Execute (stop_thread EventPublisherTask_Execute a)) t) =
    thread (async a t)) by (intros; by rewrite !thread_stop).
  clear Hok. 
  join_next Hth1 Hh Hn EventPublisherTask_Execute. join_next Hth1 Hh Hn EventMonitorTask_Execute.
  join_next Hth1 Hh Hn UpdateTwinTask_Execute.
  match goal with H : agent_ok _ _ ?b ?z |- context [ret ?b ?z] => exists b, z; pose proof H as (_ & Ht & _) end.
  split; [reflexivity|]. split; [eassumption|]. split; [intros m; congruence|].
  intros t. rewrite Ht. unfold thread. by destruct t; cbn; rewrite andb_false_r.
Qed.

(** ** Properties *)

(** Nothing is initialised and no thread runs. *)
Definition idle (s : S) : Prop :=
  (forall m, resources s m = false) /\ (forall t, running s t = None) /\ waiting s = false.

Lemma Init_run s :
  idle s ->
  exists ok a s', SecurityAgent_Init s = Some ((ok, a), s') /\
    if ok then agent_ok true false a s' /\ has startup false a /\ async a = async zero_agent /\ up startup s' else idle s'.
Proof.
  intros H. destruct (init_modules_run s) as (ok & a & s1 & l & H1 & Hu & Hs & Hl).
  { destruct H as (R & T & Hw). split; [intros m; by rewrite R | done]. }
  unfold SecurityAgent_Init. rewrite (bind_eq _ _ _ _ _ H1). pose proof (up_ok l a s1 Hu Hs) as Hok. destruct ok.
  - rewrite (Hl eq_refl) in *. eexists true, _, _. split; [reflexivity|]. split; [exact Hok|].
    split; [intros m Hm; destruct Hs as [_ Hf]; exact (eq_trans (Hf m) Hm) | by destruct Hs].
  - destruct (Deinit_run _ _ _ _ Hok) as (a' & s2 & H2 & R2 & T2 & W2); [apply Hu|].
    rewrite (bind_eq _ _ _ _ _ H2). exists false, a', s2. split; [done|]. split; [|done]. intros m. by rewrite R2.
Qed.

(** C19: When every module keeps its promises ([AgentLaws]), the initialisation of
    the agent succeeds with every module initialised, in an order in which each
    finds what it needs, and with the fields of the agent true to the state; or it
    fails and has called the release of every module that it had initialised, once
    each, and no thread runs. What a module leaves allocated after its own failed
    initialisation, or after its release, is a matter of that module. *)
Theorem Init_all_or_nothing s :
  idle s ->
  exists ok a s', SecurityAgent_Init s = Some ((ok, a), s') /\
    if ok then agent_ok true false a s' /\ forall m, resources s' m = inb m startup else idle s'.
Proof.
  intros H. destruct (Init_run s H) as (ok & a & s' & H1 & H2). exists ok, a, s'. split; [done|].
  destruct ok; [|done]. destruct H2 as (? & _ & _ & ? & _). done.
Qed.

(** C7: When every module keeps its promises ([AgentLaws]), an agent that was
    initialised can be started; whether that succeeds or fails at any step, and
    after a stop when it succeeded, the agent can be released, provided that no
    twin is left waiting in its queue: each thread is joined once, each module is
    released once and before what it needs, and nothing stays initialised but the
    collectors of the monitor task, which stay exactly when they had been
    initialised. A twin that is still waiting makes the release undefined:
    [Deinit_waiting_undefined]. *)
Theorem agent_life_cycle s a s1 :
  idle s -> SecurityAgent_Init s = Some ((true, a), s1) ->
  exists started a2 s2, SecurityAgent_Start a s1 = Some ((started, a2), s2) /\
  exists a3 s3, (if started then SecurityAgent_Stop a2 else ret a2) s2 = Some (a3, s3) /\
  (waiting s3 = false ->
   exists a4 s4, SecurityAgent_Deinit a3 s3 = Some (a4, s4) /\ (forall t, running s4 t = None) /\
     forall m, resources s4 m = resources s2 m && bool_decide (m = EventMonitorTask)).
Proof.
  intros Hi H1. destruct (Init_run s Hi) as (ok & a' & s1' & H1' & Hok). rewrite H1 in H1'. injection H1' as <- <- <-.
  destruct Hok as (Hok & Hhas & Hz & _).
  destruct (Start_run a s1 Hok Hhas) as (started & a2 & s2 & H2 & q & Hok2 & Hst); [intros t; by rewrite Hz|].
  exists started, a2, s2. split; [done|].
  assert (Hs3 : exists a3 s3, (if started then SecurityAgent_Stop a2 else ret a2) s2 = Some (a3, s3) /\ agent_ok true q a3 s3 /\
    forall m, resources s3 m = resources s2 m).
  { destruct started; [|by exists a2, s2]. destruct (Hst eq_refl) as (_ & _ & Hth).
    destruct (Stop_run q a2 s2 Hok2) as (a3 & s3 & H3 & Hok3 & R3 & _); [apply Hth | by exists a3, s3]. }
  destruct Hs3 as (a3 & s3 & H3 & Hok3 & R3). exists a3, s3. split; [done|]. intros Hw.
  destruct (Deinit_run true q a3 s3 Hok3 Hw) as (a4 & s4 & H4 & R4 & T4 & _). exists a4, s4. split; [done|].
  split; [done|]. intros m. rewrite R4. destruct Hok2 as [R2 _]. rewrite R2.
  destruct (decide (m = EventMonitorTask)) as [->|Hm]; [done|]. by rewrite bool_decide_eq_false_2, !andb_false_r.
Qed.

(** [main] never comes to its end when the agent started: nothing calls
    [SecurityAgent_Stop], and the first join waits for a thread that goes on. *)
Theorem main_waits_forever s a s1 a2 s2 :
  idle s -> SecurityAgent_Init s = Some ((true, a), s1) -> SecurityAgent_Start a s1 = Some ((true, a2), s2) ->
  main s = None.
Proof.
  intros Hi H1 H2. destruct (Init_run s Hi) as (ok & a' & s1' & H1' & Hok). rewrite H1 in H1'. injection H1' as <- <- <-.
  destruct Hok as (Hok & Hhas & Hz & _).
  destruct (Start_run a s1 Hok Hhas) as (started & b & sb & H2' & q & _ & Hst); [intros t; by rewrite Hz|].
  rewrite H2 in H2'. injection H2' as <- <- <-. destruct (Hst eq_refl) as (_ & _ & Hth).
  unfold main. rewrite (bind_eq _ _ _ _ _ H1). cbv beta iota. rewrite (bind_eq _ _ _ _ _ H2). cbv beta iota.
  unfold SecurityAgent_Wait, join_thread, bind at 1 2. destruct (Hth EventPublisherTask_Execute) as [_ ->]. done.
Qed.

(** A task without a running thread is stopped without waiting. *)
Lemma stop_idle p q a t s :
  agent_ok p q a s -> thread (async a t) = None ->
  exists b, SecurityAgent_StopAsyncTask t a s = Some (b, s) /\ agent_ok p q b s /\ only_task t a b.
Proof.
  intros Hok Hn. pose proof Hok as (_ & Ht & Hh & _). unfold SecurityAgent_StopAsyncTask.
  destruct (taskThreadInitiated (async a t)) eqn:Hi; [|by exists a].
  unfold SchedulerThread_GetState. destruct (decide _) as [Hs|Hs].
  { destruct (Hh t Hs). unfold thread in Hn. by rewrite Hi, bool_decide_eq_true_2 in Hn. }
  eexists. split; [reflexivity|]. split.
  - apply (set_thread_ok p q a t _ None s s); try done.
    + intros t'. destruct (decide (t' = t)) as [->|]; [by rewrite Ht | done].
    + cbn. unfold thread. cbn. by rewrite andb_false_r.
  - split; [done|]. split; intros t'; cbn; by destruct (decide (t' = t)) as [->|].
Qed.

(** When a twin is still queued as a start that failed is cleaned up, the
    behaviour is undefined. *)
Theorem Deinit_waiting_undefined p q a s :
  agent_ok p q a s -> (forall t, thread (async a t) = None) -> taskInitiated (async a UpdateTwinTask_Execute) = true ->
  taskInitiated (async a EventPublisherTask_Execute) = false -> waiting s = true -> SecurityAgent_Deinit a s = None.
Proof.
  intros Hok Hth Hu Hp Hw. unfold SecurityAgent_Deinit.
  destruct (stop_idle p q a EventPublisherTask_Execute s Hok (Hth _)) as (b1 & H1 & Hok1 & (_ & I1 & O1)).
  destruct (stop_idle p q b1 EventMonitorTask_Execute s Hok1) as (b2 & H2 & Hok2 & (_ & I2 & O2)); [by rewrite O1|].
  destruct (stop_idle p q b2 UpdateTwinTask_Execute s Hok2) as (b3 & H3 & _ & (_ & I3 & _)); [by rewrite O2, O1|].
  unfold deinit_task. rewrite bind_assoc, (bind_eq _ _ _ _ _ H1), I1, Hp, bind_assoc, bind_ret_l, bind_ret_l.
  rewrite bind_assoc, (bind_eq _ _ _ _ _ H2), I2, I1.
  destruct Hok as (Hr & _ & _ & _ & ->). rewrite bind_assoc, bind_ret_l, bind_ret_l.
  rewrite bind_assoc, (bind_eq _ _ _ _ _ H3), I3, I2, I1, Hu.
  unfold bind at 1 2. cbn [module_of]. rewrite Deinit_waiting; [done | | done]. by rewrite Hr.
Qed.

End SecurityAgent.
(** ** Witnesses: modules that only remember what was initialised *)

Record Ledger : Type := mkLedger {
  lg_live : Module -> bool;
  lg_threads : Task -> bool;
  lg_waiting : bool;
  lg_fails : Module -> bool;   (* the initialisations that fail *)
}.

Definition set_live (m : Module) (b : bool) (s : Ledger) : Ledger :=
  mkLedger (fun m' => if decide (m' = m) then b else lg_live s m') (lg_threads s) (lg_waiting s) (lg_fails s).
Definition set_thread (t : Task) (b : bool) (s : Ledger) : Ledger :=
  mkLedger (lg_live s) (fun t' => if decide (t' = t) then b else lg_threads s t') (lg_waiting s) (lg_fails s).

Definition handle_of (t : Task) : Z :=
  match t with EventPublisherTask_Execute => 1 | EventMonitorTask_Execute => 2 | UpdateTwinTask_Execute => 3 end.
Definition owner_of (h : Z) : Task :=
  if h =? 1 then EventPublisherTask_Execute else if h =? 2 then EventMonitorTask_Execute else UpdateTwinTask_Execute.

#[export] Instance ledger_modules : AgentModules Ledger := {|
  Init := fun m s => Some (if lg_fails s m then (false, s) else (true, set_live m true s));
  Deinit := fun m s =>
    if bool_decide (m = UpdateTwinTask) && lg_waiting s then None else Some (tt, set_live m false s);
  Logger_SetMinimumSeverities := ret tt;
  Logger_SetCorrelation := ret tt;
  ProcessInfoHandler_SwitchRealAndEffectiveUsers := ret true;
  IoTHubAdapter_Connect := ret true;
  twinUpdatesQueue_GetSize := ret (Some 1);
  execute := fun _ => ret tt;
  ThreadAPI_Create := fun t s =>
    if lg_threads s t then Some (None, s) else Some (Some (handle_of t), set_thread t true s);
  ThreadAPI_Join := fun h s => Some (tt, set_thread (owner_of h) false s);
|}.

#[export] Instance ledger_laws : AgentLaws (S := Ledger).
Proof.
  refine {| resources := lg_live; waiting := lg_waiting;
            running := fun s t => if lg_threads s t then Some (handle_of t) else None |};
    try (intros s; eexists; by repeat split); try (intros s; by do 2 eexists).
  - intros m s Hm _. cbn. destruct (lg_fails s m); eexists _, _; (split; [reflexivity|]); (split; [|done]); [|done].
    intros m'. by destruct (decide (m' = m)) as [->|].
  - intros m s _ _ _ Hw. cbn. destruct (bool_decide (m = UpdateTwinTask) && lg_waiting s) eqn:E.
    { apply andb_true_iff in E as [E1 E2]. apply bool_decide_eq_true_1 in E1. by rewrite Hw in E2. }
    eexists. by repeat split.
  - intros s _ Hw. cbn. by rewrite Hw.
  - intros t s _ Ht. cbn in *. destruct (lg_threads s t) eqn:E; [done|]. eexists _, _. split; [reflexivity|].
    split; [done|]. split; [intros t'; cbn; by destruct (decide (t' = t)) as [->|]|]. split; [done|].
    intros t' H. destruct (lg_threads s t') eqn:E'; [|done]. destruct t, t'; (done || congruence).
  - intros t h s Ht _. cbn in *. destruct (lg_threads s t) eqn:E; [|done]. injection Ht as <-.
    assert (Ho : owner_of (handle_of t) = t) by (by destruct t). rewrite Ho. eexists. split; [reflexivity|].
    split; [done|]. split; [|done]. intros t'. cbn. by destruct (decide (t' = t)) as [->|].
Defined.

Definition nothing : Ledger := mkLedger (fun _ => false) (fun _ => false) false (fun _ => false).

Lemma nothing_idle : idle nothing.
Proof. by repeat split. Qed.

Definition succeeded {S A} (x : option (bool * A * S)) : bool := match x with Some (b, _, _) => b | None => false end.

Lemma succeeded_run {S A} (x : option (bool * A * S)) : succeeded x = true -> exists a s, x = Some ((true, a), s).
Proof. destruct x as [[[[] a] s]|]; [by exists a, s | done..]. Qed.

Lemma Init_all_or_nothing_witness :
  idle nothing /\ exists ok a s', SecurityAgent_Init nothing = Some ((ok, a), s') /\
    if ok then agent_ok true false a s' /\ forall m, resources s' m = inb m startup else idle s'.
Proof. split; [exact nothing_idle|]. exact (Init_all_or_nothing nothing nothing_idle). Defined.

(** The sample agent starts, is stopped and released. *)
Lemma agent_life_cycle_witness :
  exists a s1, SecurityAgent_Init nothing = Some ((true, a), s1) /\
  exists started a2 s2, SecurityAgent_Start a s1 = Some ((started, a2), s2).
Proof.
  destruct (succeeded_run (SecurityAgent_Init nothing)) as (a & s1 & H); [vm_compute; reflexivity|].
  exists a, s1. split; [exact H|].
  destruct (agent_life_cycle nothing a s1 nothing_idle H) as (started & a2 & s2 & H2 & _). by exists started, a2, s2.
Defined.

Definition started_agent : option ((bool * SecurityAgent) * Ledger) :=
  match SecurityAgent_Init nothing with Some ((true, a), s) => SecurityAgent_Start a s | _ => None end.

Lemma nothing_starts a s1 :
  SecurityAgent_Init nothing = Some ((true, a), s1) -> exists a2 s2, SecurityAgent_Start a s1 = Some ((true, a2), s2).
Proof.
  intros H. apply succeeded_run. transitivity (succeeded started_agent); [unfold started_agent; by rewrite H|].
  vm_compute. reflexivity.
Qed.

Lemma main_waits_forever_witness : main nothing = None.
Proof.
  destruct (succeeded_run (SecurityAgent_Init nothing)) as (a & s1 & H); [vm_compute; reflexivity|].
  destruct (nothing_starts a s1 H) as (a2 & s2 & H2).
  exact (main_waits_forever nothing a s1 a2 s2 nothing_idle H H2).
Defined.

(** A twin has arrived, but the connection failed. *)
Definition twin_left : Ledger :=
  mkLedger (fun m => inb m (UpdateTwinTask :: startup)) (fun _ => false) true (fun _ => false).
Definition agent_left : SecurityAgent := set_taskInitiated UpdateTwinTask_Execute (agent_with startup).

Lemma Deinit_waiting_undefined_witness : SecurityAgent_Deinit agent_left twin_left = None.
Proof.
  apply (Deinit_waiting_undefined true false agent_left twin_left); [|by intros [] | done..].
  split; [by intros []|]. split; [by intros []|]. split; [by intros []|]. by split; [intros [] []|].
Defined.
