(* ===== verification/AuditLog.v ===== *)
(** * [os_utils/linux/audit/*.c] and [os_utils/linux/process_info_handler.c]: searching the audit log

    A search takes root privileges, opens the log with libauparse, restricts it
    to some types of records and to what is newer than the checkpoint of the
    search before, and steps through the events.  libauparse is not part of the
    repository: it is a parameter, with what its manual says of the functions
    the code calls as laws.  The host carries what the calls to the operating
    system read and change. *)

From S2P Require Import Prelude CString World Utils TimeUtils FileUtils.
From Stdlib Require Import Ascii String.
Open Scope Z_scope.

(** ** The library *)

Inductive ausearch_rule_t : Type :=
  | AUSEARCH_RULE_CLEAR
  | AUSEARCH_RULE_OR
  | AUSEARCH_RULE_AND.

(** [Log] is what [auparse_init(AUSOURCE_LOGS, NULL)] opens, [Au] the state
    behind a pointer that is not null.  An [int] result is a [Z]; a function that
    may set [errno] takes its value and returns it; of the time of an event only
    the seconds are read. *)
Class Auparse : Type := {
  Log : Type;
  Au : Type;
  auparse_init : Log -> Au;
  ausearch_add_expression : Au -> string -> ausearch_rule_t -> Z * Au;
  ausearch_add_item : Au -> string -> string -> string -> ausearch_rule_t -> Z * Au;
  ausearch_add_interpreted_item : Au -> string -> string -> string -> ausearch_rule_t -> Z * Au;
  ausearch_add_timestamp_item : Au -> string -> Z -> Z -> ausearch_rule_t -> Z * Au;
  ausearch_set_stop : Au -> Z * Au;
  auparse_next_event : Au -> Z * Au;
  ausearch_next_event : Au -> Z * Au;
  auparse_first_record : Au -> Z * Au;
  auparse_next_record : Au -> Z * Au;
  auparse_get_timestamp : Au -> option Z;
  auparse_find_field : Au -> string -> Z -> bool * Z * Au;
  auparse_get_field_str : Au -> option string;
  auparse_get_field_int : Au -> Z -> Z * Z;
  auparse_interpret_field : Au -> option string;
  auparse_get_num_records : Au -> Z;
  auparse_goto_record_num : Au -> Z -> Z * Au;
  auparse_get_type : Au -> Z;
  auparse_get_record_text : Au -> option string;
}.

(** ** Data *)

Record ProcessInfo : Type := mkProcessInfo {
  effectiveUid : Z;
  wasSet : bool;
}.

Inductive AuditSearchResultValues : Type :=
  | AUDIT_SEARCH_OK
  | AUDIT_SEARCH_HAS_MORE_DATA
  | AUDIT_SEARCH_NO_MORE_DATA
  | AUDIT_SEARCH_NO_DATA
  | AUDIT_SEARCH_FIELD_DOES_NOT_EXIST
  | AUDIT_SEARCH_RECORD_DOES_NOT_EXIST
  | AUDIT_SEARCH_EXCEPTION.

#[export] Instance AuditSearchResultValues_eq : EqDecision AuditSearchResultValues.
Proof. solve_decision. Defined.

Inductive AuditSearchCriteria : Type :=
  | AUDIT_SEARCH_CRITERIA_TYPE
  | AUDIT_SEARCH_CRITERIA_SYSCALL.

#[export] Instance AuditSearchCriteria_eq : EqDecision AuditSearchCriteria.
Proof. solve_decision. Defined.

Definition AUDIT_SEARCH_CRITERIA_TYPE_NAME : string := "type".
Definition AUDIT_SEARCH_CRITERIA_SYSCALL_NAME : string := "syscall".
Definition AUDIT_USER_AUTH_NAME : string := "USER_AUTH".
(** A double quote, which the rule has around the paths. *)
Definition QUOTE : string := String (ascii_of_nat 34) EmptyString.
Definition AUDIT_USER_AUTH_SEARECH_RULE : string :=
  "(type r= USER_AUTH) && (exe i!= " ++ QUOTE ++ "/usr/bin/sudo" ++ QUOTE ++ ") && (exe i!= " ++ QUOTE ++ "/bin/sudo" ++ QUOTE ++ ")".

(** A [time_t] in a file: 8 bytes, the lowest first. *)
Fixpoint bytes_of (n : nat) (z : Z) : string :=
  match n with
  | O => EmptyString
  | S n => String (ascii_of_N (Z.to_N (z mod 256))) (bytes_of n (z / 256))
  end.

Fixpoint bytes_value (bytes : string) : Z :=
  match bytes with
  | EmptyString => 0
  | String c bytes => code c + 256 * bytes_value bytes
  end.

Definition SIZEOF_TIME_T : Z := 8.
Definition bytes_of_time (t : Z) : string := bytes_of 8 t.
Definition time_of_bytes (bytes : string) : Z :=
  let v := bytes_value bytes in if v <? 2 ^ 63 then v else v - 2 ^ 64.

Section Audit.
Context {Ap : Auparse}.

(** ** The host *)

(** The user ids of the process, the files, whether a file can be opened for
    writing, what [write] returns for data, and the audit log.  A file that was
    written holds what was written. *)
Record Host : Type := mkHost {
  host_euid : Z;
  host_uid : Z;
  host_files : string -> OpenedFile;
  host_creates : string -> bool;
  host_writes : string -> string -> option nat;
  host_log : Log;
}.

Definition set_euid (u : Z) (h : Host) : Host :=
  mkHost u (host_uid h) (host_files h) (host_creates h) (host_writes h) (host_log h).
Definition set_uids (e u : Z) (h : Host) : Host :=
  mkHost e u (host_files h) (host_creates h) (host_writes h) (host_log h).
Definition set_files (f : string -> OpenedFile) (h : Host) : Host :=
  mkHost (host_euid h) (host_uid h) f (host_creates h) (host_writes h) (host_log h).

Definition update_file (filename : string) (content : string) (f : string -> OpenedFile) : string -> OpenedFile :=
  fun name => if String.eqb name filename then Opened (Some content) else f name.

Definition file_system (h : Host) : FileSystem := {| open_file := host_files h; readlink_exe := None |}.

Class HasHost (S : Type) {W : HasWorld S} : Type := {
  host_of : S -> Host;
  with_host : Host -> S -> S;
  host_of_with : forall h s, host_of (with_host h s) = h;
  with_host_with : forall h h' s, with_host h (with_host h' s) = with_host h s;
  with_host_of : forall s, with_host (host_of s) s = s;
  world_of_with_host : forall h s, world_of (with_host h s) = world_of s;
  host_of_with_world : forall w s, host_of (with_world w s) = host_of s;
  with_host_world : forall h w s, with_host h (with_world w s) = with_world w (with_host h s);
}.

(** ** The search: [audit] is [None] for the null pointer *)

Record AuditSearch : Type := mkAuditSearch {
  audit : option Au;
  checkpointFile : option string;
  searchTime : Z;
  firstSearch : bool;
  processInfo : ProcessInfo;
}.

Definition set_audit (a : Au) (s : AuditSearch) : AuditSearch :=
  mkAuditSearch (Some a) (checkpointFile s) (searchTime s) (firstSearch s) (processInfo s).
Definition set_checkpointFile (f : option string) (s : AuditSearch) : AuditSearch :=
  mkAuditSearch (audit s) f (searchTime s) (firstSearch s) (processInfo s).
Definition set_searchTime (t : Z) (s : AuditSearch) : AuditSearch :=
  mkAuditSearch (audit s) (checkpointFile s) t (firstSearch s) (processInfo s).
Definition set_firstSearch (b : bool) (s : AuditSearch) : AuditSearch :=
  mkAuditSearch (audit s) (checkpointFile s) (searchTime s) b (processInfo s).

Definition AuditSearch_ConvertCriteriaToString (searchCriteria : AuditSearchCriteria) : string :=
  match searchCriteria with
  | AUDIT_SEARCH_CRITERIA_TYPE => AUDIT_SEARCH_CRITERIA_TYPE_NAME
  | AUDIT_SEARCH_CRITERIA_SYSCALL => AUDIT_SEARCH_CRITERIA_SYSCALL_NAME
  end.

Section Host.
Context {S : Type} {W : HasWorld S} {O : HasHost S}.

(** *** Calls to the operating system *)

Definition seteuid (uid : Z) : M S bool :=
  ok <- up fallible ;;
  if ok then modify (fun s => with_host (set_euid uid (host_of s)) s) ;;; ret true else ret false.

Definition setreuid (ruid euid : Z) : M S bool :=
  ok <- up fallible ;;
  if ok then modify (fun s => with_host (set_uids euid ruid (host_of s)) s) ;;; ret true else ret false.

Definition FileUtils_WriteToFile (filename data : string) : M S FileResults :=
  h <- gets host_of ;;
  if negb (host_creates h filename) then ret FILE_UTILS_ERROR
  else
    match host_writes h filename data with
    | None =>
        modify (fun s => with_host (set_files (update_file filename EmptyString (host_files h)) h) s) ;;;
        ret FILE_UTILS_ERROR
    | Some bytesWritten =>
        modify (fun s => with_host (set_files (update_file filename (stake bytesWritten data) (host_files h)) h) s) ;;;
        ret (if Z.of_nat bytesWritten =? strlen data then FILE_UTILS_OK else FILE_UTILS_SIZE_MISMATCH)
    end.

(** *** [process_info_handler.c] *)

Definition ProcessInfoHandler_SwitchRealAndEffectiveUsers : M S bool :=
  h <- gets host_of ;;
  setreuid (host_euid h) (host_uid h).

Definition ProcessInfoHandler_ChangeToRoot : M S (bool * ProcessInfo) :=
  h <- gets host_of ;;
  if host_euid h =? 0 then ret (true, mkProcessInfo (host_euid h) false)
  else
    ok <- seteuid 0 ;;
    ret (ok, mkProcessInfo (host_euid h) ok).

Definition ProcessInfoHandler_Reset (processInfo : ProcessInfo) : M S bool :=
  if negb (wasSet processInfo) then ret true else seteuid (effectiveUid processInfo).

(** *** [audit_search.c] *)

Definition AuditSearch_Deinit (auditSearch : AuditSearch) : M S AuditSearch :=
  ok <- ProcessInfoHandler_Reset (processInfo auditSearch) ;;
  ret (mkAuditSearch None None (searchTime auditSearch) (firstSearch auditSearch) (processInfo auditSearch)).

(** The loop over the message types, with the rule for the next one. *)
Fixpoint add_message_types (searchCriteria : AuditSearchCriteria) (currentRule : ausearch_rule_t)
    (messageTypes : list string) (a : Au) : bool * Au :=
  match messageTypes with
  | [] => (true, a)
  | messageType :: messageTypes =>
      let '(r, a) :=
        if decide (searchCriteria = AUDIT_SEARCH_CRITERIA_TYPE /\ messageType = AUDIT_USER_AUTH_NAME)
        then ausearch_add_expression a AUDIT_USER_AUTH_SEARECH_RULE currentRule
        else if decide (searchCriteria = AUDIT_SEARCH_CRITERIA_SYSCALL)
        then ausearch_add_interpreted_item a (AuditSearch_ConvertCriteriaToString searchCriteria) "=" messageType currentRule
        else ausearch_add_item a (AuditSearch_ConvertCriteriaToString searchCriteria) "=" messageType currentRule in
      if r =? -1 then (false, a) else add_message_types searchCriteria AUSEARCH_RULE_OR messageTypes a
  end.

(** A file that is missing, not readable or too short sets no lower bound. *)
Definition AuditSearch_AddCheckpointToSearch (auditSearch : AuditSearch) : M S (AuditSearchResultValues * AuditSearch) :=
  h <- gets host_of ;;
  file <- deref (checkpointFile auditSearch) ;;
  a <- deref (audit auditSearch) ;;
  match FileUtils_ReadFile (Fs := file_system h) file SIZEOF_TIME_T false with
  | (FILE_UTILS_OK, data) =>
      let '(r, a) := ausearch_add_timestamp_item a ">" (time_of_bytes data) 0 AUSEARCH_RULE_AND in
      ret (if r =? -1 then AUDIT_SEARCH_EXCEPTION else AUDIT_SEARCH_OK, set_audit a auditSearch)
  | (FILE_UTILS_ERROR, _) => ret (AUDIT_SEARCH_EXCEPTION, auditSearch)
  | _ => ret (AUDIT_SEARCH_OK, auditSearch)
  end.

Definition AuditSearch_InitMultipleSearchCriteria (searchCriteria : AuditSearchCriteria) (messageTypes : list string)
    (checkpoint : option string) : M S (AuditSearchResultValues * AuditSearch) :=
  let failed := fun auditSearch => auditSearch <- AuditSearch_Deinit auditSearch ;; ret (AUDIT_SEARCH_EXCEPTION, auditSearch) in
  let* (ok, info) := ProcessInfoHandler_ChangeToRoot in
  let auditSearch := mkAuditSearch None None 0 true info in
  if negb ok then failed auditSearch
  else
    opened <- up fallible ;;
    if negb opened then failed auditSearch
    else
      h <- gets host_of ;;
      let '(ok, a) := add_message_types searchCriteria AUSEARCH_RULE_CLEAR messageTypes (auparse_init (host_log h)) in
      let auditSearch := set_audit a auditSearch in
      if negb ok then failed auditSearch
      else
        let* (ok, auditSearch) :=
          match checkpoint with
          | None => ret (true, auditSearch)
          | Some file =>
              copy <- up (Utils_CreateStringCopy (Some file)) ;;
              let auditSearch := set_checkpointFile copy auditSearch in
              match copy with
              | None => ret (false, auditSearch)
              | Some _ =>
                  let* (r, auditSearch) := AuditSearch_AddCheckpointToSearch auditSearch in
                  ret (bool_decide (r = AUDIT_SEARCH_OK), auditSearch)
              end
          end in
        if negb ok then failed auditSearch
        else
          a <- deref (audit auditSearch) ;;
          let '(r, a) := ausearch_set_stop a in
          let auditSearch := set_audit a auditSearch in
          if r =? -1 then failed auditSearch
          else
            now <- up TimeUtils_GetCurrentTime ;;
            ret (AUDIT_SEARCH_OK, set_searchTime now auditSearch).

Definition AuditSearch_Init (searchCriteria : AuditSearchCriteria) (messageType : string) (checkpoint : option string) :=
  AuditSearch_InitMultipleSearchCriteria searchCriteria [messageType] checkpoint.

Definition AuditSearch_SetCheckpoint (auditSearch : AuditSearch) : M S AuditSearchResultValues :=
  file <- deref (checkpointFile auditSearch) ;;
  r <- FileUtils_WriteToFile file (bytes_of_time (searchTime auditSearch)) ;;
  ret (if decide (r <> FILE_UTILS_OK) then AUDIT_SEARCH_EXCEPTION else AUDIT_SEARCH_OK).

End Host.

(** *** Reading the current event: functions of the library's state *)

(** The result and [errno]. *)
Definition AuditSearchUtils_FindField (fieldName : string) (a : Au) : AuditSearchResultValues * Z * Au :=
  let '(found, errno, a) := auparse_find_field a fieldName 0 in
  if negb found then
    (if negb (errno =? 0) then AUDIT_SEARCH_EXCEPTION else AUDIT_SEARCH_FIELD_DOES_NOT_EXIST, errno, a)
  else (AUDIT_SEARCH_OK, errno, a).

Definition AuditSearchUtils_ReadInt (fieldName : string) (a : Au) : AuditSearchResultValues * option Z * Au :=
  let '(searchResult, errno, a) := AuditSearchUtils_FindField fieldName a in
  if decide (searchResult <> AUDIT_SEARCH_OK) then (searchResult, None, a)
  else
    let '(output, errno) := auparse_get_field_int a errno in
    (if (output =? -1) && negb (errno =? 0) then AUDIT_SEARCH_EXCEPTION else AUDIT_SEARCH_OK, Some output, a).

Definition AuditSearchUtils_ReadString (fieldName : string) (a : Au) : AuditSearchResultValues * option string * Au :=
  let '(searchResult, _, a) := AuditSearchUtils_FindField fieldName a in
  if decide (searchResult <> AUDIT_SEARCH_OK) then (searchResult, None, a)
  else
    let output := auparse_get_field_str a in
    (match output with Some _ => AUDIT_SEARCH_OK | None => AUDIT_SEARCH_EXCEPTION end, output, a).

Definition AuditSearchUtils_InterpretString (fieldName : string) (a : Au) : AuditSearchResultValues * option string * Au :=
  let '(searchResult, _, a) := AuditSearchUtils_FindField fieldName a in
  if decide (searchResult <> AUDIT_SEARCH_OK) then (searchResult, None, a)
  else
    let output := auparse_interpret_field a in
    (match output with Some _ => AUDIT_SEARCH_OK | None => AUDIT_SEARCH_EXCEPTION end, output, a).

(** Reading starts at the first record of the event. *)
Definition from_first_record {A} (read : Au -> AuditSearchResultValues * option A * Au) (a : Au)
    : AuditSearchResultValues * option A * Au :=
  let '(result, a) := auparse_first_record a in
  if result =? -1 then (AUDIT_SEARCH_EXCEPTION, None, a)
  else if result =? 0 then (AUDIT_SEARCH_NO_DATA, None, a)
  else read a.

Definition AuditSearch_ReadInt (fieldName : string) := from_first_record (AuditSearchUtils_ReadInt fieldName).
Definition AuditSearch_ReadString (fieldName : string) := from_first_record (AuditSearchUtils_ReadString fieldName).
Definition AuditSearch_InterpretString (fieldName : string) := from_first_record (AuditSearchUtils_InterpretString fieldName).

(** The loop over the records; [records] are left to look at. *)
Fixpoint goto_record (records : nat) (index wantedType : Z) (a : Au) : AuditSearchResultValues * Au :=
  match records with
  | O => (AUDIT_SEARCH_RECORD_DOES_NOT_EXIST, a)
  | S records =>
      let '(r, a) := auparse_goto_record_num a index in
      if r =? 0 then (AUDIT_SEARCH_EXCEPTION, a)
      else
        let currentType := auparse_get_type a in
        if currentType =? 0 then (AUDIT_SEARCH_EXCEPTION, a)
        else if currentType =? wantedType then (AUDIT_SEARCH_OK, a)
        else goto_record records (index + 1) wantedType a
  end.

Definition AuditSearchRecord_Goto (wantedType : Z) (a : Au) : AuditSearchResultValues * Au :=
  let numOfRecords := u32 (auparse_get_num_records a) in
  if numOfRecords =? 0 then (AUDIT_SEARCH_EXCEPTION, a)
  else goto_record (Z.to_nat numOfRecords) 0 wantedType a.

Definition AuditSearchRecord_MaxRecordLength (a : Au) : AuditSearchResultValues * option Z :=
  match auparse_get_record_text a with
  | None => (AUDIT_SEARCH_EXCEPTION, None)
  | Some recordAsString => (AUDIT_SEARCH_OK, Some (u32 (strlen recordAsString)))
  end.

Definition AuditSearchRecord_ReadInt (fieldName : string) := AuditSearchUtils_ReadInt fieldName.
Definition AuditSearchRecord_InterpretString (fieldName : string) := AuditSearchUtils_InterpretString fieldName.

(** [eventTime->sec] is stored in a [uint32_t]. *)
Definition AuditSearch_GetEventTime (a : Au) : AuditSearchResultValues * option Z :=
  match auparse_get_timestamp a with
  | None => (AUDIT_SEARCH_EXCEPTION, None)
  | Some sec => (AUDIT_SEARCH_OK, Some (u32 sec))
  end.

Definition next_event (firstSearch : bool) (a : Au) : AuditSearchResultValues * bool * Au :=
  let '(result, a) := if negb firstSearch then auparse_next_event a else (1, a) in
  if result =? -1 then (AUDIT_SEARCH_EXCEPTION, firstSearch, a)
  else if result =? 0 then (AUDIT_SEARCH_NO_MORE_DATA, firstSearch, a)
  else
    let '(result, a) := ausearch_next_event a in
    (if result =? -1 then AUDIT_SEARCH_EXCEPTION
     else if result =? 0 then AUDIT_SEARCH_NO_MORE_DATA else AUDIT_SEARCH_HAS_MORE_DATA, false, a).

Section Search.
Context {S : Type}.

(** A call that passes the search's handle: the null pointer is undefined. *)
Definition on_audit {A} (auditSearch : AuditSearch) (f : Au -> A * Au) : M S (A * AuditSearch) :=
  a <- deref (audit auditSearch) ;;
  let '(r, a) := f a in
  ret (r, set_audit a auditSearch).

Definition AuditSearch_GetNext (auditSearch : AuditSearch) : M S (AuditSearchResultValues * AuditSearch) :=
  let* (r, first, auditSearch) := on_audit auditSearch (next_event (firstSearch auditSearch)) in
  ret (r, set_firstSearch first auditSearch).

(** [fuel] bounds the rounds of the loop; [result] is that of the call before. *)
Fixpoint log_records (fuel : nat) (result : Z) (a : Au) : M S (AuditSearchResultValues * Au) :=
  match fuel with
  | O => undefined
  | Datatypes.S fuel =>
      if result =? -1 then ret (AUDIT_SEARCH_EXCEPTION, a)
      else
        match auparse_get_record_text a with
        | None => ret (AUDIT_SEARCH_EXCEPTION, a)
        | Some output =>
            let '(result, a) := auparse_next_record a in
            if negb (result =? 0) then log_records fuel result a else ret (AUDIT_SEARCH_OK, a)
        end
  end.

Definition AuditSearch_LogEventText (fuel : nat) (auditSearch : AuditSearch) : M S (AuditSearchResultValues * AuditSearch) :=
  a <- deref (audit auditSearch) ;;
  let '(result, a) := auparse_first_record a in
  if result =? 0 then ret (AUDIT_SEARCH_NO_DATA, set_audit a auditSearch)
  else
    let* (r, a) := log_records fuel result a in
    ret (r, set_audit a auditSearch).

End Search.

(** ** What the library promises *)

(** A field of a record: its text, its value as a number ([None]: -1 with an
    error), and its interpretation.  An event has a time in seconds and
    milliseconds, unless it was not readable. *)
Record AuditField : Type := mkAuditField {
  f_name : string;
  f_str : option string;
  f_int : option Z;
  f_interpreted : option string;
}.

Record AuditRecord : Type := mkAuditRecord {
  rec_type : Z;
  rec_text : option string;
  rec_fields : list AuditField;
}.

Record AuditEvent : Type := mkAuditEvent {
  ev_time : option (Z * Z);
  ev_records : list AuditRecord;
}.

(** What a search looks for. *)
Inductive Query : Type :=
  | QExpression (expression : string)
  | QItem (field op value : string)
  | QInterpreted (field op value : string)
  | QTime (op : string) (sec milli : Z)
  | QOr (q q' : Query)
  | QAnd (q q' : Query).

Definition add_rule (old : option Query) (new : Query) (how : ausearch_rule_t) : Query :=
  match how, old with
  | AUSEARCH_RULE_OR, Some q => QOr q new
  | AUSEARCH_RULE_AND, Some q => QAnd q new
  | _, _ => new
  end.

(** Is the time after this one? *)
Definition later_than (sec milli : Z) (t : Z * Z) : bool := (sec <? t.1) || ((sec =? t.1) && (milli <? t.2)).

Section Matching.
(** The queries whose meaning is the library's alone. *)
Context (satisfies : Query -> AuditEvent -> bool).

Fixpoint matches (q : Query) (e : AuditEvent) : bool :=
  match q with
  | QOr q q' => matches q e || matches q' e
  | QAnd q q' => matches q e && matches q' e
  | QTime op sec milli =>
      match ev_time e with
      | None => false
      | Some t => if String.eqb op ">" then later_than sec milli t else satisfies (QTime op sec milli) e
      end
  | _ => satisfies q e
  end.
End Matching.

(** The state of the library as its manual describes it: the query, the current
    event, the events after it, and the fields from the cursor to the end of the
    event. *)
Record AuView : Type := mkView {
  v_query : option Query;
  v_event : option AuditEvent;
  v_later : list AuditEvent;
  v_fields : list AuditField;
}.

Definition all_fields (records : list AuditRecord) : list AuditField := List.concat (map rec_fields records).

Definition set_query (q : Query) (v : AuView) : AuView := mkView (Some q) (v_event v) (v_later v) (v_fields v).
Definition set_fields (l : list AuditField) (v : AuView) : AuView := mkView (v_query v) (v_event v) (v_later v) l.
Definition at_event (v : AuView) (e : AuditEvent) (later : list AuditEvent) : AuView :=
  mkView (v_query v) (Some e) later (all_fields (ev_records e)).

(** The events that a search looks at. *)
Definition candidates (v : AuView) : list AuditEvent := option_list (v_event v) ++ v_later v.

(** The fields from the first one of this name on. *)
Fixpoint find_from (name : string) (l : list AuditField) : list AuditField :=
  match l with
  | [] => []
  | f :: l' => if String.eqb (f_name f) name then l else find_from name l'
  end.

(** A rule is added, or the call fails. *)
Definition rule_added (v : AuView) (q : Query) (how : ausearch_rule_t) (r : Z) (v' : AuView) : Prop :=
  r = -1 \/ r <> -1 /\ v' = set_query (add_rule (v_query v) q how) v.

Class AuparseLaws : Type := {
  view : Au -> AuView;
  record_at : Au -> option AuditRecord;
  log_events : Log -> list AuditEvent;
  satisfies : Query -> AuditEvent -> bool;
  init_law : forall l, view (auparse_init l) = mkView None None (log_events l) [];
  expression_law : forall a x how, let '(r, a') := ausearch_add_expression a x how in
    rule_added (view a) (QExpression x) how r (view a');
  item_law : forall a f op v how, let '(r, a') := ausearch_add_item a f op v how in
    rule_added (view a) (QItem f op v) how r (view a');
  interpreted_law : forall a f op v how, let '(r, a') := ausearch_add_interpreted_item a f op v how in
    rule_added (view a) (QInterpreted f op v) how r (view a');
  timestamp_law : forall a op sec milli how, let '(r, a') := ausearch_add_timestamp_item a op sec milli how in
    rule_added (view a) (QTime op sec milli) how r (view a');
  stop_law : forall a, let '(r, a') := ausearch_set_stop a in r = -1 \/ r <> -1 /\ view a' = view a;
  next_event_law : forall a e, v_event (view a) = Some e -> let '(r, a') := auparse_next_event a in
    r = -1 \/ (r = 0 /\ v_later (view a) = []) \/
    r <> -1 /\ r <> 0 /\ exists e' later, v_later (view a) = e' :: later /\ view a' = at_event (view a) e' later;
  search_law : forall a q, v_query (view a) = Some q -> let '(r, a') := ausearch_next_event a in
    r = -1 \/ (r = 0 /\ Forall (fun e => matches satisfies q e = false) (candidates (view a))) \/
    r <> -1 /\ r <> 0 /\ exists skipped e later, candidates (view a) = skipped ++ e :: later /\
      Forall (fun e => matches satisfies q e = false) skipped /\ matches satisfies q e = true /\
      view a' = at_event (view a) e later;
  timestamp_read_law : forall a e, v_event (view a) = Some e -> auparse_get_timestamp a = fst <$> ev_time e;
  first_record_law : forall a e, v_event (view a) = Some e -> let '(r, a') := auparse_first_record a in
    (r = 0 <-> ev_records e = []) /\ r <> -1 /\ view a' = set_fields (all_fields (ev_records e)) (view a);
  find_law : forall a e name, v_event (view a) = Some e -> let '(found, errno, a') := auparse_find_field a name 0 in
    errno = 0 /\ (found = true <-> find_from name (v_fields (view a)) <> []) /\
    view a' = set_fields (find_from name (v_fields (view a))) (view a);
  field_str_law : forall a f l, v_fields (view a) = f :: l -> auparse_get_field_str a = f_str f;
  interpret_law : forall a f l, v_fields (view a) = f :: l -> auparse_interpret_field a = f_interpreted f;
  field_int_law : forall a f l errno, v_fields (view a) = f :: l -> let '(n, errno') := auparse_get_field_int a errno in
    match f_int f with Some m => n = m /\ errno' = errno | None => n = -1 /\ errno' <> 0 end;
  num_records_law : forall a e, v_event (view a) = Some e ->
    auparse_get_num_records a = Z.of_nat (List.length (ev_records e));
  goto_law : forall a e i, v_event (view a) = Some e -> let '(r, a') := auparse_goto_record_num a i in
    match ev_records e !! Z.to_nat i with
    | Some record => r <> 0 /\ record_at a' = Some record /\
        view a' = set_fields (all_fields (drop (Z.to_nat i) (ev_records e))) (view a)
    | None => r = 0
    end;
  type_law : forall a record, record_at a = Some record -> auparse_get_type a = rec_type record;
  text_law : forall a record, record_at a = Some record -> auparse_get_record_text a = rec_text record;
}.

(** ** Specification *)

(** What reading a field of the event gives. *)
Definition lookup_field (e : AuditEvent) (name : string) : option AuditField :=
  head (find_from name (all_fields (ev_records e))).

Definition read_field {A} (get : AuditField -> option A) (e : AuditEvent) (name : string) : AuditSearchResultValues * option A :=
  match ev_records e with
  | [] => (AUDIT_SEARCH_NO_DATA, None)
  | _ :: _ =>
      match lookup_field e name with
      | None => (AUDIT_SEARCH_FIELD_DOES_NOT_EXIST, None)
      | Some f => match get f with Some v => (AUDIT_SEARCH_OK, Some v) | None => (AUDIT_SEARCH_EXCEPTION, None) end
      end
  end.

(** The condition for one message type, and for all of them. *)
Definition type_query (searchCriteria : AuditSearchCriteria) (messageType : string) : Query :=
  if decide (searchCriteria = AUDIT_SEARCH_CRITERIA_TYPE /\ messageType = AUDIT_USER_AUTH_NAME)
  then QExpression AUDIT_USER_AUTH_SEARECH_RULE
  else if decide (searchCriteria = AUDIT_SEARCH_CRITERIA_SYSCALL)
  then QInterpreted (AuditSearch_ConvertCriteriaToString searchCriteria) "=" messageType
  else QItem (AuditSearch_ConvertCriteriaToString searchCriteria) "=" messageType.

Definition types_query (searchCriteria : AuditSearchCriteria) (first : string) (others : list string) : Query :=
  fold_left QOr (map (type_query searchCriteria) others) (type_query searchCriteria first).

(** The time in a checkpoint file, when there is one. *)
Definition checkpoint_time (h : Host) (file : string) : option Z :=
  match FileUtils_ReadFile (Fs := file_system h) file SIZEOF_TIME_T false with
  | (FILE_UTILS_OK, data) => Some (time_of_bytes data)
  | _ => None
  end.

Definition newer_than (t : option Z) (q : Query) : Query :=
  match t with Some t => QAnd q (QTime ">" t 0) | None => q end.

Context {Laws : AuparseLaws}.

(** The events of the log that match a query. *)
Definition sought (q : Query) (l : list AuditEvent) : list AuditEvent := List.filter (matches satisfies q) l.

Lemma sought_length q l : (List.length (sought q l) <= List.length l)%nat.
Proof. apply List.filter_length_le. Qed.

Lemma sought_good (good : AuditEvent -> Prop) q l : Forall good l -> Forall good (sought q l).
Proof. intros H. apply List.Forall_forall. intros e He. apply List.filter_In in He as [He _]. by apply (proj1 (List.Forall_forall good l) H). Qed.

(** The search is at the event [e]; the events [todo] are still to come. *)
Definition visiting (q : Query) (e : AuditEvent) (todo : list AuditEvent) (auditSearch : AuditSearch) : Prop :=
  exists a, audit auditSearch = Some a /\ v_query (view a) = Some q /\ v_event (view a) = Some e /\
    firstSearch auditSearch = false /\ sought q (v_later (view a)) = todo.

(** The search has not looked at an event yet. *)
Definition starting (q : Query) (todo : list AuditEvent) (auditSearch : AuditSearch) : Prop :=
  exists a, audit auditSearch = Some a /\ v_query (view a) = Some q /\ v_event (view a) = None /\
    firstSearch auditSearch = true /\ sought q (v_later (view a)) = todo.

Definition searching (q : Query) (todo : list AuditEvent) (auditSearch : AuditSearch) : Prop :=
  starting q todo auditSearch \/ exists e, visiting q e todo auditSearch.

(** The library fails when it is asked for the next of the events [todo]. *)
Definition search_breaks (q : Query) (todo : list AuditEvent) : Prop :=
  exists first a, v_query (view a) = Some q /\ sought q (v_later (view a)) = todo /\
    (next_event first a).1.1 = AUDIT_SEARCH_EXCEPTION.

(** A search cannot begin: the library does not take a condition of it, or the
    checkpoint file is there and cannot be read. *)
Definition search_refused (h : Host) (criteria : AuditSearchCriteria) (types : list string) (checkpoint : option string) : bool :=
  let '(ok, a) := add_message_types criteria AUSEARCH_RULE_CLEAR types (auparse_init (host_log h)) in
  negb ok ||
  match (match checkpoint with
         | None => Some a
         | Some file =>
             match FileUtils_ReadFile (Fs := file_system h) file SIZEOF_TIME_T false with
             | (FILE_UTILS_OK, data) =>
                 let '(r, a) := ausearch_add_timestamp_item a ">" (time_of_bytes data) 0 AUSEARCH_RULE_AND in
                 if r =? -1 then None else Some a
             | (FILE_UTILS_ERROR, _) => None
             | _ => Some a
             end
         end) with
  | None => true
  | Some a => fst (ausearch_set_stop a) =? -1
  end.

(** The file cannot be opened for writing, or the data is not written as a whole. *)
Definition write_refused (h : Host) (file data : string) : bool :=
  negb (host_creates h file && bool_decide (host_writes h file data = Some (String.length data))).

(** What no call changes after the search was initialised. *)
Definition same_search (s s' : AuditSearch) : Prop :=
  checkpointFile s' = checkpointFile s /\ searchTime s' = searchTime s /\ processInfo s' = processInfo s.

(** ** Lemmas: reading *)

(** The library stays at its event. *)
Definition stays (a a' : Au) : Prop :=
  v_query (view a') = v_query (view a) /\ v_event (view a') = v_event (view a) /\ v_later (view a') = v_later (view a).

Lemma stays_set_fields a a' l : view a' = set_fields l (view a) -> stays a a'.
Proof. unfold stays. by intros ->. Qed.

Lemma stays_trans a b c : stays a b -> stays b c -> stays a c.
Proof. unfold stays. intuition congruence. Qed.

Lemma stays_refl a : stays a a.
Proof. done. Qed.

(** Finding a field, after which the cursor is on it. *)
Lemma FindField_run a e name :
  v_event (view a) = Some e ->
  exists a', stays a a' /\ v_fields (view a') = find_from name (v_fields (view a)) /\
    AuditSearchUtils_FindField name a =
    (match find_from name (v_fields (view a)) with [] => AUDIT_SEARCH_FIELD_DOES_NOT_EXIST | _ => AUDIT_SEARCH_OK end, 0, a').
Proof.
  intros He. unfold AuditSearchUtils_FindField. pose proof (find_law a e name He) as H.
  destruct (auparse_find_field a name 0) as [[found errno] a']. destruct H as (-> & Hf & Hv).
  exists a'. split; [by eapply stays_set_fields|]. split; [by rewrite Hv|].
  destruct (find_from name (v_fields (view a))) as [|f l]; destruct found; try done.
  - by destruct (proj1 Hf eq_refl).
  - by discriminate (proj2 Hf).
Qed.

(** What reading gives from the cursor on. *)
Definition read_from {A} (get : AuditField -> option A) (l : list AuditField) (name : string) : AuditSearchResultValues * option A :=
  match head (find_from name l) with
  | None => (AUDIT_SEARCH_FIELD_DOES_NOT_EXIST, None)
  | Some f => match get f with Some v => (AUDIT_SEARCH_OK, Some v) | None => (AUDIT_SEARCH_EXCEPTION, None) end
  end.

Definition reads {A} (read : Au -> AuditSearchResultValues * option A * Au) (get : AuditField -> option A) (name : string) : Prop :=
  forall a e, v_event (view a) = Some e -> exists x a', stays a a' /\
    v_fields (view a') = find_from name (v_fields (view a)) /\ read a = ((read_from get (v_fields (view a)) name).1, x, a') /\
    ((read_from get (v_fields (view a)) name).1 = AUDIT_SEARCH_OK -> x = (read_from get (v_fields (view a)) name).2).

Lemma ReadString_reads name : reads (AuditSearchUtils_ReadString name) f_str name.
Proof.
  intros a e He. destruct (FindField_run a e name He) as (a' & Hs & Hv & H).
  unfold AuditSearchUtils_ReadString, read_from. rewrite H.
  destruct (find_from name (v_fields (view a))) as [|f l]; [by eexists _, a'|]. cbn [decide_rel].
  rewrite decide_False by tauto. rewrite (field_str_law a' f l Hv). cbn. by destruct (f_str f); eexists _, a'.
Qed.

Lemma InterpretString_reads name : reads (AuditSearchUtils_InterpretString name) f_interpreted name.
Proof.
  intros a e He. destruct (FindField_run a e name He) as (a' & Hs & Hv & H).
  unfold AuditSearchUtils_InterpretString, read_from. rewrite H.
  destruct (find_from name (v_fields (view a))) as [|f l]; [by eexists _, a'|]. cbn [decide_rel].
  rewrite decide_False by tauto. rewrite (interpret_law a' f l Hv). cbn. by destruct (f_interpreted f); eexists _, a'.
Qed.

Lemma ReadInt_reads name : reads (AuditSearchUtils_ReadInt name) f_int name.
Proof.
  intros a e He. destruct (FindField_run a e name He) as (a' & Hs & Hv & H).
  unfold AuditSearchUtils_ReadInt, read_from. rewrite H.
  destruct (find_from name (v_fields (view a))) as [|f l]; [by eexists _, a'|]. cbn [decide_rel].
  rewrite decide_False by tauto. pose proof (field_int_law a' f l 0 Hv) as Hi.
  destruct (auparse_get_field_int a' 0) as [n errno]. cbn. destruct (f_int f) as [m|]; destruct Hi as [-> Hi].
  - subst errno. rewrite andb_false_r. by eexists _, a'.
  - rewrite (proj2 (Z.eqb_neq errno 0) Hi). by eexists _, a'.
Qed.

(** Reading from the first record reads the event. *)
Lemma from_first_record_run {A} (read : Au -> AuditSearchResultValues * option A * Au) get name a e :
  reads read get name -> v_event (view a) = Some e ->
  exists x a', stays a a' /\ from_first_record read a = ((read_field get e name).1, x, a') /\
    ((read_field get e name).1 = AUDIT_SEARCH_OK -> x = (read_field get e name).2).
Proof.
  intros Hr He. unfold from_first_record, read_field. pose proof (first_record_law a e He) as H.
  destruct (auparse_first_record a) as [r a1]. destruct H as (H0 & H1 & Hv).
  rewrite (proj2 (Z.eqb_neq _ _) H1). pose proof (stays_set_fields _ _ _ Hv) as Hs.
  destruct (ev_records e) as [|rec records] eqn:Er.
  - rewrite (proj2 H0 eq_refl). by eexists _, a1.
  - rewrite (proj2 (Z.eqb_neq r 0)) by (intros H2; by apply H0 in H2).
    destruct (Hr a1 e) as (x & a2 & Hs2 & _ & Hread & Hx); [by rewrite Hv|].
    rewrite Hv in Hread, Hx. exists x, a2. split; [by eapply stays_trans|].
    unfold lookup_field. rewrite Er. by split.
Qed.

(** ** Lemmas: stepping through the events *)

Lemma same_search_refl s : same_search s s.
Proof. done. Qed.

Lemma same_search_trans s1 s2 s3 : same_search s1 s2 -> same_search s2 s3 -> same_search s1 s3.
Proof. unfold same_search. intuition congruence. Qed.

Lemma sought_app q l l' : sought q (l ++ l') = sought q l ++ sought q l'.
Proof. apply List.filter_app. Qed.

Lemma sought_none q l : Forall (fun e => matches satisfies q e = false) l -> sought q l = [].
Proof. intros H. induction H as [|e l He _ IH]; [done|]. cbn. by rewrite He. Qed.

Lemma sought_split q l skipped e later :
  l = skipped ++ e :: later -> Forall (fun e => matches satisfies q e = false) skipped -> matches satisfies q e = true ->
  sought q l = e :: sought q later.
Proof. intros -> H1 H2. rewrite sought_app, (sought_none _ _ H1). cbn. by rewrite H2. Qed.

(** Reading the current event leaves the search where it is. *)
Lemma on_audit_run {S A} q e todo auditSearch (f : Au -> A * Au) x (s : S) :
  visiting q e todo auditSearch -> (forall a, audit auditSearch = Some a -> v_event (view a) = Some e -> exists a', f a = (x, a') /\ stays a a') ->
  exists auditSearch', on_audit auditSearch f s = Some ((x, auditSearch'), s) /\
    visiting q e todo auditSearch' /\ same_search auditSearch auditSearch'.
Proof.
  intros (a & Ha & Hq & He & Hf & Hl) Hrun. destruct (Hrun a Ha He) as (a' & H & H1 & H2 & H3).
  exists (set_audit a' auditSearch). unfold on_audit. rewrite Ha. cbn [deref]. rewrite bind_ret_l, H. split; [done|].
  split; [|done]. exists a'. split; [done|]. by rewrite H1, H2, H3.
Qed.

(** Looking for the next event among the candidates [l]. *)
Lemma search_run q a l :
  v_query (view a) = Some q -> candidates (view a) = l ->
  let '(r, a') := ausearch_next_event a in
  r = -1 \/ (r = 0 /\ sought q l = []) \/
  r <> -1 /\ r <> 0 /\ exists e later, sought q l = e :: sought q later /\ view a' = at_event (view a) e later.
Proof.
  intros Hq <-. pose proof (search_law a q Hq) as H. destruct (ausearch_next_event a) as [r a'].
  destruct H as [H|[[H1 H2]|(H1 & H2 & skipped & e & later & H3 & H4 & H5 & H6)]]; [by left| |].
  - right; left. split; [done|]. by apply sought_none.
  - right; right. split; [done|]. split; [done|]. exists e, later. split; [by eapply sought_split | done].
Qed.

(** What stepping to the next event finds. *)
Definition stepped (q : Query) (todo : list AuditEvent) (r : AuditSearchResultValues) (first : bool) (a : Au) : Prop :=
  match r with
  | AUDIT_SEARCH_HAS_MORE_DATA => first = false /\ exists e todo', todo = e :: todo' /\
      v_query (view a) = Some q /\ v_event (view a) = Some e /\ sought q (v_later (view a)) = todo'
  | AUDIT_SEARCH_NO_MORE_DATA => todo = []
  | AUDIT_SEARCH_EXCEPTION => True
  | _ => False
  end.

Lemma next_event_searches q todo a :
  v_query (view a) = Some q -> sought q (candidates (view a)) = todo ->
  let '(result, a') := ausearch_next_event a in
  stepped q todo (if result =? -1 then AUDIT_SEARCH_EXCEPTION
                  else if result =? 0 then AUDIT_SEARCH_NO_MORE_DATA else AUDIT_SEARCH_HAS_MORE_DATA) false a'.
Proof.
  intros Hq Hl. pose proof (search_run q a _ Hq eq_refl) as H. destruct (ausearch_next_event a) as [r a'].
  destruct H as [->|[[-> H]|(H1 & H2 & e & later & H3 & H4)]]; [done | by rewrite <- Hl |].
  rewrite (proj2 (Z.eqb_neq _ _) H1), (proj2 (Z.eqb_neq _ _) H2). split; [done|].
  exists e, (sought q later). rewrite H4. split; [by rewrite <- Hl | by split].
Qed.

Lemma next_event_run q todo (first : bool) a :
  v_query (view a) = Some q -> sought q (v_later (view a)) = todo ->
  (if first then v_event (view a) = None else exists e, v_event (view a) = Some e) ->
  let '(r, first', a') := next_event first a in stepped q todo r first' a'.
Proof.
  intros Hq Hl He. unfold next_event. destruct first; cbn [negb].
  - pose proof (next_event_searches q todo a Hq) as H. unfold candidates in H. rewrite He in H. specialize (H Hl).
    change (1 =? -1) with false. change (1 =? 0) with false. cbv iota. by destruct (ausearch_next_event a) as [r a'].
  - destruct He as [e0 He]. pose proof (next_event_law a e0 He) as H. destruct (auparse_next_event a) as [r1 a1].
    destruct H as [->|[[-> H]|(H1 & H2 & e1 & later & H3 & H4)]]; [done | cbn; by rewrite <- Hl, H |].
    rewrite (proj2 (Z.eqb_neq _ _) H1), (proj2 (Z.eqb_neq _ _) H2).
    pose proof (next_event_searches q todo a1) as H. destruct (ausearch_next_event a1) as [r a'].
    apply H; [by rewrite H4|]. unfold candidates. by rewrite H4, <- Hl, H3.
Qed.

Lemma GetNext_run {S} q todo auditSearch (s : S) :
  searching q todo auditSearch ->
  exists r auditSearch', AuditSearch_GetNext auditSearch s = Some ((r, auditSearch'), s) /\
    same_search auditSearch auditSearch' /\ audit auditSearch' <> None /\
    match r with
    | AUDIT_SEARCH_HAS_MORE_DATA => exists e todo', todo = e :: todo' /\ visiting q e todo' auditSearch'
    | AUDIT_SEARCH_NO_MORE_DATA => todo = []
    | AUDIT_SEARCH_EXCEPTION => search_breaks q todo
    | _ => False
    end.
Proof.
  intros Hs. unfold AuditSearch_GetNext, on_audit.
  assert (exists a, audit auditSearch = Some a /\ v_query (view a) = Some q /\ sought q (v_later (view a)) = todo /\
    (if firstSearch auditSearch then v_event (view a) = None else exists e, v_event (view a) = Some e))
    as (a & Ha & Hq & Hl & He).
  { destruct Hs as [(a & Ha & Hq & He & Hf & Hl)|(e & a & Ha & Hq & He & Hf & Hl)]; exists a; rewrite Hf; eauto. }
  pose proof (next_event_run q todo _ a Hq Hl He) as H. rewrite Ha. cbn [deref]. cbn [bind ret].
  rewrite bind_assoc, bind_ret_l.
  destruct (next_event (firstSearch auditSearch) a) as [[r first] a'] eqn:En.
  eexists _, _. split; [reflexivity|]. split; [done|]. split; [done|]. destruct r; try done.
  - destruct H as (-> & e & todo' & -> & H1 & H2 & H3). exists e, todo'. split; [done|]. by exists a'.
  - exists (firstSearch auditSearch), a. by rewrite En.
Qed.

(** ** Lemmas: the checkpoint *)

Lemma bytes_value_of n z : bytes_value (bytes_of n z) = z mod 256 ^ Z.of_nat n.
Proof.
  revert z. induction n as [|n IH]; intros z; [by rewrite Z.mod_1_r|]. cbn [bytes_of bytes_value]. rewrite IH. unfold code.
  pose proof (Z.mod_pos_bound z 256 ltac:(lia)) as Hb.
  rewrite N_ascii_embedding by lia. rewrite Z2N.id by lia.
  rewrite Nat2Z.inj_succ, Z.pow_succ_r, Z.rem_mul_r by lia. done.
Qed.

Lemma bytes_of_length n z : String.length (bytes_of n z) = n.
Proof. revert z. induction n as [|n IH]; intros z; cbn; [done|]. by rewrite IH. Qed.

(** A time that was written is read back. *)
Lemma time_bytes t : - 2 ^ 63 <= t < 2 ^ 63 -> time_of_bytes (bytes_of_time t) = t.
Proof.
  intros Ht. unfold time_of_bytes, bytes_of_time. rewrite bytes_value_of. cbv zeta.
  change (256 ^ Z.of_nat 8) with (2 ^ 64). destruct (Z.ltb_spec (t mod 2 ^ 64) (2 ^ 63)) as [H|H].
  - destruct (Z_lt_le_dec t 0) as [Hn|Hn]; [|by rewrite Z.mod_small by lia].
    rewrite <- (Z.mod_add t 1), Z.mod_small in H by lia. lia.
  - destruct (Z_lt_le_dec t 0) as [Hn|Hn]; [rewrite <- (Z.mod_add t 1), Z.mod_small by lia; lia|].
    rewrite Z.mod_small in H by lia. lia.
Qed.

Lemma stake_8 t : stake 8 (bytes_of_time t) = bytes_of_time t.
Proof. apply stake_all. unfold bytes_of_time. by rewrite bytes_of_length. Qed.

(** What a search writes, the next one reads. *)
Lemma checkpoint_written h file t :
  - 2 ^ 63 <= t < 2 ^ 63 ->
  checkpoint_time (set_files (update_file file (bytes_of_time t) (host_files h)) h) file = Some t.
Proof.
  intros Ht. unfold checkpoint_time, FileUtils_ReadFile. cbn [open_file file_system set_files host_files]. unfold update_file.
  rewrite String.eqb_refl. cbv zeta. change (Z.to_nat SIZEOF_TIME_T) with 8%nat. rewrite stake_8.
  assert (Hl : strlen (bytes_of_time t) = SIZEOF_TIME_T) by (unfold strlen, bytes_of_time; by rewrite bytes_of_length).
  rewrite Hl. cbn [negb Z.eqb]. rewrite Z.eqb_refl. cbn [negb]. by rewrite time_bytes.
Qed.

(** ** Lemmas: starting and ending a search *)

Lemma add_others_run criteria ts a q :
  v_query (view a) = Some q ->
  let '(ok, a') := add_message_types criteria AUSEARCH_RULE_OR ts a in
  ok = true -> view a' = set_query (fold_left QOr (map (type_query criteria) ts) q) (view a).
Proof.
  revert a q. induction ts as [|t ts IH]; intros a q Hq; cbn [add_message_types].
  { intros _. destruct (view a) as [q' ? ? ?]. cbn in Hq. by rewrite Hq. }
  assert (H : let '(r, a') := if decide (criteria = AUDIT_SEARCH_CRITERIA_TYPE /\ t = AUDIT_USER_AUTH_NAME)
        then ausearch_add_expression a AUDIT_USER_AUTH_SEARECH_RULE AUSEARCH_RULE_OR
        else if decide (criteria = AUDIT_SEARCH_CRITERIA_SYSCALL)
        then ausearch_add_interpreted_item a (AuditSearch_ConvertCriteriaToString criteria) "=" t AUSEARCH_RULE_OR
        else ausearch_add_item a (AuditSearch_ConvertCriteriaToString criteria) "=" t AUSEARCH_RULE_OR in
      rule_added (view a) (type_query criteria t) AUSEARCH_RULE_OR r (view a')).
  { unfold type_query. repeat case_decide; [apply expression_law | apply interpreted_law | apply item_law]. }
  destruct (if decide _ then _ else _) as [r a1]. destruct H as [->|[Hr Hv]]; [done|].
  rewrite (proj2 (Z.eqb_neq _ _) Hr). unfold add_rule in Hv. rewrite Hq in Hv. cbn in Hv.
  specialize (IH a1 (QOr q (type_query criteria t))). rewrite Hv in IH. specialize (IH eq_refl).
  destruct (add_message_types criteria AUSEARCH_RULE_OR ts a1) as [ok a']. intros Hok. by rewrite IH.
Qed.

(** All the types, from a state without a query. *)
Lemma add_types_run criteria t ts a :
  let '(ok, a') := add_message_types criteria AUSEARCH_RULE_CLEAR (t :: ts) a in
  ok = true -> view a' = set_query (types_query criteria t ts) (view a).
Proof.
  cbn [add_message_types].
  assert (H : let '(r, a') := if decide (criteria = AUDIT_SEARCH_CRITERIA_TYPE /\ t = AUDIT_USER_AUTH_NAME)
        then ausearch_add_expression a AUDIT_USER_AUTH_SEARECH_RULE AUSEARCH_RULE_CLEAR
        else if decide (criteria = AUDIT_SEARCH_CRITERIA_SYSCALL)
        then ausearch_add_interpreted_item a (AuditSearch_ConvertCriteriaToString criteria) "=" t AUSEARCH_RULE_CLEAR
        else ausearch_add_item a (AuditSearch_ConvertCriteriaToString criteria) "=" t AUSEARCH_RULE_CLEAR in
      rule_added (view a) (type_query criteria t) AUSEARCH_RULE_CLEAR r (view a')).
  { unfold type_query. repeat case_decide; [apply expression_law | apply interpreted_law | apply item_law]. }
  destruct (if decide _ then _ else _) as [r a1]. destruct H as [->|[Hr Hv]]; [done|].
  rewrite (proj2 (Z.eqb_neq _ _) Hr). cbn in Hv.
  pose proof (add_others_run criteria ts a1 (type_query criteria t)) as H. rewrite Hv in H. specialize (H eq_refl).
  by destruct (add_message_types criteria AUSEARCH_RULE_OR ts a1).
Qed.

Section HostLemmas.
Context {S : Type} {W : HasWorld S} {O : HasHost S}.

Definition as_root (h : Host) : Host := set_euid 0 h.

(** The saved ids give the host back its effective user. *)
Definition gives_back (h : Host) (info : ProcessInfo) : Prop :=
  if wasSet info then effectiveUid info = host_euid h else host_euid h = 0.

Lemma set_euid_same h : set_euid (host_euid h) h = h.
Proof. by destruct h. Qed.

Lemma host_of_elapse n (s : S) : host_of (elapse n s) = host_of s.
Proof. apply host_of_with_world. Qed.

Lemma up_fallible_run (s : S) : reliable (world_of s) -> up fallible s = Some (true, elapse 1 s).
Proof. intros Hr. by apply up_bump, fallible_reliable. Qed.

Lemma elapse_with_host n h (s : S) : elapse n (with_host h s) = with_host h (elapse n s).
Proof. unfold elapse. by rewrite world_of_with_host, with_host_world. Qed.

Lemma seteuid_run uid (s : S) :
  reliable (world_of s) -> seteuid uid s = Some (true, with_host (set_euid uid (host_of s)) (elapse 1 s)).
Proof.
  intros Hr. unfold seteuid. rewrite (bind_eq _ _ _ _ _ (up_fallible_run s Hr)). unfold modify, bind, ret.
  by rewrite host_of_elapse.
Qed.

Lemma ChangeToRoot_run (s : S) :
  reliable (world_of s) ->
  exists n info, ProcessInfoHandler_ChangeToRoot s = Some ((true, info), with_host (as_root (host_of s)) (elapse n s)) /\
    gives_back (host_of s) info.
Proof.
  intros Hr. unfold ProcessInfoHandler_ChangeToRoot, bind, gets, gives_back, as_root.
  destruct (Z.eqb_spec (host_euid (host_of s)) 0) as [H0|H0].
  - exists 0%nat, (mkProcessInfo (host_euid (host_of s)) false). rewrite elapse_0. split; [|exact H0].
    rewrite <- H0. by rewrite set_euid_same, with_host_of.
  - exists 1%nat, (mkProcessInfo (host_euid (host_of s)) true). by rewrite seteuid_run by done.
Qed.

Lemma Reset_run info (s : S) h :
  reliable (world_of s) -> gives_back h info -> host_euid (host_of s) = 0 ->
  exists n, ProcessInfoHandler_Reset info s = Some (true, with_host (set_euid (host_euid h) (host_of s)) (elapse n s)).
Proof.
  intros Hr Hb H0. unfold ProcessInfoHandler_Reset. unfold gives_back in Hb. destruct (wasSet info); cbn [negb].
  - rewrite seteuid_run, Hb by done. by exists 1%nat.
  - exists 0%nat. rewrite elapse_0, Hb, <- H0, set_euid_same, with_host_of. done.
Qed.

Lemma search_Deinit_run auditSearch (s : S) h :
  reliable (world_of s) -> gives_back h (processInfo auditSearch) -> host_euid (host_of s) = 0 ->
  exists n auditSearch', AuditSearch_Deinit auditSearch s =
      Some (auditSearch', with_host (set_euid (host_euid h) (host_of s)) (elapse n s)) /\
    audit auditSearch' = None /\ checkpointFile auditSearch' = None.
Proof.
  intros Hr Hb H0. unfold AuditSearch_Deinit. destruct (Reset_run _ s h Hr Hb H0) as [n H].
  rewrite (bind_eq _ _ _ _ _ H). by eexists n, _.
Qed.

Lemma deinit_after_root auditSearch (s : S) n :
  reliable (world_of s) -> gives_back (host_of s) (processInfo auditSearch) ->
  exists m auditSearch', AuditSearch_Deinit auditSearch (with_host (as_root (host_of s)) (elapse n s)) =
      Some (auditSearch', elapse m s) /\ audit auditSearch' = None /\ checkpointFile auditSearch' = None.
Proof.
  intros Hr Hb. destruct (search_Deinit_run auditSearch (with_host (as_root (host_of s)) (elapse n s)) (host_of s))
    as (m & a' & H & Ha & Hf); [by rewrite world_of_with_host, world_of_elapse | done | by rewrite host_of_with |].
  exists (m + n)%nat, a'. split; [|done]. rewrite H, elapse_with_host, elapse_elapse, host_of_with, with_host_with.
  change (set_euid (host_euid (host_of s)) (as_root (host_of s))) with (set_euid (host_euid (host_of s)) (host_of s)).
  by rewrite set_euid_same, <- (host_of_elapse (m + n) s), with_host_of.
Qed.

Definition search_query (h : Host) (criteria : AuditSearchCriteria) (t : string) (ts : list string) (checkpoint : option string) : Query :=
  newer_than (file ← checkpoint; checkpoint_time h file) (types_query criteria t ts).

(** How initialising a search ends. *)
Definition initialised (criteria : AuditSearchCriteria) (t : string) (ts : list string) (checkpoint : option string) (s : S)
    (r : AuditSearchResultValues) (auditSearch : AuditSearch) (s' : S) : Prop :=
  match r with
  | AUDIT_SEARCH_OK =>
      let q := search_query (host_of s) criteria t ts checkpoint in
      (exists n, s' = with_host (as_root (host_of s)) (elapse n s)) /\
      starting q (sought q (log_events (host_log (host_of s)))) auditSearch /\
      checkpointFile auditSearch = checkpoint /\ (exists k, searchTime auditSearch = env_time (env (world_of s)) k) /\
      gives_back (host_of s) (processInfo auditSearch)
  | AUDIT_SEARCH_EXCEPTION =>
      audit auditSearch = None /\ search_refused (host_of s) criteria (t :: ts) checkpoint = true /\ exists n, s' = elapse n s
  | _ => False
  end.

Lemma search_Init_run criteria t ts checkpoint (s : S) :
  reliable (world_of s) ->
  exists r auditSearch s', AuditSearch_InitMultipleSearchCriteria criteria (t :: ts) checkpoint s = Some ((r, auditSearch), s') /\
    initialised criteria t ts checkpoint s r auditSearch s'.
Proof.
  intros Hr. unfold AuditSearch_InitMultipleSearchCriteria.
  destruct (ChangeToRoot_run s Hr) as (n & info & H1 & Hb). rewrite (bind_eq _ _ _ _ _ H1). cbn [negb].
  set (h := as_root (host_of s)).
  assert (Hrel : forall k, reliable (world_of (with_host h (elapse k s)))) by (intros k; by rewrite world_of_with_host, world_of_elapse).
  assert (Hfail : forall a k, search_refused (host_of s) criteria (t :: ts) checkpoint = true ->
    gives_back (host_of s) (processInfo a) -> exists r auditSearch s',
    bind (AuditSearch_Deinit a) (fun auditSearch => ret (AUDIT_SEARCH_EXCEPTION, auditSearch)) (with_host h (elapse k s)) =
      Some ((r, auditSearch), s') /\ initialised criteria t ts checkpoint s r auditSearch s').
  { intros a k Hno Ha. destruct (deinit_after_root a s k Hr Ha) as (m & a' & Hd & Ha' & _). fold h in Hd.
    rewrite (bind_eq _ _ _ _ _ Hd). eexists _, _, _. split; [reflexivity|]. split; [done|]. split; [done|]. by exists m. }
  rewrite (bind_eq _ _ _ _ _ (up_fallible_run _ (Hrel n))). cbn [negb]. rewrite elapse_with_host, elapse_elapse.
  unfold gets at 1, bind at 1. rewrite host_of_with.
  pose proof (add_types_run criteria t ts (auparse_init (host_log h))) as Ht.
  unfold search_refused in Hfail. change (host_log (host_of s)) with (host_log h) in Hfail.
  destruct (add_message_types criteria AUSEARCH_RULE_CLEAR (t :: ts) (auparse_init (host_log h))) as [ok a].
  destruct ok; cbn [negb orb] in *; [|by apply Hfail]. specialize (Ht eq_refl). rewrite init_law in Ht. cbn in Ht.
  assert (Hstop : forall x a k q, v_query (view a) = Some q -> v_event (view a) = None -> v_later (view a) = log_events (host_log h) ->
    q = search_query (host_of s) criteria t ts checkpoint ->
    (forall x k, (fst (ausearch_set_stop a) =? -1) = true -> gives_back (host_of s) (processInfo x) -> exists r auditSearch s',
      bind (AuditSearch_Deinit x) (fun auditSearch => ret (AUDIT_SEARCH_EXCEPTION, auditSearch)) (with_host h (elapse k s)) =
        Some ((r, auditSearch), s') /\ initialised criteria t ts checkpoint s r auditSearch s') -> checkpointFile x = checkpoint -> firstSearch x = true ->
    processInfo x = info -> audit x = Some a ->
    exists r auditSearch s', (a <- deref (audit x) ;;
          let '(r, a) := ausearch_set_stop a in
          let auditSearch := set_audit a x in
          if r =? -1 then auditSearch <- AuditSearch_Deinit auditSearch ;; ret (AUDIT_SEARCH_EXCEPTION, auditSearch)
          else now <- up TimeUtils_GetCurrentTime ;; ret (AUDIT_SEARCH_OK, set_searchTime now auditSearch)) (with_host h (elapse k s)) =
      Some ((r, auditSearch), s') /\ initialised criteria t ts checkpoint s r auditSearch s').
  { intros x b k q Hq Hev Hl -> Hno Hc Hf Hp Hx. rewrite Hx. cbn [deref]. rewrite bind_ret_l.
    pose proof (stop_law b) as Hst. destruct (ausearch_set_stop b) as [r b']. destruct Hst as [->|[Hne Hv]];
      [apply Hno; [done | by cbn; rewrite Hp]|]. cbv zeta. rewrite (proj2 (Z.eqb_neq _ _) Hne).
    assert (Hn : up TimeUtils_GetCurrentTime (with_host h (elapse k s)) =
      Some (env_time (env (world_of s)) (tick (bump k (world_of s))), with_host h (elapse (1 + k) s))).
    { rewrite <- (elapse_elapse 1 k), <- (elapse_with_host 1 h (elapse k s)). apply up_bump. rewrite world_of_with_host, world_of_elapse. done. }
    rewrite (bind_eq _ _ _ _ _ Hn). eexists _, _, _. split; [reflexivity|]. cbn [initialised]. cbv zeta.
    split; [by eexists|]. split; [exists b'; cbn; rewrite Hv; by rewrite Hf, Hl|]. split; [done|]. split; [by eexists|]. cbn. by rewrite Hp. }
  destruct checkpoint as [file|].
  2:{ rewrite bind_ret_l. cbn [negb]. eapply (Hstop _ a); [by rewrite Ht ..| reflexivity | exact Hfail | done | done | done | done]. }
  assert (Hcopy : up (Utils_CreateStringCopy (Some file)) (with_host h (elapse (1 + n) s)) =
    Some (Some file, with_host h (elapse (1 + (1 + n)) s))).
  { rewrite <- (elapse_elapse 1 (1 + n)), <- (elapse_with_host 1 h (elapse (1 + n) s)). apply up_bump. unfold Utils_CreateStringCopy.
    by rewrite (bind_eq _ _ _ _ _ (malloc_reliable _ (Hrel (1 + n)%nat))). }
  rewrite bind_assoc, (bind_eq _ _ _ _ _ Hcopy). cbv zeta iota beta.
  unfold AuditSearch_AddCheckpointToSearch. rewrite !bind_assoc. unfold gets at 1, bind at 1. rewrite host_of_with.
  cbn [checkpointFile set_checkpointFile audit set_audit deref]. rewrite !bind_assoc, bind_ret_l, !bind_assoc, bind_ret_l.
  assert (Hq : search_query (host_of s) criteria t ts (Some file) =
    newer_than (match FileUtils_ReadFile (Fs := file_system h) file SIZEOF_TIME_T false with
      | (FILE_UTILS_OK, data) => Some (time_of_bytes data) | _ => None end) (types_query criteria t ts)) by reflexivity.
  change (FileUtils_ReadFile (Fs := file_system (host_of s))) with (FileUtils_ReadFile (Fs := file_system h)) in Hfail.
  destruct (FileUtils_ReadFile (Fs := file_system h) file SIZEOF_TIME_T false) as [[] data].
  1:{ pose proof (timestamp_law a ">" (time_of_bytes data) 0 AUSEARCH_RULE_AND) as Hts.
      destruct (ausearch_add_timestamp_item a ">" (time_of_bytes data) 0 AUSEARCH_RULE_AND) as [r a'].
      rewrite bind_ret_l. destruct Hts as [->|[Hne Hv]]; [rewrite bind_ret_l; by apply Hfail|].
      rewrite (proj2 (Z.eqb_neq _ _) Hne) in *. rewrite bind_ret_l. rewrite bool_decide_true by done. cbn [negb].
      rewrite Ht in Hv. cbn in Hv. eapply (Hstop _ a'); [by rewrite Hv ..| by rewrite Hq | exact Hfail | done | done | done | done]. }
  all: rewrite !bind_ret_l; first [rewrite bool_decide_true by done; cbn [negb];
    eapply (Hstop _ a); [by rewrite Ht ..| by rewrite Hq | exact Hfail | done | done | done | done]
    | rewrite bool_decide_false by done; by apply Hfail].
Qed.

(** The checkpoint file after it was written, and the result. *)
Lemma SetCheckpoint_run auditSearch file (s : S) :
  checkpointFile auditSearch = Some file ->
  exists r files, AuditSearch_SetCheckpoint auditSearch s = Some (r, with_host (set_files files (host_of s)) s) /\
    (forall name, name <> file -> files name = host_files (host_of s) name) /\
    (r = AUDIT_SEARCH_OK -> files = update_file file (bytes_of_time (searchTime auditSearch)) (host_files (host_of s))) /\
    r = (if write_refused (host_of s) file (bytes_of_time (searchTime auditSearch)) then AUDIT_SEARCH_EXCEPTION else AUDIT_SEARCH_OK).
Proof.
  intros Hf. unfold AuditSearch_SetCheckpoint. rewrite Hf. cbn [deref]. rewrite bind_ret_l.
  unfold FileUtils_WriteToFile. set (data := bytes_of_time (searchTime auditSearch)). rewrite bind_assoc. unfold gets at 1, bind at 1.
  assert (Hother : forall c name, name <> file -> update_file file c (host_files (host_of s)) name = host_files (host_of s) name).
  { intros c name Hn. unfold update_file. by rewrite (proj2 (String.eqb_neq _ _) Hn). }
  unfold write_refused. fold data. destruct (host_creates (host_of s) file); cbn [negb andb].
  2:{ exists AUDIT_SEARCH_EXCEPTION, (host_files (host_of s)). split; [|split; [done|split; done]].
    rewrite bind_ret_l. replace (set_files _ _) with (host_of s) by (by destruct (host_of s)). by rewrite with_host_of. }
  destruct (host_writes (host_of s) file data) as [k|]; unfold modify, bind, ret.
  - destruct (Z.eqb_spec (Z.of_nat k) (strlen data)) as [Hk|Hk]; eexists _, _; (split; [reflexivity|]);
      (split; [by apply Hother|]); (split; [|unfold strlen in Hk; by case_bool_decide as Hd; [injection Hd as ->|]; try (exfalso; lia || (apply Hd; f_equal; lia))]); [|done].
    intros _. f_equal. replace k with 8%nat; [apply stake_8|]. unfold strlen, data, bytes_of_time in Hk. rewrite bytes_of_length in Hk. lia.
  - eexists _, _. split; [reflexivity|]. split; [by apply Hother|]. split; [done|]. by rewrite bool_decide_eq_false_2.
Qed.

End HostLemmas.

(** ** Property *)

(** C28: A checkpoint resumes the search.  When a search has written its
    checkpoint, a later search for the same file that is initialised, with
    whatever the log then holds, looks at exactly the events of the wanted types
    that are newer than the time the first search began: none of those before is
    looked at again, and none after is left out. *)
Theorem checkpoint_resumes {S} `{HasHost S} auditSearch file criteria t ts (s s1 s2 s3 : S) later :
  checkpointFile auditSearch = Some file -> - 2 ^ 63 <= searchTime auditSearch < 2 ^ 63 ->
  AuditSearch_SetCheckpoint auditSearch s = Some (AUDIT_SEARCH_OK, s1) ->
  host_files (host_of s2) file = host_files (host_of s1) file -> reliable (world_of s2) ->
  AuditSearch_InitMultipleSearchCriteria criteria (t :: ts) (Some file) s2 = Some ((AUDIT_SEARCH_OK, later), s3) ->
  exists q, starting q (List.filter (fun e => matches satisfies (types_query criteria t ts) e &&
      match ev_time e with Some u => later_than (searchTime auditSearch) 0 u | None => false end)
    (log_events (host_log (host_of s2)))) later.
Proof.
  intros Hf Ht H1 Hsame Hr H2. destruct (SetCheckpoint_run auditSearch file s Hf) as (r & files & H1' & _ & Hok & _).
  rewrite H1 in H1'. injection H1' as <- ->. specialize (Hok eq_refl). rewrite host_of_with in Hsame. cbn in Hsame.
  assert (Hcp : checkpoint_time (host_of s2) file = Some (searchTime auditSearch)).
  { rewrite <- (checkpoint_written (host_of s2) file _ Ht). unfold checkpoint_time, FileUtils_ReadFile.
    cbn [open_file file_system set_files host_files]. rewrite Hsame, Hok. unfold update_file. by rewrite String.eqb_refl. }
  destruct (search_Init_run criteria t ts (Some file) s2 Hr) as (r & a & s' & H2' & Hinit). rewrite H2 in H2'.
  injection H2' as <- <- <-. destruct Hinit as (_ & Hstart & _). eexists. revert Hstart.
  unfold search_query. cbn [mbind option_bind]. rewrite Hcp. cbn [newer_than]. unfold sought.
  erewrite (List.filter_ext (matches satisfies (QAnd _ _))); [intros Hstart; exact Hstart|]. intros e. done.
Qed.

End Audit.

(** ** A library for the witnesses *)

Definition record_type (name : string) : Z :=
  if String.eqb name "USER_LOGIN" then 1112 else if String.eqb name "USER_AUTH" then 1100
  else if String.eqb name "EXECVE" then 1309 else if String.eqb name "INTEGRITY_RULE" then 1805 else 0.

Definition has_type (name : string) (e : AuditEvent) : bool :=
  List.existsb (fun r => rec_type r =? record_type name) (ev_records e).

Definition interpreted_as (field value : string) (e : AuditEvent) : bool :=
  match head (find_from field (all_fields (ev_records e))) with
  | Some f => match f_interpreted f with Some v => String.eqb v value | None => false end
  | None => false
  end.

(** The queries of the collectors. *)
Definition sample_satisfies (q : Query) (e : AuditEvent) : bool :=
  match q with
  | QItem field op value => String.eqb field "type" && String.eqb op "=" && has_type value e
  | QInterpreted field op value => String.eqb op "=" && interpreted_as field value e
  | QExpression _ => has_type "USER_AUTH" e && negb (interpreted_as "exe" "/usr/bin/sudo" e) && negb (interpreted_as "exe" "/bin/sudo" e)
  | _ => false
  end.

Record SampleAu : Type := mkSampleAu {
  sa_view : AuView;
  sa_record : option AuditRecord;
}.

Fixpoint first_matching (q : Query) (l : list AuditEvent) : option (AuditEvent * list AuditEvent) :=
  match l with
  | [] => None
  | e :: l => if matches sample_satisfies q e then Some (e, l) else first_matching q l
  end.

Definition sample_rule (a : SampleAu) (q : Query) (how : ausearch_rule_t) : Z * SampleAu :=
  (0, mkSampleAu (set_query (add_rule (v_query (sa_view a)) q how) (sa_view a)) (sa_record a)).

Definition sample_at (a : SampleAu) (e : AuditEvent) (later : list AuditEvent) : Z * SampleAu :=
  (1, mkSampleAu (at_event (sa_view a) e later) (head (ev_records e))).

Definition current_records (a : SampleAu) : list AuditRecord := match v_event (sa_view a) with Some e => ev_records e | None => [] end.

#[export] Instance sample_auparse : Auparse := {|
  Log := list AuditEvent;
  Au := SampleAu;
  auparse_init l := mkSampleAu (mkView None None l []) None;
  ausearch_add_expression a x how := sample_rule a (QExpression x) how;
  ausearch_add_item a f op v how := sample_rule a (QItem f op v) how;
  ausearch_add_interpreted_item a f op v how := sample_rule a (QInterpreted f op v) how;
  ausearch_add_timestamp_item a op sec milli how := sample_rule a (QTime op sec milli) how;
  ausearch_set_stop a := (0, a);
  auparse_next_event a := match v_later (sa_view a) with [] => (0, a) | e :: later => sample_at a e later end;
  ausearch_next_event a :=
    match v_query (sa_view a) with
    | None => (-1, a)
    | Some q => match first_matching q (candidates (sa_view a)) with None => (0, a) | Some (e, later) => sample_at a e later end
    end;
  auparse_first_record a :=
    (match current_records a with [] => 0 | _ => 1 end,
     mkSampleAu (set_fields (all_fields (current_records a)) (sa_view a)) (head (current_records a)));
  auparse_next_record a := (0, a);
  auparse_get_timestamp a := e ← v_event (sa_view a); fst <$> ev_time e;
  auparse_find_field a name errno :=
    let l := find_from name (v_fields (sa_view a)) in
    (match l with [] => false | _ => true end, errno, mkSampleAu (set_fields l (sa_view a)) (sa_record a));
  auparse_get_field_str a := f ← head (v_fields (sa_view a)); f_str f;
  auparse_get_field_int a errno :=
    match head (v_fields (sa_view a)) with
    | Some f => match f_int f with Some n => (n, errno) | None => (-1, 22) end
    | None => (-1, 22)
    end;
  auparse_interpret_field a := f ← head (v_fields (sa_view a)); f_interpreted f;
  auparse_get_num_records a := Z.of_nat (List.length (current_records a));
  auparse_goto_record_num a i :=
    match current_records a !! Z.to_nat i with
    | None => (0, a)
    | Some record => (1, mkSampleAu (set_fields (all_fields (drop (Z.to_nat i) (current_records a))) (sa_view a)) (Some record))
    end;
  auparse_get_type a := match sa_record a with Some r => rec_type r | None => 0 end;
  auparse_get_record_text a := r ← sa_record a; rec_text r;
|}.

Lemma first_matching_spec q l :
  match first_matching q l with
  | None => Forall (fun e => matches sample_satisfies q e = false) l
  | Some (e, later) => exists skipped, l = skipped ++ e :: later /\
      Forall (fun e => matches sample_satisfies q e = false) skipped /\ matches sample_satisfies q e = true
  end.
Proof.
  induction l as [|e l IH]; cbn [first_matching]; [by constructor|].
  destruct (matches sample_satisfies q e) eqn:E; [by exists []|].
  destruct (first_matching q l) as [[e' later]|]; [|by constructor].
  destruct IH as (skipped & -> & H1 & H2). exists (e :: skipped). by repeat constructor.
Qed.

Lemma sample_rule_law a q how : let '(r, a') := sample_rule a q how in rule_added (sa_view a) q how r (sa_view a').
Proof. right. by split. Qed.

#[export] Instance sample_auparse_laws : AuparseLaws.
Proof.
  refine {| view := sa_view; record_at := sa_record; log_events := fun l : list AuditEvent => l; satisfies := sample_satisfies |};
    intros; cbn -[sample_rule]; try done; try apply sample_rule_law.
  - right. by split.
  - destruct (v_later (sa_view a)) as [|e' later]; right; [by left | right]. split; [done|]. split; [done|]. by exists e', later.
  - rewrite H. pose proof (first_matching_spec q (candidates (sa_view a))) as Hs.
    destruct (first_matching q (candidates (sa_view a))) as [[e later]|]; [|by right; left].
    destruct Hs as (skipped & H1 & H2 & H3). right; right. split; [done|]. split; [done|]. by exists skipped, e, later.
  - by rewrite H.
  - unfold current_records. rewrite H. by destruct (ev_records e).
  - split; [done|]. split; [|done]. by destruct (find_from name (v_fields (sa_view a))).
  - by rewrite H.
  - by rewrite H.
  - rewrite H. cbn. by destruct (f_int f).
  - unfold current_records. by rewrite H.
  - unfold current_records. rewrite H. by destruct (ev_records e !! Z.to_nat i).
  - by rewrite H.
  - by rewrite H.
Defined.

(** A world and a host. *)
Record Machine : Type := mkMachine {
  m_world : World;
  m_host : Host;
}.

#[export] Instance machine_has_world : HasWorld Machine.
Proof. by refine {| world_of := m_world; with_world w s := mkMachine w (m_host s) |}; try intros []. Defined.

#[export] Instance machine_has_host : HasHost Machine.
Proof. by refine {| host_of := m_host; with_host h s := mkMachine (m_world s) h |}; try intros []. Defined.

(** A login at this time, and a record that is not a login. *)
Definition field (name value : string) (n : option Z) : AuditField := mkAuditField name (Some value) n (Some value).

Definition sample_login (sec milli : Z) (account : string) : AuditEvent :=
  mkAuditEvent (Some (sec, milli))
    [ mkAuditRecord 1112 (Some "type=USER_LOGIN"%string)
        [ field "pid" "812" (Some 812); field "acct" account None; field "exe" "/usr/sbin/sshd" None; field "addr" "10.0.0.7" None;
          field "res" "success" None ] ].

Definition sample_noise (sec : Z) : AuditEvent := mkAuditEvent (Some (sec, 0)) [mkAuditRecord 1309 (Some "type=EXECVE"%string) []].

Definition sample_log : list AuditEvent :=
  [sample_login 1569000000 0 "root"; sample_noise 1570000001; sample_login 1570000000 250 "admin"; sample_login 1570000100 0 "root"].

Definition sample_host : Host := mkHost 1000 1000 (fun _ => ENOENT) (fun _ => true) (fun _ _ => Some 8%nat) sample_log.

Definition sample_machine : Machine := mkMachine (running_world good_env) sample_host.

Definition sample_search : AuditSearch :=
  mkAuditSearch None (Some "/var/tmp/checkpoint"%string) 1570000000 false (mkProcessInfo 1000 true).

Definition checkpointed : Machine :=
  mkMachine (running_world good_env)
    (set_files (update_file "/var/tmp/checkpoint" (bytes_of_time 1570000000) (host_files sample_host)) sample_host).

Definition resume : option ((AuditSearchResultValues * AuditSearch) * Machine) :=
  AuditSearch_InitMultipleSearchCriteria AUDIT_SEARCH_CRITERIA_TYPE ["USER_LOGIN"%string] (Some "/var/tmp/checkpoint"%string) checkpointed.

(** The second and the third login are newer. *)
Lemma checkpoint_resumes_witness :
  exists later s3 q, resume = Some ((AUDIT_SEARCH_OK, later), s3) /\
    starting q [sample_login 1570000000 250 "admin"; sample_login 1570000100 0 "root"] later.
Proof.
  assert (H0 : match resume with Some ((r, _), _) => bool_decide (r = AUDIT_SEARCH_OK) | None => false end = true)
    by (vm_compute; reflexivity).
  destruct resume as [[[r later] s3]|] eqn:H; [|discriminate H0]. apply bool_decide_eq_true_1 in H0. subst r.
  assert (H1 : AuditSearch_SetCheckpoint sample_search sample_machine = Some (AUDIT_SEARCH_OK, checkpointed)) by reflexivity.
  destruct (checkpoint_resumes sample_search "/var/tmp/checkpoint" AUDIT_SEARCH_CRITERIA_TYPE "USER_LOGIN" []
    sample_machine checkpointed checkpointed s3 later eq_refl ltac:(cbn; lia) H1 eq_refl good_reliable H) as [q Hq].
  exists later, s3, q. split; [reflexivity | exact Hq].
Defined.
