(* ===== verification/AuditCollector.v ===== *)
(** * What the collectors of audit events share

    A collector of audit events searches the log from its checkpoint on, turns
    every event it finds into an event of its own or counts it in an aggregator,
    and writes the checkpoint.  This file has the state they run in,
    [collectors/linux/generic_audit_event.c], the creation of one event, and the
    loop, with what they do. *)

From S2P Require Import Prelude CString TwinDefs World Utils TimeUtils Parson Json TwinCollectors TwinConfiguration MemoryMonitor Telemetry Queue SyncQueue Schema MessageSerializer GenericEvent Collector EventAggregator FileUtils AuditLog.
From Stdlib Require Import String.
Open Scope Z_scope.

Section AuditCollector.
Context {P : Parson} {Mon : MemoryMonitor} {Lib : SinglyLinkedList} {Ap : Auparse}.

(** ** State: the queues, the aggregated items, the host, and the statics of the collector *)

Context {X : Type}.

Record AuditState : Type := mkAuditState {
  au_ag : AgState;
  au_host : Host;
  au_statics : X;
}.

Definition au_store (s : AuditState) : Store (D := string) := ag_store (au_ag s).

Definition set_world (w : World) (s : AuditState) : AuditState :=
  mkAuditState (mkAgState (mkStore w (st_heap (au_store s)) (next_item (au_store s))) (ag_items (au_ag s)) (ag_next (au_ag s)))
    (au_host s) (au_statics s).

Definition set_statics (x : X) (s : AuditState) : AuditState := mkAuditState (au_ag s) (au_host s) x.

#[export] Instance audit_has_world : HasWorld AuditState.
Proof. refine {| world_of s := st_world (au_store s); with_world := set_world |}; by intros; destruct s as [[[] ? ?] ? ?]. Defined.

#[export] Instance audit_has_host : HasHost AuditState.
Proof. by refine {| host_of := au_host; with_host h s := mkAuditState (au_ag s) h (au_statics s) |}; try intros []. Defined.

Definition in_aggregator {A} (m : M AgState A) : M AuditState A :=
  fun s => match m (au_ag s) with
           | None => None
           | Some (a, g) => Some (a, mkAuditState g (au_host s) (au_statics s))
           end.

Definition in_queue {A} (m : M (Store (D := string)) A) : M AuditState A := in_aggregator (in_store m).

(** ** [generic_audit_event.c] *)

(** A value that was read is written; one that is not there is left out when it
    is optional.  A value is never null when it was read. *)
Definition handle_value {S A} (read : Au -> AuditSearchResultValues * option A * Au)
    (write : JsonObjectWriter -> A -> JsonWriterResult * JsonObjectWriter) (isOptional : bool)
    (eventWriter : JsonObjectWriter) (auditSearch : AuditSearch) : M S (EventCollectorResult * JsonObjectWriter * AuditSearch) :=
  let* (auditResult, auditValue, auditSearch) := on_audit auditSearch read in
  match auditResult with
  | AUDIT_SEARCH_OK =>
      value <- deref auditValue ;;
      let '(r, eventWriter) := write eventWriter value in
      ret (if decide (r <> JSON_WRITER_OK) then EVENT_COLLECTOR_EXCEPTION else EVENT_COLLECTOR_OK, eventWriter, auditSearch)
  | AUDIT_SEARCH_FIELD_DOES_NOT_EXIST =>
      ret (if isOptional then EVENT_COLLECTOR_OK else EVENT_COLLECTOR_RECORD_HAS_ERRORS, eventWriter, auditSearch)
  | _ => ret (EVENT_COLLECTOR_RECORD_HAS_ERRORS, eventWriter, auditSearch)
  end.

Definition GenericAuditEvent_HandleIntValue {S} (auditField jsonKey : string) (isOptional : bool)
    : JsonObjectWriter -> AuditSearch -> M S (EventCollectorResult * JsonObjectWriter * AuditSearch) :=
  handle_value (AuditSearch_ReadInt auditField) (fun w v => JsonObjectWriter_WriteInt w jsonKey v) isOptional.

Definition GenericAuditEvent_HandleStringValue {S} (auditField jsonKey : string) (isOptional : bool)
    : JsonObjectWriter -> AuditSearch -> M S (EventCollectorResult * JsonObjectWriter * AuditSearch) :=
  handle_value (AuditSearch_ReadString auditField) (fun w v => JsonObjectWriter_WriteString w jsonKey v) isOptional.

Definition GenericAuditEvent_HandleInterpretStringValue {S} (auditField jsonKey : string) (isOptional : bool)
    : JsonObjectWriter -> AuditSearch -> M S (EventCollectorResult * JsonObjectWriter * AuditSearch) :=
  handle_value (AuditSearch_InterpretString auditField) (fun w v => JsonObjectWriter_WriteString w jsonKey v) isOptional.

(** ** One event *)

(** A function that writes the payload of the current event. *)
Definition Payload : Type := JsonObjectWriter -> AuditSearch -> M AuditState (EventCollectorResult * JsonObjectWriter * AuditSearch).

(** Two parts of a payload: the second one when the first one is
    [EVENT_COLLECTOR_OK]. *)
Definition and_then (m k : Payload) : Payload := fun eventWriter auditSearch =>
  let* (result, eventWriter, auditSearch) := m eventWriter auditSearch in
  if decide (result <> EVENT_COLLECTOR_OK) then ret (result, eventWriter, auditSearch) else k eventWriter auditSearch.

(** A string or a number is written; [failed] is the result when it cannot be. *)
Definition write_string_or (failed : EventCollectorResult) (key value : string) : Payload := fun w auditSearch =>
  let '(r, w) := JsonObjectWriter_WriteString w key value in
  ret (if decide (r <> JSON_WRITER_OK) then failed else EVENT_COLLECTOR_OK, w, auditSearch).

Definition write_int_or (failed : EventCollectorResult) (key : string) (value : Z) : Payload := fun w auditSearch =>
  let '(r, w) := JsonObjectWriter_WriteInt w key value in
  ret (if decide (r <> JSON_WRITER_OK) then failed else EVENT_COLLECTOR_OK, w, auditSearch).

(** Nothing is written. *)
Definition result_only (result : EventCollectorResult) : Payload := fun w auditSearch => ret (result, w, auditSearch).

(** A field is read, and [k] goes on with the result and the value. *)
Definition with_value {A} (read : Au -> AuditSearchResultValues * option A * Au)
    (k : AuditSearchResultValues -> option A -> Payload) : Payload := fun w auditSearch =>
  let* (auditResult, auditValue, auditSearch) := on_audit auditSearch read in
  k auditResult auditValue w auditSearch.

(** A pointer that is dereferenced. *)
Definition on_value {A} (value : option A) (k : A -> Payload) : Payload := fun w auditSearch =>
  value <- deref value ;;
  k value w auditSearch.

(** The end of a function that creates an event: the payload becomes the only
    one of the event, whose text is pushed.  [no_text] is the result when the text
    cannot be made. *)
Definition queue_single_event (no_text : EventCollectorResult) (event eventPayload : JsonObjectWriter) (queue : SyncQueue)
    : M AuditState (EventCollectorResult * SyncQueue) :=
  let* (r, payloads) := up JsonArrayWriter_Init in
  match r, payloads with
  | JSON_WRITER_OK, Some payloads =>
      match JsonArrayWriter_AddObject payloads eventPayload with
      | (JSON_WRITER_OK, payloads, _) =>
          match GenericEvent_AddPayload event payloads with
          | (EVENT_COLLECTOR_OK, event, _) =>
              match JsonObjectWriter_Serialize event with
              | (JSON_WRITER_OK, Some (output, outputSize)) =>
                  let* (qResult, queue, _) := in_queue (SyncQueue_PushBack queue output outputSize) in
                  ret (if decide (qResult = QueueResult QUEUE_MAX_MEMORY_EXCEEDED) then EVENT_COLLECTOR_OUT_OF_MEM
                       else if decide (qResult <> QueueResult QUEUE_OK) then EVENT_COLLECTOR_EXCEPTION
                       else EVENT_COLLECTOR_OK, queue)
              | _ => ret (no_text, queue)
              end
          | (result, _, _) => ret (result, queue)
          end
      | _ => ret (EVENT_COLLECTOR_EXCEPTION, queue)
      end
  | _, _ => ret (EVENT_COLLECTOR_EXCEPTION, queue)
  end.

(** [no_time] is the result for an event without a time. *)
Definition create_single_event (no_time no_text : EventCollectorResult) (name version : string) (payload : Payload)
    (auditSearch : AuditSearch) (queue : SyncQueue) : M AuditState (EventCollectorResult * AuditSearch * SyncQueue) :=
  let* (r, event) := up JsonObjectWriter_Init in
  match r, event with
  | JSON_WRITER_OK, Some event =>
      let* (r, eventTime, auditSearch) := on_audit auditSearch (fun a => (AuditSearch_GetEventTime a, a)) in
      match r, eventTime with
      | AUDIT_SEARCH_OK, Some eventTime =>
          let* (r, event) := up (GenericEvent_AddMetadataWithTimes event EVENT_TRIGGERED_CATEGORY name EVENT_TYPE_SECURITY_VALUE
                                   version eventTime) in
          if decide (r <> EVENT_COLLECTOR_OK) then ret (EVENT_COLLECTOR_EXCEPTION, auditSearch, queue)
          else
            let* (r, eventPayload) := up JsonObjectWriter_Init in
            match r, eventPayload with
            | JSON_WRITER_OK, Some eventPayload =>
                let* (result, eventPayload, auditSearch) := payload eventPayload auditSearch in
                if decide (result <> EVENT_COLLECTOR_OK) then ret (result, auditSearch, queue)
                else
                  let* (result, queue) := queue_single_event no_text event eventPayload queue in
                  ret (result, auditSearch, queue)
            | _, _ => ret (EVENT_COLLECTOR_EXCEPTION, auditSearch, queue)
            end
      | _, _ => ret (no_time, auditSearch, queue)
      end
  | _, _ => ret (EVENT_COLLECTOR_EXCEPTION, auditSearch, queue)
  end.

(** ** All events *)

(** The loop of a collector.  [body] handles the current event with what the
    collector changes, of type [Q]; a [tolerated] result does not stop the loop.
    The result of the last [AuditSearch_GetNext] is returned when the search was
    left at its end or failed. *)
Fixpoint audit_loop {Q} (tolerated : EventCollectorResult -> bool)
    (body : AuditSearch -> Q -> M AuditState (EventCollectorResult * AuditSearch * Q))
    (fuel : nat) (hasNextResult : AuditSearchResultValues) (auditSearch : AuditSearch) (q : Q)
    : M AuditState (EventCollectorResult * AuditSearch * Q) :=
  match hasNextResult with
  | AUDIT_SEARCH_HAS_MORE_DATA =>
      match fuel with
      | O => undefined
      | S fuel =>
          let* (result, auditSearch, q) := body auditSearch q in
          if negb (tolerated result) then ret (result, auditSearch, q)
          else
            let* (hasNextResult, auditSearch) := AuditSearch_GetNext auditSearch in
            audit_loop tolerated body fuel hasNextResult auditSearch q
      end
  | AUDIT_SEARCH_NO_MORE_DATA => ret (EVENT_COLLECTOR_OK, auditSearch, q)
  | _ => ret (EVENT_COLLECTOR_EXCEPTION, auditSearch, q)
  end.

(** The [cleanup:] label of a collector whose search was initialised: the
    checkpoint is written whatever the result was. *)
Definition end_search (result : EventCollectorResult) (auditSearch : AuditSearch) : M AuditState EventCollectorResult :=
  r <- AuditSearch_SetCheckpoint auditSearch ;;
  auditSearch <- AuditSearch_Deinit auditSearch ;;
  ret (if decide (r <> AUDIT_SEARCH_OK) then EVENT_COLLECTOR_EXCEPTION else result).

(** A collector: the search, what it does [before] the loop, the loop, what it
    does [after] it, and the end of the search. *)
Definition collect_events {Q} (tolerated : EventCollectorResult -> bool) (before : Q -> M AuditState Q)
    (body : AuditSearch -> Q -> M AuditState (EventCollectorResult * AuditSearch * Q))
    (after : Q -> M AuditState (EventCollectorResult * Q))
    (fuel : nat) (searchCriteria : AuditSearchCriteria) (messageTypes : list string) (file : string) (q : Q)
    : M AuditState (EventCollectorResult * Q) :=
  let* (r, auditSearch) := AuditSearch_InitMultipleSearchCriteria searchCriteria messageTypes (Some file) in
  if decide (r <> AUDIT_SEARCH_OK) then ret (EVENT_COLLECTOR_EXCEPTION, q)
  else
    let* (hasNextResult, auditSearch) := AuditSearch_GetNext auditSearch in
    q <- before q ;;
    let* (result, auditSearch, q) := audit_loop tolerated body fuel hasNextResult auditSearch q in
    let* (result, q) := if decide (result <> EVENT_COLLECTOR_OK) then ret (result, q) else after q in
    result <- end_search result auditSearch ;;
    ret (result, q).

(** ** Specification: what is written *)

(** A payload is a list of entries: fields, and objects of fields. *)
Inductive Entry : Type :=
  | Plain (f : Field)
  | Nested (key : string) (fs : list Field).

Definition write_entry (x : Entry) (w : JsonObjectWriter) : option JsonObjectWriter :=
  match x with
  | Plain f => write_field f w
  | Nested key fs =>
      o ← new_writer; o ← write_fields fs o;
      d ← json_object_set_value (wr_rootValue w) (wr_rootObject w) key (wr_rootValue o); Some (set_document d w)
  end.

Fixpoint write_entries (l : list Entry) (w : JsonObjectWriter) : option JsonObjectWriter :=
  match l with
  | [] => Some w
  | x :: l => w ← write_entry x w; write_entries l w
  end.

(** What a function that writes a payload means to write, how it ends, and the
    statics after it. *)
Definition Plan : Type := X -> list Entry * EventCollectorResult * X.

Definition plan_then (p q : Plan) : Plan := fun x =>
  let '(l, r, x) := p x in
  match r with
  | EVENT_COLLECTOR_OK => let '(l', r', x) := q x in (l ++ l', r', x)
  | _ => (l, r, x)
  end.

(** A field of the event under a key. *)
Definition plan_value {A} (get : AuditField -> option A) (field : A -> FieldValue) (e : AuditEvent) (auditField jsonKey : string)
    (isOptional : bool) : Plan := fun x =>
  match read_field get e auditField with
  | (AUDIT_SEARCH_OK, Some v) => ([Plain (jsonKey, field v)], EVENT_COLLECTOR_OK, x)
  | (AUDIT_SEARCH_FIELD_DOES_NOT_EXIST, _) =>
      ([], if isOptional then EVENT_COLLECTOR_OK else EVENT_COLLECTOR_RECORD_HAS_ERRORS, x)
  | _ => ([], EVENT_COLLECTOR_RECORD_HAS_ERRORS, x)
  end.

(** The text of an event with one payload. *)
Definition single_text (event eventPayload : JsonObjectWriter) : option string :=
  payloads ← new_array; payloads ← append_object payloads eventPayload;
  match GenericEvent_AddPayload event payloads with
  | (EVENT_COLLECTOR_OK, event, _) => json_serialize_to_string (wr_rootValue event)
  | _ => None
  end.

(** The text of the event with these entries as its payload, when it is created
    in the world [w] and every call of the JSON library succeeds. *)
Definition event_text_at (w : World) (name version : string) (sec : Z) (l : list Entry) : option string :=
  event ← new_writer;
  match GenericEvent_AddMetadataWithTimes event EVENT_TRIGGERED_CATEGORY name EVENT_TYPE_SECURITY_VALUE version (u32 sec) w with
  | Some ((EVENT_COLLECTOR_OK, event), _) =>
      eventPayload ← new_writer; eventPayload ← write_entries l eventPayload; single_text event eventPayload
  | _ => None
  end.

(** How the event [e] ends, in the environment [v]: its time is not readable; its
    payload is rejected; its text is queued, or refused by the memory monitor; or
    the JSON library fails, with a result in [bad]. *)
Inductive event_outcome (no_time no_text : EventCollectorResult) (bad : EventCollectorResult -> Prop) (name version : string) (v : Env)
    (plan : AuditEvent -> Plan) (e : AuditEvent) (x : X) : EventCollectorResult -> list (nat * (string * Z)) -> X -> Prop :=
  | outcome_no_time : ev_time e = None -> event_outcome no_time no_text bad name version v plan e x no_time [] x
  | outcome_rejected l r x' :
      ev_time e <> None -> plan e x = (l, r, x') -> r <> EVENT_COLLECTOR_OK ->
      event_outcome no_time no_text bad name version v plan e x r [] x'
  | outcome_queued l x' sec milli w text b :
      ev_time e = Some (sec, milli) -> plan e x = (l, EVENT_COLLECTOR_OK, x') -> env w = v ->
      event_text_at w name version sec l = Some text ->
      event_outcome no_time no_text bad name version v plan e x EVENT_COLLECTOR_OK [(b, (text, u32 (strlen text)))] x'
  | outcome_refused l x' sec milli w text :
      ev_time e = Some (sec, milli) -> plan e x = (l, EVENT_COLLECTOR_OK, x') -> env w = v ->
      event_text_at w name version sec l = Some text ->
      event_outcome no_time no_text bad name version v plan e x EVENT_COLLECTOR_OUT_OF_MEM [] x'
  | outcome_unwritable w r x' :
      env w = v -> event_text_at w name version (default 0 (fst <$> ev_time e)) (plan e x).1.1 = None ->
      bad r \/ r = no_text \/ r = EVENT_COLLECTOR_EXCEPTION ->
      event_outcome no_time no_text bad name version v plan e x r [] x'.

(** A collection of the events [todo]: [one] handles an event with what it
    queues; it ends with the result [r] at the end of the log, when the search
    fails ([broken] on what is to come), or with a result that is not tolerated, with the events [left] not
    looked at. *)
Inductive collects {Y} (one : AuditEvent -> Y -> EventCollectorResult -> list (nat * (string * Z)) -> Y -> Prop)
    (tolerated : EventCollectorResult -> bool) (broken : list AuditEvent -> Prop) :
    list AuditEvent -> Y -> list (nat * (string * Z)) -> EventCollectorResult -> Y -> list AuditEvent -> Prop :=
  | collects_end y : collects one tolerated broken [] y [] EVENT_COLLECTOR_OK y []
  | collects_broken todo y : broken todo -> collects one tolerated broken todo y [] EVENT_COLLECTOR_EXCEPTION y todo
  | collects_stop e todo y r new y' :
      one e y r new y' -> tolerated r = false -> collects one tolerated broken (e :: todo) y new r y' todo
  | collects_step e todo y r new y1 new' r' y' left :
      one e y r new y1 -> tolerated r = true -> collects one tolerated broken todo y1 new' r' y' left ->
      collects one tolerated broken (e :: todo) y (new ++ new') r' y' left.

Context {Laws : MemoryMonitorLaws Mon} {ApLaws : AuparseLaws}.

(** A function writes the payload of the event [e] as planned; when the JSON
    library fails, its result is in [bad].  In any case the statics change as [R]
    allows. *)
Definition implements (bad : EventCollectorResult -> Prop) (R : relation X) (m : Payload) (e : AuditEvent) (plan : Plan) : Prop :=
  forall q todo w auditSearch s, reliable (world_of s) -> visiting q e todo auditSearch ->
  exists r w' auditSearch' n x', m w auditSearch s = Some ((r, w', auditSearch'), set_statics x' (elapse n s)) /\
    visiting q e todo auditSearch' /\ same_search auditSearch auditSearch' /\ R (au_statics s) x' /\
    match write_entries (plan (au_statics s)).1.1 w with
    | Some w1 => (plan (au_statics s)).1.2 = r /\ (plan (au_statics s)).2 = x' /\ w' = w1
    | None => bad r
    end.

(** ** Lemmas: payloads *)

Lemma write_entries_app l l' w : write_entries (l ++ l') w = (w ← write_entries l w; write_entries l' w).
Proof. revert w. induction l as [|x l IH]; intros w; [done|]. cbn. destruct (write_entry x w) as [w1|]; [apply IH | done]. Qed.

Lemma set_statics_elapse x n (s : AuditState) : elapse n (set_statics x s) = set_statics x (elapse n s).
Proof. done. Qed.

Lemma set_statics_same (s : AuditState) : set_statics (au_statics s) s = s.
Proof. by destruct s. Qed.

Lemma set_statics_twice x y (s : AuditState) : set_statics x (set_statics y s) = set_statics x s.
Proof. done. Qed.

Lemma implements_then bad R m k e p q :
  Transitive R -> (forall r, bad r -> r <> EVENT_COLLECTOR_OK) ->
  implements bad R m e p -> implements bad R k e q -> implements bad R (and_then m k) e (plan_then p q).
Proof.
  intros HR Hb Hm Hk qy todo w a s Hr Hv. destruct (Hm qy todo w a s Hr Hv) as (r & w1 & a1 & n & x1 & H1 & Hv1 & Hs1 & HR1 & Hw1).
  unfold and_then, plan_then. rewrite (bind_eq _ _ _ _ _ H1).
  destruct (p (au_statics s)) as [[l pr] px] eqn:Ep. cbn [fst snd] in Hw1.
  destruct (write_entries l w) as [w1'|] eqn:El.
  - destruct Hw1 as (-> & -> & ->). case_decide as Hd.
    + exists r, w1', a1, n, x1. do 4 (split; [done|]).
      destruct r; try done; cbn [fst snd]; by rewrite El.
    + subst r. destruct (Hk qy todo w1' a1 (set_statics x1 (elapse n s))) as (r2 & w2 & a2 & n2 & x2 & H2 & Hv2 & Hs2 & HR2 & Hw2);
        [exact (reliable_bump n _ Hr) | done |].
      rewrite H2. exists r2, w2, a2, (n2 + n)%nat, x2. split; [by rewrite set_statics_elapse, set_statics_twice, elapse_elapse|].
      split; [done|]. split; [by eapply same_search_trans|]. cbn [au_statics set_statics] in Hw2, HR2. split; [by etrans|].
      destruct (q x1) as [[l' qr] qx]. cbn [fst snd] in *. rewrite write_entries_app, El. exact Hw2.
  - rewrite decide_True by (by apply Hb). exists r, w1, a1, n, x1. do 4 (split; [done|]).
    assert (Hn : forall l', write_entries (l ++ l') w = None) by (intros l'; by rewrite write_entries_app, El).
    destruct pr; cbn [fst snd]; try (by rewrite El). destruct (q px) as [[l' qr] qx]. cbn [fst snd]. by rewrite Hn.
Qed.

(** The functions of [generic_audit_event.c]. *)
Lemma handle_value_implements {A} bad R (read : Au -> AuditSearchResultValues * option A * Au) get write field e auditField jsonKey isOptional :
  Reflexive R -> bad EVENT_COLLECTOR_EXCEPTION ->
  (forall a, v_event (view a) = Some e -> exists x a', stays a a' /\ read a = ((read_field get e auditField).1, x, a') /\
    ((read_field get e auditField).1 = AUDIT_SEARCH_OK -> x = (read_field get e auditField).2)) ->
  (forall w v, write w v = match write_field (jsonKey, field v) w with Some w' => (JSON_WRITER_OK, w') | None => (JSON_WRITER_EXCEPTION, w) end) ->
  implements bad R (handle_value read write isOptional) e (plan_value get field e auditField jsonKey isOptional).
Proof.
  intros HR Hb Hread Hwrite q todo w a s Hr Hv. unfold handle_value, plan_value.
  pose proof Hv as (au & Ha & Hq & He & Hf & Hl). destruct (Hread au He) as (x & au' & Hst & Hrun & Hx).
  destruct (on_audit_run q e todo a read ((read_field get e auditField).1, x) s Hv) as (a' & Hon & Hv' & Hs').
  { intros a0 Ha0 _. assert (a0 = au) as -> by congruence. by exists au'. }
  rewrite (bind_eq _ _ _ _ _ Hon). assert (Hs : s = set_statics (au_statics s) (elapse 0 s)) by (by rewrite elapse_0, set_statics_same).
  assert (Hstop : forall r : EventCollectorResult, exists r0 w' auditSearch' n x',
    ret (r, w, a') s = Some ((r0, w', auditSearch'), set_statics x' (elapse n s)) /\
      visiting q e todo auditSearch' /\ same_search a auditSearch' /\ R (au_statics s) x' /\ (r = r0 /\ au_statics s = x' /\ w' = w)).
  { intros r. exists r, w, a', 0%nat, (au_statics s). by rewrite <- Hs. }
  destruct (read_field get e auditField) as [[] v] eqn:Er; cbn [fst snd] in *; try (by apply Hstop).
  rewrite (Hx eq_refl). destruct v as [v|].
  - cbn [deref]. rewrite bind_ret_l, Hwrite. cbn [fst snd write_entries write_entry].
    destruct (write_field (jsonKey, field v) w) as [w1|].
    + exists EVENT_COLLECTOR_OK, w1, a', 0%nat, (au_statics s). by rewrite <- Hs.
    + exists EVENT_COLLECTOR_EXCEPTION, w, a', 0%nat, (au_statics s). by rewrite <- Hs.
  - exfalso. unfold read_field in Er. destruct (ev_records e); [done|].
    destruct (lookup_field e auditField) as [f|]; [|done]. by destruct (get f).
Qed.

Lemma write_string_field w key v :
  JsonObjectWriter_WriteString w key v =
  match write_field (key, FString v) w with Some w' => (JSON_WRITER_OK, w') | None => (JSON_WRITER_EXCEPTION, w) end.
Proof.
  unfold JsonObjectWriter_WriteString, write_result. cbn [write_field]. unfold write_string.
  by destruct (json_object_set_string (wr_rootValue w) (wr_rootObject w) key v).
Qed.

Lemma write_int_field w key v :
  JsonObjectWriter_WriteInt w key v =
  match write_field (key, FInt v) w with Some w' => (JSON_WRITER_OK, w') | None => (JSON_WRITER_EXCEPTION, w) end.
Proof.
  unfold JsonObjectWriter_WriteInt, write_result. cbn [write_field].
  by destruct (json_object_set_number (wr_rootValue w) (wr_rootObject w) key _).
Qed.

Lemma HandleInt_implements bad R e auditField jsonKey isOptional :
  Reflexive R -> bad EVENT_COLLECTOR_EXCEPTION ->
  implements bad R (GenericAuditEvent_HandleIntValue auditField jsonKey isOptional) e
    (plan_value f_int FInt e auditField jsonKey isOptional).
Proof.
  intros HR Hb. apply handle_value_implements; [done | done | | intros; apply write_int_field].
  intros a He. by apply (from_first_record_run _ _ _ _ _ (ReadInt_reads auditField)).
Qed.

Lemma HandleString_implements bad R e auditField jsonKey isOptional :
  Reflexive R -> bad EVENT_COLLECTOR_EXCEPTION ->
  implements bad R (GenericAuditEvent_HandleStringValue auditField jsonKey isOptional) e
    (plan_value f_str FString e auditField jsonKey isOptional).
Proof.
  intros HR Hb. apply handle_value_implements; [done | done | | intros; apply write_string_field].
  intros a He. by apply (from_first_record_run _ _ _ _ _ (ReadString_reads auditField)).
Qed.

Lemma HandleInterpret_implements bad R e auditField jsonKey isOptional :
  Reflexive R -> bad EVENT_COLLECTOR_EXCEPTION ->
  implements bad R (GenericAuditEvent_HandleInterpretStringValue auditField jsonKey isOptional) e
    (plan_value f_interpreted FString e auditField jsonKey isOptional).
Proof.
  intros HR Hb. apply handle_value_implements; [done | done | | intros; apply write_string_field].
  intros a He. by apply (from_first_record_run _ _ _ _ _ (InterpretString_reads auditField)).
Qed.

(** ** Lemmas: one event *)

(** Reading the time of the current event. *)
Lemma GetEventTime_run q e todo a (s : AuditState) :
  visiting q e todo a ->
  exists a', on_audit a (fun a => (AuditSearch_GetEventTime a, a)) s =
      Some (match ev_time e with Some (sec, _) => (AUDIT_SEARCH_OK, Some (u32 sec)) | None => (AUDIT_SEARCH_EXCEPTION, None) end, a', s) /\
    visiting q e todo a' /\ same_search a a'.
Proof.
  intros Hv. eapply on_audit_run in Hv as (a' & H & Hv' & Hs'); [by exists a'|].
  intros a0 _ He. exists a0. split; [|done]. unfold AuditSearch_GetEventTime. rewrite (timestamp_read_law a0 e He).
  by destruct (ev_time e) as [[sec milli]|].
Qed.

(** What one event changes: the queue, the statics, and the time. *)
Definition event_step (queue queue' : SyncQueue) (items new : list (nat * (string * Z))) (x' : X) (s s' : AuditState) : Prop :=
  sync_holds queue' (au_store s') (items ++ new) /\ only_monitor (world_of s) (world_of s') /\
  consumption (world_of s') = charge_all (consumption (world_of s)) new /\ au_host s' = au_host s /\
  ag_items (au_ag s') = ag_items (au_ag s) /\ ag_next (au_ag s') = ag_next (au_ag s) /\ au_statics s' = x'.

Lemma event_step_time queue items x n (s : AuditState) :
  sync_holds queue (au_store s) items -> event_step queue queue items [] x s (set_statics x (elapse n s)).
Proof.
  intros Hq. split; [rewrite app_nil_r; by apply (sync_holds_elapse queue (au_store s) items n)|].
  split; [apply only_monitor_bump | done].
Qed.

Lemma push_text_run queue (s : AuditState) items text :
  sync_holds queue (au_store s) items -> Z.of_nat (List.length items) < UINT32_MAX ->
  exists ok queue' s' b, in_queue (SyncQueue_PushBack queue text (u32 (strlen text))) s =
      Some ((QueueResult (if ok : bool then QUEUE_OK else QUEUE_MAX_MEMORY_EXCEEDED), queue', tt), s') /\
    event_step queue queue' items (if ok then [(b, (text, u32 (strlen text)))] else []) (au_statics s) s s'.
Proof.
  intros Hq Hl. destruct (SyncPushBack_run queue (au_store s) items text (u32 (strlen text)) Hq Hl) as (ok & q2 & st & b & Hp & _ & Hq2 & Ho & Hn).
  exists ok, q2. eexists _, b. unfold in_queue, in_aggregator, in_store. fold (au_store s). rewrite Hp. split; [reflexivity|].
  split; [exact Hq2 | by split].
Qed.

Lemma event_step_after queue queue' items new x n (s s' : AuditState) :
  event_step queue queue' items new x (set_statics x (elapse n s)) s' -> event_step queue queue' items new x s s'.
Proof.
  intros (H1 & H2 & H3). split; [done|]. split; [|done]. eapply only_monitor_trans; [apply only_monitor_bump | exact H2].
Qed.

(** The JSON library gives no text. *)
Lemma no_metadata w name version sec l :
  new_writer = None \/ (exists o r o' w', new_writer = Some o /\ r <> EVENT_COLLECTOR_OK /\
    GenericEvent_AddMetadataWithTimes o EVENT_TRIGGERED_CATEGORY name EVENT_TYPE_SECURITY_VALUE version (u32 sec) w = Some ((r, o'), w')) ->
  event_text_at w name version sec l = None.
Proof. unfold event_text_at. intros [->|(o & r & o' & w' & -> & Hr & H)]; cbn [mbind option_bind]; [done|]. rewrite H. by destruct r. Qed.

Lemma AddPayload_result event payloads r event' payloads' :
  GenericEvent_AddPayload event payloads = (r, event', payloads') -> r = EVENT_COLLECTOR_OK \/ r = EVENT_COLLECTOR_EXCEPTION.
Proof.
  unfold GenericEvent_AddPayload. destruct (JsonArrayWriter_GetSize _) as [r1 cnt]. case_decide; [intros [= <- _ _]; by right|].
  destruct (JsonObjectWriter_WriteBool _ _ _) as [[] e1]; [|intros [= <- _ _]; by right ..].
  destruct (JsonObjectWriter_WriteArray _ _ _) as [[[] e2] a3]; intros [= <- _ _]; auto.
Qed.

Lemma queue_single_event_run no_text event eventPayload queue (s : AuditState) items :
  sync_holds queue (au_store s) items -> Z.of_nat (List.length items) < UINT32_MAX ->
  exists r queue' s' new, queue_single_event no_text event eventPayload queue s = Some ((r, queue'), s') /\
    event_step queue queue' items new (au_statics s) s s' /\
    match single_text event eventPayload with
    | Some text => (r = EVENT_COLLECTOR_OUT_OF_MEM /\ new = []) \/ r = EVENT_COLLECTOR_OK /\ exists b, new = [(b, (text, u32 (strlen text)))]
    | None => (r = no_text \/ r = EVENT_COLLECTOR_EXCEPTION) /\ new = []
    end.
Proof.
  intros Hq Hl. assert (Hr : reliable (world_of s)) by exact (sync_holds_reliable _ _ _ Hq).
  assert (Hs : elapse 1 s = set_statics (au_statics s) (elapse 1 s)) by (by destruct s).
  pose proof (event_step_time queue items (au_statics s) 1 s Hq) as Hstep. rewrite <- Hs in Hstep.
  unfold queue_single_event, single_text, append_object, JsonArrayWriter_AddObject, JsonObjectWriter_Serialize.
  rewrite (bind_eq _ _ _ _ _ (up_bump _ _ 1 s (ArrayInit_new _ Hr))).
  destruct new_array as [arr|]; cbn [mbind option_bind]; [|by eexists _, queue, _, []; eauto].
  destruct (json_array_append_value _ _ _) as [d|]; cbn [mbind option_bind]; [|by eexists _, queue, _, []; eauto].
  destruct (GenericEvent_AddPayload event _) as [[r ev2] arr2] eqn:Ea.
  destruct (AddPayload_result _ _ _ _ _ Ea) as [-> | ->]; [|by eexists _, queue, _, []; eauto].
  destruct (json_serialize_to_string (wr_rootValue ev2)) as [text|]; [|by eexists _, queue, _, []; eauto].
  destruct (push_text_run queue (elapse 1 s) items text) as (ok & q' & s' & b & Hp & Hpush); [apply Hstep || by apply (sync_holds_elapse queue (au_store s) items 1) | done |].
  rewrite (bind_eq _ _ _ _ _ Hp). rewrite Hs in Hpush. apply event_step_after in Hpush.
  destruct ok; eexists _, q', s', _; (split; [reflexivity|]); (split; [exact Hpush|]); [right; split; [done|]; by exists b | by left].
Qed.

Lemma create_single_event_run no_time no_text bad R name version payload plan q e todo a queue (s : AuditState) items :
  Reflexive R -> (forall r, bad r -> r <> EVENT_COLLECTOR_OK) -> implements bad R payload e (plan e) -> visiting q e todo a ->
  sync_holds queue (au_store s) items -> times_fit (env (world_of s)) -> Z.of_nat (List.length items) < UINT32_MAX ->
  exists r a' queue' s' new x', create_single_event no_time no_text name version payload a queue s = Some ((r, a', queue'), s') /\
    visiting q e todo a' /\ same_search a a' /\ event_step queue queue' items new x' s s' /\ R (au_statics s) x' /\
    event_outcome no_time no_text bad name version (env (world_of s)) plan e (au_statics s) r new x'.
Proof.
  intros HR Hbad Himp Hv Hq Hf Hl. assert (Hr : reliable (world_of s)) by exact (sync_holds_reliable _ _ _ Hq).
  unfold create_single_event. set (x0 := au_statics s). set (ew := bump 1 (world_of s)).
  assert (Hstop : forall r a' n x', visiting q e todo a' -> same_search a a' -> R x0 x' ->
    event_outcome no_time no_text bad name version (env (world_of s)) plan e x0 r [] x' ->
    exists r0 a'0 queue' s' new x'0, ret (r, a', queue) (set_statics x' (elapse n s)) = Some ((r0, a'0, queue'), s') /\
      visiting q e todo a'0 /\ same_search a a'0 /\ event_step queue queue' items new x'0 s s' /\ R x0 x'0 /\
      event_outcome no_time no_text bad name version (env (world_of s)) plan e x0 r0 new x'0).
  { intros r a' n x' H1 H2 HRx H3. exists r, a', queue. eexists _, [], x'. split; [reflexivity|]. do 2 (split; [done|]).
    split; [by apply event_step_time | by split]. }
  assert (Hsame : forall n, elapse n s = set_statics x0 (elapse n s)) by (intros n; by destruct s).
  assert (Hwriter : forall n, up JsonObjectWriter_Init (elapse n s) =
    Some (match new_writer with Some o => (JSON_WRITER_OK, Some o) | None => (JSON_WRITER_EXCEPTION, None) end, elapse (1 + n) s)).
  { intros n. rewrite <- elapse_elapse. apply up_bump, WriterInit_new. rewrite world_of_elapse. by apply reliable_bump. }
  assert (Hexc : forall a' n x', visiting q e todo a' -> same_search a a' -> R x0 x' ->
    event_text_at ew name version (default 0 (fst <$> ev_time e)) (plan e x0).1.1 = None ->
    exists r0 a'0 queue' s' new x'0, ret (EVENT_COLLECTOR_EXCEPTION, a', queue) (set_statics x' (elapse n s)) = Some ((r0, a'0, queue'), s') /\
      visiting q e todo a'0 /\ same_search a a'0 /\ event_step queue queue' items new x'0 s s' /\ R x0 x'0 /\
      event_outcome no_time no_text bad name version (env (world_of s)) plan e x0 r0 new x'0).
  { intros a' n x' H1 H2 HRx H3. apply Hstop; [done | done | done |]. apply (outcome_unwritable _ _ _ _ _ _ _ _ _ ew); [done | done | by right; right]. }
  pose proof (Hwriter 0%nat) as H1. rewrite elapse_0 in H1. rewrite (bind_eq _ _ _ _ _ H1).
  destruct new_writer as [ev0|] eqn:Enew; [|rewrite Hsame; apply Hexc; [done | done | done | apply no_metadata; by left]].
  destruct (GetEventTime_run q e todo a (elapse 1 s) Hv) as (a1 & H2 & Hv1 & Hs1). rewrite (bind_eq _ _ _ _ _ H2).
  destruct (ev_time e) as [[sec milli]|] eqn:Et; [|rewrite Hsame; apply Hstop; [done | done | done | by apply outcome_no_time]].
  destruct (AddMetadataWithTimes_run ew ev0 EVENT_TRIGGERED_CATEGORY name EVENT_TYPE_SECURITY_VALUE version (u32 sec) Hf)
    as (rm & ev1 & n & Hm).
  assert (H3 : up (GenericEvent_AddMetadataWithTimes ev0 EVENT_TRIGGERED_CATEGORY name EVENT_TYPE_SECURITY_VALUE version (u32 sec))
    (elapse 1 s) = Some ((rm, ev1), elapse (n + 1) s)).
  { rewrite <- elapse_elapse. apply up_bump. by rewrite world_of_elapse. }
  rewrite (bind_eq _ _ _ _ _ H3). case_decide as Hd.
  { rewrite Hsame. apply Hexc; [done | done | done |]. apply no_metadata. right. by exists ev0, rm, ev1, (bump n ew). }
  subst rm. rewrite (bind_eq _ _ _ _ _ (Hwriter (n + 1)%nat)).
  set (s2 := elapse (1 + (n + 1)) s).
  destruct (Himp q todo ev0 a1 s2) as (r & p1 & a2 & m & x1 & H4 & Hv2 & Hs2 & HR4 & Hw);
    [unfold s2; rewrite world_of_elapse; by apply reliable_bump | done |].
  rewrite (bind_eq _ _ _ _ _ H4). change (au_statics s2) with x0 in Hw, HR4. unfold s2. rewrite elapse_elapse.
  assert (Hs12 : same_search a a2) by (by eapply same_search_trans).
  assert (Htext : event_text_at ew name version sec (plan e x0).1.1 =
    (eventPayload ← write_entries (plan e x0).1.1 ev0; single_text ev1 eventPayload)).
  { unfold event_text_at. rewrite Enew. cbn [mbind option_bind]. by rewrite Hm. }
  destruct (write_entries (plan e x0).1.1 ev0) as [p1'|] eqn:Ew; cbn [mbind option_bind] in Htext.
  2:{ rewrite decide_True by (by apply Hbad). apply Hstop; [done | done | done |].
      apply (outcome_unwritable _ _ _ _ _ _ _ _ _ ew); [done | rewrite Et; exact Htext | by left]. }
  destruct Hw as (<- & <- & ->). destruct (plan e x0) as [[l r] x1] eqn:Ep. cbn [fst snd] in *. case_decide as Hd.
  { apply Hstop; [done | done | done |]. by apply (outcome_rejected _ _ _ _ _ _ _ _ _ l); [rewrite Et|..]. }
  subst r. set (k := (m + (1 + (n + 1)))%nat).
  destruct (queue_single_event_run no_text ev1 p1' queue (set_statics x1 (elapse k s)) items) as (r & q' & s' & new & Hrun & Hstep & Hr');
    [by apply (sync_holds_elapse queue (au_store s) items k) | done |].
  rewrite (bind_eq _ _ _ _ _ Hrun). apply event_step_after in Hstep. exists r, a2, q', s', new, x1.
  split; [reflexivity|]. do 2 (split; [done|]). split; [exact Hstep|]. split; [done|]. rewrite <- Htext in Hr'.
  destruct (event_text_at ew name version sec l) as [text|] eqn:Etext.
  - destruct Hr' as [[-> ->]|[-> [b ->]]]; [by apply (outcome_refused _ _ _ _ _ _ _ _ _ l x1 sec milli ew text)
      | by apply (outcome_queued _ _ _ _ _ _ _ _ _ l x1 sec milli ew)].
  - destruct Hr' as [Hr' ->]. apply (outcome_unwritable _ _ _ _ _ _ _ _ _ ew); [done | by rewrite Et, Ep | by right].
Qed.

(** ** Lemmas: all events *)

(** What [AuditSearch_GetNext] found among [todo]. *)
Definition found (q : Query) (todo : list AuditEvent) (r : AuditSearchResultValues) (auditSearch : AuditSearch) : Prop :=
  match r with
  | AUDIT_SEARCH_HAS_MORE_DATA => exists e todo', todo = e :: todo' /\ visiting q e todo' auditSearch
  | AUDIT_SEARCH_NO_MORE_DATA => todo = []
  | AUDIT_SEARCH_EXCEPTION => search_breaks q todo
  | _ => False
  end.

(** A loop whose body handles an event with [one] and keeps the invariant [I] of
    the events still to come, what was queued, and the state. *)
Lemma audit_loop_run {Q Y} tolerated body (one : AuditEvent -> Y -> EventCollectorResult -> list (nat * (string * Z)) -> Y -> Prop)
    (I : list AuditEvent -> Y -> list (nat * (string * Z)) -> Q -> AuditState -> Prop) query :
  (forall e todo a q y new s, visiting query e todo a -> I (e :: todo) y new q s ->
     exists r a' q' s' add y', body a q s = Some ((r, a', q'), s') /\ visiting query e todo a' /\ same_search a a' /\
       one e y r add y' /\ I todo y' (new ++ add) q' s') ->
  forall fuel todo hasNextResult a q y new s,
    found query todo hasNextResult a -> (List.length todo <= fuel)%nat -> I todo y new q s ->
    exists r a' q' s' add y' left, audit_loop tolerated body fuel hasNextResult a q s = Some ((r, a', q'), s') /\
      same_search a a' /\ collects one tolerated (search_breaks query) todo y add r y' left /\ I left y' (new ++ add) q' s'.
Proof.
  intros Hbody. induction fuel as [|fuel IH]; intros todo r a q y new s Hfound Hl HI.
  all: destruct r; cbn [found] in Hfound; try done; cbn [audit_loop].
  all: try (eexists _, a, q, s, [], y, todo; rewrite app_nil_r; split; [reflexivity|]; split; [done|]; split; [|done];
            first [subst todo; apply collects_end | by apply collects_broken]; fail).
  all: destruct Hfound as (e & todo' & -> & Hv); cbn [List.length] in Hl; try lia.
  destruct (Hbody e todo' a q y new s Hv HI) as (r & a1 & q1 & s1 & add & y1 & H1 & Hv1 & Hs1 & Hone & HI1).
  rewrite (bind_eq _ _ _ _ _ H1). destruct (tolerated r) eqn:Et; cbn [negb].
  - destruct (GetNext_run query todo' a1 s1) as (rn & a2 & H2 & Hs2 & _ & Hnext); [by right; exists e|].
    rewrite (bind_eq _ _ _ _ _ H2).
    destruct (IH todo' rn a2 q1 y1 (new ++ add) s1 Hnext) as (r2 & a3 & q3 & s3 & add3 & y3 & left & H3 & Hs3 & Hc & HI3); [lia | done |].
    exists r2, a3, q3, s3, (add ++ add3), y3, left. rewrite app_assoc. split; [exact H3|].
    split; [by repeat (eapply same_search_trans; [done|])|]. split; [by eapply collects_step | done].
  - exists r, a1, q1, s1, add, y1, todo'. do 2 (split; [done|]). split; [by apply collects_stop | done].
Qed.

Lemma end_search_run result a (s : AuditState) h file :
  reliable (world_of s) -> gives_back h (processInfo a) -> host_euid (au_host s) = 0 -> checkpointFile a = Some file ->
  exists r n files, end_search result a s = Some (r, with_host (set_euid (host_euid h) (set_files files (au_host s))) (elapse n s)) /\
    (forall name, name <> file -> files name = host_files (au_host s) name) /\
    (r = result /\ files = update_file file (bytes_of_time (searchTime a)) (host_files (au_host s)) \/
     r = EVENT_COLLECTOR_EXCEPTION /\ write_refused (au_host s) file (bytes_of_time (searchTime a)) = true).
Proof.
  intros Hr Hb He Hf. unfold end_search.
  destruct (SetCheckpoint_run a file s Hf) as (rc & files & H1 & Hother & Hok & Hrc). rewrite (bind_eq _ _ _ _ _ H1).
  destruct (search_Deinit_run a (with_host (set_files files (host_of s)) s) h) as (n & a' & H2 & _ & _); [done | done | done |].
  rewrite (bind_eq _ _ _ _ _ H2). eexists _, n, files. split; [reflexivity|]. split; [exact Hother|].
  change (host_of s) with (au_host s) in Hrc. destruct (write_refused (au_host s) file _); subst rc; [by right | left].
  split; [done | by apply Hok].
Qed.

(** How a collection ends; [fin] knows what was queued before it.  The user is the one of before, and no other file is
    written.  When the search is [refused] nothing else happens.
    Otherwise events were collected, what comes after the loop was done if that
    succeeded, and the checkpoint was moved to a time of the clock, or could not
    be written and the result is [EVENT_COLLECTOR_EXCEPTION]. *)
Definition collection {Y} (one : AuditEvent -> Y -> EventCollectorResult -> list (nat * (string * Z)) -> Y -> Prop)
    (tolerated : EventCollectorResult -> bool)
    (fin : list (nat * (string * Z)) -> Y -> EventCollectorResult -> list (nat * (string * Z)) -> Y -> Prop) (q : Query) (refused : bool)
    (file : string) (s s' : AuditState) (y : Y)
    (r : EventCollectorResult) (new : list (nat * (string * Z))) (y' : Y) : Prop :=
  host_euid (au_host s') = host_euid (au_host s) /\
  (forall name, name <> file -> host_files (au_host s') name = host_files (au_host s) name) /\
  (refused = true /\ r = EVENT_COLLECTOR_EXCEPTION /\ new = [] /\ y' = y /\ host_files (au_host s') file = host_files (au_host s) file \/
   exists r0 new0 y0 left r1 k, collects one tolerated (search_breaks q) (sought q (log_events (host_log (au_host s)))) y new0 r0 y0 left /\
     (r0 <> EVENT_COLLECTOR_OK /\ r1 = r0 /\ new = new0 /\ y' = y0 \/
      r0 = EVENT_COLLECTOR_OK /\ left = [] /\ exists add, fin new0 y0 r1 add y' /\ new = new0 ++ add) /\
     let time := bytes_of_time (env_time (env (world_of s)) k) in
     (r = r1 /\ host_files (au_host s') file = Opened (Some time) \/
      r = EVENT_COLLECTOR_EXCEPTION /\ write_refused (au_host s) file time = true)).

Lemma collects_ok_all {Y} (one : AuditEvent -> Y -> EventCollectorResult -> list (nat * (string * Z)) -> Y -> Prop) tolerated broken todo y new y' left :
  tolerated EVENT_COLLECTOR_OK = true -> collects one tolerated broken todo y new EVENT_COLLECTOR_OK y' left -> left = [].
Proof.
  intros Ht H. remember EVENT_COLLECTOR_OK as r eqn:Er. induction H; try done; [congruence | auto].
Qed.

Lemma collect_events_run {Q Y} tolerated before body after (one : AuditEvent -> Y -> EventCollectorResult -> list (nat * (string * Z)) -> Y -> Prop)
    fin (I : list AuditEvent -> Y -> list (nat * (string * Z)) -> Q -> AuditState -> Prop)
    (J : Y -> list (nat * (string * Z)) -> Q -> AuditState -> Prop) fuel criteria t ts file q y (s : AuditState) :
  let query := search_query (au_host s) criteria t ts (Some file) in
  let refused := search_refused (au_host s) criteria (t :: ts) (Some file) in
  let todo := sought query (log_events (host_log (au_host s))) in
  reliable (world_of s) -> tolerated EVENT_COLLECTOR_OK = true -> (List.length todo <= fuel)%nat ->
  (forall todo y new q s1, I todo y new q s1 -> J y new q s1) ->
  (forall y new q s1, J y new q s1 -> reliable (world_of s1) /\ au_host s1 = as_root (au_host s)) ->
  (forall n, exists q' s', before q (with_host (as_root (au_host s)) (elapse n s)) = Some (q', s') /\ I todo y [] q' s') ->
  (forall e todo a q y new s1, visiting query e todo a -> I (e :: todo) y new q s1 ->
     exists r a' q' s' add y', body a q s1 = Some ((r, a', q'), s') /\ visiting query e todo a' /\ same_search a a' /\
       one e y r add y' /\ I todo y' (new ++ add) q' s') ->
  (forall y new q s1, I [] y new q s1 -> exists r q' s' add y', after q s1 = Some ((r, q'), s') /\ fin new y r add y' /\ J y' (new ++ add) q' s') ->
  exists r q' s' new y', collect_events tolerated before body after fuel criteria (t :: ts) file q s = Some ((r, q'), s') /\
    collection one tolerated fin query refused file s s' y r new y' /\
    (q' = q /\ new = [] /\ y' = y /\ (exists n, s' = elapse n s) \/
     exists s1 h n, J y' new q' s1 /\ s' = with_host h (elapse n s1)).
Proof.
  intros query refused todo Hr Ht Hl HIJ HI Hbefore Hbody Hafter. unfold collect_events.
  destruct (search_Init_run criteria t ts (Some file) s Hr) as (r & a & s1 & H1 & Hinit). rewrite (bind_eq _ _ _ _ _ H1).
  destruct r; try done.
  2:{ destruct Hinit as (_ & Hno & n & ->). rewrite decide_True by done. eexists _, q, _, [], y. split; [reflexivity|].
      split; [|left; eauto]. split; [done|]. split; [done|]. left. done. }
  destruct Hinit as ([n ->] & Hstart & Hfile & [k Htime] & Hback). rewrite decide_False by tauto.
  destruct (GetNext_run query todo a (with_host (as_root (host_of s)) (elapse n s))) as (rn & a1 & H2 & Hs1 & _ & Hnext); [by left|].
  rewrite (bind_eq _ _ _ _ _ H2).
  destruct (Hbefore n) as (q1 & s1 & H3 & HI1). rewrite (bind_eq _ _ _ _ _ H3).
  destruct (audit_loop_run tolerated body one I query Hbody fuel todo rn a1 q1 y [] s1 Hnext Hl HI1)
    as (r0 & a2 & q2 & s2 & new0 & y0 & left & H4 & Hs2 & Hc & HI2). cbn [app] in HI2.
  rewrite (bind_eq _ _ _ _ _ H4).
  assert (Hend : forall r1 q3 s3 new y', J y' new q3 s3 ->
    (r0 <> EVENT_COLLECTOR_OK /\ r1 = r0 /\ new = new0 /\ y' = y0 \/
      r0 = EVENT_COLLECTOR_OK /\ left = [] /\ exists add, fin new0 y0 r1 add y' /\ new = new0 ++ add) ->
    exists r q' s' new y', (result <- end_search r1 a2 ;; ret (result, q3)) s3 = Some ((r, q'), s') /\
      collection one tolerated fin query refused file s s' y r new y' /\
      (q' = q /\ new = [] /\ y' = y /\ (exists n, s' = elapse n s) \/
       exists s1 h n, J y' new q' s1 /\ s' = with_host h (elapse n s1))).
  { intros r1 q3 s3 new y' HI3 Hfin. destruct (HI _ _ _ _ HI3) as [Hr3 Hh3].
    assert (Hs12 : same_search a a2) by (by eapply same_search_trans). destruct Hs12 as (Hf2 & Ht2 & Hp2).
    destruct (end_search_run r1 a2 s3 (au_host s) file) as (r & m & files & H5 & Hother & Hres);
      [done | by rewrite Hp2 | by rewrite Hh3 | by rewrite Hf2|].
    rewrite (bind_eq _ _ _ _ _ H5). exists r, q3. eexists _, new, y'. split; [reflexivity|].
    split; [|right; eexists s3, _, m; split; [exact HI3 | reflexivity]]. split; [done|]. split; [intros name Hn; cbn; rewrite Hother by done; by rewrite Hh3|].
    right. exists r0, new0, y0, left, r1, k. split; [exact Hc|]. split; [exact Hfin|].
    cbv zeta. rewrite <- Htime, <- Ht2. destruct Hres as [[-> ->]|[-> Hno]]; [left | right].
    - split; [done|]. cbn. unfold update_file. by rewrite String.eqb_refl.
    - split; [done|]. rewrite Hh3 in Hno. exact Hno. }
  case_decide as Hd.
  - rewrite bind_ret_l. eapply Hend; [exact (HIJ _ _ _ _ _ HI2) | by left].
  - subst r0. pose proof (collects_ok_all _ _ _ _ _ _ _ _ Ht Hc) as ->.
    destruct (Hafter y0 new0 q2 s2 HI2) as (r1 & q3 & s3 & add & y' & H5 & Hfin & HI3). rewrite (bind_eq _ _ _ _ _ H5).
    eapply Hend; [exact HI3|]. right. split; [done|]. split; [done|]. by exists add.
Qed.

(** ** Lemmas: payloads that read and go on *)

(** What was read is a value, or nothing. *)
Lemma read_field_value {A} (get : AuditField -> option A) e name v :
  read_field get e name = (AUDIT_SEARCH_OK, v) -> exists x, v = Some x.
Proof.
  unfold read_field. destruct (ev_records e); [done|]. destruct (lookup_field e name) as [f|]; [|done].
  destruct (get f) as [x|]; [|done]. intros [= <-]. by exists x.
Qed.

Definition read_of {A} (read : Au -> AuditSearchResultValues * option A * Au) (get : AuditField -> option A) (e : AuditEvent) (name : string) : Prop :=
  forall a, v_event (view a) = Some e -> exists x a', stays a a' /\ read a = ((read_field get e name).1, x, a') /\
    ((read_field get e name).1 = AUDIT_SEARCH_OK -> x = (read_field get e name).2).

Lemma read_of_string e name : read_of (AuditSearch_ReadString name) f_str e name.
Proof. intros a He. by apply (from_first_record_run _ _ _ _ _ (ReadString_reads name)). Qed.

Lemma read_of_interpreted e name : read_of (AuditSearch_InterpretString name) f_interpreted e name.
Proof. intros a He. by apply (from_first_record_run _ _ _ _ _ (InterpretString_reads name)). Qed.

(** [k] has to do as planned for what the event holds: without a value, and with
    the value. *)
Lemma with_value_implements {A} bad R (read : Au -> AuditSearchResultValues * option A * Au) get e name
    (k : AuditSearchResultValues -> option A -> Payload) plan :
  read_of read get e name ->
  (forall r v w, read_field get e name = (r, v) -> r <> AUDIT_SEARCH_OK -> implements bad R (k r w) e plan) ->
  (forall v, read_field get e name = (AUDIT_SEARCH_OK, Some v) -> implements bad R (k AUDIT_SEARCH_OK (Some v)) e plan) ->
  implements bad R (with_value read k) e plan.
Proof.
  intros Hread Hno Hyes q todo w a s Hr Hv. unfold with_value. pose proof Hv as (au & Ha & _ & He & _).
  destruct (Hread au He) as (x & au' & Hst & Hrun & Hx).
  destruct (on_audit_run q e todo a read ((read_field get e name).1, x) s Hv) as (a' & Hon & Hv' & Hs').
  { intros a0 Ha0 _. assert (a0 = au) as -> by congruence. by exists au'. }
  rewrite (bind_eq _ _ _ _ _ Hon).
  assert (Hk : implements bad R (k (read_field get e name).1 x) e plan).
  { destruct (read_field get e name) as [r v] eqn:E. cbn [fst snd] in *. destruct (decide (r = AUDIT_SEARCH_OK)) as [->|Hne]; [|by eapply Hno].
    destruct (read_field_value _ _ _ _ E) as [y ->]. rewrite (Hx eq_refl). by apply Hyes. }
  destruct (Hk q todo w a' s Hr Hv') as (r & w' & a2 & n & x' & H & Hv2 & Hs2 & Hw).
  exists r, w', a2, n, x'. split; [exact H|]. split; [done|]. split; [by eapply same_search_trans | done].
Qed.

Lemma result_only_implements bad R r e : Reflexive R -> implements bad R (result_only r) e (fun x => ([], r, x)).
Proof. intros HR q todo w a s Hr Hv. exists r, w, a, 0%nat, (au_statics s). by rewrite elapse_0, set_statics_same. Qed.

Lemma write_string_implements (bad : EventCollectorResult -> Prop) R failed key value e :
  Reflexive R -> bad failed -> implements bad R (write_string_or failed key value) e (fun x => ([Plain (key, FString value)], EVENT_COLLECTOR_OK, x)).
Proof.
  intros HR Hb q todo w a s Hr Hv. unfold write_string_or. rewrite write_string_field. cbn [fst snd write_entries write_entry].
  destruct (write_field (key, FString value) w) as [w1|]; eexists _, _, a, 0%nat, (au_statics s); by rewrite elapse_0, set_statics_same.
Qed.

Lemma write_int_implements (bad : EventCollectorResult -> Prop) R failed key value e :
  Reflexive R -> bad failed -> implements bad R (write_int_or failed key value) e (fun x => ([Plain (key, FInt value)], EVENT_COLLECTOR_OK, x)).
Proof.
  intros HR Hb q todo w a s Hr Hv. unfold write_int_or. rewrite write_int_field. cbn [fst snd write_entries write_entry].
  destruct (write_field (key, FInt value) w) as [w1|]; eexists _, _, a, 0%nat, (au_statics s); by rewrite elapse_0, set_statics_same.
Qed.

Lemma on_value_implements {A} bad R (v : A) k e plan : implements bad R (k v) e plan -> implements bad R (on_value (Some v) k) e plan.
Proof. intros H. exact H. Qed.

Lemma implements_ext bad R m e p p' : (forall x, p x = p' x) -> implements bad R m e p -> implements bad R m e p'.
Proof. intros H Hm q todo w a s Hr Hv. rewrite <- H. by apply Hm. Qed.

End AuditCollector.
