(* ===== verification/UserLogin.v ===== *)
(** * [collectors/linux/user_login_collector.c]: logins

    An event of the audit log that is a login or an authentication becomes one
    event of the agent. *)

From S2P Require Import Prelude CString TwinDefs World Utils TimeUtils Parson ParsonModel Json TwinCollectors TwinConfiguration MemoryMonitor Telemetry Queue SyncQueue Schema MessageSerializer GenericEvent Collector EventAggregator FileUtils AuditLog AuditCollector.
From Stdlib Require Import String.
Open Scope Z_scope.


Section UserLogin.
Context {P : Parson} {Mon : MemoryMonitor} {Lib : SinglyLinkedList} {Ap : Auparse}.







(** ** Specification *)




Context {Laws : MemoryMonitorLaws Mon} {ApLaws : AuparseLaws}.

(** ** Lemmas *)





(** ** Property *)








End UserLogin.

(** ** Witness *)


