(* ===== verification/AuditControl.v ===== *)
(** * [os_utils/linux/audit/audit_control.c]: adding rules to the audit system

    A collector that needs records of system calls asks the kernel for them when
    it is initialised.  libaudit is not part of the repository: it is a
    parameter, with what its manual says of the functions the code calls. *)

From S2P Require Import Prelude CString TwinDefs World Utils Parson TwinConfiguration MemoryMonitor Queue EventAggregator FileUtils AuditLog AuditCollector.
From Stdlib Require Import String.
Open Scope Z_scope.

(** ** The library *)

(** The part of a rule that one call adds. *)
Inductive RuleItem : Type :=
  | Filter (pair : string)
  | Syscall (name : string).

(** [Kernel] is the audit system behind the netlink socket; [uname_machine] is
    the machine [uname] gives, [None] when it fails. *)
Class Libaudit : Type := {
  Kernel : Type;
  audit_rule_data : Type;
  zero_rule : audit_rule_data;
  audit_open : Kernel -> Z;
  audit_rule_fieldpair_data : audit_rule_data -> string -> Z -> Z * audit_rule_data;
  audit_rule_syscallbyname_data : audit_rule_data -> string -> Z * audit_rule_data;
  audit_add_rule_data : Kernel -> Z -> audit_rule_data -> Z -> Z -> Z * Kernel;
  uname_machine : Kernel -> option string;
}.

(** The standard streams of the process are open, so that a new descriptor is not
    0.  A call that succeeds adds its item to the rule, and the rule to the
    kernel; a rule that is not added changes nothing. *)
Class LibauditLaws (La : Libaudit) : Type := {
  rule_items : audit_rule_data -> list RuleItem;
  kernel_rules : Kernel -> list (list RuleItem);
  zero_rule_law : rule_items zero_rule = [];
  audit_open_law : forall k, audit_open k <> 0;
  fieldpair_law : forall rule pair flags rule', audit_rule_fieldpair_data rule pair flags = (0, rule') ->
    rule_items rule' = rule_items rule ++ [Filter pair];
  syscall_law : forall rule name r rule', audit_rule_syscallbyname_data rule name = (r, rule') -> 0 <= r ->
    rule_items rule' = rule_items rule ++ [Syscall name];
  add_rule_law : forall k fd rule flags action, let '(r, k') := audit_add_rule_data k fd rule flags action in
    kernel_rules k' = if 0 <? r then kernel_rules k ++ [rule_items rule] else kernel_rules k;
}.

(** [linux/audit.h] and [libaudit.h]. *)
Definition AUDIT_FILTER_EXIT : Z := 4.
Definition AUDIT_FILTER_MASK : Z := 7.
Definition AUDIT_ALWAYS : Z := 2.

Definition AUDIT_CONTROL_ON_SUCCESS_FILTER : string := "success=1".
Definition AUDIT_CONTROL_TYPE_EXECVE : string := "execve".
Definition AUDIT_CONTROL_TYPE_EXECVEAT : string := "execveat".
Definition AUDIT_CONTROL_TYPE_CONNECT : string := "connect".
Definition AUDIT_CONTROL_TYPE_ACCEPT : string := "accept".

Inductive AuditControlResultValues : Type := AUDIT_CONTROL_OK | AUDIT_CONTROL_EXCEPTION.

#[export] Instance AuditControlResultValues_eq : EqDecision AuditControlResultValues.
Proof. solve_decision. Defined.

Record AuditControl : Type := mkAuditControl {
  control_audit : Z;
  control_processInfo : ProcessInfo;
  processInfoWasSet : bool;
  cpuArchitectureFilter : option string;
}.

Section AuditControl.
Context {P : Parson} {Mon : MemoryMonitor} {Lib : SinglyLinkedList} {Ap : Auparse} {La : Libaudit} {X : Type}.

(** ** State: the one of a collector, the kernel and the open descriptors *)

Record ControlState : Type := mkControlState {
  cs_audit : AuditState (X := X);
  cs_kernel : Kernel;
  cs_descriptors : list Z;
}.

#[export] Instance control_has_world : HasWorld ControlState.
Proof.
  refine {| world_of s := world_of (cs_audit s); with_world w s := mkControlState (with_world w (cs_audit s)) (cs_kernel s) (cs_descriptors s) |};
    by intros; destruct s as [[[[] ? ?] ? ?] ? ?].
Defined.

#[export] Instance control_has_host : HasHost ControlState.
Proof.
  refine {| host_of s := au_host (cs_audit s);
            with_host h s := mkControlState (with_host h (cs_audit s)) (cs_kernel s) (cs_descriptors s) |};
    by intros; destruct s as [[? ? ?] ? ?].
Defined.

Definition in_audit {A} (m : M (AuditState (X := X)) A) : M ControlState A :=
  fun s => match m (cs_audit s) with
           | None => None
           | Some (a, x) => Some (a, mkControlState x (cs_kernel s) (cs_descriptors s))
           end.

Definition set_kernel (k : Kernel) (s : ControlState) : ControlState := mkControlState (cs_audit s) k (cs_descriptors s).
Definition set_descriptors (l : list Z) (s : ControlState) : ControlState := mkControlState (cs_audit s) (cs_kernel s) l.

(** A descriptor that is not negative is open. *)
Definition open_audit : M ControlState Z := fun s =>
  let fd := audit_open (cs_kernel s) in
  Some (fd, if fd <? 0 then s else set_descriptors (fd :: cs_descriptors s) s).

Fixpoint close_one (fd : Z) (l : list Z) : list Z :=
  match l with
  | [] => []
  | x :: l => if x =? fd then l else x :: close_one fd l
  end.

Definition audit_close (fd : Z) : M ControlState unit := modify (fun s => set_descriptors (close_one fd (cs_descriptors s)) s).

(** ** Operations *)

Definition getCpuArchitectureFilter : M ControlState (bool * option string) :=
  k <- gets cs_kernel ;;
  match uname_machine k with
  | None => ret (false, None)
  | Some machine =>
      let* (r, text) := up (Utils_StringFormat (Some ("arch=" ++ machine)%string)) in
      ret (bool_decide (r = ACTION_OK), text)
  end.

Definition AuditControl_Deinit (auditControl : AuditControl) : M ControlState AuditControl :=
  (if 0 <? control_audit auditControl then audit_close (control_audit auditControl) else ret tt) ;;;
  (if processInfoWasSet auditControl then ok <- ProcessInfoHandler_Reset (control_processInfo auditControl) ;; ret tt else ret tt) ;;;
  ret (mkAuditControl (control_audit auditControl) (control_processInfo auditControl) false None).

Definition AuditControl_Init : M ControlState (AuditControlResultValues * AuditControl) :=
  let failed := fun auditControl =>
    auditControl <- AuditControl_Deinit auditControl ;; ret (AUDIT_CONTROL_EXCEPTION, auditControl) in
  let* (root, info) := ProcessInfoHandler_ChangeToRoot in
  if negb root then failed (mkAuditControl 0 info false None)
  else
    fd <- open_audit ;;
    if fd <? 0 then failed (mkAuditControl fd info true None)
    else
      let* (ok, text) := getCpuArchitectureFilter in
      if negb ok then failed (mkAuditControl fd info true text)
      else ret (AUDIT_CONTROL_OK, mkAuditControl fd info true text).

(** The loop over the system calls; [None] when one cannot be added. *)
Fixpoint add_syscalls (rule : audit_rule_data) (msgTypeArray : list string) : M ControlState (option audit_rule_data) :=
  match msgTypeArray with
  | [] => ret (Some rule)
  | msgType :: msgTypeArray =>
      msgTypeCopy <- up (Utils_CreateStringCopy (Some msgType)) ;;
      match msgTypeCopy with
      | None => ret None
      | Some msgTypeCopy =>
          let '(r, rule) := audit_rule_syscallbyname_data rule msgTypeCopy in
          if r <? 0 then ret None else add_syscalls rule msgTypeArray
      end
  end.

(** The filter on top of the system calls. *)
Definition add_filter (rule : audit_rule_data) (extraFilter : option string) (flags : Z) : M ControlState (option audit_rule_data) :=
  match extraFilter with
  | None => ret (Some rule)
  | Some _ =>
      extraFilterCopy <- up (Utils_CreateStringCopy extraFilter) ;;
      match extraFilterCopy with
      | None => ret None
      | Some extraFilterCopy =>
          let '(r, rule) := audit_rule_fieldpair_data rule extraFilterCopy flags in
          ret (if r =? 0 then Some rule else None)
      end
  end.

(** The allocation of the rule is not checked before [memset]. *)
Definition AuditControl_AddRule (auditControl : AuditControl) (msgTypeArray : list string) (extraFilter : option string)
    : M ControlState AuditControlResultValues :=
  allocated <- up malloc ;;
  if negb allocated then undefined
  else
    filter <- deref (cpuArchitectureFilter auditControl) ;;
    let flags := Z.land AUDIT_FILTER_EXIT AUDIT_FILTER_MASK in
    let '(r, rule) := audit_rule_fieldpair_data zero_rule filter flags in
    if negb (r =? 0) then ret AUDIT_CONTROL_EXCEPTION
    else
      rule <- add_syscalls rule msgTypeArray ;;
      match rule with
      | None => ret AUDIT_CONTROL_EXCEPTION
      | Some rule =>
          rule <- add_filter rule extraFilter flags ;;
          match rule with
          | None => ret AUDIT_CONTROL_EXCEPTION
          | Some rule =>
              k <- gets cs_kernel ;;
              let '(r, k) := audit_add_rule_data k (control_audit auditControl) rule AUDIT_FILTER_EXIT AUDIT_ALWAYS in
              modify (set_kernel k) ;;;
              ret (if r <=? 0 then AUDIT_CONTROL_EXCEPTION else AUDIT_CONTROL_OK)
          end
      end.

(** ** Specification *)

(** The rule the library makes of the system calls, [None] when it refuses one. *)
Fixpoint with_syscalls (rule : audit_rule_data) (types : list string) : option audit_rule_data :=
  match types with
  | [] => Some rule
  | name :: types => let '(r, rule) := audit_rule_syscallbyname_data rule name in if r <? 0 then None else with_syscalls rule types
  end.

Definition with_filter (rule : audit_rule_data) (extra : option string) : option audit_rule_data :=
  match extra with
  | None => Some rule
  | Some text =>
      let '(r, rule) := audit_rule_fieldpair_data rule text (Z.land AUDIT_FILTER_EXIT AUDIT_FILTER_MASK) in
      if r =? 0 then Some rule else None
  end.

(** What libaudit and the kernel say of the rule: they accept every part of it
    and then the rule. *)
Definition rule_accepted (k : Kernel) (fd : Z) (machine : string) (types : list string) (extra : option string) : bool :=
  match rule ← with_filter zero_rule (Some ("arch=" ++ machine)%string); rule ← with_syscalls rule types; with_filter rule extra with
  | None => false
  | Some rule => 0 <? (audit_add_rule_data k fd rule AUDIT_FILTER_EXIT AUDIT_ALWAYS).1
  end.

(** The control of the audit can be opened. *)
Definition control_opens (k : Kernel) : bool := (0 <=? audit_open k) && bool_decide (is_Some (uname_machine k)).

(** The rule a call of [AuditControl_AddRule] means. *)
Definition rule_for (machine : string) (msgTypeArray : list string) (extraFilter : option string) : list RuleItem :=
  Filter ("arch=" ++ machine)%string :: map Syscall msgTypeArray ++ match extraFilter with Some f => [Filter f] | None => [] end.

(** The rule that is asked for, when it is accepted. *)
Definition rules_added (k : Kernel) (machine : string) (types : list string) (extra : option string) : list (list RuleItem) :=
  if rule_accepted k (audit_open k) machine types extra then [rule_for machine types extra] else [].

Context {Laws : LibauditLaws La}.

(** ** Lemmas *)

(** The state while a control is open: root, with its descriptor, some calls later. *)
Definition controlled (h : Host) (fd : Z) (l : list Z) (s s' : ControlState) : Prop :=
  exists n, s' = set_descriptors (fd :: l) (with_host (as_root h) (elapse n s)).

Lemma control_Deinit_run fd info text (s s' : ControlState) :
  reliable (world_of s) -> gives_back (host_of s) info -> controlled (host_of s) fd (cs_descriptors s) s s' -> 0 < fd ->
  exists n c, AuditControl_Deinit (mkAuditControl fd info true text) s' = Some (c, elapse n s).
Proof.
  intros Hr Hb [n ->] Hfd. unfold AuditControl_Deinit. cbn [control_audit processInfoWasSet control_processInfo].
  rewrite (proj2 (Z.ltb_lt _ _)) by done. unfold audit_close, modify. unfold bind at 1. cbn [cs_descriptors set_descriptors close_one].
  rewrite Z.eqb_refl. set (s1 := set_descriptors (cs_descriptors s) _).
  destruct (Reset_run info s1 (host_of s)) as [m H]; [by apply (reliable_bump n) | done | done |].
  rewrite bind_assoc. rewrite (bind_eq _ _ _ _ _ H). exists (m + n)%nat. eexists. unfold bind, ret. do 2 f_equal.
  unfold s1. destruct s as [[ag [] x] k l]. unfold elapse. cbn. by rewrite bump_bump.
Qed.

Lemma control_opens_true k machine : 0 < audit_open k -> uname_machine k = Some machine -> control_opens k = true.
Proof. intros Hfd Hm. unfold control_opens. rewrite Hm, (proj2 (Z.leb_le 0 _)) by lia. by apply bool_decide_eq_true_2. Qed.

(** What a control is after [AuditControl_Init]. *)
Definition control_opened (s : ControlState) (r : AuditControlResultValues) (c : AuditControl) (s' : ControlState) : Prop :=
  match r with
  | AUDIT_CONTROL_OK =>
      exists info machine, let fd := audit_open (cs_kernel s) in
        c = mkAuditControl fd info true (Some ("arch=" ++ machine)%string) /\ 0 < fd /\
        gives_back (host_of s) info /\ uname_machine (cs_kernel s) = Some machine /\
        controlled (host_of s) fd (cs_descriptors s) s s'
  | AUDIT_CONTROL_EXCEPTION => control_opens (cs_kernel s) = false /\ exists n, s' = elapse n s
  end.

Lemma control_Init_run (s : ControlState) : reliable (world_of s) ->
  exists r c s', AuditControl_Init s = Some ((r, c), s') /\ control_opened s r c s'.
Proof.
  intros Hr. unfold AuditControl_Init.
  destruct (ChangeToRoot_run s Hr) as (n & info & H1 & Hb). rewrite (bind_eq _ _ _ _ _ H1). cbn [negb].
  unfold open_audit. unfold bind at 1. change (cs_kernel (with_host _ _)) with (cs_kernel s).
  set (fd := audit_open (cs_kernel s)). pose proof (audit_open_law (cs_kernel s)) as Hfd. fold fd in Hfd.
  destruct (Z.ltb_spec fd 0) as [Hneg|Hpos].
  - unfold AuditControl_Deinit. cbn [control_audit processInfoWasSet control_processInfo].
    rewrite (proj2 (Z.ltb_ge 0 fd)) by lia.
    destruct (Reset_run info (with_host (as_root (host_of s)) (elapse n s)) (host_of s)) as [m H]; [by apply (reliable_bump n) | done | done |].
    exists AUDIT_CONTROL_EXCEPTION. do 2 eexists. split; [unfold bind, ret; rewrite H; reflexivity|].
    split; [unfold control_opens; fold fd; by rewrite (proj2 (Z.leb_gt 0 fd)) by done|].
    exists (m + n)%nat. destruct s as [[ag [] x] k l]. unfold elapse. cbn. by rewrite bump_bump.
  - assert (Hopen : forall k, controlled (host_of s) fd (cs_descriptors s) s
      (elapse k (set_descriptors (fd :: cs_descriptors s) (with_host (as_root (host_of s)) (elapse n s))))).
    { intros k. exists (k + n)%nat. destruct s as [[ag h x] kk l]. unfold elapse. cbn. by rewrite bump_bump. }
    unfold getCpuArchitectureFilter. rewrite bind_assoc. unfold gets at 1. unfold bind at 1. cbn [cs_kernel set_descriptors with_host control_has_host].
    change (cs_kernel (elapse n s)) with (cs_kernel s).
    destruct (uname_machine (cs_kernel s)) as [machine|] eqn:Em.
    + pose proof (reliable_bump n _ Hr) as Hrn. eexists AUDIT_CONTROL_OK, _, _. split.
      * set (s1 := set_descriptors _ _). assert (Hup : up (Utils_StringFormat (Some ("arch=" ++ machine)%string)) s1 =
          Some ((ACTION_OK, Some ("arch=" ++ machine)%string), elapse 1 s1)).
        { apply up_bump. unfold Utils_StringFormat. by rewrite (bind_eq _ _ _ _ _ (malloc_reliable _ Hrn)). }
        rewrite bind_assoc, (bind_eq _ _ _ _ _ Hup). rewrite bind_ret_l. cbn [negb bool_decide]. rewrite bool_decide_true by done. reflexivity.
      * exists info, machine. split; [reflexivity|]. split; [lia|]. split; [done|]. split; [exact Em | apply (Hopen 1%nat)].
    + rewrite bind_ret_l. cbn [negb].
      destruct (control_Deinit_run fd info None s _ Hr Hb (Hopen 0%nat)) as (m & c & H); [lia|]. rewrite elapse_0 in H.
      rewrite (bind_eq _ _ _ _ _ H). exists AUDIT_CONTROL_EXCEPTION, c, (elapse m s). split; [reflexivity|].
      split; [unfold control_opens; by rewrite Em, andb_comm | by exists m].
Qed.

Lemma copy_run text (s : ControlState) :
  reliable (world_of s) -> up (Utils_CreateStringCopy (Some text)) s = Some (Some text, elapse 1 s).
Proof. intros Hr. apply up_bump. unfold Utils_CreateStringCopy. by rewrite (bind_eq _ _ _ _ _ (malloc_reliable _ Hr)). Qed.

Lemma add_syscalls_run l : forall rule (s : ControlState), reliable (world_of s) ->
  exists n, add_syscalls rule l s = Some (with_syscalls rule l, elapse n s) /\
    forall rule', with_syscalls rule l = Some rule' -> rule_items rule' = rule_items rule ++ map Syscall l.
Proof.
  induction l as [|t l IH]; intros rule s Hr.
  - exists 0%nat. rewrite elapse_0. split; [done|]. intros rule' [= <-]. by rewrite app_nil_r.
  - cbn [add_syscalls with_syscalls]. rewrite (bind_eq _ _ _ _ _ (copy_run t s Hr)).
    destruct (audit_rule_syscallbyname_data rule t) as [r rule1] eqn:E. destruct (Z.ltb_spec r 0) as [Hneg|Hpos].
    + by exists 1%nat.
    + destruct (IH rule1 (elapse 1 s)) as (n & H & Hitems); [by apply (reliable_bump 1)|].
      exists (n + 1)%nat. rewrite <- elapse_elapse. split; [exact H|]. intros rule' Hrule.
      rewrite (Hitems _ Hrule), (syscall_law _ _ _ _ E Hpos). by rewrite <- app_assoc.
Qed.

Lemma with_filter_items rule f rule' : with_filter rule f = Some rule' ->
  rule_items rule' = rule_items rule ++ match f with Some f => [Filter f] | None => [] end.
Proof.
  destruct f as [f|]; cbn [with_filter]; [|intros [= <-]; by rewrite app_nil_r].
  destruct (audit_rule_fieldpair_data rule f _) as [r rule1] eqn:E. destruct (Z.eqb_spec r 0) as [->|]; [|done].
  intros [= <-]. exact (fieldpair_law _ _ _ _ E).
Qed.

Lemma add_filter_run rule f (s : ControlState) : reliable (world_of s) ->
  exists n, add_filter rule f (Z.land AUDIT_FILTER_EXIT AUDIT_FILTER_MASK) s = Some (with_filter rule f, elapse n s).
Proof.
  intros Hr. destruct f as [f|]; cbn [add_filter with_filter]; [|exists 0%nat; by rewrite elapse_0].
  rewrite (bind_eq _ _ _ _ _ (copy_run f s Hr)). exists 1%nat.
  by destruct (audit_rule_fieldpair_data rule f _) as [r rule1].
Qed.

(** A rule is added as a whole when it is accepted, and not at all otherwise. *)
Lemma AddRule_run c machine types extra (s : ControlState) :
  reliable (world_of s) -> cpuArchitectureFilter c = Some ("arch=" ++ machine)%string ->
  let accepted := rule_accepted (cs_kernel s) (control_audit c) machine types extra in
  exists k n, AuditControl_AddRule c types extra s =
      Some (if accepted then AUDIT_CONTROL_OK else AUDIT_CONTROL_EXCEPTION, set_kernel k (elapse n s)) /\
    kernel_rules k = kernel_rules (cs_kernel s) ++ if accepted then [rule_for machine types extra] else [].
Proof.
  intros Hr Hc. cbv zeta. unfold AuditControl_AddRule, rule_accepted.
  assert (Hm : up malloc s = Some (true, elapse 1 s)) by (by apply up_bump, malloc_reliable).
  rewrite (bind_eq _ _ _ _ _ Hm), Hc. cbn [negb deref with_filter]. rewrite bind_ret_l.
  assert (Hfail : forall n, exists k m, ret AUDIT_CONTROL_EXCEPTION (elapse n s) = Some (AUDIT_CONTROL_EXCEPTION, set_kernel k (elapse m s)) /\
    kernel_rules k = kernel_rules (cs_kernel s) ++ []).
  { intros n. exists (cs_kernel s), n. rewrite app_nil_r. by destruct s. }
  destruct (audit_rule_fieldpair_data zero_rule _ _) as [r rule] eqn:E. destruct (Z.eqb_spec r 0) as [->|Hr0]; cbn [negb]; [|apply Hfail].
  destruct (add_syscalls_run types rule (elapse 1 s)) as (n1 & H1 & Hi1); [by apply (reliable_bump 1)|].
  rewrite (bind_eq _ _ _ _ _ H1), elapse_elapse. cbn [mbind option_bind].
  destruct (with_syscalls rule types) as [rule1|]; cbn [mbind option_bind]; [|apply Hfail].
  destruct (add_filter_run rule1 extra (elapse (n1 + 1) s)) as (n2 & H2); [by apply (reliable_bump (n1 + 1))|].
  rewrite (bind_eq _ _ _ _ _ H2), elapse_elapse. destruct (with_filter rule1 extra) as [rule2|] eqn:E2; [|apply Hfail].
  unfold gets. unfold bind at 1. change (cs_kernel (elapse _ s)) with (cs_kernel s).
  pose proof (add_rule_law (cs_kernel s) (control_audit c) rule2 AUDIT_FILTER_EXIT AUDIT_ALWAYS) as Hk.
  destruct (audit_add_rule_data _ _ _ _ _) as [ra k]. cbn [fst].
  assert (Hrule : rule_items rule2 = rule_for machine types extra).
  { rewrite (with_filter_items _ _ _ E2), (Hi1 _ eq_refl), (fieldpair_law _ _ _ _ E), zero_rule_law. unfold rule_for. by rewrite <- app_assoc. }
  exists k, (n2 + (n1 + 1))%nat. unfold modify, bind, ret. rewrite Hk.
  destruct (Z.ltb_spec 0 ra), (Z.leb_spec ra 0); try lia; split; try done; [by rewrite Hrule | by rewrite app_nil_r].
Qed.

(** Between its initialisation and its end a control adds at most one rule, and
    the process is the user it was. *)
Lemma control_rule_run fd info machine types extra (s s1 : ControlState) :
  reliable (world_of s) -> gives_back (host_of s) info -> controlled (host_of s) fd (cs_descriptors s) s s1 -> 0 < fd ->
  exists r k n s2, AuditControl_AddRule (mkAuditControl fd info true (Some ("arch=" ++ machine)%string)) types extra s1 = Some (r, s2) /\
    kernel_rules k = kernel_rules (cs_kernel s) ++ (if rule_accepted (cs_kernel s) fd machine types extra then [rule_for machine types extra] else []) /\
    s2 = set_kernel k (elapse n s1) /\
    controlled (host_of s) fd (cs_descriptors s) (set_kernel k s) s2.
Proof.
  intros Hr Hb [n ->] Hfd.
  destruct (AddRule_run (mkAuditControl fd info true (Some ("arch=" ++ machine)%string)) machine types extra
    (set_descriptors (fd :: cs_descriptors s) (with_host (as_root (host_of s)) (elapse n s)))) as (k & m & H & Hk);
    [by apply (reliable_bump n) | done |].
  eexists _, k, m, _. split; [exact H|]. split; [exact Hk|]. split; [done|]. exists (m + n)%nat.
  destruct s as [[ag [] x] kk l]. unfold elapse. cbn. by rewrite bump_bump.
Qed.

End AuditControl.

(** ** A library that behaves as described *)

#[export] Instance sample_libaudit : Libaudit := {|
  Kernel := list (list RuleItem);
  audit_rule_data := list RuleItem;
  zero_rule := [];
  audit_open _ := 3;
  audit_rule_fieldpair_data rule pair _ := (0, rule ++ [Filter pair]);
  audit_rule_syscallbyname_data rule name := (0, rule ++ [Syscall name]);
  audit_add_rule_data k _ rule _ _ := (1, k ++ [rule]);
  uname_machine _ := Some "x86_64"%string;
|}.

#[export] Instance sample_libaudit_laws : LibauditLaws sample_libaudit.
Proof.
  refine {| rule_items := (fun r => r : list RuleItem); kernel_rules := (fun k => k : list (list RuleItem)) |}; try done.
  - by intros rule pair flags rule' [= <-].
  - by intros rule name r rule' [= <- <-].
Defined.
