(* ===== verification/AggregatingCollector.v ===== *)
(** * Collectors of audit events that aggregate

    [collectors/linux/connection_create_collector.c] and
    [collectors/linux/process_creation_collector.c] have the same shape: an event
    of the log becomes an event of the agent, or is counted in the static
    aggregator of the unit when aggregation is on; after the last one the
    aggregator is asked for what it has to queue.  This file has that shape, for a
    payload of the collector, and what a collection does. *)

From S2P Require Import Prelude CString TwinDefs World Utils TimeUtils Parson Json TwinCollectors TwinConfiguration MemoryMonitor Telemetry Queue SyncQueue Schema MessageSerializer GenericEvent Collector EventAggregator FileUtils AuditLog AuditCollector AuditControl.
From Stdlib Require Import String.
Open Scope Z_scope.

Section AggregatingCollector.
Context {P : Parson} {Mon : MemoryMonitor} {Lib : SinglyLinkedList} {Ap : Auparse}.

(** ** State: the statics of a unit *)

(** The aggregator, [None] for the null handle, and the other statics. *)
Context {Z' : Type}.

Record AggregatorStatics : Type := mkStatics {
  aggregator : option EventAggregator;
  aggregatorInitialized : bool;
  other_statics : Z';
}.

Abbreviation State := (AuditState (X := AggregatorStatics)).

Definition set_aggregator (a : option EventAggregator) : M State unit :=
  modify (fun s => set_statics (mkStatics a (aggregatorInitialized (au_statics s)) (other_statics (au_statics s))) s).

(** A call on the static aggregator: the null handle is dereferenced. *)
Definition on_aggregator {A} (m : EventAggregator -> M AgState (A * EventAggregator)) : M State A :=
  x <- gets au_statics ;;
  a <- deref (aggregator x) ;;
  let* (r, a) := in_aggregator (m a) in
  set_aggregator (Some a) ;;;
  ret r.

(** ** Operations *)

(** [CreateEventForAggregation]: the payload is counted. *)
Definition count_event (payload : Payload (X := AggregatorStatics)) (auditSearch : AuditSearch)
    : M State (EventCollectorResult * AuditSearch) :=
  let* (r, eventPayload) := up JsonObjectWriter_Init in
  match r, eventPayload with
  | JSON_WRITER_OK, Some eventPayload =>
      let* (result, eventPayload, auditSearch) := payload eventPayload auditSearch in
      if decide (result <> EVENT_COLLECTOR_OK) then ret (result, auditSearch)
      else
        r <- on_aggregator (fun a => EventAggregator_AggregateEvent a eventPayload) ;;
        ret (if decide (r <> EVENT_AGGREGATOR_OK) then EVENT_COLLECTOR_EXCEPTION else EVENT_COLLECTOR_OK, auditSearch)
  | _, _ => ret (EVENT_COLLECTOR_EXCEPTION, auditSearch)
  end.

(** Before the loop: is aggregation enabled?  No, when the settings cannot be
    read. *)
Definition aggregation_switch (queue : SyncQueue) : M State (bool * SyncQueue) :=
  x <- gets au_statics ;;
  if aggregatorInitialized x then
    let* (r, isEnabled) := on_aggregator (fun a => r <- EventAggregator_IsAggregationEnabled a ;; ret (r, a)) in
    ret (default false isEnabled, queue)
  else ret (false, queue).

(** In the loop: [count] when aggregation is enabled, [create] when it is not. *)
Definition count_or_create (count : AuditSearch -> M State (EventCollectorResult * AuditSearch))
    (create : AuditSearch -> SyncQueue -> M State (EventCollectorResult * AuditSearch * SyncQueue))
    (auditSearch : AuditSearch) (q : bool * SyncQueue) : M State (EventCollectorResult * AuditSearch * (bool * SyncQueue)) :=
  let '(aggregationEnabled, queue) := q in
  if aggregationEnabled : bool then
    let* (result, auditSearch) := count auditSearch in
    ret (result, auditSearch, (aggregationEnabled, queue))
  else
    let* (result, auditSearch, queue) := create auditSearch queue in
    ret (result, auditSearch, (aggregationEnabled, queue)).

(** After the loop: what was aggregated is queued when it is time to. *)
Definition flush_aggregator (fuel : nat) (q : bool * SyncQueue) : M State (EventCollectorResult * (bool * SyncQueue)) :=
  let '(aggregationEnabled, queue) := q in
  x <- gets au_statics ;;
  if aggregatorInitialized x then
    let* (r, queue) := on_aggregator (fun a =>
      let* (r, a, queue) := EventAggregator_GetAggregatedEvents fuel a queue in ret (r, queue, a)) in
    ret (if decide (r <> EVENT_AGGREGATOR_OK) then EVENT_COLLECTOR_EXCEPTION else EVENT_COLLECTOR_OK, (aggregationEnabled, queue))
  else ret (EVENT_COLLECTOR_OK, q).

(** [fuel] bounds the events and the aggregated payloads. *)
Definition aggregating_GetEvents (tolerated : EventCollectorResult -> bool)
    (count : AuditSearch -> M State (EventCollectorResult * AuditSearch))
    (create : AuditSearch -> SyncQueue -> M State (EventCollectorResult * AuditSearch * SyncQueue))
    (fuel : nat) (searchCriteria : AuditSearchCriteria) (messageTypes : list string) (file : string) (queue : SyncQueue)
    : M State (EventCollectorResult * SyncQueue) :=
  let* (result, q) :=
    collect_events tolerated (fun q => aggregation_switch (snd q)) (count_or_create count create) (flush_aggregator fuel)
      fuel searchCriteria messageTypes file (false, queue) in
  ret (result, snd q).

(** The aggregator when the collector ends. *)
Definition release_aggregator (fuel : nat) : M State unit :=
  x <- gets au_statics ;;
  if aggregatorInitialized x then
    a <- deref (aggregator x) ;;
    in_aggregator (EventAggregator_Deinit fuel a) ;;;
    set_aggregator None
  else ret tt.

(** ** Specification *)

(** What a payload means to write depends on the other statics only. *)
Definition plan_of (plan : Plan (X := Z')) : Plan (X := AggregatorStatics) := fun x =>
  let '(l, r, z) := plan (other_statics x) in (l, r, mkStatics (aggregator x) (aggregatorInitialized x) z).

(** The aggregator is the same. *)
Definition same_aggregator (x y : AggregatorStatics) : Prop :=
  aggregator x = aggregator y /\ aggregatorInitialized x = aggregatorInitialized y.

(** An event is counted: its payload is one more of those the aggregator holds. *)
Definition count_outcome (bad : EventCollectorResult -> Prop) (plan : AuditEvent -> Plan (X := Z')) (e : AuditEvent)
    (y : Z' * Aggregates) (r : EventCollectorResult) (y' : Z' * Aggregates) : Prop :=
  match (o ← new_writer; write_entries (plan e y.1).1.1 o) with
  | None => (bad r \/ r = EVENT_COLLECTOR_EXCEPTION) /\ y'.2 = y.2
  | Some w =>
      let '(_, pr, z') := plan e y.1 in
      y'.1 = z' /\
      match pr with
      | EVENT_COLLECTOR_OK =>
          let '(ar, l') := spec_aggregate (wr_rootValue w) y.2 in
          y'.2 = l' /\ r = (if decide (ar <> EVENT_AGGREGATOR_OK) then EVENT_COLLECTOR_EXCEPTION else EVENT_COLLECTOR_OK)
      | _ => y'.2 = y.2 /\ r = pr
      end
  end.

(** An event of the log: counted with nothing queued, or created with nothing
    counted. *)
Definition aggregating_outcome (enabled : bool) (counted : AuditEvent -> Plan (X := Z')) (bad : EventCollectorResult -> Prop)
    (single : AuditEvent -> Z' -> EventCollectorResult -> list (nat * (string * Z)) -> Z' -> Prop)
    (e : AuditEvent) (y : Z' * Aggregates) (r : EventCollectorResult) (new : list (nat * (string * Z))) (y' : Z' * Aggregates) : Prop :=
  if enabled then new = [] /\ count_outcome bad counted e y r y'
  else single e y.1 r new y'.1 /\ y'.2 = y.2.

(** The end, in the world [w] of the start and with [before] queued since: when
    aggregation is off or the interval since [last] has passed, the event of
    every payload is queued with its hit count and the times, in order, or ends
    as [emission] allows; then nothing is held any more. *)
Definition flush_outcome (h : Heading) (w : World) (enabled : bool) (interval last : Z) (before : list (nat * (string * Z)))
    (y : Z' * Aggregates) (r : EventCollectorResult) (new : list (nat * (string * Z))) (y' : Z' * Aggregates) : Prop :=
  exists k, let now := env_time (env w) k in let diff := (now - last) * 1000 in
    y'.1 = y.1 /\
    if negb enabled || interval_passed diff interval
    then y'.2 = [] /\ exists ar n',
      emissions h (env w) (cache_limit w) last now y.2 (charge_all (consumption w) before) ar new n' /\
      r = if decide (ar <> EVENT_AGGREGATOR_OK) then EVENT_COLLECTOR_EXCEPTION else EVENT_COLLECTOR_OK
    else r = EVENT_COLLECTOR_OK /\ new = [] /\ y'.2 = y.2.

Context {LL : SinglyLinkedListLaws Lib}.

(** The static aggregator counts events of type [t] with the heading [h] since
    [last]: it holds the payloads of [y], beside the other statics of [y]. *)
Definition counting (h : Heading) (t : TwinConfigurationEventType) (last : Z) (y : Z' * Aggregates) (s : State) : Prop :=
  exists agg addrs, au_statics s = mkStatics (Some agg) true y.1 /\ headed h agg /\ ea_iotEventType agg = t /\
    ea_lastAggregationTime agg = last /\ aggregates (au_ag s) agg addrs y.2.

(** The readings of the clock are within the reach of an [int32_t] in
    milliseconds from [last]. *)
Definition clock_near (v : Env) (last : Z) : Prop := forall k, INT32_MIN <= (env_time v k - last) * 1000 <= INT32_MAX.

Context {Laws : MemoryMonitorLaws Mon} {ApLaws : AuparseLaws}.

(** ** Lemmas *)

#[export] Instance same_aggregator_refl : Reflexive same_aggregator.
Proof. by intros x. Qed.

#[export] Instance same_aggregator_trans : Transitive same_aggregator.
Proof. intros x y z [H1 H2] [H3 H4]. unfold same_aggregator. by rewrite H1, H2. Qed.

Lemma aggregates_frame s s' agg addrs entries :
  ag_items s' = ag_items s -> ag_next s' = ag_next s -> aggregates s agg addrs entries -> aggregates s' agg addrs entries.
Proof. unfold aggregates. by intros -> ->. Qed.

Lemma spec_aggregate_length d l : (List.length (snd (spec_aggregate d l)) <= S (List.length l))%nat.
Proof.
  assert (H : forall l l', count_hit d l = Some l' -> List.length l' = List.length l).
  { induction l0 as [|[d' n] l0 IH]; intros l' H; [done|]. cbn in H. destruct (json_value_equals d' d); [by injection H as <-|].
    destruct (count_hit d l0) as [l1|]; [|done]. injection H as <-. cbn. by rewrite (IH l1). }
  unfold spec_aggregate. destruct (count_hit d l) as [l'|] eqn:E; [cbn [snd]; rewrite (H _ _ E); lia|].
  destruct (copied d); cbn; [rewrite length_app; cbn; lia | lia].
Qed.

Lemma other_outcome no_time no_text bad name version v plan e x r new x' :
  event_outcome no_time no_text bad name version v (fun e => plan_of (plan e)) e x r new x' ->
  event_outcome no_time no_text bad name version v plan e (other_statics x) r new (other_statics x').
Proof.
  assert (Hp : forall l r x', plan_of (plan e) x = (l, r, x') -> plan e (other_statics x) = (l, r, other_statics x')).
  { unfold plan_of. intros l r1 x1. destruct (plan e (other_statics x)) as [[l1 r2] z]. by intros [= <- <- <-]. }
  assert (Hl : (plan_of (plan e) x).1.1 = (plan e (other_statics x)).1.1) by (unfold plan_of; by destruct (plan e (other_statics x)) as [[l1 r2] z]).
  intros H. destruct H.
  - by apply outcome_no_time.
  - eapply outcome_rejected; eauto; by rewrite <- Hl.
  - eapply outcome_queued; eauto.
  - eapply outcome_refused; eauto.
  - eapply outcome_unwritable; eauto; by rewrite <- Hl.
Qed.

(** A call on the static aggregator. *)
Lemma on_aggregator_run {A} (m : EventAggregator -> M AgState (A * EventAggregator)) agg b z r agg' g (s : State) :
  au_statics s = mkStatics (Some agg) b z -> m agg (au_ag s) = Some ((r, agg'), g) ->
  on_aggregator m s = Some (r, mkAuditState g (au_host s) (mkStatics (Some agg') b z)).
Proof. intros Hx Hm. unfold on_aggregator, bind, gets, in_aggregator, deref. rewrite Hx. cbn. by rewrite Hm, Hx. Qed.

(** Counting one event. *)
Lemma count_event_run bad payload plan q e todo a h t last y (s : State) :
  (forall r, bad r -> r <> EVENT_COLLECTOR_OK) -> implements bad same_aggregator payload e (plan_of (plan e)) ->
  visiting q e todo a -> counting h t last y s -> reliable (world_of s) -> section_free (world_of s) ->
  aggregation_enabled t (eventPriorities (world_of s)) = Some true ->
  exists r a' s' y' n, count_event payload a s = Some ((r, a'), s') /\ visiting q e todo a' /\ same_search a a' /\
    au_store s' = au_store (elapse n s) /\ au_host s' = au_host s /\ counting h t last y' s' /\ count_outcome bad plan e y r y'.
Proof.
  intros Hbad Himp Hv (agg & addrs & Hx & Hnm & Ht & Hlast & Hagg) Hr Hsf He. unfold count_event, count_outcome.
  rewrite (bind_eq _ _ _ _ _ (up_bump _ _ 1 s (WriterInit_new _ Hr))).
  assert (Hkeep : forall n x, same_aggregator (au_statics s) x -> counting h t last (other_statics x, y.2) (set_statics x (elapse n s))).
  { intros n x [H1 H2]. exists agg, addrs. rewrite Hx in H1, H2. cbn in *. split; [destruct x; cbn in *; congruence|].
    by repeat (split; [done|]). }
  assert (Hsame : forall n, elapse n s = set_statics (au_statics s) (elapse n s)) by (intros n; by destruct s).
  destruct new_writer as [w|]; cbn [mbind option_bind].
  2:{ eexists _, a, _, (other_statics (au_statics s), y.2), 1%nat. split; [reflexivity|]. do 4 (split; [done|]). split; [|by split; [right|]].
      rewrite Hsame. by apply Hkeep. }
  destruct (Himp q todo w a (elapse 1 s)) as (r & w' & a' & n & x' & H1 & Hv' & Hs' & HR & Hw);
    [rewrite world_of_elapse; by apply reliable_bump | done |].
  rewrite (bind_eq _ _ _ _ _ H1). rewrite elapse_elapse. change (au_statics (elapse 1 s)) with (au_statics s) in *.
  unfold plan_of in Hw. rewrite Hx in Hw. cbn [other_statics aggregator aggregatorInitialized] in Hw.
  destruct (plan e y.1) as [[l pr] z'] eqn:Ep. cbn [fst snd] in *.
  destruct (write_entries l w) as [w1|] eqn:Ew.
  2:{ rewrite decide_True by (by apply Hbad). eexists r, a', _, (other_statics x', y.2), (n + 1)%nat. split; [reflexivity|].
      do 4 (split; [done|]). split; [by apply Hkeep | by split; [left|]]. }
  destruct Hw as (<- & <- & ->). set (x' := mkStatics (Some agg) true z') in *.
  case_decide as Hd.
  { eexists pr, a', _, (z', y.2), (n + 1)%nat. split; [reflexivity|]. do 4 (split; [done|]).
    split; [exact (Hkeep (n + 1)%nat x' HR)|]. split; [done|]. by destruct pr. }
  subst pr. set (s2 := set_statics x' (elapse (n + 1) s)).
  destruct (AggregateEvent_run (au_ag s2) agg addrs y.2 w1) as (agg' & addrs' & g & Hrun & Hagg' & _ & _ & [k Hst] & Hsm).
  { split; [exact (reliable_bump (n + 1) _ Hr)|]. split; [exact Hsf | by rewrite Ht]. }
  { by apply (aggregates_later (au_ag s) (n + 1)). }
  rewrite (bind_eq _ _ _ _ _ (on_aggregator_run (fun a => EventAggregator_AggregateEvent a w1) agg true z' _ _ _ s2 eq_refl Hrun)).
  destruct (spec_aggregate (wr_rootValue w1) y.2) as [ar l'] eqn:Es. cbn [fst snd] in *.
  eexists _, a', _, (z', l'), (k + (n + 1))%nat. split; [reflexivity|]. split; [done|]. split; [done|].
  split; [etrans; [exact Hst|]; unfold later; cbn; by rewrite bump_bump|].
  split; [done|]. split; [|done]. exists agg', addrs'. split; [done|]. rewrite Hsm. by repeat (split; [done|]).
Qed.

(** ** Lemmas: payloads as planned *)

(** A payload writes what the plan says, from the other statics, and leaves the
    aggregator alone. *)
Definition planned (bad : EventCollectorResult -> Prop) (m : Payload (X := AggregatorStatics)) (e : AuditEvent) (plan : Plan (X := Z')) : Prop :=
  implements bad same_aggregator m e (plan_of plan).

(** These entries, whatever the statics are. *)
Definition plan_entries (l : list Entry) : Plan (X := Z') := fun z => (l, EVENT_COLLECTOR_OK, z).

Lemma planned_ext bad m e p p' : (forall z, p z = p' z) -> planned bad m e p -> planned bad m e p'.
Proof. intros H. apply implements_ext. intros x. unfold plan_of. by rewrite H. Qed.

Lemma planned_then (bad : EventCollectorResult -> Prop) m k e p q :
  (forall r, bad r -> r <> EVENT_COLLECTOR_OK) -> planned bad m e p -> planned bad k e q -> planned bad (and_then m k) e (plan_then p q).
Proof.
  intros Hb Hm Hk. eapply implements_ext; [|exact (implements_then bad same_aggregator m k e _ _ _ Hb Hm Hk)].
  intros x. unfold plan_of, plan_then. destruct (p (other_statics x)) as [[l r] z]. destruct r; try done. cbn.
  by destruct (q z) as [[l' r] z'].
Qed.

Lemma planned_value {A} bad m (get : AuditField -> option A) field e auditField jsonKey isOptional :
  implements bad same_aggregator m e (plan_value get field e auditField jsonKey isOptional) ->
  planned bad m e (plan_value get field e auditField jsonKey isOptional).
Proof.
  apply implements_ext. intros x. unfold plan_of, plan_value. destruct (read_field get e auditField) as [[] [v|]]; by destruct x, isOptional.
Qed.

Lemma planned_result bad r e : planned bad (result_only r) e (fun z => ([], r, z)).
Proof. eapply implements_ext; [|by apply result_only_implements]. by intros []. Qed.

Lemma planned_string (bad : EventCollectorResult -> Prop) failed key value e :
  bad failed -> planned bad (write_string_or failed key value) e (plan_entries [Plain (key, FString value)]).
Proof. intros Hb. eapply implements_ext; [|by apply write_string_implements]. by intros []. Qed.

Lemma planned_int (bad : EventCollectorResult -> Prop) failed key value e :
  bad failed -> planned bad (write_int_or failed key value) e (plan_entries [Plain (key, FInt value)]).
Proof. intros Hb. eapply implements_ext; [|by apply write_int_implements]. by intros []. Qed.

(** Entries are written one after the other. *)
Lemma planned_entries (bad : EventCollectorResult -> Prop) m k e x l q :
  (forall r, bad r -> r <> EVENT_COLLECTOR_OK) -> planned bad m e (plan_entries [x]) ->
  planned bad k e (plan_then (plan_entries l) q) -> planned bad (and_then m k) e (plan_then (plan_entries (x :: l)) q).
Proof.
  intros Hb Hm Hk. eapply planned_ext; [|exact (planned_then bad _ _ _ _ _ Hb Hm Hk)].
  intros z. unfold plan_then, plan_entries. by destruct (q z) as [[l' r] z'].
Qed.

Lemma planned_no_entries bad m e q : planned bad m e q -> planned bad m e (plan_then (plan_entries []) q).
Proof. apply planned_ext. intros z. unfold plan_then, plan_entries. by destruct (q z) as [[l r] z']. Qed.

(** A field is read: what follows is as planned without a value and with it. *)
Lemma planned_read {A} bad (read : Au -> AuditSearchResultValues * option A * Au) get e name k plan :
  read_of read get e name ->
  (forall r v w, read_field get e name = (r, v) -> r <> AUDIT_SEARCH_OK -> planned bad (k r w) e plan) ->
  (forall v, read_field get e name = (AUDIT_SEARCH_OK, Some v) -> planned bad (k AUDIT_SEARCH_OK (Some v)) e plan) ->
  planned bad (with_value read k) e plan.
Proof. apply with_value_implements. Qed.

(** ** A collection *)

Section Collection.

(** The payload that is counted and the one that is created, as planned for the
    events that are [good]. *)
Context (tolerated : EventCollectorResult -> bool) (Htolerated : tolerated EVENT_COLLECTOR_OK = true).
Context (bad : EventCollectorResult -> Prop) (Hbad : forall r, bad r -> r <> EVENT_COLLECTOR_OK).
Context (counted single : Payload (X := AggregatorStatics)) (counted_as single_as : AuditEvent -> Plan (X := Z')).
Context (good : AuditEvent -> Prop).
Context (Hcounted : forall e, good e -> planned bad counted e (counted_as e)).
Context (Hsingle : forall e, good e -> planned bad single e (single_as e)).
Context (no_time no_text : EventCollectorResult) (name version : string).

(** The type of the aggregator, its settings, the state and the queue before. *)
Context (h : Heading) (type : TwinConfigurationEventType) (enabled : bool) (interval last : Z) (fuel : nat).
Context (s : State) (items : list (nat * (string * Z))).
Context (Hfit : times_fit (env (world_of s))) (Hclock : clock_near (env (world_of s)) last).
Context (Henabled : aggregation_enabled type (eventPriorities (world_of s)) = Some enabled).
Context (Hinterval : aggregation_interval type (eventPriorities (world_of s)) = Some interval).

Definition collection_outcome : AuditEvent -> Z' * Aggregates -> EventCollectorResult -> list (nat * (string * Z)) -> Z' * Aggregates -> Prop :=
  aggregating_outcome enabled counted_as bad (event_outcome no_time no_text bad name version (env (world_of s)) single_as).

(** During a collection. *)
Definition aggregating_queued (y : Z' * Aggregates) (new : list (nat * (string * Z))) (q : bool * SyncQueue) (s1 : State) : Prop :=
  sync_holds (snd q) (au_store s1) (items ++ new) /\ au_host s1 = as_root (au_host s) /\
  only_monitor (world_of s) (world_of s1) /\
  consumption (world_of s1) = charge_all (consumption (world_of s)) new /\ exists last', counting h type last' y s1.

(** There is room for the events still to come. *)
Definition aggregating_invariant (todo : list AuditEvent) (y : Z' * Aggregates) (new : list (nat * (string * Z)))
    (q : bool * SyncQueue) (s1 : State) : Prop :=
  fst q = enabled /\ (List.length y.2 + List.length todo <= fuel)%nat /\
  Z.of_nat (List.length (items ++ new) + List.length y.2 + List.length todo) < UINT32_MAX /\ counting h type last y s1 /\
  Forall good todo /\ aggregating_queued y new q s1.

Lemma collecting_reliable y new q s1 : aggregating_queued y new q s1 -> reliable (world_of s1) /\ section_free (world_of s1).
Proof. intros (H & _). split; [exact (sync_holds_reliable _ _ _ H) | exact (sync_section_free _ _ _ H)]. Qed.

Lemma queued_settings y new q s1 : aggregating_queued y new q s1 ->
  aggregation_enabled type (eventPriorities (world_of s1)) = Some enabled /\
  aggregation_interval type (eventPriorities (world_of s1)) = Some interval /\ env (world_of s1) = env (world_of s).
Proof. intros (_ & _ & Ho & _). unfold only_monitor in Ho. destruct Ho as (He & Hp). by intuition congruence. Qed.

Lemma switch_run y queue n (s1 : State) :
  counting h type last y s -> sync_holds queue (au_store s) items ->
  s1 = with_host (as_root (au_host s)) (elapse n s) ->
  exists s', aggregation_switch queue s1 = Some ((enabled, queue), s') /\ au_host s' = as_root (au_host s) /\
    sync_holds queue (au_store s') items /\ only_monitor (world_of s) (world_of s') /\
    consumption (world_of s') = consumption (world_of s) /\ counting h type last y s'.
Proof.
  intros (agg & addrs & Hx & Hnm & Ht & Hlast & Hagg) Hq ->. unfold aggregation_switch, gets. unfold bind at 1.
  set (s1 := with_host (as_root (au_host s)) (elapse n s)).
  change (au_statics s1) with (au_statics s). rewrite Hx. cbn [aggregatorInitialized].
  assert (H : (r <- EventAggregator_IsAggregationEnabled agg ;; ret (r, agg)) (au_ag s1) =
    Some ((EVENT_AGGREGATOR_OK, Some enabled, agg), later 2 (au_ag s1))).
  { unfold bind. rewrite (IsAggregationEnabled_run (au_ag s1) agg enabled); [done | | | by rewrite Ht].
    - exact (sync_section_free _ _ _ Hq).
    - exact (reliable_bump n _ (sync_holds_reliable _ _ _ Hq)). }
  pose proof (on_aggregator_run (fun a => r <- EventAggregator_IsAggregationEnabled a ;; ret (r, a)) agg true y.1 _ _ _ s1 Hx H) as Hrun.
  rewrite (bind_eq _ _ _ _ _ Hrun). eexists. split; [reflexivity|]. split; [done|].
  split; [by apply (sync_holds_bump queue (ag_store (later n (au_ag s))) items 2), (sync_holds_bump queue (au_store s) items n)|].
  split; [eapply only_monitor_trans; [apply (only_monitor_bump n) | apply only_monitor_bump]|]. split; [done|].
  exists agg, addrs. by repeat (split; [done|]).
Qed.


Lemma counting_step hd t l y z' x' (s1 s2 : State) queue queue' its new :
  event_step queue queue' its new x' s1 s2 -> same_aggregator (au_statics s1) x' -> z' = other_statics x' ->
  counting hd t l y s1 -> counting hd t l (z', y.2) s2.
Proof.
  intros (_ & _ & _ & _ & Hi & Hn & Hx') [Ha1 Ha2] -> (agg & addrs & Hx & Hrest). exists agg, addrs. rewrite Hx in Ha1, Ha2. cbn in Ha1, Ha2.
  destruct Hrest as (? & ? & ? & Hagg). split; [rewrite Hx'; destruct x'; cbn in *; congruence|].
  repeat (split; [done|]). by apply (aggregates_frame (au_ag s1)).
Qed.

Lemma body_run query e todo a q y new (s1 : State) :
  visiting query e todo a -> aggregating_invariant (e :: todo) y new q s1 ->
  exists r a' q' s' add y', count_or_create (count_event counted) (create_single_event no_time no_text name version single) a q s1 =
      Some ((r, a', q'), s') /\ visiting query e todo a' /\ same_search a a' /\
    collection_outcome e y r add y' /\ aggregating_invariant todo y' (new ++ add) q' s'.
Proof.
  intros Hv (Hq1 & Hfuel & Hlen & Hcnt & Hgood & HJ). apply Forall_cons in Hgood as [Hge Hgood]. destruct q as [b queue]. cbn [fst] in Hq1. subst b.
  destruct (collecting_reliable _ _ _ _ HJ) as [Hr Hsf]. destruct (queued_settings _ _ _ _ HJ) as (He & _ & Henv).
  destruct HJ as (Hq & Hhost & Hmon & Hcons & _). cbn [snd List.length] in *. unfold count_or_create, collection_outcome, aggregating_outcome.
  destruct enabled eqn:Een.
  - destruct (count_event_run bad counted counted_as query e todo a h type last y s1)
      as (r & a' & s' & y' & n & Hrun & Hv' & Hs' & Hst & Hh & Hcnt' & Hout); try done; [by apply Hcounted|].
    rewrite (bind_eq _ _ _ _ _ Hrun). exists r, a', (true, queue), s', [], y'. rewrite app_nil_r.
    split; [reflexivity|]. do 2 (split; [done|]). split; [done|].
    assert (Hl : (List.length y'.2 <= S (List.length y.2))%nat).
    { unfold count_outcome in Hout. destruct (mbind _ _) as [w|]; [|destruct Hout as [_ ->]; lia].
      destruct (counted_as e y.1) as [[l pr] z']. destruct Hout as [_ Hout].
      pose proof (spec_aggregate_length (wr_rootValue w) y.2) as Hsp.
      destruct pr; try (destruct Hout as [-> _]; lia). destruct (spec_aggregate _ _) as [ar l']. destruct Hout as [-> _]. exact Hsp. }
    split; [by rewrite Een|]. split; [lia|]. split; [lia|]. split; [done|]. split; [done|].
    split; [cbn [snd]; rewrite Hst; by apply (sync_holds_elapse queue (au_store s1))|]. split; [by rewrite Hh|].
    change (world_of s') with (st_world (au_store s')). rewrite Hst.
    split; [eapply only_monitor_trans; [exact Hmon | apply (only_monitor_bump n)]|]. split; [exact Hcons | by exists last].
  - destruct (create_single_event_run no_time no_text bad same_aggregator name version single (fun e => plan_of (single_as e))
      query e todo a queue s1 (items ++ new)) as (r & a' & q' & s' & add & x' & Hrun & Hv' & Hs' & Hstep & HR & Hout);
      [apply _ | done | by apply Hsingle | done | done | by rewrite Henv | lia |].
    rewrite (bind_eq _ _ _ _ _ Hrun). apply other_outcome in Hout. rewrite Henv in Hout.
    assert (Hx : other_statics (au_statics s1) = y.1) by (destruct Hcnt as (agg & addrs & -> & _); done). rewrite Hx in Hout.
    exists r, a', (false, q'), s', add, (other_statics x', y.2). split; [reflexivity|]. do 2 (split; [done|]). split; [done|].
    assert (Hl : (List.length add <= 1)%nat) by (destruct Hout; cbn; lia).
    assert (Hcnt' : counting h type last (other_statics x', y.2) s') by (by eapply counting_step).
    destruct Hstep as (E1 & E2 & E2c & E3 & _). split; [by rewrite Een|]. split; [cbn; lia|].
    split; [rewrite app_assoc, length_app; cbn [snd]; lia|]. split; [exact Hcnt'|]. split; [done|].
    split; [by rewrite app_assoc|]. split; [by rewrite E3|]. split; [by eapply only_monitor_trans|].
    split; [by rewrite charge_all_app, E2c, Hcons | by exists last].
Qed.

Lemma flush_run y new q s1 : aggregating_invariant [] y new q s1 ->
  exists r q' s' add y', flush_aggregator fuel q s1 = Some ((r, q'), s') /\
    flush_outcome h (world_of s) enabled interval last new y r add y' /\ aggregating_queued y' (new ++ add) q' s'.
Proof.
  intros (Hq1 & Hfuel & Hlen & (agg & addrs & Hx & Hnm & Ht & Hlast & Hagg) & _ & HJ). destruct q as [b queue]. cbn [fst] in Hq1. subst b.
  destruct (queued_settings _ _ _ _ HJ) as (He & Hi & Henv). destruct HJ as (Hq & Hhost & Hmon & Hcons & Hcnt). cbn [snd List.length] in *.
  unfold flush_aggregator, gets. unfold bind at 1. rewrite Hx. cbn [aggregatorInitialized].
  set (now := env_time (env (world_of s1)) (tick (world_of s1))).
  destruct (GetAggregatedEvents_run fuel agg h queue (au_ag s1) addrs y.2 (items ++ new) enabled interval)
    as (r & agg' & q' & g & Hrun & Hc); [| lia | by rewrite Ht | by rewrite Ht | |].
  { split; [done|]. split; [unfold ag_world; change (st_world _) with (world_of s1); by rewrite Henv|]. split; [done|]. split; [exact Hq|lia]. }
  { rewrite Hlast. change (ag_world (au_ag s1)) with (world_of s1). rewrite Henv. apply Hclock. }
  assert (H : (let* (r, a, queue) := EventAggregator_GetAggregatedEvents fuel agg queue in ret (r, queue, a)) (au_ag s1) = Some ((r, q', agg'), g)).
  { by rewrite (bind_eq _ _ _ _ _ Hrun). }
  pose proof (on_aggregator_run (fun a => let* (r, a, queue) := EventAggregator_GetAggregatedEvents fuel a queue in ret (r, queue, a))
    agg true y.1 _ _ _ s1 Hx H) as Hon. rewrite (bind_eq _ _ _ _ _ Hon).
  change (ag_world (au_ag s1)) with (world_of s1) in Hc. fold now in Hc. rewrite Hlast in Hc.
  assert (Hk : now = env_time (env (world_of s)) (tick (world_of s1))) by (unfold now; by rewrite Henv).
  destruct (negb enabled || interval_passed ((now - last) * 1000) interval) eqn:Epass.
  - destruct Hc as (Hagg' & Hsm & _ & (add & Hq' & Hem & Hmon' & _)).
    eexists _, (enabled, q'), _, add, (y.1, []). split; [reflexivity|]. split.
    + exists (tick (world_of s1)). cbv zeta. rewrite <- Hk, Epass. split; [done|]. split; [done|]. exists r.
      eexists. split; [|reflexivity]. rewrite <- Hcons, <- Henv, <- (only_monitor_limit _ _ Hmon). exact Hem.
    + split; [cbn [snd]; rewrite app_assoc; exact Hq'|]. split; [done|].
      split; [eapply only_monitor_trans; [exact Hmon|]; eapply only_monitor_trans; [apply (only_monitor_bump 5) | exact Hmon']|].
      split; [rewrite charge_all_app, <- Hcons; exact (emissions_charge _ _ _ _ _ _ _ _ _ _ Hem)|].
      exists now, agg', []. rewrite Hsm. split; [done|]. destruct Hnm as (? & ? & ?). repeat (split; [done|]). by rewrite <- Hsm.
  - destruct Hc as (-> & -> & -> & ->). eexists _, (enabled, queue), _, [], y. split; [reflexivity|]. split.
    + exists (tick (world_of s1)). cbv zeta. by rewrite <- Hk, Epass.
    + rewrite app_nil_r. split; [by apply (sync_holds_bump queue (ag_store (au_ag s1)) (items ++ new) 5)|]. split; [done|].
      split; [eapply only_monitor_trans; [exact Hmon | apply (only_monitor_bump 5)]|]. split; [exact Hcons|].
      exists last, agg, addrs. by repeat (split; [done|]).
Qed.

Lemma aggregating_GetEvents_run criteria t ts file queue y :
  let query := search_query (au_host s) criteria t ts (Some file) in
  let refused := search_refused (au_host s) criteria (t :: ts) (Some file) in
  let todo := sought query (log_events (host_log (au_host s))) in
  counting h type last y s -> sync_holds queue (au_store s) items ->
  (List.length y.2 + List.length todo <= fuel)%nat ->
  Z.of_nat (List.length items + List.length y.2 + List.length todo) < UINT32_MAX -> Forall good todo ->
  exists r queue' s' new y',
    aggregating_GetEvents tolerated (count_event counted) (create_single_event no_time no_text name version single)
      fuel criteria (t :: ts) file queue s = Some ((r, queue'), s') /\
    sync_holds queue' (au_store s') (items ++ new) /\ (exists last', counting h type last' y' s') /\
    collection collection_outcome tolerated (flush_outcome h (world_of s) enabled interval last) query refused file s s' y r new y'.
Proof.
  intros query refused todo Hcnt Hq Hfuel Hlen Hgood. unfold aggregating_GetEvents.
  destruct (collect_events_run tolerated (fun q => aggregation_switch (snd q))
    (count_or_create (count_event counted) (create_single_event no_time no_text name version single)) (flush_aggregator fuel)
    collection_outcome (flush_outcome h (world_of s) enabled interval last) aggregating_invariant aggregating_queued
    fuel criteria t ts file (false, queue) y s) as (r & q' & s' & new & y' & Hrun & Hc & Hs'); try done.
  - exact (sync_holds_reliable _ _ _ Hq).
  - fold query. fold todo. lia.
  - by intros todo' y1 new q s1 (_ & _ & _ & _ & _ & H).
  - intros y1 new q s1 HJ. split; [by eapply collecting_reliable | by destruct HJ as (_ & H & _)].
  - intros n. destruct (switch_run y queue n _ Hcnt Hq eq_refl) as (s1 & H1 & Hh & Hq1 & Hm & Hn1 & Hc1).
    exists (enabled, queue), s1. split; [exact H1|]. fold query. fold todo. split; [done|]. split; [done|].
    rewrite app_nil_r. split; [lia|]. split; [done|]. split; [done|]. split; [by rewrite app_nil_r|]. split; [done|]. split; [done|].
    split; [exact Hn1 | by exists last].
  - intros e todo' a q y1 new s1 Hv HI. by apply (body_run query).
  - intros y1 new q s1 HI. by apply flush_run.
  - rewrite (bind_eq _ _ _ _ _ Hrun). exists r, (snd q'), s', new, y'. split; [reflexivity|]. split; [|split; [|exact Hc]].
    + destruct Hs' as [(-> & -> & _ & n & ->)|(s1 & host & n & (H1 & _) & ->)].
      * rewrite app_nil_r. by apply (sync_holds_elapse queue (au_store s) items n).
      * by apply (sync_holds_elapse (snd q') (au_store s1) (items ++ new) n).
    + destruct Hs' as [(-> & -> & -> & n & ->)|(s1 & host & n & (_ & _ & _ & _ & last' & agg & addrs & H) & ->)].
      * exists last. destruct Hcnt as (agg & addrs & H). by exists agg, addrs.
      * by exists last', agg, addrs.
Qed.

End Collection.

(** ** Initialisation *)

Section Initialisation.
Context {La : Libaudit}.

(** The aggregator when the collector is initialised.  A failure is logged: the
    unit counts as initialised in any case. *)
Definition init_aggregator (configuration : EventAggregatorConfiguration) : M (ControlState (X := AggregatorStatics)) unit :=
  let* (r, a) := in_audit (in_aggregator (EventAggregator_Init (Some configuration))) in
  in_audit (modify (fun s =>
    let x := au_statics s in
    set_statics (mkStatics (match r with EVENT_AGGREGATOR_OK => a | _ => aggregator x end) true (other_statics x)) s)).

(** The heap of the aggregated items has room at its next address. *)
Definition items_ok (s : AgState) : Prop := forall a, is_Some (ag_items s !! a) -> (a < ag_next s)%nat.

Lemma init_aggregator_run type event_type event_name version (s : ControlState (X := AggregatorStatics)) :
  reliable (world_of s) -> items_ok (au_ag (cs_audit s)) ->
  let last := env_time (env (world_of s)) (1 + tick (world_of s)) in
  exists n x, init_aggregator (mkAggregatorConfiguration type (Some event_type) (Some event_name) (Some version)) s =
      Some (tt, mkControlState (set_statics x (elapse n (cs_audit s))) (cs_kernel s) (cs_descriptors s)) /\
    other_statics x = other_statics (au_statics (cs_audit s)) /\
    counting (mkHeading event_type event_name version) type last (other_statics x, []) (set_statics x (elapse n (cs_audit s))).
Proof.
  intros Hr Hi last. destruct (Aggregator_Init_correct type event_type event_name version (au_ag (cs_audit s))) as [n H].
  change (ag_world (au_ag (cs_audit s))) with (world_of s) in H. rewrite !(Hr _) in H. cbn [andb] in H.
  unfold init_aggregator. unfold bind at 1, in_audit at 1, in_aggregator. rewrite H.
  set (agg := mkAggregator _ _ _ _ _ _) in *. set (z := other_statics (au_statics (cs_audit s))).
  exists n, (mkStatics (Some agg) true z). split; [reflexivity|]. split; [done|].
  exists agg, []. split; [done|]. split; [by repeat split|]. split; [done|]. split; [done|].
  exists singlylinkedlist_create. split; [done|]. destruct sll_create_law as [Hwf Hc]. split; [done|]. split; [by rewrite Hc|].
  split; [constructor|]. split; [constructor|]. exact Hi.
Qed.

End Initialisation.

End AggregatingCollector.
