(* ===== verification/SdkMap.v ===== *)
(** * The map of the SDK ([azure_c_shared_utility/map.h])

    A map from strings to strings behind a handle.  It is not part of the
    repository: its functions are a parameter, with what the header says of
    them. *)

From S2P Require Import Prelude World.
From Stdlib Require Import String.
Open Scope Z_scope.

Inductive MAP_RESULT : Type := MAP_OK | MAP_ERROR | MAP_INVALIDARG | MAP_KEYEXISTS | MAP_KEYNOTFOUND | MAP_FILTER_REJECT.

#[export] Instance MAP_RESULT_eq : EqDecision MAP_RESULT.
Proof. solve_decision. Defined.

(** The content behind a handle.  The null handle and the null key are refused by
    the functions, as [map.h] says.  [map_add] is [None] for a key that is
    there. *)
Class SdkMap : Type := {
  MapContent : Type;
  map_empty : MapContent;
  map_add : MapContent -> string -> string -> option MapContent;
  map_add_or_update : MapContent -> string -> string -> MAP_RESULT * MapContent;
  map_get_value : MapContent -> string -> option string;
  map_count : MapContent -> option Z;
}.

Class SdkMapLaws (Sm : SdkMap) : Type := {
  map_view : MapContent -> gmap string string;
  map_empty_law : map_view map_empty = ∅;
  map_add_law : forall m key value, let '(r, m') := map_add_or_update m key value in
    map_view m' = if decide (r = MAP_OK) then <[key := value]> (map_view m) else map_view m;
  map_add_new_law : forall m key value, map_view m !! key = None ->
    exists m', map_add m key value = Some m' /\ map_view m' = <[key := value]> (map_view m);
  map_add_there_law : forall m key value v, map_view m !! key = Some v -> map_add m key value = None;
  map_get_law : forall m key, map_get_value m key = map_view m !! key;
}.

Section SdkMap.
Context {Sm : SdkMap}.

Definition MAP_HANDLE : Type := option MapContent.

Definition Map_Create : M World MAP_HANDLE :=
  ok <- malloc ;;
  ret (if ok then Some map_empty else None).

(** Without memory for the copies the map is as it was. *)
Definition Map_Add (handle : MAP_HANDLE) (key value : string) : M World (MAP_RESULT * MAP_HANDLE) :=
  match handle with
  | None => ret (MAP_INVALIDARG, handle)
  | Some m =>
      match map_add m key value with
      | None => ret (MAP_KEYEXISTS, handle)
      | Some m' => ok <- malloc ;; ret (if ok then (MAP_OK, Some m') else (MAP_ERROR, handle))
      end
  end.

Definition Map_AddOrUpdate (handle : MAP_HANDLE) (key : option string) (value : string) : MAP_RESULT * MAP_HANDLE :=
  match handle, key with
  | Some m, Some key => let '(r, m) := map_add_or_update m key value in (r, Some m)
  | _, _ => (MAP_INVALIDARG, handle)
  end.

Definition Map_GetValueFromKey (handle : MAP_HANDLE) (key : string) : option string := m ← handle; map_get_value m key.

(** [None] is [false]. *)
Definition Utils_GetMapSize (handle : MAP_HANDLE) : option Z := m ← handle; map_count m.

End SdkMap.

(** ** A concrete map *)

Definition sample_map : SdkMap := {|
  MapContent := gmap string string;
  map_empty := ∅;
  map_add := fun m key value => match m !! key with None => Some (<[key := value]> m) | Some _ => None end;
  map_add_or_update := fun m key value => (MAP_OK, <[key := value]> m);
  map_get_value := fun m key => m !! key;
  map_count := fun m => Some (Z.of_nat (size m));
|}.

Lemma sample_map_laws : SdkMapLaws sample_map.
Proof.
  refine (Build_SdkMapLaws sample_map (fun m : gmap string string => m) _ _ _ _ _).
  - done.
  - done.
  - intros m key value E. cbn. rewrite E. by eexists.
  - intros m key value v E. cbn. by rewrite E.
  - done.
Defined.
