(* ===== verification/ConnectionCreate.v ===== *)
(** * [collectors/linux/connection_create_collector.c]: connections

    A successful [connect] or [accept] of the audit log becomes an event, or is
    counted in the aggregator of connections.  The address and the port come from
    the bytes of the socket address, which the log has as hexadecimal digits. *)

From S2P Require Import Prelude CString TwinDefs World Utils TimeUtils Parson ParsonModel Json TwinCollectors TwinConfiguration MemoryMonitor Telemetry Queue SyncQueue Schema MessageSerializer GenericEvent Collector EventAggregator FileUtils AuditLog AuditCollector AuditControl AggregatingCollector.
From Stdlib Require Import String Ascii.
Open Scope Z_scope.

Definition AUDIT_CONNECTION_CREATION_MAX_BUFF : Z := 500.
Definition SUPPORTED_PROTOCOL_TCP : string := "tcp".
Definition AUDIT_CONNECTION_CREATION_SYSCALL_CONNECT : string := "connect".
Definition AUDIT_CONNECTION_CREATION_SYSCALL_ACCEPT : string := "accept".
Definition AUDIT_CONNECTION_CREATION_SYSCALLS : list string :=
  [AUDIT_CONNECTION_CREATION_SYSCALL_CONNECT; AUDIT_CONNECTION_CREATION_SYSCALL_ACCEPT].
Definition AUDIT_CONNECTION_CREATION_CHECKPOINT_FILE : string := "/var/tmp/connectionCreationCheckpoint".
Definition AUDIT_CONNECTION_CREATION_EXECUTABLE : string := "exe".
Definition AUDIT_CONNECTION_CREATION_CMD : string := "proctitle".
Definition AUDIT_CONNECTION_CREATION_PROCESS_ID : string := "pid".
Definition AUDIT_CONNECTION_CREATION_USER_ID : string := "uid".
Definition AUDIT_CONNECTION_CREATION_SYSCALL : string := "syscall".
Definition AUDIT_CONNECTION_CREATION_REMOTE_SOCKET_ADDRESS : string := "saddr".

(** [sys/socket.h] of Linux. *)
Definition AF_INET : Z := 2.
Definition AF_INET6 : Z := 10.

Inductive ConnectionDirection : Type :=
  | CONNECTION_DIRECTION_OUTBOUND
  | CONNECTION_DIRECTION_INBOUND.

#[export] Instance ConnectionDirection_eq : EqDecision ConnectionDirection.
Proof. solve_decision. Defined.

(** ** The socket address *)

(** [IP_V4_FORMAT_STR] and [IP_V6_FORMAT_STR], of four and of sixteen bytes. *)
Definition ip_v4_text (a b c d : Z) : string := udec a ++ "." ++ udec b ++ "." ++ udec c ++ "." ++ udec d.

Fixpoint ip_v6_text (bytes : list Z) : string :=
  match bytes with
  | [a; b] => hex_text false [a; b]
  | a :: b :: bytes => (hex_text false [a; b] ++ ":" ++ ip_v6_text bytes)%string
  | _ => EmptyString
  end.

(** The end of [GetRemoteInformation], once the field was read: the result, the
    address and the port.  The port and the addresses of both families are shorter
    than the buffers, which have [AUDIT_CONNECTION_CREATION_MAX_BUFF] bytes at
    least: nothing is cut off. *)
Definition remote_information (auditStrValue : string) : EventCollectorResult * (string * string) :=
  let zeros := replicate (Z.to_nat AUDIT_CONNECTION_CREATION_MAX_BUFF) 0 in
  match Utils_HexStringToByteArray auditStrValue zeros AUDIT_CONNECTION_CREATION_MAX_BUFF with
  | None => (EVENT_COLLECTOR_EXCEPTION, (EmptyString, EmptyString))
  | Some (saddrBytes, saddrSize) =>
      let byte := fun i => nth i saddrBytes 0 in
      let family := byte 0%nat in
      if negb (family =? AF_INET) && negb (family =? AF_INET6) then (EVENT_COLLECTOR_RECORD_FILTERED, (EmptyString, EmptyString))
      else
        let port := (Z.shiftl (byte 2%nat) 8 + byte 3%nat) mod 65536 in
        let outputPort := udec port in
        if family =? AF_INET then
          if saddrSize <? 8 then (EVENT_COLLECTOR_EXCEPTION, (EmptyString, outputPort))
          else (EVENT_COLLECTOR_OK, (ip_v4_text (byte 4%nat) (byte 5%nat) (byte 6%nat) (byte 7%nat), outputPort))
        else
          let outputAddress := ip_v6_text (firstn 16 (skipn 8 saddrBytes)) in
          if (saddrSize <? 24) || negb (strlen outputAddress =? 39) then (EVENT_COLLECTOR_EXCEPTION, (EmptyString, outputPort))
          else (EVENT_COLLECTOR_OK, (outputAddress, outputPort))
  end.

(** ** Addresses *)

(** What the kernel writes: [struct sockaddr_in] and [struct sockaddr_in6] of a
    little-endian machine, the port in network order. *)
Inductive SockAddr : Type :=
  | Inet (port : Z) (a b c d : Z)
  | Inet6 (port : Z) (flowinfo address : list Z).

Definition port_bytes (port : Z) : list Z := [port / 256; port mod 256].

Definition sockaddr_bytes (x : SockAddr) : list Z :=
  match x with
  | Inet port a b c d => [AF_INET; 0] ++ port_bytes port ++ [a; b; c; d]
  | Inet6 port flowinfo address => [AF_INET6; 0] ++ port_bytes port ++ flowinfo ++ address
  end.

Definition sockaddr_port (x : SockAddr) : Z := match x with Inet port _ _ _ _ => port | Inet6 port _ _ => port end.

Definition sockaddr_text (x : SockAddr) : string :=
  match x with
  | Inet _ a b c d => ip_v4_text a b c d
  | Inet6 _ _ address => ip_v6_text address
  end.

Definition sockaddr_wf (x : SockAddr) : Prop :=
  Forall (fun b => 0 <= b < 256) (sockaddr_bytes x) /\ 0 <= sockaddr_port x < 65536 /\
  match x with
  | Inet _ _ _ _ _ => True
  | Inet6 _ flowinfo address => List.length flowinfo = 4%nat /\ List.length address = 16%nat
  end.

Lemma list_4 {A} (l : list A) : List.length l = 4%nat -> exists a b c d, l = [a; b; c; d].
Proof. intros H. do 4 (destruct l as [|? l]; [done|]). destruct l; [|done]. eauto. Qed.

Lemma ip_v6_length l : List.length l = 16%nat -> strlen (ip_v6_text l) = 39.
Proof. intros H. do 16 (destruct l as [|? l]; [done|]). by destruct l. Qed.

Lemma port_read port : 0 <= port < 65536 -> (Z.shiftl (port / 256) 8 + port mod 256) mod 65536 = port.
Proof.
  intros H. rewrite Z.shiftl_mul_pow2 by lia. change (2 ^ 8) with 256. pose proof (Z.div_mod port 256 ltac:(lia)) as Hd.
  replace (port / 256 * 256 + port mod 256) with port by lia. by apply Z.mod_small.
Qed.

(** C29: The address and the port of a record are those of the connection:
    whatever letters the hexadecimal digits of a socket address are written with,
    and whatever follows the address in the record, the collector gives the
    dotted address of an IPv4 connection, the sixteen bytes of an IPv6 one, and
    its port in decimal. *)
Theorem address_roundtrip upper x padding :
  sockaddr_wf x -> Forall (fun b => 0 <= b < 256) padding ->
  Z.of_nat (List.length (sockaddr_bytes x ++ padding)) < AUDIT_CONNECTION_CREATION_MAX_BUFF ->
  remote_information (hex_text upper (sockaddr_bytes x ++ padding)) = (EVENT_COLLECTOR_OK, (sockaddr_text x, udec (sockaddr_port x))).
Proof.
  intros (Hb & Hp & Hx) Hpad Hl. unfold remote_information. cbv zeta.
  set (zeros := replicate _ 0). assert (Hz : List.length zeros = 500%nat) by (by unfold zeros; rewrite length_replicate).
  pose proof (HexString_roundtrip upper (sockaddr_bytes x ++ padding) zeros) as H.
  rewrite Hz in H. change (Z.of_nat 500) with AUDIT_CONNECTION_CREATION_MAX_BUFF in H. unfold AUDIT_CONNECTION_CREATION_MAX_BUFF in Hl.
  rewrite H; [|by apply Forall_app | ulia | lia]. clear H. destruct x as [port a b c d|port flowinfo address].
  - cbn [sockaddr_bytes app port_bytes nth sockaddr_port sockaddr_text] in *. rewrite port_read by done.
    change (AF_INET =? AF_INET) with true. cbn [negb andb List.length].
    by rewrite (proj2 (Z.ltb_ge _ _)) by lia.
  - destruct Hx as [Hf Ha]. destruct (list_4 flowinfo Hf) as (f0 & f1 & f2 & f3 & ->).
    cbn [sockaddr_bytes app port_bytes nth sockaddr_port sockaddr_text] in *. rewrite port_read by done.
    change (AF_INET6 =? AF_INET) with false. change (AF_INET6 =? AF_INET6) with true. cbn [negb andb skipn].
    rewrite drop_0, <- app_assoc, take_app_length' by done.
    rewrite ip_v6_length by done. cbn [Z.eqb Pos.eqb negb]. rewrite orb_false_r.
    by rewrite (proj2 (Z.ltb_ge _ _)) by (cbn [List.length]; rewrite length_app, Ha; lia).
Qed.

(** A connection to port 443 of an IPv4 address, with the padding of the kernel. *)
Lemma address_roundtrip_witness :
  sockaddr_wf (Inet 443 192 168 0 10) /\
  remote_information "020001BBC0A8000A0000000000000000" = (EVENT_COLLECTOR_OK, ("192.168.0.10"%string, "443"%string)).
Proof.
  assert (H : sockaddr_wf (Inet 443 192 168 0 10)).
  { split; [|cbn; lia]. cbn [sockaddr_bytes app port_bytes]. repeat (constructor; [vm_compute; split; congruence|]). constructor. }
  split; [exact H|]. refine (address_roundtrip true (Inet 443 192 168 0 10) (replicate 8 0) H _ _); [|by vm_compute].
  by repeat constructor.
Defined.


Section ConnectionCreate.
Context {P : Parson} {Mon : MemoryMonitor} {Lib : SinglyLinkedList} {Ap : Auparse} {La : Libaudit}.

(** The unit has no statics besides the aggregator. *)
Abbreviation ConnectionStatics := (AggregatorStatics (Z' := unit)).
Abbreviation State := (AuditState (X := ConnectionStatics)).
Abbreviation PayloadOf := (Payload (X := ConnectionStatics)).

(** ** Payloads *)

Definition direction_of (syscallName : string) : option ConnectionDirection :=
  if String.eqb syscallName AUDIT_CONNECTION_CREATION_SYSCALL_CONNECT then Some CONNECTION_DIRECTION_OUTBOUND
  else if String.eqb syscallName AUDIT_CONNECTION_CREATION_SYSCALL_ACCEPT then Some CONNECTION_DIRECTION_INBOUND
  else None.

(** What follows the direction, and the result without one. *)
Definition ConnectionCreationCollector_GetDirection (failed : EventCollectorResult) (k : ConnectionDirection -> PayloadOf) : PayloadOf :=
  with_value (AuditSearch_InterpretString AUDIT_CONNECTION_CREATION_SYSCALL) (fun r syscallName =>
    match r with
    | AUDIT_SEARCH_OK => on_value syscallName (fun syscallName =>
        match direction_of syscallName with Some direction => k direction | None => result_only failed end)
    | _ => result_only failed
    end).

(** What follows the address and the port. *)
Definition ConnectionCreateEventCollector_GetRemoteInformation (outputAddressSize outputPortSize : Z)
    (k : string -> string -> PayloadOf) : PayloadOf :=
  if (outputAddressSize <? AUDIT_CONNECTION_CREATION_MAX_BUFF) || (outputPortSize <? AUDIT_CONNECTION_CREATION_MAX_BUFF)
  then result_only EVENT_COLLECTOR_EXCEPTION
  else
    with_value (AuditSearch_ReadString AUDIT_CONNECTION_CREATION_REMOTE_SOCKET_ADDRESS) (fun r auditStrValue =>
      match r with
      | AUDIT_SEARCH_OK => on_value auditStrValue (fun auditStrValue =>
          match remote_information auditStrValue with
          | (EVENT_COLLECTOR_OK, (outputAddress, outputPort)) => k outputAddress outputPort
          | (result, _) => result_only result
          end)
      | _ => result_only EVENT_COLLECTOR_RECORD_HAS_ERRORS
      end).

Definition direction_string (direction : ConnectionDirection) : string :=
  match direction with
  | CONNECTION_DIRECTION_OUTBOUND => CONNECTION_CREATION_DIRECTION_OUTBOUND_NAME
  | CONNECTION_DIRECTION_INBOUND => CONNECTION_CREATION_DIRECTION_INBOUND_NAME
  end.

Definition ConnectionCreateEventCollector_GeneratePayload : PayloadOf :=
  ConnectionCreationCollector_GetDirection EVENT_COLLECTOR_EXCEPTION (fun direction =>
  ConnectionCreateEventCollector_GetRemoteInformation AUDIT_CONNECTION_CREATION_MAX_BUFF AUDIT_CONNECTION_CREATION_MAX_BUFF
    (fun remoteAddress remotePort =>
  and_then (write_string_or EVENT_COLLECTOR_EXCEPTION CONNECTION_CREATION_PROTOCOL_KEY SUPPORTED_PROTOCOL_TCP)
  (and_then (write_string_or EVENT_COLLECTOR_RECORD_HAS_ERRORS CONNECTION_CREATION_DIRECTION_KEY (direction_string direction))
  (and_then (write_string_or EVENT_COLLECTOR_RECORD_HAS_ERRORS CONNECTION_CREATION_REMOTE_ADDRESS_KEY remoteAddress)
  (and_then (write_string_or EVENT_COLLECTOR_RECORD_HAS_ERRORS CONNECTION_CREATION_REMOTE_PORT_KEY remotePort)
  (and_then (GenericAuditEvent_HandleInterpretStringValue AUDIT_CONNECTION_CREATION_EXECUTABLE CONNECTION_CREATION_EXECUTABLE_KEY false)
  (and_then (GenericAuditEvent_HandleInterpretStringValue AUDIT_CONNECTION_CREATION_CMD CONNECTION_CREATION_COMMAND_LINE_KEY false)
  (and_then (GenericAuditEvent_HandleIntValue AUDIT_CONNECTION_CREATION_PROCESS_ID CONNECTION_CREATION_PROCESS_ID_KEY false)
  (GenericAuditEvent_HandleStringValue AUDIT_CONNECTION_CREATION_USER_ID CONNECTION_CREATION_USER_ID_KEY false))))))))).

(** The process, and the port of an inbound connection, are left out of what is
    compared: they are set to zero. *)
Definition aggregation_payload : PayloadOf :=
  and_then ConnectionCreateEventCollector_GeneratePayload
  (and_then (write_int_or EVENT_COLLECTOR_EXCEPTION CONNECTION_CREATION_PROCESS_ID_KEY 0)
  (ConnectionCreationCollector_GetDirection EVENT_COLLECTOR_RECORD_HAS_ERRORS (fun direction =>
    match direction with
    | CONNECTION_DIRECTION_INBOUND => write_int_or EVENT_COLLECTOR_EXCEPTION CONNECTION_CREATION_REMOTE_PORT_KEY 0
    | CONNECTION_DIRECTION_OUTBOUND => result_only EVENT_COLLECTOR_OK
    end))).

(** ** Events *)

Definition ConnectionCreationCollector_CreateEventForAggregation : AuditSearch -> M State (EventCollectorResult * AuditSearch) :=
  count_event aggregation_payload.

(** A text that cannot be made is not reported: the result is
    [EVENT_COLLECTOR_OK]. *)
Definition ConnectionCreateEventCollector_CreateSingleEvent (auditSearch : AuditSearch) (queue : SyncQueue)
    : M State (EventCollectorResult * AuditSearch * SyncQueue) :=
  create_single_event EVENT_COLLECTOR_EXCEPTION EVENT_COLLECTOR_OK CONNECTION_CREATION_NAME
    CONNECTION_CREATION_PAYLOAD_SCHEMA_VERSION ConnectionCreateEventCollector_GeneratePayload auditSearch queue.

Definition connection_tolerated (result : EventCollectorResult) : bool :=
  match result with EVENT_COLLECTOR_EXCEPTION => false | _ => true end.

Definition ConnectionCreateEventCollector_GetEvents (fuel : nat) (queue : SyncQueue) : M State (EventCollectorResult * SyncQueue) :=
  aggregating_GetEvents connection_tolerated ConnectionCreationCollector_CreateEventForAggregation
    ConnectionCreateEventCollector_CreateSingleEvent fuel AUDIT_SEARCH_CRITERIA_SYSCALL AUDIT_CONNECTION_CREATION_SYSCALLS
    AUDIT_CONNECTION_CREATION_CHECKPOINT_FILE queue.

(** A rule that cannot be added and an aggregator that cannot be created are
    logged. *)
Definition ConnectionCreateEventCollector_Init : M (ControlState (X := ConnectionStatics)) EventCollectorResult :=
  let* (r, audit) := AuditControl_Init in
  if decide (r <> AUDIT_CONTROL_OK) then ret EVENT_COLLECTOR_EXCEPTION
  else
    r <- AuditControl_AddRule audit [AUDIT_CONTROL_TYPE_CONNECT; AUDIT_CONTROL_TYPE_ACCEPT] (Some AUDIT_CONTROL_ON_SUCCESS_FILTER) ;;
    init_aggregator (mkAggregatorConfiguration EVENT_TYPE_CONNECTION_CREATE (Some EVENT_TYPE_SECURITY_VALUE)
      (Some CONNECTION_CREATION_NAME) (Some CONNECTION_CREATION_PAYLOAD_SCHEMA_VERSION)) ;;;
    audit <- AuditControl_Deinit audit ;;
    ret EVENT_COLLECTOR_OK.

Definition ConnectionCreateEventCollector_Deinit (fuel : nat) : M State unit := release_aggregator fuel.

(** ** Specification *)





Context {Laws : MemoryMonitorLaws Mon} {ApLaws : AuparseLaws} {LL : SinglyLinkedListLaws Lib} {LaLaws : LibauditLaws La}.

(** ** Lemmas: payloads *)









(** ** Properties *)

Definition connection_query (h : Host) : Query :=
  search_query h AUDIT_SEARCH_CRITERIA_SYSCALL AUDIT_CONNECTION_CREATION_SYSCALL_CONNECT [AUDIT_CONNECTION_CREATION_SYSCALL_ACCEPT]
    (Some AUDIT_CONNECTION_CREATION_CHECKPOINT_FILE).

(** What the aggregator writes into its events. *)
Definition connection_heading : Heading :=
  mkHeading EVENT_TYPE_SECURITY_VALUE CONNECTION_CREATION_NAME CONNECTION_CREATION_PAYLOAD_SCHEMA_VERSION.



(** When no allocation fails the collector's initialisation fails exactly when the
    control of the audit cannot be opened, and then nothing has changed; otherwise
    the kernel has the one rule about the successful connects and accepts, unless
    libaudit or the kernel refuses it, and the aggregator counts from now on, as a
    collection needs it.  In both cases the process is the user it was and the
    descriptor is closed. *)
Theorem Connection_Init_correct (s : ControlState (X := ConnectionStatics)) :
  reliable (world_of s) -> items_ok (au_ag (cs_audit s)) ->
  exists r s', ConnectionCreateEventCollector_Init s = Some (r, s') /\ host_of s' = host_of s /\ cs_descriptors s' = cs_descriptors s /\
    match r with
    | EVENT_COLLECTOR_OK =>
        control_opens (cs_kernel s) = true /\ exists machine last, uname_machine (cs_kernel s) = Some machine /\
          kernel_rules (cs_kernel s') = kernel_rules (cs_kernel s) ++
            rules_added (cs_kernel s) machine [AUDIT_CONTROL_TYPE_CONNECT; AUDIT_CONTROL_TYPE_ACCEPT] (Some AUDIT_CONTROL_ON_SUCCESS_FILTER) /\
          counting connection_heading EVENT_TYPE_CONNECTION_CREATE last (tt, []) (cs_audit s')
    | _ => r = EVENT_COLLECTOR_EXCEPTION /\ control_opens (cs_kernel s) = false /\ exists n, s' = elapse n s
    end.
Proof.
  intros Hr Hi. unfold ConnectionCreateEventCollector_Init.
  destruct (control_Init_run s Hr) as (r & c & s1 & H1 & Hc). rewrite (bind_eq _ _ _ _ _ H1). destruct r.
  2:{ destruct Hc as (Hno & n & ->). rewrite decide_True by done. eexists _, _. split; [reflexivity|]. do 2 (split; [done|]).
      split; [done|]. split; [done | by exists n]. }
  destruct Hc as (info & machine & -> & Hfd & Hb & Hm & Hctl). rewrite decide_False by tauto. set (fd := audit_open (cs_kernel s)) in *.
  destruct (control_rule_run fd info machine [AUDIT_CONTROL_TYPE_CONNECT; AUDIT_CONTROL_TYPE_ACCEPT] (Some AUDIT_CONTROL_ON_SUCCESS_FILTER)
    s s1 Hr Hb Hctl Hfd) as (r2 & k & n2 & s2 & H2 & Hk & Hs2 & [m ->]). rewrite (bind_eq _ _ _ _ _ H2). clear Hs2 H2.
  set (s2 := set_descriptors _ _).
  destruct (init_aggregator_run EVENT_TYPE_CONNECTION_CREATE EVENT_TYPE_SECURITY_VALUE CONNECTION_CREATION_NAME
    CONNECTION_CREATION_PAYLOAD_SCHEMA_VERSION s2) as (n3 & x & H3 & Hz & Hcnt); [by apply (reliable_bump m) | exact Hi |].
  rewrite (bind_eq _ _ _ _ _ H3). set (last := env_time _ _) in Hcnt.
  set (s0 := mkControlState (set_statics x (cs_audit s)) k (cs_descriptors s)).
  destruct (control_Deinit_run fd info (Some ("arch=" ++ machine)%string) s0
    (mkControlState (set_statics x (elapse n3 (cs_audit s2))) (cs_kernel s2) (cs_descriptors s2))) as (n4 & c & H4);
    [exact Hr | exact Hb | | done |].
  { exists (n3 + m)%nat. unfold s0, s2. destruct s as [[ag [] xx] kk l]. unfold elapse. cbn. by rewrite bump_bump. }
  rewrite (bind_eq _ _ _ _ _ H4). eexists _, _. split; [reflexivity|]. do 2 (split; [done|]).
  split; [by apply (control_opens_true _ machine)|]. exists machine, last. split; [exact Hm|]. split; [exact Hk|].
  destruct Hcnt as (agg & addrs & H). exists agg, addrs. destruct (other_statics x). exact H.
Qed.

(** After an initialisation whose [EventAggregator_Init] failed, which is not
    reported, the static aggregator is null and taken for initialised: every
    collection whose search begins dereferences it, and so does the end of the
    collector. *)
Theorem null_aggregator fuel queue (s : State) z :
  reliable (world_of s) -> au_statics s = mkStatics None true z ->
  (ConnectionCreateEventCollector_GetEvents fuel queue s = None \/
   exists n, ConnectionCreateEventCollector_GetEvents fuel queue s = Some ((EVENT_COLLECTOR_EXCEPTION, queue), elapse n s)) /\
  ConnectionCreateEventCollector_Deinit fuel s = None.
Proof.
  intros Hr Hx. split.
  - unfold ConnectionCreateEventCollector_GetEvents, aggregating_GetEvents, collect_events.
    destruct (search_Init_run AUDIT_SEARCH_CRITERIA_SYSCALL AUDIT_CONNECTION_CREATION_SYSCALL_CONNECT
      [AUDIT_CONNECTION_CREATION_SYSCALL_ACCEPT] (Some AUDIT_CONNECTION_CREATION_CHECKPOINT_FILE) s Hr) as (r & a & s1 & H1 & Hinit).
    destruct r; try done.
    2:{ destruct Hinit as (_ & _ & n & ->). right. exists n. by rewrite bind_assoc, (bind_eq _ _ _ _ _ H1). }
    left. rewrite bind_assoc, (bind_eq _ _ _ _ _ H1).
    destruct Hinit as ([n ->] & Hstart & _). rewrite decide_False by tauto.
    destruct (GetNext_run (connection_query (au_host s)) _ a (with_host (as_root (host_of s)) (elapse n s)) (or_introl Hstart)) as (rn & a1 & H2 & _).
    rewrite bind_assoc, (bind_eq _ _ _ _ _ H2). unfold aggregation_switch, bind, gets. cbn [au_statics with_host audit_has_host snd].
    change (au_statics (elapse n s)) with (au_statics s). by rewrite Hx.
  - unfold ConnectionCreateEventCollector_Deinit, release_aggregator, bind, gets. by by rewrite Hx.
Qed.

End ConnectionCreate.

(** ** Witness *)

(** An outbound connection of the log, and one of another address family. *)
Definition sample_connection (sec : Z) (saddr : string) : AuditEvent :=
  mkAuditEvent (Some (sec, 0))
    [ mkAuditRecord 1300 (Some "type=SYSCALL"%string)
        [ field "syscall" "connect" None; field "saddr" saddr None; field "exe" "/usr/bin/curl" None;
          field "proctitle" "curl" None; field "pid" "812" (Some 812); field "uid" "1000" None ] ].

Definition connection_host : Host :=
  mkHost 1000 1000 (fun _ => ENOENT) (fun _ => true) (fun _ _ => Some 8%nat)
    [sample_connection 1570000001 "020001BBC0A8000A0000000000000000"; sample_connection 1570000002 "01002F746D702F"].




Definition connection_start : ControlState (P := event_parson) (Ap := sample_auparse) (La := sample_libaudit) (X := @AggregatorStatics list_sll unit) :=
  mkControlState (mkAuditState (mkAgState still_store ∅ 0) connection_host (mkStatics None false tt)) [] [].

Lemma Connection_Init_correct_witness :
  exists r s', ConnectionCreateEventCollector_Init connection_start = Some (r, s') /\ cs_descriptors s' = [].
Proof.
  destruct (Connection_Init_correct connection_start) as (r & s' & H & _ & Hd & _); [done | by intros a [x Hx] |].
  exists r, s'. split; [exact H | exact Hd].
Defined.
