(* ===== verification/ProcessCreation.v ===== *)
(** * [collectors/linux/process_creation_collector.c]: processes

    The execution of a program that the audit log has becomes an event, or is
    counted in the aggregator of processes.  The hashes of the programs come from
    the records of the integrity measurement, which the collector keeps in a map
    of the SDK. *)

From S2P Require Import Prelude CString TwinDefs World Utils TimeUtils Parson ParsonModel Json TwinCollectors TwinConfiguration MemoryMonitor Telemetry Queue SyncQueue Schema MessageSerializer GenericEvent Collector EventAggregator FileUtils AuditLog AuditCollector AuditControl AggregatingCollector SdkMap.
From Stdlib Require Import String.
Open Scope Z_scope.

Definition AUDIT_PROCESS_INTEGRITY_TYPE : string := "INTEGRITY_RULE".
Definition AUDIT_PROCESS_CREATION_EXECUTEABLE : string := "exe".
Definition AUDIT_PROCESS_CREATION_EXECUTEABLE_HASH : string := "hash".
Definition AUDIT_PROCESS_CREATION_EXECUTEABLE_PATH : string := "file".
Definition AUDIT_PROCESS_CREATION_USER_ID : string := "uid".
Definition AUDIT_PROCESS_CREATION_PROCESS_ID : string := "pid".
Definition AUDIT_PROCESS_CREATION_PARENT_PROCESS_ID : string := "ppid".
Definition AUDIT_EXECVE_RECORD_TYPE : Z := 1309.
Definition AUDIT_ARGC : string := "argc".
Definition AUDIT_MAX_PARAM_LEN : Z := 10.

Section ProcessCreation.
Context {P : Parson} {Mon : MemoryMonitor} {Lib : SinglyLinkedList} {Ap : Auparse} {La : Libaudit} {Sm : SdkMap}.

(** The statics of the unit: the aggregator and the map of the hashes. *)
Abbreviation ProcessStatics := (AggregatorStatics (Z' := MAP_HANDLE)).
Abbreviation State := (AuditState (X := ProcessStatics)).
Abbreviation PayloadOf := (Payload (X := ProcessStatics)).

Definition executableHashMap (x : ProcessStatics) : MAP_HANDLE := other_statics x.
Definition set_executableHashMap (m : MAP_HANDLE) (x : ProcessStatics) : ProcessStatics :=
  mkStatics (aggregator x) (aggregatorInitialized x) m.

(** ** The command line *)

(** [snprintf(item, sizeof(item), "a%d", i)]. *)
Definition argument_name (i : Z) : string := stake (Z.to_nat (AUDIT_MAX_PARAM_LEN - 1)) ("a" ++ sdec (i32 i)).



(** ** The hashes *)

(** What was read: a pointer is not null exactly when its field was read. *)
Definition read_pointer {A} (r : AuditSearchResultValues) (value : option A) : option A :=
  match r with AUDIT_SEARCH_OK => value | _ => None end.

Definition read_or_absent (r : AuditSearchResultValues) : bool :=
  match r with AUDIT_SEARCH_OK | AUDIT_SEARCH_FIELD_DOES_NOT_EXIST => true | _ => false end.

(** The result of [Map_AddOrUpdate] has no effect. *)
Definition ProcessCreationCollector_AddEntryToExecutableHashMap (auditSearch : AuditSearch)
    : M State (EventCollectorResult * AuditSearch) :=
  let* (result, hash, auditSearch) := on_audit auditSearch (AuditSearch_InterpretString AUDIT_PROCESS_CREATION_EXECUTEABLE_HASH) in
  if negb (read_or_absent result) then ret (EVENT_COLLECTOR_EXCEPTION, auditSearch)
  else
    match read_pointer result hash with
    | None => ret (EVENT_COLLECTOR_OK, auditSearch)
    | Some hash =>
        Hash <- up (Utils_Substring (Some hash) 6 1) ;;
        match Hash with
        | None => ret (EVENT_COLLECTOR_EXCEPTION, auditSearch)
        | Some Hash =>
            let* (result, executable, auditSearch) :=
              on_audit auditSearch (AuditSearch_InterpretString AUDIT_PROCESS_CREATION_EXECUTEABLE_PATH) in
            if negb (read_or_absent result) then ret (EVENT_COLLECTOR_EXCEPTION, auditSearch)
            else
              modify (fun s => set_statics
                (set_executableHashMap (snd (Map_AddOrUpdate (executableHashMap (au_statics s)) (read_pointer result executable) Hash))
                   (au_statics s)) s) ;;;
              ret (EVENT_COLLECTOR_OK, auditSearch)
        end
    end.

(** ** Payload and events *)







Definition process_tolerated (result : EventCollectorResult) : bool :=
  match result with
  | EVENT_COLLECTOR_OK | EVENT_COLLECTOR_RECORD_HAS_ERRORS | EVENT_COLLECTOR_OUT_OF_MEM => true
  | _ => false
  end.


(** ** Initialisation *)

(** The loop over the integrity records; [result] is that of the record before.
    A search that fails ends the loop without an error. *)
Fixpoint populate_loop (fuel : nat) (hasNextResult : AuditSearchResultValues) (result : EventCollectorResult) (auditSearch : AuditSearch)
    : M State (EventCollectorResult * AuditSearch) :=
  match hasNextResult with
  | AUDIT_SEARCH_HAS_MORE_DATA =>
      match fuel with
      | O => undefined
      | S fuel =>
          let* (result, auditSearch) := ProcessCreationCollector_AddEntryToExecutableHashMap auditSearch in
          if decide (result <> EVENT_COLLECTOR_OK) then ret (result, auditSearch)
          else
            let* (hasNextResult, auditSearch) := AuditSearch_GetNext auditSearch in
            populate_loop fuel hasNextResult result auditSearch
      end
  | _ => ret (result, auditSearch)
  end.

Definition ProcessCreationCollector_PopulateExecutableHashMap (fuel : nat) : M State EventCollectorResult :=
  created <- up fallible ;;
  modify (fun s => set_statics (set_executableHashMap (if created : bool then Some map_empty else None) (au_statics s)) s) ;;;
  if negb created then ret EVENT_COLLECTOR_EXCEPTION
  else
    let* (r, auditSearch) := AuditSearch_Init AUDIT_SEARCH_CRITERIA_TYPE AUDIT_PROCESS_INTEGRITY_TYPE None in
    if decide (r <> AUDIT_SEARCH_OK) then ret EVENT_COLLECTOR_EXCEPTION
    else
      let* (hasNextResult, auditSearch) := AuditSearch_GetNext auditSearch in
      let* (result, auditSearch) := populate_loop fuel hasNextResult EVENT_COLLECTOR_OK auditSearch in
      auditSearch <- AuditSearch_Deinit auditSearch ;;
      ret result.

(** A rule that cannot be added, an aggregator that cannot be created and an
    empty map are logged. *)
Definition ProcessCreationCollector_Init (fuel : nat) : M (ControlState (X := ProcessStatics)) EventCollectorResult :=
  let* (r, audit) := AuditControl_Init in
  if decide (r <> AUDIT_CONTROL_OK) then ret EVENT_COLLECTOR_EXCEPTION
  else
    r <- AuditControl_AddRule audit [AUDIT_CONTROL_TYPE_EXECVE; AUDIT_CONTROL_TYPE_EXECVEAT] None ;;
    init_aggregator (mkAggregatorConfiguration EVENT_TYPE_PROCESS_CREATE (Some EVENT_TYPE_SECURITY_VALUE)
      (Some PROCESS_CREATION_NAME) (Some PROCESS_CREATION_PAYLOAD_SCHEMA_VERSION)) ;;;
    populated <- in_audit (ProcessCreationCollector_PopulateExecutableHashMap fuel) ;;
    x <- gets (fun s => au_statics (cs_audit s)) ;;
    let result :=
      if decide (populated <> EVENT_COLLECTOR_OK) then EVENT_COLLECTOR_EXCEPTION
      else match Utils_GetMapSize (executableHashMap x) with Some _ => EVENT_COLLECTOR_OK | None => EVENT_COLLECTOR_EXCEPTION end in
    audit <- AuditControl_Deinit audit ;;
    ret result.

(** The map is destroyed; the static handle still points to it. *)
Definition ProcessCreationCollector_Deinit (fuel : nat) : M State unit := release_aggregator fuel.

(** ** Specification *)

(** The records from the first one that has a command line on.  A record without
    a type ends the search. *)
Fixpoint command_records (l : list AuditRecord) : option (AuditRecord * list AuditRecord) :=
  match l with
  | [] => None
  | record :: l' =>
      if rec_type record =? 0 then None
      else if rec_type record =? AUDIT_EXECVE_RECORD_TYPE then Some (record, l) else command_records l'
  end.

(** [count] arguments from number [i] on, read one after the other. *)
Fixpoint arguments_from (count : nat) (i : Z) (l : list AuditField) : option (list string) :=
  match count with
  | O => Some []
  | S count =>
      match read_from f_interpreted l (argument_name i) with
      | (AUDIT_SEARCH_OK, Some arg) =>
          args ← arguments_from count (u32 (i + 1)) (find_from (argument_name i) l);
          Some (arg :: args)
      | _ => None
      end
  end.

(** The number of arguments of an event, and the arguments. *)
Definition argument_count (e : AuditEvent) : option Z :=
  r ← command_records (ev_records e);
  match read_from f_int (all_fields (snd r)) AUDIT_ARGC with
  | (AUDIT_SEARCH_OK, Some n) => Some (u32 n)
  | _ => None
  end.

Definition event_arguments (e : AuditEvent) : option (list string) :=
  r ← command_records (ev_records e);
  n ← argument_count e;
  arguments_from (Z.to_nat n) 0 (find_from AUDIT_ARGC (all_fields (snd r))).

(** The arguments with blanks between them, when they are shorter than the text
    of their record. *)
Definition command_line (e : AuditEvent) : option string :=
  r ← command_records (ev_records e);
  text ← rec_text (fst r);
  args ← event_arguments e;
  if strlen (String.concat " " args) <? u32 (strlen text) then Some (String.concat " " args) else None.


Definition plan_command_line (e : AuditEvent) : Plan (X := MAP_HANDLE) := fun z =>
  match command_line e with
  | Some line => ([Plain (PROCESS_CREATION_COMMAND_LINE_KEY, FString line)], EVENT_COLLECTOR_OK, z)
  | None => ([], EVENT_COLLECTOR_EXCEPTION, z)
  end.

(** The hash without the seven characters around it. *)
Definition clean_hash (hash : string) : option string :=
  let len := u32 (strlen hash) in
  if (len <=? 6) || (len <=? 1) || (len <=? 7) then None else Some (substring_copy (Z.to_nat (u32 (len - 6 - 1 + 1) - 1)) 6 hash).

(** The map after the event: its hash, under the name of its file. *)
Definition record_hash (e : AuditEvent) (z : MAP_HANDLE) : EventCollectorResult * MAP_HANDLE :=
  match read_field f_interpreted e AUDIT_PROCESS_CREATION_EXECUTEABLE_HASH with
  | (AUDIT_SEARCH_OK, Some hash) =>
      match clean_hash hash with
      | None => (EVENT_COLLECTOR_EXCEPTION, z)
      | Some Hash =>
          match read_field f_interpreted e AUDIT_PROCESS_CREATION_EXECUTEABLE_PATH with
          | (AUDIT_SEARCH_OK, Some executable) => (EVENT_COLLECTOR_OK, snd (Map_AddOrUpdate z (Some executable) Hash))
          | (AUDIT_SEARCH_FIELD_DOES_NOT_EXIST, _) => (EVENT_COLLECTOR_OK, z)
          | _ => (EVENT_COLLECTOR_EXCEPTION, z)
          end
      end
  | (AUDIT_SEARCH_FIELD_DOES_NOT_EXIST, _) => (EVENT_COLLECTOR_OK, z)
  | _ => (EVENT_COLLECTOR_EXCEPTION, z)
  end.

Definition plan_hash (e : AuditEvent) : Plan (X := MAP_HANDLE) := fun z => let '(r, z) := record_hash e z in ([], r, z).

Definition plan_details (executable : string) : Plan (X := MAP_HANDLE) := fun z =>
  ([Nested EXTRA_DETAILS_KEY [(PROCESS_CREATION_EXECUTABLE_HASH_KEY, FString (default EmptyString (Map_GetValueFromKey z executable)))]],
   EVENT_COLLECTOR_OK, z).

(** The payload of a process, or why it is rejected. *)
Definition process_plan (e : AuditEvent) : Plan (X := MAP_HANDLE) := fun z =>
  match read_field f_interpreted e AUDIT_PROCESS_CREATION_EXECUTEABLE with
  | (AUDIT_SEARCH_OK, Some executable) =>
      plan_then (plan_entries [Plain (PROCESS_CREATION_EXECUTABLE_KEY, FString executable)])
      (plan_then (plan_command_line e)
      (plan_then (plan_value f_str FString e AUDIT_PROCESS_CREATION_USER_ID PROCESS_CREATION_USER_ID_KEY false)
      (plan_then (plan_value f_int FInt e AUDIT_PROCESS_CREATION_PROCESS_ID PROCESS_CREATION_PROCESS_ID_KEY false)
      (plan_then (plan_value f_int FInt e AUDIT_PROCESS_CREATION_PARENT_PROCESS_ID PROCESS_CREATION_PARENT_PROCESS_ID_KEY false)
      (plan_then (plan_hash e)
      (plan_details executable)))))) z
  | _ => ([], EVENT_COLLECTOR_EXCEPTION, z)
  end.


Context {Laws : MemoryMonitorLaws Mon} {ApLaws : AuparseLaws} {LL : SinglyLinkedListLaws Lib} {LaLaws : LibauditLaws La}.

(** ** Lemmas: the command line *)



(** A call on the library, with the state of the library after it. *)
Lemma on_audit_at {A} q e todo auditSearch a (f : Au -> A * Au) x a' (s : State) :
  visiting q e todo auditSearch -> audit auditSearch = Some a -> f a = (x, a') -> stays a a' ->
  on_audit auditSearch f s = Some ((x, set_audit a' auditSearch), s) /\ visiting q e todo (set_audit a' auditSearch) /\
    same_search auditSearch (set_audit a' auditSearch) /\ audit (set_audit a' auditSearch) = Some a' /\ v_event (view a') = Some e.
Proof.
  intros (a0 & Ha0 & Hq & He & Hf & Ht) Ha Hfa (Sq & Se & Sl). assert (a0 = a) as -> by congruence.
  unfold on_audit, bind. rewrite Ha. cbn. rewrite Hfa. split; [done|]. split; [|split; [done|split; [done | congruence]]].
  exists a'. split; [done|]. by rewrite Sq, Se, Sl.
Qed.









(** ** Lemmas: the payload *)




Lemma Substring_run s (x : State) : reliable (world_of x) ->
  exists n, up (Utils_Substring (Some s) 6 1) x = Some (clean_hash s, elapse n x).
Proof.
  intros Hr. unfold clean_hash.
  destruct ((u32 (strlen s) <=? 6) || (u32 (strlen s) <=? 1) || (u32 (strlen s) <=? 7)) eqn:E.
  - exists 0%nat. apply up_bump. unfold Utils_Substring. change (u32 (6 + 1)) with 7. rewrite E. by rewrite bump_0.
  - exists 1%nat. apply up_bump. unfold Utils_Substring. change (u32 (6 + 1)) with 7. rewrite E.
    by rewrite (bind_eq _ _ _ _ _ (malloc_reliable _ Hr)).
Qed.

(** A field of the current event is interpreted. *)
Lemma interpret_run q e todo auditSearch name (s : State) : visiting q e todo auditSearch ->
  exists x auditSearch', on_audit auditSearch (AuditSearch_InterpretString name) s =
      Some (((read_field f_interpreted e name).1, x, auditSearch'), s) /\
    visiting q e todo auditSearch' /\ same_search auditSearch auditSearch' /\
    read_pointer (read_field f_interpreted e name).1 x =
      match read_field f_interpreted e name with (AUDIT_SEARCH_OK, v) => v | _ => None end.
Proof.
  intros Hv. pose proof Hv as (a & Ha & _ & He & _).
  destruct (read_of_interpreted e name a He) as (x & a' & Hst & Hrun & Hx).
  destruct (on_audit_at q e todo auditSearch a _ _ a' s Hv Ha Hrun Hst) as (E & Hv' & Hs' & _).
  exists x, (set_audit a' auditSearch). split; [exact E|]. do 2 (split; [done|]).
  destruct (read_field f_interpreted e name) as [[] v]; cbn in *; try done. by rewrite (Hx eq_refl).
Qed.

(** The hash of the event goes into the map. *)
Lemma AddEntry_run q e todo auditSearch (s : State) : reliable (world_of s) -> visiting q e todo auditSearch ->
  exists auditSearch' n, ProcessCreationCollector_AddEntryToExecutableHashMap auditSearch s =
      Some (((record_hash e (executableHashMap (au_statics s))).1, auditSearch'),
        set_statics (set_executableHashMap (record_hash e (executableHashMap (au_statics s))).2 (au_statics s)) (elapse n s)) /\
    visiting q e todo auditSearch' /\ same_search auditSearch auditSearch'.
Proof.
  intros Hr Hv. unfold ProcessCreationCollector_AddEntryToExecutableHashMap, record_hash.
  assert (Hkeep : forall n, elapse n s = set_statics (set_executableHashMap (executableHashMap (au_statics s)) (au_statics s)) (elapse n s))
    by (intros n; by destruct s as [? ? []]).
  destruct (interpret_run q e todo auditSearch AUDIT_PROCESS_CREATION_EXECUTEABLE_HASH s Hv) as (x & as1 & H1 & Hv1 & Hs1 & Hp).
  rewrite (bind_eq _ _ _ _ _ H1), Hp. clear H1 Hp.
  destruct (read_field f_interpreted e AUDIT_PROCESS_CREATION_EXECUTEABLE_HASH) as [r v] eqn:Er. cbn [fst].
  destruct r; cbn [read_or_absent negb]; try (exists as1, 0%nat; cbn [fst snd]; rewrite <- Hkeep, elapse_0; by split).
  destruct (read_field_value _ _ _ _ Er) as [hash ->].
  destruct (Substring_run hash s Hr) as [n Hsub]. rewrite (bind_eq _ _ _ _ _ Hsub).
  destruct (clean_hash hash) as [Hash|]; [|exists as1, n; cbn [fst snd]; rewrite <- Hkeep; by split].
  destruct (interpret_run q e todo as1 AUDIT_PROCESS_CREATION_EXECUTEABLE_PATH (elapse n s) Hv1) as (x2 & as2 & H2 & Hv2 & Hs2 & Hp2).
  rewrite (bind_eq _ _ _ _ _ H2), Hp2. clear H2 Hp2. assert (Hs12 : same_search auditSearch as2) by (by eapply same_search_trans).
  destruct (read_field f_interpreted e AUDIT_PROCESS_CREATION_EXECUTEABLE_PATH) as [r v] eqn:Er2. cbn [fst].
  destruct r; cbn [read_or_absent negb]; try (exists as2, n; cbn [fst snd]; rewrite <- Hkeep; by split).
  - destruct (read_field_value _ _ _ _ Er2) as [path ->]. exists as2, n. by split.
  - exists as2, n. cbn [fst snd]. unfold modify, bind, ret. split; [|by split].
    change (au_statics (elapse n s)) with (au_statics s). by destruct (executableHashMap (au_statics s)) eqn:Em.
Qed.





(** ** The hashes of the log *)

(** The hashes of these events one after the other, up to the first that cannot be recorded. *)
Fixpoint record_hashes (l : list AuditEvent) (z : MAP_HANDLE) : EventCollectorResult * MAP_HANDLE :=
  match l with
  | [] => (EVENT_COLLECTOR_OK, z)
  | e :: l =>
      match record_hash e z with
      | (EVENT_COLLECTOR_OK, z) => record_hashes l z
      | stopped => stopped
      end
  end.

Lemma same_map (s : State) : set_statics (set_executableHashMap (executableHashMap (au_statics s)) (au_statics s)) s = s.
Proof. by destruct s as [? ? []]. Qed.

Lemma populate_loop_run q fuel : forall todo hasNextResult a (s : State),
  reliable (world_of s) -> found q todo hasNextResult a -> (List.length todo <= fuel)%nat ->
  exists r z a' n recorded left, populate_loop fuel hasNextResult EVENT_COLLECTOR_OK a s =
      Some ((r, a'), set_statics (set_executableHashMap z (au_statics s)) (elapse n s)) /\
    same_search a a' /\ todo = recorded ++ left /\ record_hashes recorded (executableHashMap (au_statics s)) = (r, z) /\
    (r = EVENT_COLLECTOR_OK -> left = [] \/ search_breaks q left).
Proof.
  induction fuel as [|fuel IH]; intros todo hasNextResult a s Hr Hfound Hl.
  all: destruct hasNextResult; cbn [found] in Hfound; try done; cbn [populate_loop].
  all: try (exists EVENT_COLLECTOR_OK, (executableHashMap (au_statics s)), a, 0%nat, [], todo; rewrite elapse_0, same_map;
    do 4 (split; [done|]); first [by left | by right]).
  all: destruct Hfound as (e & todo' & -> & Hv); cbn [List.length] in Hl; try lia.
  destruct (AddEntry_run q e todo' a s Hr Hv) as (a1 & n & H1 & Hv1 & Hs1). rewrite (bind_eq _ _ _ _ _ H1).
  destruct (record_hash e (executableHashMap (au_statics s))) as [r z] eqn:Ee. cbn [fst snd] in *. case_decide as Hd.
  { exists r, z, a1, n, [e], todo'. do 3 (split; [done|]). cbn [record_hashes]. rewrite Ee. split; [by destruct r | done]. }
  assert (r = EVENT_COLLECTOR_OK) as -> by (destruct (decide (r = EVENT_COLLECTOR_OK)); tauto).
  set (s1 := set_statics _ _). destruct (GetNext_run q todo' a1 s1) as (rn & a2 & H2 & Hs2 & _ & Hnext); [by right; exists e|].
  rewrite (bind_eq _ _ _ _ _ H2).
  destruct (IH todo' rn a2 s1) as (r2 & z2 & a3 & m & recorded & left & H3 & Hs3 & -> & Hz & Hleft); [by apply (reliable_bump n) | exact Hnext | lia |].
  exists r2, z2, a3, (m + n)%nat, (e :: recorded), left. split; [|split; [by repeat (eapply same_search_trans; [done|])|]].
  - rewrite H3. unfold s1, elapse. destruct s as [ag h [? ? ?]]. cbn. by rewrite bump_bump.
  - split; [done|]. cbn [record_hashes]. rewrite Ee. by split.
Qed.

Definition measurement_query (h : Host) : Query :=
  search_query h AUDIT_SEARCH_CRITERIA_TYPE AUDIT_PROCESS_INTEGRITY_TYPE [] None.

(** The map has been created; it is empty when the library refuses the search.
    Otherwise it has the hashes of the measurements of the log up to the first
    that cannot be recorded.  A library that breaks the search off before the end
    leaves out the rest of the log without a sign. *)
Definition populated (h : Host) (r : EventCollectorResult) (z : MAP_HANDLE) : Prop :=
  search_refused h AUDIT_SEARCH_CRITERIA_TYPE [AUDIT_PROCESS_INTEGRITY_TYPE] None = true /\
    r = EVENT_COLLECTOR_EXCEPTION /\ z = Some map_empty \/
  exists recorded left, sought (measurement_query h) (log_events (host_log h)) = recorded ++ left /\
    record_hashes recorded (Some map_empty) = (r, z) /\
    (r = EVENT_COLLECTOR_OK -> left = [] \/ search_breaks (measurement_query h) left).

Lemma Populate_run fuel (s : State) :
  reliable (world_of s) -> (List.length (log_events (host_log (au_host s))) <= fuel)%nat ->
  exists r z n, ProcessCreationCollector_PopulateExecutableHashMap fuel s =
      Some (r, set_statics (set_executableHashMap z (au_statics s)) (elapse n s)) /\ populated (au_host s) r z.
Proof.
  intros Hr Hfuel. unfold ProcessCreationCollector_PopulateExecutableHashMap.
  rewrite (bind_eq _ _ _ _ _ (up_fallible_run _ Hr)). unfold modify. unfold bind at 1. cbn [negb].
  set (s1 := set_statics _ _). assert (Hr1 : reliable (world_of s1)) by (by apply (reliable_bump 1)). unfold AuditSearch_Init.
  destruct (search_Init_run AUDIT_SEARCH_CRITERIA_TYPE AUDIT_PROCESS_INTEGRITY_TYPE [] None s1 Hr1) as (r & a & s2 & H2 & Hinit).
  rewrite (bind_eq _ _ _ _ _ H2). destruct r; try done.
  2:{ destruct Hinit as (_ & Hno & n & ->). rewrite decide_True by done. exists EVENT_COLLECTOR_EXCEPTION, (Some map_empty), (n + 1)%nat.
      split; [|left; by split]. unfold s1, elapse, ret. destruct s as [ag h [? ? ?]]. cbn. by rewrite bump_bump. }
  destruct Hinit as ([n ->] & Hstart & _ & _ & Hback). rewrite decide_False by tauto.
  change (host_of s1) with (au_host s) in *. fold (measurement_query (au_host s)) in Hstart.
  set (todo := sought _ _) in Hstart. set (s2 := with_host _ _).
  destruct (GetNext_run _ todo a s2 (or_introl Hstart)) as (rn & a1 & H3 & Hs1 & _ & Hnext). rewrite (bind_eq _ _ _ _ _ H3).
  destruct (populate_loop_run (measurement_query (au_host s)) fuel todo rn a1 s2) as (r & z & a2 & m & recorded & left & H4 & Hs2 & Htodo & Hz & Hleft);
    [by apply (reliable_bump n) | exact Hnext | pose proof (sought_length (measurement_query (au_host s)) (log_events (host_log (au_host s)))); unfold todo; lia |].
  rewrite (bind_eq _ _ _ _ _ H4). set (s3 := set_statics _ _).
  assert (Hs02 : same_search a a2) by (by eapply same_search_trans). destruct Hs02 as (_ & _ & Hp).
  destruct (search_Deinit_run a2 s3 (au_host s)) as (k & a3 & H5 & _ & _); [by apply (reliable_bump m), (reliable_bump n) | by rewrite Hp | done |].
  rewrite (bind_eq _ _ _ _ _ H5). exists r, z, (k + (m + (n + 1)))%nat. split.
  - rewrite <- !elapse_elapse. unfold s3, s2, s1. by destruct s as [ag [] [? ? ?]].
  - right. by exists recorded, left.
Qed.

Lemma record_hashes_map l : forall m, exists r m', record_hashes l (Some m) = (r, Some m').
Proof.
  induction l as [|e l IH]; intros m; cbn [record_hashes]; [by eexists _, _|].
  assert (H : exists r m', record_hash e (Some m) = (r, Some m')).
  { unfold record_hash. destruct (read_field f_interpreted e AUDIT_PROCESS_CREATION_EXECUTEABLE_HASH) as [[] [h|]]; try by eexists _, _.
    destruct (clean_hash h); [|by eexists _, _].
    destruct (read_field f_interpreted e AUDIT_PROCESS_CREATION_EXECUTEABLE_PATH) as [[] [p|]]; try by eexists _, _.
    cbn. destruct (map_add_or_update m p s) as [r m']. by exists EVENT_COLLECTOR_OK, m'. }
  destruct H as (r & m' & ->). destruct r; try by eexists _, _. apply IH.
Qed.

Lemma populated_map h r z : populated h r z -> exists m, z = Some m.
Proof.
  intros [(_ & _ & ->)|(recorded & left & _ & H & _)]; [by eexists|].
  destruct (record_hashes_map recorded map_empty) as (r' & m & H'). rewrite H' in H. injection H as _ <-. by exists m.
Qed.

(** ** Properties *)


Definition process_heading : Heading :=
  mkHeading EVENT_TYPE_SECURITY_VALUE PROCESS_CREATION_NAME PROCESS_CREATION_PAYLOAD_SCHEMA_VERSION.



(** An event of the integrity measurement, which has no record of a command line,
    is looked for and ends the collection, unless its map entry is what fails. *)
Lemma integrity_stops e z : command_records (ev_records e) = None ->
  (process_plan e z).1.2 = EVENT_COLLECTOR_EXCEPTION /\ process_tolerated (process_plan e z).1.2 = false.
Proof.
  intros H. unfold process_plan. destruct (read_field f_interpreted e AUDIT_PROCESS_CREATION_EXECUTEABLE) as [[] [v|]]; try done.
  unfold plan_then, plan_entries, plan_command_line, command_line. by rewrite H.
Qed.

(** C13: When no allocation fails the collector's initialisation fails and changes
    nothing exactly when the control of the audit cannot be opened.  Otherwise the
    kernel has one more rule, about the executions, unless libaudit or the kernel
    refuses it; the aggregator counts from now on; and the map has the hashes of
    the measurements of the log, in their order.  It has all of them when no
    error is reported, unless the library broke the search off, which is not
    reported; it has those before the first that cannot be recorded, which is
    reported, and none when the library refuses the search.  In all cases the
    process is the user it was and the descriptor is closed. *)
Theorem Process_Init_correct fuel (s : ControlState (X := ProcessStatics)) :
  reliable (world_of s) -> items_ok (au_ag (cs_audit s)) -> (List.length (log_events (host_log (host_of s))) <= fuel)%nat ->
  exists r s', ProcessCreationCollector_Init fuel s = Some (r, s') /\ host_of s' = host_of s /\ cs_descriptors s' = cs_descriptors s /\
    (control_opens (cs_kernel s) = false /\ r = EVENT_COLLECTOR_EXCEPTION /\ (exists n, s' = elapse n s) \/
     control_opens (cs_kernel s) = true /\ exists machine last rm m, uname_machine (cs_kernel s) = Some machine /\
       kernel_rules (cs_kernel s') = kernel_rules (cs_kernel s) ++
         rules_added (cs_kernel s) machine [AUDIT_CONTROL_TYPE_EXECVE; AUDIT_CONTROL_TYPE_EXECVEAT] None /\
       counting process_heading EVENT_TYPE_PROCESS_CREATE last (Some m, []) (cs_audit s') /\ populated (host_of s) rm (Some m) /\
       r = if decide (rm = EVENT_COLLECTOR_OK /\ map_count m <> None) then EVENT_COLLECTOR_OK else EVENT_COLLECTOR_EXCEPTION).
Proof.
  intros Hr Hi Hfuel. unfold ProcessCreationCollector_Init.
  destruct (control_Init_run s Hr) as (r & c & s1 & H1 & Hc). rewrite (bind_eq _ _ _ _ _ H1). destruct r.
  2:{ destruct Hc as (Hno & n & ->). rewrite decide_True by done. eexists _, _. split; [reflexivity|]. do 2 (split; [done|]). left.
      split; [done|]. split; [done | by exists n]. }
  destruct Hc as (info & machine & -> & Hfd & Hb & Hm & Hctl). rewrite decide_False by tauto. set (fd := audit_open (cs_kernel s)) in *.
  destruct (control_rule_run fd info machine [AUDIT_CONTROL_TYPE_EXECVE; AUDIT_CONTROL_TYPE_EXECVEAT] None
    s s1 Hr Hb Hctl Hfd) as (r2 & k & n2 & s2 & H2 & Hk & Hs2 & [m ->]). rewrite (bind_eq _ _ _ _ _ H2). clear Hs2 H2.
  set (s2 := set_descriptors _ _).
  destruct (init_aggregator_run EVENT_TYPE_PROCESS_CREATE EVENT_TYPE_SECURITY_VALUE PROCESS_CREATION_NAME
    PROCESS_CREATION_PAYLOAD_SCHEMA_VERSION s2) as (n3 & x & H3 & Hz & Hcnt); [by apply (reliable_bump m) | exact Hi |].
  rewrite (bind_eq _ _ _ _ _ H3). set (last := env_time _ _) in Hcnt.
  set (s3 := set_statics x _) in Hcnt. destruct (Populate_run fuel s3) as (rm & z & n5 & H5 & Hpop);
    [by apply (reliable_bump n3), (reliable_bump m) | exact Hfuel |].
  assert (H6 : in_audit (ProcessCreationCollector_PopulateExecutableHashMap fuel) (mkControlState s3 (cs_kernel s2) (cs_descriptors s2)) =
    Some (rm, mkControlState (set_statics (set_executableHashMap z x) (elapse n5 s3)) (cs_kernel s2) (cs_descriptors s2)))
    by (unfold in_audit; cbn [cs_audit]; by rewrite H5).
  rewrite (bind_eq _ _ _ _ _ H6). unfold gets. unfold bind at 1.
  destruct (populated_map _ _ _ Hpop) as [mm ->]. cbn [cs_audit au_statics set_statics executableHashMap other_statics set_executableHashMap].
  set (result := if decide _ then _ else _).
  set (s0 := mkControlState (set_statics (set_executableHashMap (Some mm) x) (cs_audit s)) k (cs_descriptors s)).
  destruct (control_Deinit_run fd info (Some ("arch=" ++ machine)%string) s0
    (mkControlState (set_statics (set_executableHashMap (Some mm) x) (elapse n5 s3)) (cs_kernel s2) (cs_descriptors s2))) as (n4 & c & H4);
    [exact Hr | exact Hb | | done |].
  { exists (n5 + (n3 + m))%nat. rewrite <- !elapse_elapse. unfold s0, s3, s2. by destruct s as [[ag [] xx] kk l]. }
  rewrite (bind_eq _ _ _ _ _ H4). eexists _, _. split; [reflexivity|]. do 2 (split; [done|]). right.
  split; [by apply (control_opens_true _ machine)|]. exists machine, last, rm, mm. split; [exact Hm|]. split; [exact Hk|]. split.
  - destruct Hcnt as (agg & addrs & Hx & H). exists agg, addrs. cbn in Hx |- *. rewrite Hx. split; [done | exact H].
  - split; [exact Hpop|]. unfold result, Utils_GetMapSize. cbn [mbind option_bind].
    destruct (map_count mm); repeat case_decide; try done; intuition congruence.
Qed.

End ProcessCreation.

(** ** Witness *)

(** The execution of [ls -l], and the hash of a program. *)
Definition sample_process : AuditEvent :=
  mkAuditEvent (Some (1570000001, 0))
    [ mkAuditRecord 1300 (Some "type=SYSCALL"%string)
        [ field "exe" "/bin/ls" None; field "uid" "1000" None; field "pid" "812" (Some 812); field "ppid" "811" (Some 811) ];
      mkAuditRecord AUDIT_EXECVE_RECORD_TYPE (Some "type=EXECVE argc=2 a0=ls a1=-l"%string)
        [ field "type" "EXECVE" None; field "argc" "2" (Some 2); field "a0" "ls" None; field "a1" "-l" None ] ].

Definition sample_measurement : AuditEvent :=
  mkAuditEvent (Some (1570000002, 0))
    [ mkAuditRecord 1805 (Some "type=INTEGRITY_RULE"%string)
        [ field "type" "INTEGRITY_RULE" None; field "file" "/bin/ls" None; field "hash" "'sha1:0123'" None ] ].

Definition process_host : Host :=
  mkHost 1000 1000 (fun _ => ENOENT) (fun _ => true) (fun _ _ => Some 8%nat) [sample_process; sample_measurement].

Example sample_command_line : command_line sample_process = Some "ls -l"%string.
Proof. vm_compute. reflexivity. Qed.

Example sample_hash : (record_hash (Sm := sample_map) sample_measurement (Some ∅)).2 = Some {[ "/bin/ls" := "0123" ]}%string.
Proof. vm_compute. reflexivity. Qed.




Definition process_start : ControlState (P := event_parson) (Ap := sample_auparse) (La := sample_libaudit)
    (X := @AggregatorStatics list_sll (MAP_HANDLE (Sm := sample_map))) :=
  mkControlState (mkAuditState (mkAgState still_store ∅ 0) process_host (mkStatics None false None)) [] [].

Lemma Process_Init_correct_witness :
  exists s', ProcessCreationCollector_Init 2 process_start = Some (EVENT_COLLECTOR_OK, s') /\ cs_descriptors s' = [] /\
    cs_kernel s' = [rule_for "x86_64" [AUDIT_CONTROL_TYPE_EXECVE; AUDIT_CONTROL_TYPE_EXECVEAT] None] /\
    executableHashMap (Sm := sample_map) (au_statics (cs_audit s')) = Some {[ "/bin/ls" := "0123" ]}%string.
Proof.
  destruct (Process_Init_correct 2 process_start) as (r & s' & H & _ & Hd & Hend); [done | by intros a [x Hx] | by vm_compute; repeat constructor |].
  exists s'. destruct Hend as [[Hno _]|(_ & machine & _ & _ & _ & Hm & Hk & _)]; [by vm_compute in Hno|].
  assert (E : option_map (fun p => (p.1, executableHashMap (Sm := sample_map) (au_statics (cs_audit p.2))))
    (ProcessCreationCollector_Init 2 process_start) = Some (EVENT_COLLECTOR_OK, Some {[ "/bin/ls" := "0123" ]}%string)) by (vm_compute; reflexivity).
  rewrite H in E. apply (inj Some) in E. apply pair_equal_spec in E as [E1 E2]. cbn [fst] in E1. rewrite E1 in H.
  split; [exact H|]. split; [exact Hd|]. split; [|exact E2]. apply (inj Some) in Hm. subst machine. exact Hk.
Defined.
