(* ===== verification/Iptables.v ===== *)
(** * [os_utils/linux/iptables]: the texts of a firewall rule

    The addresses, ports and the protocol of an entry of an iptables table are
    written into the buffer of the caller.  An entry is what the kernel lays out
    in memory: a header with the addresses, then matches of various sizes up to
    the offset of its target.  How the data of a match is laid out is a parameter;
    the constants of the kernel's headers are those of Linux. *)

From S2P Require Import Prelude CString Utils.
From Stdlib Require Import String Ascii.
Open Scope Z_scope.

(** ** [iptables_def.h] and [iptables_def.c] *)

Inductive IptablesResults : Type :=
  | IPTABLES_OK
  | IPTABLES_NO_DATA
  | IPTABLES_ITERATOR_HAS_NEXT
  | IPTABLES_ITERATOR_NO_MORE_ITEMS
  | IPTABLES_EXCEPTION.

#[export] Instance IptablesResults_eq : EqDecision IptablesResults.
Proof. solve_decision. Defined.

Inductive IptablesActionType : Type := IPTABLES_ACTION_ALLOW | IPTABLES_ACTION_DENY | IPTABLES_ACTION_OTHER.

#[export] Instance IptablesActionType_eq : EqDecision IptablesActionType.
Proof. solve_decision. Defined.

Definition IPTABLES_NEGATE : string := "!".
Definition IPTABLES_EMPTY : string := "".
Definition IPTABLES_NEGATE_EXPRESSION_START : string := "!(".
Definition IPTABLES_NEGATE_EXPRESSION_END : string := ")".
Definition IPTABLES_IPRANGE_MATCH : string := "iprange".
Definition IPTABLES_TCP_MATCH : string := "tcp".
Definition IPTABLES_MULTIPORT_MATCH : string := "multiport".
Definition IPTABLES_ACCEPT_VERDICT : string := "ACCEPT".
Definition IPTABLES_REJECT_VERDICT : string := "REJECT".
Definition IPTABLES_DROP_VERDICT : string := "DROP".

(** [ntohl] of a little-endian machine. *)
Definition ntohl (n : Z) : Z :=
  Z.lor (Z.shiftl (Z.land n 255) 24) (Z.lor (Z.shiftl (Z.land (Z.shiftr n 8) 255) 16)
    (Z.lor (Z.shiftl (Z.land (Z.shiftr n 16) 255) 8) (Z.land (Z.shiftr n 24) 255))).

(** The format [%u.%u.%u.%u] of the four numbers of [IP_BYTES]. *)
Definition IP_BYTES_RAW (n : Z) : list Z :=
  [Z.land (Z.shiftr n 24) 255; Z.land (Z.shiftr n 16) 255; Z.land (Z.shiftr n 8) 255; Z.land n 255].

Definition IP_BYTES (n : Z) : list Z := IP_BYTES_RAW (ntohl n).

Definition dotted (l : list Z) : string := String.concat "." (map udec l).

(** ** [iptables_utils.c] *)

Definition IPTABLES_TCP_PROTOCOL : string := "tcp".
Definition IPTABLES_UDP_PROTOCOL : string := "udp".
Definition IPTABLES_ICMP_PROTOCOL : string := "icmp".
Definition MIN_PORT : Z := 0.
Definition MAX_PORT : Z := 65535.
Definition IPPROTO_ICMP : Z := 1.
Definition IPPROTO_TCP : Z := 6.
Definition IPPROTO_UDP : Z := 17.

(** A text that is written when it fits. *)
Definition write_text (buffer : Buffer) (text : string) : IptablesResults * Buffer :=
  let '(ok, buffer) := Utils_ConcatenateToString buffer text in
  (if ok : bool then IPTABLES_OK else IPTABLES_EXCEPTION, buffer).

(** The loop that looks for the mask: [None] when [foundMask] stays false. *)
Fixpoint find_mask (rounds : nat) (mask tmpMask i : Z) : option Z :=
  match rounds with
  | O => None
  | S rounds => if tmpMask =? mask then Some i else find_mask rounds mask (u32 (Z.shiftl tmpMask 1)) (i + 1)
  end.

Definition IptablesUtils_FormatIp (ip mask : Z) (invert : bool) (buffer : Buffer) : IptablesResults * Buffer :=
  if (ip =? 0) && (mask =? 0) then (IPTABLES_NO_DATA, buffer)
  else
    let formatPrefix := if invert then IPTABLES_NEGATE else IPTABLES_EMPTY in
    match find_mask 32 (ntohl mask) (u32 4294967295) 0 with
    | Some i => write_text buffer (formatPrefix ++ dotted (IP_BYTES ip) ++ "/" ++ sdec (32 - i))
    | None =>
        if mask =? 0 then write_text buffer (formatPrefix ++ dotted (IP_BYTES ip))
        else write_text buffer (formatPrefix ++ dotted (IP_BYTES ip) ++ "/" ++ dotted (IP_BYTES mask))
    end.

Definition IptablesUtils_FormatProtocol (protocol : Z) (invert : bool) (buffer : Buffer) : IptablesResults * Buffer :=
  let protocolString :=
    if protocol =? IPPROTO_TCP then Some IPTABLES_TCP_PROTOCOL
    else if protocol =? IPPROTO_UDP then Some IPTABLES_UDP_PROTOCOL
    else if protocol =? IPPROTO_ICMP then Some IPTABLES_ICMP_PROTOCOL
    else None in
  match protocolString with
  | None => (IPTABLES_EXCEPTION, buffer)
  | Some protocolString => write_text buffer ((if invert then IPTABLES_NEGATE else IPTABLES_EMPTY) ++ protocolString)
  end.

Definition IptablesUtils_FormatRangedPorts (lowPort highPort : Z) (invert : bool) (buffer : Buffer) : IptablesResults * Buffer :=
  if negb (lowPort =? MIN_PORT) || negb (highPort =? MAX_PORT) then
    let formatPrefix := if invert then IPTABLES_NEGATE_EXPRESSION_START else IPTABLES_EMPTY in
    if lowPort =? highPort then write_text buffer (formatPrefix ++ sdec lowPort ++ " ")
    else
      let formatSuffix := if invert then IPTABLES_NEGATE_EXPRESSION_END else IPTABLES_EMPTY in
      write_text buffer (formatPrefix ++ sdec lowPort ++ "-" ++ sdec highPort ++ formatSuffix)
  else (IPTABLES_NO_DATA, buffer).

(** [None] is [IPTABLES_EXCEPTION]. *)
Definition IptablesUtils_GetActionTypeEnumFromActionString (action : option string) : option IptablesActionType :=
  action ← action;
  Some (if Utils_UnsafeAreStringsEqual IPTABLES_ACCEPT_VERDICT action true then IPTABLES_ACTION_ALLOW
        else if Utils_UnsafeAreStringsEqual IPTABLES_REJECT_VERDICT action true
             || Utils_UnsafeAreStringsEqual IPTABLES_DROP_VERDICT action true then IPTABLES_ACTION_DENY
        else IPTABLES_ACTION_OTHER).

(** ** The entries of a table, as the kernel's headers declare them *)

Record ipt_ip : Type := mkIptIp {
  src : Z;
  dst : Z;
  smsk : Z;
  dmsk : Z;
  proto : Z;
  flags : Z;
  invflags : Z;
}.

Record xt_tcp : Type := mkXtTcp {
  spts : Z * Z;
  dpts : Z * Z;
  tcp_invflags : Z;
}.

Record xt_iprange_mtinfo : Type := mkXtIprange {
  src_min : Z;
  src_max : Z;
  dst_min : Z;
  dst_max : Z;
  iprange_flags : Z;
}.

(** Both versions of the multiport match begin with these fields; the second one
    has two more.  The arrays have [XT_MULTI_PORTS] places. *)
Record xt_multiport : Type := mkXtMultiport {
  multiport_flags : Z;
  count : Z;
  ports : list Z;
}.

Record xt_multiport_v1 : Type := mkXtMultiportV1 {
  v1_multiport : xt_multiport;
  pflags : list Z;
  multiport_invert : Z;
}.

(** The data of a match, and what it is when its bytes are read as a structure. *)
Class MatchData : Type := {
  Data : Type;
  as_tcp : Data -> xt_tcp;
  as_iprange : Data -> xt_iprange_mtinfo;
  as_multiport : Data -> xt_multiport;
  as_multiport_v1 : Data -> xt_multiport_v1;
}.

Definition IPT_F_GOTO : Z := 2.
Definition IPT_INV_SRCIP : Z := 8.
Definition IPT_INV_DSTIP : Z := 16.
Definition IPT_INV_PROTO : Z := 64.
Definition XT_TCP_INV_SRCPT : Z := 1.
Definition XT_TCP_INV_DSTPT : Z := 2.
Definition IPRANGE_SRC : Z := 1.
Definition IPRANGE_DST : Z := 2.
Definition IPRANGE_SRC_INV : Z := 16.
Definition IPRANGE_DST_INV : Z := 32.
Definition XT_MULTIPORT_SOURCE : Z := 0.
Definition XT_MULTIPORT_DESTINATION : Z := 1.
Definition SIZEOF_IPT_ENTRY : Z := 112.
Definition SIZEOF_XT_ENTRY_MATCH : Z := 32.
Definition SIZEOF_XT_MULTIPORT : Z := 32.
Definition SIZEOF_XT_MULTIPORT_V1 : Z := 48.

Definition has_flag (x flag : Z) : bool := negb (Z.land x flag =? 0).

Section Iptables.
Context {Md : MatchData}.

Record xt_entry_match : Type := mkMatch {
  match_size : Z;
  match_name : string;
  match_data : Data;
}.

(** [match_at i] is the match at the byte offset [i] from the entry. *)
Record ipt_entry : Type := mkEntry {
  ip : ipt_ip;
  target_offset : Z;
  match_at : Z -> xt_entry_match;
}.

(** The loop over the matches of an entry: [body] ends it with a result other
    than [IPTABLES_NO_DATA].  Matches of size 0 would make it endless. *)
Fixpoint match_loop (fuel : nat) (body : xt_entry_match -> Buffer -> option (IptablesResults * Buffer))
    (entry : ipt_entry) (i : Z) (buffer : Buffer) : option (IptablesResults * Buffer) :=
  if i <? target_offset entry then
    match fuel with
    | O => None
    | S fuel =>
        let currentMatch := match_at entry i in
        '(result, buffer) ← body currentMatch buffer;
        if decide (result = IPTABLES_NO_DATA) then match_loop fuel body entry (i + match_size currentMatch) buffer
        else Some (result, buffer)
    end
  else Some (IPTABLES_NO_DATA, buffer).

Definition for_matches (body : xt_entry_match -> Buffer -> option (IptablesResults * Buffer)) (entry : ipt_entry) (buffer : Buffer)
    : option (IptablesResults * Buffer) :=
  match_loop (Z.to_nat (target_offset entry)) body entry SIZEOF_IPT_ENTRY buffer.

(** ** [iptables_iprange.c] *)

Definition IptablesUtils_FormatRangedIp (minIp maxIp : Z) (invert : bool) (buffer : Buffer) : IptablesResults * Buffer :=
  let formatPrefix := if invert then IPTABLES_NEGATE_EXPRESSION_START else IPTABLES_EMPTY in
  let formatSuffix := if invert then IPTABLES_NEGATE_EXPRESSION_END else IPTABLES_EMPTY in
  write_text buffer (formatPrefix ++ dotted (IP_BYTES minIp) ++ "-" ++ dotted (IP_BYTES maxIp) ++ formatSuffix).

Definition ranged_ip (isSrcIp : bool) (currentMatch : xt_entry_match) (buffer : Buffer) : option (IptablesResults * Buffer) :=
  if Utils_UnsafeAreStringsEqual (match_name currentMatch) IPTABLES_IPRANGE_MATCH true then
    let info := as_iprange (match_data currentMatch) in
    if isSrcIp && has_flag (iprange_flags info) IPRANGE_SRC
    then Some (IptablesUtils_FormatRangedIp (src_min info) (src_max info) (has_flag (iprange_flags info) IPRANGE_SRC_INV) buffer)
    else if negb isSrcIp && has_flag (iprange_flags info) IPRANGE_DST
    then Some (IptablesUtils_FormatRangedIp (dst_min info) (dst_max info) (has_flag (iprange_flags info) IPRANGE_DST_INV) buffer)
    else Some (IPTABLES_NO_DATA, buffer)
  else Some (IPTABLES_NO_DATA, buffer).

Definition IptablesIprange_TryGetRangedIp (entry : ipt_entry) (isSrcIp : bool) (buffer : Buffer) : option (IptablesResults * Buffer) :=
  for_matches (ranged_ip isSrcIp) entry buffer.

(** ** [iptables_ip_utils.c] *)

Definition IptablesIpUtils_GetRegularIp (entry : ipt_entry) (isSrcIp : bool) (buffer : Buffer) : IptablesResults * Buffer :=
  if isSrcIp
  then IptablesUtils_FormatIp (src (ip entry)) (smsk (ip entry)) (has_flag (invflags (ip entry)) IPT_INV_SRCIP) buffer
  else IptablesUtils_FormatIp (dst (ip entry)) (dmsk (ip entry)) (has_flag (invflags (ip entry)) IPT_INV_DSTIP) buffer.

Definition IptablesIpUtils_GetIp (entry : ipt_entry) (isSrcIp : bool) (buffer : Buffer) : option (IptablesResults * Buffer) :=
  '(result, buffer) ← IptablesIprange_TryGetRangedIp entry isSrcIp buffer;
  if decide (result = IPTABLES_NO_DATA) then Some (IptablesIpUtils_GetRegularIp entry isSrcIp buffer)
  else Some (result, buffer).

(** ** [iptables_multiport.c] *)

Definition MULTIPORT_RANGE_FLAG : Z := 1.
Definition MULTIPORT_INVERT_FLAG : Z := 1.

(** A part of a text; what follows is written when the part was. *)
Definition then_write (r : IptablesResults * Buffer) (k : Buffer -> option (IptablesResults * Buffer)) : option (IptablesResults * Buffer) :=
  match r with
  | (IPTABLES_OK, buffer) => k buffer
  | _ => Some r
  end.

(** The loop over the ports: [item j] is the text of the ports at [j] and how
    many they are. *)
Fixpoint format_ports (rounds : nat) (item : Z -> option (string * Z)) (count j : Z) (buffer : Buffer) : option (IptablesResults * Buffer) :=
  if j <? count then
    match rounds with
    | O => None
    | S rounds =>
        then_write (if 0 <? j then write_text buffer "," else (IPTABLES_OK, buffer)) (fun buffer =>
          '(text, n) ← item j;
          then_write (write_text buffer text) (fun buffer => format_ports rounds item count (j + n) buffer))
    end
  else Some (IPTABLES_OK, buffer).

Definition single_port (info : xt_multiport) (j : Z) : option (string * Z) :=
  port ← ports info !! Z.to_nat j; Some (sdec port, 1).

Definition port_or_range (info : xt_multiport_v1) (j : Z) : option (string * Z) :=
  pflag ← pflags info !! Z.to_nat j;
  port ← ports (v1_multiport info) !! Z.to_nat j;
  if has_flag pflag MULTIPORT_RANGE_FLAG then
    last ← ports (v1_multiport info) !! Z.to_nat (j + 1);
    Some ((sdec port ++ "-" ++ sdec last)%string, 2)
  else Some (sdec port, 1).

Definition IptablesMultiport_FormatMultiportMatch (m : xt_entry_match) (buffer : Buffer) : option (IptablesResults * Buffer) :=
  let multiportInfo := as_multiport (match_data m) in
  format_ports (Z.to_nat (count multiportInfo)) (single_port multiportInfo) (count multiportInfo) 0 buffer.

Definition IptablesMultiport_FormatMultiportV1Match (m : xt_entry_match) (buffer : Buffer) : option (IptablesResults * Buffer) :=
  let multiportInfoV1 := as_multiport_v1 (match_data m) in
  let invert := has_flag (multiport_invert multiportInfoV1) MULTIPORT_INVERT_FLAG in
  then_write (if invert then write_text buffer IPTABLES_NEGATE_EXPRESSION_START else (IPTABLES_OK, buffer)) (fun buffer =>
    r ← format_ports (Z.to_nat (count (v1_multiport multiportInfoV1))) (port_or_range multiportInfoV1)
          (count (v1_multiport multiportInfoV1)) 0 buffer;
    then_write r (fun buffer =>
      Some (if invert then write_text buffer IPTABLES_NEGATE_EXPRESSION_END else (IPTABLES_OK, buffer)))).

Definition IptablesMultiport_GetPorts (m : xt_entry_match) (isSrcPorts : bool) (buffer : Buffer) : option (IptablesResults * Buffer) :=
  let multiportInfo := as_multiport (match_data m) in
  if isSrcPorts && (multiport_flags multiportInfo =? XT_MULTIPORT_DESTINATION) then Some (IPTABLES_NO_DATA, buffer)
  else if negb isSrcPorts && (multiport_flags multiportInfo =? XT_MULTIPORT_SOURCE) then Some (IPTABLES_NO_DATA, buffer)
  else
    let dataSize := u32 (match_size m - SIZEOF_XT_ENTRY_MATCH) in
    if dataSize =? SIZEOF_XT_MULTIPORT then IptablesMultiport_FormatMultiportMatch m buffer
    else if dataSize =? SIZEOF_XT_MULTIPORT_V1 then IptablesMultiport_FormatMultiportV1Match m buffer
    else Some (IPTABLES_OK, buffer).

(** ** [iptables_port_utils.c] *)

Definition IptablesPortUtils_GetPortsTcpMatch (m : xt_entry_match) (isSrcPorts : bool) (buffer : Buffer) : IptablesResults * Buffer :=
  let tcpInfo := as_tcp (match_data m) in
  if isSrcPorts
  then IptablesUtils_FormatRangedPorts (fst (spts tcpInfo)) (snd (spts tcpInfo)) (has_flag (tcp_invflags tcpInfo) XT_TCP_INV_SRCPT) buffer
  else IptablesUtils_FormatRangedPorts (fst (dpts tcpInfo)) (snd (dpts tcpInfo)) (has_flag (tcp_invflags tcpInfo) XT_TCP_INV_DSTPT) buffer.

Definition match_ports (isSrcPorts : bool) (currentMatch : xt_entry_match) (buffer : Buffer) : option (IptablesResults * Buffer) :=
  if Utils_UnsafeAreStringsEqual (match_name currentMatch) IPTABLES_TCP_MATCH true
  then Some (IptablesPortUtils_GetPortsTcpMatch currentMatch isSrcPorts buffer)
  else if Utils_UnsafeAreStringsEqual (match_name currentMatch) IPTABLES_MULTIPORT_MATCH true
  then IptablesMultiport_GetPorts currentMatch isSrcPorts buffer
  else Some (IPTABLES_NO_DATA, buffer).

Definition IptablesPortUtils_GetPort (entry : ipt_entry) (isSrcPorts : bool) (buffer : Buffer) : option (IptablesResults * Buffer) :=
  for_matches (match_ports isSrcPorts) entry buffer.

End Iptables.

(** ** Specification *)

Section Specification.
Context {Md : MatchData}.

(** What a rule has to say about something: an error, nothing, or a text. *)
Definition Wording : Type := option (option string).

(** How a function that was given an empty buffer of this size ends. *)
Definition says (size : Z) (w : Wording) (res : option (IptablesResults * Buffer)) : Prop :=
  exists r b, res = Some (r, b) /\
    match w with
    | None => r = IPTABLES_EXCEPTION
    | Some None => r = IPTABLES_NO_DATA /\ b = mkBuffer "" size
    | Some (Some text) => if strlen text <? size then r = IPTABLES_OK /\ written b = text else r = IPTABLES_EXCEPTION
    end.

(** The matches of an entry, one after the other up to its target. *)
Inductive matches_from (e : ipt_entry) : Z -> list xt_entry_match -> Prop :=
  | matches_end i : target_offset e <= i -> matches_from e i []
  | matches_next i l : i < target_offset e -> 0 < match_size (match_at e i) ->
      matches_from e (i + match_size (match_at e i)) l -> matches_from e i (match_at e i :: l).

Definition entry_matches (e : ipt_entry) (l : list xt_entry_match) : Prop := matches_from e SIZEOF_IPT_ENTRY l.

(** The first match that has something to say. *)
Fixpoint first_words (words : xt_entry_match -> Wording) (l : list xt_entry_match) : Wording :=
  match l with
  | [] => Some None
  | m :: l => match words m with Some None => first_words words l | w => w end
  end.

(** *** Addresses *)

(** The number whose bits are [n] ones and then zeros. *)
Definition netmask (n : Z) : Z := 2 ^ 32 - 2 ^ (32 - n).

(** The length of a prefix, when the mask is one. *)
Definition prefix_length (mask : Z) : option Z :=
  head (List.filter (fun n => netmask n =? mask) (map (fun k => 32 - Z.of_nat k) (seq 0 32))).

Definition negated (invert : bool) (text : string) : string := if invert then ("!" ++ text)%string else text.
Definition negated_expression (invert : bool) (text : string) : string := if invert then ("!(" ++ text ++ ")")%string else text.

(** An address and a mask in the order of the network. *)
Definition address_text (invert : bool) (address mask : Z) : string :=
  negated invert (dotted (IP_BYTES address) ++
    match prefix_length (ntohl mask) with
    | Some n => ("/" ++ udec n)%string
    | None => if (mask =? 0)%Z then "" else "/" ++ dotted (IP_BYTES mask)
    end)%string.

Definition range_words (isSrcIp : bool) (m : xt_entry_match) : Wording :=
  let info := as_iprange (match_data m) in
  if negb (Utils_UnsafeAreStringsEqual (match_name m) IPTABLES_IPRANGE_MATCH true) then Some None
  else
    let '(has, invert, low, high) := if isSrcIp then (IPRANGE_SRC, IPRANGE_SRC_INV, src_min info, src_max info)
                                     else (IPRANGE_DST, IPRANGE_DST_INV, dst_min info, dst_max info) in
    if has_flag (iprange_flags info) has
    then Some (Some (negated_expression (has_flag (iprange_flags info) invert) (dotted (IP_BYTES low) ++ "-" ++ dotted (IP_BYTES high))))
    else Some None.

Definition regular_words (isSrcIp : bool) (i : ipt_ip) : Wording :=
  let '(address, mask, invert) := if isSrcIp then (src i, smsk i, IPT_INV_SRCIP) else (dst i, dmsk i, IPT_INV_DSTIP) in
  Some (if (address =? 0) && (mask =? 0) then None else Some (address_text (has_flag (invflags i) invert) address mask)).

(** The range of a match comes before the address of the entry. *)
Definition ip_words (isSrcIp : bool) (e : ipt_entry) (l : list xt_entry_match) : Wording :=
  match first_words (range_words isSrcIp) l with
  | Some None => regular_words isSrcIp (ip e)
  | w => w
  end.

(** *** Ports *)

Inductive PortItem : Type := OnePort (port : Z) | PortRange (low high : Z).

Definition item_text (x : PortItem) : string :=
  match x with OnePort port => sdec port | PortRange low high => (sdec low ++ "-" ++ sdec high)%string end.

(** The ports of the arrays of a match; [None] when they have too few places. *)
Fixpoint port_items (n : nat) (ports pflags : list Z) : option (list PortItem) :=
  match n with
  | O => Some []
  | S n =>
      match ports, pflags with
      | port :: ports, pflag :: pflags =>
          if has_flag pflag MULTIPORT_RANGE_FLAG then
            match ports with
            | [] => None
            | high :: ports =>
                items ← match n with O => Some [] | S n => port_items n ports (List.tl pflags) end;
                Some (PortRange port high :: items)
            end
          else items ← port_items n ports pflags; Some (OnePort port :: items)
      | _, _ => None
      end
  end.

(** The arrays of the multiport matches of an entry have enough places. *)
Definition multiport_items (m : xt_entry_match) : option (bool * list PortItem) :=
  let dataSize := u32 (match_size m - SIZEOF_XT_ENTRY_MATCH) in
  if dataSize =? SIZEOF_XT_MULTIPORT then
    let info := as_multiport (match_data m) in
    items ← port_items (Z.to_nat (count info)) (ports info) (repeat 0 (Z.to_nat (count info))); Some (false, items)
  else if dataSize =? SIZEOF_XT_MULTIPORT_V1 then
    let info := as_multiport_v1 (match_data m) in
    items ← port_items (Z.to_nat (count (v1_multiport info))) (ports (v1_multiport info)) (pflags info);
    Some (has_flag (multiport_invert info) MULTIPORT_INVERT_FLAG, items)
  else Some (false, []).

Definition multiport_words (isSrcPorts : bool) (m : xt_entry_match) : Wording :=
  let flags := multiport_flags (as_multiport (match_data m)) in
  if flags =? (if isSrcPorts then XT_MULTIPORT_DESTINATION else XT_MULTIPORT_SOURCE) then Some None
  else
    '(invert, items) ← multiport_items m;
    Some (Some (negated_expression invert (String.concat "," (map item_text items)))).

(** One port has a blank after it, and no closing parenthesis. *)
Definition tcp_words (isSrcPorts : bool) (m : xt_entry_match) : Wording :=
  let info := as_tcp (match_data m) in
  let '(low, high, invert) := if isSrcPorts then (fst (spts info), snd (spts info), XT_TCP_INV_SRCPT)
                              else (fst (dpts info), snd (dpts info), XT_TCP_INV_DSTPT) in
  let invert := has_flag (tcp_invflags info) invert in
  Some (if (low =? MIN_PORT) && (high =? MAX_PORT) then None
        else Some (if (low =? high)%Z then (if invert then "!(" else "") ++ sdec low ++ " "
                   else negated_expression invert (sdec low ++ "-" ++ sdec high))%string).

Definition match_port_words (isSrcPorts : bool) (m : xt_entry_match) : Wording :=
  if Utils_UnsafeAreStringsEqual (match_name m) IPTABLES_TCP_MATCH true then tcp_words isSrcPorts m
  else if Utils_UnsafeAreStringsEqual (match_name m) IPTABLES_MULTIPORT_MATCH true then multiport_words isSrcPorts m
  else Some None.

Definition port_words (isSrcPorts : bool) (l : list xt_entry_match) : Wording := first_words (match_port_words isSrcPorts) l.

(** The matches can be read: no multiport match reads past its arrays. *)
Definition readable (l : list xt_entry_match) : Prop :=
  Forall (fun m => Utils_UnsafeAreStringsEqual (match_name m) IPTABLES_MULTIPORT_MATCH true = true ->
    0 <= count (as_multiport (match_data m)) /\ 0 <= count (v1_multiport (as_multiport_v1 (match_data m))) /\ multiport_items m <> None) l.

(** *** The protocol *)

Definition protocol_words (i : ipt_ip) : Wording :=
  if proto i =? 0 then Some None
  else
    let invert := has_flag (invflags i) IPT_INV_PROTO in
    if proto i =? IPPROTO_TCP then Some (Some (negated invert IPTABLES_TCP_PROTOCOL))
    else if proto i =? IPPROTO_UDP then Some (Some (negated invert IPTABLES_UDP_PROTOCOL))
    else if proto i =? IPPROTO_ICMP then Some (Some (negated invert IPTABLES_ICMP_PROTOCOL))
    else None.

End Specification.

(** ** Lemmas *)

(** Writing a text at the position of a buffer. *)
Definition writes (b : Buffer) (text : string) (res : option (IptablesResults * Buffer)) : Prop :=
  exists b', res = Some (if strlen text <? bufferSize b
    then (IPTABLES_OK, mkBuffer (written b ++ text) (bufferSize b - strlen text)) else (IPTABLES_EXCEPTION, b')).

Definition usable (b : Buffer) : Prop := 0 < bufferSize b <= UINT32_MAX.

Lemma write_text_run b text : usable b -> writes b text (Some (write_text b text)).
Proof.
  intros Hb. unfold write_text, writes. rewrite concatenate_cases by (unfold usable in Hb; lia). exists b. by destruct (_ <? _).
Qed.

Lemma write_nothing b : usable b -> writes b "" (Some (IPTABLES_OK, b)).
Proof.
  intros Hb. exists b. change (strlen "") with 0. unfold usable in Hb. rewrite (proj2 (Z.ltb_lt _ _)) by lia.
  rewrite sapp_nil_r, Z.sub_0_r. by destruct b.
Qed.

Lemma writes_then b text text' r k : usable b -> writes b text (Some r) ->
  (forall b', usable b' -> writes b' text' (k b')) -> writes b (text ++ text') (then_write r k).
Proof.
  intros Hb [b1 H1] Hk. injection H1 as ->. unfold writes. rewrite strlen_app.
  pose proof (strlen_nonneg text). pose proof (strlen_nonneg text').
  destruct (Z.ltb_spec (strlen text) (bufferSize b)).
  - cbn [then_write]. destruct (Hk (mkBuffer (written b ++ text) (bufferSize b - strlen text))) as [b2 ->];
      [unfold usable in *; cbn; lia|]. cbn [bufferSize written]. exists b2. f_equal.
    destruct (Z.ltb_spec (strlen text') (bufferSize b - strlen text)), (Z.ltb_spec (strlen text + strlen text') (bufferSize b)); try lia; [|done].
    rewrite sapp_assoc. do 2 f_equal. lia.
  - destruct (Z.ltb_spec (strlen text + strlen text') (bufferSize b)); [lia|]. cbn. by exists b1.
Qed.

Lemma writes_says size text res : writes (mkBuffer "" size) text res -> says size (Some (Some text)) res.
Proof.
  intros [b ->]. cbn [bufferSize written]. unfold says. destruct (_ <? _); by eexists _, _.
Qed.

Section Matches.
Context {Md : MatchData}.

Lemma match_loop_says size (words : xt_entry_match -> Wording) body e i l :
  matches_from e i l -> (forall m, In m l -> says size (words m) (body m (mkBuffer "" size))) ->
  forall fuel, target_offset e - i <= Z.of_nat fuel -> says size (first_words words l) (match_loop fuel body e i (mkBuffer "" size)).
Proof.
  induction 1 as [i Hi|i l Hi Hs Hm IH]; intros Hb fuel Hf.
  - destruct fuel; cbn [match_loop first_words]; rewrite (proj2 (Z.ltb_ge _ _)) by done; by eexists _, _.
  - destruct fuel as [|fuel]; [lia|]. cbn [match_loop first_words]. rewrite (proj2 (Z.ltb_lt _ _)) by done.
    destruct (Hb (match_at e i)) as (r & b & E & Hw); [by left|]. rewrite E. cbn [mbind option_bind].
    destruct (words (match_at e i)) as [[text|]|].
    + assert (r <> IPTABLES_NO_DATA) by (destruct (strlen text <? size); intuition congruence). rewrite decide_False by done. by exists r, b.
    + destruct Hw as [-> ->]. rewrite decide_True by done. apply IH; [|lia]. intros m Hin. apply Hb. by right.
    + subst r. rewrite decide_False by done. by eexists _, _.
Qed.

Lemma for_matches_says size (words : xt_entry_match -> Wording) body e l :
  entry_matches e l -> (forall m, In m l -> says size (words m) (body m (mkBuffer "" size))) ->
  says size (first_words words l) (for_matches body e (mkBuffer "" size)).
Proof.
  intros Hl Hb. eapply match_loop_says; [exact Hl | exact Hb |]. unfold SIZEOF_IPT_ENTRY.
  destruct (Z.le_ge_cases 0 (target_offset e)); lia.
Qed.

Lemma says_nothing size : says size (Some None) (Some (IPTABLES_NO_DATA, mkBuffer "" size)).
Proof. by eexists _, _. Qed.

Lemma write_says size text : 0 < size <= UINT32_MAX -> says size (Some (Some text)) (Some (write_text (mkBuffer "" size) text)).
Proof. intros Hs. apply writes_says, write_text_run, Hs. Qed.

(** *** Addresses *)

Lemma prefix_find rounds : forall k mask, (k + rounds = 32)%nat ->
  find_mask rounds mask (netmask (32 - Z.of_nat k)) (Z.of_nat k) =
  (fun n => 32 - n) <$> head (List.filter (fun n => netmask n =? mask) (map (fun k => 32 - Z.of_nat k) (seq k rounds))).
Proof.
  induction rounds as [|rounds IH]; intros k mask Hk; [done|].
  cbn [find_mask seq map List.filter]. destruct (netmask (32 - Z.of_nat k) =? mask).
  - cbn. f_equal. lia.
  - assert (Hshift : u32 (Z.shiftl (netmask (32 - Z.of_nat k)) 1) = netmask (32 - Z.of_nat (S k))).
    { assert (Hk' : (k < 32)%nat) by lia. clear -Hk'. do 32 (destruct k as [|k]; [vm_compute; reflexivity|]). lia. }
    rewrite Hshift. replace (Z.of_nat k + 1) with (Z.of_nat (S k)) by lia. apply IH. lia.
Qed.

Lemma find_prefix mask : find_mask 32 mask (u32 4294967295) 0 = (fun n => 32 - n) <$> prefix_length mask.
Proof. exact (prefix_find 32 0 mask eq_refl). Qed.

Lemma prefix_length_range mask n : prefix_length mask = Some n -> 1 <= n <= 32 /\ netmask n = mask.
Proof.
  unfold prefix_length. intros H. assert (Hin : In n (List.filter (fun n => netmask n =? mask) (map (fun k => 32 - Z.of_nat k) (seq 0 32)))).
  { destruct (List.filter _ _); [done|]. injection H as ->. by left. }
  apply List.filter_In in Hin as [Hin Hn]. apply Z.eqb_eq in Hn. split; [|done].
  apply List.in_map_iff in Hin as (k & <- & Hk). apply List.in_seq in Hk. lia.
Qed.

Lemma sdec_nonneg n : 0 <= n -> sdec n = udec n.
Proof. intros. unfold sdec. by rewrite (proj2 (Z.ltb_ge _ _)). Qed.

Lemma FormatIp_run size address mask invert : 0 < size <= UINT32_MAX ->
  says size (Some (if (address =? 0) && (mask =? 0) then None else Some (address_text invert address mask)))
    (Some (IptablesUtils_FormatIp address mask invert (mkBuffer "" size))).
Proof.
  intros Hs. unfold IptablesUtils_FormatIp, address_text. destruct ((address =? 0) && (mask =? 0)); [apply says_nothing|].
  rewrite find_prefix.
  assert (Hneg : forall t, ((if invert then IPTABLES_NEGATE else IPTABLES_EMPTY) ++ t)%string = negated invert t) by (intros t; by destruct invert).
  destruct (prefix_length (ntohl mask)) as [n|] eqn:E; cbn [fmap option_fmap option_map].
  - apply prefix_length_range in E as [Hn _]. replace (32 - (32 - n)) with n by lia. rewrite sdec_nonneg by lia. rewrite Hneg. by apply write_says.
  - rewrite !Hneg. destruct (mask =? 0); [|by apply write_says]. rewrite sapp_nil_r. by apply write_says.
Qed.

Lemma ranged_ip_says size isSrcIp m : 0 < size <= UINT32_MAX ->
  says size (range_words isSrcIp m) (ranged_ip isSrcIp m (mkBuffer "" size)).
Proof.
  intros Hs. unfold range_words, ranged_ip. destruct (Utils_UnsafeAreStringsEqual (match_name m) IPTABLES_IPRANGE_MATCH true); cbn [negb]; [|apply says_nothing].
  assert (Hrun : forall low high invert, says size (Some (Some (negated_expression invert (dotted (IP_BYTES low) ++ "-" ++ dotted (IP_BYTES high)))))
    (Some (IptablesUtils_FormatRangedIp low high invert (mkBuffer "" size)))).
  { intros low high invert. unfold IptablesUtils_FormatRangedIp. destruct invert; cbn [negated_expression].
    - change IPTABLES_NEGATE_EXPRESSION_START with "!("%string. change IPTABLES_NEGATE_EXPRESSION_END with ")"%string.
      rewrite <- !sapp_assoc. rewrite (sapp_assoc _ _ ")"). rewrite !sapp_assoc. by apply write_says.
    - change IPTABLES_EMPTY with ""%string. rewrite sapp_nil_r. by apply write_says. }
  destruct isSrcIp; cbn [andb negb].
  - destruct (has_flag _ IPRANGE_SRC); [apply Hrun | apply says_nothing].
  - destruct (has_flag _ IPRANGE_DST); [apply Hrun | apply says_nothing].
Qed.

Lemma GetIp_says size isSrcIp e l : 0 < size <= UINT32_MAX -> entry_matches e l ->
  says size (ip_words isSrcIp e l) (IptablesIpUtils_GetIp e isSrcIp (mkBuffer "" size)).
Proof.
  intros Hs Hl. unfold IptablesIpUtils_GetIp, ip_words, IptablesIprange_TryGetRangedIp.
  destruct (for_matches_says size (range_words isSrcIp) (ranged_ip isSrcIp) e l Hl (fun m _ => ranged_ip_says size isSrcIp m Hs))
    as (r & b & -> & Hw). cbn [mbind option_bind].
  destruct (first_words (range_words isSrcIp) l) as [[text|]|].
  - assert (r <> IPTABLES_NO_DATA) by (destruct (strlen text <? size); intuition congruence). rewrite decide_False by done. by exists r, b.
  - destruct Hw as [-> ->]. rewrite decide_True by done. unfold IptablesIpUtils_GetRegularIp, regular_words. destruct isSrcIp; by apply FormatIp_run.
  - subst r. rewrite decide_False by done. by eexists _, _.
Qed.

(** *** Ports *)

(** The texts of [items] with a comma before each but the first. *)
Fixpoint joined (first : bool) (items : list PortItem) : string :=
  match items with
  | [] => ""
  | x :: items => ((if first then "" else ",") ++ item_text x ++ joined false items)%string
  end.

Lemma joined_concat items : joined true items = String.concat "," (map item_text items).
Proof.
  assert (H : forall items x, (item_text x ++ joined false items)%string = String.concat "," (map item_text (x :: items))).
  { clear items. induction items as [|y items IH]; intros x; cbn [joined map]; [apply sapp_nil_r|].
    rewrite IH. reflexivity. }
  destruct items as [|x items]; [done|]. cbn [joined String.append]. apply H.
Qed.

Lemma drop_cons {A} (l : list A) j x : l !! j = Some x -> drop j l = x :: drop (S j) l.
Proof. intros H. by apply drop_S. Qed.

Lemma tl_drop {A} (l : list A) j : List.tl (drop j l) = drop (S j) l.
Proof. revert j. induction l as [|x l IH]; intros [|j]; try done. cbn. apply IH. Qed.

(** What is at a place of the arrays. *)
Definition item_at (ports pflags : list Z) (j : nat) : option (string * Z) :=
  pflag ← pflags !! j;
  port ← ports !! j;
  if has_flag pflag MULTIPORT_RANGE_FLAG then
    last ← ports !! S j; Some ((sdec port ++ "-" ++ sdec last)%string, 2)
  else Some (sdec port, 1).

Lemma port_items_S n ports pflags items : port_items (S n) ports pflags = Some items ->
  exists x items', items = x :: items' /\
    item_at ports pflags 0 = Some (item_text x, match x with OnePort _ => 1 | PortRange _ _ => 2 end) /\
    match x with
    | OnePort _ => port_items n (drop 1 ports) (drop 1 pflags) = Some items'
    | PortRange _ _ => port_items (n - 1) (drop 2 ports) (drop 2 pflags) = Some items'
    end.
Proof.
  intros H. destruct ports as [|port ports]; [done|]. destruct pflags as [|pflag pflags]; [done|]. cbn [port_items] in H.
  unfold item_at. cbn [lookup list_lookup mbind option_bind]. destruct (has_flag pflag MULTIPORT_RANGE_FLAG).
  - destruct ports as [|high ports]; [done|]. cbn [lookup list_lookup mbind option_bind].
    change (drop 2 (port :: high :: ports)) with ports. change (drop 2 (pflag :: pflags)) with (drop 1 pflags).
    destruct n as [|n]; cbn [mbind option_bind] in H.
    + injection H as <-. eexists (PortRange port high), []. by repeat split.
    + rewrite Nat.sub_succ, Nat.sub_0_r. replace (drop 1 pflags) with (List.tl pflags) by (by destruct pflags).
      cbn [mbind option_bind] in H.
      destruct (port_items n ports (List.tl pflags)) as [its|] eqn:E; [|done]. injection H as <-.
      exists (PortRange port high), its. by repeat split.
  - cbn [drop]. destruct (port_items n ports pflags) as [its|] eqn:E; [|done]. injection H as <-. exists (OnePort port), its. by repeat split.
Qed.

Lemma item_at_drop ports pflags j : item_at (drop j ports) (drop j pflags) 0 = item_at ports pflags j.
Proof. unfold item_at. rewrite !lookup_drop. by rewrite !Nat.add_0_r, Nat.add_1_r. Qed.

Lemma format_ports_run ports pflags item count :
  (forall j, Z.of_nat j < count -> item (Z.of_nat j) = item_at ports pflags j) ->
  forall n j rounds b items, port_items n (drop j ports) (drop j pflags) = Some items ->
    (n = 0%nat /\ count <= Z.of_nat j \/ count = Z.of_nat (j + n)) -> (n <= rounds)%nat -> usable b ->
    writes b (joined (Nat.eqb j 0) items) (format_ports rounds item count (Z.of_nat j) b).
Proof.
  intros Hitem n. induction (Nat.lt_wf_0 n) as [n _ IH]. intros j rounds b items Hitems Hn Hr Hb. destruct n as [|n].
  - cbn [port_items] in Hitems. injection Hitems as <-. cbn [joined].
    assert (Hc : count <= Z.of_nat j) by lia.
    destruct rounds; cbn [format_ports]; rewrite (proj2 (Z.ltb_ge _ _)) by done; by apply write_nothing.
  - destruct rounds as [|rounds]; [lia|]. cbn [format_ports]. rewrite (proj2 (Z.ltb_lt _ _)) by lia.
    destruct (port_items_S _ _ _ _ Hitems) as (x & items' & -> & Hat & Hrest). rewrite item_at_drop in Hat. cbn [joined].
    apply writes_then; [done| |].
    { destruct (Nat.eqb_spec j 0) as [->|Hj]; [by apply write_nothing|]. rewrite (proj2 (Z.ltb_lt 0 (Z.of_nat j))) by lia. by apply write_text_run. }
    intros b1 Hb1. rewrite Hitem, Hat by lia. cbn [mbind option_bind]. apply writes_then; [done | by apply write_text_run |].
    intros b2 Hb2. rewrite !drop_drop in Hrest. destruct x as [port|low high].
    + replace (Z.of_nat j + 1) with (Z.of_nat (S j)) by lia. specialize (IH n ltac:(lia) (S j) rounds b2 items').
      cbn [Nat.eqb] in IH. apply IH; [|lia|lia|done]. by rewrite Nat.add_1_r in Hrest.
    + replace (Z.of_nat j + 2) with (Z.of_nat (S (S j))) by lia. specialize (IH (n - 1)%nat ltac:(lia) (S (S j)) rounds b2 items').
      cbn [Nat.eqb] in IH. apply IH; [|lia|lia|done]. by replace (j + 2)%nat with (S (S j)) in Hrest by lia.
Qed.

Lemma zero_flags_lookup n j : (j < n)%nat -> repeat 0 n !! j = Some 0.
Proof. revert j. induction n as [|n IH]; intros [|j] Hj; try lia; [done|]. cbn. apply IH. lia. Qed.

Lemma counted_all c : 0 <= c -> Z.to_nat c = 0%nat /\ c <= Z.of_nat 0 \/ c = Z.of_nat (0 + Z.to_nat c).
Proof. intros. right. cbn [Nat.add]. by rewrite Z2Nat.id. Qed.

Lemma multiport_says size isSrcPorts m : 0 < size <= UINT32_MAX ->
  0 <= count (as_multiport (match_data m)) -> 0 <= count (v1_multiport (as_multiport_v1 (match_data m))) -> multiport_items m <> None ->
  says size (multiport_words isSrcPorts m) (IptablesMultiport_GetPorts m isSrcPorts (mkBuffer "" size)).
Proof.
  intros Hs Hc Hc1 Hi. unfold multiport_words, IptablesMultiport_GetPorts. set (flags := multiport_flags _).
  assert (Hgo : says size ('(invert, items) ← multiport_items m; Some (Some (negated_expression invert (String.concat "," (map item_text items)))))
    (if u32 (match_size m - SIZEOF_XT_ENTRY_MATCH) =? SIZEOF_XT_MULTIPORT then IptablesMultiport_FormatMultiportMatch m (mkBuffer "" size)
     else if u32 (match_size m - SIZEOF_XT_ENTRY_MATCH) =? SIZEOF_XT_MULTIPORT_V1 then IptablesMultiport_FormatMultiportV1Match m (mkBuffer "" size)
     else Some (IPTABLES_OK, mkBuffer "" size))).
  { unfold multiport_items in *. destruct (_ =? SIZEOF_XT_MULTIPORT).
    - destruct (port_items _ _ _) as [items|] eqn:E; [|done]. cbn [mbind option_bind negated_expression] in *. rewrite <- joined_concat.
      apply writes_says. set (info := as_multiport (match_data m)) in *.
      apply (format_ports_run (ports info) (repeat 0 (Z.to_nat (count info))) (single_port info) (count info)) with (j := 0%nat) (n := Z.to_nat (count info));
        [|exact E|by apply counted_all|apply Nat.le_refl|done]. intros j Hj. unfold single_port, item_at. rewrite Nat2Z.id, zero_flags_lookup by (apply Nat2Z.inj_lt; by rewrite Z2Nat.id). cbn [mbind option_bind].
      by destruct (ports info !! j).
    - destruct (_ =? SIZEOF_XT_MULTIPORT_V1); [|apply writes_says; by apply write_nothing].
      set (info := as_multiport_v1 (match_data m)) in *.
      destruct (port_items _ _ _) as [items|] eqn:E; [|done]. cbn [mbind option_bind] in *. rewrite <- joined_concat. apply writes_says.
      unfold IptablesMultiport_FormatMultiportV1Match. cbv zeta. fold info.
      assert (Hports : forall b, usable b -> writes b (joined true items)
        (format_ports (Z.to_nat (count (v1_multiport info))) (port_or_range info) (count (v1_multiport info)) 0 b)).
      { intros b Hb. apply (format_ports_run (ports (v1_multiport info)) (pflags info) (port_or_range info) (count (v1_multiport info)))
          with (j := 0%nat) (n := Z.to_nat (count (v1_multiport info))); [|exact E|by apply counted_all|apply Nat.le_refl|done].
        intros j Hj. unfold port_or_range, item_at. rewrite Nat2Z.id. replace (Z.to_nat (Z.of_nat j + 1)) with (S j) by lia. done. }
      destruct (has_flag (multiport_invert info) MULTIPORT_INVERT_FLAG); cbn [negated_expression].
      + apply writes_then; [done | by apply write_text_run |]. intros b Hb. pose proof (Hports b Hb) as Hw.
        destruct (format_ports _ _ _ 0 b) as [r|]; [|by destruct Hw as [b' Hw]]. cbn [mbind option_bind].
        apply writes_then; [done | exact Hw |]. intros b1 Hb1. by apply write_text_run.
      + change (joined true items) with ("" ++ joined true items)%string. apply writes_then; [done | by apply write_nothing |].
        intros b Hb. pose proof (Hports b Hb) as Hw. rewrite <- (sapp_nil_r (joined true items)).
        destruct (format_ports _ _ _ 0 b) as [r|]; [|by destruct Hw as [b' Hw]]. cbn [mbind option_bind].
        apply writes_then; [done | exact Hw |]. intros b1 Hb1. by apply write_nothing. }
  destruct isSrcPorts; cbn [andb negb]; destruct (flags =? _); first [apply says_nothing | exact Hgo].
Qed.

Lemma tcp_says size isSrcPorts m : 0 < size <= UINT32_MAX ->
  says size (tcp_words isSrcPorts m) (Some (IptablesPortUtils_GetPortsTcpMatch m isSrcPorts (mkBuffer "" size))).
Proof.
  intros Hs. assert (Hrun : forall (low high : Z) (invert : bool), says size
    (Some (if (low =? MIN_PORT) && (high =? MAX_PORT) then None
        else Some (if (low =? high)%Z then (if invert then "!(" else "") ++ sdec low ++ " "
                   else negated_expression invert (sdec low ++ "-" ++ sdec high))%string))
    (Some (IptablesUtils_FormatRangedPorts low high invert (mkBuffer "" size)))).
  { intros low high invert. unfold IptablesUtils_FormatRangedPorts.
    destruct (low =? MIN_PORT), (high =? MAX_PORT); cbn [negb orb andb]; try apply says_nothing.
    all: destruct (low =? high)%Z; [by apply write_says|]; destruct invert; cbn [negated_expression].
    all: first [rewrite <- (sapp_nil_r (sdec low ++ "-" ++ sdec high)), sapp_assoc, (sapp_assoc "-"); by apply write_says
               | rewrite sapp_assoc, (sapp_assoc "-"); by apply write_says]. }
  unfold tcp_words, IptablesPortUtils_GetPortsTcpMatch. destruct isSrcPorts; apply Hrun.
Qed.

Lemma GetPort_says size isSrcPorts e l : 0 < size <= UINT32_MAX -> entry_matches e l -> readable l ->
  says size (port_words isSrcPorts l) (IptablesPortUtils_GetPort e isSrcPorts (mkBuffer "" size)).
Proof.
  intros Hs Hl Hread. unfold IptablesPortUtils_GetPort, port_words. apply for_matches_says; [done|].
  intros m Hin. unfold match_port_words, match_ports.
  destruct (Utils_UnsafeAreStringsEqual (match_name m) IPTABLES_TCP_MATCH true); [by apply tcp_says|].
  destruct (Utils_UnsafeAreStringsEqual (match_name m) IPTABLES_MULTIPORT_MATCH true) eqn:Em; [|apply says_nothing].
  destruct (proj1 (List.Forall_forall _ _) Hread m Hin Em) as (H1 & H2 & H3). by apply multiport_says.
Qed.

(** *** The protocol *)

Lemma FormatProtocol_says size i : 0 < size <= UINT32_MAX ->
  says size (protocol_words i)
    (Some (if proto i =? 0 then (IPTABLES_NO_DATA, mkBuffer "" size)
           else IptablesUtils_FormatProtocol (proto i) (has_flag (invflags i) IPT_INV_PROTO) (mkBuffer "" size))).
Proof.
  intros Hs. unfold protocol_words, IptablesUtils_FormatProtocol. destruct (proto i =? 0); [apply says_nothing|].
  assert (Hneg : forall invert t, ((if invert : bool then IPTABLES_NEGATE else IPTABLES_EMPTY) ++ t)%string = negated invert t) by (by intros []).
  destruct (proto i =? IPPROTO_TCP); [rewrite Hneg; by apply write_says|]. destruct (proto i =? IPPROTO_UDP); [rewrite Hneg; by apply write_says|].
  destruct (proto i =? IPPROTO_ICMP); [rewrite Hneg; by apply write_says | by eexists _, _].
Qed.

End Matches.

(** ** Reading an address back *)

Definition read_number (s : string) : option (Z * string) :=
  match read_digits 10 0 0 s with
  | (_, O, _) => None
  | (n, _, rest) => Some (n, rest)
  end.

Definition read_char (c : ascii) (s : string) : option string :=
  match s with
  | String d s => if Ascii.eqb c d then Some s else None
  | EmptyString => None
  end.

Definition of_bytes (l : list Z) : Z := fold_left (fun n b => n * 256 + b) l 0.

(** The four numbers of an address, as the number that the network has. *)
Definition read_dotted (s : string) : option (Z * string) :=
  '(a, s) ← read_number s; s ← read_char "." s;
  '(b, s) ← read_number s; s ← read_char "." s;
  '(c, s) ← read_number s; s ← read_char "." s;
  '(d, s) ← read_number s;
  Some (ntohl (of_bytes [a; b; c; d]), s).

(** Whether an address is negated, the address and its mask. *)
Definition read_address (s : string) : option (bool * Z * Z) :=
  let '(invert, s) := match read_char "!" s with Some s => (true, s) | None => (false, s) end in
  '(address, s) ← read_dotted s;
  match s with
  | EmptyString => Some (invert, address, 0)
  | _ =>
      s ← read_char "/" s;
      '(n, rest) ← read_number s;
      match rest with
      | EmptyString => Some (invert, address, ntohl (netmask n))
      | _ => '(mask, _) ← read_dotted s; Some (invert, address, mask)
      end
  end.

Definition byte (b : Z) : Prop := 0 <= b < 256.

Lemma lor_shift a b k : 0 <= k -> 0 <= a -> 0 <= b < 2 ^ k -> Z.lor (Z.shiftl a k) b = a * 2 ^ k + b.
Proof.
  intros Hk Ha Hb. rewrite <- Z.shiftl_mul_pow2 by done. symmetry. rewrite <- Z.lxor_lor, <- Z.add_nocarry_lxor; try done.
  all: apply Z.bits_inj'; intros i Hi; rewrite Z.land_spec, Z.bits_0, Z.shiftl_spec by done.
  all: destruct (Z.ltb_spec i k); [by rewrite Z.testbit_neg_r by lia|].
  all: replace (Z.testbit b i) with false by (rewrite <- (Z.mod_small b (2 ^ k)) by done; symmetry; apply Z.mod_pow2_bits_high; lia).
  all: apply andb_false_r.
Qed.

Lemma land_byte n : Z.land n 255 = n mod 256.
Proof. exact (Z.land_ones n 8 ltac:(lia)). Qed.

Lemma byte_of n k : 0 <= k -> Z.land (Z.shiftr n k) 255 = (n / 2 ^ k) mod 256.
Proof. intros. rewrite Z.shiftr_div_pow2 by done. by rewrite land_byte. Qed.

Lemma raw_bytes n : IP_BYTES_RAW n = [(n / 2 ^ 24) mod 256; (n / 2 ^ 16) mod 256; (n / 2 ^ 8) mod 256; n mod 256].
Proof. unfold IP_BYTES_RAW. rewrite !byte_of by lia. by rewrite land_byte. Qed.

Lemma raw_bytes_back n : is_u32 n -> of_bytes (IP_BYTES_RAW n) = n.
Proof.
  intros Hn. unfold is_u32, UINT32_MAX in Hn. rewrite raw_bytes. unfold of_bytes. cbn [fold_left].
  change (2 ^ 24) with 16777216. change (2 ^ 16) with 65536. change (2 ^ 8) with 256. Z.to_euclidean_division_equations; lia.
Qed.

Lemma ntohl_value n : ntohl n = (n mod 256) * 2 ^ 24 + ((n / 2 ^ 8) mod 256) * 2 ^ 16 + ((n / 2 ^ 16) mod 256) * 2 ^ 8 + (n / 2 ^ 24) mod 256.
Proof.
  unfold ntohl. rewrite !byte_of, land_byte by lia. change (2 ^ 8) with 256 at 1.
  pose proof (Z.mod_pos_bound n 256 ltac:(lia)). pose proof (Z.mod_pos_bound (n / 2 ^ 8) 256 ltac:(lia)).
  pose proof (Z.mod_pos_bound (n / 2 ^ 16) 256 ltac:(lia)). pose proof (Z.mod_pos_bound (n / 2 ^ 24) 256 ltac:(lia)).
  change (2 ^ 8) with 256 in *.
  rewrite (lor_shift _ ((n / 2 ^ 24) mod 256) 8) by (change (2 ^ 8) with 256; lia).
  rewrite (lor_shift _ _ 16) by (change (2 ^ 8) with 256; change (2 ^ 16) with 65536 in *; lia).
  rewrite (lor_shift _ _ 24) by (change (2 ^ 8) with 256; change (2 ^ 16) with 65536 in *; change (2 ^ 24) with 16777216 in *; lia).
  change (2 ^ 8) with 256. lia.
Qed.

Lemma ntohl_bytes a b c d : byte a -> byte b -> byte c -> byte d ->
  ntohl (a * 2 ^ 24 + b * 2 ^ 16 + c * 2 ^ 8 + d) = d * 2 ^ 24 + c * 2 ^ 16 + b * 2 ^ 8 + a.
Proof.
  unfold byte. intros Ha Hb Hc Hd. rewrite ntohl_value. change (2 ^ 24) with 16777216. change (2 ^ 16) with 65536. change (2 ^ 8) with 256.
  set (n := a * 16777216 + b * 65536 + c * 256 + d).
  rewrite <- (Z.mod_unique n 256 (a * 65536 + b * 256 + c) d) by (unfold n; lia).
  rewrite <- (Z.div_unique n 256 (a * 65536 + b * 256 + c) d) by (unfold n; lia).
  rewrite <- (Z.div_unique n 65536 (a * 256 + b) (c * 256 + d)) by (unfold n; lia).
  rewrite <- (Z.div_unique n 16777216 a (b * 65536 + c * 256 + d)) by (unfold n; lia).
  rewrite <- (Z.mod_unique (a * 65536 + b * 256 + c) 256 (a * 256 + b) c) by lia.
  rewrite <- (Z.mod_unique (a * 256 + b) 256 a b) by lia. rewrite (Z.mod_small a) by lia. lia.
Qed.

Lemma ntohl_involutive n : is_u32 n -> ntohl (ntohl n) = n.
Proof.
  intros Hn. pose proof (raw_bytes_back n Hn) as Hback. rewrite raw_bytes in Hback. unfold of_bytes in Hback. cbn [fold_left] in Hback.
  rewrite (ntohl_value n). rewrite ntohl_bytes by (apply Z.mod_pos_bound; lia).
  change (2 ^ 24) with 16777216 in *. change (2 ^ 16) with 65536 in *. change (2 ^ 8) with 256 in *. lia.
Qed.

Lemma ntohl_u32 n : is_u32 (ntohl n).
Proof.
  rewrite ntohl_value. unfold is_u32, UINT32_MAX. change (2 ^ 24) with 16777216. change (2 ^ 16) with 65536. change (2 ^ 8) with 256.
  Z.to_euclidean_division_equations; lia.
Qed.

Lemma bytes_back n : is_u32 n -> ntohl (of_bytes (IP_BYTES n)) = n.
Proof. intros Hn. unfold IP_BYTES. rewrite raw_bytes_back by apply ntohl_u32. by apply ntohl_involutive. Qed.

(** What may come after a number. *)
Definition no_digit (s : string) : Prop := match s with EmptyString => True | String c _ => nondigit c end.

Lemma read_number_udec n rest : 0 <= n < 10 ^ 20 -> no_digit rest -> read_number (udec n ++ rest)%string = Some (n, rest).
Proof.
  intros Hn Hr. rewrite udec_append. unfold udec_then, read_number.
  destruct (read_digits_udec_aux 19 n rest 0 0 Hn) as (k & Hk & ->). rewrite Z.mul_0_l, Z.add_0_l.
  destruct rest as [|c rest]; [|rewrite nondigit_stop by done]; cbn [read_digits]; (destruct k; [lia | done]).
Qed.

Lemma IP_BYTES_bytes n : exists a b c d, IP_BYTES n = [a; b; c; d] /\ byte a /\ byte b /\ byte c /\ byte d.
Proof.
  unfold IP_BYTES. rewrite raw_bytes. do 4 eexists. split; [reflexivity|]. repeat split; apply Z.mod_pos_bound; lia.
Qed.

Lemma read_dotted_back n rest : is_u32 n -> no_digit rest -> read_dotted (dotted (IP_BYTES n) ++ rest)%string = Some (n, rest).
Proof.
  intros Hn Hr. pose proof (bytes_back n Hn) as Hback. destruct (IP_BYTES_bytes n) as (a & b & c & d & E & Ha & Hb & Hc & Hd). rewrite E in *.
  unfold byte in *. unfold dotted. cbn [map String.concat]. rewrite !sapp_assoc. unfold read_dotted.
  assert (Hrange : forall x, 0 <= x < 256 -> 0 <= x < 10 ^ 20) by (intros x Hx; change (10 ^ 20) with 100000000000000000000; lia).
  rewrite read_number_udec by (by auto || done). cbn [mbind option_bind read_char String.append Ascii.eqb Bool.eqb].
  rewrite read_number_udec by (by auto || done). cbn [mbind option_bind read_char String.append Ascii.eqb Bool.eqb].
  rewrite read_number_udec by (by auto || done). cbn [mbind option_bind read_char String.append Ascii.eqb Bool.eqb].
  rewrite read_number_udec by auto. cbn [mbind option_bind]. by rewrite Hback.
Qed.

Lemma udec_first n : 0 <= n -> exists d s, 0 <= d <= 9 /\ udec n = String (digit_char d) s.
Proof. intros Hn. apply (udec_aux_first 19 n EmptyString Hn). Qed.

Lemma address_text_back invert address mask : is_u32 address -> is_u32 mask ->
  read_address (address_text invert address mask) = Some (invert, address, mask).
Proof.
  intros Ha Hm. unfold address_text. set (tail := match prefix_length (ntohl mask) with Some _ => _ | None => _ end).
  assert (Hbody : forall s, read_char "!" s = None -> s = (dotted (IP_BYTES address) ++ tail)%string ->
    read_address s = Some (false, address, mask) /\ read_address ("!" ++ s) = Some (true, address, mask)).
  { intros s Hs ->. assert (Htail : no_digit tail).
    { unfold tail. destruct (prefix_length (ntohl mask)); [done|]. by destruct (mask =? 0)%Z. }
    unfold read_address. rewrite Hs. cbn [read_char String.append Ascii.eqb Bool.eqb]. rewrite read_dotted_back by done. cbn [mbind option_bind].
    unfold tail. destruct (prefix_length (ntohl mask)) as [n|] eqn:E.
    - apply prefix_length_range in E as [Hn E]. cbn [String.append read_char Ascii.eqb Bool.eqb mbind option_bind].
      rewrite <- (sapp_nil_r (udec n)), read_number_udec by (done || (change (10 ^ 20) with 100000000000000000000; lia)).
      cbn [mbind option_bind]. rewrite E, ntohl_involutive by done. done.
    - destruct (Z.eqb_spec mask 0) as [->|H0]; [done|]. cbn [String.append read_char Ascii.eqb Bool.eqb mbind option_bind].
      pose proof (read_dotted_back mask "" Hm I) as Hd. rewrite sapp_nil_r in Hd. rewrite Hd.
      destruct (IP_BYTES_bytes mask) as (a & b & c & d & E' & Hba & _). unfold byte in Hba.
      assert (Hnum : read_number (dotted (IP_BYTES mask)) = Some (a, ("." ++ udec b ++ "." ++ udec c ++ "." ++ udec d)%string)).
      { rewrite E'. unfold dotted. cbn [map String.concat].
        apply read_number_udec; [change (10 ^ 20) with 100000000000000000000; lia | done]. }
      rewrite Hnum. done. }
  assert (Hs : read_char "!" (dotted (IP_BYTES address) ++ tail) = None).
  { destruct (IP_BYTES_bytes address) as (a & b & c & d & E & Hba & _). rewrite E. unfold dotted. cbn [map String.concat].
    destruct (udec_first a) as (x & s & Hx & ->); [unfold byte in Hba; lia|]. cbn [String.append read_char].
    rewrite Ascii.eqb_sym, nondigit_ne_digit_char by done. done. }
  destruct (Hbody _ Hs eq_refl) as [H1 H2]. by destruct invert.
Qed.

Lemma dotted_length n : strlen (dotted (IP_BYTES n)) <= 15.
Proof.
  destruct (IP_BYTES_bytes n) as (a & b & c & d & E & Ha & Hb & Hc & Hd). rewrite E. unfold dotted. cbn [map String.concat].
  rewrite !strlen_app. change (strlen ".") with 1. unfold byte in *.
  assert (H : forall x, 0 <= x < 256 -> strlen (udec x) <= 3) by (intros x Hx; apply (udec_length x 3); [change (10 ^ Z.of_nat 3) with 1000|]; lia).
  pose proof (H a Ha). pose proof (H b Hb). pose proof (H c Hc). pose proof (H d Hd). lia.
Qed.

Lemma address_text_length invert address mask : strlen (address_text invert address mask) <= 32.
Proof.
  unfold address_text. assert (Hneg : strlen (negated invert (dotted (IP_BYTES address) ++ match prefix_length (ntohl mask) with
    | Some n => ("/" ++ udec n)%string | None => if (mask =? 0)%Z then "" else "/" ++ dotted (IP_BYTES mask) end)) <=
    1 + strlen (dotted (IP_BYTES address) ++ match prefix_length (ntohl mask) with
    | Some n => ("/" ++ udec n)%string | None => if (mask =? 0)%Z then "" else "/" ++ dotted (IP_BYTES mask) end)).
  { destruct invert; cbn [negated]; [rewrite strlen_app; change (strlen "!") with 1; lia | lia]. }
  etransitivity; [exact Hneg|]. rewrite strlen_app. pose proof (dotted_length address).
  destruct (prefix_length (ntohl mask)) as [n|] eqn:E.
  - apply prefix_length_range in E as [Hn _]. rewrite strlen_app. change (strlen "/") with 1.
    pose proof (udec_length n 2 ltac:(change (10 ^ Z.of_nat 2) with 100; lia) ltac:(lia)). lia.
  - destruct (mask =? 0)%Z; [change (strlen "") with 0; lia|]. rewrite strlen_app. change (strlen "/") with 1. pose proof (dotted_length mask). lia.
Qed.

(** C16: The text of an address tells everything about it: for any address, any
    mask, contiguous or not, and a negation or none, the function writes into a
    buffer of more than 32 bytes a text that is read back as the same three, unless
    address and mask are both zero and there is no address to write. *)
Theorem FormatIp_roundtrip address mask invert size :
  is_u32 address -> is_u32 mask -> 32 < size <= UINT32_MAX -> address <> 0 \/ mask <> 0 ->
  exists b, IptablesUtils_FormatIp address mask invert (mkBuffer "" size) = (IPTABLES_OK, b) /\
    read_address (written b) = Some (invert, address, mask).
Proof.
  intros Ha Hm Hs H0. destruct (FormatIp_run size address mask invert) as (r & b & E & Hw); [lia|]. injection E as E.
  replace ((address =? 0) && (mask =? 0)) with false in Hw by (destruct (Z.eqb_spec address 0), (Z.eqb_spec mask 0); tauto).
  pose proof (address_text_length invert address mask). rewrite (proj2 (Z.ltb_lt _ _)) in Hw by lia. destruct Hw as [-> Hw].
  exists b. split; [exact E|]. rewrite Hw. by apply address_text_back.
Qed.

Lemma FormatIp_roundtrip_witness :
  exists b, IptablesUtils_FormatIp 167815360 65535 true (mkBuffer "" 300) = (IPTABLES_OK, b) /\
    read_address (written b) = Some (true, 167815360, 65535).
Proof. apply (FormatIp_roundtrip 167815360 65535 true 300); unfold is_u32, UINT32_MAX; lia. Defined.
