(* ===== verification/IptablesIterator.v ===== *)
(** * [iptables_iterator.c] and [iptables_rules_iterator.c]: the rules of the firewall

    The chains of the table of filters and the rules of a chain are stepped
    through with libiptc, which is a parameter.  Its handle is behind a pointer
    that an iterator of chains shares with the iterators of rules it makes, so
    that the state has a heap of handles. *)

From S2P Require Import Prelude CString TwinDefs World Utils Parson Json MemoryMonitor Telemetry Queue SyncQueue FileUtils AuditLog Iptables.
From Stdlib Require Import String.
Open Scope Z_scope.

(** ** The library *)

(** [Tables] is what the kernel has, [Iptc] what a handle that is not null points
    to, [RulePtr] a pointer to an entry, which is constant.  [iptc_init] gives
    [errno] too. *)
Class Libiptc {Md : MatchData} : Type := {
  Tables : Type;
  Iptc : Type;
  RulePtr : Type;
  entry_of : RulePtr -> ipt_entry;
  iptc_init : Tables -> string -> option Iptc * Z;
  iptc_first_chain : Iptc -> option string * Iptc;
  iptc_next_chain : Iptc -> option string * Iptc;
  iptc_first_rule : string -> Iptc -> option RulePtr * Iptc;
  iptc_next_rule : RulePtr -> Iptc -> option RulePtr * Iptc;
  iptc_get_target : RulePtr -> Iptc -> option string;
  iptc_builtin : string -> Iptc -> bool;
  iptc_get_policy : string -> Iptc -> option string;
}.

Definition FILTERS_TABLE : string := "filter".
Definition ENOPROTOOPT : Z := 92.

Section Rules.
Context {Md : MatchData} {Ic : Libiptc}.

(** A chain: only a built-in one has a policy, which may be unknown. *)
Record Chain : Type := mkChain {
  chain_name : string;
  chain_policy : option (option string);
  chain_rules : list RulePtr;
}.

(** What a handle stands for: the chains of its table, and where it is in them. *)
Record IptcView : Type := mkIptcView {
  v_chains : list Chain;
  v_chains_left : list Chain;
  v_rule : option RulePtr;
  v_rules_left : list RulePtr;
}.

Definition at_chains (l : list Chain) (v : IptcView) : IptcView := mkIptcView (v_chains v) (List.tl l) (v_rule v) (v_rules_left v).
Definition at_rules (l : list RulePtr) (v : IptcView) : IptcView := mkIptcView (v_chains v) (v_chains_left v) (head l) (List.tl l).

(** What the documentation of libiptc says.  The kernel lets in only entries whose
    matches follow each other up to their target, within their sizes. *)
Class LibiptcLaws : Type := {
  filter_chains : Tables -> list Chain;
  iptc_view : Iptc -> IptcView;
  rule_target : RulePtr -> option string;
  rule_matches : RulePtr -> list xt_entry_match;
  matches_law : forall p, entry_matches (entry_of p) (rule_matches p) /\ readable (rule_matches p);
  init_law : forall t h errno, iptc_init t FILTERS_TABLE = (Some h, errno) -> v_chains (iptc_view h) = filter_chains t;
  first_chain_law : forall h, let '(name, h') := iptc_first_chain h in
    name = chain_name <$> head (v_chains (iptc_view h)) /\ iptc_view h' = at_chains (v_chains (iptc_view h)) (iptc_view h);
  next_chain_law : forall h, let '(name, h') := iptc_next_chain h in
    name = chain_name <$> head (v_chains_left (iptc_view h)) /\ iptc_view h' = at_chains (v_chains_left (iptc_view h)) (iptc_view h);
  first_rule_law : forall h c, In c (v_chains (iptc_view h)) -> let '(p, h') := iptc_first_rule (chain_name c) h in
    p = head (chain_rules c) /\ iptc_view h' = at_rules (chain_rules c) (iptc_view h);
  next_rule_law : forall h p, v_rule (iptc_view h) = Some p -> let '(p', h') := iptc_next_rule p h in
    p' = head (v_rules_left (iptc_view h)) /\ iptc_view h' = at_rules (v_rules_left (iptc_view h)) (iptc_view h);
  target_law : forall h p, iptc_get_target p h = rule_target p;
  builtin_law : forall h c, In c (v_chains (iptc_view h)) ->
    iptc_builtin (chain_name c) h = match chain_policy c with Some _ => true | None => false end;
  policy_law : forall h c p, In c (v_chains (iptc_view h)) -> chain_policy c = Some p -> iptc_get_policy (chain_name c) h = p;
}.

End Rules.

Arguments LibiptcLaws {Md} Ic.

Section IptablesIterator.
Context {Ap : Auparse} {Md : MatchData} {Ic : Libiptc}.

(** The heap of queue items with the program's statics, the host, the tables of
    the kernel and the handles of libiptc by their addresses. *)
Record FirewallState : Type := mkFirewallState {
  fs_store : Store (D := string);
  fs_host : Host;
  fs_tables : Tables;
  fs_handles : gmap nat Iptc;
  fs_next : nat;
}.

#[export] Instance firewall_has_world : HasWorld FirewallState.
Proof.
  refine {| world_of := fun s => st_world (fs_store s);
            with_world := fun w s => mkFirewallState (mkStore w (st_heap (fs_store s)) (next_item (fs_store s)))
                                       (fs_host s) (fs_tables s) (fs_handles s) (fs_next s) |}; by intros; destruct s as [[] ? ? ? ?].
Defined.

#[export] Instance firewall_has_host : HasHost FirewallState.
Proof.
  by refine {| host_of := fs_host; with_host h s := mkFirewallState (fs_store s) h (fs_tables s) (fs_handles s) (fs_next s) |};
    try intros [].
Defined.

Definition set_handles (l : gmap nat Iptc) (s : FirewallState) : FirewallState :=
  mkFirewallState (fs_store s) (fs_host s) (fs_tables s) l (fs_next s).

Definition new_handle (h : Iptc) : M FirewallState nat := fun s =>
  Some (fs_next s, mkFirewallState (fs_store s) (fs_host s) (fs_tables s) (<[fs_next s := h]> (fs_handles s)) (S (fs_next s))).

(** A call of the library on the handle at [iptcHandle]. *)
Definition on_handle {A} (iptcHandle : option nat) (f : Iptc -> A * Iptc) : M FirewallState A :=
  a <- deref iptcHandle ;;
  l <- gets fs_handles ;;
  h <- deref (l !! a) ;;
  let '(x, h) := f h in
  modify (set_handles (<[a := h]> l)) ;;;
  ret x.

Definition read_handle {A} (iptcHandle : option nat) (f : Iptc -> A) : M FirewallState A := on_handle iptcHandle (fun h => (f h, h)).

Definition iptc_free (a : nat) : M FirewallState unit :=
  l <- gets fs_handles ;;
  match l !! a with
  | Some _ => modify (set_handles (delete a l))
  | None => undefined
  end.

(** ** [iptables_iterator.c] *)

Record IptablesIterator : Type := mkIptablesIterator {
  iptcHandle : option nat;
  started : bool;
  currentChain : option string;
}.

Record IptablesRulesIterator : Type := mkIptablesRulesIterator {
  rules_iptcHandle : option nat;
  currentEntry : option RulePtr;
  rules_started : bool;
  chain : option string;
}.

Definition IptablesIterator_Deinit (iterator : IptablesIterator) : M FirewallState unit :=
  match iptcHandle iterator with
  | Some a => iptc_free a
  | None => ret tt
  end.

Definition IptablesIterator_Init : M FirewallState (IptablesResults * option IptablesIterator) :=
  allocated <- up malloc ;;
  if negb allocated then ret (IPTABLES_EXCEPTION, None)
  else
    t <- gets fs_tables ;;
    let '(h, errno) := iptc_init t FILTERS_TABLE in
    match h with
    | None =>
        IptablesIterator_Deinit (mkIptablesIterator None false None) ;;;
        ret (if errno =? ENOPROTOOPT then IPTABLES_NO_DATA else IPTABLES_EXCEPTION, None)
    | Some h =>
        a <- new_handle h ;;
        ret (IPTABLES_OK, Some (mkIptablesIterator (Some a) false None))
    end.

Definition IptablesIterator_GetNext (iterator : IptablesIterator) : M FirewallState (IptablesResults * IptablesIterator) :=
  currentChain <- on_handle (iptcHandle iterator) (if started iterator then iptc_next_chain else iptc_first_chain) ;;
  let iterator := mkIptablesIterator (iptcHandle iterator) true currentChain in
  ret (match currentChain with None => IPTABLES_ITERATOR_NO_MORE_ITEMS | Some _ => IPTABLES_ITERATOR_HAS_NEXT end, iterator).

Definition IptablesIterator_GetChainName (iterator : IptablesIterator) : IptablesResults * option string :=
  (IPTABLES_OK, currentChain iterator).

(** [None] is the value that [actionType] had before. *)
Definition IptablesIterator_GetPolicyAction (iterator : IptablesIterator) : M FirewallState (IptablesResults * option IptablesActionType) :=
  name <- deref (currentChain iterator) ;;
  builtin <- read_handle (iptcHandle iterator) (iptc_builtin name) ;;
  if negb builtin then ret (IPTABLES_NO_DATA, None)
  else
    policy <- read_handle (iptcHandle iterator) (iptc_get_policy name) ;;
    ret (match IptablesUtils_GetActionTypeEnumFromActionString policy with
         | Some action => (IPTABLES_OK, Some action)
         | None => (IPTABLES_EXCEPTION, None)
         end).

(** ** [iptables_rules_iterator.c] *)

Definition IptablesRulesIterator_Init (chainIterator : IptablesIterator) : M FirewallState (IptablesResults * option IptablesRulesIterator) :=
  allocated <- up malloc ;;
  if negb allocated then ret (IPTABLES_EXCEPTION, None)
  else
    chain <- up (Utils_CreateStringCopy (currentChain chainIterator)) ;;
    ret (match chain with
         | None => (IPTABLES_EXCEPTION, None)
         | Some _ => (IPTABLES_OK, Some (mkIptablesRulesIterator (iptcHandle chainIterator) None false chain))
         end).

Definition IptablesIterator_GetRulesIterator (iterator : IptablesIterator) : M FirewallState (IptablesResults * option IptablesRulesIterator) :=
  IptablesRulesIterator_Init iterator.

Definition IptablesRulesIterator_GetNext (iterator : IptablesRulesIterator) : M FirewallState (IptablesResults * IptablesRulesIterator) :=
  currentEntry <-
    (if negb (rules_started iterator)
     then name <- deref (chain iterator) ;; on_handle (rules_iptcHandle iterator) (iptc_first_rule name)
     else p <- deref (currentEntry iterator) ;; on_handle (rules_iptcHandle iterator) (iptc_next_rule p)) ;;
  let iterator := mkIptablesRulesIterator (rules_iptcHandle iterator) currentEntry true (chain iterator) in
  ret (match currentEntry with None => IPTABLES_ITERATOR_NO_MORE_ITEMS | Some _ => IPTABLES_ITERATOR_HAS_NEXT end, iterator).

(** The functions that write about the current entry. *)
Definition on_entry (f : ipt_entry -> Buffer -> option (IptablesResults * Buffer)) (iterator : IptablesRulesIterator) (buffer : Buffer)
    : M FirewallState (IptablesResults * Buffer) :=
  p <- deref (currentEntry iterator) ;;
  deref (f (entry_of p) buffer).

Definition IptablesRulesIterator_GetSrcIp : IptablesRulesIterator -> Buffer -> M FirewallState (IptablesResults * Buffer) :=
  on_entry (fun entry => IptablesIpUtils_GetIp entry true).

Definition IptablesRulesIterator_GetDestIp : IptablesRulesIterator -> Buffer -> M FirewallState (IptablesResults * Buffer) :=
  on_entry (fun entry => IptablesIpUtils_GetIp entry false).

Definition IptablesRulesIterator_GetSrcPort : IptablesRulesIterator -> Buffer -> M FirewallState (IptablesResults * Buffer) :=
  on_entry (fun entry => IptablesPortUtils_GetPort entry true).

Definition IptablesRulesIterator_GetDestPort : IptablesRulesIterator -> Buffer -> M FirewallState (IptablesResults * Buffer) :=
  on_entry (fun entry => IptablesPortUtils_GetPort entry false).

Definition IptablesRulesIterator_GetProtocol : IptablesRulesIterator -> Buffer -> M FirewallState (IptablesResults * Buffer) :=
  on_entry (fun entry buffer =>
    Some (if proto (ip entry) =? 0 then (IPTABLES_NO_DATA, buffer)
          else IptablesUtils_FormatProtocol (proto (ip entry)) (has_flag (invflags (ip entry)) IPT_INV_PROTO) buffer)).

(** The action, with the value that [actionType] has afterwards. *)
Definition IptablesRulesIterator_GetAction (iterator : IptablesRulesIterator) (actionType : IptablesActionType) (buffer : Buffer)
    : M FirewallState (IptablesResults * IptablesActionType * Buffer) :=
  p <- deref (currentEntry iterator) ;;
  targetName <- read_handle (rules_iptcHandle iterator) (iptc_get_target p) ;;
  ret (match targetName with
       | None | Some EmptyString => (IPTABLES_NO_DATA, actionType, buffer)
       | Some targetName =>
           match IptablesUtils_GetActionTypeEnumFromActionString (Some targetName) with
           | None => (IPTABLES_EXCEPTION, actionType, buffer)
           | Some actionType =>
               let '(result, buffer) :=
                 if has_flag (flags (ip (entry_of p))) IPT_F_GOTO then write_text buffer ("goto " ++ targetName)
                 else if decide (actionType = IPTABLES_ACTION_OTHER) then write_text buffer targetName
                 else (IPTABLES_OK, buffer) in
               (result, actionType, buffer)
           end
       end).

Definition IptablesRulesIterator_GetChainName (iterator : IptablesRulesIterator) : IptablesResults * option string :=
  (IPTABLES_OK, chain iterator).

End IptablesIterator.

(** ** Lemmas *)

Section IteratorLemmas.
Context {Ap : Auparse} {Md : MatchData} {Ic : Libiptc} {Laws : LibiptcLaws Ic}.

(** The handle at [a] is now [h]. *)
Definition with_handle (a : nat) (h : Iptc) (s : FirewallState) : FirewallState := set_handles (<[a := h]> (fs_handles s)) s.

(** Time has passed, and the handle at [a] has moved to [h]. *)
Definition moved (a : nat) (h : Iptc) (s s' : FirewallState) : Prop := exists n, s' = with_handle a h (elapse n s).

Lemma elapse_with_handle n a h s : elapse n (with_handle a h s) = with_handle a h (elapse n s).
Proof. by destruct s as [[] ? ? ? ?]. Qed.

Lemma with_handle_twice a h h' s : with_handle a h (with_handle a h' s) = with_handle a h s.
Proof. unfold with_handle, set_handles. cbn. by rewrite insert_insert_eq. Qed.

Lemma with_handle_same a h s : fs_handles s !! a = Some h -> with_handle a h s = s.
Proof. intros H. unfold with_handle, set_handles. rewrite insert_id by done. by destruct s. Qed.

Lemma handle_of_with a h s : fs_handles (with_handle a h s) !! a = Some h.
Proof. apply lookup_insert_eq. Qed.

Lemma moved_trans a h h' s s1 s2 : moved a h s s1 -> moved a h' s1 s2 -> moved a h' s s2.
Proof. intros [n ->] [m ->]. exists (m + n)%nat. by rewrite elapse_with_handle, with_handle_twice, elapse_elapse. Qed.

Lemma moved_elapse a h n s : fs_handles s !! a = Some h -> moved a h s (elapse n s).
Proof. intros H. exists n. by rewrite with_handle_same. Qed.

Lemma moved_refl a h s : fs_handles s !! a = Some h -> moved a h s s.
Proof. intros H. exists 0%nat. by rewrite elapse_0, with_handle_same. Qed.

Lemma moved_handle a h s s' : moved a h s s' -> fs_handles s' !! a = Some h.
Proof. intros [n ->]. apply handle_of_with. Qed.

Lemma moved_reliable a h s s' : moved a h s s' -> reliable (world_of s) -> reliable (world_of s').
Proof. intros [n ->]. apply (reliable_bump n). Qed.

Lemma on_handle_run {A} a h (f : Iptc -> A * Iptc) s : fs_handles s !! a = Some h ->
  on_handle (Some a) f s = Some (fst (f h), with_handle a (snd (f h)) s).
Proof.
  intros H. unfold on_handle, gets. cbn [deref]. rewrite bind_ret_l. unfold bind at 1. rewrite H. cbn [deref]. rewrite bind_ret_l.
  by destruct (f h).
Qed.

Lemma read_handle_run {A} a h (f : Iptc -> A) s : fs_handles s !! a = Some h -> read_handle (Some a) f s = Some (f h, s).
Proof. intros H. unfold read_handle. by rewrite (on_handle_run a h), with_handle_same. Qed.

(** *** Stepping through the chains *)

(** The iterator is at the first of [todo], whose handle knows the others. *)
Definition at_chain (a : nat) (t : list Chain) (todo : list Chain) (iterator : IptablesIterator) (h : Iptc) : Prop :=
  iptcHandle iterator = Some a /\ started iterator = true /\ currentChain iterator = chain_name <$> head todo /\
  v_chains (iptc_view h) = t /\ v_chains_left (iptc_view h) = List.tl todo.

Definition next_result {A} (todo : list A) : IptablesResults :=
  match todo with [] => IPTABLES_ITERATOR_NO_MORE_ITEMS | _ => IPTABLES_ITERATOR_HAS_NEXT end.

Lemma next_result_name {A B} (f : A -> B) l :
  match f <$> head l with None => IPTABLES_ITERATOR_NO_MORE_ITEMS | Some _ => IPTABLES_ITERATOR_HAS_NEXT end = next_result l.
Proof. by destruct l. Qed.

Lemma next_result_head {A} (l : list A) :
  match head l with None => IPTABLES_ITERATOR_NO_MORE_ITEMS | Some _ => IPTABLES_ITERATOR_HAS_NEXT end = next_result l.
Proof. by destruct l. Qed.

Lemma first_chain_run a h iterator s :
  fs_handles s !! a = Some h -> iptcHandle iterator = Some a -> started iterator = false ->
  exists iterator' h', IptablesIterator_GetNext iterator s =
      Some ((next_result (v_chains (iptc_view h)), iterator'), with_handle a h' s) /\
    at_chain a (v_chains (iptc_view h)) (v_chains (iptc_view h)) iterator' h'.
Proof.
  intros Hh Ha Hs. unfold IptablesIterator_GetNext. rewrite Ha, Hs. rewrite (bind_eq _ _ _ _ _ (on_handle_run a h _ s Hh)).
  pose proof (first_chain_law h) as H. destruct (iptc_first_chain h) as [name h']. destruct H as [-> Hv]. cbn [fst snd]. eexists _, h'.
  split; [rewrite next_result_name; reflexivity|]. unfold at_chain. by rewrite Hv.
Qed.

Lemma next_chain_run a h t c todo iterator s :
  fs_handles s !! a = Some h -> at_chain a t (c :: todo) iterator h ->
  exists iterator' h', IptablesIterator_GetNext iterator s = Some ((next_result todo, iterator'), with_handle a h' s) /\
    at_chain a t todo iterator' h'.
Proof.
  intros Hh (Ha & Hs & Hc & Ht & Hl). unfold IptablesIterator_GetNext. rewrite Ha, Hs. rewrite (bind_eq _ _ _ _ _ (on_handle_run a h _ s Hh)).
  pose proof (next_chain_law h) as H. rewrite Hl in H. cbn [List.tl] in H. destruct (iptc_next_chain h) as [name h']. destruct H as [-> Hv]. cbn [fst snd]. eexists _, h'.
  split; [rewrite next_result_name; reflexivity|]. unfold at_chain. by rewrite Hv.
Qed.

(** *** Stepping through the rules of a chain *)

Definition at_rule (a : nat) (name : string) (todo : list RulePtr) (iterator : IptablesRulesIterator) (h : Iptc) : Prop :=
  rules_iptcHandle iterator = Some a /\ rules_started iterator = true /\ chain iterator = Some name /\
  currentEntry iterator = head todo /\ v_rule (iptc_view h) = head todo /\ v_rules_left (iptc_view h) = List.tl todo.

(** A step among the rules leaves the chains as they are. *)
Definition same_chains (h h' : Iptc) : Prop :=
  v_chains (iptc_view h') = v_chains (iptc_view h) /\ v_chains_left (iptc_view h') = v_chains_left (iptc_view h).

Lemma first_rule_run a h c s : fs_handles s !! a = Some h -> In c (v_chains (iptc_view h)) ->
  exists iterator' h', IptablesRulesIterator_GetNext (mkIptablesRulesIterator (Some a) None false (Some (chain_name c))) s =
      Some ((next_result (chain_rules c), iterator'), with_handle a h' s) /\
    at_rule a (chain_name c) (chain_rules c) iterator' h' /\ same_chains h h'.
Proof.
  intros Hh Hc. unfold IptablesRulesIterator_GetNext. cbn [rules_started rules_iptcHandle chain currentEntry negb deref].
  rewrite bind_assoc, bind_ret_l, (bind_eq _ _ _ _ _ (on_handle_run a h _ s Hh)).
  pose proof (first_rule_law h c Hc) as H. destruct (iptc_first_rule (chain_name c) h) as [p h']. destruct H as [-> Hv]. cbn [fst snd]. eexists _, h'.
  split; [rewrite next_result_head; reflexivity|]. unfold at_rule, same_chains. by rewrite Hv.
Qed.

Lemma next_rule_run a h name p todo iterator s : fs_handles s !! a = Some h -> at_rule a name (p :: todo) iterator h ->
  exists iterator' h', IptablesRulesIterator_GetNext iterator s = Some ((next_result todo, iterator'), with_handle a h' s) /\
    at_rule a name todo iterator' h' /\ same_chains h h'.
Proof.
  intros Hh (Ha & Hs & Hc & He & Hr & Hl). unfold IptablesRulesIterator_GetNext. rewrite Ha, Hs, Hc, He. change (head (p :: todo)) with (Some p). cbn [negb deref].
  rewrite bind_assoc, bind_ret_l, (bind_eq _ _ _ _ _ (on_handle_run a h _ s Hh)).
  pose proof (next_rule_law h p Hr) as H. rewrite Hl in H. cbn [List.tl] in H. destruct (iptc_next_rule p h) as [p' h']. destruct H as [-> Hv]. cbn [fst snd]. eexists _, h'.
  split; [rewrite next_result_head; reflexivity|]. unfold at_rule, same_chains. by rewrite Hv.
Qed.

Lemma RulesIterator_Init_run a name started s : reliable (world_of s) ->
  IptablesIterator_GetRulesIterator (mkIptablesIterator (Some a) started (Some name)) s =
  Some ((IPTABLES_OK, Some (mkIptablesRulesIterator (Some a) None false (Some name))), elapse 2 s).
Proof.
  intros Hr. unfold IptablesIterator_GetRulesIterator, IptablesRulesIterator_Init.
  rewrite (bind_eq _ _ _ _ _ (up_bump _ _ 1 s (malloc_reliable _ Hr))). cbn [negb currentChain].
  assert (H : Utils_CreateStringCopy (Some name) (world_of (elapse 1 s)) = Some (Some name, bump 1 (world_of (elapse 1 s)))).
  { cbn [Utils_CreateStringCopy]. rewrite (bind_eq _ _ _ _ _ (malloc_reliable _ (reliable_bump 1 _ Hr))). done. }
  rewrite (bind_eq _ _ _ _ _ (up_bump _ _ 1 _ H)), elapse_elapse. done.
Qed.

(** *** What a rule and a chain say *)

Lemma GetPolicyAction_run a h c iterator s : fs_handles s !! a = Some h -> In c (v_chains (iptc_view h)) ->
  iptcHandle iterator = Some a -> currentChain iterator = Some (chain_name c) ->
  IptablesIterator_GetPolicyAction iterator s =
  Some (match chain_policy c with
        | None => (IPTABLES_NO_DATA, None)
        | Some policy => match IptablesUtils_GetActionTypeEnumFromActionString policy with
                         | Some action => (IPTABLES_OK, Some action)
                         | None => (IPTABLES_EXCEPTION, None)
                         end
        end, s).
Proof.
  intros Hh Hc Ha Hn. unfold IptablesIterator_GetPolicyAction. rewrite Ha, Hn. cbn [deref]. rewrite bind_ret_l.
  rewrite (bind_eq _ _ _ _ _ (read_handle_run a h _ s Hh)), (builtin_law h c Hc).
  destruct (chain_policy c) as [policy|] eqn:E; cbn [negb]; [|done].
  by rewrite (bind_eq _ _ _ _ _ (read_handle_run a h _ s Hh)), (policy_law h c policy Hc E).
Qed.

End IteratorLemmas.
