(* ===== verification/Firewall.v ===== *)
(** * [collectors/linux/firewall_collector.c]: the rules of the firewall as an event

    The collector steps through the chains of the table of filters as root.  Each
    rule of a chain is a payload of the event, with its place in the chain; the
    policy of the chain is a last one. *)

From S2P Require Import Prelude CString TwinDefs World Utils TimeUtils Parson ParsonModel Json TwinCollectors TwinConfiguration MemoryMonitor Telemetry Queue SyncQueue Schema MessageSerializer GenericEvent Collector FileUtils AuditLog Iptables IptablesIterator.
From Stdlib Require Import String.
Open Scope Z_scope.

Definition BUFFER_MAX_SIZE : Z := 300.
Definition FIREWALL_ALLOW_RULE : string := "Allow".
Definition FIREWALL_DENY_RULE : string := "Deny".
Definition FIREWALL_OTHER_RULE : string := "Other".
Definition FIREWALL_INPUT_CHAIN : string := "INPUT".
Definition FIREWALL_OUTPUT_CHAIN : string := "OUTPUT".
Definition FIREWALL_DIRECTION_IN : string := "In".
Definition FIREWALL_DIRECTION_OUT : string := "Out".

Section Firewall.
Context {P : Parson} {Mon : MemoryMonitor} {Ap : Auparse} {Md : MatchData} {Ic : Libiptc}.

(** ** The parts of a rule *)

(** What writes a part of a rule. *)
Definition RuleStep : Type := JsonObjectWriter -> M FirewallState (EventCollectorResult * JsonObjectWriter).

Definition written_or_exception (r : JsonWriterResult * JsonObjectWriter) : EventCollectorResult * JsonObjectWriter :=
  (if decide (fst r <> JSON_WRITER_OK) then EVENT_COLLECTOR_EXCEPTION else EVENT_COLLECTOR_OK, snd r).

Definition FirewallCollector_WriteRuleStringElement (iptablesResult : IptablesResults) (ruleWriter : JsonObjectWriter) (keyName value : string)
    : EventCollectorResult * JsonObjectWriter :=
  match iptablesResult with
  | IPTABLES_OK => written_or_exception (JsonObjectWriter_WriteString ruleWriter keyName value)
  | IPTABLES_NO_DATA => (EVENT_COLLECTOR_OK, ruleWriter)
  | _ => (EVENT_COLLECTOR_EXCEPTION, ruleWriter)
  end.

(** [actionType] is [None] when it was never set. *)
Definition FirewallCollector_WriteAction (iptablesResult : IptablesResults) (ruleWriter : JsonObjectWriter) (actionType : option IptablesActionType)
    : M FirewallState (EventCollectorResult * JsonObjectWriter) :=
  match iptablesResult with
  | IPTABLES_OK =>
      actionType <- deref actionType ;;
      ret (written_or_exception (JsonObjectWriter_WriteString ruleWriter FIREWALL_RULES_ACTION_KEY
        match actionType with
        | IPTABLES_ACTION_ALLOW => FIREWALL_ALLOW_RULE
        | IPTABLES_ACTION_DENY => FIREWALL_DENY_RULE
        | IPTABLES_ACTION_OTHER => FIREWALL_OTHER_RULE
        end))
  | IPTABLES_NO_DATA => ret (EVENT_COLLECTOR_OK, ruleWriter)
  | _ => ret (EVENT_COLLECTOR_EXCEPTION, ruleWriter)
  end.

Definition FirewallCollector_WriteRuleDirectionAndChainElements (ruleWriter : JsonObjectWriter) (chainName : option string)
    : EventCollectorResult * JsonObjectWriter :=
  match chainName with
  | None => (EVENT_COLLECTOR_EXCEPTION, ruleWriter)
  | Some chainName =>
      match JsonObjectWriter_WriteString ruleWriter FIREWALL_RULES_CHAIN_NAME_KEY chainName with
      | (JSON_WRITER_OK, ruleWriter) =>
          let direction :=
            if Utils_UnsafeAreStringsEqual chainName FIREWALL_INPUT_CHAIN true then Some FIREWALL_DIRECTION_IN
            else if Utils_UnsafeAreStringsEqual chainName FIREWALL_OUTPUT_CHAIN true then Some FIREWALL_DIRECTION_OUT
            else None in
          match direction with
          | Some direction => written_or_exception (JsonObjectWriter_WriteString ruleWriter FIREWALL_RULES_DIRECTION_KEY direction)
          | None => (EVENT_COLLECTOR_OK, ruleWriter)
          end
      | (_, ruleWriter) => (EVENT_COLLECTOR_EXCEPTION, ruleWriter)
      end
  end.

(** ** A rule *)

Definition enabled_step : RuleStep := fun ruleWriter => ret (written_or_exception (JsonObjectWriter_WriteBool ruleWriter FIREWALL_RULES_ENABLED_KEY true)).

(** The priority is an [uint32_t], the parameter of the writer an [int]. *)
Definition priority_step (priority : Z) : RuleStep := fun ruleWriter =>
  ret (written_or_exception (JsonObjectWriter_WriteInt ruleWriter FIREWALL_RULES_PRIORITY_KEY (i32 priority))).

Definition chain_step (name : IptablesResults * option string) : RuleStep := fun ruleWriter =>
  ret (if decide (fst name <> IPTABLES_OK) then (EVENT_COLLECTOR_EXCEPTION, ruleWriter)
       else FirewallCollector_WriteRuleDirectionAndChainElements ruleWriter (snd name)).

(** The buffer is cleared before every use. *)
Definition element_step (get : Buffer -> M FirewallState (IptablesResults * Buffer)) (keyName : string) : RuleStep := fun ruleWriter =>
  let* (ruleResult, buffer) := get (mkBuffer EmptyString BUFFER_MAX_SIZE) in
  ret (FirewallCollector_WriteRuleStringElement ruleResult ruleWriter keyName (written buffer)).

Definition action_step (rulesIterator : IptablesRulesIterator) : RuleStep := fun ruleWriter =>
  let* (ruleResult, actionType, _) :=
    IptablesRulesIterator_GetAction rulesIterator IPTABLES_ACTION_ALLOW (mkBuffer EmptyString BUFFER_MAX_SIZE) in
  FirewallCollector_WriteAction ruleResult ruleWriter (Some actionType).

Definition policy_step (chainIterator : IptablesIterator) : RuleStep := fun ruleWriter =>
  let* (ruleResult, actionType) := IptablesIterator_GetPolicyAction chainIterator in
  FirewallCollector_WriteAction ruleResult ruleWriter actionType.

(** The steps up to the first that fails. *)
Fixpoint rule_steps (l : list RuleStep) : RuleStep := fun ruleWriter =>
  match l with
  | [] => ret (EVENT_COLLECTOR_OK, ruleWriter)
  | step :: l =>
      let* (result, ruleWriter) := step ruleWriter in
      if decide (result <> EVENT_COLLECTOR_OK) then ret (result, ruleWriter) else rule_steps l ruleWriter
  end.

(** A new object, written by [steps], is added to the array. *)
Definition add_rule (steps : list RuleStep) (rulesPayloadArray : JsonArrayWriter) : M FirewallState (EventCollectorResult * JsonArrayWriter) :=
  let* (r, ruleWriter) := up JsonObjectWriter_Init in
  match r, ruleWriter with
  | JSON_WRITER_OK, Some ruleWriter =>
      let* (result, ruleWriter) := rule_steps steps ruleWriter in
      if decide (result <> EVENT_COLLECTOR_OK) then ret (result, rulesPayloadArray)
      else
        match JsonArrayWriter_AddObject rulesPayloadArray ruleWriter with
        | (JSON_WRITER_OK, rulesPayloadArray, _) => ret (EVENT_COLLECTOR_OK, rulesPayloadArray)
        | (_, rulesPayloadArray, _) => ret (EVENT_COLLECTOR_EXCEPTION, rulesPayloadArray)
        end
  | _, _ => ret (EVENT_COLLECTOR_EXCEPTION, rulesPayloadArray)
  end.

Definition FirewallCollector_WriteRules (rulesPayloadArray : JsonArrayWriter) (rulesIterator : IptablesRulesIterator) (priority : Z)
    : M FirewallState (EventCollectorResult * JsonArrayWriter) :=
  add_rule
    [ enabled_step;
      priority_step priority;
      chain_step (IptablesRulesIterator_GetChainName rulesIterator);
      element_step (IptablesRulesIterator_GetSrcIp rulesIterator) FIREWALL_RULES_SRC_ADDRESS_KEY;
      element_step (IptablesRulesIterator_GetSrcPort rulesIterator) FIREWALL_RULES_SRC_PORT_KEY;
      element_step (IptablesRulesIterator_GetDestIp rulesIterator) FIREWALL_RULES_DEST_ADDRESS_KEY;
      element_step (IptablesRulesIterator_GetDestPort rulesIterator) FIREWALL_RULES_DEST_PORT_KEY;
      element_step (IptablesRulesIterator_GetProtocol rulesIterator) FIREWALL_RULES_PROTOCOL_KEY;
      action_step rulesIterator ]
    rulesPayloadArray.

Definition FirewallCollector_WritePolicyRule (rulesPayloadArray : JsonArrayWriter) (chainIterator : IptablesIterator) (rulePriority : Z)
    : M FirewallState (EventCollectorResult * JsonArrayWriter) :=
  add_rule
    [ enabled_step;
      priority_step rulePriority;
      chain_step (IptablesIterator_GetChainName chainIterator);
      policy_step chainIterator ]
    rulesPayloadArray.

(** ** The rules of a chain and the chains *)

Fixpoint rules_loop (fuel : nat) (iteratorResult : IptablesResults) (rulesPayloadArray : JsonArrayWriter)
    (rulesIterator : IptablesRulesIterator) (rulePriority : Z) : M FirewallState (EventCollectorResult * JsonArrayWriter * Z) :=
  match iteratorResult with
  | IPTABLES_ITERATOR_HAS_NEXT =>
      match fuel with
      | O => undefined
      | S fuel =>
          let* (result, rulesPayloadArray) := FirewallCollector_WriteRules rulesPayloadArray rulesIterator rulePriority in
          if decide (result <> EVENT_COLLECTOR_OK) then ret (result, rulesPayloadArray, rulePriority)
          else
            let* (iteratorResult, rulesIterator) := IptablesRulesIterator_GetNext rulesIterator in
            rules_loop fuel iteratorResult rulesPayloadArray rulesIterator (u32 (rulePriority + 1))
      end
  | IPTABLES_ITERATOR_NO_MORE_ITEMS => ret (EVENT_COLLECTOR_OK, rulesPayloadArray, rulePriority)
  | _ => ret (EVENT_COLLECTOR_EXCEPTION, rulesPayloadArray, rulePriority)
  end.

Definition FirewallCollector_IterateRules (fuel : nat) (rulesPayloadArray : JsonArrayWriter) (chainIterator : IptablesIterator)
    : M FirewallState (EventCollectorResult * JsonArrayWriter) :=
  let* (r, rulesIterator) := IptablesIterator_GetRulesIterator chainIterator in
  match r, rulesIterator with
  | IPTABLES_OK, Some rulesIterator =>
      let* (iteratorResult, rulesIterator) := IptablesRulesIterator_GetNext rulesIterator in
      let* (result, rulesPayloadArray, rulePriority) := rules_loop fuel iteratorResult rulesPayloadArray rulesIterator 0 in
      if decide (result <> EVENT_COLLECTOR_OK) then ret (result, rulesPayloadArray)
      else FirewallCollector_WritePolicyRule rulesPayloadArray chainIterator rulePriority
  | _, _ => ret (EVENT_COLLECTOR_EXCEPTION, rulesPayloadArray)
  end.

Fixpoint chains_loop (fuel : nat) (iteratorResult : IptablesResults) (rulesPayloadArray : JsonArrayWriter)
    (chainIterator : IptablesIterator) : M FirewallState (EventCollectorResult * JsonArrayWriter * IptablesIterator) :=
  match iteratorResult with
  | IPTABLES_ITERATOR_HAS_NEXT =>
      match fuel with
      | O => undefined
      | S fuel' =>
          let* (result, rulesPayloadArray) := FirewallCollector_IterateRules fuel rulesPayloadArray chainIterator in
          if decide (result <> EVENT_COLLECTOR_OK) then ret (result, rulesPayloadArray, chainIterator)
          else
            let* (iteratorResult, chainIterator) := IptablesIterator_GetNext chainIterator in
            chains_loop fuel' iteratorResult rulesPayloadArray chainIterator
      end
  | IPTABLES_ITERATOR_NO_MORE_ITEMS => ret (EVENT_COLLECTOR_OK, rulesPayloadArray, chainIterator)
  | _ => ret (EVENT_COLLECTOR_EXCEPTION, rulesPayloadArray, chainIterator)
  end.

(** The chains, as the process that may read them. *)
Definition iterate_as_root (fuel : nat) (rulesPayloadArray : JsonArrayWriter) : M FirewallState (EventCollectorResult * JsonArrayWriter) :=
  let* (initIptablesResult, chainIterator) := IptablesIterator_Init in
  match initIptablesResult, chainIterator with
  | IPTABLES_OK, Some chainIterator =>
      let* (iteratorResult, chainIterator) := IptablesIterator_GetNext chainIterator in
      let* (result, rulesPayloadArray, chainIterator) := chains_loop fuel iteratorResult rulesPayloadArray chainIterator in
      IptablesIterator_Deinit chainIterator ;;;
      ret (result, rulesPayloadArray)
  | IPTABLES_NO_DATA, _ => ret (EVENT_COLLECTOR_OK, rulesPayloadArray)
  | _, _ => ret (EVENT_COLLECTOR_EXCEPTION, rulesPayloadArray)
  end.

Definition FirewallCollector_IterateChains (fuel : nat) (rulesPayloadArray : JsonArrayWriter)
    : M FirewallState (EventCollectorResult * JsonArrayWriter) :=
  let* (changed, info) := ProcessInfoHandler_ChangeToRoot in
  if negb changed then ret (EVENT_COLLECTOR_EXCEPTION, rulesPayloadArray)
  else
    let* (result, rulesPayloadArray) := iterate_as_root fuel rulesPayloadArray in
    ProcessInfoHandler_Reset info ;;;
    ret (result, rulesPayloadArray).

(** The queue is in the heap of the program. *)
Definition in_queue {A} (m : M (Store (D := string)) A) : M FirewallState A := fun s =>
  match m (fs_store s) with
  | None => None
  | Some (a, st) => Some (a, mkFirewallState st (fs_host s) (fs_tables s) (fs_handles s) (fs_next s))
  end.

Definition FirewallCollector_GetEvents (fuel : nat) (queue : SyncQueue) : M FirewallState (EventCollectorResult * SyncQueue) :=
  let* (r, firewallRulesWriter) :=
    build_event EVENT_PERIODIC_CATEGORY FIREWALL_RULES_NAME EVENT_TYPE_SECURITY_VALUE FIREWALL_RULES_PAYLOAD_SCHEMA_VERSION
      (FirewallCollector_IterateChains fuel) in
  match firewallRulesWriter with
  | Some firewallRulesWriter => in_queue (push_event queue firewallRulesWriter)
  | None => ret (r, queue)
  end.

(** ** Specification *)

Context {Laws : LibiptcLaws Ic}.

Definition direction_fields (name : string) : list Field :=
  if Utils_UnsafeAreStringsEqual name FIREWALL_INPUT_CHAIN true then [(FIREWALL_RULES_DIRECTION_KEY, FString FIREWALL_DIRECTION_IN)]
  else if Utils_UnsafeAreStringsEqual name FIREWALL_OUTPUT_CHAIN true then [(FIREWALL_RULES_DIRECTION_KEY, FString FIREWALL_DIRECTION_OUT)]
  else [].

(** What every rule of a chain begins with. *)
Definition head_fields (name : string) (priority : Z) : list Field :=
  [(FIREWALL_RULES_ENABLED_KEY, FBool true); (FIREWALL_RULES_PRIORITY_KEY, FInt (i32 priority)); (FIREWALL_RULES_CHAIN_NAME_KEY, FString name)] ++
  direction_fields name.

(** The fields for a text; [None] when there is an error. *)
Definition text_fields (key : string) (w : Wording) : option (list Field) :=
  text ← w;
  match text with
  | None => Some []
  | Some text => if strlen text <? BUFFER_MAX_SIZE then Some [(key, FString text)] else None
  end.

Definition action_field (target : string) : Field :=
  (FIREWALL_RULES_ACTION_KEY, FString
    (if Utils_UnsafeAreStringsEqual IPTABLES_ACCEPT_VERDICT target true then FIREWALL_ALLOW_RULE
     else if Utils_UnsafeAreStringsEqual IPTABLES_REJECT_VERDICT target true
          || Utils_UnsafeAreStringsEqual IPTABLES_DROP_VERDICT target true then FIREWALL_DENY_RULE
     else FIREWALL_OTHER_RULE)).

(** The target of a rule; the text of another action must fit the buffer, too. *)
Definition target_fields (p : RulePtr) : option (list Field) :=
  match rule_target p with
  | None | Some EmptyString => Some []
  | Some target =>
      let written := if has_flag (flags (ip (entry_of p))) IPT_F_GOTO then ("goto " ++ target)%string
                     else if Utils_UnsafeAreStringsEqual IPTABLES_ACCEPT_VERDICT target true
                          || Utils_UnsafeAreStringsEqual IPTABLES_REJECT_VERDICT target true
                          || Utils_UnsafeAreStringsEqual IPTABLES_DROP_VERDICT target true then EmptyString
                     else target in
      if strlen written <? BUFFER_MAX_SIZE then Some [action_field target] else None
  end.

Definition rule_fields (name : string) (priority : Z) (p : RulePtr) : option (list Field) :=
  srcIp ← text_fields FIREWALL_RULES_SRC_ADDRESS_KEY (ip_words true (entry_of p) (rule_matches p));
  srcPort ← text_fields FIREWALL_RULES_SRC_PORT_KEY (port_words true (rule_matches p));
  destIp ← text_fields FIREWALL_RULES_DEST_ADDRESS_KEY (ip_words false (entry_of p) (rule_matches p));
  destPort ← text_fields FIREWALL_RULES_DEST_PORT_KEY (port_words false (rule_matches p));
  protocol ← text_fields FIREWALL_RULES_PROTOCOL_KEY (protocol_words (ip (entry_of p)));
  action ← target_fields p;
  Some (head_fields name priority ++ srcIp ++ srcPort ++ destIp ++ destPort ++ protocol ++ action).

(** A chain that is not built in has no policy, and an object without an action. *)
Definition policy_fields (name : string) (priority : Z) (policy : option (option string)) : option (list Field) :=
  match policy with
  | None => Some (head_fields name priority)
  | Some None => None
  | Some (Some target) => Some (head_fields name priority ++ [action_field target])
  end.

(** The rules from this priority on. *)
Fixpoint rules_payloads (name : string) (priority : Z) (l : list RulePtr) : option (list (list Field)) :=
  match l with
  | [] => Some []
  | p :: l =>
      fs ← rule_fields name priority p;
      payloads ← rules_payloads name (u32 (priority + 1)) l;
      Some (fs :: payloads)
  end.

Definition chain_payloads (c : Chain) : option (list (list Field)) :=
  rules ← rules_payloads (chain_name c) 0 (chain_rules c);
  policy ← policy_fields (chain_name c) (u32 (Z.of_nat (List.length (chain_rules c)))) (chain_policy c);
  Some (rules ++ [policy]).

Fixpoint table_payloads (l : list Chain) : option (list (list Field)) :=
  match l with
  | [] => Some []
  | c :: l => rules ← chain_payloads c; payloads ← table_payloads l; Some (rules ++ payloads)
  end.

(** What there is to show: nothing when the device has no iptables; [None] when
    the table cannot be read or shown. *)
Definition firewall_payloads (t : Tables) : option (list (list Field)) :=
  match iptc_init t FILTERS_TABLE with
  | (Some _, _) => table_payloads (filter_chains t)
  | (None, errno) => if errno =? ENOPROTOOPT then Some [] else None
  end.

(** ** Lemmas: writing a rule *)

(** A step that writes these fields, or fails when there are none. *)
Definition step_writes (step : RuleStep) (fields : option (list Field)) (s : FirewallState) : Prop :=
  forall w, exists r w', step w s = Some ((r, w'), s) /\
    (fs ← fields; write_fields fs w) = if decide (r = EVENT_COLLECTOR_OK) then Some w' else None.

Fixpoint all_fields_of (l : list (option (list Field))) : option (list Field) :=
  match l with
  | [] => Some []
  | fields :: l => fs ← fields; rest ← all_fields_of l; Some (fs ++ rest)
  end.

Lemma write_fields_app a b w : write_fields (a ++ b) w = (w ← write_fields a w; write_fields b w).
Proof. revert w. induction a as [|f a IH]; intros w; [done|]. cbn. destruct (write_field f w); [apply IH | done]. Qed.

Lemma rule_steps_write steps fields s : Forall2 (fun step f => step_writes step f s) steps fields ->
  step_writes (rule_steps steps) (all_fields_of fields) s.
Proof.
  induction 1 as [|step f steps fields Hstep _ IH]; intros w; [by exists EVENT_COLLECTOR_OK, w|]. cbn [rule_steps all_fields_of].
  destruct (Hstep w) as (r & w1 & H & Hw). rewrite (bind_eq _ _ _ _ _ H). destruct (decide (r = EVENT_COLLECTOR_OK)) as [->|Hd].
  - rewrite decide_False by tauto.
    destruct (IH w1) as (r2 & w2 & H2 & Hw2). exists r2, w2. split; [done|]. destruct f as [fs|]; cbn [mbind option_bind] in *; [|done].
    destruct (all_fields_of fields) as [rest|]; cbn [mbind option_bind] in *; [|done]. by rewrite write_fields_app, Hw.
  - rewrite decide_True by done. exists r, w1. split; [done|]. rewrite decide_False by done.
    destruct f as [fs|]; cbn [mbind option_bind] in *; [|done].
    destruct (all_fields_of fields) as [rest|]; cbn [mbind option_bind]; [|done]. by rewrite write_fields_app, Hw.
Qed.

(** The writer with one more field. *)
Definition one_more (f : Field) (w : JsonObjectWriter) : EventCollectorResult * JsonObjectWriter :=
  match write_field f w with Some w' => (EVENT_COLLECTOR_OK, w') | None => (EVENT_COLLECTOR_EXCEPTION, w) end.

Lemma one_field f w (s : FirewallState) : exists r w', Some (one_more f w, s) = Some ((r, w'), s) /\
  write_fields [f] w = if decide (r = EVENT_COLLECTOR_OK) then Some w' else None.
Proof.
  unfold one_more. cbn [write_fields]. destruct (write_field f w) as [w'|]; cbn [mbind option_bind]; eexists _, _; by split.
Qed.

Lemma string_written w key value : written_or_exception (JsonObjectWriter_WriteString w key value) = one_more (key, FString value) w.
Proof.
  unfold JsonObjectWriter_WriteString, one_more, write_field, write_string, write_result.
  by destruct (json_object_set_string (wr_rootValue w) (wr_rootObject w) key value).
Qed.

Lemma int_written w key value : written_or_exception (JsonObjectWriter_WriteInt w key value) = one_more (key, FInt value) w.
Proof.
  unfold JsonObjectWriter_WriteInt, one_more, write_field, write_result.
  by destruct (json_object_set_number (wr_rootValue w) (wr_rootObject w) key (QArith_base.inject_Z value)).
Qed.

Lemma bool_written w key value : written_or_exception (JsonObjectWriter_WriteBool w key value) = one_more (key, FBool value) w.
Proof.
  unfold JsonObjectWriter_WriteBool, one_more, write_field, write_result.
  by destruct (json_object_set_boolean (wr_rootValue w) (wr_rootObject w) key value).
Qed.

Lemma enabled_writes s : step_writes enabled_step (Some [(FIREWALL_RULES_ENABLED_KEY, FBool true)]) s.
Proof. intros w. unfold enabled_step, ret. rewrite bool_written. apply one_field. Qed.

Lemma priority_writes priority s : step_writes (priority_step priority) (Some [(FIREWALL_RULES_PRIORITY_KEY, FInt (i32 priority))]) s.
Proof. intros w. unfold priority_step, ret. rewrite int_written. apply one_field. Qed.

Lemma chain_writes name s :
  step_writes (chain_step (IPTABLES_OK, Some name)) (Some ((FIREWALL_RULES_CHAIN_NAME_KEY, FString name) :: direction_fields name)) s.
Proof.
  intros w. unfold chain_step. cbn [fst snd]. rewrite decide_False by tauto. unfold FirewallCollector_WriteRuleDirectionAndChainElements, ret.
  cbn [mbind option_bind write_fields]. pose proof (string_written w FIREWALL_RULES_CHAIN_NAME_KEY name) as Hn. unfold written_or_exception, one_more in Hn.
  destruct (JsonObjectWriter_WriteString w FIREWALL_RULES_CHAIN_NAME_KEY name) as [r w1]. cbn [fst snd] in Hn.
  destruct (write_field (FIREWALL_RULES_CHAIN_NAME_KEY, FString name) w) as [w2|]; cbn [mbind option_bind].
  2:{ destruct r; [by rewrite decide_False in Hn by tauto|]. eexists _, _. by split. }
  destruct r; [|by rewrite decide_True in Hn by done]. rewrite decide_False in Hn by tauto. injection Hn as ->. unfold direction_fields.
  destruct (Utils_UnsafeAreStringsEqual name FIREWALL_INPUT_CHAIN true); [|destruct (Utils_UnsafeAreStringsEqual name FIREWALL_OUTPUT_CHAIN true)].
  1,2: rewrite string_written; apply one_field.
  by exists EVENT_COLLECTOR_OK, w2.
Qed.

Lemma element_writes get key words s :
  (exists r b, get (mkBuffer "" BUFFER_MAX_SIZE) s = Some ((r, b), s) /\ says BUFFER_MAX_SIZE words (Some (r, b))) ->
  step_writes (element_step get key) (text_fields key words) s.
Proof.
  intros (r & b & H & r1 & b1 & Hs & Hw) w. injection Hs as <- <-. unfold element_step. rewrite (bind_eq _ _ _ _ _ H). unfold ret, text_fields.
  destruct words as [[text|]|]; cbn [mbind option_bind].
  - destruct (strlen text <? BUFFER_MAX_SIZE).
    + destruct Hw as [-> ->]. cbn [FirewallCollector_WriteRuleStringElement]. rewrite string_written. apply one_field.
    + subst r. by exists EVENT_COLLECTOR_EXCEPTION, w.
  - destruct Hw as [-> ->]. by exists EVENT_COLLECTOR_OK, w.
  - subst r. by exists EVENT_COLLECTOR_EXCEPTION, w.
Qed.

(** The action of a text, as a field. *)
Definition action_name (action : IptablesActionType) : string :=
  match action with
  | IPTABLES_ACTION_ALLOW => FIREWALL_ALLOW_RULE
  | IPTABLES_ACTION_DENY => FIREWALL_DENY_RULE
  | IPTABLES_ACTION_OTHER => FIREWALL_OTHER_RULE
  end.

Lemma action_of_text target : exists action,
  IptablesUtils_GetActionTypeEnumFromActionString (Some target) = Some action /\
  action_field target = (FIREWALL_RULES_ACTION_KEY, FString (action_name action)) /\
  (action = IPTABLES_ACTION_OTHER <->
    Utils_UnsafeAreStringsEqual IPTABLES_ACCEPT_VERDICT target true
    || Utils_UnsafeAreStringsEqual IPTABLES_REJECT_VERDICT target true
    || Utils_UnsafeAreStringsEqual IPTABLES_DROP_VERDICT target true = false).
Proof.
  eexists. split; [reflexivity|]. unfold action_field, action_name.
  destruct (Utils_UnsafeAreStringsEqual IPTABLES_ACCEPT_VERDICT target true); [by repeat split|].
  destruct (Utils_UnsafeAreStringsEqual IPTABLES_REJECT_VERDICT target true || Utils_UnsafeAreStringsEqual IPTABLES_DROP_VERDICT target true) eqn:E;
    cbn [orb]; by rewrite ?E.
Qed.

Lemma WriteAction_run action w (s : FirewallState) :
  FirewallCollector_WriteAction IPTABLES_OK w (Some action) s =
  Some (written_or_exception (JsonObjectWriter_WriteString w FIREWALL_RULES_ACTION_KEY (action_name action)), s).
Proof. by destruct action. Qed.

Lemma action_writes a h name p todo iterator s :
  fs_handles s !! a = Some h -> at_rule a name (p :: todo) iterator h -> step_writes (action_step iterator) (target_fields p) s.
Proof.
  intros Hh (Ha & _ & _ & He & _) w. change (head (p :: todo)) with (Some p) in He. unfold action_step, IptablesRulesIterator_GetAction. rewrite Ha, He.
  cbn [deref]. rewrite bind_assoc, bind_ret_l, bind_assoc, (bind_eq _ _ _ _ _ (read_handle_run a h _ s Hh)), (target_law h p), bind_ret_l. unfold target_fields.
  destruct (rule_target p) as [[|c target]|]; [by exists EVENT_COLLECTOR_OK, w | | by exists EVENT_COLLECTOR_OK, w].
  set (text := String c target). destruct (action_of_text text) as (action & Haction & Hfield & Hother). rewrite Haction, Hfield.
  assert (Htext : forall t, exists r w', (let '(result, buffer) := write_text (mkBuffer "" BUFFER_MAX_SIZE) t in
      FirewallCollector_WriteAction result w (Some action)) s = Some ((r, w'), s) /\
    (fs ← (if strlen t <? BUFFER_MAX_SIZE then Some [(FIREWALL_RULES_ACTION_KEY, FString (action_name action))] else None); write_fields fs w) =
      if decide (r = EVENT_COLLECTOR_OK) then Some w' else None).
  { intros t. destruct (write_text_run (mkBuffer "" BUFFER_MAX_SIZE) t) as [b Hb]; [done|]. injection Hb as ->. cbn [bufferSize].
    destruct (strlen t <? BUFFER_MAX_SIZE).
    - rewrite WriteAction_run. cbn [mbind option_bind]. rewrite string_written. apply one_field.
    - by exists EVENT_COLLECTOR_EXCEPTION, w. }
  destruct (has_flag (flags (ip (entry_of p))) IPT_F_GOTO).
  - specialize (Htext ("goto " ++ text)%string). by destruct (write_text _ ("goto " ++ text)%string).
  - destruct (decide (action = IPTABLES_ACTION_OTHER)) as [Hd|Hd].
    + rewrite (proj1 Hother Hd). specialize (Htext text). by destruct (write_text _ text).
    + destruct (Utils_UnsafeAreStringsEqual IPTABLES_ACCEPT_VERDICT text true || Utils_UnsafeAreStringsEqual IPTABLES_REJECT_VERDICT text true
        || Utils_UnsafeAreStringsEqual IPTABLES_DROP_VERDICT text true); [|by destruct (Hd (proj2 Hother eq_refl))].
      rewrite WriteAction_run. rewrite string_written. apply one_field.
Qed.

Lemma policy_writes a h c iterator s :
  fs_handles s !! a = Some h -> In c (v_chains (iptc_view h)) -> iptcHandle iterator = Some a -> currentChain iterator = Some (chain_name c) ->
  step_writes (policy_step iterator)
    (match chain_policy c with None => Some [] | Some None => None | Some (Some target) => Some [action_field target] end) s.
Proof.
  intros Hh Hc Ha Hn w. unfold policy_step. rewrite (bind_eq _ _ _ _ _ (GetPolicyAction_run a h c iterator s Hh Hc Ha Hn)).
  destruct (chain_policy c) as [[target|]|]; [| by exists EVENT_COLLECTOR_EXCEPTION, w | by exists EVENT_COLLECTOR_OK, w].
  destruct (action_of_text target) as (action & -> & -> & _). rewrite WriteAction_run, string_written. apply one_field.
Qed.

(** ** Lemmas: rules in the array *)

(** How a step ends that adds these payloads to the array, or fails when there
    are none. *)
Definition array_gets (payloads : option (list (list Field))) (arr : JsonArrayWriter) (r : EventCollectorResult) (arr' : JsonArrayWriter) : Prop :=
  (l ← payloads; add_all arr l) = if decide (r = EVENT_COLLECTOR_OK) then Some arr' else None.

Lemma array_gets_nothing arr : array_gets (Some []) arr EVENT_COLLECTOR_OK arr.
Proof. done. Qed.

Lemma array_gets_ok payloads arr arr' : array_gets payloads arr EVENT_COLLECTOR_OK arr' ->
  exists l, payloads = Some l /\ add_all arr l = Some arr'.
Proof. unfold array_gets. rewrite decide_True by done. destruct payloads as [l|]; [|done]. intros H. by exists l. Qed.

Lemma array_gets_app p q arr arr1 r arr2 :
  array_gets p arr EVENT_COLLECTOR_OK arr1 -> array_gets q arr1 r arr2 ->
  array_gets (l ← p; l' ← q; Some (l ++ l')) arr r arr2.
Proof.
  intros H1 H2. apply array_gets_ok in H1 as (l & -> & H1). unfold array_gets in *. cbn [mbind option_bind].
  destruct q as [l'|]; cbn [mbind option_bind] in *; [|done]. by rewrite add_all_app, H1.
Qed.

Lemma array_gets_stop p q arr r arr1 : r <> EVENT_COLLECTOR_OK -> array_gets p arr r arr1 ->
  array_gets (l ← p; l' ← q; Some (l ++ l')) arr r arr1.
Proof.
  unfold array_gets. intros Hr. rewrite !decide_False by done. destruct p as [l|]; cbn [mbind option_bind]; [|done].
  intros H. destruct q as [l'|]; cbn [mbind option_bind]; [|done]. by rewrite add_all_app, H.
Qed.

Lemma add_rule_run steps fields arr s : reliable (world_of s) ->
  Forall2 (fun step f => step_writes step f (elapse 1 s)) steps fields ->
  exists r arr', add_rule steps arr s = Some ((r, arr'), elapse 1 s) /\
    array_gets (fs ← all_fields_of fields; Some [fs]) arr r arr'.
Proof.
  intros Hr Hsteps. unfold add_rule, array_gets. rewrite (bind_eq _ _ _ _ _ (up_bump _ _ 1 s (WriterInit_new _ Hr))).
  destruct new_writer as [w|] eqn:Ew.
  2:{ exists EVENT_COLLECTOR_EXCEPTION, arr. split; [done|]. destruct (all_fields_of fields); [|done]. cbn. unfold add_fields. by rewrite Ew. }
  destruct (rule_steps_write _ _ _ Hsteps w) as (r & w' & H & Hw). rewrite (bind_eq _ _ _ _ _ H).
  assert (Hadd : forall fs, all_fields_of fields = Some fs -> add_fields arr fs = (if decide (r = EVENT_COLLECTOR_OK) then append_object arr w' else None)).
  { intros fs E. rewrite E in Hw. cbn [mbind option_bind] in Hw. unfold add_fields. rewrite Ew. cbn [mbind option_bind]. rewrite Hw. by case_decide. }
  destruct (decide (r = EVENT_COLLECTOR_OK)) as [->|Hd].
  - rewrite decide_False by tauto. destruct (all_fields_of fields) as [fs|]; cbn [mbind option_bind] in *; [|done].
    cbn [add_all]. rewrite (Hadd fs eq_refl). unfold JsonArrayWriter_AddObject, append_object.
    destruct (json_array_append_value (aw_rootValue arr) (aw_rootArray arr) (wr_rootValue w')); cbn [mbind option_bind]; eexists _, _; by split.
  - rewrite decide_True by done. exists r, arr. split; [done|]. rewrite decide_False by done.
    destruct (all_fields_of fields) as [fs|]; cbn [mbind option_bind] in *; [|done]. cbn [add_all]. by rewrite (Hadd fs eq_refl).
Qed.

Lemma on_entry_says f words a h name p todo iterator s :
  at_rule a name (p :: todo) iterator h -> says BUFFER_MAX_SIZE words (f (entry_of p) (mkBuffer "" BUFFER_MAX_SIZE)) ->
  exists r b, on_entry f iterator (mkBuffer "" BUFFER_MAX_SIZE) s = Some ((r, b), s) /\ says BUFFER_MAX_SIZE words (Some (r, b)).
Proof.
  intros (_ & _ & _ & He & _) Hs. change (head (p :: todo)) with (Some p) in He. unfold on_entry. rewrite He. cbn [deref]. rewrite bind_ret_l.
  pose proof Hs as (r & b & E & Hw). rewrite E in *. exists r, b. by split.
Qed.

Lemma WriteRules_run a h name p todo iterator priority arr s : reliable (world_of s) ->
  fs_handles s !! a = Some h -> at_rule a name (p :: todo) iterator h ->
  exists r arr', FirewallCollector_WriteRules arr iterator priority s = Some ((r, arr'), elapse 1 s) /\
    array_gets (fs ← rule_fields name priority p; Some [fs]) arr r arr'.
Proof.
  intros Hr Hh Hat. unfold FirewallCollector_WriteRules. destruct (matches_law p) as [Hm Hread].
  assert (Hs : 0 < BUFFER_MAX_SIZE <= UINT32_MAX) by (unfold BUFFER_MAX_SIZE, UINT32_MAX; lia).
  match goal with |- context [add_rule ?l _] => set (steps := l) end.
  destruct (add_rule_run steps [Some [(FIREWALL_RULES_ENABLED_KEY, FBool true)]; Some [(FIREWALL_RULES_PRIORITY_KEY, FInt (i32 priority))];
      Some ((FIREWALL_RULES_CHAIN_NAME_KEY, FString name) :: direction_fields name);
      text_fields FIREWALL_RULES_SRC_ADDRESS_KEY (ip_words true (entry_of p) (rule_matches p));
      text_fields FIREWALL_RULES_SRC_PORT_KEY (port_words true (rule_matches p));
      text_fields FIREWALL_RULES_DEST_ADDRESS_KEY (ip_words false (entry_of p) (rule_matches p));
      text_fields FIREWALL_RULES_DEST_PORT_KEY (port_words false (rule_matches p));
      text_fields FIREWALL_RULES_PROTOCOL_KEY (protocol_words (ip (entry_of p))); target_fields p] arr s Hr) as (r & arr' & H & Hg).
  - constructor; [apply enabled_writes|]. constructor; [apply priority_writes|].
    constructor; [unfold IptablesRulesIterator_GetChainName; rewrite (proj1 (proj2 (proj2 Hat))); apply chain_writes|].
    constructor; [by eapply element_writes, on_entry_says, GetIp_says|]. constructor; [by eapply element_writes, on_entry_says, GetPort_says|].
    constructor; [by eapply element_writes, on_entry_says, GetIp_says|]. constructor; [by eapply element_writes, on_entry_says, GetPort_says|].
    constructor; [by eapply element_writes, on_entry_says, FormatProtocol_says|].
    constructor; [by eapply action_writes|]. constructor.
  - exists r, arr'. split; [exact H|]. revert Hg. unfold rule_fields, head_fields, array_gets. cbn [all_fields_of].
    destruct (text_fields FIREWALL_RULES_SRC_ADDRESS_KEY _) as [f1|]; cbn [mbind option_bind]; [|done].
    destruct (text_fields FIREWALL_RULES_SRC_PORT_KEY _) as [f2|]; cbn [mbind option_bind]; [|done].
    destruct (text_fields FIREWALL_RULES_DEST_ADDRESS_KEY _) as [f3|]; cbn [mbind option_bind]; [|done].
    destruct (text_fields FIREWALL_RULES_DEST_PORT_KEY _) as [f4|]; cbn [mbind option_bind]; [|done].
    destruct (text_fields FIREWALL_RULES_PROTOCOL_KEY _) as [f5|]; cbn [mbind option_bind]; [|done].
    destruct (target_fields p) as [f6|]; cbn [mbind option_bind]; [|done].
    rewrite app_nil_r. done.
Qed.

Lemma WritePolicyRule_run a h c iterator priority arr s : reliable (world_of s) ->
  fs_handles s !! a = Some h -> In c (v_chains (iptc_view h)) -> iptcHandle iterator = Some a -> currentChain iterator = Some (chain_name c) ->
  exists r arr', FirewallCollector_WritePolicyRule arr iterator priority s = Some ((r, arr'), elapse 1 s) /\
    array_gets (fs ← policy_fields (chain_name c) priority (chain_policy c); Some [fs]) arr r arr'.
Proof.
  intros Hr Hh Hc Ha Hn. unfold FirewallCollector_WritePolicyRule.
  destruct (add_rule_run [enabled_step; priority_step priority; chain_step (IptablesIterator_GetChainName iterator); policy_step iterator]
    [Some [(FIREWALL_RULES_ENABLED_KEY, FBool true)]; Some [(FIREWALL_RULES_PRIORITY_KEY, FInt (i32 priority))];
     Some ((FIREWALL_RULES_CHAIN_NAME_KEY, FString (chain_name c)) :: direction_fields (chain_name c));
     match chain_policy c with None => Some [] | Some None => None | Some (Some target) => Some [action_field target] end] arr s Hr)
    as (r & arr' & H & Hg).
  - constructor; [apply enabled_writes|]. constructor; [apply priority_writes|].
    constructor; [unfold IptablesIterator_GetChainName; rewrite Hn; apply chain_writes|]. constructor; [by eapply policy_writes|]. constructor.
  - exists r, arr'. split; [exact H|]. revert Hg. unfold policy_fields, head_fields, array_gets. cbn [all_fields_of].
    destruct (chain_policy c) as [[target|]|]; cbn [mbind option_bind]; [| done |]; by rewrite ?app_nil_r.
Qed.

(** ** Lemmas: the loops *)

Lemma u32_next k : u32 (u32 k + 1) = u32 (k + 1).
Proof. unfold u32. by rewrite Z.add_mod_idemp_l. Qed.

Lemma same_chains_trans h h1 h2 : same_chains h h1 -> same_chains h1 h2 -> same_chains h h2.
Proof. intros [H1 H2] [H3 H4]. split; congruence. Qed.

Lemma rules_loop_run a name fuel : forall todo k arr iterator h s,
  reliable (world_of s) -> fs_handles s !! a = Some h -> at_rule a name todo iterator h -> (List.length todo <= fuel)%nat ->
  exists r arr' k' h' s', rules_loop fuel (next_result todo) arr iterator (u32 k) s = Some ((r, arr', k'), s') /\
    moved a h' s s' /\ same_chains h h' /\ array_gets (rules_payloads name (u32 k) todo) arr r arr' /\
    (r = EVENT_COLLECTOR_OK -> k' = u32 (k + Z.of_nat (List.length todo))).
Proof.
  induction fuel as [|fuel IH]; intros todo k arr iterator h s Hr Hh Hat Hl.
  all: destruct todo as [|p todo]; cbn [List.length] in Hl; try lia; cbn [rules_loop next_result].
  1,2: exists EVENT_COLLECTOR_OK, arr, (u32 k), h, s; split; [done|]; split; [by apply moved_refl|]; split; [done|];
    split; [done|]; intros _; cbn; by rewrite Z.add_0_r.
  destruct (WriteRules_run a h name p todo iterator (u32 k) arr s Hr Hh Hat) as (r & arr1 & H1 & Hg). rewrite (bind_eq _ _ _ _ _ H1).
  cbn [rules_payloads]. change (fs ← ?x; l ← ?y; Some (fs :: l)) with (fs ← x; l ← y; Some ([fs] ++ l)).
  rewrite u32_next. destruct (decide (r = EVENT_COLLECTOR_OK)) as [->|Hd].
  - rewrite decide_False by tauto. apply array_gets_ok in Hg as (l & Hfs & Hadd).
    destruct (rule_fields name (u32 k) p) as [fs|]; [|done]. injection Hfs as <-. cbn [mbind option_bind].
    destruct (next_rule_run a h name p todo iterator (elapse 1 s)) as (it1 & h1 & H2 & Hat1 & Hsc); [done | done |].
    rewrite (bind_eq _ _ _ _ _ H2).
    destruct (IH todo (k + 1) arr1 it1 h1 (with_handle a h1 (elapse 1 s))) as (r2 & arr2 & k2 & h2 & s2 & H3 & Hm & Hsc2 & Hg2 & Hk);
      [by apply (reliable_bump 1) | apply handle_of_with | exact Hat1 | lia |].
    exists r2, arr2, k2, h2, s2. split; [exact H3|]. split; [eapply moved_trans; [exists 1%nat; reflexivity | exact Hm]|].
    split; [by eapply same_chains_trans|]. split.
    + refine (array_gets_app (Some [fs]) _ arr arr1 r2 arr2 _ Hg2). exact Hadd.
    + intros Hok. rewrite (Hk Hok). f_equal. cbn [List.length]. lia.
  - rewrite decide_True by done. exists r, arr1, (u32 k), h, (elapse 1 s). split; [done|]. split; [by apply moved_elapse|]. split; [done|].
    split; [|done]. destruct (rule_fields name (u32 k) p) as [fs|]; cbn [mbind option_bind] in *; [|by unfold array_gets; rewrite decide_False].
    exact (array_gets_stop (Some [fs]) (rules_payloads name (u32 (k + 1)) todo) arr r arr1 Hd Hg).
Qed.

Lemma IterateRules_run a t c todo fuel arr iterator h s :
  reliable (world_of s) -> fs_handles s !! a = Some h -> at_chain a t (c :: todo) iterator h -> In c t -> (List.length (chain_rules c) <= fuel)%nat ->
  exists r arr' h' s', FirewallCollector_IterateRules fuel arr iterator s = Some ((r, arr'), s') /\
    moved a h' s s' /\ at_chain a t (c :: todo) iterator h' /\ array_gets (chain_payloads c) arr r arr'.
Proof.
  intros Hr Hh Hat Hin Hl. pose proof Hat as (Ha & Hs & Hc & Ht & Hleft). change (chain_name <$> head (c :: todo)) with (Some (chain_name c)) in Hc.
  unfold FirewallCollector_IterateRules. destruct iterator as [ih st cc]. cbn [iptcHandle started currentChain] in Ha, Hs, Hc. subst ih st cc.
  rewrite (bind_eq _ _ _ _ _ (RulesIterator_Init_run a (chain_name c) true s Hr)).
  destruct (first_rule_run a h c (elapse 2 s)) as (it1 & h1 & H2 & Hat1 & Hsc); [done | by rewrite Ht |]. rewrite (bind_eq _ _ _ _ _ H2).
  set (s1 := with_handle a h1 (elapse 2 s)).
  destruct (rules_loop_run a (chain_name c) fuel (chain_rules c) 0 arr it1 h1 s1) as (r & arr1 & k & h2 & s2 & H3 & Hm & Hsc2 & Hg & Hk);
    [by apply (reliable_bump 2) | apply handle_of_with | exact Hat1 | exact Hl |].
  change 0 with (u32 0) at 1. rewrite (bind_eq _ _ _ _ _ H3). assert (Hsc02 : same_chains h h2) by (by eapply same_chains_trans).
  assert (Hm2 : moved a h2 s s2) by (eapply moved_trans; [exists 2%nat; reflexivity | exact Hm]).
  assert (Hat2 : at_chain a t (c :: todo) (mkIptablesIterator (Some a) true (Some (chain_name c))) h2).
  { destruct Hsc02 as [E1 E2]. unfold at_chain. rewrite E1, E2. by repeat split. }
  unfold chain_payloads. change (u32 0) with 0 in Hg. destruct (decide (r = EVENT_COLLECTOR_OK)) as [->|Hd].
  - rewrite decide_False by tauto. rewrite (Hk eq_refl), Z.add_0_l. set (k0 := u32 (Z.of_nat (List.length (chain_rules c)))) in *.
    destruct (WritePolicyRule_run a h2 c (mkIptablesIterator (Some a) true (Some (chain_name c))) k0 arr1 s2) as (r2 & arr2 & H4 & Hg2);
      [by eapply moved_reliable | by eapply moved_handle | by rewrite (proj1 Hsc02), Ht | done | done |].
    exists r2, arr2, h2, (elapse 1 s2). split; [exact H4|]. split; [eapply moved_trans; [exact Hm2 | by eapply moved_elapse, moved_handle]|].
    split; [exact Hat2|]. pose proof (array_gets_app _ _ _ _ _ _ Hg Hg2) as H.
    destruct (rules_payloads (chain_name c) 0 (chain_rules c)) as [l|]; [|exact H].
    by destruct (policy_fields (chain_name c) k0 (chain_policy c)).
  - rewrite decide_True by done. exists r, arr1, h2, s2. split; [done|]. split; [exact Hm2|]. split; [exact Hat2|].
    pose proof (array_gets_stop _ (fs ← policy_fields (chain_name c) (u32 (Z.of_nat (List.length (chain_rules c)))) (chain_policy c); Some [fs]) _ _ _ Hd Hg) as H.
    destruct (rules_payloads (chain_name c) 0 (chain_rules c)) as [l|]; [|exact H].
    by destruct (policy_fields (chain_name c) _ (chain_policy c)).
Qed.

(** Enough rounds for the loops over these chains. *)
Fixpoint rounds (l : list Chain) : nat := match l with [] => O | c :: l => S (List.length (chain_rules c) + rounds l) end.

Lemma chains_loop_run a t fuel : forall todo arr iterator h s,
  reliable (world_of s) -> fs_handles s !! a = Some h -> at_chain a t todo iterator h -> (forall c, In c todo -> In c t) -> (rounds todo <= fuel)%nat ->
  exists r arr' iterator' h' s', chains_loop fuel (next_result todo) arr iterator s = Some ((r, arr', iterator'), s') /\
    moved a h' s s' /\ iptcHandle iterator' = Some a /\ array_gets (table_payloads todo) arr r arr'.
Proof.
  induction fuel as [|fuel IH]; intros todo arr iterator h s Hr Hh Hat Hin Hl.
  all: destruct todo as [|c todo]; cbn [rounds] in Hl; try lia; cbn [chains_loop next_result].
  1,2: exists EVENT_COLLECTOR_OK, arr, iterator, h, s; split; [done|]; split; [by apply moved_refl|]; split; [apply Hat | done].
  destruct (IterateRules_run a t c todo (S fuel) arr iterator h s Hr Hh Hat) as (r & arr1 & h1 & s1 & H1 & Hm & Hat1 & Hg);
    [apply Hin; by left | lia |]. rewrite (bind_eq _ _ _ _ _ H1). cbn [table_payloads]. destruct (decide (r = EVENT_COLLECTOR_OK)) as [->|Hd].
  - rewrite decide_False by tauto.
    destruct (next_chain_run a h1 t c todo iterator s1) as (it2 & h2 & H2 & Hat2); [by eapply moved_handle | exact Hat1 |]. rewrite (bind_eq _ _ _ _ _ H2).
    destruct (IH todo arr1 it2 h2 (with_handle a h2 s1)) as (r2 & arr2 & it3 & h3 & s3 & H3 & Hm3 & Ha3 & Hg3);
      [exact (moved_reliable a h1 s s1 Hm Hr) | apply handle_of_with | exact Hat2 | intros x Hx; apply Hin; by right | lia |].
    exists r2, arr2, it3, h3, s3. split; [exact H3|]. split; [|split; [exact Ha3 | by eapply array_gets_app]].
    eapply moved_trans; [exact Hm|]. eapply moved_trans; [|exact Hm3]. exists 0%nat. by rewrite elapse_0.
  - rewrite decide_True by done. exists r, arr1, iterator, h1, s1. split; [done|]. split; [exact Hm|]. split; [apply Hat | by apply array_gets_stop].
Qed.

(** ** Lemmas: as root *)

Definition set_fs_next (k : nat) (s : FirewallState) : FirewallState :=
  mkFirewallState (fs_store s) (fs_host s) (fs_tables s) (fs_handles s) k.

(** Only time has passed, and addresses of handles were used. *)
Definition only_reads (s s' : FirewallState) : Prop := exists n k, s' = set_fs_next k (elapse n s).

Lemma free_opened a h h' n s : fs_handles s !! a = None -> fs_next s = a ->
  iptc_free a (with_handle a h' (elapse n (mkFirewallState (fs_store s) (fs_host s) (fs_tables s) (<[a := h]> (fs_handles s)) (S a)))) =
  Some (tt, set_fs_next (S a) (elapse n s)).
Proof.
  intros Ha Hn. unfold iptc_free, gets. unfold bind at 1. rewrite handle_of_with. unfold modify. do 2 f_equal.
  destruct s as [[] ? ? l k]. cbn in *. unfold set_handles, with_handle, set_fs_next. cbn. by rewrite insert_insert_eq, delete_insert_id.
Qed.

Lemma iterate_as_root_run fuel arr s :
  reliable (world_of s) -> fs_handles s !! fs_next s = None -> (rounds (filter_chains (fs_tables s)) <= fuel)%nat ->
  exists r arr' s', iterate_as_root fuel arr s = Some ((r, arr'), s') /\ only_reads s s' /\
    array_gets (firewall_payloads (fs_tables s)) arr r arr'.
Proof.
  intros Hr Hfresh Hfuel. unfold iterate_as_root, IptablesIterator_Init, firewall_payloads.
  rewrite bind_assoc, (bind_eq _ _ _ _ _ (up_bump _ _ 1 s (malloc_reliable _ Hr))). cbn [negb]. unfold gets. rewrite bind_assoc. unfold bind at 1.
  change (fs_tables (elapse 1 s)) with (fs_tables s). pose proof (init_law (fs_tables s)) as Hinit.
  destruct (iptc_init (fs_tables s) FILTERS_TABLE) as [[h|] errno].
  2:{ unfold IptablesIterator_Deinit. cbn [iptcHandle]. rewrite bind_assoc, bind_ret_l, bind_ret_l.
      destruct (errno =? ENOPROTOOPT).
      - exists EVENT_COLLECTOR_OK, arr, (elapse 1 s). split; [done|]. split; [by exists 1%nat, (fs_next s); destruct s as [[] ? ? ? ?] | done].
      - exists EVENT_COLLECTOR_EXCEPTION, arr, (elapse 1 s). split; [done|]. split; [by exists 1%nat, (fs_next s); destruct s as [[] ? ? ? ?] | done]. }
  specialize (Hinit h errno eq_refl). set (a := fs_next s) in *.
  set (s1 := mkFirewallState (fs_store (elapse 1 s)) (fs_host s) (fs_tables s) (<[a := h]> (fs_handles s)) (S a)).
  assert (Hnew : new_handle h (elapse 1 s) = Some (a, s1)) by done. rewrite bind_assoc, (bind_eq _ _ _ _ _ Hnew), bind_ret_l.
  destruct (first_chain_run a h (mkIptablesIterator (Some a) false None) s1) as (it1 & h1 & H1 & Hat); [apply lookup_insert_eq | done | done |].
  rewrite (bind_eq _ _ _ _ _ H1). rewrite Hinit in *.
  destruct (chains_loop_run a (filter_chains (fs_tables s)) fuel (filter_chains (fs_tables s)) arr it1 h1 (with_handle a h1 s1))
    as (r & arr2 & it2 & h2 & s2 & H2 & Hm & Ha & Hg); [by apply (reliable_bump 1) | apply handle_of_with | exact Hat | done | exact Hfuel |].
  rewrite (bind_eq _ _ _ _ _ H2). assert (Hm1 : moved a h2 s1 s2) by (eapply moved_trans; [exists 0%nat; rewrite elapse_0; reflexivity | exact Hm]).
  destruct Hm1 as [n ->]. unfold IptablesIterator_Deinit. rewrite Ha.
  pose proof (free_opened a h h2 n (elapse 1 s) Hfresh eq_refl) as Hfree. change (mkFirewallState _ _ _ _ _) with s1 in Hfree.
  rewrite (bind_eq _ _ _ _ _ Hfree). eexists r, arr2, _. split; [reflexivity|]. split; [|exact Hg].
  exists (n + 1)%nat, (S a). by rewrite elapse_elapse.
Qed.

Lemma IterateChains_run fuel arr s :
  reliable (world_of s) -> fs_handles s !! fs_next s = None -> (rounds (filter_chains (fs_tables s)) <= fuel)%nat ->
  exists r arr' s', FirewallCollector_IterateChains fuel arr s = Some ((r, arr'), s') /\ only_reads s s' /\
    array_gets (firewall_payloads (fs_tables s)) arr r arr'.
Proof.
  intros Hr Hfresh Hfuel. unfold FirewallCollector_IterateChains.
  destruct (ChangeToRoot_run s Hr) as (n & info & H1 & Hb). rewrite (bind_eq _ _ _ _ _ H1). cbn [negb].
  destruct (iterate_as_root_run fuel arr (with_host (as_root (host_of s)) (elapse n s))) as (r & arr' & s1 & H2 & (m & k & ->) & Hg);
    [by apply (reliable_bump n) | exact Hfresh | exact Hfuel |]. rewrite (bind_eq _ _ _ _ _ H2). set (s1 := set_fs_next k _).
  destruct (Reset_run info s1 (host_of s)) as [j H3]; [by apply (reliable_bump m), (reliable_bump n) | exact Hb | done |].
  rewrite (bind_eq _ _ _ _ _ H3). eexists r, arr', _. split; [reflexivity|]. split; [|exact Hg].
  exists (j + (m + n))%nat, k. rewrite <- !elapse_elapse. unfold s1. by destruct s as [[] [] ? ? ?].
Qed.

(** ** Properties *)

Context {MonLaws : MemoryMonitorLaws Mon}.

(** C14: The event of the firewall shows what the kernel filters: its payloads are
    the rules of the chains of the filter table, in the order of the table, each
    with its place in its chain and followed by the policy of the chain; a device
    without iptables has none.  There is no event when the table cannot be read,
    or has a rule that cannot be shown: one of a protocol other than TCP, UDP and
    ICMP, or with a text of more than 299 characters.  When no allocation fails
    the collection always ends, with one event or with none and the queue as it
    was; the process is again the user it was, and no handle of the table is left
    open. *)
Theorem Firewall_GetEvents_correct fuel queue (s : FirewallState) items :
  sync_holds queue (fs_store s) items -> times_fit (env (world_of s)) -> Z.of_nat (List.length items) < UINT32_MAX ->
  fs_handles s !! fs_next s = None -> (rounds (filter_chains (fs_tables s)) <= fuel)%nat ->
  exists r queue' s' new, FirewallCollector_GetEvents fuel queue s = Some ((r, queue'), s') /\
    sync_holds queue' (fs_store s') (items ++ new) /\ only_monitor (world_of s) (world_of s') /\
    fs_host s' = fs_host s /\ fs_tables s' = fs_tables s /\ fs_handles s' = fs_handles s /\
    queued (fun a0 a => exists l, firewall_payloads (fs_tables s) = Some l /\ add_all a0 l = Some a) r new.
Proof.
  intros Hq Hf Hlen Hfresh Hfuel. unfold FirewallCollector_GetEvents.
  assert (Hr : reliable (world_of s)) by exact (sync_holds_reliable _ _ _ Hq).
  destruct (build_event_run EVENT_PERIODIC_CATEGORY FIREWALL_RULES_NAME EVENT_TYPE_SECURITY_VALUE FIREWALL_RULES_PAYLOAD_SCHEMA_VERSION
    (FirewallCollector_IterateChains fuel) s (fun a r a' s' => only_reads s s' /\ array_gets (firewall_payloads (fs_tables s)) a r a') Hr Hf)
    as (r & event & s1 & Hb & Hbuilt).
  { intros a n. destruct (IterateChains_run fuel a (elapse n s)) as (r & a' & s' & H & (m & k & ->) & Hg);
      [by apply (reliable_bump n) | exact Hfresh | exact Hfuel |].
    exists r, a'. eexists. split; [exact H|]. split; [|exact Hg]. exists (m + n)%nat, k. by rewrite elapse_elapse. }
  rewrite (bind_eq _ _ _ _ _ Hb).
  assert (Hs1 : only_reads s s1).
  { destruct Hbuilt as [(_ & _ & [n ->])|(? & ? & ? & _ & [H _] & _)]; [|exact H]. exists n, (fs_next s). by destruct s as [[] ? ? ? ?]. }
  destruct Hs1 as (n & k & ->). set (s1 := set_fs_next k (elapse n s)).
  assert (Hq1 : sync_holds queue (fs_store s1) items) by (by apply (sync_holds_elapse queue (fs_store s) items n)).
  destruct event as [event|].
  - destruct Hbuilt as [(_ & [=] & _)|(a0 & r1 & a & Ha0 & [_ Hg] & -> & -> & e0 & a' & He)].
    destruct (push_event_run queue (fs_store s1) items event Hq1 Hlen) as (r & q & st & new & Hp & Hq' & Ho & Hnew).
    exists r, q, (mkFirewallState st (fs_host s1) (fs_tables s1) (fs_handles s1) (fs_next s1)), new.
    split; [unfold in_queue; by rewrite Hp|]. split; [exact Hq'|].
    split; [eapply only_monitor_trans; [apply (only_monitor_bump n) | exact Ho]|]. do 3 (split; [done|]).
    destruct r; try done. destruct Hnew as (text & b & Ht & ->). exists a0, a, text, b.
    split; [done|]. split; [by apply array_gets_ok|]. split; [by exists e0, event, a' | done].
  - exists r, queue, s1, []. rewrite app_nil_r. split; [done|]. split; [exact Hq1|]. split; [apply (only_monitor_bump n)|]. do 3 (split; [done|]).
    assert (r <> EVENT_COLLECTOR_OK) as Hne by (destruct Hbuilt as [(? & _)|(? & ? & ? & _ & _ & H)]; done). by destruct r.
Qed.

End Firewall.

(** ** Witness *)

Definition sample_data : MatchData := {|
  Data := xt_tcp;
  as_tcp := id;
  as_iprange := fun _ => mkXtIprange 0 0 0 0 0;
  as_multiport := fun _ => mkXtMultiport 0 0 [];
  as_multiport_v1 := fun _ => mkXtMultiportV1 (mkXtMultiport 0 0 []) [] 0;
|}.

(** An entry with its target and at most a match of ports of TCP. *)
Record SampleRule : Type := mkSampleRule {
  sr_ip : ipt_ip;
  sr_tcp : option xt_tcp;
  sr_target : string;
}.

Definition sample_match (x : xt_tcp) : xt_entry_match (Md := sample_data) := mkMatch (Md := sample_data) 48 "tcp" x.

Definition sample_entry (p : SampleRule) : ipt_entry (Md := sample_data) :=
  match sr_tcp p with
  | Some x => mkEntry (Md := sample_data) (sr_ip p) 160 (fun _ => sample_match x)
  | None => mkEntry (Md := sample_data) (sr_ip p) 112 (fun _ => sample_match (mkXtTcp (0, 0) (0, 0) 0))
  end.

Definition allow_ssh : SampleRule := mkSampleRule (mkIptIp 167815360 0 65535 0 6 0 0) (Some (mkXtTcp (0, 65535) (22, 22) 0)) "ACCEPT".
Definition sample_in : string * option string * list SampleRule := ("INPUT"%string, Some "DROP"%string, [allow_ssh]).
Definition sample_out : string * option string * list SampleRule := ("OUTPUT"%string, Some "ACCEPT"%string, []).

(** Where a handle is: the chains that are left, the current rule and those left. *)
Record SampleIptc : Type := mkSampleIptc {
  si_chains : list (string * option string * list SampleRule);
  si_rule : option SampleRule;
  si_rules : list SampleRule;
}.

Definition chain_named (name : string) : string * option string * list SampleRule := if String.eqb name "INPUT" then sample_in else sample_out.

Definition step_chains (l : list (string * option string * list SampleRule)) (h : SampleIptc) : option string * SampleIptc :=
  ((fun c => c.1.1) <$> head l, mkSampleIptc (List.tl l) (si_rule h) (si_rules h)).
Definition step_rules (l : list SampleRule) (h : SampleIptc) : option SampleRule * SampleIptc :=
  (head l, mkSampleIptc (si_chains h) (head l) (List.tl l)).

Definition sample_iptc : Libiptc (Md := sample_data) := {|
  Tables := unit;
  Iptc := SampleIptc;
  RulePtr := SampleRule;
  entry_of := sample_entry;
  iptc_init := fun _ _ => (Some (mkSampleIptc [] None []), 0);
  iptc_first_chain := step_chains [sample_in; sample_out];
  iptc_next_chain := fun h => step_chains (si_chains h) h;
  iptc_first_rule := fun name => step_rules (chain_named name).2;
  iptc_next_rule := fun _ h => step_rules (si_rules h) h;
  iptc_get_target := fun p _ => Some (sr_target p);
  iptc_builtin := fun _ _ => true;
  iptc_get_policy := fun name _ => (chain_named name).1.2;
|}.

Definition as_chain (c : string * option string * list SampleRule) : Chain (Md := sample_data) (Ic := sample_iptc) :=
  mkChain (Ic := sample_iptc) c.1.1 (Some c.1.2) c.2.

Lemma sample_matches p : entry_matches (Md := sample_data) (sample_entry p) (match sr_tcp p with Some x => [sample_match x] | None => [] end).
Proof.
  unfold entry_matches, sample_entry. destruct (sr_tcp p) as [x|].
  - apply (matches_next (Md := sample_data)); cbn; [unfold SIZEOF_IPT_ENTRY; lia | lia |]. apply (matches_end (Md := sample_data)). cbn. unfold SIZEOF_IPT_ENTRY. lia.
  - apply (matches_end (Md := sample_data)). cbn. unfold SIZEOF_IPT_ENTRY. lia.
Qed.

#[refine] Instance sample_iptc_laws : LibiptcLaws (Md := sample_data) sample_iptc := {|
  filter_chains := fun _ => map as_chain [sample_in; sample_out];
  iptc_view := fun h => mkIptcView (Ic := sample_iptc) (map as_chain [sample_in; sample_out]) (map as_chain (si_chains h)) (si_rule h) (si_rules h);
  rule_target := fun p => Some (sr_target p);
  rule_matches := fun p => match sr_tcp p with Some x => [sample_match x] | None => [] end;
|}.
Proof.
  - intros p. split; [apply sample_matches|]. unfold readable. destruct (sr_tcp p) as [x|]; [|constructor]. constructor; [|constructor]. intros H. by vm_compute in H.
  - done.
  - done.
  - intros h. split; by destruct (si_chains h).
  - intros h c [<-|[<-|[]]]; done.
  - done.
  - done.
  - intros h c [<-|[<-|[]]]; done.
  - intros h c p [<-|[<-|[]]] [= <-]; done.
Defined.

Definition firewall_state : FirewallState (Ap := sample_auparse) (Ic := sample_iptc) :=
  mkFirewallState (Ap := sample_auparse) (Ic := sample_iptc) still_store sample_host tt ∅ 0.

Example shown_rule : firewall_payloads (Ic := sample_iptc) tt = Some
  [ [ (FIREWALL_RULES_ENABLED_KEY, FBool true); (FIREWALL_RULES_PRIORITY_KEY, FInt 0); (FIREWALL_RULES_CHAIN_NAME_KEY, FString "INPUT");
      (FIREWALL_RULES_DIRECTION_KEY, FString "In"); (FIREWALL_RULES_SRC_ADDRESS_KEY, FString "192.168.0.10/16");
      (FIREWALL_RULES_DEST_PORT_KEY, FString "22 "); (FIREWALL_RULES_PROTOCOL_KEY, FString "tcp"); (FIREWALL_RULES_ACTION_KEY, FString "Allow") ];
    [ (FIREWALL_RULES_ENABLED_KEY, FBool true); (FIREWALL_RULES_PRIORITY_KEY, FInt 1); (FIREWALL_RULES_CHAIN_NAME_KEY, FString "INPUT");
      (FIREWALL_RULES_DIRECTION_KEY, FString "In"); (FIREWALL_RULES_ACTION_KEY, FString "Deny") ];
    [ (FIREWALL_RULES_ENABLED_KEY, FBool true); (FIREWALL_RULES_PRIORITY_KEY, FInt 0); (FIREWALL_RULES_CHAIN_NAME_KEY, FString "OUTPUT");
      (FIREWALL_RULES_DIRECTION_KEY, FString "Out"); (FIREWALL_RULES_ACTION_KEY, FString "Allow") ] ].
Proof. vm_compute. reflexivity. Qed.

Lemma Firewall_GetEvents_correct_witness :
  exists r queue' s' new,
    FirewallCollector_GetEvents (P := event_parson) (Mon := synchronized_monitor) 3 two_queue firewall_state = Some ((r, queue'), s') /\
    sync_holds queue' (fs_store s') (two_items ++ new) /\ fs_handles s' = ∅.
Proof.
  destruct (Firewall_GetEvents_correct (P := event_parson) (Mon := synchronized_monitor) 3 two_queue firewall_state two_items)
    as (r & q & s' & new & H & Hq & _ & _ & _ & Hh & _);
    [exact (still_holds _ _ two_holds) | | done | done | by vm_compute; repeat constructor |].
  - intros t x [[= <-]|[= <-]]; by vm_compute.
  - exists r, q, s', new. split; [exact H|]. split; [exact Hq | exact Hh].
Defined.
