(* ===== verification/PortsIterator.v ===== *)
(** * [os_utils/linux/listening_ports_iterator.c]: the sockets of the system

    The iterator reads [/proc/net/<protocol>] line by line.  It is allocated and
    handed out as a pointer, so that the state has a heap of iterators. *)

From S2P Require Import Prelude CString TwinDefs World Utils Parson Json MemoryMonitor Telemetry Queue SyncQueue SdkMap Iptables.
From Stdlib Require Import Ascii String.
Open Scope Z_scope.

(** ** Files of the C library *)

(** What is left to be read, [feof] and [ferror]. *)
Record FILE : Type := mkFILE {
  unread : string;
  feof : bool;
  ferror : bool;
}.

(** At most [n] characters, up to and with the end of the line: what was read,
    what is left, and whether the end of the file was met. *)
Fixpoint take_line (n : nat) (s : string) : string * string * bool :=
  match n with
  | O => (EmptyString, s, false)
  | S n =>
      match s with
      | EmptyString => (EmptyString, EmptyString, true)
      | String c s =>
          if Ascii.eqb c "010" then (String c EmptyString, s, false)
          else let '(line, rest, ended) := take_line n s in (String c line, rest, ended)
      end
  end.

(** The line is [None] when [fgets] returns the null pointer. *)
Definition fgets (size : Z) (f : FILE) : M World (option string * FILE) :=
  ok <- fallible ;;
  ret (if negb ok then (None, mkFILE (unread f) (feof f) true)
       else
         let '(line, rest, ended) := take_line (Z.to_nat (size - 1)) (unread f) in
         (match line with EmptyString => None | _ => Some line end, mkFILE rest (feof f || ended) (ferror f))).

(** What the process sees of the system: the texts of the files of [/proc], the
    names in a directory, and what a command prints.  It does not change while
    the ports are collected. *)
Record System : Type := mkSystem {
  proc_file : string -> option string;
  proc_names : string -> option (list string);
  command_output : string -> option string;
}.

Definition opened (text : option string) : M World (option FILE) :=
  ok <- fallible ;;
  ret (if negb ok then None else text ← text; Some (mkFILE text false false)).

Definition MAX_NET_PORT_LENGTH : Z := 20.
Definition MAX_LINE_LENGTH : Z := 8192.
Definition MAX_INODE_LENGTH : Z := 20.
Definition MAX_PROC_FILE_NAME_LENGTH : Z := 20.
Definition ANY_PORT : string := "*".
Definition PORTS_PROC_FILE : string := "/proc/net/".

Inductive ListeningPortsIteratorResults : Type :=
  | LISTENING_PORTS_ITERATOR_OK
  | LISTENING_PORTS_ITERATOR_HAS_NEXT
  | LISTENING_PORTS_ITERATOR_NO_MORE_DATA
  | LISTENING_PORTS_ITERATOR_EXCEPTION.

#[export] Instance ListeningPortsIteratorResults_eq : EqDecision ListeningPortsIteratorResults.
Proof. solve_decision. Defined.

Record ListeningPortsIterator : Type := mkListeningPortsIterator {
  procFile : option FILE;
  localAddress : string;
  localPort : Z;
  remoteAddress : string;
  remotePort : Z;
  inode : string;
}.

Definition set_procFile (f : option FILE) (i : ListeningPortsIterator) : ListeningPortsIterator :=
  mkListeningPortsIterator f (localAddress i) (localPort i) (remoteAddress i) (remotePort i) (inode i).
Definition set_localAddress (s : string) (i : ListeningPortsIterator) : ListeningPortsIterator :=
  mkListeningPortsIterator (procFile i) s (localPort i) (remoteAddress i) (remotePort i) (inode i).
Definition set_localPort (n : Z) (i : ListeningPortsIterator) : ListeningPortsIterator :=
  mkListeningPortsIterator (procFile i) (localAddress i) n (remoteAddress i) (remotePort i) (inode i).
Definition set_remoteAddress (s : string) (i : ListeningPortsIterator) : ListeningPortsIterator :=
  mkListeningPortsIterator (procFile i) (localAddress i) (localPort i) s (remotePort i) (inode i).
Definition set_remotePort (n : Z) (i : ListeningPortsIterator) : ListeningPortsIterator :=
  mkListeningPortsIterator (procFile i) (localAddress i) (localPort i) (remoteAddress i) n (inode i).
Definition set_inode (s : string) (i : ListeningPortsIterator) : ListeningPortsIterator :=
  mkListeningPortsIterator (procFile i) (localAddress i) (localPort i) (remoteAddress i) (remotePort i) s.

(** ** [sscanf] of a line *)

(** What is left of the text, the number of values assigned, and the iterator
    they are assigned to. *)
Record Scan : Type := mkScan {
  scan_input : string;
  scan_count : Z;
  scan_iterator : ListeningPortsIterator;
}.

(** A directive of the format: it stops the scan with [(false, _)], and is
    [None] when it writes past the end of what it assigns to. *)
Definition Directive : Type := Scan -> option (bool * Scan).

Definition consume (s : string) (x : Scan) : Scan := mkScan s (scan_count x) (scan_iterator x).
Definition assign_value (s : string) (f : ListeningPortsIterator -> ListeningPortsIterator) (x : Scan) : Scan :=
  mkScan s (scan_count x + 1) (f (scan_iterator x)).

(** White space in the format. *)
Definition scan_space : Directive := fun x => Some (true, consume (skip_space (scan_input x)) x).

Definition scan_literal (c : ascii) : Directive := fun x =>
  Some (match scan_input x with
        | String d s => if Ascii.eqb c d then (true, consume s x) else (false, x)
        | EmptyString => (false, x)
        end).

(** [%*d] *)
Definition scan_skip_int : Directive := fun x =>
  let '(_, digits) := read_sign (skip_space (scan_input x)) in
  let '(_, count, s) := read_digits 10 0 0 digits in
  Some (match count with O => (false, x) | S _ => (true, consume s x) end).

(** The longest prefix of at most [width] characters that [p] accepts. *)
Fixpoint span (p : ascii -> bool) (width : nat) (s : string) : string * string :=
  match width, s with
  | S width, String c s' => if p c then let '(a, b) := span p width s' in (String c a, b) else (EmptyString, s)
  | _, _ => (EmptyString, s)
  end.

(** [%64[0-9A-Fa-f]] *)
Definition scan_address (set_address : string -> ListeningPortsIterator -> ListeningPortsIterator) : Directive := fun x =>
  let '(digits, s) := span (is_digit_in 16) 64 (scan_input x) in
  Some (match digits with EmptyString => (false, x) | _ => (true, assign_value s (set_address digits) x) end).

(** What [%X] reads, with an optional prefix. *)
Definition hex_number (s : string) : option (Z * string) :=
  let '(neg, digits) := read_sign (skip_space s) in
  let '(v, count, s) :=
    match digits with
    | String z (String x digits') =>
        if Ascii.eqb z "0" && Ascii.eqb (tolower x) "x" then read_digits 16 0 1 digits' else read_digits 16 0 0 digits
    | _ => read_digits 16 0 0 digits
    end in
  match count with O => None | S _ => Some (u32 (strtoul_value neg v), s) end.

Definition scan_hex (set_number : Z -> ListeningPortsIterator -> ListeningPortsIterator) : Directive := fun x =>
  Some (match hex_number (scan_input x) with
        | None => (false, x)
        | Some (v, s) => (true, assign_value s (set_number (i32 v)) x)
        end).

Definition read_word (s : string) : string * string :=
  let s := skip_space s in span (fun c => negb (isspace c)) (String.length s) s.

(** [%*s] *)
Definition scan_skip_word : Directive := fun x =>
  let '(word, s) := read_word (scan_input x) in
  Some (match word with EmptyString => (false, x) | _ => (true, consume s x) end).

(** [%s] into [inode], which is the last field of the iterator. *)
Definition scan_inode : Directive := fun x =>
  let '(word, s) := read_word (scan_input x) in
  match word with
  | EmptyString => Some (false, x)
  | _ => if strlen word <? MAX_INODE_LENGTH then Some (true, assign_value s (set_inode word) x) else None
  end.

Fixpoint run_directives (l : list Directive) (x : Scan) : option Scan :=
  match l with
  | [] => Some x
  | d :: l =>
      '(ok, x) ← d x;
      if (ok : bool) then run_directives l x else Some x
  end.

(** ["%*d: %64[0-9A-Fa-f]:%X %64[0-9A-Fa-f]:%X %X %*s %*s %*s %*s %*s %s %*s\n"];
    the state of the port is read into a local variable. *)
Definition PROC_LINE_FORMAT : list Directive :=
  [ scan_skip_int; scan_literal ":"; scan_space;
    scan_address set_localAddress; scan_literal ":"; scan_hex set_localPort; scan_space;
    scan_address set_remoteAddress; scan_literal ":"; scan_hex set_remotePort; scan_space;
    scan_hex (fun _ i => i); scan_space;
    scan_skip_word; scan_space; scan_skip_word; scan_space; scan_skip_word; scan_space;
    scan_skip_word; scan_space; scan_skip_word; scan_space;
    scan_inode; scan_space; scan_skip_word; scan_space ].

(** ** Addresses and ports *)

(** [inet_ntop] of an [in_addr_t] in the byte order of the device. *)
Definition inet_ntop (address size : Z) : option string :=
  let text := dotted (IP_BYTES address) in
  if strlen text <? size then Some text else None.

(** The buffers hold [destAddress] and [buffer]. *)
Definition ListeningPortsIterator_GetAddress (srcAddress destAddress : string) (destAddressLength : Z)
    : ListeningPortsIteratorResults * string :=
  match hex_number srcAddress with
  | None => (LISTENING_PORTS_ITERATOR_EXCEPTION, destAddress)
  | Some (s_addr, _) =>
      match inet_ntop s_addr destAddressLength with
      | None => (LISTENING_PORTS_ITERATOR_EXCEPTION, destAddress)
      | Some text => (LISTENING_PORTS_ITERATOR_OK, text)
      end
  end.

Definition ListenintPortsIterator_GetPort (port : Z) (buffer : string) (bufferLength : Z)
    : ListeningPortsIteratorResults * string :=
  let '(ok, srcPort, srcPortLength) :=
    if port =? 0 then (true, ANY_PORT, strlen ANY_PORT) else Utils_IntegerToString port MAX_NET_PORT_LENGTH in
  if negb ok then (LISTENING_PORTS_ITERATOR_EXCEPTION, buffer)
  else
    match Utils_CopyString srcPort srcPortLength buffer bufferLength with
    | Some buffer => (LISTENING_PORTS_ITERATOR_OK, buffer)
    | None => (LISTENING_PORTS_ITERATOR_EXCEPTION, buffer)
    end.

Definition ListenintPortsIterator_GetLocalAddress (iterator : ListeningPortsIterator) (address : string) (addresLength : Z)
    : ListeningPortsIteratorResults * string := ListeningPortsIterator_GetAddress (localAddress iterator) address addresLength.

Definition ListenintPortsIterator_GetLocalPort (iterator : ListeningPortsIterator) (port : string) (portLength : Z)
    : ListeningPortsIteratorResults * string := ListenintPortsIterator_GetPort (localPort iterator) port portLength.

Definition ListenintPortsIterator_GetRemoteAddress (iterator : ListeningPortsIterator) (address : string) (addresLength : Z)
    : ListeningPortsIteratorResults * string := ListeningPortsIterator_GetAddress (remoteAddress iterator) address addresLength.

Definition ListenintPortsIterator_GetRemotePort (iterator : ListeningPortsIterator) (port : string) (portLength : Z)
    : ListeningPortsIteratorResults * string := ListenintPortsIterator_GetPort (remotePort iterator) port portLength.

Definition ListenintPortsIterator_GetPid {Sm : SdkMap} (iterator : ListeningPortsIterator) (pid : string) (pidLength : Z)
    (inodesMap : MAP_HANDLE) : ListeningPortsIteratorResults * string :=
  match Map_GetValueFromKey inodesMap (inode iterator) with
  | None => (LISTENING_PORTS_ITERATOR_OK, pid)
  | Some iteratorPid =>
      match Utils_CopyString iteratorPid (strlen iteratorPid) pid pidLength with
      | None => (LISTENING_PORTS_ITERATOR_EXCEPTION, pid)
      | Some pid => (LISTENING_PORTS_ITERATOR_OK, pid)
      end
  end.

(** ** The iterator *)

(** The heap of queue items with the program's statics, the system, and the
    iterators by their addresses. *)
Record PortsState : Type := mkPortsState {
  ps_store : Store (D := string);
  ps_system : System;
  ps_iterators : gmap nat ListeningPortsIterator;
  ps_next : nat;
}.

#[export] Instance ports_has_world : HasWorld PortsState.
Proof.
  refine {| world_of := fun s => st_world (ps_store s);
            with_world := fun w s => mkPortsState (mkStore w (st_heap (ps_store s)) (next_item (ps_store s)))
                                       (ps_system s) (ps_iterators s) (ps_next s) |}; by intros; destruct s as [[] ? ? ?].
Defined.

Definition set_iterators (l : gmap nat ListeningPortsIterator) (s : PortsState) : PortsState :=
  mkPortsState (ps_store s) (ps_system s) l (ps_next s).

(** A block of memory for an iterator that holds [i]. *)
Definition new_iterator (i : ListeningPortsIterator) : M PortsState nat := fun s =>
  Some (ps_next s, mkPortsState (ps_store s) (ps_system s) (<[ps_next s := i]> (ps_iterators s)) (S (ps_next s))).

Definition load_iterator (a : nat) : M PortsState ListeningPortsIterator := l <- gets ps_iterators ;; deref (l !! a).

Definition store_iterator (a : nat) (i : ListeningPortsIterator) : M PortsState unit :=
  modify (fun s => set_iterators (<[a := i]> (ps_iterators s)) s).

(** A pointer to memory that was freed cannot be read. *)
Definition ListenintPortsIterator_Deinit (iterator : option nat) : M PortsState unit :=
  match iterator with
  | None => ret tt
  | Some a => load_iterator a ;;; modify (fun s => set_iterators (delete a (ps_iterators s)) s)
  end.

Definition ports_file (protocolType : string) : string :=
  stake (Z.to_nat (MAX_PROC_FILE_NAME_LENGTH - 1)) (PORTS_PROC_FILE ++ protocolType).

(** The result and the pointer that is given to the caller. *)
Definition ListenintPortsIterator_Init (protocolType : string) : M PortsState (ListeningPortsIteratorResults * option nat) :=
  allocated <- up malloc ;;
  if negb allocated then ret (LISTENING_PORTS_ITERATOR_EXCEPTION, None)
  else
    sys <- gets ps_system ;;
    file <- up (opened (proc_file sys (ports_file protocolType))) ;;
    a <- new_iterator (mkListeningPortsIterator file EmptyString 0 EmptyString 0 EmptyString) ;;
    match file with
    | None =>
        ListenintPortsIterator_Deinit (Some a) ;;;
        ret (LISTENING_PORTS_ITERATOR_EXCEPTION, Some a)
    | Some file =>
        let* (currentLine, file) := up (fgets MAX_LINE_LENGTH file) in
        store_iterator a (mkListeningPortsIterator (Some file) EmptyString 0 EmptyString 0 EmptyString) ;;;
        match currentLine with
        | None =>
            if ferror file then
              ListenintPortsIterator_Deinit (Some a) ;;;
              ret (LISTENING_PORTS_ITERATOR_EXCEPTION, Some a)
            else ret (LISTENING_PORTS_ITERATOR_OK, Some a)
        | Some _ => ret (LISTENING_PORTS_ITERATOR_OK, Some a)
        end
    end.

Definition ListenintPortsIterator_GetNext (iterator : nat) : M PortsState ListeningPortsIteratorResults :=
  iteratorObj <- load_iterator iterator ;;
  file <- deref (procFile iteratorObj) ;;
  if feof file then ret LISTENING_PORTS_ITERATOR_NO_MORE_DATA
  else
    let* (currentLine, file) := up (fgets MAX_LINE_LENGTH file) in
    let iteratorObj := set_procFile (Some file) iteratorObj in
    store_iterator iterator iteratorObj ;;;
    match currentLine with
    | None => ret (if feof file then LISTENING_PORTS_ITERATOR_NO_MORE_DATA else LISTENING_PORTS_ITERATOR_EXCEPTION)
    | Some currentLine =>
        scan <- deref (run_directives PROC_LINE_FORMAT (mkScan currentLine 0 iteratorObj)) ;;
        store_iterator iterator (scan_iterator scan) ;;;
        ret (if scan_count scan =? 6 then LISTENING_PORTS_ITERATOR_HAS_NEXT else LISTENING_PORTS_ITERATOR_EXCEPTION)
    end.

(** ** Specification *)

(** The lines of a text, as a buffer with room for [n] characters takes them. *)
Fixpoint lines_of (fuel n : nat) (text : string) : list string :=
  match fuel with
  | O => []
  | S fuel =>
      match take_line n text with
      | (EmptyString, _, _) => []
      | (line, rest, _) => line :: lines_of fuel n rest
      end
  end.

Definition lines (size : Z) (text : string) : list string := lines_of (String.length text) (Z.to_nat (size - 1)) text.

(** What the event shows of a socket, and its inode. *)
Record Socket : Type := mkSocket {
  local_text : string * string;
  remote_text : string * string;
  socket_inode : string;
}.

Definition port_text (port : Z) : string := if port =? 0 then "*" else sdec port.

Definition proc_address (digits : string) : option string := (fun v => dotted (IP_BYTES v.1)) <$> hex_number digits.

(** A line as a socket; the first level is [None] when the inode does not fit its
    field, the second when the line has another form. *)
Definition scanned (line : string) : option (option ListeningPortsIterator) :=
  scan ← run_directives PROC_LINE_FORMAT (mkScan line 0 (mkListeningPortsIterator None EmptyString 0 EmptyString 0 EmptyString));
  Some (if scan_count scan =? 6 then Some (scan_iterator scan) else None).

Definition socket_of (i : ListeningPortsIterator) : option Socket :=
  local ← proc_address (localAddress i);
  remote ← proc_address (remoteAddress i);
  Some (mkSocket (local, port_text (localPort i)) (remote, port_text (remotePort i)) (inode i)).

(** ** Lemmas: scanning a line *)

(** Two scans of the same text after [n] values: what was assigned agrees, and
    the file of the first is [p]. *)
Definition scans_agree (p : option FILE) (n : Z) (x y : Scan) : Prop :=
  scan_input x = scan_input y /\ scan_count x = n /\ scan_count y = n /\
  let i := scan_iterator x in let j := scan_iterator y in
  procFile i = p /\ (1 <= n -> localAddress i = localAddress j) /\ (2 <= n -> localPort i = localPort j) /\
  (3 <= n -> remoteAddress i = remoteAddress j) /\ (4 <= n -> remotePort i = remotePort j) /\ (6 <= n -> inode i = inode j).

(** From [n] values on, a directive stops both scans, or goes on with [m] values. *)
Definition directive_agrees (p : option FILE) (d : Directive) (n m : Z) : Prop := forall x y, scans_agree p n x y ->
  match d x, d y with
  | None, None => True
  | Some (false, x'), Some (false, y') => scans_agree p n x' y'
  | Some (true, x'), Some (true, y') => scans_agree p m x' y'
  | _, _ => False
  end.

Definition ends_agree (p : option FILE) (l : list Directive) (n : Z) : Prop := forall x y, scans_agree p n x y ->
  match run_directives l x, run_directives l y with
  | None, None => True
  | Some x', Some y' => exists m, scans_agree p m x' y'
  | _, _ => False
  end.

Lemma ends_agree_cons p d l n m : directive_agrees p d n m -> ends_agree p l m -> ends_agree p (d :: l) n.
Proof.
  intros Hd Hl x y H. cbn [run_directives]. specialize (Hd x y H).
  destruct (d x) as [[[] x']|], (d y) as [[[] y']|]; cbn [mbind option_bind]; try done; [by apply Hl | by exists n].
Qed.

Lemma ends_agree_nil p n : ends_agree p [] n.
Proof. intros x y H. by exists n. Qed.

Ltac directive_agreement :=
  let x := fresh "x" in let y := fresh "y" in
  intros [? ? x] [? ? y] (?E & ?E & ?E & ?H); cbn [scan_input scan_count scan_iterator] in *; subst;
  repeat match goal with |- context [match ?e with _ => _ end] =>
    lazymatch e with context [match _ with _ => _ end] => fail | _ => destruct e end end; try done;
  destruct x, y; cbn in *; unfold scans_agree; cbn; repeat split; try lia; try done; intros;
  repeat match goal with H : _ /\ _ |- _ => destruct H end;
  first [assumption | lia | done | match goal with H : _ -> ?a = _ |- ?a = _ => apply H; lia end].

Lemma agree_space p n : directive_agrees p scan_space n n.
Proof. unfold scan_space. directive_agreement. Qed.
Lemma agree_literal p c n : directive_agrees p (scan_literal c) n n.
Proof. unfold scan_literal. directive_agreement. Qed.
Lemma agree_skip_int p n : directive_agrees p scan_skip_int n n.
Proof. unfold scan_skip_int. directive_agreement. Qed.
Lemma agree_skip_word p n : directive_agrees p scan_skip_word n n.
Proof. unfold scan_skip_word. directive_agreement. Qed.
Lemma agree_localAddress p : directive_agrees p (scan_address set_localAddress) 0 1.
Proof. unfold scan_address. directive_agreement. Qed.
Lemma agree_localPort p : directive_agrees p (scan_hex set_localPort) 1 2.
Proof. unfold scan_hex. directive_agreement. Qed.
Lemma agree_remoteAddress p : directive_agrees p (scan_address set_remoteAddress) 2 3.
Proof. unfold scan_address. directive_agreement. Qed.
Lemma agree_remotePort p : directive_agrees p (scan_hex set_remotePort) 3 4.
Proof. unfold scan_hex. directive_agreement. Qed.
Lemma agree_state p : directive_agrees p (scan_hex (fun _ i => i)) 4 5.
Proof. unfold scan_hex. directive_agreement. Qed.
Lemma agree_inode p : directive_agrees p scan_inode 5 6.
Proof. unfold scan_inode. directive_agreement. Qed.

Create HintDb scans.
#[local] Hint Resolve agree_space agree_literal agree_skip_int agree_skip_word agree_localAddress agree_localPort
  agree_remoteAddress agree_remotePort agree_state agree_inode ends_agree_nil : scans.

(** A scan assigns what it would assign to an empty iterator. *)
Lemma scan_fresh line i :
  match run_directives PROC_LINE_FORMAT (mkScan line 0 i), scanned line with
  | None, None => True
  | Some x, Some (Some j) => scan_count x = 6 /\ scan_iterator x = set_procFile (procFile i) j
  | Some x, Some None => scan_count x <> 6
  | _, _ => False
  end.
Proof.
  assert (H : ends_agree (procFile i) PROC_LINE_FORMAT 0).
  { unfold PROC_LINE_FORMAT. repeat (eapply ends_agree_cons; [eauto with scans|]). auto with scans. }
  set (j := mkListeningPortsIterator None EmptyString 0 EmptyString 0 EmptyString).
  specialize (H (mkScan line 0 i) (mkScan line 0 j)). unfold scanned. fold j.
  destruct (run_directives PROC_LINE_FORMAT (mkScan line 0 i)) as [x|], (run_directives PROC_LINE_FORMAT (mkScan line 0 j)) as [y|];
    cbn [mbind option_bind]; try (by apply H; unfold scans_agree; cbn; repeat split; lia).
  destruct H as (m & _ & Hx & Hy & Hf & H); [unfold scans_agree; cbn; repeat split; lia|].
  rewrite Hx, Hy. destruct (Z.eqb_spec m 6) as [->|]; [|done]. split; [done|]. destruct H as (H1 & H2 & H3 & H4 & H5).
  unfold set_procFile. rewrite <- Hf, <- H1, <- H2, <- H3, <- H4, <- H5 by lia. by destruct (scan_iterator x).
Qed.

(** ** Lemmas: lines *)

Lemma take_line_split n text : let '(line, rest, ended) := take_line n text in
  text = (line ++ rest)%string /\ (ended = true -> rest = EmptyString).
Proof.
  revert text. induction n as [|n IH]; intros text; [done|]. cbn [take_line]. destruct text as [|c text]; [done|].
  destruct (Ascii.eqb c "010"); [done|]. specialize (IH text). destruct (take_line n text) as [[line rest] ended].
  destruct IH as [-> IH]. done.
Qed.

Lemma take_line_nonempty n c text : exists l rest ended, take_line (S n) (String c text) = (String c l, rest, ended).
Proof.
  cbn [take_line]. destruct (Ascii.eqb c "010"); [by eexists _, _, _|]. destruct (take_line n text) as [[line rest] ended]. by eexists _, _, _.
Qed.

Lemma lines_of_more fuel fuel' n text : (String.length text <= fuel)%nat -> (fuel <= fuel')%nat -> lines_of fuel' n text = lines_of fuel n text.
Proof.
  revert fuel' text. induction fuel as [|fuel IH]; intros fuel' text Hl Hf.
  - destruct text; [|cbn in Hl; lia]. destruct fuel'; [done|]. cbn. by destruct n.
  - destruct fuel' as [|fuel']; [lia|]. cbn [lines_of]. pose proof (take_line_split n text) as Hs.
    destruct (take_line n text) as [[line rest] ended]. destruct Hs as [-> _]. destruct line as [|c line]; [done|].
    f_equal. apply IH; [|lia]. pose proof (strlen_app (String c line) rest) as E. unfold strlen in E. cbn [String.length] in E. lia.
Qed.

(** The lines of a text are its pieces. *)
Lemma lines_cons size text : 1 < size -> text <> EmptyString ->
  exists c line rest ended, take_line (Z.to_nat (size - 1)) text = (String c line, rest, ended) /\
    lines size text = String c line :: lines size rest /\ (String.length rest < String.length text)%nat /\ (ended = true -> rest = EmptyString).
Proof.
  intros Hs Ht. destruct text as [|c text]; [done|]. unfold lines. destruct (Z.to_nat (size - 1)) as [|n] eqn:En; [lia|].
  destruct (take_line_nonempty n c text) as (line & rest & ended & E). exists c, line, rest, ended. split; [done|].
  pose proof (take_line_split (S n) (String c text)) as Hp. rewrite E in Hp. destruct Hp as [Ht' He].
  assert (Hl : (String.length rest < String.length (String c text))%nat).
  { rewrite Ht'. pose proof (strlen_app (String c line) rest) as El. unfold strlen in El. cbn [String.length] in *. lia. }
  split; [|by split]. cbn [lines_of String.length]. rewrite E. f_equal. apply lines_of_more; cbn [String.length] in Hl; lia.
Qed.

Lemma lines_empty size : lines size EmptyString = [].
Proof. done. Qed.

(** ** Lemmas: the iterator *)

Definition with_iterator (a : nat) (i : ListeningPortsIterator) (s : PortsState) : PortsState := set_iterators (<[a := i]> (ps_iterators s)) s.

(** A file of which [text] is left to be read, without an error. *)
Definition file_reads (f : FILE) (text : string) : Prop := unread f = text /\ ferror f = false /\ (feof f = true -> text = EmptyString).

Lemma elapse_with_iterator n a i s : elapse n (with_iterator a i s) = with_iterator a i (elapse n s).
Proof. by destruct s as [[] ? ? ?]. Qed.

Lemma with_iterator_twice a i i' s : with_iterator a i (with_iterator a i' s) = with_iterator a i s.
Proof. unfold with_iterator, set_iterators. cbn. by rewrite insert_insert_eq. Qed.

Lemma load_run a i s : ps_iterators s !! a = Some i -> load_iterator a s = Some (i, s).
Proof. intros H. unfold load_iterator, gets, bind. by rewrite H. Qed.

Lemma iterator_of_with a i s : ps_iterators (with_iterator a i s) !! a = Some i.
Proof. apply lookup_insert_eq. Qed.

Lemma fgets_run f text size w : reliable w -> file_reads f text -> 1 < size ->
  exists line f', fgets size f w = Some ((line, f'), bump 1 w) /\
    match lines size text with
    | [] => line = None /\ feof f' = true /\ file_reads f' EmptyString
    | l :: ls => line = Some l /\ exists rest, file_reads f' rest /\ lines size rest = ls /\ (String.length rest < String.length text)%nat
    end.
Proof.
  intros Hr (Hu & He & Hf) Hs. unfold fgets. rewrite (bind_eq _ _ _ _ _ (fallible_reliable w Hr)). cbn [negb]. rewrite Hu.
  destruct (decide (text = EmptyString)) as [->|Ht].
  - destruct (Z.to_nat (size - 1)) as [|n] eqn:E; [lia|]. cbn. eexists _, _. split; [reflexivity|]. cbn. rewrite orb_true_r. done.
  - destruct (lines_cons size text Hs Ht) as (c & line & rest & ended & -> & -> & Hl & Hend). eexists _, _. split; [reflexivity|].
    split; [done|]. exists rest. split; [|done]. split; [done|]. split; [done|]. cbn. destruct (feof f); [by specialize (Hf eq_refl)|].
    cbn [orb]. exact Hend.
Qed.

(** The iterator of a file of which [text] is left. *)
Definition iterator_reads (a : nat) (text : string) (s : PortsState) : Prop :=
  exists i f, ps_iterators s !! a = Some i /\ procFile i = Some f /\ file_reads f text.

(** Time has passed, and the iterator at [a] was changed. *)
Definition iterator_stepped (a : nat) (s s' : PortsState) : Prop := exists n i, s' = with_iterator a i (elapse n s).

Lemma stepped_trans a s s1 s2 : iterator_stepped a s s1 -> iterator_stepped a s1 s2 -> iterator_stepped a s s2.
Proof.
  intros (n & i & ->) (m & j & ->). exists (m + n)%nat, j. by rewrite elapse_with_iterator, with_iterator_twice, elapse_elapse.
Qed.

Lemma stepped_elapse a i n s : ps_iterators s !! a = Some i -> iterator_stepped a s (elapse n s).
Proof.
  intros H. exists n, i. unfold with_iterator, set_iterators. cbn. rewrite insert_id by done. by destruct s as [[] ? ? ?].
Qed.

Lemma stepped_reliable a s s' : iterator_stepped a s s' -> reliable (world_of s) -> reliable (world_of s').
Proof. intros (n & i & ->). apply (reliable_bump n). Qed.

Lemma PortsDeinit_run a i s : ps_iterators s !! a = Some i ->
  ListenintPortsIterator_Deinit (Some a) s = Some (tt, set_iterators (delete a (ps_iterators s)) s).
Proof. intros H. unfold ListenintPortsIterator_Deinit. by rewrite (bind_eq _ _ _ _ _ (load_run a i s H)). Qed.

(** One step: the next line, or the end of the file. *)
Lemma PortsGetNext_run a text s : reliable (world_of s) -> iterator_reads a text s ->
  match lines MAX_LINE_LENGTH text with
  | [] => exists s', ListenintPortsIterator_GetNext a s = Some (LISTENING_PORTS_ITERATOR_NO_MORE_DATA, s') /\ iterator_stepped a s s'
  | line :: rest =>
      match scanned line with
      | None => ListenintPortsIterator_GetNext a s = None
      | Some None => exists s', ListenintPortsIterator_GetNext a s = Some (LISTENING_PORTS_ITERATOR_EXCEPTION, s') /\ iterator_stepped a s s'
      | Some (Some j) => exists s' f text', ListenintPortsIterator_GetNext a s = Some (LISTENING_PORTS_ITERATOR_HAS_NEXT, s') /\ iterator_stepped a s s' /\
          ps_iterators s' !! a = Some (set_procFile f j) /\ iterator_reads a text' s' /\
          lines MAX_LINE_LENGTH text' = rest /\ (String.length text' < String.length text)%nat
      end
  end.
Proof.
  intros Hr (i & f & Hi & Hf & Hreads). unfold ListenintPortsIterator_GetNext.
  rewrite (bind_eq _ _ _ _ _ (load_run a i s Hi)), Hf. cbn [deref]. rewrite bind_ret_l.
  destruct (feof f) eqn:Ef.
  { destruct Hreads as (_ & _ & He). rewrite (He Ef). cbn. exists s. split; [done|]. rewrite <- (elapse_0 s) at 2. by eapply stepped_elapse. }
  destruct (fgets_run f text MAX_LINE_LENGTH (world_of s) Hr Hreads) as (line & f' & H & Hline); [done|].
  rewrite (bind_eq _ _ _ _ _ (up_bump _ _ 1 s H)).
  assert (Hstore : forall i s, store_iterator a i s = Some (tt, with_iterator a i s)) by done.
  rewrite (bind_eq _ _ _ _ _ (Hstore _ _)). destruct (lines MAX_LINE_LENGTH text) as [|l ls].
  - destruct Hline as (-> & -> & _). eexists. split; [reflexivity|]. by exists 1%nat, (set_procFile (Some f') i).
  - destruct Hline as (-> & text' & Hreads' & Hls & Hlen). pose proof (scan_fresh l (set_procFile (Some f') i)) as Hscan.
    destruct (run_directives PROC_LINE_FORMAT (mkScan l 0 (set_procFile (Some f') i))) as [x|], (scanned l) as [[j|]|]; try done.
    + destruct Hscan as [Hc Hi']. cbn [deref]. rewrite bind_ret_l, (bind_eq _ _ _ _ _ (Hstore _ _)), Hc, with_iterator_twice, Hi'. cbn [procFile set_procFile].
      eexists _, (Some f'), text'. split; [reflexivity|]. split; [by eexists 1%nat, _|]. split; [apply lookup_insert_eq|].
      split; [|done]. exists (set_procFile (Some f') j), f'. by split; [apply lookup_insert_eq|].
    + cbn [deref]. rewrite bind_ret_l, (bind_eq _ _ _ _ _ (Hstore _ _)), with_iterator_twice. destruct (Z.eqb_spec (scan_count x) 6); [done|].
      eexists. split; [reflexivity|]. by eexists 1%nat, _.
Qed.

(** What the caller gets before the first line: the line of headings is read. *)
Lemma PortsInit_run protocolType s : reliable (world_of s) -> ps_iterators s !! ps_next s = None ->
  let a := ps_next s in
  match proc_file (ps_system s) (ports_file protocolType) with
  | None => exists s', ListenintPortsIterator_Init protocolType s = Some ((LISTENING_PORTS_ITERATOR_EXCEPTION, Some a), s') /\ ps_iterators s' !! a = None
  | Some text => exists n i s0, ListenintPortsIterator_Init protocolType s =
        Some ((LISTENING_PORTS_ITERATOR_OK, Some a), with_iterator a i (elapse n s0)) /\
      s0 = mkPortsState (ps_store s) (ps_system s) (ps_iterators s) (S a) /\
      exists text', iterator_reads a text' (with_iterator a i (elapse n s0)) /\
        lines MAX_LINE_LENGTH text' = List.tl (lines MAX_LINE_LENGTH text) /\ (String.length text' <= String.length text)%nat
  end.
Proof.
  intros Hr Hfresh a. unfold ListenintPortsIterator_Init. rewrite (bind_eq _ _ _ _ _ (up_bump _ _ 1 s (malloc_reliable _ Hr))). cbn [negb].
  assert (Hg : gets ps_system (elapse 1 s) = Some (ps_system s, elapse 1 s)) by done.
  rewrite (bind_eq _ _ _ _ _ Hg). set (name := ports_file protocolType).
  assert (Hopen : forall s1 : PortsState, reliable (world_of s1) -> up (opened (proc_file (ps_system s) name)) s1 =
    Some ((text ← proc_file (ps_system s) name; Some (mkFILE text false false)), elapse 1 s1)).
  { intros s1 Hr1. apply up_bump. unfold opened. by rewrite (bind_eq _ _ _ _ _ (fallible_reliable _ Hr1)). }
  assert (Hr0 : reliable (world_of (elapse 1 s))) by exact Hr.
  rewrite (bind_eq _ _ _ _ _ (Hopen (elapse 1 s) Hr0)). set (s0 := mkPortsState (ps_store s) (ps_system s) (ps_iterators s) (S a)).
  assert (Hnew : forall i, new_iterator i (elapse 1 (elapse 1 s)) = Some (a, with_iterator a i (elapse 2 s0))) by (intros i; by destruct s as [[] ? ? ?]).
  destruct (proc_file (ps_system s) name) as [text|]; cbn [mbind option_bind].
  2:{ set (i0 := mkListeningPortsIterator _ _ _ _ _ _). rewrite (bind_eq _ _ _ _ _ (Hnew i0)).
      rewrite (bind_eq _ _ _ _ _ (PortsDeinit_run a i0 _ (iterator_of_with a i0 (elapse 2 s0)))).
      eexists. split; [reflexivity | apply lookup_delete_eq]. }
  assert (Hreads : file_reads (mkFILE text false false) text) by done. set (i0 := mkListeningPortsIterator _ _ _ _ _ _).
  rewrite (bind_eq _ _ _ _ _ (Hnew i0)). set (s1 := with_iterator a i0 (elapse 2 s0)).
  assert (Hr1 : reliable (world_of s1)) by exact Hr.
  destruct (fgets_run _ text MAX_LINE_LENGTH (world_of s1) Hr1 Hreads) as (line & f' & H & Hline); [done|].
  rewrite (bind_eq _ _ _ _ _ (up_bump _ _ 1 s1 H)). set (i1 := mkListeningPortsIterator (Some f') _ _ _ _ _).
  assert (Hstore : store_iterator a i1 (elapse 1 s1) = Some (tt, with_iterator a i1 (elapse 3 s0))).
  { unfold s1. rewrite elapse_with_iterator, elapse_elapse. unfold store_iterator, modify. do 2 f_equal. apply with_iterator_twice. }
  rewrite (bind_eq _ _ _ _ _ Hstore). exists 3%nat, i1, s0.
  destruct (lines MAX_LINE_LENGTH text) as [|l ls].
  - destruct Hline as (-> & _ & (Hu & He & Hf)). rewrite He. split; [done|]. split; [done|]. exists EmptyString.
    split; [|split; [done|cbn; lia]]. exists i1, f'. by split; [apply lookup_insert_eq|].
  - destruct Hline as (-> & text' & Hreads' & Hls & Hlen). split; [done|]. split; [done|]. exists text'.
    split; [|split; [done | lia]]. exists i1, f'. by split; [apply lookup_insert_eq|].
Qed.

(** ** Lemmas: what the kernel writes is read back *)

Fixpoint spaces (n : nat) : string := match n with O => EmptyString | S n => String " " (spaces n) end.

(** Columns, each after a blank and padded to its width. *)
Fixpoint columns (l : list (nat * string)) : string :=
  match l with [] => EmptyString | (pad, word) :: l => (" " ++ spaces pad ++ word ++ columns l)%string end.

(** A number of two bytes. *)
Definition two_bytes (port : Z) : list Z := [port / 256; port mod 256].

(** A socket as the kernel writes it: its number, the addresses and the ports, the
    state, five columns, the inode and more columns.  An address is written as a
    number of the device. *)
Definition socket_line (pad : nat) (number local localPort remote remotePort state : Z) (five : list (nat * string))
    (inode : nat * string) (more : list (nat * string)) : string :=
  (spaces pad ++ udec number ++ ": " ++
   hex_text true (IP_BYTES_RAW local) ++ ":" ++ hex_text true (two_bytes localPort) ++ " " ++
   hex_text true (IP_BYTES_RAW remote) ++ ":" ++ hex_text true (two_bytes remotePort) ++ " " ++
   hex_text true [state] ++ columns (five ++ inode :: more) ++ String "010" EmptyString)%string.

Fixpoint no_space (s : string) : bool :=
  match s with EmptyString => true | String c s => negb (isspace c) && no_space s end.

Definition word (s : string) : Prop := s <> EmptyString /\ no_space s = true.

(** What may come after a word, and after digits. *)
Definition after_word (s : string) : Prop := match s with EmptyString => True | String c _ => isspace c = true end.
Definition after_hex (s : string) : Prop := match s with EmptyString => True | String c _ => is_digit_in 16 c = false end.

Lemma skip_spaces n s : skip_space (spaces n ++ s) = skip_space s.
Proof. induction n as [|n IH]; [done|]. exact IH. Qed.

Lemma skip_space_word w s : word w -> skip_space (w ++ s) = (w ++ s)%string.
Proof.
  intros [H0 H]. destruct w as [|c w]; [done|]. cbn [no_space] in H. apply andb_true_iff in H as [H _].
  cbn [String.append skip_space]. by rewrite (proj1 (negb_true_iff _) H).
Qed.

Lemma span_word w s n : no_space w = true -> after_word s -> (String.length (w ++ s) <= n)%nat ->
  span (fun c => negb (isspace c)) n (w ++ s) = (w, s).
Proof.
  intros Hw Hs. revert n. induction w as [|c w IH]; intros n Hn.
  - destruct n, s as [|c s]; cbn in *; try done. by rewrite Hs.
  - destruct n as [|n]; [cbn in Hn; lia|]. cbn [no_space] in Hw. apply andb_true_iff in Hw as [Hc Hw].
    cbn [String.append span]. rewrite Hc, (IH Hw n) by (cbn in Hn; lia). done.
Qed.

Lemma columns_after l s : after_word s -> after_word (columns l ++ s).
Proof. by destruct l as [|[pad w] l]. Qed.

Lemma span_hex upper l s n : Forall byte l -> after_hex s -> (2 * List.length l <= n)%nat ->
  span (is_digit_in 16) n (hex_text upper l ++ s) = (hex_text upper l, s).
Proof.
  intros Hl Hs. revert n. induction Hl as [|b l Hb Hl IH]; intros n Hn.
  - destruct n, s as [|c s]; cbn in *; try done. by rewrite Hs.
  - destruct n as [|[|n]]; cbn [List.length] in Hn; [lia..|]. cbn [hex_text String.append span]. unfold byte in Hb.
    assert (Hd : forall d, 0 <= d < 16 -> is_digit_in 16 (hex_char upper d) = true).
    { intros d Hd. unfold is_digit_in. rewrite digit_value_hex by done. apply Z.ltb_lt. lia. }
    assert (0 <= b / 16 < 16) by (split; [apply Z.div_pos; lia | apply Z.div_lt_upper_bound; lia]).
    rewrite !Hd by (done || (apply Z.mod_pos_bound; lia)). rewrite IH by lia. done.
Qed.

Lemma read_digits_hex upper l s acc count : Forall byte l -> after_hex s ->
  read_digits 16 acc count (hex_text upper l ++ s) = (fold_left (fun n b => n * 256 + b) l acc, (2 * List.length l + count)%nat, s).
Proof.
  intros Hl Hs. revert acc count. induction Hl as [|b l Hb Hl IH]; intros acc count.
  - destruct s as [|c s]; [done|]. cbn in Hs |- *. unfold is_digit_in in Hs. destruct (digit_value c) as [d|]; [by rewrite Hs | done].
  - cbn [hex_text String.append read_digits]. unfold byte in Hb.
    assert (Hq : 0 <= b / 16 < 16) by (split; [apply Z.div_pos; lia | apply Z.div_lt_upper_bound; lia]).
    pose proof (Z.mod_pos_bound b 16 ltac:(lia)) as Hm. rewrite !digit_value_hex by done.
    rewrite (proj2 (Z.ltb_lt (b / 16) 16)), (proj2 (Z.ltb_lt (b mod 16) 16)) by lia. rewrite IH. cbn [fold_left List.length].
    replace ((acc * 16 + b / 16) * 16 + b mod 16) with (acc * 256 + b) by (pose proof (Z.div_mod b 16 ltac:(lia)); lia).
    by replace (2 * S (List.length l) + count)%nat with (2 * List.length l + S (S count))%nat by lia.
Qed.

(** Printed bytes are read as one number, when they have one. *)
Lemma hex_number_text upper l s : l <> [] -> Forall byte l -> after_hex s -> of_bytes l <= ULONG_MAX ->
  hex_number (hex_text upper l ++ s) = Some (u32 (of_bytes l), s).
Proof.
  intros H0 Hl Hs Hv. unfold hex_number. destruct l as [|b l]; [done|]. pose proof (Forall_inv Hl) as Hb. unfold byte in Hb.
  assert (Hq : 0 <= b / 16 < 16) by (split; [apply Z.div_pos; lia | apply Z.div_lt_upper_bound; lia]).
  pose proof (Z.mod_pos_bound b 16 ltac:(lia)) as Hm.
  pose proof (read_digits_hex upper (b :: l) s 0 0 Hl Hs) as Hd. cbn [hex_text String.append] in *.
  cbn [skip_space]. rewrite isspace_hex by done. unfold read_sign. rewrite !hex_char_sign by auto.
  assert (Hx : Ascii.eqb (tolower (hex_char upper (b mod 16))) "x" = false).
  { apply Ascii.eqb_neq. intros E. apply (f_equal code) in E. change (code "x") with 120 in E. unfold tolower in E.
    rewrite hex_char_code in E by done. pose proof (hex_char_code upper (b mod 16) Hm) as Hc.
    destruct (Z.ltb_spec (b mod 16) 10), upper; revert E; bdestruct_all; cbn [andb]; unfold code in *; rewrite ?N_ascii_embedding; lia. }
  rewrite Hx, andb_false_r, Hd. cbn [List.length Nat.mul Nat.add]. unfold strtoul_value, of_bytes in *.
  rewrite (proj2 (Z.ltb_ge _ _)) by exact Hv. done.
Qed.

Lemma run_go d l x x' : d x = Some (true, x') -> run_directives (d :: l) x = run_directives l x'.
Proof. intros H. cbn [run_directives]. by rewrite H. Qed.

Lemma skip_int_run pad n s c i : 0 <= n < 10 ^ 20 -> no_digit s ->
  scan_skip_int (mkScan (spaces pad ++ udec n ++ s) c i) = Some (true, mkScan s c i).
Proof.
  intros Hn Hs. unfold scan_skip_int. cbn [scan_input]. rewrite skip_spaces.
  destruct (udec_first n ltac:(lia)) as (d & t & Hd & E). pose proof (read_number_udec n s Hn Hs) as Hread. unfold read_number in Hread.
  rewrite E in *. cbn [String.append skip_space] in *. rewrite isspace_digit_char by done. unfold read_sign.
  rewrite !nondigit_ne_digit_char by done. destruct (read_digits 10 0 0 _) as [[v count] rest].
  destruct count; [done|]. by injection Hread as _ ->.
Qed.

Lemma skip_space_hex upper b l s : byte b -> skip_space (hex_text upper (b :: l) ++ s) = (hex_text upper (b :: l) ++ s)%string.
Proof.
  unfold byte. intros Hb. cbn [hex_text String.append skip_space].
  by rewrite isspace_hex by (split; [apply Z.div_pos; lia | apply Z.div_lt_upper_bound; lia]).
Qed.

Lemma address_run set_address l s c i : l <> [] -> Forall byte l -> after_hex s -> (2 * List.length l <= 64)%nat ->
  scan_address set_address (mkScan (hex_text true l ++ s) c i) = Some (true, mkScan s (c + 1) (set_address (hex_text true l) i)).
Proof.
  intros H0 Hl Hs Hlen. unfold scan_address. cbn [scan_input]. rewrite span_hex by done. by destruct l.
Qed.

Lemma hex_run set_number l s c i : l <> [] -> Forall byte l -> after_hex s -> of_bytes l <= INT32_MAX ->
  scan_hex set_number (mkScan (hex_text true l ++ s) c i) = Some (true, mkScan s (c + 1) (set_number (of_bytes l) i)).
Proof.
  intros H0 Hl Hs Hv. unfold scan_hex. cbn [scan_input].
  assert (Hp : forall l acc, 0 <= acc -> Forall byte l -> 0 <= fold_left (fun n b => n * 256 + b) l acc).
  { clear. intros l. induction l as [|b l IH]; intros acc Ha Hl; [done|]. apply Forall_cons in Hl as [Hb Hl].
    unfold byte in Hb. apply IH; [lia | done]. }
  pose proof (Hp l 0 ltac:(lia) Hl) as Hpos. fold (of_bytes l) in Hpos. unfold INT32_MAX in Hv.
  rewrite hex_number_text by (done || (unfold ULONG_MAX; lia)). unfold assign_value. cbn [scan_count scan_iterator].
  rewrite u32_small by ulia. do 4 f_equal. unfold i32. rewrite Z.mod_small by lia. f_equal. lia.
Qed.

(** Between two columns. *)
Lemma space_column pad w l s c i : word w ->
  scan_space (mkScan (columns ((pad, w) :: l) ++ s) c i) = Some (true, mkScan (w ++ columns l ++ s) c i).
Proof.
  intros Hw. unfold scan_space, consume. cbn [columns scan_input scan_count scan_iterator]. rewrite !sapp_assoc.
  change (" " ++ spaces pad ++ w ++ columns l ++ s)%string with (spaces (S pad) ++ w ++ columns l ++ s)%string.
  by rewrite skip_spaces, skip_space_word.
Qed.

Lemma skip_column w s c i : word w -> after_word s -> scan_skip_word (mkScan (w ++ s) c i) = Some (true, mkScan s c i).
Proof.
  intros Hw Hs. unfold scan_skip_word, read_word. cbn [scan_input]. rewrite skip_space_word, span_word by (done || apply Hw).
  destruct Hw as [H0 _]. by destruct w.
Qed.

Lemma inode_column w s c i : word w -> after_word s -> strlen w < MAX_INODE_LENGTH ->
  scan_inode (mkScan (w ++ s) c i) = Some (true, mkScan s (c + 1) (set_inode w i)).
Proof.
  intros Hw Hs Hl. unfold scan_inode, read_word. cbn [scan_input]. rewrite skip_space_word, span_word by (done || apply Hw).
  rewrite (proj2 (Z.ltb_lt _ _)) by done. destruct Hw as [H0 _]. by destruct w.
Qed.

(** What comes after the inode does not matter. *)
Lemma rest_run s c i : exists y, run_directives [scan_space; scan_skip_word; scan_space] (mkScan s c i) = Some y /\
  scan_count y = c /\ scan_iterator y = i.
Proof.
  cbn [run_directives]. unfold scan_space, scan_skip_word. cbn [scan_input mbind option_bind consume scan_count scan_iterator].
  destruct (read_word (skip_space s)) as [w rest]. destruct w; cbn [mbind option_bind consume scan_count scan_iterator]; by eexists.
Qed.

Lemma port_bytes_value port : 0 <= port < 65536 -> Forall byte (two_bytes port) /\ of_bytes (two_bytes port) = port.
Proof.
  intros Hp. unfold two_bytes, of_bytes, byte. cbn [fold_left]. pose proof (Z.div_mod port 256 ltac:(lia)).
  pose proof (Z.mod_pos_bound port 256 ltac:(lia)).
  assert (0 <= port / 256 < 256) by (split; [apply Z.div_pos; lia | apply Z.div_lt_upper_bound; lia]).
  split; [repeat constructor; lia | lia].
Qed.

Lemma raw_bytes_bytes n : Forall byte (IP_BYTES_RAW n).
Proof. rewrite raw_bytes. repeat constructor; apply Z.mod_pos_bound; lia. Qed.

Lemma proc_address_text n : is_u32 n -> proc_address (hex_text true (IP_BYTES_RAW n)) = Some (dotted (IP_BYTES n)).
Proof.
  intros Hn. unfold proc_address. pose proof (hex_number_text true (IP_BYTES_RAW n) "" ltac:(by rewrite raw_bytes) (raw_bytes_bytes n) I) as H.
  rewrite raw_bytes_back in H by done. rewrite sapp_nil_r in H. rewrite H by (unfold is_u32, UINT32_MAX, ULONG_MAX in *; lia).
  cbn. by rewrite u32_small.
Qed.

Lemma column_run pad w l rest s c i : word w -> after_word s ->
  run_directives (scan_space :: scan_skip_word :: rest) (mkScan (columns ((pad, w) :: l) ++ s) c i) =
  run_directives rest (mkScan (columns l ++ s) c i).
Proof. intros Hw Hs. rewrite (run_go _ _ _ _ (space_column pad w l s c i Hw)). apply run_go, skip_column; [done | by apply columns_after]. Qed.

Lemma columns_run (five : list (nat * string)) inode more s c i :
  List.length five = 5%nat -> Forall (fun x => word x.2) (five ++ inode :: more) -> after_word s -> strlen inode.2 < MAX_INODE_LENGTH ->
  exists y, run_directives [scan_space; scan_skip_word; scan_space; scan_skip_word; scan_space; scan_skip_word; scan_space;
      scan_skip_word; scan_space; scan_skip_word; scan_space; scan_inode; scan_space; scan_skip_word; scan_space]
      (mkScan (columns (five ++ inode :: more) ++ s) c i) = Some y /\
    scan_count y = c + 1 /\ scan_iterator y = set_inode inode.2 i.
Proof.
  intros H5 Hw Hs Hi. destruct five as [|[p1 w1] [|[p2 w2] [|[p3 w3] [|[p4 w4] [|[p5 w5] [|]]]]]]; try done. destruct inode as [p w].
  cbn [app] in *. repeat (apply Forall_cons in Hw as [? Hw]). cbn [snd] in *.
  rewrite !column_run by done. rewrite (run_go _ _ _ _ (space_column p w more s c i ltac:(done))).
  rewrite (run_go _ _ _ _ (inode_column w _ c i ltac:(done) (columns_after more s Hs) Hi)). apply rest_run.
Qed.

Lemma literal_run ch s c i : scan_literal ch (mkScan (String ch s) c i) = Some (true, mkScan s c i).
Proof. unfold scan_literal. cbn [scan_input]. by rewrite ascii_eqb_refl. Qed.

Lemma space_hex l s c i : l <> [] -> Forall byte l ->
  scan_space (mkScan (String " " (hex_text true l ++ s)) c i) = Some (true, mkScan (hex_text true l ++ s) c i).
Proof.
  intros H0 Hl. destruct l as [|b l]; [done|]. unfold scan_space, consume. cbn [scan_input scan_count scan_iterator].
  change (skip_space (String " " ?x)) with (skip_space x). rewrite skip_space_hex by (by apply Forall_inv in Hl). done.
Qed.

(** ** Property *)

(** C17: A line of the table of sockets of an IPv4 protocol is read back as what
    the kernel wrote into it, for any width of its columns: the two addresses, of
    32 bits, dotted, the two ports, of 16 bits, [*] for none, and the inode of the
    socket, when that has fewer than twenty digits. An address of an IPv6 table is
    not read back: [ipv6_address]. *)
Theorem socket_line_roundtrip pad number local lport remote rport state five ino more :
  0 <= number < 10 ^ 20 -> is_u32 local -> is_u32 remote -> 0 <= lport < 65536 -> 0 <= rport < 65536 -> byte state ->
  List.length five = 5%nat -> Forall (fun x => word x.2) (five ++ ino :: more) -> strlen ino.2 < MAX_INODE_LENGTH ->
  exists i, scanned (socket_line pad number local lport remote rport state five ino more) = Some (Some i) /\
    socket_of i = Some (mkSocket (dotted (IP_BYTES local), port_text lport) (dotted (IP_BYTES remote), port_text rport) ino.2).
Proof.
  intros Hn Hl Hr Hlp Hrp Hst H5 Hw Hi. unfold scanned, socket_line. set (i0 := mkListeningPortsIterator _ _ _ _ _ _). unfold PROC_LINE_FORMAT.
  destruct (port_bytes_value lport Hlp) as [Hlb Hlv], (port_bytes_value rport Hrp) as [Hrb Hrv].
  pose proof (raw_bytes_bytes local) as Hla. pose proof (raw_bytes_bytes remote) as Hra.
  set (s := String "010" EmptyString). assert (Hs : after_word s) by done. set (cs := five ++ ino :: more) in *.
  assert (Hc : after_hex (columns cs ++ s)) by (unfold cs; by destruct five as [|[p x] l]).
  assert (Hst1 : Forall byte [state]) by (by apply Forall_singleton).
  assert (Hn0 : IP_BYTES_RAW local <> [] /\ IP_BYTES_RAW remote <> []) by (by rewrite !raw_bytes). destruct Hn0 as [Hln Hrn].
  assert (Hlen : (2 * List.length (IP_BYTES_RAW local) <= 64)%nat /\ (2 * List.length (IP_BYTES_RAW remote) <= 64)%nat)
    by (rewrite !raw_bytes; cbn; lia). destruct Hlen as [Hll Hrl].
  rewrite (run_go _ _ _ _ (skip_int_run pad number (": " ++ _) 0 i0 Hn ltac:(done))). cbn [String.append].
  rewrite (run_go _ _ _ _ (literal_run _ _ _ _)), (run_go _ _ _ _ (space_hex _ _ _ _ Hln Hla)).
  rewrite (run_go _ _ _ _ (address_run set_localAddress _ (String ":" _) _ _ Hln Hla ltac:(done) Hll)), (run_go _ _ _ _ (literal_run _ _ _ _)).
  rewrite (run_go _ _ _ _ (hex_run set_localPort (two_bytes lport) (String " " _) _ _ ltac:(done) Hlb ltac:(done) ltac:(rewrite Hlv; unfold INT32_MAX; lia))).
  rewrite (run_go _ _ _ _ (space_hex _ _ _ _ Hrn Hra)).
  rewrite (run_go _ _ _ _ (address_run set_remoteAddress _ (String ":" _) _ _ Hrn Hra ltac:(done) Hrl)), (run_go _ _ _ _ (literal_run _ _ _ _)).
  rewrite (run_go _ _ _ _ (hex_run set_remotePort (two_bytes rport) (String " " _) _ _ ltac:(done) Hrb ltac:(done) ltac:(rewrite Hrv; unfold INT32_MAX; lia))).
  rewrite (run_go _ _ _ _ (space_hex [state] _ _ _ ltac:(done) Hst1)).
  rewrite (run_go _ _ _ _ (hex_run (fun _ i => i) [state] _ _ _ ltac:(done) Hst1 Hc ltac:(cbn; unfold byte, INT32_MAX in *; lia))).
  match goal with |- context [mkScan _ ?c ?i] => destruct (columns_run five ino more s c i H5 Hw Hs Hi) as (y & Hrun & Hy & Hyi) end.
  fold cs in Hrun. rewrite Hrun. cbn [mbind option_bind]. rewrite Hy, Hyi. cbn [Z.add].
  eexists. split; [reflexivity|]. rewrite Hlv, Hrv. unfold socket_of, i0.
  cbn [set_inode set_remotePort set_remoteAddress set_localPort set_localAddress localAddress localPort remoteAddress remotePort procFile inode].
  by rewrite !proc_address_text.
Qed.

Definition sample_five : list (nat * string) :=
  [(0%nat, "00000000:00000000"); (0%nat, "00:00000000"); (0%nat, "00000000"); (4%nat, "0"); (8%nat, "0")]%string.
Definition sample_inode : nat * string := (0%nat, "22017"%string).
Definition sample_more : list (nat * string) := [(0%nat, "1"%string)].

(** The socket of a printing service on the device itself. *)
Definition sample_line : string := socket_line 3 0 16777343 631 0 0 10 sample_five sample_inode sample_more.

Lemma socket_line_roundtrip_witness :
  exists i, scanned sample_line = Some (Some i) /\
    socket_of i = Some (mkSocket ("127.0.0.1", "631")%string ("0.0.0.0", "*")%string "22017").
Proof.
  apply (socket_line_roundtrip 3 0 16777343 631 0 0 10 sample_five sample_inode sample_more);
    first [lia | done | unfold is_u32, UINT32_MAX, byte; lia | by repeat constructor | by vm_compute].
Defined.

(** The address of a line of IPv6 has more digits than a number: it is shown as
    that of all ones. *)
Example ipv6_address : proc_address "FE80000000000000025056FFFEA9B2C1" = Some "255.255.255.255"%string.
Proof. vm_compute. reflexivity. Qed.
