(* ===== verification/ListeningPorts.v ===== *)
(** * [collectors/linux/listening_ports_collector.c]: the sockets as an event

    The collector first maps the inodes of sockets to processes, from what [ls]
    prints of the open files of every process, and then writes a payload for
    each socket of each protocol. *)

From S2P Require Import Prelude CString TwinDefs World Utils TimeUtils Parson ParsonModel Json TwinCollectors TwinConfiguration MemoryMonitor Telemetry Queue SyncQueue Schema MessageSerializer GenericEvent Collector SdkMap Iptables PortsIterator.
From Stdlib Require Import Ascii String.
Open Scope Z_scope.

Definition MAX_RECORD_VALUE_LENGTH : Z := 128.
Definition PROC_DIR_NAME : string := "/proc/".
Definition PROTOCOL_TYPES : list string := ["tcp"; "tcp6"; "udp"; "udp6"; "raw"; "raw6"]%string.

(** ["ls -l /proc/%s/fd"] *)
Definition LIST_PROCESS_INODES_COMMAND (pid : string) : string := ("ls -l /proc/" ++ pid ++ "/fd")%string.

(** [sizeof(value)] of the parameter [char* value]. *)
Definition SIZEOF_POINTER : Z := 8.

(** ** The regular expression *)

(** The offset of the last [c] in [s]. *)
Fixpoint last_offset (c : ascii) (s : string) : option nat :=
  match s with
  | EmptyString => None
  | String d s =>
      match last_offset c s with
      | Some n => Some (S n)
      | None => if Ascii.eqb d c then Some 0%nat else None
      end
  end.

Definition INODE_PREFIX : string := "socket:[".

(** Where the group of ["socket:\\[(.*?)\\]"], without regard to case, begins and
    ends in [s], [offset] characters into the record: after the first prefix that
    a bracket follows, up to the last bracket, since [*?] takes as much as [*]
    does in an extended regular expression. *)
Fixpoint regexec_inode (offset : nat) (s : string) : option (nat * nat) :=
  match s with
  | EmptyString => None
  | String _ s' =>
      let found :=
        if strncasecmp_eq (String.length INODE_PREFIX) s INODE_PREFIX
        then last_offset "]" (advance (String.length INODE_PREFIX) s) else None in
      match found with
      | Some n => let rm_so := (offset + String.length INODE_PREFIX)%nat in Some (rm_so, (rm_so + n)%nat)
      | None => regexec_inode (S offset) s'
      end
  end.

Section ListeningPorts.
Context {P : Parson} {Mon : MemoryMonitor} {Sm : SdkMap}.

(** ** The processes of the inodes *)

(** [output] before and after.  [regexec] with an expression that was not
    compiled is undefined. *)
Definition ListeningPortCollector_SearchInode (record : string) (output : option string) : M World (bool * option string) :=
  compiled <- fallible ;;
  if negb compiled then undefined
  else
    match regexec_inode 0 record with
    | None => ret (true, output)
    | Some (rm_so, rm_eo) =>
        let* (r, output) := Utils_StringFormat (Some (advance rm_so (stake rm_eo record))) in
        ret (bool_decide (r = ACTION_OK), output)
    end.

(** The lines that [ls] prints about a process. *)
Fixpoint inodes_loop (fuel : nat) (fp : FILE) (inodesMap : MAP_HANDLE) (pid : string) : M World (bool * MAP_HANDLE) :=
  match fuel with
  | O => undefined
  | S fuel =>
      let* (record, fp) := fgets MAX_RECORD_VALUE_LENGTH fp in
      match record with
      | None => ret (true, inodesMap)
      | Some record =>
          let* (found, inode) := ListeningPortCollector_SearchInode record None in
          if negb found then ret (false, inodesMap)
          else
            match inode with
            | None => inodes_loop fuel fp inodesMap pid
            | Some inode =>
                let* (mapResult, inodesMap) := Map_Add inodesMap inode pid in
                match mapResult with
                | MAP_OK | MAP_KEYEXISTS => inodes_loop fuel fp inodesMap pid
                | _ => ret (false, inodesMap)
                end
            end
      end
  end.

Definition ListeningPortCollector_PopulateProcessToInodesMap (sys : System) (inodesMap : MAP_HANDLE) (pid : string)
    : M World (bool * MAP_HANDLE) :=
  let* (r, command) := Utils_StringFormat (Some (LIST_PROCESS_INODES_COMMAND pid)) in
  match r, command with
  | ACTION_OK, Some command =>
      fp <- opened (command_output sys command) ;;
      match fp with
      | None => ret (false, inodesMap)
      | Some fp => inodes_loop (S (String.length (unread fp))) fp inodesMap pid
      end
  | _, _ => ret (false, inodesMap)
  end.

Fixpoint processes_loop (sys : System) (names : list string) (inodesMap : MAP_HANDLE) : M World (EventCollectorResult * MAP_HANDLE) :=
  match names with
  | [] => ret (EVENT_COLLECTOR_OK, inodesMap)
  | d_name :: names =>
      if Utils_IsStringNumeric (Some d_name) then
        let* (ok, inodesMap) := ListeningPortCollector_PopulateProcessToInodesMap sys inodesMap d_name in
        if negb ok then ret (EVENT_COLLECTOR_EXCEPTION, inodesMap) else processes_loop sys names inodesMap
      else processes_loop sys names inodesMap
  end.

Definition ListeningPortCollector_PopulateInodesMap (sys : System) (inodesMap : MAP_HANDLE) : M World (EventCollectorResult * MAP_HANDLE) :=
  ok <- fallible ;;
  match (if ok then proc_names sys PROC_DIR_NAME else None) with
  | None => ret (EVENT_COLLECTOR_EXCEPTION, inodesMap)
  | Some names => processes_loop sys names inodesMap
  end.

(** ** A socket *)

Definition ListeningPortCollector_AddPidToExtraDetails (portsIterator : ListeningPortsIterator) (extraDetails : JsonObjectWriter)
    (value : string) (inodesMap : MAP_HANDLE) : EventCollectorResult * JsonObjectWriter :=
  let '(r, value) := ListenintPortsIterator_GetPid portsIterator value SIZEOF_POINTER inodesMap in
  let result := if decide (r <> LISTENING_PORTS_ITERATOR_OK) then EVENT_COLLECTOR_EXCEPTION else EVENT_COLLECTOR_OK in
  match value with
  | EmptyString => (result, extraDetails)
  | _ =>
      match JsonObjectWriter_WriteString extraDetails LISTENING_PORTS_PID_KEY value with
      | (JSON_WRITER_OK, extraDetails) => (result, extraDetails)
      | (_, extraDetails) => (EVENT_COLLECTOR_EXCEPTION, extraDetails)
      end
  end.

Definition ListeningPortCollector_PopulateExtraDetails (portsIterator : ListeningPortsIterator) (extraDetails : JsonObjectWriter)
    (inodesMap : MAP_HANDLE) : EventCollectorResult * JsonObjectWriter :=
  let '(r, extraDetails) := ListeningPortCollector_AddPidToExtraDetails portsIterator extraDetails EmptyString inodesMap in
  (if decide (r <> EVENT_COLLECTOR_OK) then EVENT_COLLECTOR_EXCEPTION else EVENT_COLLECTOR_OK, extraDetails).

(** What a call of the iterator wrote to the buffer, when it succeeded. *)
Definition iterator_value (x : ListeningPortsIteratorResults * string) : M World (option string) :=
  ret (if decide (fst x <> LISTENING_PORTS_ITERATOR_OK) then None else Some (snd x)).

Definition ListeningPortCollector_AddSingleRecord (listeningPortsPayloadArray : JsonArrayWriter) (portsIterator : ListeningPortsIterator)
    (protocolType : string) (inodesMap : MAP_HANDLE) : M World (EventCollectorResult * JsonArrayWriter) :=
  let* (r, payloadWriter) := JsonObjectWriter_Init in
  match r, payloadWriter with
  | JSON_WRITER_OK, Some payloadWriter =>
      let* (r, extraDetails) := JsonObjectWriter_Init in
      match r, extraDetails with
      | JSON_WRITER_OK, Some extraDetails =>
          let* (ok, payloadWriter) :=
            run_steps
              [ string_step LISTENING_PORTS_PROTOCOL_KEY protocolType;
                computed_step LISTENING_PORTS_LOCAL_ADDRESS_KEY
                  (iterator_value (ListenintPortsIterator_GetLocalAddress portsIterator EmptyString MAX_RECORD_VALUE_LENGTH));
                computed_step LISTENING_PORTS_LOCAL_PORT_KEY
                  (iterator_value (ListenintPortsIterator_GetLocalPort portsIterator EmptyString MAX_RECORD_VALUE_LENGTH));
                computed_step LISTENING_PORTS_REMOTE_ADDRESS_KEY
                  (iterator_value (ListenintPortsIterator_GetRemoteAddress portsIterator EmptyString MAX_RECORD_VALUE_LENGTH));
                computed_step LISTENING_PORTS_REMOTE_PORT_KEY
                  (iterator_value (ListenintPortsIterator_GetRemotePort portsIterator EmptyString MAX_RECORD_VALUE_LENGTH)) ]
              payloadWriter in
          if negb ok then ret (EVENT_COLLECTOR_EXCEPTION, listeningPortsPayloadArray)
          else
            let '(r, extraDetails) := ListeningPortCollector_PopulateExtraDetails portsIterator extraDetails inodesMap in
            if decide (r <> EVENT_COLLECTOR_OK) then ret (EVENT_COLLECTOR_EXCEPTION, listeningPortsPayloadArray)
            else
              let '(sizeResult, size) := JsonObjectWriter_GetSize extraDetails in
              let '(r, payloadWriter) :=
                if bool_decide (sizeResult = JSON_WRITER_OK) && (0 <? size)
                then fst (JsonObjectWriter_WriteObject payloadWriter EXTRA_DETAILS_KEY extraDetails)
                else (JSON_WRITER_OK, payloadWriter) in
              if decide (r <> JSON_WRITER_OK) then ret (EVENT_COLLECTOR_EXCEPTION, listeningPortsPayloadArray)
              else
                match JsonArrayWriter_AddObject listeningPortsPayloadArray payloadWriter with
                | (JSON_WRITER_OK, listeningPortsPayloadArray, _) => ret (EVENT_COLLECTOR_OK, listeningPortsPayloadArray)
                | (_, listeningPortsPayloadArray, _) => ret (EVENT_COLLECTOR_EXCEPTION, listeningPortsPayloadArray)
                end
      | _, _ => ret (EVENT_COLLECTOR_EXCEPTION, listeningPortsPayloadArray)
      end
  | _, _ => ret (EVENT_COLLECTOR_EXCEPTION, listeningPortsPayloadArray)
  end.

(** ** The sockets of a protocol and the event *)

Fixpoint sockets_loop (fuel : nat) (iteratorResult : ListeningPortsIteratorResults) (listeningPortsPayloadArray : JsonArrayWriter)
    (portsIterator : nat) (protocolType : string) (inodesMap : MAP_HANDLE) : M PortsState (EventCollectorResult * JsonArrayWriter) :=
  match iteratorResult with
  | LISTENING_PORTS_ITERATOR_HAS_NEXT =>
      match fuel with
      | O => undefined
      | S fuel =>
          iterator <- load_iterator portsIterator ;;
          let* (result, listeningPortsPayloadArray) :=
            up (ListeningPortCollector_AddSingleRecord listeningPortsPayloadArray iterator protocolType inodesMap) in
          if decide (result <> EVENT_COLLECTOR_OK) then ret (EVENT_COLLECTOR_EXCEPTION, listeningPortsPayloadArray)
          else
            iteratorResult <- ListenintPortsIterator_GetNext portsIterator ;;
            sockets_loop fuel iteratorResult listeningPortsPayloadArray portsIterator protocolType inodesMap
      end
  | LISTENING_PORTS_ITERATOR_NO_MORE_DATA => ret (EVENT_COLLECTOR_OK, listeningPortsPayloadArray)
  | _ => ret (EVENT_COLLECTOR_EXCEPTION, listeningPortsPayloadArray)
  end.

Definition ListeningPortCollector_AddPortsByType (fuel : nat) (listeningPortsPayloadArray : JsonArrayWriter) (protocolType : string)
    (inodesMap : MAP_HANDLE) : M PortsState (EventCollectorResult * JsonArrayWriter) :=
  let* (r, portsIterator) := ListenintPortsIterator_Init protocolType in
  let* (result, listeningPortsPayloadArray) :=
    (if decide (r <> LISTENING_PORTS_ITERATOR_OK) then ret (EVENT_COLLECTOR_EXCEPTION, listeningPortsPayloadArray)
     else
       portsIterator <- deref portsIterator ;;
       iteratorResult <- ListenintPortsIterator_GetNext portsIterator ;;
       sockets_loop fuel iteratorResult listeningPortsPayloadArray portsIterator protocolType inodesMap) in
  ListenintPortsIterator_Deinit portsIterator ;;;
  ret (result, listeningPortsPayloadArray).

Fixpoint protocols_loop (fuel : nat) (types : list string) (listeningPortsPayloadArray : JsonArrayWriter) (inodesMap : MAP_HANDLE)
    : M PortsState (EventCollectorResult * JsonArrayWriter) :=
  match types with
  | [] => ret (EVENT_COLLECTOR_OK, listeningPortsPayloadArray)
  | protocolType :: types =>
      let* (result, listeningPortsPayloadArray) :=
        ListeningPortCollector_AddPortsByType fuel listeningPortsPayloadArray protocolType inodesMap in
      if decide (result <> EVENT_COLLECTOR_OK) then ret (EVENT_COLLECTOR_EXCEPTION, listeningPortsPayloadArray)
      else protocols_loop fuel types listeningPortsPayloadArray inodesMap
  end.

Definition ListeningPortCollector_AddPorts (fuel : nat) (listeningPortsEventWriter : JsonObjectWriter)
    : M PortsState (EventCollectorResult * JsonObjectWriter) :=
  inodesMap <- up Map_Create ;;
  match inodesMap with
  | None => ret (EVENT_COLLECTOR_EXCEPTION, listeningPortsEventWriter)
  | Some _ =>
      sys <- gets ps_system ;;
      let* (result, inodesMap) := up (ListeningPortCollector_PopulateInodesMap sys inodesMap) in
      if decide (result <> EVENT_COLLECTOR_OK) then ret (EVENT_COLLECTOR_EXCEPTION, listeningPortsEventWriter)
      else
        let* (r, listeningPortsPayloadArray) := up JsonArrayWriter_Init in
        match r, listeningPortsPayloadArray with
        | JSON_WRITER_OK, Some listeningPortsPayloadArray =>
            let* (result, listeningPortsPayloadArray) := protocols_loop fuel PROTOCOL_TYPES listeningPortsPayloadArray inodesMap in
            if decide (result <> EVENT_COLLECTOR_OK) then ret (EVENT_COLLECTOR_EXCEPTION, listeningPortsEventWriter)
            else ret (fst (GenericEvent_AddPayload listeningPortsEventWriter listeningPortsPayloadArray))
        | _, _ => ret (EVENT_COLLECTOR_EXCEPTION, listeningPortsEventWriter)
        end
  end.

(** The queue is in the heap of the program. *)
Definition on_ports_queue {A} (m : M (Store (D := string)) A) : M PortsState A := fun s =>
  match m (ps_store s) with
  | None => None
  | Some (a, st) => Some (a, mkPortsState st (ps_system s) (ps_iterators s) (ps_next s))
  end.

Definition ListeningPortCollector_GetEvents (fuel : nat) (queue : SyncQueue) : M PortsState (EventCollectorResult * SyncQueue) :=
  let* (r, listeningPortsEventWriter) := up JsonObjectWriter_Init in
  match r, listeningPortsEventWriter with
  | JSON_WRITER_OK, Some listeningPortsEventWriter =>
      let* (r, listeningPortsEventWriter) :=
        up (GenericEvent_AddMetadata listeningPortsEventWriter EVENT_PERIODIC_CATEGORY LISTENING_PORTS_NAME
              EVENT_TYPE_SECURITY_VALUE LISTENING_PORTS_PAYLOAD_SCHEMA_VERSION) in
      if decide (r <> EVENT_COLLECTOR_OK) then ret (EVENT_COLLECTOR_EXCEPTION, queue)
      else
        let* (r, listeningPortsEventWriter) := ListeningPortCollector_AddPorts fuel listeningPortsEventWriter in
        if decide (r <> EVENT_COLLECTOR_OK) then ret (EVENT_COLLECTOR_EXCEPTION, queue)
        else on_ports_queue (push_event queue listeningPortsEventWriter)
  | _, _ => ret (EVENT_COLLECTOR_EXCEPTION, queue)
  end.

(** ** Specification *)

(** The inode that a line of [ls] shows of a socket. *)
Definition inode_in (record : string) : option string :=
  (fun x => advance x.1 (stake x.2 record)) <$> regexec_inode 0 record.

(** The sockets of a process, when its files can be listed. *)
Definition process_sockets (sys : System) (pid : string) : option (list (string * string)) :=
  text ← command_output sys (LIST_PROCESS_INODES_COMMAND pid);
  Some (omap (fun record => (fun i => (i, pid)) <$> inode_in record) (lines MAX_RECORD_VALUE_LENGTH text)).

(** The sockets of all processes, as pairs of an inode and a process. *)
Definition socket_owners (sys : System) : option (list (string * string)) :=
  names ← proc_names sys PROC_DIR_NAME;
  l ← mapM (process_sockets sys) (List.filter (fun name => Utils_IsStringNumeric (Some name)) names);
  Some (List.concat l).

(** The first process that has the socket. *)
Definition owner (owners : list (string * string)) (inode : string) : option string :=
  snd <$> List.find (fun x => String.eqb x.1 inode) owners.

(** The sockets that the table of a protocol shows, after its line of headings. *)
Fixpoint all_sockets (l : list string) : option (list Socket) :=
  match l with
  | [] => Some []
  | line :: l =>
      i ← scanned line;
      i ← i;
      socket ← socket_of i;
      rest ← all_sockets l;
      Some (socket :: rest)
  end.

Definition protocol_sockets (sys : System) (protocolType : string) : option (list (string * Socket)) :=
  text ← proc_file sys (ports_file protocolType);
  sockets ← all_sockets (List.tl (lines MAX_LINE_LENGTH text));
  Some (map (fun socket => (protocolType, socket)) sockets).

Definition sockets_of (sys : System) (types : list string) : option (list (string * Socket)) :=
  l ← mapM (protocol_sockets sys) types; Some (List.concat l).

Definition socket_fields (protocolType : string) (socket : Socket) : list Field :=
  [ (LISTENING_PORTS_PROTOCOL_KEY, FString protocolType);
    (LISTENING_PORTS_LOCAL_ADDRESS_KEY, FString (fst (local_text socket)));
    (LISTENING_PORTS_LOCAL_PORT_KEY, FString (snd (local_text socket)));
    (LISTENING_PORTS_REMOTE_ADDRESS_KEY, FString (fst (remote_text socket)));
    (LISTENING_PORTS_REMOTE_PORT_KEY, FString (snd (remote_text socket))) ].

(** An object in a field of another. *)
Definition write_object (key : string) (o w : JsonObjectWriter) : option JsonObjectWriter :=
  d ← json_object_set_value (wr_rootValue w) (wr_rootObject w) key (wr_rootValue o); Some (set_document d w).

(** The payload of a socket: its fields, and its process when that is known and
    has at most eight digits; a longer one is an error. *)
Definition add_socket (owners : list (string * string)) (a : JsonArrayWriter) (x : string * Socket) : option JsonArrayWriter :=
  w ← new_writer;
  w ← write_fields (socket_fields x.1 x.2) w;
  w ← (match owner owners (socket_inode x.2) with
       | None | Some EmptyString => Some w
       | Some pid =>
           if strlen pid <=? SIZEOF_POINTER then
             details ← new_writer;
             details ← write_fields [(LISTENING_PORTS_PID_KEY, FString pid)] details;
             write_object EXTRA_DETAILS_KEY details w
           else None
       end);
  append_object a w.

Fixpoint add_sockets (owners : list (string * string)) (a : JsonArrayWriter) (l : list (string * Socket)) : option JsonArrayWriter :=
  match l with
  | [] => Some a
  | x :: l => a ← add_socket owners a x; add_sockets owners a l
  end.

(** What the collector makes of an array. *)
Definition ports_added (sys : System) (a : JsonArrayWriter) : option JsonArrayWriter :=
  owners ← socket_owners sys;
  sockets ← sockets_of sys PROTOCOL_TYPES;
  add_sockets owners a sockets.

(** The tables can be opened, and no inode is longer than its field. *)
Definition tables_readable (sys : System) : Prop := Forall (fun protocolType => exists text,
  proc_file sys (ports_file protocolType) = Some text /\
  Forall (fun line => scanned line <> None) (List.tl (lines MAX_LINE_LENGTH text))) PROTOCOL_TYPES.

(** The number of lines of the longest table. *)
Definition table_lines (sys : System) : nat :=
  foldr Nat.max 0%nat (map (fun protocolType => match proc_file sys (ports_file protocolType) with
    | Some text => List.length (lines MAX_LINE_LENGTH text) | None => 0%nat end) PROTOCOL_TYPES).

End ListeningPorts.

(** What parson says of the number of the fields of an object. *)
Class ObjectCounts (P : Parson) : Prop := {
  count_new : forall w, new_writer = Some w -> json_object_get_count (wr_rootValue w) (wr_rootObject w) = 0;
  count_one : forall w key value d, new_writer = Some w -> json_object_set_string (wr_rootValue w) (wr_rootObject w) key value = Some d ->
    json_object_get_count d (wr_rootObject w) = 1;
}.

(** ** Lemmas: the processes of the inodes *)

Section PortsLemmas.
Context {P : Parson} {Mon : MemoryMonitor} {Sm : SdkMap} {SmLaws : SdkMapLaws Sm}.

(** The map has what the list has. *)
Definition maps_to (m : MapContent) (owners : list (string * string)) : Prop := forall inode, map_view m !! inode = owner owners inode.

Lemma owner_app a b inode : owner (a ++ b) inode = match owner a inode with Some pid => Some pid | None => owner b inode end.
Proof. unfold owner. induction a as [|x a IH]; [done|]. cbn [app List.find]. destruct (String.eqb x.1 inode); [done | exact IH]. Qed.

Lemma owner_one inode pid key : owner [(inode, pid)] key = if String.eqb inode key then Some pid else None.
Proof. unfold owner. cbn. by destruct (String.eqb inode key). Qed.

(** Adding a pair keeps the first process of an inode. *)
Lemma Map_Add_run m owners inode pid w : reliable w -> maps_to m owners ->
  exists r n m', Map_Add (Some m) inode pid w = Some ((r, Some m'), bump n w) /\ (r = MAP_OK \/ r = MAP_KEYEXISTS) /\
    maps_to m' (owners ++ [(inode, pid)]).
Proof.
  intros Hr Hm. unfold Map_Add. destruct (map_view m !! inode) as [v|] eqn:E.
  - rewrite (map_add_there_law _ _ pid _ E). exists MAP_KEYEXISTS, 0%nat, m. rewrite bump_0. split; [done|]. split; [by right|].
    intros key. rewrite owner_app, owner_one, <- Hm. destruct (map_view m !! key) eqn:Ek; [done|].
    destruct (String.eqb_spec inode key) as [->|]; [congruence | done].
  - destruct (map_add_new_law m inode pid E) as (m' & Hadd & Hview). rewrite Hadd, (bind_eq _ _ _ _ _ (malloc_reliable w Hr)).
    exists MAP_OK, 1%nat, m'. split; [done|]. split; [by left|]. intros key. rewrite Hview, owner_app, owner_one, <- Hm.
    destruct (String.eqb_spec inode key) as [->|Hne]; [by rewrite lookup_insert_eq, E|].
    rewrite lookup_insert_ne by done. by destruct (map_view m !! key).
Qed.

Lemma SearchInode_run record w : reliable w ->
  exists n, ListeningPortCollector_SearchInode record None w = Some ((true, inode_in record), bump n w).
Proof.
  intros Hr. unfold ListeningPortCollector_SearchInode, inode_in. rewrite (bind_eq _ _ _ _ _ (fallible_reliable w Hr)). cbn [negb].
  destruct (regexec_inode 0 record) as [[so eo]|]; [|by exists 1%nat].
  cbn [Utils_StringFormat]. rewrite bind_assoc, (bind_eq _ _ _ _ _ (malloc_reliable _ (reliable_bump 1 w Hr))), bump_bump. by exists 2%nat.
Qed.

Definition pairs_of (pid : string) (records : list string) : list (string * string) :=
  omap (fun record => (fun i => (i, pid)) <$> inode_in record) records.

Lemma inodes_loop_run fuel fp text m owners pid w : reliable w -> file_reads fp text -> (String.length text < fuel)%nat -> maps_to m owners ->
  exists n m', inodes_loop fuel fp (Some m) pid w = Some ((true, Some m'), bump n w) /\
    maps_to m' (owners ++ pairs_of pid (lines MAX_RECORD_VALUE_LENGTH text)).
Proof.
  revert fp text m owners w. induction fuel as [|fuel IH]; intros fp text m owners w Hr Hreads Hlen Hm; [lia|]. cbn [inodes_loop].
  destruct (fgets_run fp text MAX_RECORD_VALUE_LENGTH w Hr Hreads) as (record & fp' & H & Hline); [done|]. rewrite (bind_eq _ _ _ _ _ H).
  destruct (lines MAX_RECORD_VALUE_LENGTH text) as [|l ls].
  - destruct Hline as (-> & _). exists 1%nat, m. by rewrite app_nil_r.
  - destruct Hline as (-> & text' & Hreads' & <- & Hless).
    destruct (SearchInode_run l (bump 1 w) Hr) as [n1 H1]. rewrite (bind_eq _ _ _ _ _ H1), bump_bump. cbn [negb]. unfold pairs_of. cbn [omap list_omap].
    destruct (inode_in l) as [i|]; cbn [fmap option_fmap option_map].
    + destruct (Map_Add_run m owners i pid (bump (n1 + 1) w) Hr Hm) as (r & n2 & m2 & H2 & Hok & Hm2). rewrite (bind_eq _ _ _ _ _ H2), bump_bump.
      destruct (IH fp' text' m2 _ (bump (n2 + (n1 + 1)) w) Hr Hreads' ltac:(lia) Hm2) as (n3 & m3 & H3 & Hm3).
      exists (n3 + (n2 + (n1 + 1)))%nat, m3. split; [by destruct Hok as [-> | ->]; rewrite H3, bump_bump|]. by rewrite <- app_assoc in Hm3.
    + destruct (IH fp' text' m owners (bump (n1 + 1) w) Hr Hreads' ltac:(lia) Hm) as (n3 & m3 & H3 & Hm3).
      exists (n3 + (n1 + 1))%nat, m3. by rewrite H3, bump_bump.
Qed.

Lemma opened_run text w : reliable w -> opened text w = Some ((text ← text; Some (mkFILE text false false)), bump 1 w).
Proof. intros Hr. unfold opened. by rewrite (bind_eq _ _ _ _ _ (fallible_reliable w Hr)). Qed.

Lemma PopulateProcess_run sys m owners pid w : reliable w -> maps_to m owners ->
  exists n ok m', ListeningPortCollector_PopulateProcessToInodesMap sys (Some m) pid w = Some ((ok, Some m'), bump n w) /\
    match process_sockets sys pid with Some l => ok = true /\ maps_to m' (owners ++ l) | None => ok = false end.
Proof.
  intros Hr Hm. unfold ListeningPortCollector_PopulateProcessToInodesMap, process_sockets. cbn [Utils_StringFormat].
  rewrite bind_assoc, (bind_eq _ _ _ _ _ (malloc_reliable w Hr)), bind_ret_l.
  rewrite (bind_eq _ _ _ _ _ (opened_run _ (bump 1 w) Hr)), bump_bump.
  destruct (command_output sys (LIST_PROCESS_INODES_COMMAND pid)) as [text|]; cbn [mbind option_bind unread]; [|by eexists _, false, m].
  assert (Hreads : file_reads (mkFILE text false false) text) by done.
  destruct (inodes_loop_run _ _ text m owners pid (bump (1 + 1) w) Hr Hreads (Nat.lt_succ_diag_r _) Hm) as (n & m' & H & Hm').
  exists (n + (1 + 1))%nat, true, m'. by rewrite H, bump_bump.
Qed.

Lemma processes_loop_run sys names m owners w : reliable w -> maps_to m owners ->
  exists n r m', processes_loop sys names (Some m) w = Some ((r, Some m'), bump n w) /\
    match mapM (process_sockets sys) (List.filter (fun name => Utils_IsStringNumeric (Some name)) names) with
    | Some l => r = EVENT_COLLECTOR_OK /\ maps_to m' (owners ++ List.concat l)
    | None => r <> EVENT_COLLECTOR_OK
    end.
Proof.
  revert m owners w. induction names as [|name names IH]; intros m owners w Hr Hm; cbn [processes_loop List.filter mapM].
  { exists 0%nat, EVENT_COLLECTOR_OK, m. cbn. by rewrite bump_0, app_nil_r. }
  destruct (Utils_IsStringNumeric (Some name)); [|by apply IH]. cbn [mapM].
  destruct (PopulateProcess_run sys m owners name w Hr Hm) as (n1 & ok & m1 & H1 & Hp). rewrite (bind_eq _ _ _ _ _ H1).
  destruct (process_sockets sys name) as [l|]; cbn [mbind option_bind].
  - destruct Hp as [-> Hm1]. cbn [negb]. destruct (IH m1 _ (bump n1 w) Hr Hm1) as (n2 & r & m2 & H2 & Hr2).
    exists (n2 + n1)%nat, r, m2. rewrite H2, bump_bump. split; [done|].
    destruct (mapM (process_sockets sys) _) as [ls|]; cbn [mbind option_bind mret option_ret List.concat]; [|done].
    by rewrite <- app_assoc in Hr2.
  - subst ok. cbn [negb]. by exists n1, EVENT_COLLECTOR_EXCEPTION, m1.
Qed.

Lemma PopulateInodesMap_run sys m w : reliable w -> maps_to m [] ->
  exists n r m', ListeningPortCollector_PopulateInodesMap sys (Some m) w = Some ((r, Some m'), bump n w) /\
    match socket_owners sys with Some owners => r = EVENT_COLLECTOR_OK /\ maps_to m' owners | None => r <> EVENT_COLLECTOR_OK end.
Proof.
  intros Hr Hm. unfold ListeningPortCollector_PopulateInodesMap, socket_owners. rewrite (bind_eq _ _ _ _ _ (fallible_reliable w Hr)).
  destruct (proc_names sys PROC_DIR_NAME) as [names|]; cbn [mbind option_bind]; [|by exists 1%nat, EVENT_COLLECTOR_EXCEPTION, m].
  destruct (processes_loop_run sys names m [] (bump 1 w) Hr Hm) as (n & r & m' & H & Hl).
  exists (n + 1)%nat, r, m'. rewrite H, bump_bump. split; [done|]. by destruct (mapM (process_sockets sys) _).
Qed.

(** ** Lemmas: a socket *)

Definition is_i32 (n : Z) : Prop := INT32_MIN <= n <= INT32_MAX.
Definition ports_fit (i : ListeningPortsIterator) : Prop := is_i32 (localPort i) /\ is_i32 (remotePort i).

Definition keeps_ports (d : Directive) : Prop := forall x ok x', d x = Some (ok, x') -> ports_fit (scan_iterator x) -> ports_fit (scan_iterator x').

Lemma run_keeps_ports l x x' : Forall keeps_ports l -> run_directives l x = Some x' -> ports_fit (scan_iterator x) -> ports_fit (scan_iterator x').
Proof.
  intros Hl. revert x. induction Hl as [|d l Hd _ IH]; intros x H Hx; cbn [run_directives] in H; [by injection H as <-|].
  destruct (d x) as [[ok x1]|] eqn:E; [|done]. cbn [mbind option_bind] in H. specialize (Hd x ok x1 E Hx).
  destruct ok; [by eapply IH | by injection H as <-].
Qed.

Lemma format_keeps_ports : Forall keeps_ports PROC_LINE_FORMAT.
Proof.
  unfold PROC_LINE_FORMAT, keeps_ports, ports_fit. repeat (apply Forall_cons_2 || apply Forall_nil_2); intros x ok x';
    unfold scan_space, scan_literal, scan_skip_int, scan_address, scan_hex, scan_skip_word, scan_inode;
    repeat match goal with |- context [match ?e with _ => _ end] =>
      lazymatch e with context [match _ with _ => _ end] => fail | _ => destruct e end end;
    intros [= <- <-] []; cbn; split; solve [done | apply i32_range].
Qed.

Lemma scanned_ports line i : scanned line = Some (Some i) -> ports_fit i.
Proof.
  unfold scanned. destruct (run_directives _ _) as [x|] eqn:E; [|done]. cbn [mbind option_bind]. destruct (scan_count x =? 6); [|done].
  intros [= <-]. eapply run_keeps_ports; [exact format_keeps_ports | exact E | by cbn].
Qed.

Lemma sdec_length n : is_i32 n -> strlen (sdec n) <= 11.
Proof.
  unfold is_i32, INT32_MIN, INT32_MAX, sdec. intros Hn. destruct (Z.ltb_spec n 0).
  - rewrite strlen_cons. pose proof (udec_length (- n) 10). change (10 ^ Z.of_nat 10) with 10000000000 in *. lia.
  - pose proof (udec_length n 10). change (10 ^ Z.of_nat 10) with 10000000000 in *. lia.
Qed.

Lemma stake_whole s t : (stake (Z.to_nat (strlen s)) s ++ advance (Z.to_nat (strlen s)) t)%string = (s ++ advance (String.length s) t)%string.
Proof. unfold strlen. rewrite Nat2Z.id. f_equal. clear t. induction s as [|c s IH]; cbn; congruence. Qed.

Lemma GetPort_run port : is_i32 port -> ListenintPortsIterator_GetPort port "" MAX_RECORD_VALUE_LENGTH = (LISTENING_PORTS_ITERATOR_OK, port_text port).
Proof.
  intros Hp. unfold ListenintPortsIterator_GetPort, port_text. destruct (Z.eqb_spec port 0) as [->|]; [done|].
  pose proof (sdec_length port Hp). pose proof (strlen_nonneg (sdec port)). unfold Utils_IntegerToString, MAX_NET_PORT_LENGTH.
  rewrite (proj2 (Z.ltb_ge 20 _)) by lia. rewrite (proj2 (Z.ltb_ge (strlen (sdec port)) 0)), (proj2 (Z.leb_gt _ _)) by lia. cbn [orb negb].
  unfold Utils_CopyString, MAX_RECORD_VALUE_LENGTH. rewrite (proj2 (Z.ltb_ge 128 _)) by lia.
  by rewrite stake_whole, advance_nil, sapp_nil_r.
Qed.

Lemma GetAddress_run digits :
  match proc_address digits with
  | Some text => ListeningPortsIterator_GetAddress digits "" MAX_RECORD_VALUE_LENGTH = (LISTENING_PORTS_ITERATOR_OK, text)
  | None => ListeningPortsIterator_GetAddress digits "" MAX_RECORD_VALUE_LENGTH = (LISTENING_PORTS_ITERATOR_EXCEPTION, ""%string)
  end.
Proof.
  unfold proc_address, ListeningPortsIterator_GetAddress, inet_ntop. destruct (hex_number digits) as [[v rest]|]; [|done]. cbn [fmap option_fmap option_map fst].
  pose proof (dotted_length v). unfold MAX_RECORD_VALUE_LENGTH. by rewrite (proj2 (Z.ltb_lt _ _)) by lia.
Qed.

Lemma GetPid_run i m owners : maps_to m owners ->
  ListenintPortsIterator_GetPid i "" SIZEOF_POINTER (Some m) =
  match owner owners (inode i) with
  | None => (LISTENING_PORTS_ITERATOR_OK, ""%string)
  | Some pid => if strlen pid <=? SIZEOF_POINTER then (LISTENING_PORTS_ITERATOR_OK, pid) else (LISTENING_PORTS_ITERATOR_EXCEPTION, ""%string)
  end.
Proof.
  intros Hm. unfold ListenintPortsIterator_GetPid, Map_GetValueFromKey. cbn [mbind option_bind]. rewrite map_get_law, Hm.
  destruct (owner owners (inode i)) as [pid|]; [|done]. unfold Utils_CopyString. rewrite Z.ltb_antisym.
  destruct (strlen pid <=? SIZEOF_POINTER); cbn [negb]; [|done]. by rewrite stake_whole, advance_nil, sapp_nil_r.
Qed.

Context {Counts : ObjectCounts P}.

(** The extra details of a socket, and the payload with them. *)
Lemma details_run i m owners details (w : JsonObjectWriter) : maps_to m owners -> new_writer = Some details ->
  let '(r, details') := ListeningPortCollector_PopulateExtraDetails i details (Some m) in
  (match owner owners (inode i) with
   | None | Some EmptyString => Some w
   | Some pid =>
       if strlen pid <=? SIZEOF_POINTER then
         details ← write_fields [(LISTENING_PORTS_PID_KEY, FString pid)] details;
         write_object EXTRA_DETAILS_KEY details w
       else None
   end) =
  if decide (r = EVENT_COLLECTOR_OK) then
    if 0 <? u32 (json_object_get_count (wr_rootValue details') (wr_rootObject details')) then write_object EXTRA_DETAILS_KEY details' w else Some w
  else None.
Proof.
  intros Hm Hnew. unfold ListeningPortCollector_PopulateExtraDetails, ListeningPortCollector_AddPidToExtraDetails.
  rewrite (GetPid_run i m owners Hm). assert (Hempty : (0 <? u32 (json_object_get_count (wr_rootValue details) (wr_rootObject details))) = false)
    by (by rewrite (count_new _ Hnew)).
  destruct (owner owners (inode i)) as [pid|]; [|by repeat (case_decide; [try tauto | try tauto]); rewrite Hempty].
  destruct (Z.leb_spec (strlen pid) SIZEOF_POINTER) as [Hl|Hl].
  2:{ destruct pid; [by vm_compute in Hl|]. by repeat (case_decide; try tauto). }
  destruct pid as [|c pid]; [by repeat (case_decide; try tauto); rewrite Hempty|].
  unfold JsonObjectWriter_WriteString, write_result. cbn [write_fields write_field]. unfold write_string.
  destruct (json_object_set_string (wr_rootValue details) (wr_rootObject details) LISTENING_PORTS_PID_KEY (String c pid)) as [d|] eqn:Ed;
    cbn [mbind option_bind]; repeat (case_decide; try tauto); try done.
  cbn [set_document wr_rootValue wr_rootObject]. by rewrite (count_one _ _ _ _ Hnew Ed).
Qed.

(** The steps of computed fields. *)
Definition given (l : list (string * option string)) : option (list Field) := mapM (fun x => s ← x.2; Some (x.1, FString s)) l.

Lemma given_run l w (x : World) :
  exists ok w', run_steps (map (fun f => computed_step f.1 (ret f.2)) l) w x = Some ((ok, w'), x) /\
    (fs ← given l; write_fields fs w) = if ok then Some w' else None.
Proof.
  revert w. induction l as [|[key v] l IH]; intros w; [by exists true, w|]. cbn [map run_steps given mapM fst snd]. unfold computed_step at 1.
  rewrite bind_assoc, bind_ret_l. destruct v as [s|]; cbn [mbind option_bind]; [|by exists false, w].
  pose proof (field_run (key, FString s) w x) as Hf. cbn [field_step] in Hf. rewrite (bind_eq _ _ _ _ _ Hf).
  fold (given l). destruct (write_field (key, FString s) w) as [w1|] eqn:Ew.
  - destruct (IH w1) as (ok & w' & H & Hw). exists ok, w'. split; [exact H|].
    destruct (given l) as [fs|]; cbn [mbind option_bind mret option_ret write_fields] in *; [by rewrite Ew | exact Hw].
  - exists false, w. split; [done|]. destruct (given l); cbn [mbind option_bind mret option_ret write_fields]; [by rewrite Ew | done].
Qed.

Lemma address_value digits : iterator_value (ListeningPortsIterator_GetAddress digits "" MAX_RECORD_VALUE_LENGTH) = ret (proc_address digits).
Proof. pose proof (GetAddress_run digits) as H. by destruct (proc_address digits); rewrite H. Qed.

Lemma port_value port : is_i32 port -> iterator_value (ListenintPortsIterator_GetPort port "" MAX_RECORD_VALUE_LENGTH) = ret (Some (port_text port)).
Proof. intros H. by rewrite GetPort_run. Qed.

(** What the steps of a record write. *)
Definition socket_values (protocolType : string) (i : ListeningPortsIterator) : list (string * option string) :=
  [ (LISTENING_PORTS_PROTOCOL_KEY, Some protocolType); (LISTENING_PORTS_LOCAL_ADDRESS_KEY, proc_address (localAddress i));
    (LISTENING_PORTS_LOCAL_PORT_KEY, Some (port_text (localPort i))); (LISTENING_PORTS_REMOTE_ADDRESS_KEY, proc_address (remoteAddress i));
    (LISTENING_PORTS_REMOTE_PORT_KEY, Some (port_text (remotePort i))) ].

Lemma add_socket_parts owners a protocolType i w0 : new_writer = Some w0 ->
  (socket ← socket_of i; add_socket owners a (protocolType, socket)) =
  (w1 ← (fs ← given (socket_values protocolType i); write_fields fs w0);
   w2 ← (match owner owners (inode i) with
         | None | Some EmptyString => Some w1
         | Some pid =>
             if strlen pid <=? SIZEOF_POINTER then
               details ← write_fields [(LISTENING_PORTS_PID_KEY, FString pid)] w0;
               write_object EXTRA_DETAILS_KEY details w1
             else None
         end);
   append_object a w2).
Proof.
  intros Hnew. unfold socket_of, add_socket. rewrite Hnew.
  destruct (proc_address (localAddress i)) as [l|] eqn:El, (proc_address (remoteAddress i)) as [r|] eqn:Er; unfold socket_values, given; by rewrite ?El, ?Er.
Qed.

(** The end of a record: [w2] is added to the array. *)
Lemma append_run a w2 n w : exists r a',
  match JsonArrayWriter_AddObject a w2 with
  | (JSON_WRITER_OK, a, _) => ret (EVENT_COLLECTOR_OK, a)
  | (_, a, _) => ret (EVENT_COLLECTOR_EXCEPTION, a)
  end (bump n w) = Some ((r, a'), bump n w) /\
  append_object a w2 = if decide (r = EVENT_COLLECTOR_OK) then Some a' else None.
Proof.
  unfold JsonArrayWriter_AddObject, append_object.
  destruct (json_array_append_value (aw_rootValue a) (aw_rootArray a) (wr_rootValue w2)); cbn [mbind option_bind]; by eexists _, _.
Qed.

Lemma AddSingleRecord_run a i protocolType m owners w : reliable w -> ports_fit i -> maps_to m owners ->
  exists n r a', ListeningPortCollector_AddSingleRecord a i protocolType (Some m) w = Some ((r, a'), bump n w) /\
    (socket ← socket_of i; add_socket owners a (protocolType, socket)) = if decide (r = EVENT_COLLECTOR_OK) then Some a' else None.
Proof.
  intros Hr [Hp1 Hp2] Hm. unfold ListeningPortCollector_AddSingleRecord. rewrite (bind_eq _ _ _ _ _ (WriterInit_new w Hr)).
  destruct new_writer as [w0|] eqn:Enew.
  2:{ exists 1%nat, EVENT_COLLECTOR_EXCEPTION, a. split; [done|]. destruct (socket_of i); [|done]. cbn. unfold add_socket. by rewrite Enew. }
  rewrite (bind_eq _ _ _ _ _ (WriterInit_new _ (reliable_bump 1 w Hr))), Enew, bump_bump, (add_socket_parts owners a protocolType i w0 Enew).
  unfold ListenintPortsIterator_GetLocalAddress, ListenintPortsIterator_GetLocalPort, ListenintPortsIterator_GetRemoteAddress, ListenintPortsIterator_GetRemotePort.
  rewrite !address_value, !port_value by done.
  destruct (given_run (socket_values protocolType i) w0 (bump (1 + 1) w)) as (ok & w1 & Hrun & ->).
  change (run_steps (map _ (socket_values protocolType i)) w0 (bump (1 + 1) w)) with (run_steps
    [string_step LISTENING_PORTS_PROTOCOL_KEY protocolType; computed_step LISTENING_PORTS_LOCAL_ADDRESS_KEY (ret (proc_address (localAddress i)));
     computed_step LISTENING_PORTS_LOCAL_PORT_KEY (ret (Some (port_text (localPort i))));
     computed_step LISTENING_PORTS_REMOTE_ADDRESS_KEY (ret (proc_address (remoteAddress i)));
     computed_step LISTENING_PORTS_REMOTE_PORT_KEY (ret (Some (port_text (remotePort i))))] w0 (bump (1 + 1) w)) in Hrun.
  rewrite (bind_eq _ _ _ _ _ Hrun). destruct ok; cbn [negb mbind option_bind]; [|by exists (1 + 1)%nat, EVENT_COLLECTOR_EXCEPTION, a].
  pose proof (details_run i m owners w0 w1 Hm Enew) as Hd.
  destruct (ListeningPortCollector_PopulateExtraDetails i w0 (Some m)) as [r details]. rewrite Hd. clear Hd.
  destruct (decide (r = EVENT_COLLECTOR_OK)) as [->|Hne]; [|rewrite decide_True by done; by exists (1 + 1)%nat, EVENT_COLLECTOR_EXCEPTION, a].
  rewrite decide_False by tauto. cbn [JsonObjectWriter_GetSize]. rewrite bool_decide_true by done. cbn [andb].
  destruct (0 <? u32 _); cbn [mbind option_bind]; [|rewrite decide_False by tauto; exists (1 + 1)%nat; apply append_run].
  unfold JsonObjectWriter_WriteObject, write_object.
  destruct (json_object_set_value (wr_rootValue w1) (wr_rootObject w1) EXTRA_DETAILS_KEY (wr_rootValue details)); cbn [mbind option_bind fst].
  - rewrite decide_False by tauto. exists (1 + 1)%nat. apply append_run.
  - rewrite decide_True by done. by exists (1 + 1)%nat, EVENT_COLLECTOR_EXCEPTION, a.
Qed.

(** ** Lemmas: the tables *)

(** How a step ends that should make [want] of the array. *)
Definition array_made (want : option JsonArrayWriter) (r : EventCollectorResult) (a' : JsonArrayWriter) : Prop :=
  want = if decide (r = EVENT_COLLECTOR_OK) then Some a' else None.

Definition with_type (protocolType : string) (l : list Socket) : list (string * Socket) := map (fun socket => (protocolType, socket)) l.

(** The iterator was just moved to the first of [records]. *)
Lemma sockets_loop_run fuel records arr a text protocolType m owners s0 s :
  reliable (world_of s0) -> iterator_stepped a s0 s -> iterator_reads a text s -> lines MAX_LINE_LENGTH text = records -> maps_to m owners ->
  Forall (fun line => scanned line <> None) records -> (List.length records <= fuel)%nat ->
  exists r arr' s', (iteratorResult <- ListenintPortsIterator_GetNext a ;;
      sockets_loop fuel iteratorResult arr a protocolType (Some m)) s = Some ((r, arr'), s') /\ iterator_stepped a s0 s' /\
    array_made (l ← all_sockets records; add_sockets owners arr (with_type protocolType l)) r arr'.
Proof.
  revert text records arr s. induction fuel as [|fuel IH]; intros text records arr s Hr Hst Hreads Hlines Hm Hscan Hfuel;
    pose proof (PortsGetNext_run a text s (stepped_reliable _ _ _ Hst Hr) Hreads) as Hnext; rewrite Hlines in Hnext; destruct records as [|line records];
    [| cbn in Hfuel; lia | |].
  1,2: destruct Hnext as (s1 & H & Hst1); rewrite (bind_eq _ _ _ _ _ H); exists EVENT_COLLECTOR_OK, arr, s1; repeat split;
       by eapply stepped_trans.
  apply Forall_cons in Hscan as [Hl Hscan]. cbn [all_sockets]. destruct (scanned line) as [[j|]|] eqn:Ej; [| |done].
  2:{ destruct Hnext as (s1 & H & Hst1). rewrite (bind_eq _ _ _ _ _ H). exists EVENT_COLLECTOR_EXCEPTION, arr, s1. repeat split; by eapply stepped_trans. }
  destruct Hnext as (s1 & f & text' & H & Hst1 & Hi & Hreads1 & Hlines1 & _). rewrite (bind_eq _ _ _ _ _ H). cbn [mbind option_bind sockets_loop].
  rewrite (bind_eq _ _ _ _ _ (load_run a _ s1 Hi)). pose proof (stepped_trans _ _ _ _ Hst Hst1) as Hst2.
  pose proof (stepped_reliable _ _ _ Hst2 Hr) as Hr1.
  destruct (AddSingleRecord_run arr (set_procFile f j) protocolType m owners (world_of s1) Hr1 (scanned_ports _ _ Ej) Hm) as (n & r & arr1 & H1 & Hadd).
  rewrite (bind_eq _ _ _ _ _ (up_bump _ _ n s1 H1)). change (socket_of (set_procFile f j)) with (socket_of j) in Hadd.
  pose proof (stepped_trans _ _ _ _ Hst2 (stepped_elapse a _ n s1 Hi)) as Hst3.
  destruct (decide (r = EVENT_COLLECTOR_OK)) as [->|Hne].
  - rewrite decide_False by tauto. destruct (socket_of j) as [socket|]; [|done]. cbn [mbind option_bind] in *.
    assert (Hreads2 : iterator_reads a text' (elapse n s1)) by (destruct Hreads1 as (i & fl & ? & ? & ?); by exists i, fl).
    cbn [List.length] in Hfuel.
    destruct (IH text' records arr1 (elapse n s1) Hr Hst3 Hreads2 Hlines1 Hm Hscan ltac:(lia)) as (r2 & arr2 & s2 & H2 & Hst4 & Hmade).
    exists r2, arr2, s2. split; [exact H2|]. split; [exact Hst4|]. unfold array_made in *. rewrite <- Hmade.
    destruct (all_sockets records) as [l|]; cbn [mbind option_bind]; [|done]. unfold with_type. cbn [map add_sockets]. by rewrite Hadd.
  - rewrite decide_True by done. exists EVENT_COLLECTOR_EXCEPTION, arr1, (elapse n s1). split; [done|]. split; [exact Hst3|]. unfold array_made.
    destruct (socket_of j) as [socket|]; cbn [mbind option_bind] in *; [|done].
    destruct (all_sockets records) as [l|]; cbn [mbind option_bind]; [|done]. unfold with_type. cbn [map add_sockets]. by rewrite Hadd.
Qed.

(** Addresses that were never used are free. *)
Definition unused_addresses (s : PortsState) : Prop := forall k, (ps_next s <= k)%nat -> ps_iterators s !! k = None.

Definition set_ps_next (k : nat) (s : PortsState) : PortsState := mkPortsState (ps_store s) (ps_system s) (ps_iterators s) k.

(** Only time has passed, and addresses were used. *)
Definition ports_only_read (s s' : PortsState) : Prop := exists n k, (ps_next s <= k)%nat /\ s' = set_ps_next k (elapse n s).

Lemma only_read_trans s s1 s2 : ports_only_read s s1 -> ports_only_read s1 s2 -> ports_only_read s s2.
Proof.
  intros (n & k & Hk & ->) (m & j & Hj & ->). exists (m + n)%nat, j. cbn in Hj. split; [lia|]. rewrite <- elapse_elapse. by destruct s as [[] ? ? ?].
Qed.

Lemma only_read_elapse n s : ports_only_read s (elapse n s).
Proof. exists n, (ps_next s). split; [lia|]. by destruct s as [[] ? ? ?]. Qed.

Lemma only_read_fresh s s' : ports_only_read s s' -> unused_addresses s -> unused_addresses s'.
Proof. intros (n & k & Hk & ->) Hf j Hj. cbn in *. apply Hf. lia. Qed.

Lemma only_read_same s s' : ports_only_read s s' ->
  ps_system s' = ps_system s /\ ps_iterators s' = ps_iterators s /\ (reliable (world_of s) -> reliable (world_of s')) /\
  only_monitor (world_of s) (world_of s').
Proof. intros (n & k & Hk & ->). by repeat split. Qed.

Definition socket_lines (text : string) : list string := List.tl (lines MAX_LINE_LENGTH text).

Lemma AddPortsByType_run fuel arr protocolType m owners text s :
  reliable (world_of s) -> unused_addresses s -> maps_to m owners -> proc_file (ps_system s) (ports_file protocolType) = Some text ->
  Forall (fun line => scanned line <> None) (socket_lines text) -> (List.length (lines MAX_LINE_LENGTH text) <= fuel)%nat ->
  exists r arr' s', ListeningPortCollector_AddPortsByType fuel arr protocolType (Some m) s = Some ((r, arr'), s') /\ ports_only_read s s' /\
    array_made (l ← protocol_sockets (ps_system s) protocolType; add_sockets owners arr l) r arr'.
Proof.
  intros Hr Hf Hm Htext Hscan Hfuel. unfold ListeningPortCollector_AddPortsByType, protocol_sockets.
  pose proof (PortsInit_run protocolType s Hr (Hf _ (le_n _))) as Hinit. cbv zeta in Hinit. rewrite Htext in Hinit.
  destruct Hinit as (n & i & s0 & H & -> & text' & Hreads & Hlines & _). rewrite (bind_eq _ _ _ _ _ H). set (a := ps_next s) in *.
  set (s0 := mkPortsState _ _ _ (S a)) in *. rewrite decide_False by tauto. cbn [deref].
  destruct (sockets_loop_run fuel (socket_lines text) arr a text' protocolType m owners s0 (with_iterator a i (elapse n s0))) as (r & arr' & s' & H2 & (n2 & i2 & ->) & Hmade);
    [exact Hr | by exists n, i | exact Hreads | exact Hlines | exact Hm | exact Hscan | |].
  { unfold socket_lines. destruct (lines MAX_LINE_LENGTH text); cbn [List.tl List.length] in *; lia. }
  rewrite bind_assoc, bind_ret_l. rewrite (bind_eq _ _ _ _ _ H2). cbn [fst snd].
  rewrite (bind_eq _ _ _ _ _ (PortsDeinit_run a i2 _ (iterator_of_with _ _ _))). eexists r, arr', _. split; [reflexivity|].
  split; [|rewrite Htext; cbn [mbind option_bind]; by destruct (all_sockets _)].
  exists n2, (S a). split; [unfold a; lia|]. unfold set_iterators, with_iterator, set_ps_next. cbn.
  rewrite delete_insert_eq, delete_id by (apply Hf; unfold a; lia). by destruct s as [[] ? ? ?].
Qed.

Lemma protocols_loop_run fuel types arr m owners s :
  reliable (world_of s) -> unused_addresses s -> maps_to m owners ->
  Forall (fun protocolType => exists text, proc_file (ps_system s) (ports_file protocolType) = Some text /\
    Forall (fun line => scanned line <> None) (socket_lines text) /\ (List.length (lines MAX_LINE_LENGTH text) <= fuel)%nat) types ->
  exists r arr' s', protocols_loop fuel types arr (Some m) s = Some ((r, arr'), s') /\ ports_only_read s s' /\
    array_made (l ← sockets_of (ps_system s) types; add_sockets owners arr l) r arr'.
Proof.
  revert arr s. induction types as [|protocolType types IH]; intros arr s Hr Hf Hm Htypes; cbn [protocols_loop].
  { exists EVENT_COLLECTOR_OK, arr, s. split; [done|]. split; [|done]. rewrite <- (elapse_0 s) at 2. apply only_read_elapse. }
  apply Forall_cons in Htypes as [(text & Htext & Hscan & Hlen) Htypes].
  destruct (AddPortsByType_run fuel arr protocolType m owners text s Hr Hf Hm Htext Hscan Hlen) as (r & arr1 & s1 & H1 & Ho & Hmade).
  rewrite (bind_eq _ _ _ _ _ H1). destruct (only_read_same s s1 Ho) as (Hsys & _ & Hr1 & _).
  assert (Happ : forall arr l l', add_sockets owners arr (l ++ l') = (arr ← add_sockets owners arr l; add_sockets owners arr l')).
  { clear. intros arr l. revert arr. induction l as [|x l IH]; intros arr l'; [done|]. cbn [app add_sockets].
    destruct (add_socket owners arr x) as [arr1|]; cbn [mbind option_bind]; [apply IH | done]. }
  unfold sockets_of in *. cbn [mapM]. unfold array_made in *. destruct (decide (r = EVENT_COLLECTOR_OK)) as [->|Hne].
  - rewrite decide_False by tauto. destruct (protocol_sockets (ps_system s) protocolType) as [l|]; [|done]. cbn [mbind option_bind] in *.
    destruct (IH arr1 s1 (Hr1 Hr) (only_read_fresh _ _ Ho Hf) Hm) as (r2 & arr2 & s2 & H2 & Ho2 & Hmade2); [by rewrite Hsys|].
    exists r2, arr2, s2. split; [exact H2|]. split; [by eapply only_read_trans|]. rewrite <- Hmade2, Hsys.
    destruct (mapM (protocol_sockets (ps_system s)) types) as [ls|]; cbn [mbind option_bind mret option_ret List.concat]; [|done].
    by rewrite Happ, Hmade.
  - rewrite decide_True by done. exists EVENT_COLLECTOR_EXCEPTION, arr1, s1. split; [done|]. split; [exact Ho|].
    destruct (protocol_sockets (ps_system s) protocolType) as [l|]; [|done]. cbn [mbind option_bind] in *.
    destruct (mapM (protocol_sockets (ps_system s)) types) as [ls|]; cbn [mbind option_bind mret option_ret List.concat]; [|done].
    by rewrite Happ, Hmade.
Qed.

(** ** Lemmas: the event *)

Lemma max_above (f : string -> nat) (l : list string) : Forall (fun x => (f x <= foldr Nat.max 0%nat (map f l))%nat) l.
Proof.
  induction l as [|x l IH]; [constructor|]. cbn [map foldr]. apply Forall_cons. split; [lia|]. eapply Forall_impl; [exact IH|]. cbn. lia.
Qed.

Lemma tables_fuel sys fuel : tables_readable sys -> (table_lines sys <= fuel)%nat ->
  Forall (fun protocolType => exists text, proc_file sys (ports_file protocolType) = Some text /\
    Forall (fun line => scanned line <> None) (socket_lines text) /\ (List.length (lines MAX_LINE_LENGTH text) <= fuel)%nat) PROTOCOL_TYPES.
Proof.
  unfold tables_readable, table_lines. set (f := fun protocolType => match _ with Some _ => _ | None => _ end). intros Ht Hf.
  pose proof (max_above f PROTOCOL_TYPES) as Hmax. eapply Forall_impl; [exact (proj2 (Forall_and _ _) (conj Ht Hmax))|].
  intros protocolType [(text & Htext & Hl) Hb]. exists text. split; [done|]. split; [exact Hl|].
  unfold f at 1 in Hb. rewrite Htext in Hb. cbv beta in *. lia.
Qed.

(** The payload that the result tells about. *)
Definition payload_added (sys : System) (event : JsonObjectWriter) (r : EventCollectorResult) (event' : JsonObjectWriter) : Prop :=
  r = EVENT_COLLECTOR_OK -> exists a0 a a', new_array = Some a0 /\ ports_added sys a0 = Some a /\
    GenericEvent_AddPayload event a = (EVENT_COLLECTOR_OK, event', a').

Lemma AddPorts_run fuel event s :
  reliable (world_of s) -> unused_addresses s -> tables_readable (ps_system s) -> (table_lines (ps_system s) <= fuel)%nat ->
  exists r event' s', ListeningPortCollector_AddPorts fuel event s = Some ((r, event'), s') /\ ports_only_read s s' /\
    payload_added (ps_system s) event r event'.
Proof.
  intros Hr Hf Ht Hfuel. unfold ListeningPortCollector_AddPorts, payload_added, ports_added.
  assert (Hc : Map_Create (world_of s) = Some (Some map_empty, bump 1 (world_of s))).
  { unfold Map_Create. by rewrite (bind_eq _ _ _ _ _ (malloc_reliable _ Hr)). }
  rewrite (bind_eq _ _ _ _ _ (up_bump _ _ 1 s Hc)).
  assert (Hg : gets ps_system (elapse 1 s) = Some (ps_system s, elapse 1 s)) by done. rewrite (bind_eq _ _ _ _ _ Hg).
  assert (Hm0 : maps_to map_empty []) by (intros inode; by rewrite map_empty_law, lookup_empty).
  assert (Hr1 : reliable (world_of (elapse 1 s))) by exact Hr.
  destruct (PopulateInodesMap_run (ps_system s) map_empty (world_of (elapse 1 s)) Hr1 Hm0) as (n & r & m & H1 & Hm).
  rewrite (bind_eq _ _ _ _ _ (up_bump _ _ n _ H1)), elapse_elapse.
  assert (Hstop : forall r s', r <> EVENT_COLLECTOR_OK -> ports_only_read s s' ->
    exists r' event' s'', ret (r, event) s' = Some ((r', event'), s'') /\ ports_only_read s s'' /\
      (r' = EVENT_COLLECTOR_OK -> exists a0 a a', new_array = Some a0 /\
        (owners ← socket_owners (ps_system s); sockets ← sockets_of (ps_system s) PROTOCOL_TYPES; add_sockets owners a0 sockets) = Some a /\
        GenericEvent_AddPayload event a = (EVENT_COLLECTOR_OK, event', a'))).
  { intros r' s' Hne Ho. by exists r', event, s'. }
  destruct (socket_owners (ps_system s)) as [owners|]; cbn [mbind option_bind]; [|rewrite decide_True by done; apply Hstop; [done | apply only_read_elapse]].
  destruct Hm as [-> Hm]. rewrite decide_False by tauto.
  assert (Hr2 : reliable (world_of (elapse (n + 1) s))) by exact Hr. pose proof (ArrayInit_new _ Hr2) as Harr.
  rewrite (bind_eq _ _ _ _ _ (up_bump _ _ 1 _ Harr)), elapse_elapse.
  destruct new_array as [a0|] eqn:Ea; [|apply Hstop; [done | apply only_read_elapse]]. set (s1 := elapse (1 + (n + 1)) s).
  pose proof (only_read_elapse (1 + (n + 1)) s) as Ho1. fold s1 in Ho1.
  destruct (protocols_loop_run fuel PROTOCOL_TYPES a0 m owners s1) as (r & a & s2 & H2 & Ho2 & Hmade);
    [exact Hr | by eapply only_read_fresh | exact Hm | by apply tables_fuel |]. rewrite (bind_eq _ _ _ _ _ H2).
  pose proof (only_read_trans _ _ _ Ho1 Ho2) as Ho. destruct (decide (r = EVENT_COLLECTOR_OK)) as [->|Hne].
  - rewrite decide_False by tauto. destruct (GenericEvent_AddPayload event a) as [[r event'] a'] eqn:Ep. cbn [fst].
    exists r, event', s2. split; [done|]. split; [exact Ho|]. intros ->. exists a0, a, a'. split; [done|]. by split.
  - rewrite decide_True by done. by apply Hstop.
Qed.

Context {MonLaws : MemoryMonitorLaws Mon}.

(** C15: The event of the listening ports has a payload for each socket that the
    tables of the protocols show, in their order: its protocol, its two addresses
    and ports, and as extra details the first process in which the system lists a
    descriptor of that socket, when there is one.  There is no event when a line
    of a table has another form, the processes cannot be listed, or the process of a
    socket has a number of more than eight digits.  When no allocation fails, every table
    can be opened and no inode is longer than its field, the collection always
    ends, with one event or with none and the queue as it was, and every iterator
    that it made is freed. *)
Theorem ListeningPort_GetEvents_correct fuel queue (s : PortsState) items :
  sync_holds queue (ps_store s) items -> times_fit (env (world_of s)) -> Z.of_nat (List.length items) < UINT32_MAX ->
  unused_addresses s -> tables_readable (ps_system s) -> (table_lines (ps_system s) <= fuel)%nat ->
  exists r queue' s' new, ListeningPortCollector_GetEvents fuel queue s = Some ((r, queue'), s') /\
    sync_holds queue' (ps_store s') (items ++ new) /\ only_monitor (world_of s) (world_of s') /\
    ps_iterators s' = ps_iterators s /\
    queued (fun a0 a => ports_added (ps_system s) a0 = Some a) r new.
Proof.
  intros Hq Hf Hlen Hfresh Ht Hfuel. unfold ListeningPortCollector_GetEvents.
  assert (Hr : reliable (world_of s)) by exact (sync_holds_reliable _ _ _ Hq).
  assert (Hstop : forall r n k, r <> EVENT_COLLECTOR_OK -> exists r' queue' s' new,
    ret (r, queue) (set_ps_next k (elapse n s)) = Some ((r', queue'), s') /\ sync_holds queue' (ps_store s') (items ++ new) /\
    only_monitor (world_of s) (world_of s') /\ ps_iterators s' = ps_iterators s /\
    queued (fun a0 a => ports_added (ps_system s) a0 = Some a) r' new).
  { intros r n k Hne. exists r, queue, (set_ps_next k (elapse n s)), []. rewrite app_nil_r. split; [done|].
    split; [exact (sync_holds_elapse queue (ps_store s) items n Hq)|]. split; [apply (only_monitor_bump n)|]. split; [done|]. by destruct r. }
  assert (Hsame : forall n, elapse n s = set_ps_next (ps_next s) (elapse n s)) by (intros n; by destruct s as [[] ? ? ?]).
  rewrite (bind_eq _ _ _ _ _ (up_bump _ _ 1 s (WriterInit_new _ Hr))).
  destruct new_writer as [event|]; [|rewrite Hsame; by apply Hstop].
  assert (Hf1 : times_fit (env (world_of (elapse 1 s)))) by exact Hf.
  destruct (AddMetadata_run (world_of (elapse 1 s)) event EVENT_PERIODIC_CATEGORY LISTENING_PORTS_NAME EVENT_TYPE_SECURITY_VALUE
    LISTENING_PORTS_PAYLOAD_SCHEMA_VERSION Hf1) as (r1 & event1 & n1 & H1).
  rewrite (bind_eq _ _ _ _ _ (up_bump _ _ n1 _ H1)), elapse_elapse. case_decide as Hd; [rewrite Hsame; by apply Hstop|].
  destruct (AddPorts_run fuel event1 (elapse (n1 + 1) s)) as (r2 & event2 & s2 & H2 & (n2 & k & Hk & ->) & Hp); [exact Hr | exact Hfresh | done | done |].
  rewrite (bind_eq _ _ _ _ _ H2), elapse_elapse. case_decide as Hd2; [by apply Hstop|].
  assert (r2 = EVENT_COLLECTOR_OK) as -> by (destruct r2; tauto).
  destruct (Hp eq_refl) as (a0 & a & a' & Ha0 & Hadd & Hev). set (s2 := set_ps_next k _).
  assert (Hq2 : sync_holds queue (ps_store s2) items) by exact (sync_holds_elapse queue (ps_store s) items _ Hq).
  destruct (push_event_run queue (ps_store s2) items event2 Hq2 Hlen) as (r & q & st & new & Hpush & Hq' & Ho & Hnew).
  exists r, q, (mkPortsState st (ps_system s2) (ps_iterators s2) (ps_next s2)), new.
  split; [unfold on_ports_queue; by rewrite Hpush|]. split; [exact Hq'|].
  split; [eapply only_monitor_trans; [apply (only_monitor_bump (n2 + (n1 + 1))) | exact Ho]|]. split; [done|].
  destruct r; try done. destruct Hnew as (text & b & Htx & ->). exists a0, a, text, b.
  split; [done|]. split; [exact Hadd|]. split; [by exists event1, event2, a' | done].
Qed.

(** A protocol whose table cannot be opened, as on a device without IPv6: the
    iterator frees itself and is freed again by the collector. *)
Lemma missing_table_undefined fuel arr protocolType inodesMap s : reliable (world_of s) -> unused_addresses s ->
  proc_file (ps_system s) (ports_file protocolType) = None ->
  ListeningPortCollector_AddPortsByType fuel arr protocolType inodesMap s = None.
Proof.
  intros Hr Hf Hnone. unfold ListeningPortCollector_AddPortsByType.
  pose proof (PortsInit_run protocolType s Hr (Hf _ (le_n _))) as Hinit. cbv zeta in Hinit. rewrite Hnone in Hinit.
  destruct Hinit as (s' & H & Hfreed). rewrite (bind_eq _ _ _ _ _ H). rewrite decide_True by done. rewrite bind_ret_l.
  unfold ListenintPortsIterator_Deinit, load_iterator, gets, bind. by rewrite Hfreed.
Qed.

End PortsLemmas.

(** ** Witness *)

#[export] Instance model_counts parse print : ObjectCounts (model_parson parse print).
Proof. split; [by intros w [= <-] | by intros w key value d [= <-] [= <-]]. Qed.

Definition newline : string := String "010" EmptyString.
Definition heading : string := ("  sl  local_address rem_address   st tx_queue rx_queue tr tm->when retrnsmt   uid  timeout inode" ++ newline)%string.

(** A device with a printing service as process 812. *)
Definition sample_system : System := mkSystem
  (fun name => Some (if String.eqb name "/proc/net/tcp" then heading ++ sample_line else heading)%string)
  (fun _ => Some ["1"; "812"; "self"]%string)
  (fun command => Some (if String.eqb command "ls -l /proc/812/fd"
     then "total 0" ++ newline ++ "lrwx------ 1 root root 64 Oct  2 09:06 3 -> socket:[22017]" ++ newline else "total 0" ++ newline)%string).

Example sample_owners : socket_owners sample_system = Some [("22017", "812")]%string.
Proof. vm_compute. reflexivity. Qed.

Example sample_sockets : sockets_of sample_system PROTOCOL_TYPES =
  Some [("tcp", mkSocket ("127.0.0.1", "631") ("0.0.0.0", "*") "22017")]%string.
Proof. vm_compute. reflexivity. Qed.

Definition ports_state : PortsState := mkPortsState still_store sample_system ∅ 0.

Lemma sample_readable : tables_readable sample_system.
Proof.
  unfold tables_readable. repeat apply Forall_cons_2; [..|apply Forall_nil_2]; eexists; (split; [reflexivity|]);
    match goal with |- Forall _ ?l => let x := eval vm_compute in l in change l with x end;
    repeat apply Forall_cons_2; try apply Forall_nil_2; by vm_compute.
Qed.

Lemma ListeningPort_GetEvents_correct_witness :
  exists r queue' s' new,
    ListeningPortCollector_GetEvents (P := event_parson) (Mon := synchronized_monitor) (Sm := sample_map) 2 two_queue ports_state = Some ((r, queue'), s') /\
    sync_holds queue' (ps_store s') (two_items ++ new) /\ ps_iterators s' = ∅.
Proof.
  destruct (ListeningPort_GetEvents_correct (P := event_parson) (Mon := synchronized_monitor) (Sm := sample_map) (SmLaws := sample_map_laws)
    2 two_queue ports_state two_items) as (r & q & s' & new & H & Hq & _ & Hi & _);
    [exact (still_holds _ _ two_holds) | | done | done | exact sample_readable | by vm_compute; repeat constructor |].
  - intros t x [[= <-]|[= <-]]; by vm_compute.
  - exists r, q, s', new. split; [exact H|]. split; [exact Hq | exact Hi].
Defined.
